(* ===== verification/_CoqProject ===== *)
-Q . S2P
Prelude.v
Types.v
Mem.v
Kalloc.v
PageTable.v
Cons.v
Vm.v
VmProofs.v
VmUser.v
VmSpec.v
Shm.v
ShmProofs.v
Spinlock.v
Sched.v
SleepWake.v
Ide.v
Bio.v
UserMem.v
UserView.v
Inode.v
Console.v
Fs.v
FsBlocks.v
FsFile.v
FsWrite.v
FsSpec.v
FsTrunc.v
FsClaims.v
Pipe.v
PipeProofs.v
File.v
Proc.v
Exec.v
Syscall.v
Trap.v
Boot.v
Procs.v
Machine.v
Grep.v
Umalloc.v
Sh.v
ShProofs.v
ShPrint.v
ShRun.v
Thread.v
Ulib.v
Uprogs.v
Bootmain.v
Mp.v
Mkfs.v
MkfsBlocks.v
MkfsProofs.v
Irq.v
Main.v
MainProofs.v
Asm.v
