(* ===== verification/Prelude.v ===== *)
(** * A verification of the xv6 system of CS 537

    The program is a small Unix-like operating system for the x86 (directories [kernel/] and
    [include/]), with the extensions of the course projects: counting system calls (p1), a
    multi-level feedback queue scheduler (p2), shared memory segments (p3), kernel threads
    (p4) and block checksums (p5); with user programs ([user/]) and the program that builds
    the file system image ([tools/mkfs.c]).  This library translates the C code into Gallina
    functions and proves theorems about them.

    ** How C is translated

    The global variables of the kernel are the fields of one record, [kernel] in [Types.v]:
    physical memory, the free list, the process table, the caches of inodes, buffers and
    files, the queues of the devices.  A function is a term of the monad [M kernel] below.  An
    outcome is a value and a new state, a [panic], a busy wait that never ends, or [Switched]:
    the process has given up its CPU in [sched] and comes with what it does when it runs
    again.  [wp] and its variants are the weakest preconditions of this monad; [wpe] lets an
    environment step run at each switch, for instance the disk that completes requests.
    Early returns and [goto bad] are written as the nested conditions they amount to.

    Machine integers are in [Z]; [u8], [u32] and [s32] wrap values where C does and where
    it matters.  Memory is a function from addresses to bytes.  A pointer into a table (a
    process, a buffer, an inode) is the index of its entry, a pointer into memory is an
    address.  A sleep channel is the identity of the object ([chan]).  Loops are structural
    recursions over what they scan, or take fuel; the fuel is computed from the bound of the
    loop and the theorems show that it is enough ([mpinit] takes it as an argument, because
    on some tables the loop of the code does not end).  The loops that sleep until a condition
    holds have no bound in the code.  They sleep at most as often as the field [wakes] of the
    state says; no code changes this field, and the theorems hold for every value of it, hence
    for runs with any number of wakeups.

    ** The files

    - [Prelude.v] (this file): the monad, its weakest preconditions, integers, lists.
    - [Types.v]: constants and structures of [include/] and of the headers of the kernel,
      the record [kernel], [acquire] and [release] as the code of one CPU sees them.
    - [Mem.v]: [kernel/string.c] and access to memory.
    - [Kalloc.v]: [kernel/kalloc.c].  [Spinlock.v]: [kernel/spinlock.c] on several CPUs.
    - [PageTable.v], [Vm.v], [VmProofs.v], [VmUser.v], [VmSpec.v]: the page tables of
      [kernel/vm.c]; [Vm.v] has the code, [PageTable.v] what a page directory in memory maps,
      and [VmSpec.v] the theorems.  [Shm.v] and [ShmProofs.v]: the shared memory segments.
    - [Sched.v]: the scheduler, [sleep], [wakeup], [kill] of [kernel/proc.c];
      [SleepWake.v]: their interleavings; [Proc.v]: [fork], [clone], [exit], [wait], [join];
      [Boot.v]: [userinit]; [Procs.v]: the invariant of the process table, kept by every
      system call; [Machine.v]: traps, switches and the scheduler as one transition system.
    - [Ide.v], [Bio.v]: the disk driver and the buffer cache.  [Inode.v], [Fs.v]: the code of
      [kernel/fs.c]; [FsBlocks.v], [FsFile.v], [FsWrite.v], [FsSpec.v], [FsTrunc.v],
      [FsClaims.v]: its proofs, from blocks to whole files.
    - [Pipe.v], [PipeProofs.v], [File.v]: [kernel/pipe.c] and [kernel/file.c].
    - [Cons.v], [Console.v]: [kernel/console.c], [kernel/kbd.c], [kernel/uart.c].
    - [UserMem.v], [UserView.v]: memory seen through a page table.  [Exec.v], [Syscall.v],
      [Trap.v]: [kernel/exec.c], [kernel/syscall.c] with [kernel/sysfile.c] and
      [kernel/sysproc.c], and [kernel/trap.c].
    - [Bootmain.v], [Mp.v]: the boot loader and the tables of the processors.  [Irq.v]:
      [kernel/picirq.c], [kernel/ioapic.c], [kernel/lapic.c] and [kernel/timer.c];
      [Main.v], [MainProofs.v]: [kernel/main.c].
    - [Asm.v]: [kernel/swtch.S], [kernel/trapasm.S], the entry points of
      [kernel/vectors.pl], [user/usys.S], and the start of [kernel/initcode.S].
    - [Mkfs.v], [MkfsBlocks.v], [MkfsProofs.v]: [tools/mkfs.c].
    - [Umalloc.v], [Thread.v], [Ulib.v]: [user/umalloc.c], [user/ulib.c], [user/printf.c] and
      [user/wc.c].  [Sh.v], [ShProofs.v], [ShPrint.v], [ShRun.v]: [user/sh.c].
      [Grep.v]: [user/grep.c].  [Uprogs.v]: the small programs ([cat], [echo], [ls], [rm],
      [init] and others) as interaction trees over the system calls.

    ** What the theorems show

    - Processes ([Machine.machine_safe]): on one CPU, in every interleaving of user code,
      interrupts of user code, system calls and the scheduler, the reference table counts for
      each page directory the processes that use it, identifiers are unique as long as fewer
      than 2^31 have been given out, and the panic for a lost count does not happen.  A clock
      interrupt inside [fork] is outside of this model, and there the count can be late
      ([Machine.fork_window]).  Below the C code, a process that gave up the CPU in [swtch] resumes after its
      call, and an interrupt leaves the registers of the interrupted code as they were
      ([Asm.swtch_resumes], [Asm.interrupt_transparent]).
    - Scheduling: the process that runs is the first of the best queue, a process that the
      rounds of [scheduler] pass over rises to the top queue, and ticks are spent over the
      queues in order.  No wakeup is lost, and locks exclude each other and restore the
      interrupt flag, in every interleaving of the steps of several CPUs.
    - Memory: the free list, the kernel map, growing, copying and freeing address spaces, and
      writing to them, with all failures for lack of pages.  Shared segments are created,
      attached at the same physical pages, inherited and released.
    - Files: reading and writing through the cache and the disk queue refine an abstract file
      (a list of bytes), down to the bitmap and the inodes on the disk; truncation frees
      exactly the blocks of a file; a corrupt block makes [readi] fail.  The image that
      [mkfs] builds holds the tree of the host and satisfies the invariant under which the
      theorems on the kernel's files are proved ([MkfsProofs.mkfs_correct]).
    - Devices: the disk interrupt, the cache replacement, the console line editor, pipes as
      bounded queues.
    - Boot: the loader puts the segments of the kernel at their addresses; [mpinit] reads the
      tables of the BIOS; [main] reaches the scheduler with the kernel map, the interrupt
      controllers, the processors, the caches and the first process set up, in a state from
      which the machine of [Machine.v] starts ([MainProofs.main_correct]).
    - User programs: [malloc] and [free], for requests below 2^31 bytes, never hand out
      overlapping blocks; the stacks of threads are disjoint and [thread_join] frees them; the
      parser of the shell terminates and inverts printing, and a session in which commands are
      typed as they print runs the programs that its lines denote, in the right order; [grep] decides its regular expressions;
      [cat], [echo], [ls] of a directory, [rm] and [kill] end, whatever the system calls
      answer, and have written, removed or signalled what they should.

    ** Assumptions

    The addresses that the linker chooses ([Linker], [CodeSyms]) are parameters with the facts
    the code relies on.  Hardware is modelled where the code waits for it: the disk serves the
    request it was given, the ports of the screen, the keyboard, the serial line and the local
    APIC return arbitrary values, the 8259A chips are modelled from their data sheet, and a
    processor that is started comes up or not as a parameter says.  The system calls of the
    host that [mkfs] uses are taken to succeed, and those that the shell, the threads and the
    small programs use behave as their specification in the model.

    ** Not modelled

    The start-up code in assembly ([kernel/bootasm.S], [kernel/bootother.S],
    [kernel/multiboot.S]): it changes the mode of the processor.  In the C part [swtch] is the
    outcome [Switched] and the entry code is the trap frame that [trap] receives; [Asm.v] is
    about that code on its own.  [init] is modelled, but as it does not end no theorem is about
    it.  Not modelled are the programs that test the system, which only call it.

    Processes are interleaved at the points where the kernel gives up the CPU.  A clock
    interrupt in the kernel, which also yields, is not a step of [Machine.v]; several CPUs in
    the kernel at once are modelled for the locks and for [sleep] and [wakeup].  The theorems
    on writing and truncating files are for files without checksums: for checked files the
    code keeps checksum bits in the block addresses it uses.  [freevm] is shown to return the
    pages below the shared region of the calling process, which is what the code frees.
    [mpinit] is followed up to the store that leaves the array of processors. *)
From stdpp Require Export base tactics list sets strings.
From Stdlib Require Export ZArith Lia.

#[global] Open Scope Z_scope.

(** ** Wait channels

    [sleep] and [wakeup] take a [void *] whose only use is to be compared for
    equality: the address of the kernel object slept on.  Distinct objects have
    distinct addresses, so the address is modelled by the object's identity. *)
Inductive chan : Type :=
| ChProc (i : nat)      (** [&ptable.proc[i]] *)
| ChTicks               (** [&ticks] *)
| ChBuf (b : nat)       (** [&bcache.buf[b]] *)
| ChInode (i : nat)     (** [&icache.inode[i]] *)
| ChPipeR (p : Z)       (** [&p->nread] of the pipe at address [p] *)
| ChPipeW (p : Z)       (** [&p->nwrite] *)
| ChInput.              (** [&input.r] *)

#[global] Instance chan_eq_dec : EqDecision chan.
Proof. solve_decision. Defined.

(** ** The kernel monad

    A C function that reads and writes the global state of type [S] and returns
    an [A] is a function from the state to an [outcome]. *)
Inductive outcome (S A : Type) : Type :=
| Ret (a : A) (s : S)         (** returned [a] *)
| Panic (msg : string)        (** [panic(msg)]: the machine is stopped *)
| Switched (s : S) (k : S -> outcome S A)
    (** left the CPU in [sched()] (sleep, yield, exit); [k] is what the process does
        when the scheduler resumes it *)
| Spins.                      (** never returns: busy-waits for another CPU or a device *)
Arguments Ret {S A} a s.
Arguments Panic {S A} msg.
Arguments Switched {S A} s k.
Arguments Spins {S A}.

Definition M (S A : Type) : Type := S -> outcome S A.

Definition ret {S A} (a : A) : M S A := fun s => Ret a s.

Fixpoint obind {S A B} (o : outcome S A) (f : A -> M S B) : outcome S B :=
  match o with
  | Ret a s => f a s
  | Panic msg => Panic msg
  | Switched s k => Switched s (fun s' => obind (k s') f)
  | Spins => Spins
  end.
Definition bind {S A B} (m : M S A) (f : A -> M S B) : M S B := fun s => obind (m s) f.

Definition get {S} : M S S := fun s => Ret s s.
Definition gets {S A} (f : S -> A) : M S A := fun s => Ret (f s) s.
Definition modify {S} (f : S -> S) : M S unit := fun s => Ret tt (f s).
Definition panic {S A} (msg : string) : M S A := fun _ => Panic msg.
Definition switch {S} : M S unit := fun s => Switched s (fun s' => Ret tt s').
Definition spin {S A} : M S A := fun _ => Spins.
Definition when {S} (b : bool) (m : M S unit) : M S unit := if b then m else ret tt.

Declare Scope kern_scope.
Delimit Scope kern_scope with kern.
Notation "'let!' x := m 'in' k" := (bind m (fun x => k))
  (at level 10, x name, m at level 100, k at level 200) : kern_scope.
Notation "'let!' ' p := m 'in' k" := (bind m (fun x => match x with p => k end))
  (at level 10, p strict pattern, m at level 100, k at level 200) : kern_scope.
Notation "m ;; k" := (bind m (fun _ => k))
  (at level 100, k at level 200, right associativity) : kern_scope.
#[global] Open Scope kern_scope.

(** *** Reasoning about outcomes

    [wp m s Q]: run from [s], [m] returns (no panic, no sleep, no spinning) and
    its result and final state satisfy [Q]: total correctness. *)
Definition wp {S A} (m : M S A) (s : S) (Q : A -> S -> Prop) : Prop :=
  match m s with Ret a s' => Q a s' | _ => False end.

Arguments wp {S A} m s Q : simpl never.
Arguments bind {S A B} m f _ : simpl never.

(** *** Running a sequence *)
Section run_rules.
Context {S A B : Type}.
Implicit Types (s : S).

Lemma bind_run (m : M S A) (f : A -> M S B) s a s' : m s = Ret a s' -> bind m f s = f a s'.
Proof. intros E. unfold bind. by rewrite E. Qed.
Lemma bind_switched (m : M S A) (f : A -> M S B) s s' k :
  m s = Switched s' k -> bind m f s = Switched s' (fun x => obind (k x) f).
Proof. intros E. unfold bind. by rewrite E. Qed.
Lemma bind_panic (m : M S A) (f : A -> M S B) s msg : m s = Panic msg -> bind m f s = Panic msg.
Proof. intros E. unfold bind. by rewrite E. Qed.
Lemma bind_ret (a : A) (f : A -> M S B) s : bind (ret a) f s = f a s.
Proof. done. Qed.
Lemma bind_get (f : S -> M S B) s : bind get f s = f s s.
Proof. done. Qed.
Lemma bind_gets (g : S -> A) (f : A -> M S B) s : bind (gets g) f s = f (g s) s.
Proof. done. Qed.
Lemma bind_modify (g : S -> S) (f : unit -> M S B) s : bind (modify g) f s = f tt (g s).
Proof. done. Qed.
End run_rules.
Create Rewrite HintDb run.
#[export] Hint Rewrite @bind_ret @bind_get @bind_gets @bind_modify : run.

Section wp_rules.
Context {S A B : Type}.
Implicit Types (s : S).

Lemma wp_ret_iff (m : M S A) s Q :
  wp m s Q <-> exists a s', m s = Ret a s' /\ Q a s'.
Proof.
  unfold wp; destruct (m s); split; try naive_solver.
Qed.

Lemma wp_elim (m : M S A) s Q : wp m s Q -> exists a s', m s = Ret a s' /\ Q a s'.
Proof. apply wp_ret_iff. Qed.

Lemma wp_run (m : M S A) s a s' (Q : A -> S -> Prop) :
  m s = Ret a s' -> Q a s' -> wp m s Q.
Proof. intros H HQ; unfold wp; rewrite H; exact HQ. Qed.

Lemma wp_intro_ret (a : A) s (Q : A -> S -> Prop) : Q a s -> wp (ret a) s Q.
Proof. exact id. Qed.

Lemma wp_bind (m : M S A) (f : A -> M S B) s Q :
  wp m s (fun a s' => wp (f a) s' Q) -> wp (bind m f) s Q.
Proof. unfold wp, bind. by destruct (m s). Qed.

Lemma wp_bind_inv (m : M S A) (f : A -> M S B) s Q :
  wp (bind m f) s Q -> wp m s (fun a s' => wp (f a) s' Q).
Proof. unfold wp, bind; destruct (m s); naive_solver. Qed.

Lemma wp_mono (m : M S A) s (P Q : A -> S -> Prop) :
  wp m s P -> (forall a s', P a s' -> Q a s') -> wp m s Q.
Proof. unfold wp; destruct (m s); naive_solver. Qed.

Lemma wp_and (m : M S A) s (P Q : A -> S -> Prop) :
  wp m s P -> wp m s Q -> wp m s (fun a s' => P a s' /\ Q a s').
Proof. unfold wp; destruct (m s); naive_solver. Qed.

Lemma wp_get (f : S -> M S B) s Q : wp (f s) s Q -> wp (bind get f) s Q.
Proof. exact id. Qed.

Lemma wp_gets (g : S -> A) (f : A -> M S B) s Q :
  wp (f (g s)) s Q -> wp (bind (gets g) f) s Q.
Proof. exact id. Qed.

Lemma wp_modify (g : S -> S) (f : unit -> M S B) s Q :
  wp (f tt) (g s) Q -> wp (bind (modify g) f) s Q.
Proof. exact id. Qed.
End wp_rules.

(** *** Sleeping

    A process that switches away is resumed in a state other processes, interrupts and
    devices have changed.  [run_env env] runs a computation in an environment that
    answers a switch by changing the state and resuming the process at once: the
    schedule in which only [env] runs while the process is off the CPU. *)
Fixpoint orun {S A} (env : S -> option S) (o : outcome S A) : outcome S A :=
  match o with
  | Switched s k => match env s with Some s' => orun env (k s') | None => o end
  | _ => o
  end.
Definition run_env {S A} (env : S -> option S) (m : M S A) : M S A := fun s => orun env (m s).

Lemma orun_obind {S A B} env (o : outcome S A) (f : A -> M S B) a s :
  orun env o = Ret a s -> orun env (obind o f) = orun env (f a s).
Proof.
  induction o as [a1 s1|msg|s1 k IH|]; cbn; try done.
  - by intros [= -> ->].
  - destruct (env s1); [apply IH|done].
Qed.

(** [wpe env m s Q]: run from [s] in the environment [env], [m] returns, and its result
    and final state satisfy [Q]. *)
Definition wpe {S A} (env : S -> option S) (m : M S A) (s : S) (Q : A -> S -> Prop) : Prop :=
  wp (run_env env m) s Q.
Arguments wpe {S A} env m s Q : simpl never.
Arguments run_env {S A} env m _ : simpl never.

Section wpe_rules.
Context {S A B : Type} (env : S -> option S).
Implicit Types (s : S).

Lemma wp_wpe (m : M S A) s Q : wp m s Q -> wpe env m s Q.
Proof. unfold wpe, wp, run_env. by destruct (m s). Qed.

Lemma wpe_bind (m : M S A) (f : A -> M S B) s Q :
  wpe env m s (fun a s' => wpe env (f a) s' Q) -> wpe env (bind m f) s Q.
Proof.
  unfold wpe, wp, run_env, bind. destruct (orun env (m s)) as [a s1| | |] eqn:E; try done.
  by rewrite (orun_obind env (m s) f a s1 E).
Qed.

Lemma wpe_mono (m : M S A) s (P Q : A -> S -> Prop) :
  wpe env m s P -> (forall a s', P a s' -> Q a s') -> wpe env m s Q.
Proof. apply wp_mono. Qed.

Lemma wpe_ret (a : A) s (Q : A -> S -> Prop) : Q a s -> wpe env (ret a) s Q.
Proof. exact id. Qed.

Lemma wpe_elim (m : M S A) s Q : wpe env m s Q ->
  exists a s', run_env env m s = Ret a s' /\ Q a s'.
Proof. apply wp_elim. Qed.

Lemma wpe_gets (g : S -> A) (f : A -> M S B) s Q :
  wpe env (f (g s)) s Q -> wpe env (bind (gets g) f) s Q.
Proof. exact id. Qed.

Lemma wpe_get (f : S -> M S B) s Q : wpe env (f s) s Q -> wpe env (bind get f) s Q.
Proof. exact id. Qed.

Lemma wpe_modify (g : S -> S) (f : unit -> M S B) s Q :
  wpe env (f tt) (g s) Q -> wpe env (bind (modify g) f) s Q.
Proof. exact id. Qed.
End wpe_rules.

(** [safe m s Q I J E]: whatever [m] does from [s] is allowed: [Q] holds of what it
    returns, [E] of its panics, and [I] of every state it leaves to the scheduler,
    given that [J] holds when it is resumed. *)
Fixpoint osafe {S A} (o : outcome S A) (Q : A -> S -> Prop) (I J : S -> Prop) (E : string -> Prop) : Prop :=
  match o with
  | Ret a s' => Q a s'
  | Switched s' k => I s' /\ forall s'', J s'' -> osafe (k s'') Q I J E
  | Panic msg => E msg
  | Spins => True
  end.
Definition safe {S A} (m : M S A) (s : S) Q I J E : Prop := osafe (m s) Q I J E.
Arguments safe {S A} m s Q I J E : simpl never.

Lemma osafe_mono {S A} (o : outcome S A) (Q Q' : A -> S -> Prop) I J (E E' : string -> Prop) :
  osafe o Q I J E -> (forall a s', Q a s' -> Q' a s') -> (forall e, E e -> E' e) -> osafe o Q' I J E'.
Proof.
  intros H HQ HE. induction o as [| |s k IH|]; cbn in *; auto. destruct H as [H1 H2]. split; [done|].
  intros s'' HI. apply IH. by apply H2.
Qed.

Section safe_rules.
Context {S A B : Type}.
Implicit Types (s : S).

Lemma wp_safe (m : M S A) s Q I J E : wp m s Q -> safe m s Q I J E.
Proof. unfold wp, safe. by destruct (m s). Qed.

Lemma safe_bind (m : M S A) (f : A -> M S B) s Q I J E :
  safe m s (fun a s' => safe (f a) s' Q I J E) I J E -> safe (bind m f) s Q I J E.
Proof.
  unfold safe, bind. induction (m s) as [| |s1 k IH|]; cbn; auto. intros [H1 H2]. split; [done|].
  intros s2 HI. apply IH. by apply H2.
Qed.

Lemma safe_mono (m : M S A) s (Q Q' : A -> S -> Prop) I J (E E' : string -> Prop) :
  safe m s Q I J E -> (forall a s', Q a s' -> Q' a s') -> (forall e, E e -> E' e) -> safe m s Q' I J E'.
Proof. apply osafe_mono. Qed.

Lemma safe_ret (a : A) s (Q : A -> S -> Prop) I J E : Q a s -> safe (ret a) s Q I J E.
Proof. exact id. Qed.

Lemma safe_panic msg s (Q : A -> S -> Prop) I J (E : string -> Prop) : E msg -> safe (panic msg) s Q I J E.
Proof. exact id. Qed.

Lemma safe_run (m : M S A) s a s' (Q : A -> S -> Prop) I J E : m s = Ret a s' -> Q a s' -> safe m s Q I J E.
Proof. intros H HQ. unfold safe. by rewrite H. Qed.

Lemma safe_gets (g : S -> A) (f : A -> M S B) s Q I J E :
  safe (f (g s)) s Q I J E -> safe (bind (gets g) f) s Q I J E.
Proof. exact id. Qed.

Lemma safe_modify (g : S -> S) (f : unit -> M S B) s Q I J E :
  safe (f tt) (g s) Q I J E -> safe (bind (modify g) f) s Q I J E.
Proof. exact id. Qed.

Lemma safe_switch s (Q : unit -> S -> Prop) (I J : S -> Prop) E :
  I s -> (forall s', J s' -> Q tt s') -> safe switch s Q I J E.
Proof. intros H1 H2. split; [done|]. exact H2. Qed.
End safe_rules.

(** ** Functional update of record fields

    [r <| f := v |>] is the C assignment [r.f = v].  The setter of a field is
    built from the eta-expansion of the record declared by its [Eta] instance. *)
Class Eta (R : Type) : Type := { eta : R -> R }.

Class Setter {R T : Type} (proj : R -> T) : Type := update : (T -> T) -> R -> R.
Arguments update {R T} proj {_} _ _.

Ltac build_setter :=
  match goal with
  | |- @Setter ?R ?T ?proj =>
      let e := constr:(_ : Eta R) in
      let e := eval hnf in e in
      match e with
      | Build_Eta _ ?body =>
          let p := eval pattern proj in body in
          match p with
          | ?F _ => let t := eval cbv beta in (fun f : T -> T => F (fun r => f (proj r))) in
                    exact t
          end
      end
  end.
#[global] Hint Extern 0 (Setter _) => build_setter : typeclass_instances.

Notation "r <| f ::= g |>" := (update f g r)
  (at level 1, f at level 9, left associativity, format "r  <| f  ::=  g |>").
Notation "r <| f := v |>" := (update f (fun _ => v) r)
  (at level 1, f at level 9, left associativity, format "r  <| f  :=  v |>").

(** ** Fixed-width integers

    C's [uint], [uchar] and [int] are integers of [Z]; every operation that can
    leave the range of its type is wrapped explicitly. *)
Definition u32 (x : Z) : Z := x mod 2 ^ 32.
Definition u8 (x : Z) : Z := x mod 256.
Definition s32 (x : Z) : Z :=
  let y := u32 x in if y <? 2 ^ 31 then y else y - 2 ^ 32.

(** A flag test [x & bit]. *)
Definition has (x bit : Z) : bool := negb (Z.land x bit =? 0).

Lemma u32_range x : 0 <= u32 x < 2 ^ 32.
Proof. apply Z.mod_pos_bound; lia. Qed.

Lemma u32_small x : 0 <= x < 2 ^ 32 -> u32 x = x.
Proof. apply Z.mod_small. Qed.

Lemma u32_idem x : u32 (u32 x) = u32 x.
Proof. apply Z.mod_mod; lia. Qed.

Lemma u32_add_l x y : u32 (u32 x + y) = u32 (x + y).
Proof. apply Zplus_mod_idemp_l. Qed.

Lemma u32_add_r x y : u32 (x + u32 y) = u32 (x + y).
Proof. apply Zplus_mod_idemp_r. Qed.

Lemma u8_range x : 0 <= u8 x < 256.
Proof. apply Z.mod_pos_bound; lia. Qed.

Lemma u8_small x : 0 <= x < 256 -> u8 x = x.
Proof. apply Z.mod_small. Qed.

Lemma s32_small x : - 2 ^ 31 <= x < 2 ^ 31 -> s32 x = x.
Proof.
  intros H; unfold s32, u32; cbv zeta.
  destruct (Z.leb_spec 0 x) as [Hx|Hx].
  - rewrite Z.mod_small by lia. destruct (Z.ltb_spec x (2 ^ 31)); lia.
  - rewrite <- (Z_mod_plus_full x 1 (2 ^ 32)), Z.mod_small by lia.
    destruct (Z.ltb_spec (x + 1 * 2 ^ 32) (2 ^ 31)); lia.
Qed.

Lemma s32_range x : - 2 ^ 31 <= s32 x < 2 ^ 31.
Proof.
  unfold s32; cbv zeta; pose proof (u32_range x).
  destruct (Z.ltb_spec (u32 x) (2 ^ 31)); lia.
Qed.

(** The definitions, for arithmetic. *)
Lemma u32_eq x : u32 x = x mod 4294967296.
Proof. done. Qed.
Lemma u8_eq x : u8 x = x mod 256.
Proof. done. Qed.
Lemma s32_eq x : s32 x = if x mod 4294967296 <? 2147483648 then x mod 4294967296 else x mod 4294967296 - 4294967296.
Proof. done. Qed.
#[global] Opaque u32 s32 u8.

(** Linear arithmetic modulo 2^32. *)
Ltac u32_lia := change (2 ^ 32) with 4294967296 in *; repeat rewrite u32_eq in *; Z.div_mod_to_equations; lia.

(** The characters of a string literal. *)
Definition str (s : string) : list Z :=
  (fun a => Z.of_N (Ascii.N_of_ascii a)) <$> String.list_ascii_of_string s.

(** Bits above the width of a bounded number are clear. *)
Lemma testbit_high x n i : 0 <= x < 2 ^ n -> 0 <= n <= i -> Z.testbit x i = false.
Proof.
  intros Hx Hi. destruct (Z.eq_dec x 0) as [->|]; [apply Z.bits_0|].
  apply Z.bits_above_log2; [lia|].
  apply Z.lt_le_trans with n; [|lia].
  apply Z.log2_lt_pow2; lia.
Qed.

(** Clearing the low [k] bits of a [w]-bit number rounds it down to a multiple
    of [2^k]: the shape of [PGROUNDDOWN] and [PTE_ADDR]. *)
Lemma land_clear_low x k w :
  0 <= k <= w -> 0 <= x < 2 ^ w -> Z.land x (2 ^ w - 2 ^ k) = x - x mod 2 ^ k.
Proof.
  intros Hk Hx.
  replace (2 ^ w - 2 ^ k) with (Z.shiftl (Z.ones (w - k)) k).
  2:{ rewrite Z.shiftl_mul_pow2, Z.ones_equiv by lia.
      replace w with ((w - k) + k) at 2 by lia. rewrite Z.pow_add_r by lia. lia. }
  replace (x - x mod 2 ^ k) with (Z.shiftl (Z.shiftr x k) k).
  2:{ rewrite Z.shiftl_mul_pow2, Z.shiftr_div_pow2 by lia.
      pose proof (Z.div_mod x (2 ^ k)); lia. }
  apply Z.bits_inj'; intros i Hi.
  rewrite Z.land_spec. destruct (Z.lt_ge_cases i k).
  - rewrite !Z.shiftl_spec_low, andb_false_r by lia; done.
  - rewrite !Z.shiftl_spec, Z.shiftr_spec by lia.
    replace (i - k + k) with i by lia.
    destruct (Z.lt_ge_cases i w).
    + rewrite Z.ones_spec_low, andb_true_r by lia; done.
    + rewrite (testbit_high x w) by lia; done.
Qed.

(** [lor] of numbers with disjoint bits is their sum. *)
Lemma lor_add_disjoint x y k :
  0 <= k -> x mod 2 ^ k = 0 -> 0 <= y < 2 ^ k -> Z.lor x y = x + y.
Proof.
  intros Hk Hx Hy.
  apply Z.div_exact in Hx; [|lia].
  set (q := x / 2 ^ k) in *. rewrite Hx, Z.mul_comm, <- Z.shiftl_mul_pow2 by lia.
  rewrite Z.add_nocarry_lxor, Z.lxor_lor; try done.
  all: apply Z.bits_inj'; intros i Hi; rewrite Z.land_spec, Z.bits_0.
  all: destruct (Z.lt_ge_cases i k);
    [rewrite Z.shiftl_spec_low by lia; done|rewrite (testbit_high y k), andb_false_r by lia; done].
Qed.

Lemma land_mod_low x y k :
  0 <= k -> 0 <= y < 2 ^ k -> Z.land x y = Z.land (x mod 2 ^ k) y.
Proof.
  intros Hk Hy. apply Z.bits_inj'; intros i Hi. rewrite !Z.land_spec.
  destruct (Z.lt_ge_cases i k).
  - rewrite Z.mod_pow2_bits_low by lia; done.
  - rewrite (testbit_high y k), !andb_false_r by lia; done.
Qed.

(** Two updates of the same element of a list. *)
Lemma list_alter_alter {A} (f g : A -> A) i (l : list A) :
  alter f i (alter g i l) = alter (fun x => f (g x)) i l.
Proof. revert i. induction l as [|x l IH]; intros [|i]; cbn; try done. f_equal. apply IH. Qed.

Lemma list_alter_lookup {A} (f : A -> A) i x (l : list A) :
  l !! i = Some x -> alter f i l = <[i := f x]> l.
Proof.
  revert i. induction l as [|y l IH]; intros [|i] Hi; cbn in *; try done; [by injection Hi as ->|].
  f_equal. by apply IH.
Qed.

(** ** Tactics *)

(** Split every conditional of a goal or hypothesis on its test. *)
Ltac split_ifs :=
  repeat match goal with
    | |- context [if ?b then _ else _] => destruct b eqn:?
    | H : context [if ?b then _ else _] |- _ => destruct b eqn:?
    end.

(** Turn boolean tests on integers into propositions. *)
Ltac propify :=
  repeat match goal with
    | H : (_ && _)%bool = true |- _ => apply andb_true_iff in H; destruct H
    | H : (_ || _)%bool = false |- _ => apply orb_false_iff in H; destruct H
    | H : (_ && _)%bool = false |- _ => apply andb_false_iff in H
    | H : (_ || _)%bool = true |- _ => apply orb_true_iff in H
    | H : negb _ = true |- _ => apply negb_true_iff in H
    | H : negb _ = false |- _ => apply negb_false_iff in H
    | H : (_ =? _) = true |- _ => apply Z.eqb_eq in H
    | H : (_ =? _) = false |- _ => apply Z.eqb_neq in H
    | H : (_ <? _) = true |- _ => apply Z.ltb_lt in H
    | H : (_ <? _) = false |- _ => apply Z.ltb_ge in H
    | H : (_ <=? _) = true |- _ => apply Z.leb_le in H
    | H : (_ <=? _) = false |- _ => apply Z.leb_gt in H
    end.

(** Symbolic execution of straight-line monadic code in a [wp] goal. *)
Ltac wp_simpl :=
  repeat first
    [ progress cbv beta
    | progress cbn [when]
    | apply wp_get
    | apply wp_gets
    | apply wp_modify
    | apply wp_intro_ret
    | match goal with
      | |- wp (bind (ret ?a) _) _ _ => apply wp_bind, wp_intro_ret
      | |- wp (bind (bind _ _) _) _ _ => apply wp_bind
      | |- wp (bind (when true _) _) _ _ => apply wp_bind
      | |- wp (bind (when false _) _) _ _ => apply wp_bind, wp_intro_ret
      end ].

(** Decide the integer comparisons of the goal from the context. *)
Ltac zdec :=
  repeat match goal with
    | |- context [?a <=? ?b] =>
        first [rewrite (proj2 (Z.leb_le a b)) by lia | rewrite (proj2 (Z.leb_gt a b)) by lia]
    | |- context [?a <? ?b] =>
        first [rewrite (proj2 (Z.ltb_lt a b)) by lia | rewrite (proj2 (Z.ltb_ge a b)) by lia]
    | |- context [?a =? ?b] =>
        first [rewrite (proj2 (Z.eqb_eq a b)) by lia | rewrite (proj2 (Z.eqb_neq a b)) by lia]
    end; cbn [andb orb negb].
