(* ===== verification/Types.v ===== *)
(** The C declarations the kernel's files share: constants, structures and
    enumerations of [include/] and [kernel/*.h], and the record of all global
    variables of the kernel. *)
From S2P Require Import Prelude.

(** ** Constants *)

(** *** [include/param.h] *)
Definition NPROC : nat := 64.
Definition KSTACKSIZE : Z := 4096.
Definition NCPU : nat := 8.
Definition NOFILE : nat := 16.
Definition NFILE : nat := 100.
Definition NBUF : nat := 10.
Definition NINODE : nat := 50.
Definition NDEV : nat := 10.
Definition ROOTDEV : Z := 1.
Definition USERTOP : Z := 0xA0000.
Definition PHYSTOP : Z := 0x1000000.
Definition MAXARG : nat := 32.
Definition NPRIOR : nat := 4.
Definition TSTARV : Z := 100.
Definition MAX_SHM_KEY : nat := 8.

(** *** [kernel/mmu.h] *)
Definition PGSIZE : Z := 4096.
Definition NPDENTRIES : nat := 1024.
Definition PTE_P : Z := 0x001.
Definition PTE_W : Z := 0x002.
Definition PTE_U : Z := 0x004.
Definition FL_IF : Z := 0x200.
Definition DPL_USER : Z := 3.
Definition PDX (la : Z) : Z := Z.land (Z.shiftr (u32 la) 22) 0x3FF.
Definition PTX (la : Z) : Z := Z.land (Z.shiftr (u32 la) 12) 0x3FF.
Definition PGROUNDUP (sz : Z) : Z := Z.land (u32 (sz + PGSIZE - 1)) (2 ^ 32 - PGSIZE).
Definition PGROUNDDOWN (a : Z) : Z := Z.land (u32 a) (2 ^ 32 - PGSIZE).
Definition PTE_ADDR (pte : Z) : Z := Z.land (u32 pte) (2 ^ 32 - 4096).
Definition PADDR (a : Z) : Z := u32 a.

(** *** [kernel/proc.h], segment numbers *)
Definition SEG_KCODE : Z := 1.
Definition SEG_UCODE : Z := 4.
Definition SEG_UDATA : Z := 5.

(** *** [include/traps.h] *)
Definition T_SYSCALL : Z := 64.
Definition T_IRQ0 : Z := 32.
Definition IRQ_TIMER : Z := 0.
Definition IRQ_KBD : Z := 1.
Definition IRQ_COM1 : Z := 4.
Definition IRQ_IDE : Z := 14.
Definition IRQ_SPURIOUS : Z := 31.

(** *** [kernel/buf.h], [kernel/file.h]: flag bits *)
Definition B_BUSY : Z := 0x1.
Definition B_VALID : Z := 0x2.
Definition B_DIRTY : Z := 0x4.
Definition I_BUSY : Z := 0x1.
Definition I_VALID : Z := 0x2.
Definition CONSOLE : Z := 1.

(** *** [include/fs.h]; [sizeof(uint) = 4], [sizeof(struct dinode) = 64] *)
Definition ROOTINO : Z := 1.
Definition BSIZE : Z := 512.
Definition NDIRECT : Z := 12.
Definition NINDIRECT : Z := BSIZE / 4.
Definition MAXFILE : Z := NDIRECT + NINDIRECT.
Definition IPB : Z := BSIZE / 64.
Definition IBLOCK (i : Z) : Z := i / IPB + 2.
Definition BPB : Z := BSIZE * 8.
Definition BBLOCK (b ninodes : Z) : Z := b / BPB + ninodes / IPB + 3.
Definition DIRSIZ : nat := 14.

(** *** [include/stat.h] and [include/fcntl.h] *)
Definition T_DIR : Z := 1.
Definition T_FILE : Z := 2.
Definition T_DEV : Z := 3.
Definition T_CHECKED : Z := 4.
Definition O_RDONLY : Z := 0x000.
Definition O_WRONLY : Z := 0x001.
Definition O_RDWR : Z := 0x002.
Definition O_CREATE : Z := 0x200.
Definition O_CHECKED : Z := 0x400.

(** ** Structures *)

(** [enum procstate], [include/pstat.h] *)
Inductive procstate : Type := UNUSED | EMBRYO | SLEEPING | RUNNABLE | RUNNING | ZOMBIE.
#[global] Instance procstate_eq_dec : EqDecision procstate.
Proof. solve_decision. Defined.

(** [struct trapframe], [include/x86.h] (without its padding). *)
Record trapframe := mkTrapframe {
  tf_edi : Z; tf_esi : Z; tf_ebp : Z; tf_oesp : Z;
  tf_ebx : Z; tf_edx : Z; tf_ecx : Z; tf_eax : Z;
  tf_gs : Z; tf_fs : Z; tf_es : Z; tf_ds : Z;
  tf_trapno : Z; tf_err : Z; tf_eip : Z; tf_cs : Z; tf_eflags : Z;
  tf_esp : Z; tf_ss : Z }.
#[global] Instance trapframe_eta : Eta trapframe := {| eta r :=
  mkTrapframe (tf_edi r) (tf_esi r) (tf_ebp r) (tf_oesp r) (tf_ebx r) (tf_edx r)
    (tf_ecx r) (tf_eax r) (tf_gs r) (tf_fs r) (tf_es r) (tf_ds r) (tf_trapno r)
    (tf_err r) (tf_eip r) (tf_cs r) (tf_eflags r) (tf_esp r) (tf_ss r) |}.

(** [memset(tf, 0, sizeof *tf)] *)
Definition trapframe0 : trapframe := mkTrapframe 0 0 0 0 0 0 0 0 0 0 0 0 0 0 0 0 0 0 0.

(** [struct context], [kernel/proc.h]; [ctx_ret] is the word above it on the
    kernel stack, the address [eip] returns to. *)
Record context := mkContext {
  ctx_edi : Z; ctx_esi : Z; ctx_ebx : Z; ctx_ebp : Z; ctx_eip : Z; ctx_ret : Z }.

(** [struct proc], [kernel/proc.h].  Pointers into [ptable], [ftable] and
    [icache] are indices; [p_tf] and [p_context] are the structures the C
    pointers designate at the top of the kernel stack page. *)
Record proc := mkProc {
  p_sz : Z; p_pgdir : Z; p_kstack : Z; p_state : procstate; p_pid : Z;
  p_parent : option nat; p_tf : trapframe; p_context : context;
  p_chan : option chan; p_killed : Z; p_ofile : list (option nat);
  p_cwd : option nat; p_name : list Z;
  p_priority : Z; p_ticks : Z; p_ticks_used : list Z; p_last_sched_time : Z;
  p_shm : Z; p_shm_key_mask : Z; p_shm_va : list Z; p_ustack : Z }.
#[global] Instance proc_eta : Eta proc := {| eta r :=
  mkProc (p_sz r) (p_pgdir r) (p_kstack r) (p_state r) (p_pid r) (p_parent r)
    (p_tf r) (p_context r) (p_chan r) (p_killed r) (p_ofile r) (p_cwd r) (p_name r)
    (p_priority r) (p_ticks r) (p_ticks_used r) (p_last_sched_time r)
    (p_shm r) (p_shm_key_mask r) (p_shm_va r) (p_ustack r) |}.

(** A process slot as the kernel image has it before [userinit]: all zero. *)
Definition proc0 : proc :=
  mkProc 0 0 0 UNUSED 0 None trapframe0 (mkContext 0 0 0 0 0 0) None 0
    (replicate NOFILE None) None (replicate 16 0) 0 0 (replicate NPRIOR 0) 0
    0 0 (replicate MAX_SHM_KEY 0) 0.

(** [struct pgdir_refs], [kernel/proc.c] *)
Record pgdir_refs := mkRefs { r_addr : Z; r_count : Z }.
#[global] Instance pgdir_refs_eta : Eta pgdir_refs := {| eta r := mkRefs (r_addr r) (r_count r) |}.

(** [struct shared_mem], [kernel/vm.c] *)
Record shared_mem := mkShm { shm_count : Z; shm_num_pages : Z; shm_phys_addr : list Z }.
#[global] Instance shared_mem_eta : Eta shared_mem := {| eta r :=
  mkShm (shm_count r) (shm_num_pages r) (shm_phys_addr r) |}.

(** [struct pipe], [kernel/pipe.c] *)
Record pipe := mkPipe {
  pi_data : list Z; pi_nread : Z; pi_nwrite : Z; pi_readopen : Z; pi_writeopen : Z }.
#[global] Instance pipe_eta : Eta pipe := {| eta r :=
  mkPipe (pi_data r) (pi_nread r) (pi_nwrite r) (pi_readopen r) (pi_writeopen r) |}.

(** [struct file], [kernel/file.h] *)
Inductive fdtype : Type := FD_NONE | FD_PIPE | FD_INODE.
#[global] Instance fdtype_eq_dec : EqDecision fdtype.
Proof. solve_decision. Defined.
Record file := mkFile {
  f_type : fdtype; f_ref : Z; f_readable : Z; f_writable : Z;
  f_pipe : Z; f_ip : option nat; f_off : Z }.
#[global] Instance file_eta : Eta file := {| eta r :=
  mkFile (f_type r) (f_ref r) (f_readable r) (f_writable r) (f_pipe r) (f_ip r) (f_off r) |}.

(** [struct inode], [kernel/file.h] *)
Record inode := mkInode {
  i_dev : Z; i_inum : Z; i_ref : Z; i_flags : Z;
  i_type : Z; i_major : Z; i_minor : Z; i_nlink : Z; i_size : Z; i_addrs : list Z }.
#[global] Instance inode_eta : Eta inode := {| eta r :=
  mkInode (i_dev r) (i_inum r) (i_ref r) (i_flags r) (i_type r) (i_major r)
    (i_minor r) (i_nlink r) (i_size r) (i_addrs r) |}.

(** [struct buf], [kernel/buf.h].  A pointer to [bcache.buf[i]] is [i], a pointer
    to [bcache.head] is [NBUF]. *)
Record buf := mkBuf {
  b_flags : Z; b_dev : Z; b_sector : Z; b_prev : nat; b_next : nat;
  b_qnext : option nat; b_data : list Z }.
#[global] Instance buf_eta : Eta buf := {| eta r :=
  mkBuf (b_flags r) (b_dev r) (b_sector r) (b_prev r) (b_next r) (b_qnext r) (b_data r) |}.

(** ** Spinlocks: the lock objects of the kernel *)
Inductive lockid : Type :=
| LPtable | LTicks | LKmem | LFtable | LIcache | LBcache | LIde
| LPipe (p : Z) | LCons | LInput.
#[global] Instance lockid_eq_dec : EqDecision lockid.
Proof. solve_decision. Defined.

(** ** The global variables *)

(** [cons], [panicked] and the two output devices of [kernel/console.c]: whether there is
    a serial port ([uart], uart.c), the bytes given to the serial port (latest first), the CGA text memory and its cursor. *)
Record console := mkConsole {
  cons_locking : bool; panicked : bool; uart : bool; uart_out : list Z; crt : Z -> Z; crt_pos : Z }.
#[global] Instance console_eta : Eta console := {| eta r :=
  mkConsole (cons_locking r) (panicked r) (uart r) (uart_out r) (crt r) (crt_pos r) |}.

(** [input], [kernel/console.c] *)
Record inputbuf := mkInput { in_buf : list Z; in_r : Z; in_w : Z; in_e : Z }.
#[global] Instance inputbuf_eta : Eta inputbuf := {| eta r :=
  mkInput (in_buf r) (in_r r) (in_w r) (in_e r) |}.

(** All global variables, as seen by one CPU. *)
Record kernel := mkKernel {
  held : list lockid;              (** spinlocks this CPU holds, latest first *)
  curproc : option nat;            (** [proc] ([%gs:4]) *)
  mem : Z -> Z;                    (** physical memory, by byte *)
  freelist : Z; freecount : Z;     (** [kmem], kalloc.c *)
  kpgdir : Z; cr3 : Z; ts_esp0 : Z;  (** [kpgdir], vm.c; [%cr3]; [cpu->ts.esp0] *)
  shm_tab : list shared_mem;       (** vm.c *)
  ptable : list proc; pgdir_table : list pgdir_refs;
  initproc : option nat;           (** proc.c *)
  nextpid : Z;                     (** proc.c: how far [nextpid++] has counted; the [int] holds [s32] of it *)
  ticks : Z; num_syscalls : Z;     (** trap.c, syscall.c *)
  pipes : Z -> pipe;               (** the [struct pipe] at each kernel page *)
  ftable : list file;              (** file.c *)
  icache : list inode;             (** fs.c *)
  bufs : list buf;                 (** [bcache.buf], then [bcache.head]; bio.c *)
  idequeue : option nat; havedisk1 : bool;   (** ide.c *)
  disk : Z -> Z -> list Z;         (** drive, sector -> 512 bytes *)
  disk_bad : Z -> Z -> bool;       (** sectors the drive cannot read *)
  ide_sel : Z * Z;                 (** drive and sector in the controller's registers *)
  devsw : list (bool * bool);      (** major -> has [read], has [write]; file.c *)
  kcons : console; kinput : inputbuf; kbd_shift : Z;
  wakes : nat                      (** not a variable of the program: see [waiting] in [Ide.v] *)
}.
#[global] Instance kernel_eta : Eta kernel := {| eta r :=
  mkKernel (held r) (curproc r) (mem r) (freelist r) (freecount r) (kpgdir r) (cr3 r) (ts_esp0 r)
    (shm_tab r) (ptable r) (pgdir_table r) (initproc r) (nextpid r) (ticks r)
    (num_syscalls r) (pipes r) (ftable r) (icache r) (bufs r) (idequeue r)
    (havedisk1 r) (disk r) (disk_bad r) (ide_sel r) (devsw r) (kcons r) (kinput r) (kbd_shift r)
    (wakes r) |}.

(** Two kernels with the same variables. *)
Lemma kernel_ext (s t : kernel) :
  held s = held t -> curproc s = curproc t -> mem s = mem t -> freelist s = freelist t ->
  freecount s = freecount t -> kpgdir s = kpgdir t -> cr3 s = cr3 t -> ts_esp0 s = ts_esp0 t ->
  shm_tab s = shm_tab t -> ptable s = ptable t -> pgdir_table s = pgdir_table t ->
  initproc s = initproc t -> nextpid s = nextpid t -> ticks s = ticks t ->
  num_syscalls s = num_syscalls t -> pipes s = pipes t -> ftable s = ftable t ->
  icache s = icache t -> bufs s = bufs t -> idequeue s = idequeue t -> havedisk1 s = havedisk1 t ->
  disk s = disk t -> disk_bad s = disk_bad t -> ide_sel s = ide_sel t -> devsw s = devsw t ->
  kcons s = kcons t -> kinput s = kinput t -> kbd_shift s = kbd_shift t -> wakes s = wakes t ->
  s = t.
Proof. destruct s, t. cbn. intros. by subst. Qed.
Ltac kext := apply kernel_ext; try reflexivity.

(** Symbols the linker defines: [end] (kalloc.c), the first address after the
    kernel, and [data] (vm.c), the start of its writable data. *)
Class Linker : Type := { sym_end : Z; sym_data : Z }.

(** The kernel is linked at 1 MB ([--section-start=.text=0x100000]), its text comes
    first, then its data, and it fits below [PHYSTOP]; [data] is page aligned. *)
Class LinkerOk `{Linker} : Prop := {
  link_data : 0x100000 < sym_data <= sym_end;
  link_data_aligned : sym_data mod 4096 = 0;
  link_end : sym_end + 4096 <= PHYSTOP }.

(** ** Taking and releasing spinlocks

    [held] records the locks this CPU holds.  [acquire] and [release] below are the
    uncontended runs of [acquire] and [release] of spinlock.c: the panic tests are
    theirs, and the number of locks held is [cpu->ncli], since every [acquire] does
    one [pushcli].  Spinlock.v models the code itself, with several CPUs. *)
Definition holding (l : lockid) (s : kernel) : bool := bool_decide (l ∈ held s).

Definition acquire (l : lockid) : M kernel unit := fun s =>
  if holding l s then Panic "acquire" else Ret tt (s <| held ::= cons l |>).

Fixpoint remove_lock (l : lockid) (h : list lockid) : list lockid :=
  match h with
  | [] => []
  | l' :: h' => if decide (l = l') then h' else l' :: remove_lock l h'
  end.

Definition release (l : lockid) : M kernel unit := fun s =>
  if holding l s then Ret tt (s <| held ::= remove_lock l |>) else Panic "release".

Lemma acquire_run l s : l ∉ held s -> acquire l s = Ret tt (s <| held ::= cons l |>).
Proof. intros Hl. unfold acquire, holding. by rewrite bool_decide_eq_false_2. Qed.

Lemma release_run l h s : held s = l :: h -> release l s = Ret tt (s <| held := h |>).
Proof.
  intros Hl. unfold release, holding. rewrite bool_decide_eq_true_2 by (rewrite Hl; set_solver).
  change (s <| held ::= remove_lock l |>) with (s <| held := remove_lock l (held s) |>).
  rewrite Hl. cbn. by rewrite decide_True.
Qed.

Section lock_rules.
Context {B : Type}.

Lemma wp_acquire l (f : unit -> M kernel B) s Q :
  l ∉ held s -> wp (f tt) (s <| held ::= cons l |>) Q -> wp (bind (acquire l) f) s Q.
Proof. intros Hl HQ. unfold wp, bind. by rewrite acquire_run. Qed.

Lemma wp_release l h (f : unit -> M kernel B) s Q :
  held s = l :: h -> wp (f tt) (s <| held := h |>) Q -> wp (bind (release l) f) s Q.
Proof. intros Hl HQ. unfold wp, bind. by rewrite (release_run _ h). Qed.
End lock_rules.

Ltac kstep :=
  repeat first
    [ progress wp_simpl
    | apply wp_acquire; [solve [cbn; try set_solver; eauto]|]
    | eapply wp_release; [solve [cbn; reflexivity]|]
    | progress cbn [update held curproc mem freelist freecount kpgdir cr3 ts_esp0 shm_tab ptable
        pgdir_table initproc nextpid ticks num_syscalls pipes ftable icache bufs idequeue
        havedisk1 disk disk_bad ide_sel devsw kcons kinput kbd_shift wakes] ].

(** ** A concrete kernel

    The state of the boot image, all zero, and a small layout that leaves two pages
    of memory after the kernel: the inputs of the examples. *)
Definition inode0 : inode := mkInode 0 0 0 0 0 0 0 0 0 (replicate 13 0).
Definition file0 : file := mkFile FD_NONE 0 0 0 0 None 0.
Definition buf0 : buf := mkBuf 0 0 0 0 0 None (replicate 512 0).
Definition kernel0 : kernel :=
  mkKernel [] None (fun _ => 0) 0 0 0 0 0 (replicate MAX_SHM_KEY (mkShm 0 0 (replicate 4 0)))
    (replicate NPROC proc0) (replicate NPROC (mkRefs 0 0)) None 1 0 0
    (fun _ => mkPipe (replicate 512 0) 0 0 0 0) (replicate NFILE file0)
    (replicate NINODE inode0) (replicate (S NBUF) buf0) None true
    (fun _ _ => replicate 512 0) (fun _ _ => false) (0, 0) (replicate NDEV (false, false))
    (mkConsole false false true [] (fun _ => 0) 0) (mkInput (replicate 128 0) 0 0 0) 0 98.

Definition linker0 : Linker := {| sym_end := 0xFFE000; sym_data := 0x110000 |}.
Lemma linker0_ok : @LinkerOk linker0.
Proof. split; vm_compute; intuition congruence. Qed.
