(* ===== verification/Mem.v ===== *)
(** Physical memory and [kernel/string.c]: byte and word access, the block
    operations [memset], [memcmp] and [memmove] on memory, and the string
    functions on character arrays. *)
From S2P Require Import Prelude Types.

(** ** Loads and stores *)
Definition ld8 (m : Z -> Z) (a : Z) : Z := u8 (m a).
Definition st8 (m : Z -> Z) (a v : Z) : Z -> Z := fun x => if x =? a then u8 v else m x.

(** Little-endian 32-bit words. *)
Definition ld32 (m : Z -> Z) (a : Z) : Z :=
  ld8 m a + 2 ^ 8 * ld8 m (a + 1) + 2 ^ 16 * ld8 m (a + 2) + 2 ^ 24 * ld8 m (a + 3).
Definition st32 (m : Z -> Z) (a v : Z) : Z -> Z :=
  st8 (st8 (st8 (st8 m a v) (a + 1) (v / 2 ^ 8)) (a + 2) (v / 2 ^ 16)) (a + 3) (v / 2 ^ 24).

Lemma ld8_range m a : 0 <= ld8 m a < 256.
Proof. apply u8_range. Qed.

Lemma ld8_st8 m a v x : ld8 (st8 m a v) x = if x =? a then u8 v else ld8 m x.
Proof.
  unfold ld8, st8. destruct (x =? a); [|done].
  apply u8_small, u8_range.
Qed.

Lemma ld32_range m a : 0 <= ld32 m a < 2 ^ 32.
Proof.
  unfold ld32.
  pose proof (ld8_range m a); pose proof (ld8_range m (a + 1)).
  pose proof (ld8_range m (a + 2)); pose proof (ld8_range m (a + 3)). lia.
Qed.

Lemma ld32_ext m m' a :
  (forall x, a <= x < a + 4 -> m x = m' x) -> ld32 m a = ld32 m' a.
Proof. intros H. unfold ld32, ld8. rewrite !H by lia. done. Qed.

Lemma st32_other m a v x : x < a \/ a + 4 <= x -> st32 m a v x = m x.
Proof.
  intros H. unfold st32, st8.
  repeat (match goal with |- context [?p =? ?q] => destruct (Z.eqb_spec p q); [lia|] end).
  done.
Qed.

Lemma ld32_st32_ne m a b v : b + 4 <= a \/ a + 4 <= b -> ld32 (st32 m a v) b = ld32 m b.
Proof. intros H. apply ld32_ext. intros x Hx. apply st32_other. lia. Qed.

Lemma ld32_st32_eq m a v : ld32 (st32 m a v) a = u32 v.
Proof.
  unfold ld32, st32. rewrite !ld8_st8.
  repeat (match goal with |- context [?p =? ?q] => destruct (Z.eqb_spec p q); try lia end).
  Transparent u8 u32. unfold u8, u32. Opaque u8 u32.
  change (2 ^ 8) with 256; change (2 ^ 16) with 65536; change (2 ^ 24) with 16777216.
  change (2 ^ 32) with 4294967296. Z.div_mod_to_equations. lia.
Qed.

(** Two memories agree except on a set of addresses. *)
Definition agree_off (P : Z -> Prop) (m m' : Z -> Z) : Prop :=
  forall x, ~ P x -> m' x = m x.

Lemma agree_off_refl P m : agree_off P m m.
Proof. done. Qed.

Lemma agree_off_trans (P : Z -> Prop) m1 m2 m3 :
  agree_off P m1 m2 -> agree_off P m2 m3 -> agree_off P m1 m3.
Proof. intros H1 H2 x Hx. rewrite H2, H1; done. Qed.

Lemma agree_off_weaken (P Q : Z -> Prop) m m' :
  (forall x, P x -> Q x) -> agree_off P m m' -> agree_off Q m m'.
Proof. intros HPQ H x Hx. apply H. naive_solver. Qed.

(** The addresses of the page at [p]. *)
Definition in_page (p x : Z) : Prop := p <= x < p + PGSIZE.

(** ** [memset] ([stosb]: [rep stosb]) *)
Definition memset (m : Z -> Z) (dst c n : Z) : Z -> Z :=
  fun x => if (dst <=? x) && (x <? dst + n) then u8 c else m x.

Lemma memset_in m dst c n x : dst <= x < dst + n -> memset m dst c n x = u8 c.
Proof.
  intros. unfold memset.
  destruct (Z.leb_spec dst x), (Z.ltb_spec x (dst + n)); try lia; done.
Qed.

Lemma memset_out m dst c n x : x < dst \/ dst + n <= x -> memset m dst c n x = m x.
Proof.
  intros. unfold memset.
  destruct (Z.leb_spec dst x), (Z.ltb_spec x (dst + n)); try lia; done.
Qed.

Lemma ld32_memset_out m dst c n a :
  a + 4 <= dst \/ dst + n <= a -> ld32 (memset m dst c n) a = ld32 m a.
Proof. intros. apply ld32_ext. intros x Hx. apply memset_out. lia. Qed.

Lemma ld32_memset0 m dst n a :
  dst <= a -> a + 4 <= dst + n -> ld32 (memset m dst 0 n) a = 0.
Proof.
  intros. unfold ld32, ld8. rewrite !memset_in by lia. done.
Qed.

(** ** [memcmp] and [memmove] *)
Fixpoint memcmp (m : Z -> Z) (s1 s2 : Z) (n : nat) : Z :=
  match n with
  | O => 0
  | S n' => if negb (ld8 m s1 =? ld8 m s2) then ld8 m s1 - ld8 m s2
            else memcmp m (s1 + 1) (s2 + 1) n'
  end.

Fixpoint copy_backward (m : Z -> Z) (d s : Z) (n : nat) : Z -> Z :=
  match n with
  | O => m
  | S n' => copy_backward (st8 m (d - 1) (ld8 m (s - 1))) (d - 1) (s - 1) n'
  end.

Fixpoint copy_forward (m : Z -> Z) (d s : Z) (n : nat) : Z -> Z :=
  match n with
  | O => m
  | S n' => copy_forward (st8 m d (ld8 m s)) (d + 1) (s + 1) n'
  end.

Definition memmove (m : Z -> Z) (dst src n : Z) : Z -> Z :=
  if (src <? dst) && (dst <? src + n)
  then copy_backward m (dst + n) (src + n) (Z.to_nat n)
  else copy_forward m dst src (Z.to_nat n).

Lemma ld8_fold (m : Z -> Z) a : u8 (m a) = ld8 m a.
Proof. done. Qed.

Lemma copy_forward_spec n : forall m d s x,
  s >= d \/ s + Z.of_nat n <= d ->
  ld8 (copy_forward m d s n) x =
    if (d <=? x) && (x <? d + Z.of_nat n) then ld8 m (s + (x - d)) else ld8 m x.
Proof.
  induction n as [|n IH]; intros m d s x Hov; cbn [copy_forward].
  - destruct (Z.leb_spec d x), (Z.ltb_spec x (d + Z.of_nat 0)); try lia; done.
  - rewrite IH by lia. rewrite !ld8_st8.
    destruct (Z.leb_spec d x), (Z.ltb_spec x (d + Z.of_nat (S n))),
      (Z.leb_spec (d + 1) x), (Z.ltb_spec x (d + 1 + Z.of_nat n)); cbn [andb]; try lia.
    all: repeat match goal with |- context [?p =? ?q] => destruct (Z.eqb_spec p q); try lia end.
    all: try done.
    + f_equal; lia.
    + subst x. rewrite Z.sub_diag, Z.add_0_r. apply u8_small, ld8_range.
Qed.

Lemma copy_backward_spec n : forall m d s x,
  s <= d ->
  ld8 (copy_backward m d s n) x =
    if (d - Z.of_nat n <=? x) && (x <? d) then ld8 m (s - (d - x)) else ld8 m x.
Proof.
  induction n as [|n IH]; intros m d s x Hov; cbn [copy_backward].
  - destruct (Z.leb_spec (d - Z.of_nat 0) x), (Z.ltb_spec x d); try lia; done.
  - rewrite IH by lia. rewrite !ld8_st8.
    destruct (Z.leb_spec (d - Z.of_nat (S n)) x), (Z.ltb_spec x d),
      (Z.leb_spec (d - 1 - Z.of_nat n) x), (Z.ltb_spec x (d - 1)); cbn [andb]; try lia.
    all: repeat match goal with |- context [?p =? ?q] => destruct (Z.eqb_spec p q); try lia end.
    all: try done.
    + f_equal; lia.
    + subst x. replace (s - (d - (d - 1))) with (s - 1) by lia. apply u8_small, ld8_range.
Qed.

(** Every byte of the destination gets the byte the source had before the copy. *)
Lemma copy_forward_out n : forall m d s x,
  x < d \/ d + Z.of_nat n <= x -> copy_forward m d s n x = m x.
Proof.
  induction n as [|n IH]; intros m d s x Hx; cbn [copy_forward]; [done|].
  rewrite IH by lia. unfold st8. destruct (Z.eqb_spec x d); [lia|done].
Qed.

Lemma copy_backward_out n : forall m d s x,
  x < d - Z.of_nat n \/ d <= x -> copy_backward m d s n x = m x.
Proof.
  induction n as [|n IH]; intros m d s x Hx; cbn [copy_backward]; [done|].
  rewrite IH by lia. unfold st8. destruct (Z.eqb_spec x (d - 1)); [lia|done].
Qed.

Lemma memmove_out m dst src n x :
  0 <= n -> x < dst \/ dst + n <= x -> memmove m dst src n x = m x.
Proof.
  intros Hn Hx. unfold memmove.
  destruct (_ && _); [apply copy_backward_out|apply copy_forward_out]; lia.
Qed.

Lemma memmove_correct m dst src n x :
  0 <= n ->
  ld8 (memmove m dst src n) x =
    if (dst <=? x) && (x <? dst + n) then ld8 m (src + (x - dst)) else ld8 m x.
Proof.
  intros Hn. unfold memmove.
  destruct (Z.ltb_spec src dst), (Z.ltb_spec dst (src + n)); cbn [andb].
  - rewrite copy_backward_spec by lia. rewrite Z2Nat.id by lia.
    replace (dst + n - n) with dst by lia.
    destruct ((dst <=? x) && (x <? dst + n)); [|done]. f_equal; lia.
  - rewrite copy_forward_spec by lia. rewrite Z2Nat.id by lia. done.
  - rewrite copy_forward_spec by lia. rewrite Z2Nat.id by lia. done.
  - rewrite copy_forward_spec by lia. rewrite Z2Nat.id by lia. done.
Qed.

Lemma memcmp_zero n : forall m p q,
  memcmp m p q n = 0 <-> forall i, 0 <= i < Z.of_nat n -> ld8 m (p + i) = ld8 m (q + i).
Proof.
  induction n as [|n IH]; intros m p q; cbn [memcmp].
  - split; [lia|done].
  - destruct (Z.eqb_spec (ld8 m p) (ld8 m q)) as [E|E]; cbn [negb].
    + rewrite IH. split; intros H i Hi.
      * destruct (Z.eq_dec i 0) as [->|]; [by rewrite !Z.add_0_r|].
        specialize (H (i - 1) ltac:(lia)).
        by replace (p + i) with (p + 1 + (i - 1)) by lia; replace (q + i) with (q + 1 + (i - 1)) by lia.
      * specialize (H (i + 1) ltac:(lia)).
        by replace (p + 1 + i) with (p + (i + 1)) by lia; replace (q + 1 + i) with (q + (i + 1)) by lia.
    + split; [lia|]. intros H. specialize (H 0 ltac:(lia)). rewrite !Z.add_0_r in H. done.
Qed.

(** ** Strings

    A [char *] argument is the list of characters from the pointer on, as values in
    [0..255]; the character past the end of the list is the terminator. *)
Definition chr0 (s : list Z) : Z := match s with [] => 0 | c :: _ => c end.

(** The string proper: the characters before the first NUL. *)
Fixpoint cstr (s : list Z) : list Z :=
  match s with [] => [] | c :: s' => if c =? 0 then [] else c :: cstr s' end.

Fixpoint strncmp (p q : list Z) (n : nat) : Z :=
  match n with
  | O => 0
  | S n' => if negb (chr0 p =? 0) && (chr0 p =? chr0 q)
            then strncmp (tail p) (tail q) n'
            else u8 (chr0 p) - u8 (chr0 q)
  end.

(** The characters [strncpy] stores, then those [safestrcpy] stores. *)
Fixpoint strncpy_chars (t : list Z) (n : nat) : list Z :=
  match n with
  | O => []
  | S n' => chr0 t :: (if chr0 t =? 0 then replicate n' 0 else strncpy_chars (tail t) n')
  end.
Definition strncpy (s t : list Z) (n : nat) : list Z := strncpy_chars t n ++ drop n s.

Fixpoint safestrcpy_chars (t : list Z) (n : nat) : list Z :=
  match n with
  | O => []
  | 1%nat => [0]
  | S n' => chr0 t :: (if chr0 t =? 0 then [0] else safestrcpy_chars (tail t) n')
  end.
Definition safestrcpy (s t : list Z) (n : nat) : list Z :=
  let w := safestrcpy_chars t n in w ++ drop (length w) s.

Fixpoint strlen (s : list Z) : Z :=
  match s with [] => 0 | c :: s' => if c =? 0 then 0 else 1 + strlen s' end.

Lemma strlen_cstr s : strlen s = Z.of_nat (length (cstr s)).
Proof. induction s as [|c s IH]; cbn; [done|]. destruct (c =? 0); cbn; lia. Qed.

Definition is_char (c : Z) : Prop := 0 <= c < 256.

Lemma strncmp_zero n : forall p q,
  Forall is_char p -> Forall is_char q ->
  strncmp p q n = 0 <-> take n (cstr p) = take n (cstr q).
Proof.
  induction n as [|n IH]; intros p q Hp Hq; cbn [strncmp].
  { by rewrite !take_0. }
  assert (Hrange : forall l, Forall is_char l -> is_char (chr0 l)).
  { intros [|c l] Hl; cbn; [unfold is_char; lia|]. by inversion Hl. }
  pose proof (Hrange p Hp); pose proof (Hrange q Hq).
  destruct (Z.eqb_spec (chr0 p) 0) as [E0|E0], (Z.eqb_spec (chr0 p) (chr0 q)) as [Eq|Eq];
    cbn [negb andb].
  all: rewrite ?u8_small by done.
  - destruct p as [|c p], q as [|d q]; cbn in *; subst; cbn; rewrite ?Eq; split; try done; lia.
  - split; [lia|]. destruct p as [|c p], q as [|d q]; cbn in *; subst; cbn; try done.
    all: destruct (Z.eqb_spec d 0); cbn; try done; lia.
  - destruct p as [|c p], q as [|d q]; cbn in *; try lia. subst d.
    destruct (Z.eqb_spec c 0); [lia|]. cbn [take firstn].
    inversion Hp; inversion Hq; subst. rewrite IH by done. split; congruence.
  - split; [lia|]. destruct p as [|c p], q as [|d q]; cbn in *; try lia.
    all: destruct (Z.eqb_spec c 0); try lia; cbn; try done.
    destruct (Z.eqb_spec d 0); cbn; try done. intros [= Hcd]; lia.
Qed.

Lemma strncpy_chars_cstr n : forall t, cstr (strncpy_chars t n) = take n (cstr t).
Proof.
  induction n as [|n IH]; intros t; cbn [strncpy_chars]; [done|].
  destruct t as [|c t]; cbn.
  { by rewrite ?take_nil. }
  destruct (Z.eqb_spec c 0); cbn; [by rewrite ?take_nil|]. by rewrite IH.
Qed.

Lemma length_strncpy_chars n : forall t, length (strncpy_chars t n) = n.
Proof.
  induction n as [|n IH]; intros t; cbn; [done|].
  destruct (chr0 t =? 0); [rewrite length_replicate|rewrite IH]; done.
Qed.

(** [safestrcpy] always terminates the copy: the string left in the buffer is the
    source cut to [n - 1] characters. *)
Lemma safestrcpy_cstr n : forall s t,
  cstr (safestrcpy s t (S n)) = take n (cstr t).
Proof.
  assert (G : forall n t r, cstr (safestrcpy_chars t (S n) ++ r) = take n (cstr t)).
  { clear. induction n as [|n IH]; intros t r; [done|].
    change (safestrcpy_chars t (S (S n))) with
      (chr0 t :: (if chr0 t =? 0 then [0] else safestrcpy_chars (tail t) (S n))).
    destruct t as [|c t]; cbn [chr0 tail app cstr].
    { by rewrite ?take_nil. }
    destruct (Z.eqb_spec c 0); [by rewrite ?take_nil|]. cbn [take firstn].
    by rewrite IH. }
  intros s t. apply G.
Qed.

Lemma length_safestrcpy n s t :
  length s = n -> (0 < n)%nat -> length (safestrcpy s t n) = n.
Proof.
  intros Hs Hn. unfold safestrcpy. rewrite length_app, length_drop.
  assert (G : forall n t, (0 < n)%nat -> (length (safestrcpy_chars t n) <= n)%nat).
  { clear. induction n as [|[|n] IH]; intros t H; [lia|cbn; lia|].
    change (safestrcpy_chars t (S (S n))) with
      (chr0 t :: (if chr0 t =? 0 then [0] else safestrcpy_chars (tail t) (S n))).
    destruct (chr0 t =? 0); cbn [length]; [lia|].
    specialize (IH (tail t) ltac:(lia)). lia. }
  specialize (G n t Hn). lia.
Qed.
