(* ===== verification/Kalloc.v ===== *)
(** The physical page allocator, [kernel/kalloc.c]: a free list threaded through
    the first word of each free page. *)
From S2P Require Import Prelude Types Mem.

Section Kalloc.
Context `{Linker}.

(** ** Code *)

Definition kfree (v : Z) : M kernel unit :=
  if negb (u32 v mod PGSIZE =? 0) || (v <? sym_end) || (PHYSTOP <=? u32 v)
  then panic "kfree"
  else
    modify (fun s => s <| mem := memset (mem s) v 1 PGSIZE |>) ;;
    acquire LKmem ;;
    modify (fun s => s <| mem := st32 (mem s) v (freelist s) |>) ;;
    modify (fun s => s <| freelist := v |>) ;;
    modify (fun s => s <| freecount := s32 (freecount s + 1) |>) ;;
    release LKmem ;;
    ret tt.

Definition kalloc : M kernel Z :=
  acquire LKmem ;;
  let! r := gets freelist in
  when (negb (r =? 0))
    (modify (fun s => s <| freelist := ld32 (mem s) r |>) ;;
     modify (fun s => s <| freecount := s32 (freecount s - 1) |>)) ;;
  release LKmem ;;
  ret r.

(** The loop [for(; p + PGSIZE <= PHYSTOP; p += PGSIZE)]; each turn advances [p] by a
    page, so [PHYSTOP / PGSIZE + 1] turns are enough. *)
Fixpoint kinit_loop (fuel : nat) (p : Z) : M kernel unit :=
  match fuel with
  | O => spin
  | S fuel' =>
      if p + PGSIZE <=? PHYSTOP then
        kfree p ;;
        modify (fun s => s <| freecount := s32 (freecount s + 1) |>) ;;
        kinit_loop fuel' (p + PGSIZE)
      else ret tt
  end.

Definition kinit_fuel : nat := Z.to_nat (PHYSTOP / PGSIZE + 1).

Definition kinit : M kernel unit :=
  modify (fun s => s <| freecount := 0 |>) ;;
  kinit_loop kinit_fuel (PGROUNDUP sym_end).

Definition getfreecount : M kernel Z :=
  acquire LKmem ;;
  let! fc := gets freecount in
  release LKmem ;;
  ret fc.

(** ** Invariant *)

(** A page the allocator may hand out. *)
Definition page_ok (p : Z) : Prop := p mod PGSIZE = 0 /\ sym_end <= p < PHYSTOP.

(** The pages reached from [a] by following the [next] words, in order. *)
Fixpoint free_chain (m : Z -> Z) (a : Z) (l : list Z) : Prop :=
  match l with
  | [] => a = 0
  | p :: l' => a = p /\ free_chain m (ld32 m p) l'
  end.

(** [kmem] is a well-formed free list holding exactly the pages [l]. *)
Record kmem_ok (s : kernel) (l : list Z) : Prop := {
  ko_chain : free_chain (mem s) (freelist s) l;
  ko_pages : Forall page_ok l;
  ko_nodup : NoDup l }.

Context {HL : LinkerOk}.

Lemma sym_end_pos : 0x100000 < sym_end.
Proof. pose proof link_data; lia. Qed.

Lemma page_ok_bounds p : page_ok p -> 0x100000 < p /\ p + PGSIZE <= PHYSTOP.
Proof.
  intros [Hm Hr]. pose proof sym_end_pos. unfold PGSIZE, PHYSTOP in *.
  split; [lia|]. apply Z.mod_divide in Hm as [k ->]; lia.
Qed.

Lemma page_ok_u32 p : page_ok p -> u32 p = p.
Proof. intros Hp. apply page_ok_bounds in Hp. apply u32_small. unfold PHYSTOP, PGSIZE in *; lia. Qed.

(** Distinct pages are disjoint. *)
Lemma pages_disjoint p q x :
  p mod PGSIZE = 0 -> q mod PGSIZE = 0 -> p <> q -> in_page p x -> ~ in_page q x.
Proof.
  unfold in_page, PGSIZE. intros Hp Hq Hne Hx Hx'.
  apply Z.mod_divide in Hp as [a ->]; [|lia]. apply Z.mod_divide in Hq as [b ->]; [|lia]. lia.
Qed.

Lemma free_chain_ext m m' l : forall a,
  (forall p x, p ∈ l -> in_page p x -> m' x = m x) ->
  free_chain m a l -> free_chain m' a l.
Proof.
  induction l as [|p l IH]; intros a Hext Hc; cbn in *; [done|].
  destruct Hc as [-> Hc]. split; [done|].
  rewrite (ld32_ext m' m).
  - apply IH; [|done]. intros q x Hq. apply Hext. set_solver.
  - intros x Hx. apply Hext with p; [set_solver|]. unfold in_page, PGSIZE; lia.
Qed.

(** The invariant survives writes to pages that are not free. *)
Lemma kmem_ok_frame s s' l (P : Z -> Prop) :
  kmem_ok s l -> freelist s' = freelist s ->
  agree_off P (mem s) (mem s') ->
  (forall p x, p ∈ l -> in_page p x -> ~ P x) ->
  kmem_ok s' l.
Proof.
  intros [Hc Hp Hn] Hf Hm HP. split; [|done|done].
  rewrite Hf. eapply free_chain_ext; [|exact Hc].
  intros p x Hp' Hx. apply Hm. eauto.
Qed.

(** ** Operations *)

(** The state after [kalloc] returned [r]. *)
Definition after_kalloc (s : kernel) (r : Z) : kernel :=
  if r =? 0 then s
  else s <| freelist := ld32 (mem s) r |> <| freecount := s32 (freecount s - 1) |>.

Lemma kalloc_run s : LKmem ∉ held s -> kalloc s = Ret (freelist s) (after_kalloc s (freelist s)).
Proof.
  intros Hl. unfold kalloc, after_kalloc, bind. rewrite acquire_run by done. cbn.
  destruct (freelist s =? 0); cbn; rewrite (release_run _ (held s)) by done;
    destruct s; reflexivity.
Qed.

Lemma wp_kalloc s l (Q : Z -> kernel -> Prop) :
  LKmem ∉ held s -> kmem_ok s l ->
  (l = [] -> Q 0 s) ->
  (forall r l', l = r :: l' -> page_ok r -> kmem_ok (after_kalloc s r) l' ->
     after_kalloc s r = s <| freelist := ld32 (mem s) r |> <| freecount := s32 (freecount s - 1) |> ->
     Q r (after_kalloc s r)) ->
  wp kalloc s Q.
Proof.
  intros Hl [Hc Hp Hn] Hnil Hcons. eapply wp_run; [apply kalloc_run; done|].
  destruct l as [|r l]; cbn in Hc.
  - rewrite Hc. apply Hnil. done.
  - destruct Hc as [Hf Hc]. rewrite Hf. inversion Hp; inversion Hn; subst.
    assert (Hr : after_kalloc s (freelist s) = s <| freelist := ld32 (mem s) (freelist s) |>
       <| freecount := s32 (freecount s - 1) |>).
    { unfold after_kalloc. pose proof (page_ok_bounds (freelist s) ltac:(done)).
      destruct (Z.eqb_spec (freelist s) 0); [lia|done]. }
    eapply Hcons; [done|done| |done]. rewrite Hr. split; done.
Qed.

(** The state after [kfree(v)]. *)
Definition after_kfree (s : kernel) (v : Z) : kernel :=
  s <| mem := st32 (memset (mem s) v 1 PGSIZE) v (freelist s) |>
    <| freelist := v |> <| freecount := s32 (freecount s + 1) |>.

Lemma kfree_guard v :
  negb (u32 v mod PGSIZE =? 0) || (v <? sym_end) || (PHYSTOP <=? u32 v) = false <->
  u32 v mod PGSIZE = 0 /\ sym_end <= v /\ u32 v < PHYSTOP.
Proof.
  rewrite !orb_false_iff, negb_false_iff, Z.eqb_eq, Z.ltb_ge, Z.leb_gt. tauto.
Qed.

Lemma kfree_run s v : LKmem ∉ held s -> page_ok v -> kfree v s = Ret tt (after_kfree s v).
Proof.
  intros Hl Hv. pose proof (page_ok_u32 v Hv) as Hu. destruct Hv as [Hm Hr]. unfold kfree.
  rewrite (proj2 (kfree_guard v)) by (rewrite Hu; lia).
  unfold bind, modify. cbn [obind]. rewrite acquire_run by done. cbn.
  rewrite (release_run _ (held s)) by done. destruct s; reflexivity.
Qed.

Lemma after_kfree_agree s v : agree_off (in_page v) (mem s) (mem (after_kfree s v)).
Proof.
  intros x Hx. cbn. unfold in_page, PGSIZE in *.
  rewrite st32_other, memset_out by lia. done.
Qed.

Lemma kmem_ok_kfree s v l :
  kmem_ok s l -> page_ok v -> v ∉ l -> kmem_ok (after_kfree s v) (v :: l).
Proof.
  intros [Hc Hp Hn] Hv Hvl. split; [|constructor; done|constructor; done].
  cbn. split; [done|]. rewrite ld32_st32_eq.
  assert (Hf : u32 (freelist s) = freelist s).
  { destruct l as [|q l]; cbn in Hc; [rewrite Hc; done|].
    destruct Hc as [-> _]. inversion Hp; subst. by apply page_ok_u32. }
  rewrite Hf. eapply free_chain_ext; [|exact Hc].
  intros p x Hpl Hx. apply (after_kfree_agree s v).
  apply pages_disjoint with p; [|apply Hv|set_solver|done].
  rewrite Forall_forall in Hp. by apply Hp.
Qed.

Lemma wp_kfree s v l (Q : unit -> kernel -> Prop) :
  LKmem ∉ held s -> kmem_ok s l -> page_ok v -> v ∉ l ->
  (kmem_ok (after_kfree s v) (v :: l) -> Q tt (after_kfree s v)) ->
  wp (kfree v) s Q.
Proof.
  intros Hl Hk Hv Hvl HQ. eapply wp_run; [apply kfree_run; done|].
  apply HQ. by apply kmem_ok_kfree.
Qed.

(** The [n] pages from [p] up. *)
Definition pages_from (p : Z) (n : nat) : list Z := (fun i => p + PGSIZE * Z.of_nat i) <$> seq 0 n.

Lemma pages_from_S p n : pages_from p (S n) = p :: pages_from (p + PGSIZE) n.
Proof.
  unfold pages_from. cbn [seq fmap list_fmap]. f_equal; [lia|].
  rewrite <- seq_shift, <- list_fmap_compose. apply list_fmap_ext.
  intros i x _. cbn. lia.
Qed.

Lemma kinit_loop_spec n : forall fuel p s l,
  (n < fuel)%nat -> p mod PGSIZE = 0 -> sym_end <= p ->
  PHYSTOP < p + PGSIZE * (Z.of_nat n + 1) -> (n <> 0%nat -> p + PGSIZE * Z.of_nat n <= PHYSTOP) ->
  LKmem ∉ held s -> kmem_ok s l -> Forall (fun q => q < p) l ->
  0 <= freecount s -> freecount s + 2 * Z.of_nat n < 2 ^ 31 ->
  wp (kinit_loop fuel p) s (fun _ s' =>
    kmem_ok s' (rev (pages_from p n) ++ l) /\
    freecount s' = freecount s + 2 * Z.of_nat n /\
    exists m f c, s' = s <| mem := m |> <| freelist := f |> <| freecount := c |>).
Proof.
  induction n as [|n IH]; intros fuel p s l Hfuel Hal Hend Hlast Hlo Hl Hk Hlt Hf0 Hf;
    (destruct fuel as [|fuel]; [lia|]); cbn [kinit_loop]; unfold PGSIZE in *.
  - destruct (Z.leb_spec (p + 4096) PHYSTOP); [lia|].
    apply wp_intro_ret. split_and!; [done|lia|]. exists (mem s), (freelist s), (freecount s). by destruct s.
  - specialize (Hlo ltac:(lia)).
    destruct (Z.leb_spec (p + 4096) PHYSTOP); [|lia].
    assert (Hp : page_ok p) by (split; unfold PGSIZE; lia).
    apply wp_bind. eapply wp_kfree; [done|done|done| |].
    { rewrite Forall_forall in Hlt. intros Hin. apply Hlt in Hin. lia. }
    intros Hk'. apply wp_modify.
    eapply wp_mono; [eapply (IH fuel (p + 4096) _ (p :: l))|].
    + lia.
    + rewrite <- (Z_mod_plus_full p 1 4096) in Hal. rewrite <- Hal. f_equal; lia.
    + lia.
    + lia.
    + lia.
    + done.
    + destruct Hk' as [Hc' Hp' Hn']. split; done.
    + constructor; [lia|]. eapply Forall_impl; [exact Hlt|]. cbn; lia.
    + cbn. rewrite (s32_small (freecount s + 1)), s32_small by lia. lia.
    + cbn. rewrite (s32_small (freecount s + 1)), s32_small by lia. lia.
    + intros [] s' (Hk2 & Hf2 & (m & f & c & E2)). split_and!.
      * rewrite pages_from_S. cbn [rev]. rewrite <- app_assoc. exact Hk2.
      * rewrite Hf2. cbn. rewrite (s32_small (freecount s + 1)), s32_small by lia. lia.
      * exists m, f, c. exact E2.
Qed.

Lemma PGROUNDUP_spec x : 0 <= x -> x + PGSIZE - 1 < 2 ^ 32 ->
  PGROUNDUP x = (x + PGSIZE - 1) / PGSIZE * PGSIZE.
Proof.
  intros H0 H1. unfold PGROUNDUP, PGSIZE in *. rewrite u32_small by lia.
  change 4096 with (2 ^ 12) at 2. rewrite (land_clear_low _ 12 32) by lia.
  change (2 ^ 12) with 4096. pose proof (Z.div_mod (x + 4096 - 1) 4096). lia.
Qed.

Definition npages : nat := Z.to_nat ((PHYSTOP - PGROUNDUP sym_end) / PGSIZE).
End Kalloc.

(** ** Correctness *)
Section KallocCorrect.
Context `{LinkerOk}.

(** [kalloc] pops the free list: on a well-formed free list of pages [l] it
    returns null and changes nothing when [l] is empty; otherwise it returns the
    head of [l], an allocatable page, leaves a well-formed free list of the other
    pages, of which the returned page is not one, and touches no memory. *)
Theorem kalloc_correct (s : kernel) (l : list Z) :
  LKmem ∉ held s -> kmem_ok s l ->
  match l with
  | [] => kalloc s = Ret 0 s
  | r :: l' => exists s', kalloc s = Ret r s' /\ kmem_ok s' l' /\ page_ok r /\ (r ∉ l') /\
      mem s' = mem s /\ held s' = held s
  end.
Proof.
  intros Hl Hk.
  assert (G : wp kalloc s (fun r s' => kalloc s = Ret r s' /\ mem s' = mem s /\ held s' = held s /\
     match l with [] => r = 0 /\ s' = s | p :: l' => r = p /\ page_ok r /\ kmem_ok s' l' end)).
  { eapply wp_kalloc; [done|exact Hk| |].
    - intros ->. split_and!; try done. rewrite kalloc_run by done.
      destruct Hk as [Hc _ _]. cbn in Hc. rewrite Hc. done.
    - intros r l' -> Hr Hk' E. rewrite E. split_and!; try done; [|by rewrite <- E].
      rewrite kalloc_run by done. destruct Hk as [Hc _ _]. cbn in Hc. destruct Hc as [-> _].
      by rewrite <- E. }
  apply wp_ret_iff in G as (r & s' & Hrun & _ & Hm & Hh & G).
  destruct l as [|p l']; [destruct G as [-> ->]; done|].
  destruct G as (-> & Hp & Hk'). exists s'. split_and!; try done.
  apply ko_nodup in Hk. by inversion Hk.
Qed.

(** [kfree] pushes a page: for an address in the 32-bit range it returns exactly
    when the address is an allocatable page, and panics ("kfree") otherwise.  When
    the page was not free, the free list stays well formed with the page in front,
    and no byte outside the page changes. *)
Theorem kfree_correct (s : kernel) (l : list Z) (v : Z) :
  LKmem ∉ held s -> kmem_ok s l -> 0 <= v < 2 ^ 32 -> v ∉ l ->
  (page_ok v -> exists s', kfree v s = Ret tt s' /\ kmem_ok s' (v :: l) /\
     held s' = held s /\ agree_off (in_page v) (mem s) (mem s')) /\
  (~ page_ok v -> kfree v s = Panic "kfree").
Proof.
  intros Hl Hk Hv Hvl. split.
  - intros Hp. exists (after_kfree s v).
    split_and!; [by apply kfree_run|by apply kmem_ok_kfree|done|apply after_kfree_agree].
  - intros Hp. unfold kfree.
    destruct (negb _ || _ || _) eqn:E; [done|]. exfalso. apply Hp.
    apply kfree_guard in E. rewrite u32_small in E by done. split; lia.
Qed.

Lemma kinit_run (s : kernel) :
  held s = [] -> freelist s = 0 ->
  exists s', kinit s = Ret tt s' /\
    kmem_ok s' (rev (pages_from (PGROUNDUP sym_end) npages)) /\
    freecount s' = 2 * Z.of_nat npages /\
    exists m f c, s' = s <| mem := m |> <| freelist := f |> <| freecount := c |>.
Proof.
  intros Hh Hf. pose proof sym_end_pos as He. pose proof link_end as Hle.
  assert (Hr : PGROUNDUP sym_end = (sym_end + PGSIZE - 1) / PGSIZE * PGSIZE).
  { apply PGROUNDUP_spec; unfold PHYSTOP, PGSIZE in *; lia. }
  unfold npages. rewrite Hr. set (p := (sym_end + PGSIZE - 1) / PGSIZE * PGSIZE) in *.
  assert (Hp : p mod PGSIZE = 0) by (apply Z_mod_mult).
  assert (Hpe : sym_end <= p <= sym_end + PGSIZE - 1).
  { subst p. unfold PGSIZE. Z.div_mod_to_equations. lia. }
  set (n := Z.to_nat ((PHYSTOP - p) / PGSIZE)).
  assert (Hn : Z.of_nat n = (PHYSTOP - p) / PGSIZE).
  { subst n. rewrite Z2Nat.id; [done|]. apply Z.div_pos; unfold PGSIZE, PHYSTOP in *; lia. }
  assert (Hb : PGSIZE * Z.of_nat n <= PHYSTOP - p < PGSIZE * (Z.of_nat n + 1)).
  { rewrite Hn. unfold PGSIZE. Z.div_mod_to_equations. lia. }
  unfold PGSIZE, PHYSTOP in Hb. clearbody n p.
  assert (G : wp kinit s (fun _ s' => kmem_ok s' (rev (pages_from p n)) /\
    freecount s' = 2 * Z.of_nat n /\ exists m f c, s' = s <| mem := m |> <| freelist := f |> <| freecount := c |>)).
  { unfold kinit. apply wp_modify. rewrite Hr.
    eapply wp_mono; [eapply (kinit_loop_spec n kinit_fuel p _ [])|].
    - change kinit_fuel with (Z.to_nat 4097). lia.
    - done.
    - lia.
    - unfold PGSIZE, PHYSTOP. lia.
    - unfold PGSIZE, PHYSTOP. lia.
    - cbn. rewrite Hh. set_solver.
    - split; [done|constructor|constructor].
    - constructor.
    - cbn; lia.
    - cbn. lia.
    - intros [] s' (Hk & Hc & (m & f & c & E)). rewrite app_nil_r in Hk. split; [done|]. split; [exact Hc|]. exists m, f, c. exact E. }
  apply wp_ret_iff in G as ([] & s' & Hrun & G). by exists s'.
Qed.

(** C32. [kinit] on an empty free list frees exactly the pages between [end] rounded
    up and [PHYSTOP] (last page first), and leaves [freecount] at twice their number:
    [kfree] already counts the page that [kinit] counts again. *)
Theorem kinit_correct (s : kernel) :
  held s = [] -> freelist s = 0 ->
  exists s', kinit s = Ret tt s' /\
    kmem_ok s' (rev (pages_from (PGROUNDUP sym_end) npages)) /\
    freecount s' = 2 * Z.of_nat npages.
Proof. intros Hh Hf. destruct (kinit_run s Hh Hf) as (s' & E & Hk & Hc & _). by exists s'. Qed.
End KallocCorrect.

(** ** Examples: two free pages, [0xFFF000 -> 0xFFE000]. *)
Section KallocExamples.
Local Existing Instances linker0 linker0_ok.

Definition kernel_two_pages : kernel :=
  kernel0 <| mem := st32 (fun _ => 0) 0xFFF000 0xFFE000 |> <| freelist := 0xFFF000 |>
          <| freecount := 2 |>.

Lemma kernel_two_pages_ok : kmem_ok kernel_two_pages [0xFFF000; 0xFFE000].
Proof.
  split; [vm_compute; auto| |].
  - repeat constructor; vm_compute; congruence.
  - apply (bool_decide_unpack _). vm_compute. exact I.
Qed.

Lemma kalloc_correct_witness :
  exists s', kalloc kernel_two_pages = Ret 0xFFF000 s' /\ kmem_ok s' [0xFFE000].
Proof.
  destruct (kalloc_correct kernel_two_pages [0xFFF000; 0xFFE000]) as (s' & Hr & Hk & _).
  - cbn. set_solver.
  - apply kernel_two_pages_ok.
  - exists s'. split; assumption.
Defined.

Lemma kfree_correct_witness :
  (exists s', kfree 0xFFE000 (kernel0 <| freelist := 0 |>) = Ret tt s' /\ kmem_ok s' [0xFFE000]) /\
  kfree 0xFFE004 kernel0 = Panic "kfree".
Proof.
  split.
  - destruct (kfree_correct (kernel0 <| freelist := 0 |>) [] 0xFFE000) as [Hok _];
      [cbn; set_solver|split; [done|constructor|constructor]|lia|set_solver|].
    destruct Hok as (s' & Hr & Hk & _); [split; vm_compute; intuition congruence|].
    exists s'. split; assumption.
  - apply (kfree_correct kernel0 [] 0xFFE004);
      [cbn; set_solver|split; [done|constructor|constructor]|lia|set_solver|].
    intros [Hm _]. vm_compute in Hm. discriminate.
Defined.

Lemma kinit_correct_witness : exists s', kinit kernel0 = Ret tt s' /\
  kmem_ok s' [0xFFF000; 0xFFE000] /\ freecount s' = 4.
Proof.
  destruct (kinit_correct kernel0) as (s' & Hr & Hk & Hc); [reflexivity|reflexivity|].
  exists s'. split; [exact Hr|]. split; [exact Hk|exact Hc].
Defined.
End KallocExamples.
