(* ===== verification/PageTable.v ===== *)
(** Page tables as data: what a page directory in physical memory maps, which pages
    it is made of, and how the writes of vm.c change both. *)
From S2P Require Import Prelude Types Mem Kalloc.

(** ** Address arithmetic *)

Lemma PDX_div va : 0 <= va < 2 ^ 32 -> PDX va = va / 2 ^ 22.
Proof.
  intros. unfold PDX. rewrite u32_small, Z.shiftr_div_pow2 by lia.
  change 0x3FF with (Z.ones 10). rewrite Z.land_ones by lia.
  apply Z.mod_small. split; [apply Z.div_pos; lia|]. apply Z.div_lt_upper_bound; lia.
Qed.

Lemma PTX_div va : 0 <= va < 2 ^ 32 -> PTX va = (va / 2 ^ 12) mod 2 ^ 10.
Proof.
  intros. unfold PTX. rewrite u32_small, Z.shiftr_div_pow2 by lia.
  change 0x3FF with (Z.ones 10). rewrite Z.land_ones by lia. done.
Qed.

Lemma PDX_range va : 0 <= PDX va < 1024.
Proof.
  unfold PDX. change 0x3FF with (Z.ones 10). rewrite Z.land_ones by lia.
  apply Z.mod_pos_bound. lia.
Qed.

Lemma PTX_range va : 0 <= PTX va < 1024.
Proof.
  unfold PTX. change 0x3FF with (Z.ones 10). rewrite Z.land_ones by lia.
  apply Z.mod_pos_bound. lia.
Qed.

(** The two indices determine the page number. *)
Lemma page_number va : 0 <= va < 2 ^ 32 -> va / PGSIZE = 1024 * PDX va + PTX va.
Proof.
  intros. rewrite PDX_div, PTX_div by done. unfold PGSIZE.
  change (2 ^ 22) with (2 ^ 12 * 2 ^ 10). rewrite <- Z.div_div by lia.
  change (2 ^ 12) with 4096. pose proof (Z.div_mod (va / 4096) (2 ^ 10)). lia.
Qed.

Lemma PDX_lt_4M va : 0 <= va < 2 ^ 22 -> PDX va = 0.
Proof. intros. rewrite PDX_div by lia. apply Z.div_small. lia. Qed.

Lemma PGROUNDDOWN_spec a : 0 <= a < 2 ^ 32 -> PGROUNDDOWN a = a / PGSIZE * PGSIZE.
Proof.
  intros H. unfold PGROUNDDOWN, PGSIZE. rewrite u32_small by lia.
  change 4096 with (2 ^ 12) at 1. rewrite (land_clear_low _ 12 32) by lia.
  change (2 ^ 12) with 4096. pose proof (Z.div_mod a 4096). lia.
Qed.

Lemma PGROUNDDOWN_aligned a : 0 <= a < 2 ^ 32 -> a mod PGSIZE = 0 -> PGROUNDDOWN a = a.
Proof. intros. rewrite PGROUNDDOWN_spec by done. pose proof (Z.div_mod a PGSIZE). unfold PGSIZE in *; lia. Qed.

(** A page-table entry is a page address plus flags. *)
Lemma PTE_ADDR_mk p f :
  0 <= p < 2 ^ 32 -> p mod 4096 = 0 -> 0 <= f < 4096 -> PTE_ADDR (p + f) = p.
Proof.
  intros Hp Ha Hf. unfold PTE_ADDR.
  assert (p + f < 2 ^ 32). { apply Z.mod_divide in Ha as [k ->]; lia. }
  rewrite u32_small by lia. change 4096 with (2 ^ 12) at 1.
  rewrite (land_clear_low _ 12 32) by lia. change (2 ^ 12) with 4096.
  rewrite <- Z.add_mod_idemp_l, Ha, Z.mod_small by lia. lia.
Qed.

Lemma has_mk p f b :
  p mod 4096 = 0 -> 0 <= f < 4096 -> 0 <= b < 4096 -> has (p + f) b = has f b.
Proof.
  intros Ha Hf Hb. unfold has. rewrite (land_mod_low (p + f) b 12) by lia.
  change (2 ^ 12) with 4096. rewrite <- Z.add_mod_idemp_l, Ha, Z.mod_small by lia. done.
Qed.

Lemma PTE_ADDR_aligned v : PTE_ADDR v mod 4096 = 0.
Proof.
  unfold PTE_ADDR. change 4096 with (2 ^ 12) at 1.
  rewrite (land_clear_low _ 12 32) by (lia || apply u32_range). change (2 ^ 12) with 4096.
  rewrite Zminus_mod_idemp_r, Z.sub_diag. done.
Qed.

(** The entry [mappages] writes. *)
Lemma pte_encode pa perm :
  pa mod 4096 = 0 -> 0 <= perm < 4096 ->
  Z.lor (Z.lor pa perm) PTE_P = pa + Z.lor perm PTE_P.
Proof.
  intros Ha Hp. rewrite <- Z.lor_assoc. apply (lor_add_disjoint _ _ 12); [lia|done|].
  unfold PTE_P. split; [apply Z.lor_nonneg; lia|].
  destruct (Z.eq_dec perm 0) as [->|]; [done|].
  apply Z.log2_lt_pow2.
  { assert (0 <= Z.lor perm 1) by (apply Z.lor_nonneg; lia).
    assert (Z.lor perm 1 <> 0); [|lia]. rewrite Z.lor_eq_0_iff. lia. }
  rewrite Z.log2_lor by lia. apply Z.max_lub_lt; [apply Z.log2_lt_pow2; lia|done].
Qed.

(** ** What a page directory maps *)

Definition pde_of (m : Z -> Z) (d i : Z) : Z := ld32 m (d + 4 * i).

(** The address of the page-table entry for [va], 0 if there is no page table. *)
Definition pte_slot (m : Z -> Z) (d va : Z) : Z :=
  let v := pde_of m d (PDX va) in
  if has v PTE_P then PTE_ADDR v + 4 * PTX va else 0.

(** The page-table entry for [va], 0 if there is no page table. *)
Definition pte_of (m : Z -> Z) (d va : Z) : Z :=
  let a := pte_slot m d va in if a =? 0 then 0 else ld32 m a.

(** The page tables the directory points to. *)
Definition pdidx : list Z := Z.of_nat <$> seq 0 NPDENTRIES.
Definition ptab (m : Z -> Z) (d i : Z) : option Z :=
  let v := pde_of m d i in if has v PTE_P then Some (PTE_ADDR v) else None.
Definition ptpages (m : Z -> Z) (d : Z) : list Z := omap (ptab m d) pdidx.

#[global] Typeclasses Opaque ptpages pdidx.

Lemma elem_of_pdidx i : i ∈ pdidx <-> 0 <= i < 1024.
Proof.
  unfold pdidx. rewrite list_elem_of_fmap. split.
  - intros (n & -> & Hn). apply elem_of_seq in Hn. unfold NPDENTRIES in Hn. lia.
  - intros Hi. exists (Z.to_nat i). rewrite Z2Nat.id by lia. split; [done|].
    apply elem_of_seq. unfold NPDENTRIES. lia.
Qed.

Lemma NoDup_pdidx : NoDup pdidx.
Proof. unfold pdidx. apply NoDup_fmap; [apply _|apply NoDup_seq]. Qed.

#[global] Opaque pdidx.

Lemma elem_of_ptpages m d p :
  p ∈ ptpages m d <-> exists i, 0 <= i < 1024 /\ ptab m d i = Some p.
Proof.
  unfold ptpages. rewrite list_elem_of_omap. setoid_rewrite elem_of_pdidx. done.
Qed.

Lemma omap_ext_in {A} (f g : Z -> option A) (l : list Z) :
  (forall j, j ∈ l -> g j = f j) -> omap g l = omap f l.
Proof.
  induction l as [|k l IH]; intros Hfg; [done|]. cbn.
  rewrite Hfg by set_solver. rewrite IH by set_solver. done.
Qed.

(** Changing one absent directory entry into a present one adds one page table. *)
Lemma omap_insert {A} (f g : Z -> option A) (l : list Z) i y :
  NoDup l -> i ∈ l -> f i = None -> g i = Some y ->
  (forall j, j ∈ l -> j <> i -> g j = f j) -> omap g l ≡ₚ y :: omap f l.
Proof.
  intros Hn Hi Hf Hg Hne. induction l as [|j l IH]; [set_solver|].
  inversion Hn as [|? ? Hj Hn']; subst. cbn.
  destruct (decide (j = i)) as [->|Hji].
  - rewrite Hf, Hg. rewrite (omap_ext_in f g) by set_solver. done.
  - rewrite Hne by set_solver. assert (i ∈ l) by set_solver.
    assert (omap g l ≡ₚ y :: omap f l) as Hp by (apply IH; set_solver).
    destruct (f j); rewrite Hp; [apply Permutation_swap|done].
Qed.

Lemma NoDup_omap_inj {A} (f : Z -> option A) (l : list Z) i j y :
  NoDup (omap f l) -> i ∈ l -> j ∈ l -> f i = Some y -> f j = Some y -> i = j.
Proof.
  induction l as [|k l IH]; intros Hn Hi Hj Hfi Hfj; [set_solver|]. cbn in Hn.
  assert (K : forall a b, a = k -> b ∈ l -> f a = Some y -> f b = Some y -> a = b).
  { intros a b -> Hb Ha Hbb. rewrite Ha in Hn. inversion Hn as [|? ? Hy]; subst.
    exfalso. apply Hy. apply list_elem_of_omap. eauto. }
  apply elem_of_cons in Hi as [Hi|Hi], Hj as [Hj|Hj].
  - congruence.
  - eauto.
  - symmetry. eauto.
  - apply IH; try done. destruct (f k); [by inversion Hn|done].
Qed.

Section PageTable.
Context `{HL : LinkerOk}.

(** The pages of the directory [d] and its tables, the pages [R] reserved for other
    uses and the free pages [l] are pairwise distinct pages of the allocator. *)
Record own (m : Z -> Z) (d : Z) (R l : list Z) : Prop := {
  own_pages : Forall page_ok (d :: ptpages m d ++ R ++ l);
  own_nodup : NoDup (d :: ptpages m d ++ R ++ l) }.

(** Addresses of the directory and its tables. *)
Definition in_tables (m : Z -> Z) (d x : Z) : Prop :=
  in_page d x \/ exists p, p ∈ ptpages m d /\ in_page p x.

Lemma own_page m d R l p : own m d R l -> p ∈ d :: ptpages m d ++ R ++ l -> page_ok p.
Proof. intros [Hp _] Hin. rewrite Forall_forall in Hp. by apply Hp. Qed.

Lemma own_perm m d R l R' l' :
  own m d R l -> R ++ l ≡ₚ R' ++ l' -> own m d R' l'.
Proof.
  intros [Hp Hn] HP.
  assert (E : d :: ptpages m d ++ R ++ l ≡ₚ d :: ptpages m d ++ R' ++ l') by by rewrite HP.
  split; [by rewrite <- E|by rewrite <- E].
Qed.

Lemma ptab_slot m d va p :
  ptab m d (PDX va) = Some p -> pte_slot m d va = p + 4 * PTX va.
Proof. unfold ptab, pte_slot. destruct (has _ _); naive_solver. Qed.

Lemma ptab_in m d va p : ptab m d (PDX va) = Some p -> p ∈ ptpages m d.
Proof. intros Hp. apply elem_of_ptpages. exists (PDX va). split; [apply PDX_range|done]. Qed.

Lemma ptab_None_slot m d va : ptab m d (PDX va) = None -> pte_slot m d va = 0.
Proof. unfold ptab, pte_slot. by destruct (has _ _). Qed.

Lemma ptab_slot_nz m d R l va p :
  own m d R l -> ptab m d (PDX va) = Some p ->
  page_ok p /\ pte_slot m d va = p + 4 * PTX va /\ pte_slot m d va <> 0.
Proof.
  intros Ho Hp. pose proof (ptab_slot _ _ _ _ Hp) as Hs.
  assert (Hpo : page_ok p).
  { eapply own_page; [done|]. apply elem_of_cons. right. apply elem_of_app. left.
    by eapply ptab_in. }
  split_and!; [done|done|]. apply page_ok_bounds in Hpo. pose proof (PTX_range va). lia.
Qed.

(** The view depends only on the pages of the tables. *)
Lemma pde_of_ext m m' d i :
  (forall x, in_page d x -> m' x = m x) -> 0 <= i < 1024 -> pde_of m' d i = pde_of m d i.
Proof.
  intros Hx Hi. apply ld32_ext. intros x Hr. apply Hx. unfold in_page, PGSIZE. lia.
Qed.

Lemma ptpages_ext m m' d :
  (forall x, in_page d x -> m' x = m x) -> ptpages m' d = ptpages m d.
Proof.
  intros Hx. apply omap_ext_in. intros i Hi. apply elem_of_pdidx in Hi.
  unfold ptab. by rewrite (pde_of_ext m m').
Qed.

Lemma pte_slot_ext m m' d va :
  (forall x, in_page d x -> m' x = m x) -> pte_slot m' d va = pte_slot m d va.
Proof. intros Hx. unfold pte_slot. by rewrite (pde_of_ext m m') by (done || apply PDX_range). Qed.

Lemma pte_of_ext m m' d va :
  (forall x, in_tables m d x -> m' x = m x) -> pte_of m' d va = pte_of m d va.
Proof.
  intros Hx. unfold pte_of. rewrite (pte_slot_ext m) by (intros; apply Hx; by left).
  destruct (ptab m d (PDX va)) as [p|] eqn:Ep.
  - rewrite (ptab_slot _ _ _ _ Ep). destruct (_ =? 0); [done|].
    apply ld32_ext. intros x Hr. apply Hx. right. exists p.
    split; [by eapply ptab_in|]. pose proof (PTX_range va). unfold in_page, PGSIZE. lia.
  - by rewrite (ptab_None_slot _ _ _ Ep).
Qed.

(** Pages of an owned address space: the directory is not one of its tables, and
    different directory entries name different tables. *)
Lemma own_dir_ne m d R l p : own m d R l -> p ∈ ptpages m d -> p <> d.
Proof. intros [_ Hn] Hp ->. inversion Hn as [|? ? Hd]; subst. apply Hd, elem_of_app. by left. Qed.

Lemma own_ptab_inj m d R l i j p :
  own m d R l -> 0 <= i < 1024 -> 0 <= j < 1024 ->
  ptab m d i = Some p -> ptab m d j = Some p -> i = j.
Proof.
  intros [_ Hn] Hi Hj. apply NoDup_omap_inj with (l := pdidx); try by apply elem_of_pdidx.
  inversion Hn as [|? ? _ Hn']; subst. apply NoDup_app in Hn' as [? _]. done.
Qed.

(** Entries of different pages do not overlap. *)
Lemma slots_disjoint m d R l va va' p p' :
  own m d R l -> 0 <= va < 2 ^ 32 -> 0 <= va' < 2 ^ 32 -> va / PGSIZE <> va' / PGSIZE ->
  ptab m d (PDX va) = Some p -> ptab m d (PDX va') = Some p' ->
  p + 4 * PTX va + 4 <= p' + 4 * PTX va' \/ p' + 4 * PTX va' + 4 <= p + 4 * PTX va.
Proof.
  intros Ho Hva Hva' Hne Hp Hp'.
  rewrite !page_number in Hne by done.
  pose proof (PTX_range va); pose proof (PTX_range va').
  destruct (decide (PDX va = PDX va')) as [E|E].
  - assert (p = p') as -> by congruence. lia.
  - assert (Hpp : p <> p').
    { intros ->. apply E. eapply own_ptab_inj; eauto using PDX_range. }
    pose proof (ptab_slot_nz _ _ _ _ _ _ Ho Hp) as ([Ha _] & _).
    pose proof (ptab_slot_nz _ _ _ _ _ _ Ho Hp') as ([Ha' _] & _).
    unfold PGSIZE in *. apply Z.mod_divide in Ha as [a ->]; [|lia].
    apply Z.mod_divide in Ha' as [b ->]; [|lia]. lia.
Qed.

(** Reserved and free pages are not part of the tables. *)
Lemma own_disjoint m d R l q x :
  own m d R l -> q ∈ R ++ l -> in_page q x -> ~ in_tables m d x.
Proof.
  intros [Hpo Hnd] Hq Hx Ht. rewrite Forall_forall in Hpo.
  inversion Hnd as [|? ? Hd Hnd']; subst. apply NoDup_app in Hnd' as (_ & Hno & _).
  assert (Hqo : page_ok q) by (apply Hpo; rewrite elem_of_cons, elem_of_app; tauto).
  destruct Ht as [Ht|(t & Ht & Htx)].
  - eapply (pages_disjoint q d x); [apply Hqo|apply Hpo; rewrite elem_of_cons; tauto| |done|done].
    intros ->. apply Hd. rewrite elem_of_app; tauto.
  - eapply (pages_disjoint q t x); [apply Hqo|apply Hpo; rewrite elem_of_cons, elem_of_app; tauto| |done|done].
    intros ->. by apply (Hno t Ht).
Qed.

(** Writing an entry changes the mapping of that page only. *)
Lemma store_pte m d R l va p v :
  own m d R l -> 0 <= va < 2 ^ 32 -> ptab m d (PDX va) = Some p ->
  let m' := st32 m (pte_slot m d va) v in
  own m' d R l /\ ptpages m' d = ptpages m d /\ agree_off (in_tables m d) m m' /\
  (forall i, 0 <= i < 1024 -> ptab m' d i = ptab m d i) /\
  (forall va', 0 <= va' < 2 ^ 32 ->
     pte_of m' d va' = if va' / PGSIZE =? va / PGSIZE then u32 v else pte_of m d va').
Proof.
  intros Ho Hva Hp m'.
  destruct (ptab_slot_nz _ _ _ _ _ _ Ho Hp) as (Hpo & Hs & Hnz).
  pose proof (PTX_range va) as Hr.
  assert (Hin : forall x, pte_slot m d va <= x < pte_slot m d va + 4 -> in_page p x).
  { intros x Hx. unfold in_page, PGSIZE. lia. }
  assert (Hd : forall x, in_page d x -> m' x = m x).
  { intros x Hx. unfold m'. apply st32_other.
    assert (~ in_page p x).
    { apply pages_disjoint with d; [| apply Hpo| |done].
      - eapply own_page; [done|]. apply elem_of_cons. by left.
      - intros ->. eapply own_dir_ne; [done|by eapply ptab_in|done]. }
    unfold in_page, PGSIZE in *. lia. }
  assert (Hpt : ptpages m' d = ptpages m d) by by apply ptpages_ext.
  split_and!.
  - destruct Ho. split; by rewrite Hpt.
  - done.
  - intros x Hx. unfold m'. apply st32_other.
    assert (~ in_page p x). { intros Hpx. apply Hx. right. exists p. split; [by eapply ptab_in|done]. }
    unfold in_page, PGSIZE in *. lia.
  - intros i Hi. unfold ptab. by rewrite (pde_of_ext m m').
  - intros va' Hva'. unfold pte_of. rewrite (pte_slot_ext m m') by done.
    destruct (ptab m d (PDX va')) as [p'|] eqn:Ep'.
    + destruct (ptab_slot_nz _ _ _ _ _ _ Ho Ep') as (_ & Hs' & Hnz').
      destruct (Z.eqb_spec (pte_slot m d va') 0); [done|].
      destruct (Z.eqb_spec (va' / PGSIZE) (va / PGSIZE)) as [E|E].
      * rewrite !page_number in E by done.
        pose proof (PTX_range va'); pose proof (PDX_range va'); pose proof (PDX_range va).
        assert (PDX va' = PDX va /\ PTX va' = PTX va) as [E1 E2] by lia.
        assert (p' = p) as -> by congruence.
        unfold m'. rewrite Hs', Hs, E2. apply ld32_st32_eq.
      * unfold m'. rewrite Hs', Hs. apply ld32_st32_ne.
        pose proof (slots_disjoint _ _ _ _ _ _ _ _ Ho Hva' Hva E Ep' Hp). lia.
    + rewrite (ptab_None_slot _ _ _ Ep').
      destruct (Z.eqb_spec (va' / PGSIZE) (va / PGSIZE)) as [E|E]; [|done].
      rewrite !page_number in E by done.
      pose proof (PTX_range va'); pose proof (PDX_range va'); pose proof (PDX_range va).
      assert (PDX va' = PDX va) as E1 by lia. rewrite E1 in Ep'. congruence.
Qed.

(** Installing a zeroed page as a new page table maps nothing new. *)
Section new_table.
Context (m : Z -> Z) (d : Z) (R l : list Z) (r va f : Z).
Context (Ho : own m d R (r :: l)) (Hva : 0 <= va < 2 ^ 32) (Hnone : ptab m d (PDX va) = None) (Hf : 0 <= f < 4096) (HfP : has f PTE_P = true).
Let m' := st32 (memset m r 0 PGSIZE) (d + 4 * PDX va) (r + f).

Lemma new_table_pages : page_ok d /\ page_ok r /\ r <> d /\ r ∉ ptpages m d.
Proof.
  assert (Hd : page_ok d) by (eapply own_page; [done|]; apply elem_of_cons; by left).
  assert (Hr : page_ok r).
  { eapply own_page; [done|]. apply elem_of_cons; right. rewrite !elem_of_app, elem_of_cons. tauto. }
  destruct Ho as [_ Hn]. inversion Hn as [|? ? Hd' Hn']; subst. split_and!; [done|done| |].
  - intros ->. apply Hd'. rewrite !elem_of_app, elem_of_cons. tauto.
  - intros Hin. apply NoDup_app in Hn' as (_ & Hno & _). apply (Hno r Hin).
    rewrite !elem_of_app, elem_of_cons. tauto.
Qed.

(** The directory: one entry has changed. *)
Lemma new_table_ptab i : 0 <= i < 1024 -> ptab m' d i = if i =? PDX va then Some r else ptab m d i.
Proof.
  intros Hi. destruct new_table_pages as (Hd & Hr & Hrd & _). pose proof (PDX_range va).
  assert (Hrb : 0 <= r < 2 ^ 32 /\ r mod 4096 = 0).
  { pose proof (page_ok_bounds r Hr). destruct Hr as [Ha _]. unfold PGSIZE, PHYSTOP in *. lia. }
  destruct Hrb as [Hrb Hra]. assert (Hrf : 0 <= r + f < 2 ^ 32) by (apply Z.mod_divide in Hra as [k ->]; lia).
  assert (Hpde : pde_of m' d i = if i =? PDX va then r + f else pde_of m d i).
  { unfold pde_of, m'. destruct (Z.eqb_spec i (PDX va)) as [->|Hne].
    - rewrite ld32_st32_eq. by apply u32_small.
    - rewrite ld32_st32_ne by lia. apply ld32_ext. intros x Hx. apply memset_out.
      assert (Hpr : in_page d x -> ~ in_page r x) by (apply pages_disjoint; [apply Hd|apply Hr|congruence]).
      unfold in_page, PGSIZE in *. lia. }
  unfold ptab. rewrite Hpde. destruct (Z.eqb_spec i (PDX va)); [|done].
  rewrite has_mk by (done || unfold PTE_P; lia). rewrite HfP, PTE_ADDR_mk by done. done.
Qed.

Lemma new_table_ptpages : ptpages m' d ≡ₚ r :: ptpages m d.
Proof.
  pose proof (PDX_range va). apply omap_insert with (PDX va).
  - apply NoDup_pdidx.
  - by apply elem_of_pdidx.
  - done.
  - by rewrite new_table_ptab, Z.eqb_refl.
  - intros j Hj Hne. apply elem_of_pdidx in Hj. rewrite new_table_ptab by done. by destruct (Z.eqb_spec j (PDX va)).
Qed.

Lemma new_table_agree x : ~ in_page d x -> ~ in_page r x -> m' x = m x.
Proof. intros Hxd Hxr. pose proof (PDX_range va). unfold m', in_page, PGSIZE in *. rewrite st32_other, memset_out by lia. done. Qed.

(** Every address is mapped as before: the new table is empty. *)
Lemma new_table_view va' : 0 <= va' < 2 ^ 32 -> pte_of m' d va' = pte_of m d va'.
Proof.
  intros Hva'. destruct new_table_pages as (Hd & Hr & Hrd & Hrp). pose proof (PDX_range va') as Hi'. pose proof (PTX_range va') as Ht'. pose proof (PDX_range va) as Hi.
  unfold pte_of. pose proof (new_table_ptab _ Hi') as Hpt. destruct (Z.eqb_spec (PDX va') (PDX va)) as [E|E].
  - rewrite (ptab_slot _ _ _ _ Hpt), (ptab_None_slot m) by congruence. cbn [Z.eqb].
    destruct (_ =? 0); [done|]. unfold m'. rewrite ld32_st32_ne.
    2:{ destruct Hr as [Har _], Hd as [Had _]. unfold PGSIZE in *.
        apply Z.mod_divide in Har as [a ->]; [|lia]. apply Z.mod_divide in Had as [b ->]; lia. }
    apply ld32_memset0; unfold PGSIZE; lia.
  - destruct (ptab m d (PDX va')) as [p|] eqn:Ep.
    + rewrite (ptab_slot _ _ _ _ Hpt), (ptab_slot _ _ _ _ Ep). destruct (_ =? 0); [done|]. apply ld32_ext. intros x Hx.
      assert (Hpp : in_page p x) by (unfold in_page, PGSIZE; lia).
      assert (Hpok : page_ok p).
      { eapply own_page; [done|]. apply elem_of_cons; right. apply elem_of_app; left. by eapply ptab_in. }
      apply new_table_agree; apply pages_disjoint with p; try apply Hpok; try apply Hd; try apply Hr; try done.
      * eapply own_dir_ne; [done|by eapply ptab_in].
      * intros ->. apply Hrp. by eapply ptab_in.
    + rewrite (ptab_None_slot _ _ _ Hpt), (ptab_None_slot _ _ _ Ep). done.
Qed.

Lemma new_table :
  own m' d R l /\ ptpages m' d ≡ₚ r :: ptpages m d /\
  agree_off (in_tables m' d) m m' /\ ptab m' d (PDX va) = Some r /\
  (forall i, 0 <= i < 1024 -> i <> PDX va -> ptab m' d i = ptab m d i) /\
  (forall va', 0 <= va' < 2 ^ 32 -> pte_of m' d va' = pte_of m d va').
Proof.
  pose proof (PDX_range va) as Hi. split_and!.
  - assert (E : d :: ptpages m' d ++ R ++ l ≡ₚ d :: ptpages m d ++ R ++ r :: l).
    { rewrite new_table_ptpages. f_equiv. cbn. rewrite !app_assoc, (Permutation_middle (ptpages m d ++ R)). done. }
    destruct Ho. split; by rewrite E.
  - apply new_table_ptpages.
  - intros x Hx. apply new_table_agree.
    + intros Hd'. apply Hx. by left.
    + intros Hr'. apply Hx. right. exists r. split; [|done]. rewrite new_table_ptpages. apply elem_of_cons. by left.
  - by rewrite new_table_ptab, Z.eqb_refl.
  - intros i Hi' Hne. rewrite new_table_ptab by done. by destruct (Z.eqb_spec i (PDX va)).
  - apply new_table_view.
Qed.
End new_table.
End PageTable.
