(* ===== verification/Cons.v ===== *)
(** Console output: [printint], [cprintf], [consputc] and [cgaputc] of
    [kernel/console.c] and [uartputc] of [kernel/uart.c]. *)
From S2P Require Import Prelude Types.

(** ** Code *)

Definition BACKSPACE : Z := 0x100.

(** [outb(COM1+0, c)]; the bounded wait for the transmitter has no effect. *)
Definition uartputc (c : Z) : M kernel unit :=
  let! k := gets kcons in
  when (uart k) (modify (fun s => s <| kcons ::= fun k => k <| uart_out ::= cons (u8 c) |> |>)).

(** The screen after the character [c]: cells [crt] and cursor [pos]. *)
Definition cga_scroll (crt : Z -> Z) (pos : Z) : (Z -> Z) * Z :=
  if 24 <=? pos / 80 then
    let crt1 := fun i => if (0 <=? i) && (i <? 23 * 80) then crt (i + 80) else crt i in
    let pos' := pos - 80 in
    (fun i => if (pos' <=? i) && (i <? 24 * 80) then 0 else crt1 i, pos')
  else (crt, pos).

Definition cga_step (c : Z) (crt : Z -> Z) (pos : Z) : (Z -> Z) * Z :=
  let '(crt1, pos1) :=
    if c =? 10 then (crt, pos + (80 - pos mod 80))
    else if c =? BACKSPACE then (crt, if 0 <? pos then pos - 1 else pos)
    else (fun i => if i =? pos then Z.lor (Z.land c 0xff) 0x0700 else crt i, pos + 1) in
  let '(crt2, pos2) := cga_scroll crt1 pos1 in
  (fun i => if i =? pos2 then Z.lor 32 0x0700 else crt2 i, pos2).

(** The cursor register holds 16 bits. *)
Definition cgaputc (c : Z) : M kernel unit :=
  modify (fun s => s <| kcons ::= fun k =>
    let '(crt', pos') := cga_step c (crt k) (crt_pos k) in
    k <| crt := crt' |> <| crt_pos := pos' mod 2 ^ 16 |> |>).

Definition consputc (c : Z) : M kernel unit :=
  let! k := gets kcons in
  if panicked k then spin
  else
    (if c =? BACKSPACE then uartputc 8 ;; uartputc 32 ;; uartputc 8 else uartputc c) ;;
    cgaputc c.

Fixpoint consputs (l : list Z) : M kernel unit :=
  match l with
  | [] => ret tt
  | c :: l' => consputc c ;; consputs l'
  end.

Definition digits : list Z := str "0123456789abcdef".

(** [do buf[i++] = digits[x % base]; while((x /= base) != 0);]: the characters of
    [buf], last one first.  [x] is a 32-bit number, so 32 turns are enough. *)
Fixpoint digit_loop (fuel : nat) (x base : Z) (buf : list Z) : list Z :=
  match fuel with
  | O => buf
  | S fuel' =>
      let buf' := default 0 (digits !! Z.to_nat (x mod base)) :: buf in
      if x / base =? 0 then buf' else digit_loop fuel' (x / base) base buf'
  end.

Definition printint_chars (xx base sign : Z) : list Z :=
  let neg := negb (sign =? 0) && (s32 xx <? 0) in
  let x := if neg then u32 (- s32 xx) else u32 xx in
  let buf := digit_loop 32 x base [] in
  if neg then 45 :: buf else buf.

Definition printint (xx base sign : Z) : M kernel unit := consputs (printint_chars xx base sign).

(** The variadic arguments of [cprintf]; the null string is [None]. *)
Inductive fmtarg : Type := AInt (v : Z) | AStr (s : option (list Z)).

Definition arg_int (args : list fmtarg) : Z := match args with AInt v :: _ => v | _ => 0 end.
Definition arg_str (args : list fmtarg) : list Z :=
  match args with AStr (Some t) :: _ => t | _ => str "(null)" end.

(** Up to the NUL, like [for(; *s; s++) consputc( *s)]. *)
Fixpoint putstr (t : list Z) : M kernel unit :=
  match t with
  | [] => ret tt
  | c :: t' => if c =? 0 then ret tt else consputc c ;; putstr t'
  end.

Fixpoint cprintf_loop (fmt : list Z) (args : list fmtarg) : M kernel unit :=
  match fmt with
  | [] => ret tt
  | c :: fmt' =>
      if c =? 0 then ret tt
      else if negb (c =? 37) then consputc c ;; cprintf_loop fmt' args
      else match fmt' with
           | [] => ret tt
           | d :: fmt2 =>
               if d =? 0 then ret tt
               else if d =? 100 then
                 printint (arg_int args) 10 1 ;; cprintf_loop fmt2 (tail args)
               else if (d =? 120) || (d =? 112) then
                 printint (arg_int args) 16 0 ;; cprintf_loop fmt2 (tail args)
               else if d =? 115 then
                 putstr (arg_str args) ;; cprintf_loop fmt2 (tail args)
               else if d =? 37 then consputc 37 ;; cprintf_loop fmt2 args
               else consputc 37 ;; consputc d ;; cprintf_loop fmt2 args
           end
  end.

Definition cprintf (fmt : string) (args : list fmtarg) : M kernel unit :=
  let! k := gets kcons in
  let locking := cons_locking k in
  when locking (acquire LCons) ;;
  cprintf_loop (str fmt) args ;;
  when locking (release LCons).

(** ** [cprintf] only writes to the console devices *)

(** The console may print: nothing has panicked and its lock is free. *)
Definition cons_ready (s : kernel) : Prop :=
  panicked (kcons s) = false /\ LCons ∉ held s.

(** [s'] is [s] up to what was printed. *)
Definition printed (s s' : kernel) : Prop :=
  exists k, s' = s <| kcons := k |> /\
    panicked k = panicked (kcons s) /\ cons_locking k = cons_locking (kcons s) /\ uart k = uart (kcons s).

Lemma printed_refl s : printed s s.
Proof. exists (kcons s). split_and!; [destruct s|..]; done. Qed.

Lemma printed_trans s1 s2 s3 : printed s1 s2 -> printed s2 s3 -> printed s1 s3.
Proof.
  intros (k1 & -> & ? & ? & ?) (k2 & -> & ? & ? & ?). exists k2.
  split_and!; [done|cbn in *; congruence..].
Qed.

Lemma wp_printed_bind {A} (m : M kernel unit) (f : unit -> M kernel A) s s0 (Q : A -> kernel -> Prop) :
  wp m s (fun _ s' => printed s s') -> printed s0 s ->
  (forall s', printed s0 s' -> wp (f tt) s' Q) -> wp (bind m f) s Q.
Proof.
  intros Hm H0 Hf. apply wp_bind. eapply wp_mono; [exact Hm|].
  intros [] s' Hp. apply Hf. by eapply printed_trans.
Qed.

Lemma printed_update s (g : console -> console) :
  (forall k, panicked (g k) = panicked k /\ cons_locking (g k) = cons_locking k /\ uart (g k) = uart k) ->
  printed s (s <| kcons ::= g |>).
Proof. intros Hg. exists (g (kcons s)). by split; [|apply Hg]. Qed.

Lemma wp_consputc c s :
  panicked (kcons s) = false -> wp (consputc c) s (fun _ s' => printed s s').
Proof.
  intros Hp. unfold consputc. apply wp_gets. rewrite Hp.
  assert (U : forall c s0 s1 Q, printed s0 s1 ->
    (forall s2, printed s0 s2 -> Q tt s2) -> wp (uartputc c) s1 Q).
  { intros d s0 s1 Q H01 HQ. unfold uartputc. apply wp_gets. destruct (uart _); [|by apply HQ].
    apply HQ. eapply printed_trans; [exact H01|]. by apply printed_update. }
  assert (G : forall s1, printed s s1 -> wp (cgaputc c) s1 (fun _ s' => printed s s')).
  { intros s1 H1. unfold cgaputc, wp, modify. eapply printed_trans; [exact H1|].
    apply printed_update. intros k. by destruct (cga_step c _ _). }
  apply wp_bind. destruct (c =? BACKSPACE).
  - apply wp_bind. eapply U; [apply printed_refl|]. intros s1 H1.
    apply wp_bind. eapply U; [exact H1|]. intros s2 H2. eapply U; [exact H2|]. exact G.
  - eapply U; [apply printed_refl|]. exact G.
Qed.

Lemma printed_panicked s s' : printed s s' -> panicked (kcons s') = panicked (kcons s).
Proof. intros (k & -> & ? & ?). done. Qed.

Lemma wp_consputs l : forall s,
  panicked (kcons s) = false -> wp (consputs l) s (fun _ s' => printed s s').
Proof.
  induction l as [|c l IH]; intros s Hp; cbn [consputs].
  { apply wp_intro_ret, printed_refl. }
  eapply wp_printed_bind; [by apply wp_consputc|apply printed_refl|].
  intros s' Hs'. eapply wp_mono; [apply IH; by rewrite (printed_panicked s)|].
  intros ? s2 Hs2. by eapply printed_trans.
Qed.

Lemma wp_putstr t : forall s,
  panicked (kcons s) = false -> wp (putstr t) s (fun _ s' => printed s s').
Proof.
  induction t as [|c t IH]; intros s Hp; cbn [putstr].
  { apply wp_intro_ret, printed_refl. }
  destruct (c =? 0); [apply wp_intro_ret, printed_refl|].
  eapply wp_printed_bind; [by apply wp_consputc|apply printed_refl|].
  intros s' Hs'. eapply wp_mono; [apply IH; by rewrite (printed_panicked s)|].
  intros ? s2 Hs2. by eapply printed_trans.
Qed.

Lemma wp_cprintf_loop : forall n fmt args s,
  (length fmt <= n)%nat -> panicked (kcons s) = false ->
  wp (cprintf_loop fmt args) s (fun _ s' => printed s s').
Proof.
  induction n as [|n IH]; intros fmt args s Hn Hp.
  { destruct fmt; [|cbn in Hn; lia]. apply wp_intro_ret, printed_refl. }
  assert (K : forall (m : M kernel unit) f2 args2, (length f2 <= n)%nat ->
    (forall s, panicked (kcons s) = false -> wp m s (fun _ s' => printed s s')) ->
    forall s, panicked (kcons s) = false ->
    wp (m ;; cprintf_loop f2 args2) s (fun _ s' => printed s s')).
  { intros m f2 args2 Hf2 Hm s1 Hs1.
    eapply wp_printed_bind; [by apply Hm|apply printed_refl|].
    intros s' Hs'. eapply wp_mono; [apply IH; [done|by rewrite (printed_panicked s1)]|].
    intros ? s2 Hs2. by eapply printed_trans. }
  destruct fmt as [|c fmt]; cbn [cprintf_loop] in *; [apply wp_intro_ret, printed_refl|].
  cbn [length] in Hn.
  destruct (c =? 0); [apply wp_intro_ret, printed_refl|].
  destruct (negb (c =? 37)).
  { apply K; [lia|intros; by apply wp_consputc|done]. }
  destruct fmt as [|d fmt]; [apply wp_intro_ret, printed_refl|]. cbn [length] in Hn.
  destruct (d =? 0); [apply wp_intro_ret, printed_refl|].
  destruct (d =? 100).
  { apply K; [lia|intros; by apply wp_consputs|done]. }
  destruct ((d =? 120) || (d =? 112)).
  { apply K; [lia|intros; by apply wp_consputs|done]. }
  destruct (d =? 115).
  { apply K; [lia|intros; by apply wp_putstr|done]. }
  destruct (d =? 37).
  { apply K; [lia|intros; by apply wp_consputc|done]. }
  eapply wp_printed_bind; [by apply wp_consputc|apply printed_refl|].
  intros s' Hs'. eapply wp_mono.
  { apply K; [lia|intros; by apply wp_consputc|by rewrite (printed_panicked s)]. }
  intros ? s2 Hs2. by eapply printed_trans.
Qed.

Lemma wp_cprintf fmt args s :
  cons_ready s -> wp (cprintf fmt args) s (fun _ s' => printed s s').
Proof.
  intros [Hp Hl]. unfold cprintf. apply wp_gets.
  destruct (cons_locking (kcons s)) eqn:EL; cbn [when].
  - apply wp_acquire; [done|]. apply wp_bind.
    eapply wp_mono; [eapply wp_cprintf_loop; [reflexivity|exact Hp]|].
    intros ? s' (k & -> & Hk1 & Hk2 & Hk3).
    unfold wp. rewrite (release_run _ (held s)) by done. exists k.
    split_and!; [destruct s; reflexivity|done|done|done].
  - apply wp_bind, wp_intro_ret. apply wp_bind.
    eapply wp_mono; [eapply wp_cprintf_loop; [reflexivity|exact Hp]|].
    intros ? s' Hs'. apply wp_intro_ret. done.
Qed.

(** ** Numbers print as numerals *)

Definition digitval (c : Z) : Z := if c <? 58 then c - 48 else c - 87.

(** The number a numeral denotes, most significant digit first. *)
Definition numval (base : Z) (l : list Z) : Z :=
  fold_left (fun a c => a * base + digitval c) l 0.

Definition parse_int (base : Z) (l : list Z) : Z :=
  match l with
  | c :: l' => if c =? 45 then - numval base l' else numval base l
  | [] => 0
  end.

Lemma digit_cases d :
  0 <= d < 16 -> d = 0 \/ d = 1 \/ d = 2 \/ d = 3 \/ d = 4 \/ d = 5 \/ d = 6 \/ d = 7 \/
    d = 8 \/ d = 9 \/ d = 10 \/ d = 11 \/ d = 12 \/ d = 13 \/ d = 14 \/ d = 15.
Proof. lia. Qed.

Lemma digitval_digits d :
  0 <= d < 16 ->
  digitval (default 0 (digits !! Z.to_nat d)) = d /\ default 0 (digits !! Z.to_nat d) <> 45.
Proof.
  intros H. apply digit_cases in H.
  repeat (destruct H as [->|H]; [split; [reflexivity|vm_compute; congruence]|]).
  subst; split; [reflexivity|vm_compute; congruence].
Qed.

Lemma numval_snoc base l c : numval base (l ++ [c]) = numval base l * base + digitval c.
Proof. unfold numval. by rewrite fold_left_app. Qed.

(** [k] digits are printed for a number below [base^k], most significant first. *)
Lemma digit_loop_spec base : 2 <= base <= 16 -> forall k fuel x buf,
  (0 < k <= fuel)%nat -> 0 <= x < base ^ Z.of_nat k ->
  exists ds, digit_loop fuel x base buf = ds ++ buf /\ numval base ds = x /\
    (0 < length ds <= k)%nat /\ Forall (fun c => c <> 45) ds.
Proof.
  intros Hb. induction k as [|k IH]; intros fuel x buf Hk Hx; [lia|].
  destruct fuel as [|fuel]; [lia|]. cbn [digit_loop].
  assert (Hm : 0 <= x mod base < 16) by (pose proof (Z.mod_pos_bound x base); lia).
  destruct (digitval_digits _ Hm) as [Hd Hd'].
  set (c := default 0 (digits !! Z.to_nat (x mod base))) in *.
  destruct (Z.eqb_spec (x / base) 0) as [E|E].
  - exists [c]. split_and!; [done| |cbn; lia|cbn; lia|by apply Forall_singleton].
    unfold numval. cbn. rewrite Hd. pose proof (Z.div_mod x base). lia.
  - destruct k as [|k].
    { exfalso. apply E. apply Z.div_small. rewrite Z.pow_1_r in Hx. lia. }
    destruct (IH fuel (x / base) (c :: buf)) as (ds & Heq & Hval & Hlen & Hne).
    + lia.
    + split; [apply Z.div_pos; lia|]. apply Z.div_lt_upper_bound; [lia|].
      replace (Z.of_nat (S (S k))) with (Z.succ (Z.of_nat (S k))) in Hx by lia.
      rewrite Z.pow_succ_r in Hx by lia. lia.
    + exists (ds ++ [c]). split_and!.
      * rewrite Heq, <- app_assoc. done.
      * rewrite numval_snoc, Hval, Hd. pose proof (Z.div_mod x base). lia.
      * rewrite length_app. cbn. lia.
      * rewrite length_app. cbn. lia.
      * apply Forall_app. split; [done|by apply Forall_singleton].
Qed.

Lemma parse_int_digits base ds :
  Forall (fun c => c <> 45) ds -> (0 < length ds)%nat -> parse_int base ds = numval base ds.
Proof.
  intros H Hl. destruct ds as [|c ds]; [cbn in Hl; lia|]. inversion H; subst.
  unfold parse_int. destruct (Z.eqb_spec c 45); done.
Qed.

(** What [printint] prints reads back as its argument: in base 10 with a sign
    ([%d]) as the signed value, in base 16 without one ([%x], [%p]) as the unsigned
    value; and the characters fit the 16-byte buffer. *)
Theorem printint_roundtrip (xx : Z) :
  parse_int 10 (printint_chars xx 10 1) = s32 xx /\
  parse_int 16 (printint_chars xx 16 0) = u32 xx /\
  (length (printint_chars xx 10 1) <= 16)%nat /\ (length (printint_chars xx 16 0) <= 16)%nat.
Proof.
  assert (H10 : forall x, 0 <= x < 2 ^ 32 -> exists ds, digit_loop 32 x 10 [] = ds /\
    numval 10 ds = x /\ (0 < length ds <= 10)%nat /\ Forall (fun c => c <> 45) ds).
  { intros x Hx. destruct (digit_loop_spec 10 ltac:(lia) 10 32 x []) as (ds & Hd & ?);
      [lia|cbn; lia|]. rewrite app_nil_r in Hd. eauto. }
  assert (H16 : forall x, 0 <= x < 2 ^ 32 -> exists ds, digit_loop 32 x 16 [] = ds /\
    numval 16 ds = x /\ (0 < length ds <= 8)%nat /\ Forall (fun c => c <> 45) ds).
  { intros x Hx. destruct (digit_loop_spec 16 ltac:(lia) 8 32 x []) as (ds & Hd & ?);
      [lia|cbn; lia|]. rewrite app_nil_r in Hd. eauto. }
  pose proof (u32_range xx) as Hu. pose proof (s32_range xx) as Hs.
  assert (Hsu : 0 <= s32 xx -> u32 xx = s32 xx).
  { Transparent s32. unfold s32. Opaque s32. cbv zeta.
    destruct (Z.ltb_spec (u32 xx) (2 ^ 31)); lia. }
  unfold printint_chars. change (negb (1 =? 0)) with true. change (negb (0 =? 0)) with false.
  cbn [andb].
  destruct (H16 _ Hu) as (d16 & -> & Hv16 & Hl16 & Hn16).
  destruct (Z.ltb_spec (s32 xx) 0) as [Hneg|Hpos].
  - destruct (H10 (u32 (- s32 xx)) ltac:(apply u32_range)) as (ds & -> & Hv & Hl & Hn).
    split_and!; [| |cbn; lia|lia].
    + cbn. rewrite Hv, u32_small; lia.
    + rewrite parse_int_digits by (done || lia). done.
  - rewrite <- (Hsu Hpos). destruct (H10 _ Hu) as (ds & -> & Hv & Hl & Hn).
    split_and!; [| |lia|lia]; rewrite parse_int_digits by (done || lia); done.
Qed.

(** ** The screen *)

(** The CGA cursor stays on the first 24 rows and no write leaves the 25x80 text
    page: one character moves a cursor in [0, 1920) to a cursor in [0, 1920) that the
    16-bit register holds exactly, and changes only cells of [0, 2000). *)
Theorem cga_step_bounds (c : Z) (crt : Z -> Z) (pos : Z) (Hpos : 0 <= pos < 24 * 80) :
  0 <= snd (cga_step c crt pos) < 24 * 80 /\
  snd (cga_step c crt pos) mod 2 ^ 16 = snd (cga_step c crt pos) /\
  forall i, i < 0 \/ 25 * 80 <= i -> fst (cga_step c crt pos) i = crt i.
Proof.
  assert (G : forall crt1 p, 0 <= p <= 24 * 80 ->
    (forall i, i < 0 \/ 25 * 80 <= i -> crt1 i = crt i) ->
    0 <= snd (cga_scroll crt1 p) < 24 * 80 /\
    forall i, i < 0 \/ 25 * 80 <= i -> fst (cga_scroll crt1 p) i = crt i).
  { intros crt1 p Hp Hc. unfold cga_scroll.
    destruct (Z.leb_spec 24 (p / 80)) as [Hs|Hs]; cbn [fst snd].
    - assert (24 * 80 <= p) by (Z.div_mod_to_equations; lia).
      split; [lia|]. intros i Hi.
      destruct (Z.leb_spec (p - 80) i), (Z.ltb_spec i (24 * 80)), (Z.leb_spec 0 i),
        (Z.ltb_spec i (23 * 80)); cbn [andb]; try lia; auto.
    - split; [Z.div_mod_to_equations; lia|]. done. }
  unfold cga_step.
  set (r := if c =? 10 then _ else _).
  assert (Hr : 0 <= snd r <= 24 * 80 /\ forall i, i < 0 \/ 25 * 80 <= i -> fst r i = crt i).
  { subst r. destruct (c =? 10); [|destruct (c =? BACKSPACE)]; cbn [fst snd].
    - split; [Z.div_mod_to_equations; lia|done].
    - split; [destruct (Z.ltb_spec 0 pos); lia|done].
    - split; [lia|]. intros i Hi. destruct (Z.eqb_spec i pos); [lia|done]. }
  destruct r as [crt1 p1]. cbn [fst snd] in Hr. destruct Hr as [Hp1 Hc1].
  specialize (G crt1 p1 Hp1 Hc1). destruct (cga_scroll crt1 p1) as [crt2 p2].
  cbn [fst snd] in *. destruct G as [Hp2 Hc2]. split_and!; [lia|lia| |].
  - apply Z.mod_small. lia.
  - intros i Hi. destruct (Z.eqb_spec i p2); [lia|]. auto.
Qed.

Lemma cga_step_bounds_witness : snd (cga_step 10 (fun _ => 0) 1919) = 1840 /\
  0 <= snd (cga_step 10 (fun _ => 0) 1919) < 24 * 80.
Proof.
  split; [reflexivity|]. apply (cga_step_bounds 10 (fun _ => 0) 1919). lia.
Defined.
