(* ===== verification/Vm.v ===== *)
(** Virtual memory, [kernel/vm.c]: two-level page tables in physical memory, user
    address spaces that grow, shrink, are copied and are freed. *)
From S2P Require Import Prelude Types Mem Kalloc PageTable Cons.

(** ** Memory access from the monad *)
Definition load32 (a : Z) : M kernel Z := gets (fun s => ld32 (mem s) a).
Definition store32 (a v : Z) : M kernel unit := modify (fun s => s <| mem := st32 (mem s) a v |>).
Definition memset_m (dst c n : Z) : M kernel unit :=
  modify (fun s => s <| mem := memset (mem s) dst c n |>).
Definition memmove_m (dst src n : Z) : M kernel unit :=
  modify (fun s => s <| mem := memmove (mem s) dst src n |>).

(** [*proc]; a null [proc] is a page fault in the kernel, where [trap] panics. *)
Definition myproc : M kernel proc :=
  let! c := gets curproc in
  let! pt := gets ptable in
  match c ≫= (pt !!.) with
  | Some p => ret p
  | None => panic "trap"
  end.

Section Vm.
Context `{Linker}.

(** ** Code *)

Definition walkpgdir (pgdir va : Z) (create : bool) : M kernel Z :=
  let pde := pgdir + 4 * PDX va in
  let! v := load32 pde in
  if has v PTE_P then
    let pgtab := PTE_ADDR v in
    ret (pgtab + 4 * PTX va)
  else if negb create then ret 0
  else
    let! pgtab := kalloc in
    if pgtab =? 0 then ret 0
    else
      memset_m pgtab 0 PGSIZE ;;
      store32 pde (Z.lor (Z.lor (Z.lor (PADDR pgtab) PTE_P) PTE_W) PTE_U) ;;
      ret (pgtab + 4 * PTX va).

(** The loop of [mappages]; it runs once per page from [a] to [last]. *)
Fixpoint mappages_loop (fuel : nat) (pgdir a last pa perm : Z) : M kernel Z :=
  match fuel with
  | O => spin
  | S fuel' =>
      let! pte := walkpgdir pgdir a true in
      if pte =? 0 then ret (-1)
      else
        let! v := load32 pte in
        if has v PTE_P then
          cprintf "remap: pte = %x, *pte = %x
" [AInt pte; AInt v] ;;
          panic "remap"
        else
          store32 pte (Z.lor (Z.lor pa perm) PTE_P) ;;
          if a =? last then ret 0
          else mappages_loop fuel' pgdir (u32 (a + PGSIZE)) last (u32 (pa + PGSIZE)) perm
  end.

Definition mappages (pgdir la size pa perm : Z) : M kernel Z :=
  let a := PGROUNDDOWN la in
  let last := PGROUNDDOWN (la + size - 1) in
  mappages_loop (Z.to_nat (u32 (last - a) / PGSIZE + 1)) pgdir a last pa perm.

(** [kmap]: start, end, permissions. *)
Definition kmap : list (Z * Z * Z) :=
  [(USERTOP, 0x100000, PTE_W);
   (0x100000, sym_data, 0);
   (sym_data, PHYSTOP, PTE_W);
   (0xFE000000, 0, PTE_W)].

Fixpoint setupkvm_loop (pgdir : Z) (ks : list (Z * Z * Z)) : M kernel Z :=
  match ks with
  | [] => ret pgdir
  | (p, e, perm) :: ks' =>
      let! r := mappages pgdir p (u32 (e - p)) p perm in
      if r <? 0 then ret 0 else setupkvm_loop pgdir ks'
  end.

Definition setupkvm : M kernel Z :=
  let! pgdir := kalloc in
  if pgdir =? 0 then ret 0
  else
    memset_m pgdir 0 PGSIZE ;;
    setupkvm_loop pgdir kmap.

Definition kvmalloc : M kernel unit :=
  let! d := setupkvm in
  modify (fun s => s <| kpgdir := d |>).

Definition switchkvm : M kernel unit := modify (fun s => s <| cr3 := PADDR (kpgdir s) |>).

(** [p] is the argument; the stack comes from the global [proc]. *)
Definition switchuvm (p : proc) : M kernel unit :=
  let! me := myproc in
  modify (fun s => s <| ts_esp0 := u32 (p_kstack me + KSTACKSIZE) |>) ;;
  if p_pgdir p =? 0 then panic "switchuvm: no pgdir"
  else modify (fun s => s <| cr3 := PADDR (p_pgdir p) |>).

(** Copy the bytes [l] to physical address [a]. *)
Fixpoint put_bytes (m : Z -> Z) (a : Z) (l : list Z) : Z -> Z :=
  match l with
  | [] => m
  | c :: l' => put_bytes (st8 m a c) (a + 1) l'
  end.

(** [init] is the code of the first process, as bytes. *)
Definition inituvm (pgdir : Z) (init : list Z) : M kernel unit :=
  if PGSIZE <=? Z.of_nat (length init) then panic "inituvm: more than a page"
  else
    let! m := kalloc in
    memset_m m 0 PGSIZE ;;
    mappages pgdir 0 PGSIZE (PADDR m) (Z.lor PTE_W PTE_U) ;;
    modify (fun s => s <| mem := put_bytes (mem s) m init |>).

(** Turns of a loop [for(a = PGROUNDUP(lo); a < hi; a += PGSIZE)]. *)
Definition page_fuel (hi : Z) : nat := Z.to_nat (hi / PGSIZE + 2).

Fixpoint deallocuvm_loop (fuel : nat) (pgdir oldsz a : Z) : M kernel unit :=
  match fuel with
  | O => spin
  | S fuel' =>
      if a <? oldsz then
        let! pte := walkpgdir pgdir a false in
        when (negb (pte =? 0))
          (let! v := load32 pte in
           when (has v PTE_P)
             (let pa := PTE_ADDR v in
              if pa =? 0 then panic "kfree"
              else kfree pa ;; store32 pte 0)) ;;
        deallocuvm_loop fuel' pgdir oldsz (u32 (a + PGSIZE))
      else ret tt
  end.

Definition deallocuvm (pgdir oldsz newsz : Z) : M kernel Z :=
  if oldsz <=? newsz then ret oldsz
  else
    deallocuvm_loop (page_fuel oldsz) pgdir oldsz (PGROUNDUP newsz) ;;
    ret newsz.

(** Returns whether the loop ran to its end. *)
Fixpoint allocuvm_loop (fuel : nat) (pgdir oldsz newsz a : Z) : M kernel Z :=
  match fuel with
  | O => spin
  | S fuel' =>
      if a <? newsz then
        let! m := kalloc in
        if m =? 0 then
          cprintf "allocuvm out of memory
" [] ;;
          deallocuvm pgdir newsz oldsz ;;
          ret 0
        else
          memset_m m 0 PGSIZE ;;
          mappages pgdir a PGSIZE (PADDR m) (Z.lor PTE_W PTE_U) ;;
          allocuvm_loop fuel' pgdir oldsz newsz (u32 (a + PGSIZE))
      else ret newsz
  end.

Definition allocuvm (pgdir oldsz newsz : Z) : M kernel Z :=
  let! me := myproc in
  if p_shm me <? newsz then ret 0
  else if newsz <? oldsz then ret oldsz
  else allocuvm_loop (page_fuel newsz) pgdir oldsz newsz (PGROUNDUP oldsz).

(** [for(i = 0; i < NPDENTRIES; i++)] over the page directory. *)
Fixpoint freevm_loop (pgdir : Z) (idx : list Z) : M kernel unit :=
  match idx with
  | [] => ret tt
  | i :: idx' =>
      let! v := load32 (pgdir + 4 * i) in
      when (has v PTE_P) (kfree (PTE_ADDR v)) ;;
      freevm_loop pgdir idx'
  end.

Definition freevm (pgdir : Z) : M kernel unit :=
  if pgdir =? 0 then panic "freevm: no pgdir"
  else
    let! me := myproc in
    deallocuvm pgdir (p_shm me) 0 ;;
    freevm_loop pgdir pdidx ;;
    kfree pgdir.

Fixpoint copyuvm_loop (fuel : nat) (pgdir d sz i : Z) : M kernel Z :=
  match fuel with
  | O => spin
  | S fuel' =>
      if i <? sz then
        let! pte := walkpgdir pgdir i false in
        if pte =? 0 then panic "copyuvm: pte should exist"
        else
          let! v := load32 pte in
          if negb (has v PTE_P) then panic "copyuvm: page not present"
          else
            let pa := PTE_ADDR v in
            let! m := kalloc in
            if m =? 0 then freevm d ;; ret 0
            else
              memmove_m m pa PGSIZE ;;
              let! r := mappages d i PGSIZE (PADDR m) (Z.lor PTE_W PTE_U) in
              if r <? 0 then freevm d ;; ret 0
              else copyuvm_loop fuel' pgdir d sz (u32 (i + PGSIZE))
      else ret d
  end.

Definition copyuvm (pgdir sz : Z) : M kernel Z :=
  let! d := setupkvm in
  if d =? 0 then ret 0 else copyuvm_loop (page_fuel sz) pgdir d sz 0.

(** A null page-table entry pointer is dereferenced: a fault in the kernel. *)
Definition uva2ka (pgdir uva : Z) : M kernel Z :=
  let! pte := walkpgdir pgdir uva false in
  if pte =? 0 then panic "trap"
  else
    let! v := load32 pte in
    if negb (has v PTE_P) then ret 0
    else if negb (has v PTE_U) then ret 0
    else ret (PTE_ADDR v).

(** [buf] is the rest of the [len] bytes to copy. *)
Fixpoint copyout_loop (fuel : nat) (pgdir va : Z) (buf : list Z) : M kernel Z :=
  match fuel with
  | O => spin
  | S fuel' =>
      match buf with
      | [] => ret 0
      | _ :: _ =>
          let va0 := PGROUNDDOWN va in
          let! pa0 := uva2ka pgdir va0 in
          if pa0 =? 0 then ret (-1)
          else
            let n := Z.min (PGSIZE - (va - va0)) (Z.of_nat (length buf)) in
            modify (fun s => s <| mem := put_bytes (mem s) (pa0 + (va - va0)) (take (Z.to_nat n) buf) |>) ;;
            copyout_loop fuel' pgdir (u32 (va0 + PGSIZE)) (drop (Z.to_nat n) buf)
      end
  end.

Definition copyout (pgdir va : Z) (p : list Z) : M kernel Z :=
  copyout_loop (S (length p)) pgdir va p.
End Vm.
