(* ===== verification/VmProofs.v ===== *)
(** Correctness of [kernel/vm.c]: mapping, growing, shrinking, copying and freeing
    address spaces. *)
From S2P Require Import Prelude Types Mem Kalloc PageTable Cons Vm.

(** ** Frames *)

(** [s'] is [s] except for memory, the free list and what was printed. *)
Definition mframe (s s' : kernel) : Prop :=
  exists m f c k, s' = s <| mem := m |> <| freelist := f |> <| freecount := c |> <| kcons := k |> /\
    panicked k = panicked (kcons s) /\ cons_locking k = cons_locking (kcons s).

Lemma mframe_refl s : mframe s s.
Proof. exists (mem s), (freelist s), (freecount s), (kcons s). destruct s; done. Qed.

Lemma mframe_trans s1 s2 s3 : mframe s1 s2 -> mframe s2 s3 -> mframe s1 s3.
Proof.
  intros (m1 & f1 & c1 & k1 & -> & ? & ?) (m2 & f2 & c2 & k2 & -> & ? & ?).
  exists m2, f2, c2, k2. cbn in *. split_and!; [done|congruence..].
Qed.

Lemma mframe_mem s m : mframe s (s <| mem := m |>).
Proof. exists m, (freelist s), (freecount s), (kcons s). destruct s; done. Qed.

(** For a state built from [s] by updates of those fields. *)
Ltac solve_mframe :=
  match goal with
  | |- mframe ?s ?s' =>
      exists (mem s'), (freelist s'), (freecount s'), (kcons s'); split_and!; reflexivity
  end.

Lemma mframe_held s s' : mframe s s' -> held s' = held s.
Proof. intros (m & f & c & k & -> & _). done. Qed.

Lemma mframe_curproc s s' : mframe s s' -> curproc s' = curproc s /\ ptable s' = ptable s.
Proof. intros (m & f & c & k & -> & _). done. Qed.

Lemma mframe_cons_ready s s' : mframe s s' -> cons_ready s -> cons_ready s'.
Proof. intros (m & f & c & k & -> & Hp & _) [? ?]. split; cbn in *; congruence. Qed.

Lemma printed_mframe s s' : printed s s' -> mframe s s'.
Proof.
  intros (k & -> & ? & ? & _). exists (mem s), (freelist s), (freecount s), k. destruct s; done.
Qed.

Lemma mframe_kfree `{Linker} s v : mframe s (after_kfree s v).
Proof.
  unfold after_kfree. solve_mframe.
Qed.

Create HintDb vm.
#[export] Hint Resolve mframe_refl mframe_mem agree_off_refl printed_mframe mframe_kfree : vm.

Section VmProofs.
Context `{HL : LinkerOk}.

(** [s'] extends the page tables of [d] by pages taken from the free list [l], of
    which [l'] is left. *)
Record tab_ext (s s' : kernel) (d : Z) (R l l' : list Z) : Prop := {
  te_frame : mframe s s';
  te_kmem : kmem_ok s' l';
  te_own : own (mem s') d R l';
  te_used : l' `suffix_of` l;
  te_agree : agree_off (in_tables (mem s') d) (mem s) (mem s');
  te_ptab : forall i p, 0 <= i < 1024 -> ptab (mem s) d i = Some p -> ptab (mem s') d i = Some p;
  te_pages : ptpages (mem s') d ++ l' ≡ₚ ptpages (mem s) d ++ l }.

Lemma in_tables_mono m m' d x :
  (forall i p, 0 <= i < 1024 -> ptab m d i = Some p -> ptab m' d i = Some p) ->
  in_tables m d x -> in_tables m' d x.
Proof.
  intros Hm [Hd|(p & Hp & Hx)]; [by left|]. right. exists p. split; [|done].
  apply elem_of_ptpages in Hp as (i & Hi & Hp). apply elem_of_ptpages. eauto.
Qed.

Lemma tab_ext_trans s1 s2 s3 d R l1 l2 l3 :
  tab_ext s1 s2 d R l1 l2 -> tab_ext s2 s3 d R l2 l3 -> tab_ext s1 s3 d R l1 l3.
Proof.
  intros [F1 K1 O1 U1 A1 P1 N1] [F2 K2 O2 U2 A2 P2 N2]. split; try done.
  - by eapply mframe_trans.
  - by etrans.
  - intros x Hx. rewrite A2 by done. apply A1. intros Hx'. apply Hx. by eapply in_tables_mono.
  - eauto.
  - by rewrite N2.
Qed.

Lemma tab_ext_refl s d R l : kmem_ok s l -> own (mem s) d R l -> tab_ext s s d R l l.
Proof. intros. split; auto with vm. Qed.

(** Writing an entry of a table of [d]. *)
Lemma tab_ext_store s d R l va p v :
  kmem_ok s l -> own (mem s) d R l -> 0 <= va < 2 ^ 32 -> ptab (mem s) d (PDX va) = Some p ->
  tab_ext s (s <| mem := st32 (mem s) (pte_slot (mem s) d va) v |>) d R l l.
Proof.
  intros Hk Ho Hva Hp. destruct (store_pte _ _ _ _ _ _ v Ho Hva Hp) as (O & E & A & P & _).
  split; [auto with vm| |done|done| | |cbn; by rewrite E].
  - eapply kmem_ok_frame; [done|done|exact A|].
    intros q x Hq. apply (own_disjoint _ _ _ _ _ _ Ho). apply elem_of_app. by right.
  - eapply agree_off_weaken; [|exact A]. intros x Hx. eapply in_tables_mono; [|exact Hx].
    intros i q Hi Hq. by rewrite P.
  - intros i q Hi Hq. by rewrite P.
Qed.

(** *** [walkpgdir] *)

Lemma walkpgdir_lookup d va s : walkpgdir d va false s = Ret (pte_slot (mem s) d va) s.
Proof.
  unfold walkpgdir, load32, bind, gets, pte_slot, pde_of. cbn. by destruct (has _ _).
Qed.

Lemma PTE_flags p : page_ok p -> Z.lor (Z.lor (Z.lor (PADDR p) PTE_P) PTE_W) PTE_U = p + 7.
Proof.
  intros Hp. unfold PADDR. rewrite (page_ok_u32 p Hp), <- !Z.lor_assoc.
  change (Z.lor PTE_P (Z.lor PTE_W PTE_U)) with 7.
  apply (lor_add_disjoint _ _ 12); [lia|apply Hp|lia].
Qed.

Lemma wp_walkpgdir d va s R l (Q : Z -> kernel -> Prop) :
  LKmem ∉ held s -> kmem_ok s l -> own (mem s) d R l -> 0 <= va < 2 ^ 32 ->
  (l = [] -> ptab (mem s) d (PDX va) = None -> Q 0 s) ->
  (forall s' l' p, tab_ext s s' d R l l' -> ptab (mem s') d (PDX va) = Some p ->
     (length l <= length l' + match ptab (mem s) d (PDX va) with Some _ => 0 | None => 1 end)%nat ->
     (forall va', 0 <= va' < 2 ^ 32 -> pte_of (mem s') d va' = pte_of (mem s) d va') ->
     Q (pte_slot (mem s') d va) s') ->
  wp (walkpgdir d va true) s Q.
Proof.
  intros Hl Hk Ho Hva Hnil HQ. unfold walkpgdir, load32. apply wp_gets.
  change (ld32 (mem s) (d + 4 * PDX va)) with (pde_of (mem s) d (PDX va)).
  destruct (ptab (mem s) d (PDX va)) as [p|] eqn:Ep.
  - pose proof Ep as Ep'. unfold ptab in Ep'.
    destruct (has (pde_of (mem s) d (PDX va)) PTE_P) eqn:Eh; [|done]. injection Ep' as Ep'.
    apply wp_intro_ret. rewrite Ep', <- (ptab_slot _ _ _ _ Ep).
    apply (HQ s l p); [by apply tab_ext_refl|done|lia|done].
  - pose proof Ep as Ep'. unfold ptab in Ep'.
    destruct (has (pde_of (mem s) d (PDX va)) PTE_P) eqn:Eh; [done|]. cbn [negb].
    apply wp_bind. eapply wp_kalloc; [done|exact Hk| |].
    + intros Hn. cbn. apply wp_intro_ret. by apply Hnil.
    + intros r l' -> Hr Hk' Es.
      pose proof (page_ok_bounds r Hr) as Hrb.
      destruct (Z.eqb_spec r 0); [unfold PGSIZE, PHYSTOP in *; lia|].
      unfold memset_m, store32. apply wp_modify, wp_modify, wp_intro_ret.
      rewrite Es. rewrite Es in Hk'. cbn. rewrite PTE_flags by done.
      destruct (new_table (mem s) d R l' r va 7 Ho Hva Ep ltac:(lia) eq_refl)
        as (O & E & A & P & Pn & V).
      set (m' := st32 _ _ _) in *.
      match goal with |- Q _ ?x => set (s' := x) end.
      assert (Hm : mem s' = m') by done.
      assert (T : tab_ext s s' d R (r :: l') l').
      { split.
        - subst s'. solve_mframe.
        - eapply kmem_ok_frame; [exact Hk'|done|exact A|].
          intros q x Hq. apply (own_disjoint _ _ _ _ _ _ O). apply elem_of_app. by right.
        - done.
        - by exists [r].
        - done.
        - intros i q Hi Hq. destruct (decide (i = PDX va)) as [->|Hne]; [congruence|].
          rewrite Hm, Pn; done.
        - rewrite Hm, E. apply Permutation_middle. }
      rewrite <- (ptab_slot _ _ _ _ P), <- Hm.
      apply (HQ s' l' r); [done|done|cbn; lia|]. by rewrite Hm.
Qed.

(** *** [mappages] *)

(** Page tables missing for the pages from [a] to [last]: an upper bound. *)
Definition tab_cost (m : Z -> Z) (d a last : Z) : Z :=
  last / 2 ^ 22 - a / 2 ^ 22 + match ptab m d (PDX a) with Some _ => 0 | None => 1 end.

(** The entries after mapping [n] pages at [a] to [pa]. *)
Definition mapped_view (m m' : Z -> Z) (d a pa n perm : Z) : Prop :=
  forall va, 0 <= va < 2 ^ 32 ->
    pte_of m' d va = if (a <=? va) && (va <? a + PGSIZE * n)
                     then pa + (va / PGSIZE * PGSIZE - a) + Z.lor perm PTE_P
                     else pte_of m d va.

Lemma perm_range perm : 0 <= perm < 4096 -> 0 <= Z.lor perm PTE_P < 4096.
Proof.
  intros Hp. split; [apply Z.lor_nonneg; unfold PTE_P; lia|].
  destruct (Z.eq_dec perm 0) as [->|]; [done|].
  apply (Z.log2_lt_cancel _ 4096). rewrite Z.log2_lor by (unfold PTE_P; lia).
  apply Z.max_lub_lt; [change (Z.log2 4096) with 12; apply Z.log2_lt_pow2; lia|done].
Qed.

Lemma mapped_view_add m1 m2 m3 d a pa n perm :
  a mod PGSIZE = 0 -> 0 <= n ->
  mapped_view m1 m2 d a pa 1 perm -> mapped_view m2 m3 d (a + PGSIZE) (pa + PGSIZE) n perm ->
  mapped_view m1 m3 d a pa (n + 1) perm.
Proof.
  intros Ha Hn V2 V3 va Hva. rewrite V3, V2 by done. unfold PGSIZE in *.
  destruct (Z.leb_spec (a + 4096) va), (Z.ltb_spec va (a + 4096 + 4096 * n)),
    (Z.leb_spec a va), (Z.ltb_spec va (a + 4096 * 1)),
    (Z.ltb_spec va (a + 4096 * (n + 1))); cbn [andb]; lia.
Qed.

(** One turn of the loop. *)
Lemma wp_map_page (E : Z -> Z -> M kernel Z) (k : M kernel Z) d a pa perm s R l Q :
  LKmem ∉ held s -> kmem_ok s l -> own (mem s) d R l ->
  a mod PGSIZE = 0 -> 0 <= a < 2 ^ 32 -> pa mod PGSIZE = 0 -> 0 <= pa < 2 ^ 32 ->
  0 <= perm < 4096 -> has (pte_of (mem s) d a) PTE_P = false ->
  (l = [] -> ptab (mem s) d (PDX a) = None -> Q (-1) s) ->
  (forall s' l', tab_ext s s' d R l l' -> mapped_view (mem s) (mem s') d a pa 1 perm ->
     (length l <= length l' + match ptab (mem s) d (PDX a) with Some _ => 0 | None => 1 end)%nat ->
     is_Some (ptab (mem s') d (PDX a)) -> wp k s' Q) ->
  wp (let! pte := walkpgdir d a true in
      if pte =? 0 then ret (-1)
      else let! v := load32 pte in
           if has v PTE_P then E pte v else store32 pte (Z.lor (Z.lor pa perm) PTE_P) ;; k) s Q.
Proof.
  intros Hl Hk Ho Ha Hva Hpa Hpar Hperm Hnp Hnil HQ.
  apply wp_bind. eapply wp_walkpgdir; [done|exact Hk|exact Ho|done| |].
  { intros -> Hnone. by apply Hnil. }
  intros s1 l1 p T1 Hp1 Hlen1 V1. pose proof T1 as [F1 K1 O1 U1 A1 P1 N1].
  destruct (ptab_slot_nz _ _ _ _ _ _ O1 Hp1) as (Hpok & Hslot & Hnz).
  destruct (Z.eqb_spec (pte_slot (mem s1) d a) 0) as [|_]; [done|].
  unfold load32, store32. apply wp_gets.
  assert (Hv : ld32 (mem s1) (pte_slot (mem s1) d a) = pte_of (mem s1) d a).
  { unfold pte_of. by destruct (Z.eqb_spec (pte_slot (mem s1) d a) 0). }
  rewrite Hv, V1, Hnp by done. apply wp_modify. rewrite pte_encode by done.
  pose proof (perm_range perm Hperm) as Hf.
  assert (Hpte : 0 <= pa + Z.lor perm PTE_P < 2 ^ 32)
    by (unfold PGSIZE in *; apply Z.mod_divide in Hpa as [kk ->]; lia).
  assert (T2 := tab_ext_store s1 d R l1 a p (pa + Z.lor perm PTE_P) K1 O1 Hva Hp1).
  apply HQ with l1; [by eapply tab_ext_trans| |done|].
  - destruct (store_pte _ _ _ _ _ _ (pa + Z.lor perm PTE_P) O1 Hva Hp1) as (_ & _ & _ & _ & V).
    intros va Hva'. cbn. rewrite V, V1, u32_small by done.
    destruct (Z.eqb_spec (va / PGSIZE) (a / PGSIZE)), (Z.leb_spec a va),
      (Z.ltb_spec va (a + PGSIZE * 1)); cbn [andb]; try done; exfalso + idtac;
      unfold PGSIZE in *; Z.div_mod_to_equations; lia.
  - exists p. apply (te_ptab _ _ _ _ _ _ T2); [apply PDX_range|done].
Qed.

(** Page tables still missing after the first page is mapped. *)
Lemma tab_cost_next m d a last :
  0 <= a -> a + PGSIZE < 2 ^ 32 -> is_Some (ptab m d (PDX a)) ->
  tab_cost m d (a + PGSIZE) last <= last / 2 ^ 22 - a / 2 ^ 22.
Proof.
  intros Ha Ha' [p Hp]. unfold tab_cost.
  destruct (Z.eq_dec ((a + PGSIZE) / 2 ^ 22) (a / 2 ^ 22)) as [E|E].
  - replace (PDX (a + PGSIZE)) with (PDX a) by (rewrite !PDX_div by (unfold PGSIZE in *; lia); done).
    rewrite Hp. lia.
  - pose proof (Z.div_le_mono a (a + PGSIZE) (2 ^ 22)). unfold PGSIZE in *.
    destruct (ptab m d (PDX (a + 4096))); lia.
Qed.

Lemma wp_mappages_loop n : forall fuel d a pa perm s R l,
  (n < fuel)%nat -> LKmem ∉ held s -> kmem_ok s l -> own (mem s) d R l ->
  a mod PGSIZE = 0 -> 0 <= a -> a + PGSIZE * (Z.of_nat n + 1) <= 2 ^ 32 ->
  pa mod PGSIZE = 0 -> 0 <= pa -> pa + PGSIZE * (Z.of_nat n + 1) <= 2 ^ 32 ->
  0 <= perm < 4096 ->
  (forall va, a <= va < a + PGSIZE * (Z.of_nat n + 1) -> has (pte_of (mem s) d va) PTE_P = false) ->
  let last := a + PGSIZE * Z.of_nat n in
  wp (mappages_loop fuel d a last pa perm) s (fun r s' =>
    exists l', tab_ext s s' d R l l' /\
      Z.of_nat (length l) - Z.of_nat (length l') <= tab_cost (mem s) d a last /\
      ((r = 0 /\ mapped_view (mem s) (mem s') d a pa (Z.of_nat n + 1) perm) \/
       (r = -1 /\ Z.of_nat (length l) < tab_cost (mem s) d a last))).
Proof.
  induction n as [|n IH]; intros fuel d a pa perm s R l Hfuel Hl Hk Ho Ha Ha0 Ha1 Hpa Hpa0 Hpa1 Hperm Hnp last.
  all: destruct fuel as [|fuel]; [lia|]; cbn [mappages_loop].
  all: assert (Hcost : a / 2 ^ 22 <= last / 2 ^ 22)
         by (apply Z.div_le_mono; unfold last, PGSIZE in *; lia).
  all: eapply wp_map_page; [done|exact Hk|exact Ho|done|unfold PGSIZE in *; lia|exact Hpa|
         unfold PGSIZE in *; lia|done|apply Hnp; unfold PGSIZE; lia| |].
  1,3: intros -> Hnone; exists []; split_and!; [by apply tab_ext_refl| |right; split; [done|]];
         unfold tab_cost; rewrite Hnone; cbn; lia.
  all: intros s1 l1 T1 V1 Hlen1 Hp1.
  - unfold last. rewrite Z.mul_0_r, Z.add_0_r, Z.eqb_refl. apply wp_intro_ret.
    exists l1. split_and!; [done| |by left]. unfold tab_cost. destruct (ptab (mem s) d (PDX a)); lia.
  - destruct (Z.eqb_spec a last); [unfold last, PGSIZE in *; lia|].
    rewrite !u32_small by (unfold PGSIZE in *; lia).
    assert (Hal : forall x, x mod PGSIZE = 0 -> (x + PGSIZE) mod PGSIZE = 0).
    { unfold PGSIZE. intros x Hx. rewrite <- Z.add_mod_idemp_l, Hx; done. }
    replace last with (a + PGSIZE + PGSIZE * Z.of_nat n) in * by (unfold last, PGSIZE; lia).
    pose proof (tab_cost_next (mem s1) d a last Ha0 ltac:(unfold PGSIZE in *; lia) Hp1) as Hnext.
    eapply wp_mono.
    { apply (IH fuel d (a + PGSIZE) (pa + PGSIZE) perm s1 R l1);
        try (apply Hal; done); try (unfold PGSIZE in *; lia); try apply T1.
      - rewrite (mframe_held s); [done|apply T1].
      - intros va Hva'. rewrite V1 by (unfold PGSIZE in *; lia).
        destruct (Z.leb_spec a va), (Z.ltb_spec va (a + PGSIZE * 1)); cbn [andb];
          try (apply Hnp); unfold PGSIZE in *; lia. }
    intros r s' (l' & T3 & Hcost' & Hr). exists l'.
    replace (a + PGSIZE + PGSIZE * Z.of_nat n) with last in * by (unfold last, PGSIZE; lia).
    split_and!; [by eapply tab_ext_trans| |].
    + unfold tab_cost at 1. destruct (ptab (mem s) d (PDX a)); lia.
    + destruct Hr as [(-> & V3)|(-> & Hshort)]; [left|right]; (split; [done|]).
      * replace (Z.of_nat (S n) + 1) with (Z.of_nat n + 1 + 1) by lia.
        eapply mapped_view_add; [done|lia|done|done].
      * unfold tab_cost at 1. destruct (ptab (mem s) d (PDX a)); lia.
Qed.

Lemma wp_mappages d la npg pa perm s R l (Q : Z -> kernel -> Prop) :
  LKmem ∉ held s -> kmem_ok s l -> own (mem s) d R l ->
  la mod PGSIZE = 0 -> 0 <= la -> 0 < npg -> la + PGSIZE * npg <= 2 ^ 32 ->
  pa mod PGSIZE = 0 -> 0 <= pa -> pa + PGSIZE * npg <= 2 ^ 32 -> 0 <= perm < 4096 ->
  (forall va, la <= va < la + PGSIZE * npg -> has (pte_of (mem s) d va) PTE_P = false) ->
  let cost := tab_cost (mem s) d la (la + PGSIZE * (npg - 1)) in
  (forall s' l', tab_ext s s' d R l l' -> mapped_view (mem s) (mem s') d la pa npg perm ->
     Z.of_nat (length l) - Z.of_nat (length l') <= cost -> Q 0 s') ->
  (forall s' l', tab_ext s s' d R l l' -> Z.of_nat (length l) < cost -> Q (-1) s') ->
  wp (mappages d la (PGSIZE * npg) pa perm) s Q.
Proof.
  intros Hl Hk Ho Ha Ha0 Hn Ha1 Hpa Hpa0 Hpa1 Hperm Hnp cost Hok Hfail.
  unfold mappages.
  assert (Eal : PGROUNDDOWN la = la) by (apply PGROUNDDOWN_aligned; [unfold PGSIZE in *; lia|done]).
  assert (Elast : PGROUNDDOWN (la + PGSIZE * npg - 1) = la + PGSIZE * (npg - 1)).
  { rewrite PGROUNDDOWN_spec by (unfold PGSIZE in *; lia). unfold PGSIZE in *.
    apply Z.mod_divide in Ha as [k ->]; [|lia]. Z.div_mod_to_equations. lia. }
  rewrite Eal, Elast.
  replace (la + PGSIZE * (npg - 1) - la) with (PGSIZE * (npg - 1)) by lia.
  rewrite u32_small by (unfold PGSIZE in *; lia).
  set (n := Z.to_nat (npg - 1)). assert (En : npg - 1 = Z.of_nat n) by lia.
  eapply wp_mono.
  { rewrite En. apply (wp_mappages_loop n _ d la pa perm s R l); try done;
      try (unfold PGSIZE in *; lia).
    - rewrite Z.mul_comm, Z.div_mul by done. lia.
    - intros va Hva. apply Hnp. unfold PGSIZE in *. lia. }
  intros r s' (l' & T & Hc & Hr). rewrite <- En in *.
  destruct Hr as [(-> & V)|(-> & Hs)]; [eapply Hok; [exact T| |exact Hc]|by eapply Hfail].
  replace (npg - 1 + 1) with npg in V by lia. exact V.
Qed.

(** A mapped page has its page table. *)
Lemma pte_of_ptab m d va : pte_of m d va <> 0 -> is_Some (ptab m d (PDX va)).
Proof.
  unfold pte_of. destruct (ptab m d (PDX va)) eqn:E; [by eexists|].
  rewrite (ptab_None_slot _ _ _ E). done.
Qed.

(** *** [setupkvm] *)

(** The kernel part of every page table: identity, without [PTE_U]. *)
Definition kernel_pte (va : Z) : Z :=
  let pg := va / PGSIZE * PGSIZE in
  if (USERTOP <=? va) && (va <? 0x100000) then pg + 3
  else if (0x100000 <=? va) && (va <? sym_data) then pg + 1
  else if (sym_data <=? va) && (va <? PHYSTOP) then pg + 3
  else if (0xFE000000 <=? va) && (va <? 2 ^ 32) then pg + 3
  else 0.

(** A zeroed page is an empty directory. *)
Lemma zero_dir m d : (forall x, in_page d x -> m x = 0) ->
  ptpages m d = [] /\ forall va, pte_of m d va = 0.
Proof.
  intros Hz.
  assert (Hp : forall i, 0 <= i < 1024 -> ptab m d i = None).
  { intros i Hi. unfold ptab, pde_of. rewrite (ld32_ext m (fun _ => 0)); [done|].
    intros x Hx. apply Hz. unfold in_page, PGSIZE. lia. }
  split.
  - destruct (ptpages m d) as [|p ps] eqn:E; [done|exfalso].
    assert (Hin : p ∈ ptpages m d) by (rewrite E; apply elem_of_cons; by left).
    apply elem_of_ptpages in Hin as (i & Hi & Hi'). rewrite Hp in Hi'; done.
  - intros va. unfold pte_of. rewrite (ptab_None_slot _ _ _ (Hp _ (PDX_range va))). done.
Qed.

(** The pages [R] have the same contents in both states. *)
Definition keeps (R : list Z) (s s' : kernel) : Prop :=
  forall p x, p ∈ R -> in_page p x -> mem s' x = mem s x.

Lemma keeps_trans R s1 s2 s3 : keeps R s1 s2 -> keeps R s2 s3 -> keeps R s1 s3.
Proof. intros H12 H23 p x Hp Hx. rewrite (H23 p), (H12 p); done. Qed.

Lemma tab_ext_keeps s s' d R l l' : tab_ext s s' d R l l' -> keeps R s s'.
Proof.
  intros T p x Hp Hx. apply (te_agree _ _ _ _ _ _ T).
  eapply own_disjoint; [apply T| |done]. apply elem_of_app. by left.
Qed.

(** One entry of [kmap]. *)
Lemma wp_setupkvm_step d p npg perm ks s R l (Q : Z -> kernel -> Prop) e :
  u32 (e - p) = PGSIZE * npg -> LKmem ∉ held s -> kmem_ok s l -> own (mem s) d R l ->
  p mod PGSIZE = 0 -> 0 <= p -> 0 < npg -> p + PGSIZE * npg <= 2 ^ 32 -> 0 <= perm < 4096 ->
  (forall va, p <= va < p + PGSIZE * npg -> pte_of (mem s) d va = 0) ->
  let cost := tab_cost (mem s) d p (p + PGSIZE * (npg - 1)) in
  (forall s' l', tab_ext s s' d R l l' -> mapped_view (mem s) (mem s') d p p npg perm ->
     Z.of_nat (length l) - Z.of_nat (length l') <= cost -> wp (setupkvm_loop d ks) s' Q) ->
  (forall s' l', tab_ext s s' d R l l' -> Z.of_nat (length l) < cost -> Q 0 s') ->
  wp (setupkvm_loop d ((p, e, perm) :: ks)) s Q.
Proof.
  intros He Hl Hk Ho Ha Hp0 Hn Hp1 Hperm Hz cost Hok Hfail. cbn [setupkvm_loop].
  rewrite He. apply wp_bind.
  eapply (wp_mappages d p npg p perm s R l); try done.
  intros va Hva. by rewrite Hz.
Qed.

(** What [setupkvm] leaves when it returns the directory [d]. *)
Record kvm_ok (s s' : kernel) (d : Z) (R l l' : list Z) : Prop := {
  kv_dir : page_ok d;
  kv_frame : mframe s s';
  kv_kmem : kmem_ok s' l';
  kv_own : own (mem s') d R l';
  kv_used : l' `suffix_of` l;
  kv_keeps : keeps R s s';
  kv_pages : d :: ptpages (mem s') d ++ l' ≡ₚ l;
  kv_view : forall va, 0 <= va < 2 ^ 32 -> pte_of (mem s') d va = kernel_pte va }.

(** The four ranges of [kmap] are disjoint and together are [kernel_pte]. *)
Lemma kmap_view m0 m1 m2 m3 m4 d :
  (forall va, pte_of m0 d va = 0) ->
  mapped_view m0 m1 d USERTOP USERTOP 96 PTE_W ->
  mapped_view m1 m2 d 0x100000 0x100000 ((sym_data - 0x100000) / PGSIZE) 0 ->
  mapped_view m2 m3 d sym_data sym_data ((PHYSTOP - sym_data) / PGSIZE) PTE_W ->
  mapped_view m3 m4 d 0xFE000000 0xFE000000 8192 PTE_W ->
  forall va, 0 <= va < 2 ^ 32 -> pte_of m4 d va = kernel_pte va.
Proof.
  intros Z0 V1 V2 V3 V4 va Hva. rewrite V4, V3, V2, V1, Z0 by done. unfold kernel_pte.
  change (Z.lor PTE_W PTE_P) with 3. change (Z.lor 0 PTE_P) with 1.
  pose proof link_data as Hd. pose proof link_data_aligned as Hda. pose proof link_end as He.
  unfold USERTOP, PHYSTOP, PGSIZE in *.
  apply Z.mod_divide in Hda as [k Hk]; [|lia]. rewrite Hk in *.
  replace ((k * 4096 - 0x100000) / 4096) with (k - 256) by (Z.div_mod_to_equations; lia).
  replace ((0x1000000 - k * 4096) / 4096) with (4096 - k) by (Z.div_mod_to_equations; lia).
  destruct (Z.lt_ge_cases va 0xA0000); [zdec; lia|].
  destruct (Z.lt_ge_cases va 0x100000); [zdec; lia|].
  destruct (Z.lt_ge_cases va (k * 4096)); [zdec; lia|].
  destruct (Z.lt_ge_cases va 0x1000000); [zdec; lia|].
  destruct (Z.lt_ge_cases va 0xFE000000); zdec; lia.
Qed.

(** One more entry of [kmap], in terms of the state [s1] the loop starts from. *)
Lemma wp_setupkvm_entry d p npg perm ks s1 s2 R l1 l2 (Q : Z -> kernel -> Prop) e :
  LKmem ∉ held s1 -> tab_ext s1 s2 d R l1 l2 ->
  u32 (e - p) = PGSIZE * npg -> p mod PGSIZE = 0 -> 0 <= p -> 0 < npg ->
  p + PGSIZE * npg <= 2 ^ 32 -> 0 <= perm < 4096 ->
  (forall va, p <= va < p + PGSIZE * npg -> pte_of (mem s2) d va = 0) ->
  let cost := (p + PGSIZE * (npg - 1)) / 2 ^ 22 - p / 2 ^ 22 + 1 in
  Z.of_nat (length l1) - Z.of_nat (length l2) + cost <= 14 ->
  (forall s' l', tab_ext s1 s' d R l1 l' -> (length l1 < 14)%nat -> Q 0 s') ->
  (forall s3 l3, tab_ext s1 s3 d R l1 l3 -> mapped_view (mem s2) (mem s3) d p p npg perm ->
    Z.of_nat (length l2) - Z.of_nat (length l3) <= cost -> wp (setupkvm_loop d ks) s3 Q) ->
  wp (setupkvm_loop d ((p, e, perm) :: ks)) s2 Q.
Proof.
  intros Hl T2 Hu Hp Hp0 Hn Hp1 Hpm Hz cost Hb Hbad HQ.
  assert (Hcost : tab_cost (mem s2) d p (p + PGSIZE * (npg - 1)) <= cost).
  { unfold tab_cost, cost. destruct (ptab (mem s2) d (PDX p)); lia. }
  eapply (wp_setupkvm_step d p npg perm ks s2 R l2 Q e); try done; try apply T2.
  - rewrite (mframe_held s1); [done|apply T2].
  - intros s3 l3 T3 V3 C3. eapply HQ; [by eapply tab_ext_trans|done|]. lia.
  - intros s3 l3 T3 C3. eapply Hbad; [by eapply tab_ext_trans|]. lia.
Qed.

(** [kmap] from an empty directory: at most 14 page tables. *)
Lemma wp_kmap d s R l (Q : Z -> kernel -> Prop) :
  LKmem ∉ held s -> kmem_ok s l -> own (mem s) d R l -> (forall va, pte_of (mem s) d va = 0) ->
  (forall s' l', tab_ext s s' d R l l' -> (length l <= length l' + 14)%nat ->
     (forall va, 0 <= va < 2 ^ 32 -> pte_of (mem s') d va = kernel_pte va) -> Q d s') ->
  (forall s' l', tab_ext s s' d R l l' -> (length l < 14)%nat -> Q 0 s') ->
  wp (setupkvm_loop d kmap) s Q.
Proof.
  intros Hl K1 O1 Z0 Hok Hbad.
  pose proof link_data as Hdat. pose proof link_data_aligned as Hda. pose proof link_end as He.
  assert (T1 : tab_ext s s d R l l) by by apply tab_ext_refl.
  unfold kmap, USERTOP, PHYSTOP, PGSIZE in *. apply Z.mod_divide in Hda as [k Hdk]; [|lia].
  rewrite Hdk.
  apply (wp_setupkvm_entry d 0xA0000 96 PTE_W _ s s R l l); try done;
    [unfold PGSIZE; Z.div_mod_to_equations; lia|].
  intros s2 l2 T2 V2 C2. unfold PGSIZE in *. change (2 ^ 22) with 4194304 in *.
  apply (wp_setupkvm_entry d 0x100000 (k - 256) 0 _ s s2 R l l2); try done; unfold PGSIZE; try lia.
  { rewrite u32_small; lia. }
  { intros va Hva. rewrite V2, Z0 by lia. unfold PGSIZE. zdec. done. }
  { change (2 ^ 22) with 4194304 in *. Z.div_mod_to_equations. lia. }
  intros s3 l3 T3 V3 C3. change (2 ^ 22) with 4194304 in *.
  apply (wp_setupkvm_entry d (k * 4096) (4096 - k) PTE_W _ s s3 R l l3); try done; unfold PGSIZE; try lia.
  { rewrite u32_small; lia. }
  { apply Z_mod_mult. }
  { intros va Hva. rewrite V3, V2, Z0 by lia. unfold PGSIZE. zdec. done. }
  { change (2 ^ 22) with 4194304 in *. Z.div_mod_to_equations. lia. }
  intros s4 l4 T4 V4 C4. change (2 ^ 22) with 4194304 in *.
  apply (wp_setupkvm_entry d 0xFE000000 8192 PTE_W _ s s4 R l l4); try done; unfold PGSIZE; try lia.
  { intros va Hva. rewrite V4, V3, V2, Z0 by lia. unfold PGSIZE. zdec. done. }
  { change (2 ^ 22) with 4194304 in *. Z.div_mod_to_equations. lia. }
  intros s5 l5 T5 V5 C5. cbn [setupkvm_loop]. apply wp_intro_ret. apply (Hok s5 l5 T5).
  - change (2 ^ 22) with 4194304 in *. Z.div_mod_to_equations. lia.
  - eapply (kmap_view (mem s)); [exact Z0|exact V2| | |exact V5]; unfold PHYSTOP, PGSIZE;
      rewrite Hdk; [replace ((k * 4096 - 0x100000) / 4096) with (k - 256)|
                    replace ((0x1000000 - k * 4096) / 4096) with (4096 - k)];
      done || (Z.div_mod_to_equations; lia).
Qed.

Lemma wp_setupkvm s R l (Q : Z -> kernel -> Prop) :
  LKmem ∉ held s -> kmem_ok s l -> Forall page_ok (R ++ l) -> NoDup (R ++ l) ->
  (forall d s' l', kvm_ok s s' d R l l' ->
     (length l <= length l' + 15)%nat -> Q d s') ->
  (forall s' l', mframe s s' -> kmem_ok s' l' -> l' `suffix_of` l -> keeps R s s' ->
     (length l < 15)%nat -> Q 0 s') ->
  wp setupkvm s Q.
Proof.
  intros Hl Hk Hpo Hnd Hok Hfail. unfold setupkvm. apply wp_bind.
  eapply wp_kalloc; [done|exact Hk| |].
  { intros ->. cbn. apply wp_intro_ret. by apply (Hfail s []); auto with vm; [|cbn; lia]. }
  intros d l1 -> Hd Hk1 Es. pose proof (page_ok_bounds d Hd) as Hdb.
  destruct (Z.eqb_spec d 0); [unfold PGSIZE, PHYSTOP in *; lia|].
  unfold memset_m. apply wp_modify. rewrite Es in *. clear Es.
  set (s1 := _ <| mem := _ |>).
  destruct (zero_dir (mem s1) d) as [Ep Z0].
  { intros x Hx. apply memset_in. exact Hx. }
  assert (O1 : own (mem s1) d R l1).
  { assert (E : d :: ptpages (mem s1) d ++ R ++ l1 ≡ₚ R ++ d :: l1)
      by (rewrite Ep; cbn; apply Permutation_middle).
    split; by rewrite E. }
  assert (K1 : kmem_ok s1 l1).
  { eapply (kmem_ok_frame _ s1 _ (in_page d)); [exact Hk1|done| |].
    - intros x Hx. apply memset_out. unfold in_page, PGSIZE in *. lia.
    - intros q x Hq Hx Hdx. eapply own_disjoint; [exact O1| |exact Hx|by left].
      apply elem_of_app. by right. }
  assert (F1 : mframe s s1) by solve_mframe.
  assert (Kp1 : keeps R s s1).
  { intros q x Hq Hx. apply memset_out.
    assert (~ in_tables (mem s1) d x).
    { eapply own_disjoint; [exact O1| |exact Hx]. apply elem_of_app. by left. }
    assert (~ in_page d x) by (intros ?; apply H0; by left). unfold in_page, PGSIZE in *. lia. }
  assert (Hfr : forall s2 l2, tab_ext s1 s2 d R l1 l2 ->
    mframe s s2 /\ l2 `suffix_of` d :: l1 /\ keeps R s s2).
  { intros s2 l2 T. split_and!; [by eapply mframe_trans; [exact F1|apply T]| |].
    - etrans; [apply T|by exists [d]].
    - eapply keeps_trans; [exact Kp1|by eapply tab_ext_keeps]. }
  apply (wp_kmap d s1 R l1); try done.
  - intros s2 l2 T Hlen V. destruct (Hfr s2 l2 T) as (F & Su & Kp).
    apply (Hok d s2 l2); [|cbn [length]; lia].
    constructor; try done; [apply T..|]. rewrite (te_pages _ _ _ _ _ _ T), Ep. done.
  - intros s2 l2 T Hlen. destruct (Hfr s2 l2 T) as (F & Su & Kp).
    apply (Hfail s2 l2); try done; [apply T|cbn [length]; lia].
Qed.
End VmProofs.
