(* ===== verification/VmUser.v ===== *)
(** User address spaces, [kernel/vm.c]: [allocuvm], [deallocuvm], [freevm], [copyuvm]
    and [copyout] against the view of a page table as a function from user pages to
    entries, with every physical page accounted for. *)
From S2P Require Import Prelude Types Mem Kalloc PageTable Cons Vm VmProofs.

(** ** The view of a page table *)

(** Consecutive page numbers. *)
Fixpoint zseq (k : Z) (n : nat) : list Z :=
  match n with O => [] | S n' => k :: zseq (k + 1) n' end.

(** The physical page behind entry [f k], if present. *)
Definition upage (f : Z -> Z) (k : Z) : option Z :=
  if has (f k) PTE_P then Some (PTE_ADDR (f k)) else None.
Definition upages (f : Z -> Z) (k : Z) (n : nat) : list Z := omap (upage f) (zseq k n).

(** The number of user pages; kept folded so that lists of them are not unfolded. *)
Definition NUSER : nat := 160.
Lemma NUSER_eq : Z.of_nat NUSER = 160.
Proof. done. Qed.
#[global] Opaque NUSER.

(** The entries of pages [k, k + n) set to zero; entry [k] set to [v]. *)
Definition clear_range (f : Z -> Z) (k : Z) (n : nat) : Z -> Z :=
  fun i => if (k <=? i) && (i <? k + Z.of_nat n) then 0 else f i.
Definition set_entry (f : Z -> Z) (k v : Z) : Z -> Z := fun i => if i =? k then v else f i.

(** Pages of a range of user memory. *)
Definition pages_up (x : Z) : Z := (x + PGSIZE - 1) / PGSIZE.

(** The pages [P] mapped read-write for the user from page [k] up. *)
Definition map_pages (f : Z -> Z) (k : Z) (P : list Z) : Z -> Z := fun i =>
  if k <=? i then match P !! Z.to_nat (i - k) with Some p => p + 7 | None => f i end else f i.

(** The pages [P] are filled with zeros. *)
Definition zero_pages (m : Z -> Z) (P : list Z) : Prop :=
  forall p x, p ∈ P -> in_page p x -> m x = 0.

Lemma upages_ext f g k n :
  (forall i, k <= i < k + Z.of_nat n -> f i = g i) -> upages f k n = upages g k n.
Proof.
  unfold upages. revert k. induction n as [|n IH]; intros k Hfg; [done|]. cbn.
  replace (upage f k) with (upage g k) by (unfold upage; by rewrite Hfg by lia).
  by rewrite IH by (intros; apply Hfg; lia).
Qed.

Lemma upages_S f k n :
  upages f k (S n) = (if has (f k) PTE_P then [PTE_ADDR (f k)] else []) ++ upages f (k + 1) n.
Proof. unfold upages. cbn. unfold upage at 1. by destruct (has (f k) PTE_P). Qed.

Section VmUser.
Context `{HL : LinkerOk}.

(** [f] gives the user part of the page table [d]; the rest is [setupkvm]'s. *)
Definition uvm (m : Z -> Z) (d : Z) (f : Z -> Z) : Prop :=
  forall va, 0 <= va < 2 ^ 32 ->
    pte_of m d va = if va <? USERTOP then f (va / PGSIZE) else kernel_pte va.

(** A page table with user part [f], in a memory whose pages are the tables, [R] and
    the free list [l], all different. *)
Record uv_ok (s : kernel) (d : Z) (f : Z -> Z) (R l : list Z) : Prop := {
  uv_kmem : kmem_ok s l;
  uv_own : own (mem s) d R l;
  uv_view : uvm (mem s) d f }.

(** The effect common to all operations on the user part of [d]. *)
Record uv_step (d : Z) (R : list Z) (s s' : kernel) : Prop := {
  us_frame : mframe s s';
  us_keeps : keeps R s s';
  us_tabs : ptpages (mem s') d ≡ₚ ptpages (mem s) d }.

Lemma uv_step_refl d R s : uv_step d R s s.
Proof. split; [apply mframe_refl|by intros p x|done]. Qed.

Lemma uv_step_trans d R s1 s2 s3 : uv_step d R s1 s2 -> uv_step d R s2 s3 -> uv_step d R s1 s3.
Proof.
  intros [F1 K1 T1] [F2 K2 T2].
  split; [by eapply mframe_trans|by eapply keeps_trans|by rewrite T2].
Qed.

Lemma uv_step_weaken d R R' s s' : R' ⊆ R -> uv_step d R s s' -> uv_step d R' s s'.
Proof. intros HR [F K T]. split; [done| |done]. intros p x Hp. apply K. by apply HR. Qed.

Lemma uv_ok_perm s d f R R' l : R ≡ₚ R' -> uv_ok s d f R l -> uv_ok s d f R' l.
Proof.
  intros HR [K O V]. split; [done| |done]. eapply own_perm; [exact O|by rewrite HR].
Qed.

Lemma uv_ok_ext s d f g R l :
  (forall k, 0 <= k < 160 -> f k = g k) -> uv_ok s d f R l -> uv_ok s d g R l.
Proof.
  intros Hfg [K O V]. split; [done|done|]. intros va Hva. rewrite V by done.
  destruct (Z.ltb_spec va USERTOP); [|done]. apply Hfg. unfold USERTOP, PGSIZE in *.
  Z.div_mod_to_equations; lia.
Qed.

(** The first page table exists: it holds the kernel's entries from [USERTOP] up. *)
Lemma uvm_ptab m d f : uvm m d f -> is_Some (ptab m d 0).
Proof.
  intros V. rewrite <- (PDX_lt_4M USERTOP) by (unfold USERTOP; lia). apply pte_of_ptab.
  rewrite V by (unfold USERTOP; lia). done.
Qed.

Lemma user_PDX k : 0 <= k < 160 -> PDX (k * PGSIZE) = 0.
Proof. intros. apply PDX_lt_4M. unfold PGSIZE. lia. Qed.

Lemma uvm_at m d f k : uvm m d f -> 0 <= k < 160 -> pte_of m d (k * PGSIZE) = f k.
Proof.
  intros V Hk. rewrite V by (unfold PGSIZE; lia). unfold USERTOP, PGSIZE. zdec.
  by rewrite Z.div_mul.
Qed.

(** Changes to pages outside the tables keep the view. *)
Lemma own_uvm_frame m m' d f p R l :
  own m d (p :: R) l -> uvm m d f -> agree_off (in_page p) m m' ->
  own m' d (p :: R) l /\ uvm m' d f /\ ptpages m' d = ptpages m d.
Proof.
  intros O V A.
  assert (Ht : forall x, in_tables m d x -> m' x = m x).
  { intros x Hx. apply A. intros Hp. eapply own_disjoint; [exact O| |exact Hp|exact Hx].
    apply elem_of_cons. by left. }
  assert (E : ptpages m' d = ptpages m d) by (apply ptpages_ext; intros; apply Ht; by left).
  split_and!; [|intros va Hva; by rewrite (pte_of_ext m m'), V|done].
  destruct O. split; by rewrite E.
Qed.

Lemma own_other m d p R l q : own m d (p :: R) l -> q ∈ R ++ l -> page_ok q /\ page_ok p /\ q <> p.
Proof.
  intros O Hq.
  split_and!; [eapply own_page; [exact O|]|eapply own_page; [exact O|]|].
  - rewrite elem_of_cons, elem_of_app. cbn. rewrite elem_of_cons. auto.
  - rewrite elem_of_cons, elem_of_app. cbn. rewrite elem_of_cons. auto.
  - intros ->. destruct O as [_ N]. apply NoDup_cons in N as [_ N]. apply NoDup_app in N as (_ & _ & N).
    cbn in N. apply NoDup_cons in N as [N _]. done.
Qed.

(** *** Moves of one page *)

Lemma uv_kfree s d f p R l :
  uv_ok s d f (p :: R) l ->
  uv_ok (after_kfree s p) d f R (p :: l) /\ uv_step d R s (after_kfree s p).
Proof.
  intros [K O V].
  destruct (own_uvm_frame _ _ _ _ _ _ _ O V (after_kfree_agree s p)) as (O' & V' & E).
  assert (Hp : page_ok p) by (eapply own_page; [exact O|];
    rewrite elem_of_cons, elem_of_app; cbn; rewrite elem_of_cons; auto).
  split; split; [apply kmem_ok_kfree; try done| |done|auto with vm| |by rewrite E].
  - intros Hl. eapply (own_other _ _ p R l p O); [apply elem_of_app; by right|done].
  - eapply own_perm; [exact O'|]. cbn. apply Permutation_middle.
  - intros q x Hq Hx. apply after_kfree_agree.
    destruct (own_other _ _ p R l q O) as ([Hq1 _] & [Hp1 _] & Hne); [apply elem_of_app; by left|].
    by apply (pages_disjoint q p).
Qed.

Lemma wp_uv_kfree s d f p R l (Q : unit -> kernel -> Prop) :
  LKmem ∉ held s -> uv_ok s d f (p :: R) l ->
  (uv_ok (after_kfree s p) d f R (p :: l) -> uv_step d R s (after_kfree s p) ->
     Q tt (after_kfree s p)) ->
  wp (kfree p) s Q.
Proof.
  intros Hl U HQ. destruct (uv_kfree _ _ _ _ _ _ U) as [U' S']. destruct U as [K O V].
  eapply wp_run; [apply kfree_run; [done|]|by apply HQ].
  eapply own_page; [exact O|]. rewrite elem_of_cons, elem_of_app; cbn; rewrite elem_of_cons; auto.
Qed.

(** Writing the entry of user page [k]. *)
Lemma uv_store s d f k v R l :
  uv_ok s d f R l -> 0 <= k < 160 -> 0 <= v < 2 ^ 32 ->
  let s' := s <| mem := st32 (mem s) (pte_slot (mem s) d (k * PGSIZE)) v |> in
  uv_ok s' d (set_entry f k v) R l /\ uv_step d R s s'.
Proof.
  intros [K O V] Hk Hv s'. destruct (uvm_ptab _ _ _ V) as [p Hp].
  rewrite <- (user_PDX k Hk) in Hp.
  assert (Hva : 0 <= k * PGSIZE < 2 ^ 32) by (unfold PGSIZE; lia).
  pose proof (tab_ext_store s d R l _ p v K O Hva Hp) as T.
  destruct (store_pte _ _ _ _ _ _ v O Hva Hp) as (_ & E & _ & _ & P).
  split; split; try apply T.
  - intros va Hva'. cbn. rewrite P, V, u32_small by done. unfold set_entry.
    unfold PGSIZE. rewrite Z.div_mul by done. unfold USERTOP.
    destruct (Z.ltb_spec va 0xA0000), (Z.eqb_spec (va / 4096) k); try done.
    exfalso. Z.div_mod_to_equations; lia.
  - by eapply tab_ext_keeps.
  - cbn. by rewrite E.
Qed.

(** Taking a page off the free list and filling it. *)
Lemma uv_kalloc s d f r R l m' :
  uv_ok s d f R (r :: l) -> page_ok r -> kmem_ok (after_kalloc s r) l ->
  agree_off (in_page r) (mem s) m' ->
  let s' := (after_kalloc s r) <| mem := m' |> in
  uv_ok s' d f (r :: R) l /\ uv_step d R s s'.
Proof.
  intros [K O V] Hr K' A s'.
  assert (O1 : own (mem s) d (r :: R) l)
    by (eapply own_perm; [exact O|]; cbn; symmetry; apply Permutation_middle).
  destruct (own_uvm_frame _ _ _ _ _ _ _ O1 V A) as (O' & V' & E).
  assert (Es : after_kalloc s r = s <| freelist := ld32 (mem s) r |> <| freecount := s32 (freecount s - 1) |>).
  { unfold after_kalloc. pose proof (page_ok_bounds r Hr). destruct (Z.eqb_spec r 0); [lia|done]. }
  subst s'. rewrite Es in *.
  split; split; try done.
  - eapply (kmem_ok_frame _ _ _ (in_page r)); [exact K'|done|exact A|].
    intros q x Hq Hx Hrx.
    destruct (own_other _ _ r R l q O1) as ([Hq1 _] & [Hp1 _] & Hne); [apply elem_of_app; by right|].
    by eapply (pages_disjoint q r).
  - solve_mframe.
  - intros q x Hq Hx. apply A.
    destruct (own_other _ _ r R l q O1) as ([Hq1 _] & [Hp1 _] & Hne); [apply elem_of_app; by left|].
    by apply (pages_disjoint q r).
  - cbn. by rewrite E.
Qed.

(** Mapping user page [k] cannot fail: its page table exists. *)
Lemma wp_uv_map s d f k pa R l (Q : Z -> kernel -> Prop) :
  LKmem ∉ held s -> uv_ok s d f R l -> 0 <= k < 160 -> has (f k) PTE_P = false -> page_ok pa ->
  (forall s', uv_ok s' d (set_entry f k (pa + 7)) R l -> uv_step d R s s' -> Q 0 s') ->
  wp (mappages d (k * PGSIZE) PGSIZE pa (Z.lor PTE_W PTE_U)) s Q.
Proof.
  intros Hl [K O V] Hk Hf Hpa HQ. pose proof (page_ok_bounds pa Hpa) as Hpb.
  destruct (uvm_ptab _ _ _ V) as [p Hp]. rewrite <- (user_PDX k Hk) in Hp.
  replace PGSIZE with (PGSIZE * 1) at 2 by done.
  assert (Hc : tab_cost (mem s) d (k * PGSIZE) (k * PGSIZE + PGSIZE * (1 - 1)) = 0).
  { unfold tab_cost. rewrite Hp. change (PGSIZE * (1 - 1)) with 0. rewrite !Z.add_0_r. lia. }
  unfold PHYSTOP in *.
  eapply (wp_mappages d (k * PGSIZE) 1 pa _ s R l); try done; try (unfold PGSIZE in *; lia).
  - apply Z_mod_mult.
  - apply Hpa.
  - intros va Hva. rewrite V by (unfold PGSIZE in *; lia). unfold PGSIZE, USERTOP in *. zdec.
    replace (va / 4096) with k by (Z.div_mod_to_equations; lia). done.
  - rewrite Hc. intros s' l' T P Hlen.
    assert (l' = l) as ->.
    { destruct (te_used _ _ _ _ _ _ T) as [l0 E]. subst l. rewrite length_app in Hlen.
      destruct l0; [done|cbn in Hlen; lia]. }
    apply HQ; split; try apply T.
    + intros va Hva. rewrite P, V by done. unfold set_entry. unfold USERTOP, PGSIZE in *.
      change (Z.lor (Z.lor PTE_W PTE_U) PTE_P) with 7.
      destruct (Z.leb_spec (k * 4096) va), (Z.ltb_spec va (k * 4096 + 4096 * 1)),
        (Z.ltb_spec va 0xA0000), (Z.eqb_spec (va / 4096) k); cbn [andb]; try done;
        Z.div_mod_to_equations; lia.
    + by eapply tab_ext_keeps.
    + pose proof (te_pages _ _ _ _ _ _ T) as E. by apply Permutation_app_inv_r in E.
Qed.

(** A present user entry points to an allocatable page. *)
Lemma upages_page_ok s d f p R l : uv_ok s d f (p :: R) l -> page_ok p.
Proof.
  intros [_ O _]. eapply own_page; [exact O|].
  rewrite elem_of_cons, elem_of_app; cbn; rewrite elem_of_cons; auto.
Qed.

(** *** [deallocuvm] *)
Lemma clear_range_S f k n i :
  clear_range (set_entry f k 0) (k + 1) n i = clear_range f k (S n) i.
Proof.
  unfold clear_range, set_entry.
  destruct (Z.leb_spec (k + 1) i), (Z.ltb_spec i (k + 1 + Z.of_nat n)), (Z.leb_spec k i),
    (Z.ltb_spec i (k + Z.of_nat (S n))), (Z.eqb_spec i k); cbn [andb]; try lia; done.
Qed.

Lemma clear_range_absent f k n i :
  f k = 0 -> clear_range f (k + 1) n i = clear_range f k (S n) i.
Proof.
  intros Hf. rewrite <- clear_range_S. unfold clear_range, set_entry.
  destruct (Z.eqb_spec i k) as [->|]; by rewrite ?Hf.
Qed.

(** An entry is zero or present: what [mappages] and [deallocuvm] write. *)
Definition entries_ok (f : Z -> Z) : Prop := forall k, has (f k) PTE_P = false -> f k = 0.

(** One present page is freed and its entry cleared. *)
Lemma wp_dealloc_page s d f k Q R l : LKmem ∉ held s -> uv_ok s d f (PTE_ADDR (f k) :: Q ++ R) l -> 0 <= k < 160 ->
  wp (if PTE_ADDR (f k) =? 0 then panic "kfree" else kfree (PTE_ADDR (f k)) ;; store32 (pte_slot (mem s) d (k * PGSIZE)) 0) s (fun _ s' =>
    uv_ok s' d (set_entry f k 0) (Q ++ R) (PTE_ADDR (f k) :: l) /\ uv_step d R s s').
Proof.
  intros Hl U Hk. pose proof (upages_page_ok _ _ _ _ _ _ U) as Hpo. pose proof (page_ok_bounds _ Hpo) as Hpb.
  destruct (Z.eqb_spec (PTE_ADDR (f k)) 0); [unfold PGSIZE in *; lia|].
  apply wp_bind. eapply wp_uv_kfree; [done|exact U|]. intros U1 S1. unfold store32, wp, modify.
  assert (Es : pte_slot (mem s) d (k * PGSIZE) = pte_slot (mem (after_kfree s (PTE_ADDR (f k)))) d (k * PGSIZE)).
  { symmetry. apply pte_slot_ext. intros x Hx. apply after_kfree_agree. intros Hx'.
    eapply own_disjoint; [apply U| |exact Hx'|by left]. apply elem_of_cons; by left. }
  rewrite Es. destruct (uv_store _ _ _ k 0 _ _ U1 ltac:(lia) ltac:(lia)) as [U2 S2]. split; [exact U2|].
  eapply uv_step_trans; [eapply uv_step_weaken; [|exact S1]|eapply uv_step_weaken; [|exact S2]]; intros q Hq; apply elem_of_app; by right.
Qed.

Lemma wp_deallocuvm_loop n : forall fuel d oldsz k s f R l,
  (n < fuel)%nat -> LKmem ∉ held s -> uv_ok s d f (upages f k n ++ R) l -> entries_ok f ->
  0 <= k -> k + Z.of_nat n <= 160 -> oldsz <= (k + Z.of_nat n) * PGSIZE ->
  (n <> 0%nat -> (k + Z.of_nat n - 1) * PGSIZE < oldsz) ->
  wp (deallocuvm_loop fuel d oldsz (k * PGSIZE)) s (fun _ s' =>
    uv_ok s' d (clear_range f k n) R (rev (upages f k n) ++ l) /\ uv_step d R s s').
Proof.
  induction n as [|n IH]; intros fuel d oldsz k s f R l Hfuel Hl U Hf Hk Hkn Hhi Hlo;
    (destruct fuel as [|fuel]; [lia|]); cbn [deallocuvm_loop].
  { destruct (Z.ltb_spec (k * PGSIZE) oldsz); [unfold PGSIZE in *; lia|]. apply wp_intro_ret.
    split; [|apply uv_step_refl]. eapply uv_ok_ext; [|exact U].
    intros i _. unfold clear_range. zdec. destruct (Z.leb_spec k i), (Z.ltb_spec i (k + Z.of_nat 0));
      cbn [andb]; done || lia. }
  destruct (Z.ltb_spec (k * PGSIZE) oldsz); [|unfold PGSIZE in *; lia].
  apply wp_bind. eapply wp_run; [apply walkpgdir_lookup|].
  destruct (uvm_ptab _ _ _ (uv_view _ _ _ _ _ U)) as [p Hp].
  rewrite <- (user_PDX k) in Hp by lia.
  destruct (ptab_slot_nz _ _ _ _ _ _ (uv_own _ _ _ _ _ U) Hp) as (_ & _ & Hnz).
  destruct (Z.eqb_spec (pte_slot (mem s) d (k * PGSIZE)) 0); [done|]. cbn [negb when].
  apply wp_bind. unfold load32. apply wp_gets.
  replace (ld32 (mem s) (pte_slot (mem s) d (k * PGSIZE))) with (f k).
  2:{ rewrite <- (uvm_at (mem s) d f k (uv_view _ _ _ _ _ U)) by lia. unfold pte_of.
      by destruct (Z.eqb_spec (pte_slot (mem s) d (k * PGSIZE)) 0). }
  rewrite upages_S in U |- *.
  assert (Hnext : forall s1 f1 l1, uv_ok s1 d f1 (upages f (k + 1) n ++ R) l1 -> entries_ok f1 ->
    uv_step d R s s1 -> (forall i, k < i -> f1 i = f i) ->
    (forall i, clear_range f1 (k + 1) n i = clear_range f k (S n) i) ->
    wp (deallocuvm_loop fuel d oldsz (u32 (k * PGSIZE + PGSIZE))) s1 (fun _ s' =>
      uv_ok s' d (clear_range f k (S n)) R (rev (upages f (k + 1) n) ++ l1) /\ uv_step d R s s')).
  { intros s1 f1 l1 U1 Hf1 S1 Ei Ec. rewrite u32_small by (unfold PGSIZE in *; lia).
    replace (k * PGSIZE + PGSIZE) with ((k + 1) * PGSIZE) by lia.
    assert (Eu : upages f (k + 1) n = upages f1 (k + 1) n)
      by (apply upages_ext; intros; rewrite Ei; [done|lia]).
    rewrite Eu in U1 |- *. eapply wp_mono.
    - apply (IH fuel d oldsz (k + 1) s1 f1 R l1); try done; try lia.
      rewrite (mframe_held s); [done|apply S1].
    - intros ? s' [U' S']. split; [|by eapply uv_step_trans].
      eapply uv_ok_ext; [|exact U']. intros; apply Ec. }
  destruct (has (f k) PTE_P) eqn:Ep; cbn [when app] in *.
  - eapply wp_mono; [apply (wp_dealloc_page s d f k); [done|exact U|lia]|]. intros [] s2 [U2 S2].
    cbn [rev]. rewrite <- app_assoc. cbn [app]. apply (Hnext s2 (set_entry f k 0) _ U2); [|exact S2| |apply clear_range_S].
    + intros i. unfold set_entry. destruct (i =? k); [done|apply Hf].
    + intros i Hi. unfold set_entry. destruct (Z.eqb_spec i k); [lia|done].
  - apply (Hnext s f l U Hf); [apply uv_step_refl|done|].
    intros i. apply clear_range_absent. by apply Hf.
Qed.

Lemma pages_up_spec x : 0 <= x <= USERTOP -> PGROUNDUP x = pages_up x * PGSIZE.
Proof. intros Hx. apply PGROUNDUP_spec; unfold USERTOP, PGSIZE in *; lia. Qed.

Lemma pages_up_bounds x : 0 <= x <= USERTOP ->
  0 <= pages_up x <= 160 /\ (pages_up x - 1) * PGSIZE < x <= pages_up x * PGSIZE.
Proof. unfold pages_up, USERTOP, PGSIZE. intros. Z.div_mod_to_equations. lia. Qed.

(** The number of pages between two sizes. *)
Definition pages_between (lo hi : Z) : nat := Z.to_nat (pages_up hi - pages_up lo).

Lemma pages_between_spec lo hi : 0 <= lo <= hi -> hi <= USERTOP ->
  pages_up lo + Z.of_nat (pages_between lo hi) = pages_up hi.
Proof.
  intros. unfold pages_between. assert (pages_up lo <= pages_up hi); [|lia].
  apply Z.div_le_mono; unfold PGSIZE; lia.
Qed.

Lemma page_fuel_enough lo hi : 0 <= lo -> 0 <= hi <= USERTOP ->
  (pages_between lo hi < page_fuel hi)%nat.
Proof.
  intros. unfold pages_between, page_fuel, pages_up, USERTOP, PGSIZE in *.
  Z.div_mod_to_equations. lia.
Qed.

Lemma wp_deallocuvm d oldsz newsz s f R l :
  0 <= newsz <= oldsz -> oldsz <= USERTOP -> LKmem ∉ held s -> entries_ok f ->
  let k := pages_up newsz in let n := pages_between newsz oldsz in
  uv_ok s d f (upages f k n ++ R) l ->
  wp (deallocuvm d oldsz newsz) s (fun r s' =>
    r = newsz /\ uv_ok s' d (clear_range f k n) R (rev (upages f k n) ++ l) /\ uv_step d R s s').
Proof.
  intros Hsz Htop Hl Hf k n U. unfold deallocuvm.
  pose proof (pages_up_bounds newsz ltac:(lia)) as Hk. pose proof (pages_up_bounds oldsz ltac:(lia)) as Hn.
  pose proof (pages_between_spec newsz oldsz ltac:(lia) Htop) as Ekn. fold k n in Ekn, Hk, Hn.
  destruct (Z.leb_spec oldsz newsz).
  - assert (oldsz = newsz) as E by lia. assert (n = 0%nat) as En by (unfold k in Ekn; rewrite E in Ekn; lia).
    rewrite En in *. apply wp_intro_ret. split_and!; [done| |apply uv_step_refl].
    eapply uv_ok_ext; [|exact U]. intros i _. unfold clear_range.
    destruct (Z.leb_spec k i), (Z.ltb_spec i (k + Z.of_nat 0)); cbn [andb]; done || lia.
  - apply wp_bind. rewrite pages_up_spec by lia. eapply wp_mono.
    + apply (wp_deallocuvm_loop n _ d oldsz k s f R l); try done; try lia.
      apply page_fuel_enough; lia.
    + intros ? s' [U' S']. by apply wp_intro_ret.
Qed.

(** *** [allocuvm] *)
Lemma map_pages_snoc f k P r i :
  map_pages f k (P ++ [r]) i = set_entry (map_pages f k P) (k + Z.of_nat (length P)) (r + 7) i.
Proof.
  unfold map_pages, set_entry. destruct (Z.leb_spec k i), (Z.eqb_spec i (k + Z.of_nat (length P)));
    try done; try lia.
  - subst i. replace (Z.to_nat _) with (length P) by lia. by rewrite list_lookup_middle.
  - destruct (decide (Z.to_nat (i - k) < length P)%nat).
    + by rewrite lookup_app_l.
    + rewrite !lookup_ge_None_2; [done|lia|rewrite length_app; cbn; lia].
Qed.

Lemma map_pages_beyond f k P i : i < k \/ k + Z.of_nat (length P) <= i -> map_pages f k P i = f i.
Proof.
  intros Hi. unfold map_pages. destruct (Z.leb_spec k i); [|done].
  rewrite lookup_ge_None_2; [done|lia].
Qed.

Lemma PTE_user p : page_ok p -> PTE_ADDR (p + 7) = p /\ has (p + 7) PTE_P = true.
Proof.
  intros Hp. pose proof (page_ok_bounds p Hp) as Hb. destruct Hp as [Ha _]. unfold PHYSTOP, PGSIZE in *.
  split; [apply PTE_ADDR_mk; lia|]. rewrite has_mk; done || (unfold PTE_P; lia).
Qed.

Lemma upages_zero f k n : (forall i, k <= i < k + Z.of_nat n -> f i = 0) -> upages f k n = [].
Proof.
  revert k. induction n as [|n IH]; intros k Hz; [done|].
  rewrite upages_S, Hz, IH by (intros; try apply Hz; lia). done.
Qed.

Lemma upages_map_pages f P : forall k n, Forall page_ok P -> (length P <= n)%nat ->
  (forall i, k <= i < k + Z.of_nat n -> f i = 0) -> upages (map_pages f k P) k n = P.
Proof.
  induction P as [|p P IH]; intros k n HP Hn Hz.
  { apply upages_zero. intros i Hi. rewrite map_pages_beyond; [by apply Hz|cbn; lia]. }
  apply Forall_cons in HP as [Hp HP]. destruct n as [|n]; [cbn in Hn; lia|].
  rewrite upages_S. destruct (PTE_user p Hp) as [Ea Eh].
  assert (Ek : map_pages f k (p :: P) k = p + 7).
  { unfold map_pages. rewrite Z.leb_refl, Z.sub_diag. done. }
  rewrite Ek, Eh, Ea. cbn [app]. f_equal.
  rewrite <- (IH (k + 1) n) at 2; [|done|cbn in Hn; lia|intros; apply Hz; lia].
  apply upages_ext. intros i Hi. unfold map_pages.
  destruct (Z.leb_spec k i), (Z.leb_spec (k + 1) i); try lia.
  replace (Z.to_nat (i - k)) with (S (Z.to_nat (i - (k + 1)))) by lia. done.
Qed.

Lemma entries_ok_map f k P : entries_ok f -> Forall page_ok P -> entries_ok (map_pages f k P).
Proof.
  intros Hf HP i. unfold map_pages. destruct (k <=? i); [|apply Hf].
  destruct (P !! Z.to_nat (i - k)) as [p|] eqn:E; [|apply Hf].
  assert (page_ok p) as Hp by (eapply Forall_lookup_1; done).
  destruct (PTE_user p Hp) as [_ ->]. done.
Qed.

Lemma uv_pages_ok s d f P R l : uv_ok s d f (P ++ R) l -> Forall page_ok P.
Proof.
  intros [_ O _]. apply Forall_forall. intros p Hp. eapply own_page; [exact O|].
  rewrite elem_of_cons, !elem_of_app. auto.
Qed.

Lemma zero_pages_step d P s s' : uv_step d P s s' -> zero_pages (mem s) P -> zero_pages (mem s') P.
Proof. intros S Hz p x Hp Hx. rewrite (us_keeps _ _ _ _ S p x Hp Hx). by eapply Hz. Qed.

(** A fresh zeroed page mapped at [k]. *)
Lemma wp_uv_alloc {B} (K : Z -> M kernel B) s d f k R r l Q :
  LKmem ∉ held s -> uv_ok s d f R (r :: l) -> 0 <= k < 160 -> has (f k) PTE_P = false ->
  page_ok r -> kmem_ok (after_kalloc s r) l ->
  (forall s', uv_ok s' d (set_entry f k (r + 7)) (r :: R) l -> uv_step d R s s' ->
     zero_pages (mem s') [r] -> wp (K 0) s' Q) ->
  wp (memset_m r 0 PGSIZE ;;
      let! x := mappages d (k * PGSIZE) PGSIZE (PADDR r) (Z.lor PTE_W PTE_U) in K x)
    (after_kalloc s r) Q.
Proof.
  intros Hl U Hk Hf Hr Kr HQ. unfold memset_m. apply wp_modify.
  assert (Em : mem (after_kalloc s r) = mem s).
  { unfold after_kalloc. by destruct (r =? 0). }
  rewrite Em.
  destruct (uv_kalloc s d f r R l (memset (mem s) r 0 PGSIZE) U Hr Kr) as [U1 S1].
  { intros x Hx. apply memset_out. unfold in_page in Hx. lia. }
  set (s1 := _ <| mem := _ |>) in *.
  apply wp_bind. unfold PADDR. rewrite page_ok_u32 by done.
  eapply wp_uv_map; [|exact U1|done|done|done|].
  { rewrite (mframe_held s); [done|apply S1]. }
  intros s2 U2 S2. apply HQ; [done| |].
  - eapply uv_step_trans; [exact S1|]. eapply uv_step_weaken; [|exact S2]. set_solver.
  - eapply (zero_pages_step d); [eapply uv_step_weaken; [|exact S2]; set_solver|].
    intros p x ->%list_elem_of_singleton Hx. apply memset_in. exact Hx.
Qed.

(** The error path of [allocuvm]: what was allocated so far goes back. *)
Lemma wp_allocuvm_undo d oldsz newsz s f P R :
  LKmem ∉ held s -> cons_ready s -> entries_ok f -> 0 <= oldsz <= newsz -> newsz <= USERTOP ->
  (length P <= pages_between oldsz newsz)%nat ->
  (forall i, pages_up oldsz <= i < pages_up newsz -> f i = 0) ->
  uv_ok s d (map_pages f (pages_up oldsz) P) (P ++ R) [] ->
  wp (cprintf "allocuvm out of memory
" [] ;; deallocuvm d newsz oldsz ;; ret 0) s (fun r s' =>
    r = 0 /\ uv_step d R s s' /\ uv_ok s' d f R (rev P)).
Proof.
  intros Hl Hc Hf Hsz Htop Hn Hz U. set (k := pages_up oldsz) in *.
  pose proof (pages_between_spec oldsz newsz ltac:(lia) Htop) as Ekn. fold k in Ekn.
  apply wp_bind. eapply wp_mono; [by apply wp_cprintf|].
  intros ? s1 Hpr. assert (S1 : uv_step d (P ++ R) s s1).
  { destruct Hpr as (c & -> & Hc1 & Hc2). split; [|by intros p x|done].
    apply printed_mframe. by exists c. }
  assert (U1 : uv_ok s1 d (map_pages f k P) (P ++ R) []).
  { destruct Hpr as (c & -> & _), U as [[] ? ?]. by split. }
  assert (Ep : upages (map_pages f k P) k (pages_between oldsz newsz) = P).
  { apply upages_map_pages; [by eapply uv_pages_ok|lia|]. rewrite Ekn. done. }
  apply wp_bind. eapply wp_mono.
  - apply (wp_deallocuvm d newsz oldsz s1 (map_pages f k P) R []); try done; try lia.
    + rewrite (mframe_held s); [done|apply S1].
    + apply entries_ok_map; [done|by eapply uv_pages_ok].
    + fold k. by rewrite Ep.
  - intros ? s2 (_ & U2 & S2). fold k in U2. rewrite Ep in U2. apply wp_intro_ret.
    split_and!; [done| |].
    + eapply uv_step_trans; [|exact S2]. eapply uv_step_weaken; [|exact S1]. set_solver.
    + rewrite !app_nil_r in *. eapply uv_ok_ext; [|exact U2]. intros i _. unfold clear_range.
      destruct (Z.leb_spec k i), (Z.ltb_spec i (k + Z.of_nat (pages_between oldsz newsz)));
        cbn [andb]; try (rewrite map_pages_beyond by lia; done). rewrite Hz; [done|lia].
Qed.

Lemma wp_allocuvm_loop j : forall fuel d oldsz newsz s f k P R l,
  (j < fuel)%nat -> LKmem ∉ held s -> cons_ready s -> entries_ok f ->
  0 <= oldsz <= newsz -> newsz <= USERTOP -> k = pages_up oldsz ->
  (length P + j)%nat = pages_between oldsz newsz ->
  (forall i, k <= i < pages_up newsz -> f i = 0) ->
  uv_ok s d (map_pages f k P) (P ++ R) l -> zero_pages (mem s) P ->
  wp (allocuvm_loop fuel d oldsz newsz ((k + Z.of_nat (length P)) * PGSIZE)) s (fun r s' =>
    uv_step d R s s' /\
    ((r = newsz /\ exists N l', l = N ++ l' /\ length N = j /\
        uv_ok s' d (map_pages f k (P ++ N)) (P ++ N ++ R) l' /\ zero_pages (mem s') (P ++ N)) \/
     (r = 0 /\ (length l < j)%nat /\ uv_ok s' d f R (rev (P ++ l))))).
Proof.
  induction j as [|j IH]; intros fuel d oldsz newsz s f k P R l Hfuel Hl Hc Hf Hsz Htop -> Hn Hz U Z;
    (destruct fuel as [|fuel]; [lia|]); cbn [allocuvm_loop];
    set (k := pages_up oldsz) in *;
    pose proof (pages_between_spec oldsz newsz ltac:(lia) Htop) as Ekn; fold k in Ekn;
    pose proof (pages_up_bounds newsz ltac:(lia)) as Hb;
    pose proof (pages_up_bounds oldsz ltac:(lia)) as Hb0; fold k in Hb0.
  { destruct (Z.ltb_spec ((k + Z.of_nat (length P)) * PGSIZE) newsz); [lia|]. apply wp_intro_ret.
    split; [apply uv_step_refl|]. left. split; [done|]. exists [], l. rewrite app_nil_r. done. }
  destruct (Z.ltb_spec ((k + Z.of_nat (length P)) * PGSIZE) newsz); [|unfold PGSIZE in *; lia].
  apply wp_bind. eapply wp_kalloc; [done|apply U| |].
  - intros ->. cbn [Z.eqb]. eapply wp_mono; [apply (wp_allocuvm_undo d oldsz newsz s f P R); try done; lia|].
    intros ? s' (-> & S' & U'). split; [done|]. right. split; [done|]. split; [cbn; lia|].
    by rewrite app_nil_r.
  - intros r l' -> Hr Kr _. pose proof (page_ok_bounds r Hr).
    destruct (Z.eqb_spec r 0); [unfold PGSIZE in *; lia|].
    eapply (wp_uv_alloc _ s d (map_pages f k P) _ (P ++ R) r l'); try done; [lia| |].
    { rewrite map_pages_beyond by lia. rewrite Hz; [done|lia]. }
    intros s1 U1 S1 Z1. rewrite u32_small by (unfold USERTOP, PGSIZE in *; lia).
    assert (Eperm : r :: P ++ R ≡ₚ (P ++ [r]) ++ R).
    { rewrite <- app_assoc. apply Permutation_middle. }
    assert (S1' : uv_step d R s s1) by (eapply uv_step_weaken; [|exact S1]; set_solver).
    replace ((k + Z.of_nat (length P)) * PGSIZE + PGSIZE) with
      ((k + Z.of_nat (length (P ++ [r]))) * PGSIZE) by (rewrite length_app; cbn; lia).
    eapply wp_mono.
    + apply (IH fuel d oldsz newsz s1 f k (P ++ [r]) R l'); try done; try lia.
      * rewrite (mframe_held s); [done|apply S1].
      * eapply mframe_cons_ready; [apply S1|done].
      * rewrite length_app. cbn. lia.
      * eapply uv_ok_perm; [exact Eperm|]. eapply uv_ok_ext; [|exact U1].
        intros i _. symmetry. apply map_pages_snoc.
      * intros p x [Hp|Hp]%elem_of_app Hx; [|by eapply Z1].
        eapply (zero_pages_step d P s s1); try done. eapply uv_step_weaken; [|exact S1]. set_solver.
    + intros ret s2 [S2 Hret]. split; [by eapply uv_step_trans|].
      destruct Hret as [(-> & N & l2 & -> & HN & U2 & Z2)|(-> & Hlen & U2)]; [left|right].
      * split; [done|]. exists (r :: N), l2. rewrite <- !app_assoc in *. cbn in *.
        split_and!; [done|lia|done|done].
      * split; [done|]. split; [cbn; lia|]. rewrite <- app_assoc in U2. exact U2.
Qed.

(** *** [freevm] *)
Lemma wp_freevm_loop idx : forall s d l (Q : unit -> kernel -> Prop),
  LKmem ∉ held s -> kmem_ok s l -> page_ok d -> d ∉ omap (ptab (mem s) d) idx ++ l ->
  (forall i, i ∈ idx -> 0 <= i < 1024) ->
  Forall page_ok (omap (ptab (mem s) d) idx) -> NoDup (omap (ptab (mem s) d) idx ++ l) ->
  (forall s', mframe s s' -> kmem_ok s' (rev (omap (ptab (mem s) d) idx) ++ l) ->
     (forall q x, page_ok q -> q ∉ omap (ptab (mem s) d) idx -> in_page q x -> mem s' x = mem s x) ->
     Q tt s') ->
  wp (freevm_loop d idx) s Q.
Proof.
  induction idx as [|i idx IH]; intros s d l Q Hl K Hd Hdl Hi HP HN HQ; cbn [freevm_loop].
  { apply wp_intro_ret, HQ; [apply mframe_refl|done|done]. }
  unfold load32. apply wp_gets. change (ld32 (mem s) (d + 4 * i)) with (pde_of (mem s) d i).
  cbn [omap list_omap] in *. destruct (has (pde_of (mem s) d i) PTE_P) eqn:Eh.
  - assert (Et : ptab (mem s) d i = Some (PTE_ADDR (pde_of (mem s) d i)))
      by (unfold ptab; by rewrite Eh).
    rewrite Et in *. set (p := PTE_ADDR _) in *. cbn [when].
    apply Forall_cons in HP as [Hp HP]. cbn in HN, Hdl. apply NoDup_cons in HN as [Hpn HN].
    rewrite not_elem_of_cons in Hdl. destruct Hdl as [Hdp Hdl].
    apply wp_bind. eapply wp_kfree; [done|exact K|done|set_solver|]. intros K'.
    assert (Ed : forall i, 0 <= i < 1024 -> ptab (mem (after_kfree s p)) d i = ptab (mem s) d i).
    { intros j Hj. unfold ptab. rewrite (pde_of_ext (mem s)); [done| |done].
      intros x Hx. apply after_kfree_agree. by apply (pages_disjoint d p); [apply Hd|apply Hp|..]. }
    assert (Eo : omap (ptab (mem (after_kfree s p)) d) idx = omap (ptab (mem s) d) idx).
    { apply omap_ext_in. intros j Hj. apply Ed, Hi. set_solver. }
    apply (IH (after_kfree s p) d (p :: l)); rewrite ?Eo; try done.
    + set_solver.
    + intros; apply Hi; set_solver.
    + rewrite <- Permutation_middle. by constructor.
    + intros s' F' Ks' A'. apply HQ.
      * eapply mframe_trans; [|exact F']. auto with vm.
      * cbn [rev]. by rewrite <- app_assoc.
      * intros q x Hq Hqn Hx. rewrite not_elem_of_cons in Hqn. rewrite (A' q x); [|done|tauto|done].
        apply after_kfree_agree. apply (pages_disjoint q p); [apply Hq|apply Hp|tauto|done].
  - assert (Et : ptab (mem s) d i = None) by (unfold ptab; by rewrite Eh).
    rewrite Et in *. cbn [when]. apply wp_bind, wp_intro_ret.
    apply (IH s d l); try done. intros; apply Hi; set_solver.
Qed.

Lemma wp_freevm s d f R l me (Q : unit -> kernel -> Prop) :
  LKmem ∉ held s -> entries_ok f -> curproc s ≫= (ptable s !!.) = Some me ->
  0 <= p_shm me <= USERTOP ->
  let U := upages f 0 (pages_between 0 (p_shm me)) in
  uv_ok s d f (U ++ R) l ->
  (forall s' l', mframe s s' -> keeps R s s' -> kmem_ok s' l' ->
     l' ≡ₚ d :: ptpages (mem s) d ++ U ++ l -> Q tt s') ->
  wp (freevm d) s Q.
Proof.
  intros Hl Hf Hme Hshm U UV HQ. unfold freevm.
  assert (Hd : page_ok d) by (eapply own_page; [apply UV|]; apply elem_of_cons; by left).
  pose proof (page_ok_bounds d Hd) as Hdb. destruct (Z.eqb_spec d 0); [unfold PGSIZE in *; lia|].
  unfold myproc. apply wp_bind. apply wp_gets, wp_gets. rewrite Hme. apply wp_intro_ret.
  apply wp_bind. eapply wp_mono.
  { apply (wp_deallocuvm d (p_shm me) 0 s f R l); try done; lia. }
  intros ? s1 (_ & U1 & S1). change (pages_up 0) with 0 in U1. fold U in U1.
  destruct U1 as [K1 [O1 N1] _]. apply NoDup_cons in N1 as [Nd N1].
  assert (Hp1 : Forall page_ok (ptpages (mem s1) d)).
  { apply Forall_cons in O1 as [_ O1]. by apply Forall_app in O1 as [O1 _]. }
  assert (HR : Forall page_ok R).
  { apply Forall_cons in O1 as [_ O1]. apply Forall_app in O1 as [_ O1]. by apply Forall_app in O1 as [O1 _]. }
  rewrite !elem_of_app in Nd. apply NoDup_app in N1 as (N1a & N1b & N1c).
  apply NoDup_app in N1c as (N1c & N1d & N1e).
  apply wp_bind. apply (wp_freevm_loop pdidx s1 d (rev U ++ l)); try done.
  - rewrite (mframe_held s); [done|apply S1].
  - change (omap (ptab (mem s1) d) pdidx) with (ptpages (mem s1) d). rewrite !elem_of_app. tauto.
  - intros i. apply elem_of_pdidx.
  - apply NoDup_app. split_and!; [done| |done]. intros x Hx Hx'. apply (N1b x Hx).
    apply elem_of_app. by right.
  - change (omap (ptab (mem s1) d) pdidx) with (ptpages (mem s1) d).
    intros s2 F2 K2 A2.
    assert (Hnd : d ∉ rev (ptpages (mem s1) d) ++ rev U ++ l).
    { rewrite !elem_of_app. rewrite <- (Permutation_rev (ptpages (mem s1) d)). tauto. }
    eapply wp_kfree; [|exact K2|done|done|].
    { rewrite (mframe_held s1), (mframe_held s); [done|apply S1|done]. }
    intros K3. eapply HQ; [| |exact K3|].
    + eapply mframe_trans; [apply S1|]. eapply mframe_trans; [exact F2|]. auto with vm.
    + eapply keeps_trans; [apply S1|]. intros q x Hq Hx.
      assert (Hqo : page_ok q) by (rewrite Forall_forall in HR; by apply HR).
      rewrite after_kfree_agree, (A2 q); try done.
      * intros Hq'. apply (N1b q Hq'). apply elem_of_app. by left.
      * apply (pages_disjoint q d); [apply Hqo|apply Hd| |done]. intros ->. tauto.
    + rewrite <- (us_tabs _ _ _ _ S1), <- (Permutation_rev (ptpages (mem s1) d)), <- (Permutation_rev U). done.
Qed.

(** *** [copyuvm] *)

(** Page [c] of memory [m'] is a copy of page [p] of memory [m]. *)
Definition page_copy (m m' : Z -> Z) (p c : Z) : Prop :=
  forall o, 0 <= o < PGSIZE -> ld8 m' (c + o) = ld8 m (p + o).

(** The pages [C] are copies of the user pages [0, 1, ...] of [f]. *)
Definition copied (m m' : Z -> Z) (f : Z -> Z) (C : list Z) : Prop :=
  forall j c, C !! j = Some c -> exists p, upage f (Z.of_nat j) = Some p /\ page_copy m m' p c.

(** A page table seen through pages that are kept. *)
Lemma keeps_view R s s' d va :
  keeps R s s' -> d ∈ R -> ptpages (mem s) d ⊆ R ->
  pte_of (mem s') d va = pte_of (mem s) d va /\ pte_slot (mem s') d va = pte_slot (mem s) d va.
Proof.
  intros Kp Hd Ht. split.
  - apply pte_of_ext. intros x [Hx|(p & Hp & Hx)]; [by apply (Kp d)|]. apply (Kp p); [by apply Ht|done].
  - apply pte_slot_ext. intros x Hx. by apply (Kp d).
Qed.

(** The source of a copy: its table and its pages [lo, hi) are among [R]. *)
Record parent_ok (s : kernel) (pg : Z) (f : Z -> Z) (lo hi : Z) (R : list Z) : Prop := {
  pa_view : uvm (mem s) pg f;
  pa_dir : pg ∈ R;
  pa_tabs : ptpages (mem s) pg ⊆ R;
  pa_pages : forall k, lo <= k < hi -> exists p, upage f k = Some p /\ p ∈ R;
  pa_ok : Forall page_ok R }.

(** The parent's table is among the pages in use. *)
Lemma uv_parent_ok s pg f lo hi R l :
  uv_ok s pg f R l -> (forall k, lo <= k < hi -> exists p, upage f k = Some p /\ p ∈ R) ->
  parent_ok s pg f lo hi (pg :: ptpages (mem s) pg ++ R) /\ NoDup ((pg :: ptpages (mem s) pg ++ R) ++ l).
Proof.
  intros [K [Hp Hn] V] Hk. cbn. rewrite <- app_assoc. split; [|done]. split.
  - done.
  - apply elem_of_cons. by left.
  - intros p Hp'. apply elem_of_cons. right. apply elem_of_app. by left.
  - intros k Hk'. destruct (Hk k Hk') as (p & Hpk & HpR). exists p. split; [done|].
    apply elem_of_cons. right. apply elem_of_app. by right.
  - rewrite app_assoc, app_comm_cons in Hp. by apply Forall_app in Hp as [Hp _].
Qed.

Lemma copied_step m m' m'' f C c p :
  copied m m' f C -> (forall c x, c ∈ C -> in_page c x -> m'' x = m' x) ->
  upage f (Z.of_nat (length C)) = Some p -> page_copy m m'' p c -> copied m m'' f (C ++ [c]).
Proof.
  intros HC Hk Hp Hc j c' Hj. apply lookup_app_Some in Hj as [Hj|[Hj Hj']].
  - destruct (HC j c' Hj) as (q & Hq & Hqc). exists q. split; [done|]. intros o Ho.
    rewrite <- Hqc by done. unfold ld8. f_equal. apply (Hk c'); [by eapply list_elem_of_lookup_2|].
    unfold in_page. lia.
  - apply list_lookup_singleton_Some in Hj' as [Hj' <-].
    replace j with (length C) by lia. eauto.
Qed.

(** Copying page [length C] into the fresh page [r]. *)
Lemma wp_uv_copy {B} (K : Z -> M kernel B) s0 s pg d f lo hi C R r l p Q :
  LKmem ∉ held s -> parent_ok s0 pg f lo hi R -> keeps R s0 s ->
  uv_ok s d (map_pages (fun _ => 0) 0 C) (C ++ R) (r :: l) -> copied (mem s0) (mem s) f C ->
  (length C < 160)%nat -> upage f (Z.of_nat (length C)) = Some p -> p ∈ R ->
  page_ok r -> kmem_ok (after_kalloc s r) l ->
  (forall s', uv_ok s' d (map_pages (fun _ => 0) 0 (C ++ [r])) ((C ++ [r]) ++ R) l ->
     uv_step d R s s' -> copied (mem s0) (mem s') f (C ++ [r]) -> wp (K 0) s' Q) ->
  wp (memmove_m r p PGSIZE ;;
      let! x := mappages d (Z.of_nat (length C) * PGSIZE) PGSIZE (PADDR r) (Z.lor PTE_W PTE_U) in K x)
    (after_kalloc s r) Q.
Proof.
  intros Hl Pa Kp U HC Hk Hp HpR Hr Kr HQ. unfold memmove_m. apply wp_modify.
  assert (Em : mem (after_kalloc s r) = mem s) by (unfold after_kalloc; by destruct (r =? 0)).
  rewrite Em.
  destruct (uv_kalloc s d _ r (C ++ R) l (memmove (mem s) r p PGSIZE) U Hr Kr) as [U1 S1].
  { intros x Hx. apply memmove_out; unfold in_page, PGSIZE in *; lia. }
  set (s1 := _ <| mem := _ |>) in *.
  apply wp_bind. unfold PADDR. rewrite page_ok_u32 by done.
  eapply wp_uv_map; [|exact U1|lia| |done|].
  { rewrite (mframe_held s); [done|apply S1]. }
  { rewrite map_pages_beyond by lia. done. }
  intros s2 U2 S2.
  assert (HkC : forall c x, c ∈ r :: C ++ R -> in_page c x -> mem s2 x = mem s1 x).
  { intros c x Hc Hx. by apply (us_keeps _ _ _ _ S2 c). }
  apply HQ.
  - eapply uv_ok_perm; [|eapply uv_ok_ext; [|exact U2]].
    + rewrite <- app_assoc. apply Permutation_middle.
    + intros i _. rewrite map_pages_snoc. done.
  - eapply uv_step_trans; (eapply uv_step_weaken; [|eassumption]); set_solver.
  - apply (copied_step _ (mem s) _ _ _ _ p); [done| |done|].
    + intros c x Hc Hx. rewrite (HkC c x); [|set_solver|done].
      apply (us_keeps _ _ _ _ S1 c); [set_solver|done].
    + intros o Ho. unfold ld8 at 1. rewrite (HkC r); [|set_solver|unfold in_page; lia].
      fold (ld8 (mem s1) (r + o)). cbn. rewrite memmove_correct by (unfold PGSIZE; lia). zdec.
      replace (p + (r + o - r)) with (p + o) by lia. unfold ld8. f_equal.
      apply (Kp p); [done|]. unfold in_page. lia.
Qed.

Lemma pages_between_0 x : 0 <= x -> Z.of_nat (pages_between 0 x) = pages_up x.
Proof.
  intros. unfold pages_between. change (pages_up 0) with 0. rewrite Z.sub_0_r, Z2Nat.id; [done|].
  apply Z.div_pos; unfold PGSIZE; lia.
Qed.

(** What [copyuvm] reads in the parent's table. *)
Lemma parent_entry s0 s pg f lo hi R k :
  parent_ok s0 pg f lo hi R -> keeps R s0 s -> 0 <= lo -> hi <= 160 -> lo <= k < hi ->
  let a := pte_slot (mem s) pg (k * PGSIZE) in
  a <> 0 /\ ld32 (mem s) a = f k /\ has (f k) PTE_P = true /\ PTE_ADDR (f k) ∈ R.
Proof.
  intros Pa Kp Hlo Hhi Hk a.
  destruct (keeps_view R s0 s pg (k * PGSIZE) Kp (pa_dir _ _ _ _ _ _ Pa) (pa_tabs _ _ _ _ _ _ Pa)) as [Ev Es].
  rewrite (uvm_at (mem s0) pg f k) in Ev by (apply Pa || lia).
  destruct (pa_pages _ _ _ _ _ _ Pa k Hk) as (p & Hp & HpR). unfold upage in Hp.
  destruct (has (f k) PTE_P) eqn:Eh; [injection Hp as <-|done].
  unfold pte_of in Ev. fold a in Ev. destruct (Z.eqb_spec a 0) as [E|E].
  - rewrite <- Ev in Eh. done.
  - done.
Qed.

Lemma wp_copyuvm_loop j : forall fuel pg d sz s0 s f C R l me,
  (j < fuel)%nat -> LKmem ∉ held s -> curproc s ≫= (ptable s !!.) = Some me ->
  0 <= sz <= p_shm me -> p_shm me <= USERTOP -> (length C + j)%nat = pages_between 0 sz ->
  parent_ok s0 pg f 0 (pages_up sz) R -> keeps R s0 s ->
  uv_ok s d (map_pages (fun _ => 0) 0 C) (C ++ R) l -> copied (mem s0) (mem s) f C ->
  wp (copyuvm_loop fuel pg d sz (Z.of_nat (length C) * PGSIZE)) s (fun r s' =>
    mframe s s' /\ keeps R s0 s' /\
    ((r = d /\ exists N l', l = N ++ l' /\ length N = j /\
        uv_ok s' d (map_pages (fun _ => 0) 0 (C ++ N)) (C ++ N ++ R) l' /\
        copied (mem s0) (mem s') f (C ++ N)) \/
     (r = 0 /\ (length l < j)%nat /\
        exists l', kmem_ok s' l' /\ l' ≡ₚ d :: ptpages (mem s) d ++ C ++ l))).
Proof.
  induction j as [|j IH]; intros fuel pg d sz s0 s f C R l me Hfuel Hl Hme Hsz Htop Hn Pa Kp U HC;
    (destruct fuel as [|fuel]; [lia|]); cbn [copyuvm_loop];
    pose proof (pages_between_0 sz ltac:(lia)) as En; pose proof (pages_up_bounds sz ltac:(lia)) as Hb.
  { destruct (Z.ltb_spec (Z.of_nat (length C) * PGSIZE) sz); [unfold PGSIZE in *; lia|].
    apply wp_intro_ret. split_and!; [apply mframe_refl|done|]. left. split; [done|].
    exists [], l. rewrite app_nil_r. done. }
  destruct (Z.ltb_spec (Z.of_nat (length C) * PGSIZE) sz); [|unfold PGSIZE in *; lia].
  apply wp_bind. eapply wp_run; [apply walkpgdir_lookup|].
  destruct (parent_entry s0 s pg f 0 (pages_up sz) R (Z.of_nat (length C)) Pa Kp ltac:(lia) ltac:(lia) ltac:(lia))
    as (Hnz & Ev & Eh & HpR).
  destruct (Z.eqb_spec (pte_slot (mem s) pg (Z.of_nat (length C) * PGSIZE)) 0); [done|].
  unfold load32. apply wp_gets. rewrite Ev, Eh. cbn [negb].
  apply wp_bind. eapply wp_kalloc; [done|apply U| |].
  - intros ->. cbn [Z.eqb]. apply wp_bind.
    assert (Ep : upages (map_pages (fun _ => 0) 0 C) 0 (pages_between 0 (p_shm me)) = C).
    { apply upages_map_pages; [by eapply uv_pages_ok| |done].
      pose proof (pages_between_0 (p_shm me) ltac:(lia)).
      assert (pages_up sz <= pages_up (p_shm me)) by (apply Z.div_le_mono; unfold PGSIZE; lia). lia. }
    apply (wp_freevm s d (map_pages (fun _ => 0) 0 C) R [] me); try done; try lia.
    + apply entries_ok_map; [done|by eapply uv_pages_ok].
    + by rewrite Ep.
    + rewrite Ep. intros s' l' F' K' Km El. apply wp_intro_ret.
      split_and!; [done|by eapply keeps_trans|]. right. split; [done|]. split; [cbn; lia|]. eauto.
  - intros r l' -> Hr Kr _. pose proof (page_ok_bounds r Hr).
    destruct (Z.eqb_spec r 0); [unfold PGSIZE in *; lia|].
    eapply (wp_uv_copy _ s0 s pg d f 0 (pages_up sz) C R r l'); try done; [lia|unfold upage; by rewrite Eh|].
    intros s1 U1 S1 HC1. cbn [Z.ltb Z.compare]. rewrite u32_small by (unfold USERTOP, PGSIZE in *; lia).
    replace (Z.of_nat (length C) * PGSIZE + PGSIZE) with (Z.of_nat (length (C ++ [r])) * PGSIZE)
      by (rewrite length_app; cbn; lia).
    eapply wp_mono.
    + apply (IH fuel pg d sz s0 s1 f (C ++ [r]) R l' me); try done.
      * lia.
      * rewrite (mframe_held s); [done|apply S1].
      * destruct (mframe_curproc s s1) as [-> ->]; [apply S1|done].
      * rewrite length_app. cbn. lia.
      * eapply keeps_trans; [exact Kp|apply S1].
    + intros ret s2 (F2 & K2 & Hret). split_and!; [eapply mframe_trans; [apply S1|done]|done|].
      destruct Hret as [(-> & N & l2 & -> & HN & U2 & HC2)|(-> & Hlen & l2 & Km & El)]; [left|right].
      * split; [done|]. exists (r :: N), l2. rewrite <- !app_assoc in *. cbn in *.
        split_and!; [done|lia|done|done].
      * split; [done|]. split; [cbn; lia|]. exists l2. split; [done|].
        rewrite El, (us_tabs _ _ _ _ S1), <- app_assoc. done.
Qed.

(** A page table that [setupkvm] just made. *)
Lemma kvm_uv_ok s s' d R l l' : kvm_ok s s' d R l l' -> uv_ok s' d (fun _ => 0) R l'.
Proof.
  intros [Hd F K O Us Kp Pg V]. split; [done|done|]. intros va Hva. rewrite V by done.
  destruct (Z.ltb_spec va USERTOP); [|done]. unfold kernel_pte. pose proof link_data.
  unfold USERTOP, PHYSTOP in *. zdec. done.
Qed.

(** *** [copyout] *)

(** The physical address of user address [va]. *)
Definition upa (f : Z -> Z) (va : Z) : Z := PTE_ADDR (f (va / PGSIZE)) + va mod PGSIZE.

(** The pages [k, k + n) are user pages: present, and with [PTE_U]. *)
Definition user_pages (f : Z -> Z) (lo hi : Z) : Prop :=
  forall va, lo <= va < hi -> has (f (va / PGSIZE)) PTE_P = true /\ has (f (va / PGSIZE)) PTE_U = true.

Lemma put_bytes_out l : forall m a x, x < a \/ a + Z.of_nat (length l) <= x -> put_bytes m a l x = m x.
Proof.
  induction l as [|c l IH]; intros m a x Hx; cbn in *; [done|].
  rewrite IH by lia. unfold st8. destruct (Z.eqb_spec x a); [lia|done].
Qed.

Lemma put_bytes_in l : forall m a i c, l !! i = Some c -> ld8 (put_bytes m a l) (a + Z.of_nat i) = u8 c.
Proof.
  induction l as [|c l IH]; intros m a i c' Hi; [done|]. cbn. destruct i as [|i]; cbn in Hi.
  - injection Hi as ->. rewrite Z.add_0_r. unfold ld8. rewrite put_bytes_out by lia.
    unfold st8. rewrite Z.eqb_refl. apply u8_small, u8_range.
  - replace (a + Z.of_nat (S i)) with (a + 1 + Z.of_nat i) by lia. by apply IH.
Qed.

Lemma elem_of_zseq n : forall k i, i ∈ zseq k n <-> k <= i < k + Z.of_nat n.
Proof.
  induction n as [|n IH]; intros k i; cbn [zseq].
  - split; [by intros ?%elem_of_nil|lia].
  - rewrite elem_of_cons, IH. lia.
Qed.

Lemma upages_in f k n i p : k <= i < k + Z.of_nat n -> upage f i = Some p -> p ∈ upages f k n.
Proof. intros Hi Hp. apply list_elem_of_omap. exists i. by rewrite elem_of_zseq. Qed.

(** Different user addresses have different physical addresses. *)
Lemma upa_inj s d f R l va va' :
  uv_ok s d f (upages f 0 NUSER ++ R) l -> 0 <= va < USERTOP -> 0 <= va' < USERTOP ->
  has (f (va / PGSIZE)) PTE_P = true -> has (f (va' / PGSIZE)) PTE_P = true ->
  upa f va = upa f va' -> va = va'.
Proof.
  intros [_ [Hp N] _] Hva Hva' Eh Eh' E. unfold upa, USERTOP, PGSIZE in *.
  assert (Ep : PTE_ADDR (f (va / 4096)) = PTE_ADDR (f (va' / 4096))).
  { pose proof (PTE_ADDR_aligned (f (va / 4096))) as A. pose proof (PTE_ADDR_aligned (f (va' / 4096))) as A'.
    apply Z.mod_divide in A as [a A], A' as [a' A']; try lia. rewrite A, A' in *.
    Z.div_mod_to_equations. lia. }
  assert (Ek : va / 4096 = va' / 4096).
  { apply NoDup_cons in N as [_ N]. apply NoDup_app in N as (_ & _ & N).
    apply NoDup_app in N as (N & _). apply NoDup_app in N as (N & _).
    apply (NoDup_omap_inj (upage f) (zseq 0 NUSER) _ _ (PTE_ADDR (f (va / 4096)))); try done.
    - apply elem_of_zseq. rewrite NUSER_eq. Z.div_mod_to_equations; lia.
    - apply elem_of_zseq. rewrite NUSER_eq. Z.div_mod_to_equations; lia.
    - unfold upage. by rewrite Eh.
    - unfold upage. by rewrite Eh', Ep. }
  rewrite Ek in E. Z.div_mod_to_equations. lia.
Qed.

Lemma wp_uva2ka s d f R l va (Q : Z -> kernel -> Prop) :
  uv_ok s d f R l -> 0 <= va < USERTOP ->
  Q (if has (f (va / PGSIZE)) PTE_P && has (f (va / PGSIZE)) PTE_U
     then PTE_ADDR (f (va / PGSIZE)) else 0) s ->
  wp (uva2ka d va) s Q.
Proof.
  intros U Hva HQ. unfold uva2ka. apply wp_bind. eapply wp_run; [apply walkpgdir_lookup|].
  destruct (uvm_ptab _ _ _ (uv_view _ _ _ _ _ U)) as [p Hp].
  rewrite <- (PDX_lt_4M va) in Hp by (unfold USERTOP in *; lia).
  destruct (ptab_slot_nz _ _ _ _ _ _ (uv_own _ _ _ _ _ U) Hp) as (_ & _ & Hnz).
  destruct (Z.eqb_spec (pte_slot (mem s) d va) 0); [done|].
  unfold load32. apply wp_gets.
  assert (Ev : ld32 (mem s) (pte_slot (mem s) d va) = f (va / PGSIZE)).
  { pose proof (uv_view _ _ _ _ _ U va ltac:(unfold USERTOP in *; lia)) as V. unfold pte_of in V.
    destruct (Z.eqb_spec (pte_slot (mem s) d va) 0); [done|]. rewrite V.
    destruct (Z.ltb_spec va USERTOP); [done|lia]. }
  rewrite Ev. destruct (has (f (va / PGSIZE)) PTE_P); cbn [negb andb] in *; [|by apply wp_intro_ret].
  destruct (has (f (va / PGSIZE)) PTE_U); cbn [negb] in *; by apply wp_intro_ret.
Qed.

(** Writing inside a user page. *)
Lemma uv_write s d f R l p m' :
  uv_ok s d f (p :: R) l -> agree_off (in_page p) (mem s) m' ->
  uv_ok (s <| mem := m' |>) d f (p :: R) l.
Proof.
  intros [K O V] A. destruct (own_uvm_frame _ _ _ _ _ _ _ O V A) as (O' & V' & _).
  split; [|done|done]. eapply (kmem_ok_frame s _ _ (in_page p)); [done|done|done|].
  intros q x Hq Hx Hpx.
  destruct (own_other _ _ p R l q O) as ([Hq1 _] & [Hp1 _] & Hne); [apply elem_of_app; by right|].
  by eapply (pages_disjoint q p).
Qed.

Lemma uv_write_user s d f R l i p m' :
  uv_ok s d f (upages f 0 NUSER ++ R) l -> 0 <= i < 160 -> upage f i = Some p ->
  agree_off (in_page p) (mem s) m' ->
  page_ok p /\ uv_ok (s <| mem := m' |>) d f (upages f 0 NUSER ++ R) l.
Proof.
  intros U Hi Hp A. assert (Hin : p ∈ upages f 0 NUSER) by (eapply upages_in; [|done]; rewrite NUSER_eq; lia).
  apply list_elem_of_split in Hin as (l1 & l2 & E).
  assert (EP : upages f 0 NUSER ++ R ≡ₚ p :: (l1 ++ l2) ++ R).
  { rewrite E, <- !app_assoc. cbn. symmetry. apply Permutation_middle. }
  apply (uv_ok_perm _ _ _ _ _ _ EP) in U. split; [by eapply upages_page_ok|].
  eapply uv_ok_perm; [symmetry; exact EP|]. by apply uv_write.
Qed.

(** The bytes [buf] are at user address [va], and nothing else changed. *)
Record copied_out (f : Z -> Z) (va : Z) (buf : list Z) (m m' : Z -> Z) : Prop := {
  co_in : forall i c, buf !! i = Some c -> ld8 m' (upa f (va + Z.of_nat i)) = u8 c;
  co_out : forall x, (forall i, (i < length buf)%nat -> x <> upa f (va + Z.of_nat i)) -> m' x = m x }.

Lemma upa_same_page f va i :
  0 <= i -> i < PGSIZE - va mod PGSIZE -> upa f (va + i) = upa f va + i.
Proof.
  intros Hi Hp. unfold upa, PGSIZE in *.
  replace ((va + i) / 4096) with (va / 4096) by (Z.div_mod_to_equations; lia).
  replace ((va + i) mod 4096) with (va mod 4096 + i) by (Z.div_mod_to_equations; lia). lia.
Qed.

(** One turn of the loop, then the rest. *)
Lemma copied_out_app s d f R l va buf n m1 m2 :
  uv_ok s d f (upages f 0 NUSER ++ R) l -> 0 <= va -> va + Z.of_nat (length buf) <= USERTOP ->
  user_pages f va (va + Z.of_nat (length buf)) ->
  (n <= length buf)%nat -> Z.of_nat n <= PGSIZE - va mod PGSIZE ->
  m1 = put_bytes (mem s) (upa f va) (take n buf) ->
  copied_out f (va + Z.of_nat n) (drop n buf) m1 m2 ->
  copied_out f va buf (mem s) m2.
Proof.
  intros U Hva Htop Hu Hn Hpg -> [Ci Co]. split.
  - intros i c Hi. pose proof (lookup_lt_Some _ _ _ Hi) as Hlen.
    destruct (Nat.lt_ge_cases i n) as [Hin|Hin].
    + unfold ld8. rewrite Co.
      * rewrite upa_same_page by lia. apply put_bytes_in. by rewrite lookup_take_lt.
      * intros j Hj E. rewrite length_drop in Hj.
        assert (va + Z.of_nat i = va + Z.of_nat n + Z.of_nat j); [|lia].
        eapply (upa_inj s d f R l); try done; try lia; apply Hu; lia.
    + replace (va + Z.of_nat i) with (va + Z.of_nat n + Z.of_nat (i - n)) by lia.
      apply Ci. rewrite lookup_drop. by replace (n + (i - n))%nat with i by lia.
  - intros x Hx. rewrite Co.
    + apply put_bytes_out. rewrite length_take. destruct (Z.lt_ge_cases x (upa f va)); [by left|right].
      destruct (Z.lt_ge_cases x (upa f va + Z.of_nat (n `min` length buf))); [|done]. exfalso.
      apply (Hx (Z.to_nat (x - upa f va))); [lia|]. rewrite upa_same_page by lia. lia.
    + intros i Hi. rewrite length_drop in Hi. rewrite <- Z.add_assoc, <- Nat2Z.inj_add. apply Hx. lia.
Qed.

Lemma wp_copyout_loop fuel : forall d va buf s f R l,
  (length buf < fuel)%nat -> uv_ok s d f (upages f 0 NUSER ++ R) l ->
  0 <= va -> va + Z.of_nat (length buf) <= USERTOP ->
  user_pages f va (va + Z.of_nat (length buf)) ->
  wp (copyout_loop fuel d va buf) s (fun r s' =>
    r = 0 /\ (exists m', s' = s <| mem := m' |>) /\ uv_ok s' d f (upages f 0 NUSER ++ R) l /\
    copied_out f va buf (mem s) (mem s')).
Proof.
  induction fuel as [|fuel IH]; intros d va buf s f R l Hfuel U Hva Htop Hu; [lia|].
  cbn [copyout_loop]. destruct buf as [|b buf].
  { apply wp_intro_ret. split_and!; [done| |done|split; done]. exists (mem s). by destruct s. }
  set (buf' := b :: buf) in *. assert (Hlen : (0 < length buf')%nat) by (cbn; lia).
  unfold USERTOP in Htop. rewrite PGROUNDDOWN_spec by lia.
  set (va0 := va / PGSIZE * PGSIZE).
  assert (Hk : 0 <= va / PGSIZE < 160) by (unfold PGSIZE; Z.div_mod_to_equations; lia).
  assert (Eo : va - va0 = va mod PGSIZE) by (unfold va0, PGSIZE; Z.div_mod_to_equations; lia).
  assert (Ho : 0 <= va mod PGSIZE < PGSIZE) by (apply Z.mod_pos_bound; done).
  apply wp_bind. eapply wp_uva2ka; [exact U|unfold va0, USERTOP, PGSIZE in *; lia|].
  replace (va0 / PGSIZE) with (va / PGSIZE) by (unfold va0; by rewrite Z.div_mul).
  destruct (Hu va ltac:(lia)) as [EP EU]. rewrite EP, EU. cbn [andb].
  set (p := PTE_ADDR (f (va / PGSIZE))).
  assert (Hp : upage f (va / PGSIZE) = Some p) by (unfold upage; by rewrite EP).
  set (n := Z.to_nat (Z.min (PGSIZE - (va - va0)) (Z.of_nat (length buf')))).
  assert (Hn : Z.of_nat n = Z.min (PGSIZE - va mod PGSIZE) (Z.of_nat (length buf'))) by lia.
  replace (p + (va - va0)) with (upa f va) by (unfold upa; fold p; lia).
  set (m1 := put_bytes (mem s) (upa f va) (take n buf')).
  destruct (uv_write_user s d f R l (va / PGSIZE) p m1 U Hk Hp) as [Hpo U1].
  { intros x Hx. apply put_bytes_out. rewrite length_take. unfold upa, in_page in *. fold p. lia. }
  pose proof (page_ok_bounds p Hpo) as Hpb. destruct (Z.eqb_spec p 0); [unfold PGSIZE in *; lia|].
  apply wp_modify. fold m1.
  destruct (Nat.eq_dec n (length buf')) as [En|En].
  - rewrite drop_ge by lia. destruct fuel as [|fuel]; [lia|]. cbn [copyout_loop]. apply wp_intro_ret.
    split_and!; [done|by eexists|done|].
    eapply (copied_out_app s d f R l va buf' n m1); try done; try lia.
    rewrite drop_ge by lia. split; done.
  - assert (En' : va0 + PGSIZE = va + Z.of_nat n) by lia.
    rewrite En', u32_small by (unfold PGSIZE in *; lia).
    eapply wp_mono.
    + apply (IH d (va + Z.of_nat n) (drop n buf') _ f R l); try done; rewrite ?length_drop; try lia.
      * unfold USERTOP. lia.
      * intros x Hx. apply Hu. lia.
    + intros r s' (-> & (m' & ->) & U' & CO). split_and!; [done|by eexists|done|].
      eapply (copied_out_app s d f R l va buf' n m1); try done; lia.
Qed.
End VmUser.
