(* ===== verification/VmSpec.v ===== *)
(** What [kernel/vm.c] guarantees about address spaces: the theorems on building,
    growing, shrinking, copying, writing and freeing a page table. *)
From S2P Require Import Prelude Types Mem Kalloc PageTable Cons Vm VmProofs VmUser.

Section VmSpec.
Context `{HL : LinkerOk}.

(** The conditions under which the kernel runs these functions: the allocator's and
    the console's locks are free, and [me] is the running process. *)
Record vm_ready (s : kernel) (me : proc) : Prop := {
  vr_kmem : LKmem ∉ held s;
  vr_cons : cons_ready s;
  vr_proc : curproc s ≫= (ptable s !!.) = Some me;
  vr_shm : 0 <= p_shm me <= USERTOP }.

(** [setupkvm] builds the kernel part of an address space.  Starting from any
    well-formed free list it either returns a directory whose entries are exactly the
    four ranges of [kmap] (identity mapping, read-only kernel text, no [PTE_U]) and
    nothing for user addresses, using 15 pages at most, or returns null because fewer
    than 15 pages were free.  Pages in use elsewhere ([R]) keep their contents. *)
Theorem setupkvm_correct (s : kernel) (R l : list Z) :
  LKmem ∉ held s -> kmem_ok s l -> Forall page_ok (R ++ l) -> NoDup (R ++ l) ->
  wp setupkvm s (fun d s' => mframe s s' /\ keeps R s s' /\
    ((d = 0 /\ (length l < 15)%nat) \/
     exists l', page_ok d /\ kmem_ok s' l' /\ own (mem s') d R l' /\
       d :: ptpages (mem s') d ++ l' ≡ₚ l /\ (length l <= length l' + 15)%nat /\
       forall va, 0 <= va < 2 ^ 32 -> pte_of (mem s') d va = kernel_pte va)).
Proof.
  intros Hl K Hp Hn. apply (wp_setupkvm s R l); try done.
  - intros d s' l' [? ? ? ? ? ? ? ?] Hlen. split_and!; [done..|]. right. by exists l'.
  - intros s' l' F K' Us Kp Hlen. split_and!; [done..|]. by left.
Qed.

(** C20. [allocuvm] grows a user address space.  A size above [proc->shm] is refused
    and a smaller size changes nothing.  Otherwise it maps zero-filled pages, taken
    from the front of the free list, at exactly the pages between the two sizes; or
    memory runs out, and then it returns 0 with the page table as before and every
    page back on the free list.  Kernel entries and other pages are untouched. *)
Theorem allocuvm_correct (s : kernel) (me : proc) (d oldsz newsz : Z) (f : Z -> Z) (R l : list Z) :
  vm_ready s me -> entries_ok f -> uv_ok s d f R l -> 0 <= oldsz ->
  (forall k, pages_up oldsz <= k < pages_up newsz -> f k = 0) ->
  wp (allocuvm d oldsz newsz) s (fun r s' => uv_step d R s s' /\
    if p_shm me <? newsz then r = 0 /\ s' = s
    else if newsz <? oldsz then r = oldsz /\ s' = s
    else
      (r = newsz /\ exists N l', l = N ++ l' /\ length N = pages_between oldsz newsz /\
         uv_ok s' d (map_pages f (pages_up oldsz) N) (N ++ R) l' /\ zero_pages (mem s') N) \/
      (r = 0 /\ (length l < pages_between oldsz newsz)%nat /\ uv_ok s' d f R (rev l))).
Proof.
  intros [Hl Hc Hme Hshm] Hf U Hsz Hz. unfold allocuvm, myproc.
  apply wp_bind, wp_gets, wp_gets. rewrite Hme. apply wp_intro_ret.
  destruct (Z.ltb_spec (p_shm me) newsz).
  { apply wp_intro_ret. split; [apply uv_step_refl|done]. }
  destruct (Z.ltb_spec newsz oldsz).
  { apply wp_intro_ret. split; [apply uv_step_refl|done]. }
  rewrite pages_up_spec by lia.
  replace (pages_up oldsz * PGSIZE) with ((pages_up oldsz + Z.of_nat (length (@nil Z))) * PGSIZE)
    by (cbn; lia).
  eapply wp_mono.
  - apply (wp_allocuvm_loop (pages_between oldsz newsz) _ d oldsz newsz s f _ [] R l); try done; try lia.
    + apply page_fuel_enough; lia.
    + eapply uv_ok_ext; [|exact U]. intros k _. symmetry. apply map_pages_beyond. cbn. lia.
    + by intros p x ?%elem_of_nil.
  - intros r s' [S Hr]. split; [done|]. cbn [app] in Hr. exact Hr.
Qed.

(** Shrinking undoes growing: after a successful [allocuvm] from [oldsz] to [newsz],
    [deallocuvm] back to [oldsz] leaves the page table as it was, and the free list
    with the same pages. *)
Theorem grow_shrink_roundtrip (s : kernel) (me : proc) (d oldsz newsz : Z) (f : Z -> Z) (R l : list Z) :
  vm_ready s me -> entries_ok f -> uv_ok s d f R l -> 0 <= oldsz <= newsz -> newsz <= p_shm me ->
  (forall k, pages_up oldsz <= k < pages_up newsz -> f k = 0) ->
  (pages_between oldsz newsz <= length l)%nat ->
  wp (let! r := allocuvm d oldsz newsz in let! r' := deallocuvm d newsz oldsz in ret (r, r')) s
    (fun rs s' => rs = (newsz, oldsz) /\ uv_step d R s s' /\
       exists l', l' ≡ₚ l /\ uv_ok s' d f R l').
Proof.
  intros [Hl Hc Hme Hshm] Hf U Hsz Hnew Hz Hlen. unfold allocuvm, myproc.
  apply wp_bind, wp_bind, wp_gets, wp_gets. rewrite Hme. apply wp_intro_ret.
  destruct (Z.ltb_spec (p_shm me) newsz); [lia|]. destruct (Z.ltb_spec newsz oldsz); [lia|].
  rewrite pages_up_spec by lia.
  replace (pages_up oldsz * PGSIZE) with ((pages_up oldsz + Z.of_nat (length (@nil Z))) * PGSIZE)
    by (cbn; lia).
  eapply wp_mono.
  - apply (wp_allocuvm_loop (pages_between oldsz newsz) _ d oldsz newsz s f _ [] R l); try done; try lia.
    + apply page_fuel_enough; lia.
    + eapply uv_ok_ext; [|exact U]. intros k _. symmetry. apply map_pages_beyond. cbn. lia.
    + by intros p x ?%elem_of_nil.
  - intros r s1 [S1 [(-> & N & l1 & -> & HN & U1 & _)|(_ & ? & _)]]; [|lia]. cbn [app] in U1.
    pose proof (pages_between_spec oldsz newsz ltac:(lia) ltac:(lia)) as Ekn.
    assert (EN : upages (map_pages f (pages_up oldsz) N) (pages_up oldsz) (pages_between oldsz newsz) = N).
    { apply upages_map_pages; [by eapply uv_pages_ok|lia|]. intros; apply Hz; lia. }
    apply wp_bind. eapply wp_mono.
    + apply (wp_deallocuvm d newsz oldsz s1 (map_pages f (pages_up oldsz) N) R l1); try done; try lia.
      * rewrite (mframe_held s); [done|apply S1].
      * apply entries_ok_map; [done|by eapply uv_pages_ok].
      * by rewrite EN.
    + rewrite EN. intros r s2 (-> & U2 & S2). apply wp_intro_ret.
      split_and!; [done|by eapply uv_step_trans|]. exists (rev N ++ l1).
      split; [by rewrite <- Permutation_rev|]. eapply uv_ok_ext; [|exact U2].
      intros i _. unfold clear_range.
      destruct (Z.leb_spec (pages_up oldsz) i), (Z.ltb_spec i (pages_up oldsz + Z.of_nat (pages_between oldsz newsz)));
        cbn [andb]; try (rewrite map_pages_beyond by lia; done). rewrite Hz; [done|lia].
Qed.

(** C21. [freevm], called by a process with [proc->shm = p_shm me]: the pages that the directory
    maps below that address, its page tables and the directory itself go back on the free
    list, each once, and no other page changes.  Pages mapped at or above the caller's
    [proc->shm] are not given back: they belong to [R]. *)
Theorem freevm_correct (s : kernel) (me : proc) (d : Z) (f : Z -> Z) (R l : list Z) :
  vm_ready s me -> entries_ok f ->
  let U := upages f 0 (pages_between 0 (p_shm me)) in
  uv_ok s d f (U ++ R) l ->
  wp (freevm d) s (fun _ s' => mframe s s' /\ keeps R s s' /\
    exists l', kmem_ok s' l' /\ l' ≡ₚ d :: ptpages (mem s) d ++ U ++ l).
Proof.
  intros [Hl Hc Hme Hshm] Hf U UV. apply (wp_freevm s d f R l me); try done.
  intros s' l' F K Km El. eauto.
Qed.

(** C5. [copyuvm] gives the child its own copy of the parent's memory.  For a parent
    whose pages below [sz] are all present it returns a page table that maps exactly
    those pages, to fresh pages with the same contents, and leaves the parent's table
    and pages as they were.  It returns null only when the free pages do not suffice for the
    kernel map (15 pages) and the copies, and then the free list holds the same pages as
    before, unless [setupkvm] itself had found fewer than 15. *)
Theorem copyuvm_correct (s : kernel) (me : proc) (pg sz : Z) (f : Z -> Z) (R l : list Z) :
  vm_ready s me -> 0 <= sz <= p_shm me ->
  kmem_ok s l -> NoDup (R ++ l) -> parent_ok s pg f 0 (pages_up sz) R ->
  wp (copyuvm pg sz) s (fun d s' => mframe s s' /\ keeps R s s' /\
    ((d = 0 /\ (length l < 15 + pages_between 0 sz)%nat /\ exists l', kmem_ok s' l' /\ (l' ≡ₚ l \/ (length l < 15)%nat)) \/
     page_ok d /\ exists C l', length C = pages_between 0 sz /\
       uv_ok s' d (map_pages (fun _ => 0) 0 C) (C ++ R) l' /\ copied (mem s) (mem s') f C)).
Proof.
  intros [Hl Hc Hme Hshm] Hsz K N Pa. unfold copyuvm. apply wp_bind.
  apply (wp_setupkvm s R l); try done.
  { apply Forall_app. split; [apply Pa|apply K]. }
  2:{ intros s' l' F K' Us Kp Hlen. cbn. apply wp_intro_ret. split_and!; [done..|].
      left. split_and!; [done|lia|]. exists l'. auto. }
  intros d s1 l1 Kv Hl1. pose proof (kvm_uv_ok _ _ _ _ _ _ Kv) as U1.
  destruct Kv as [Hd F1 K1 O1 Us1 Kp1 Pg1 V1]. pose proof (page_ok_bounds d Hd) as Hdb.
  destruct (Z.eqb_spec d 0); [unfold PGSIZE in *; lia|].
  change 0 with (Z.of_nat (length (@nil Z)) * PGSIZE). eapply wp_mono.
  - apply (wp_copyuvm_loop (pages_between 0 sz) _ pg d sz s s1 f [] R l1 me); try done; try lia.
    + apply page_fuel_enough; lia.
    + by rewrite (mframe_held s).
    + by destruct (mframe_curproc s s1 F1) as [-> ->].
    + eapply uv_ok_ext; [|exact U1]. intros k _. symmetry. apply map_pages_beyond. cbn. lia.
  - intros r s2 (F2 & K2 & Hr). split_and!; [by eapply mframe_trans|done|].
    destruct Hr as [(-> & C & l2 & -> & HC & U2 & CC)|(-> & Hs & l2 & Km & El)]; [right|left].
    + split; [done|]. exists C, l2. by rewrite HC.
    + split_and!; [done|cbn [length]; rewrite Z.mul_0_l; lia|]. exists l2. split; [done|]. left. by rewrite El, <- Pg1.
Qed.

(** C22. [copyout] writes the bytes it is given at the user address it is given: when
    every page of the range is a user page it returns 0, each byte can be read back
    through the page table, no other byte of memory changes, and the page table stays
    valid. *)
Theorem copyout_correct (s : kernel) (d va : Z) (p : list Z) (f : Z -> Z) (R l : list Z) :
  uv_ok s d f (upages f 0 NUSER ++ R) l -> 0 <= va -> va + Z.of_nat (length p) <= USERTOP ->
  user_pages f va (va + Z.of_nat (length p)) ->
  wp (copyout d va p) s (fun r s' =>
    r = 0 /\ (exists m', s' = s <| mem := m' |>) /\ uv_ok s' d f (upages f 0 NUSER ++ R) l /\
    copied_out f va p (mem s) (mem s')).
Proof. intros U Hva Htop Hu. unfold copyout. apply (wp_copyout_loop _ d va p s f R l); try done. lia. Qed.
End VmSpec.

(** ** Examples

    A machine with 40 free pages, the page table [setupkvm] makes on it, and an address
    space of three pages. *)
Definition linker1 : Linker := {| sym_end := 0xF00000; sym_data := 0x110000 |}.
Lemma linker1_ok : @LinkerOk linker1.
Proof. split; vm_compute; intuition congruence. Qed.

Definition pages1 : list Z := pages_from 0xF00000 40.
Definition me1 : proc := proc0 <| p_shm := USERTOP |> <| p_state := RUNNING |>.
Definition kernel1 : kernel :=
  fold_right (fun p s => after_kfree s p)
    (kernel0 <| curproc := Some 0%nat |> <| ptable := me1 :: replicate 63 proc0 |>) pages1.

Lemma kernel1_ok : @kmem_ok linker1 kernel1 pages1.
Proof.
  unfold kernel1.
  assert (Hp : Forall (@page_ok linker1) pages1) by (repeat constructor; vm_compute; congruence).
  assert (Hn : NoDup pages1) by (apply (bool_decide_unpack _); vm_compute; exact I).
  induction pages1 as [|p ps IH]; cbn [fold_right]; [by split|].
  apply Forall_cons in Hp as [Hp Hps]. apply NoDup_cons in Hn as [Hn Hns].
  apply (@kmem_ok_kfree linker1 linker1_ok); auto.
Qed.

Lemma kernel1_frame : held kernel1 = [] /\ kcons kernel1 = kcons kernel0 /\
  curproc kernel1 = Some 0%nat /\ ptable kernel1 = me1 :: replicate 63 proc0.
Proof. unfold kernel1. induction pages1 as [|p ps IH]; [done|]. exact IH. Qed.

Lemma kernel1_rest : pgdir_table kernel1 = replicate NPROC (mkRefs 0 0) /\ nextpid kernel1 = 1 /\
  icache kernel1 = replicate NINODE inode0 /\ initproc kernel1 = None.
Proof. unfold kernel1. induction pages1 as [|p ps IH]; [done|]. exact IH. Qed.

#[global] Opaque kernel1.

Lemma kernel1_kmem_free : LKmem ∉ held kernel1.
Proof. destruct kernel1_frame as (-> & _). set_solver. Qed.

Lemma vm_ready1 s : mframe kernel1 s -> vm_ready s me1.
Proof.
  intros F. destruct kernel1_frame as (Hh & Hc & Hcp & Hpt).
  destruct (mframe_curproc _ _ F) as [E1 E2]. split; [| | |vm_compute; intuition congruence].
  - rewrite (mframe_held _ _ F), Hh. set_solver.
  - eapply mframe_cons_ready; [exact F|]. split; [by rewrite Hc|rewrite Hh; set_solver].
  - by rewrite E1, E2, Hcp, Hpt.
Qed.

Lemma pages1_ok : Forall (@page_ok linker1) ([] ++ pages1) /\ NoDup ([] ++ pages1).
Proof. destruct kernel1_ok. done. Qed.

Lemma setupkvm_correct_witness :
  exists d s', @setupkvm linker1 kernel1 = Ret d s' /\ d <> 0 /\
    (forall va, 0 <= va < USERTOP -> pte_of (mem s') d va = 0).
Proof.
  pose proof (@setupkvm_correct linker1 linker1_ok kernel1 [] pages1 kernel1_kmem_free
    kernel1_ok (proj1 pages1_ok) (proj2 pages1_ok)) as H.
  destruct (wp_elim _ _ _ H) as (d & s' & E & _ & _ & Hr).
  exists d, s'. split; [exact E|]. destruct Hr as [[_ Hr]|(l' & Hd & _ & _ & _ & _ & V)].
  - exfalso. revert Hr. change (length pages1) with 40%nat. lia.
  - split.
    + apply (@page_ok_bounds linker1 linker1_ok) in Hd. lia.
    + intros va Hva. rewrite V by (unfold USERTOP in *; lia). unfold kernel_pte, USERTOP, PHYSTOP in *.
      change (@sym_data linker1) with 0x110000. zdec. reflexivity.
Defined.

(** A fresh page table on that machine. *)
Lemma fresh1 : exists s d l, mframe kernel1 s /\ @uv_ok linker1 s d (fun _ => 0) [] l /\
  (25 <= length l)%nat.
Proof.
  assert (W : wp (@setupkvm linker1) kernel1 (fun d s' =>
    exists l', mframe kernel1 s' /\ @uv_ok linker1 s' d (fun _ => 0) [] l' /\ (25 <= length l')%nat)).
  { apply (@wp_setupkvm linker1 linker1_ok kernel1 [] pages1);
      [apply kernel1_kmem_free|apply kernel1_ok|apply pages1_ok|apply pages1_ok| |];
      change (length pages1) with 40%nat.
    - intros d s' l' Kv Hlen. exists l'. split_and!; [apply Kv| |lia].
      by apply (@kvm_uv_ok linker1 linker1_ok) in Kv.
    - intros. lia. }
  destruct (wp_elim _ _ _ W) as (d & s' & _ & l' & ? & ? & ?).
  exists s', d, l'. split_and!; assumption.
Qed.

(** An address space of three pages on it. *)
Lemma space1 : exists s d N l, mframe kernel1 s /\
  @uv_ok linker1 s d (map_pages (fun _ => 0) 0 N) N l /\ length N = 3%nat /\ (22 <= length l)%nat.
Proof.
  destruct fresh1 as (s & d & l & F & U & Hlen). destruct (vm_ready1 s F) as [Hl Hc Hme _].
  assert (W := @wp_allocuvm_loop linker1 linker1_ok 3 4 d 0 0x3000 s (fun _ => 0) 0 [] [] l).
  destruct (wp_elim _ _ _ (W ltac:(lia) Hl Hc ltac:(done) ltac:(lia) ltac:(done) eq_refl eq_refl
    ltac:(done) ltac:(eapply (@uv_ok_ext linker1); [|exact U]; intros; symmetry;
      apply map_pages_beyond; cbn; lia) ltac:(by intros p x ?%elem_of_nil)))
    as (r & s' & _ & S & [(-> & N & l' & -> & HN & U' & _)|(_ & Hs & _)]); [|lia].
  exists s', d, N, l'. cbn in U'. rewrite app_nil_r in U'. rewrite length_app in Hlen.
  split_and!; [|done|done|lia]. eapply mframe_trans; [exact F|apply S].
Qed.

Lemma allocuvm_correct_witness : exists s d s',
  @allocuvm linker1 d 0 0x2001 s = Ret 0x2001 s'.
Proof.
  destruct fresh1 as (s & d & l & F & U & Hlen). exists s, d.
  assert (W := @allocuvm_correct linker1 linker1_ok s me1 d 0 0x2001 (fun _ => 0) [] l
    (vm_ready1 s F) ltac:(done) U ltac:(lia) ltac:(done)).
  destruct (wp_elim _ _ _ W) as (r & s' & E & S & [(-> & N & l' & -> & HN & U' & _)|(_ & Hs & _)]).
  - exists s'. exact E.
  - exfalso. change (pages_between 0 0x2001) with 3%nat in Hs. lia.
Defined.

Lemma grow_shrink_roundtrip_witness : exists s d s1 s2,
  @allocuvm linker1 d 0 0x2001 s = Ret 0x2001 s1 /\ @deallocuvm linker1 d 0x2001 0 s1 = Ret 0 s2.
Proof.
  destruct fresh1 as (s & d & l & F & U & Hlen). exists s, d.
  assert (W := @grow_shrink_roundtrip linker1 linker1_ok s me1 d 0 0x2001 (fun _ => 0) [] l
    (vm_ready1 s F) ltac:(done) U ltac:(lia) ltac:(done) ltac:(done)
    ltac:(change (pages_between 0 0x2001) with 3%nat; lia)).
  apply wp_bind_inv in W. destruct (wp_elim _ _ _ W) as (r & s1 & E1 & W1).
  apply wp_bind_inv in W1. destruct (wp_elim _ _ _ W1) as (r' & s2 & E2 & [= -> ->] & _).
  exists s1, s2. split; assumption.
Defined.

Lemma freevm_correct_witness : exists s d s', @freevm linker1 d s = Ret tt s'.
Proof.
  destruct space1 as (s & d & N & l & F & U & HN & _). exists s, d.
  assert (HP : Forall (@page_ok linker1) N).
  { eapply (@uv_pages_ok linker1). rewrite app_nil_r. exact U. }
  assert (EN : upages (map_pages (fun _ => 0) 0 N) 0 (pages_between 0 (p_shm me1)) = N).
  { apply (@upages_map_pages linker1 linker1_ok); [exact HP|rewrite HN; vm_compute; lia|done]. }
  assert (W := @freevm_correct linker1 linker1_ok s me1 d (map_pages (fun _ => 0) 0 N) [] l
    (vm_ready1 s F) ltac:(apply (@entries_ok_map linker1 linker1_ok); done)
    ltac:(rewrite EN, app_nil_r; exact U)).
  destruct (wp_elim _ _ _ W) as ([] & s' & E & _). exists s'. exact E.
Defined.

(** The pages of that space are present and writable by the user. *)
Lemma space1_entry N k : Forall (@page_ok linker1) N -> length N = 3%nat -> 0 <= k < 3 ->
  exists p, p ∈ N /\ map_pages (fun _ => 0) 0 N k = p + 7 /\
    upage (map_pages (fun _ => 0) 0 N) k = Some p /\ has (p + 7) PTE_U = true.
Proof.
  intros HP HN Hk. destruct (lookup_lt_is_Some_2 N (Z.to_nat k) ltac:(lia)) as [p Hp]. exists p.
  assert (E : map_pages (fun _ => 0) 0 N k = p + 7).
  { unfold map_pages. destruct (Z.leb_spec 0 k); [|lia]. by rewrite Z.sub_0_r, Hp. }
  assert (Hpo : @page_ok linker1 p) by (by eapply Forall_lookup_1).
  destruct (@PTE_user linker1 linker1_ok p Hpo) as [Ea Eh].
  split_and!; [by eapply list_elem_of_lookup_2|done|unfold upage; by rewrite E, Eh, Ea|].
  rewrite has_mk; [done|apply Hpo|lia|unfold PTE_U; lia].
Qed.

Lemma copyuvm_correct_witness : exists s d N c s' C l', @copyuvm linker1 d 0x2001 s = Ret c s' /\ length C = 3%nat /\
  @page_ok linker1 c /\ @uv_ok linker1 s' c (map_pages (fun _ => 0) 0 C) (C ++ d :: ptpages (mem s) d ++ N) l' /\
  copied (mem s) (mem s') (map_pages (fun _ => 0) 0 N) C.
Proof.
  destruct space1 as (s & d & N & l & F & U & HN & Hlen). exists s, d, N.
  assert (HP : Forall (@page_ok linker1) N).
  { eapply (@uv_pages_ok linker1). rewrite app_nil_r. exact U. }
  destruct (@uv_parent_ok linker1 s d (map_pages (fun _ => 0) 0 N) 0 (pages_up 0x2001) N l U) as [Pa ND].
  { change (pages_up 0x2001) with 3. intros k Hk.
    destruct (space1_entry N k HP HN Hk) as (p & Hp & _ & Hu & _). exists p. split; assumption. }
  assert (W := @copyuvm_correct linker1 linker1_ok s me1 d 0x2001 _ _ l (vm_ready1 s F)
    ltac:(cbn; unfold USERTOP; lia) (@uv_kmem _ _ _ _ _ _ U) ND Pa).
  change (pages_between 0 0x2001) with 3%nat in W.
  destruct (wp_elim _ _ _ W) as (c & s' & E & _ & _ & [(_ & Hs & _)|(Hc & C & l' & HC & U' & CC)]); [lia|].
  exists c, s', C, l'. split_and!; assumption.
Defined.

Lemma copyout_correct_witness : exists s d s', copyout d 0xFFE [1; 2; 3; 4] s = Ret 0 s'.
Proof.
  destruct space1 as (s & d & N & l & F & U & HN & _). exists s, d.
  assert (HP : Forall (@page_ok linker1) N).
  { eapply (@uv_pages_ok linker1). rewrite app_nil_r. exact U. }
  assert (EN : upages (map_pages (fun _ => 0) 0 N) 0 NUSER = N).
  { apply (@upages_map_pages linker1 linker1_ok); [exact HP|pose proof NUSER_eq; lia|done]. }
  assert (W := @copyout_correct linker1 linker1_ok s d 0xFFE [1; 2; 3; 4]
    (map_pages (fun _ => 0) 0 N) [] l ltac:(rewrite EN, app_nil_r; exact U) ltac:(lia)
    ltac:(cbn; unfold USERTOP; lia)).
  destruct (wp_elim _ _ _ (W ltac:(
    intros va Hva; cbn in Hva;
    destruct (space1_entry N (va / PGSIZE) HP HN) as (p & Hp & E & Hu & Hus);
      [unfold PGSIZE; Z.div_mod_to_equations; lia|];
    rewrite E; split; [apply (@PTE_user linker1 linker1_ok)|exact Hus];
    rewrite Forall_forall in HP; apply HP, Hp)))
    as (r & s' & E & -> & _).
  exists s'. exact E.
Defined.
