(* ===== verification/Shm.v ===== *)
(** Shared memory segments, the last part of [kernel/vm.c]: [shm_tab] and the pages of
    each process between [proc->shm] and [USERTOP]. *)
From S2P Require Import Prelude Types Mem Kalloc PageTable Cons Vm VmProofs VmUser VmSpec.

(** ** Code *)

Definition MAX_SHM_PGNUM : nat := 4.

(** [*proc = g( *proc )]. *)
Definition upd_myproc (g : proc -> proc) : M kernel unit :=
  let! c := gets curproc in
  match c with
  | Some i => modify (fun s => s <| ptable ::= alter g i |>)
  | None => panic "trap"
  end.

Definition upd_shm (key : nat) (g : shared_mem -> shared_mem) : M kernel unit :=
  modify (fun s => s <| shm_tab ::= alter g key |>).

(** [shm_tab[key]]; the callers have checked [key]. *)
Definition shm_at (key : nat) (s : kernel) : shared_mem :=
  default (mkShm 0 0 []) (shm_tab s !! key).

Definition shm_init : M kernel unit :=
  modify (fun s => s <| shm_tab ::= fmap (fun e => e <| shm_count := 0 |>) |>).

Definition bad_key (key : Z) : bool := (key <? 0) || (Z.of_nat MAX_SHM_KEY <=? key).

Definition shm_key_used (key mask : Z) : bool :=
  if bad_key key then false else Z.testbit mask key.

(** [for (i = 0; i < num_pages; i++) dst[i] = src[i]] on arrays of pointers. *)
Definition copy_ptrs (n : nat) (dst src : list Z) : list Z := take n src ++ drop n dst.

Definition shm_add (key num_pages : Z) (phys_addr : list Z) : M kernel Z :=
  if bad_key key || (num_pages <? 0) || (Z.of_nat MAX_SHM_PGNUM <? num_pages) then ret (-1)
  else
    upd_shm (Z.to_nat key) (fun e =>
      e <| shm_count := 1 |> <| shm_num_pages := num_pages |>
        <| shm_phys_addr ::= fun a => copy_ptrs (Z.to_nat num_pages) a phys_addr |>) ;;
    ret 0.

(** [for (key = 0; key < MAX_SHM_KEY; key++)] *)
Fixpoint shm_add_count_loop (keys : list nat) (mask : Z) : M kernel unit :=
  match keys with
  | [] => ret tt
  | key :: keys' =>
      when (shm_key_used (Z.of_nat key) mask)
        (upd_shm key (fun e => e <| shm_count ::= fun c => s32 (c + 1) |>)) ;;
      shm_add_count_loop keys' mask
  end.
Definition shm_add_count (mask : Z) : M kernel unit :=
  shm_add_count_loop (seq 0 MAX_SHM_KEY) mask.

Section Shm.
Context `{Linker}.

(** [for(; old_shm <= a; a -= PGSIZE)]: from the top page down. *)
Fixpoint deallocshm_loop (fuel : nat) (pgdir old_shm a : Z) : M kernel unit :=
  match fuel with
  | O => spin
  | S fuel' =>
      if old_shm <=? a then
        let! pte := walkpgdir pgdir a false in
        when (negb (pte =? 0))
          (let! v := load32 pte in
           when (has v PTE_P)
             (let pa := PTE_ADDR v in
              if pa =? 0 then panic "kfree" else store32 pte 0)) ;;
        deallocshm_loop fuel' pgdir old_shm (u32 (a - PGSIZE))
      else ret tt
  end.

Definition deallocshm (pgdir old_shm new_shm : Z) : M kernel Z :=
  if new_shm <=? old_shm then ret old_shm
  else
    deallocshm_loop (page_fuel new_shm) pgdir old_shm (PGROUNDDOWN (new_shm - PGSIZE)) ;;
    ret new_shm.

Definition shm_bad_range (old_shm new_shm sz : Z) : bool :=
  has old_shm 0xFFF || has new_shm 0xFFF || (USERTOP <? old_shm) || (new_shm <? sz).

(** [i] counts the pages; the array [phys_addr] is returned beside the result. *)
Fixpoint allocshm_loop (fuel : nat) (pgdir old_shm new_shm a : Z) (i : nat) (phys_addr : list Z)
    : M kernel (Z * list Z) :=
  match fuel with
  | O => spin
  | S fuel' =>
      if a <? old_shm then
        let! m := kalloc in
        if m =? 0 then
          cprintf "allocshm out of memory
" [] ;;
          deallocshm pgdir new_shm old_shm ;;
          ret (0, phys_addr)
        else
          memset_m m 0 PGSIZE ;;
          mappages pgdir a PGSIZE (PADDR m) (Z.lor PTE_W PTE_U) ;;
          allocshm_loop fuel' pgdir old_shm new_shm (u32 (a + PGSIZE)) (S i) (<[i := m]> phys_addr)
      else ret (new_shm, phys_addr)
  end.

Definition allocshm (pgdir old_shm new_shm sz : Z) (phys_addr : list Z) : M kernel (Z * list Z) :=
  if shm_bad_range old_shm new_shm sz then ret (0, phys_addr)
  else allocshm_loop (page_fuel old_shm) pgdir old_shm new_shm new_shm 0 phys_addr.

Fixpoint copyshm_loop (fuel : nat) (pgdir_src shm pgdir_dst i : Z) : M kernel Z :=
  match fuel with
  | O => spin
  | S fuel' =>
      if i <? USERTOP then
        let! pte := walkpgdir pgdir_src i false in
        if pte =? 0 then panic "copyshm: pte should exist"
        else
          let! v := load32 pte in
          if negb (has v PTE_P) then panic "copyshm: page not present"
          else
            let pa := PTE_ADDR v in
            let! r := mappages pgdir_dst i PGSIZE pa (Z.lor PTE_W PTE_U) in
            if r <? 0 then deallocshm pgdir_dst shm USERTOP ;; ret (-1)
            else copyshm_loop fuel' pgdir_src shm pgdir_dst (u32 (i + PGSIZE))
      else ret 0
  end.

Definition copyshm (pgdir_src shm pgdir_dst : Z) : M kernel Z :=
  copyshm_loop (page_fuel USERTOP) pgdir_src shm pgdir_dst shm.

Fixpoint mapshm_loop (fuel : nat) (pgdir old_shm a : Z) (i : nat) (phys_addr : list Z) : M kernel unit :=
  match fuel with
  | O => spin
  | S fuel' =>
      if a <? old_shm then
        mappages pgdir a PGSIZE (PADDR (default 0 (phys_addr !! i))) (Z.lor PTE_W PTE_U) ;;
        mapshm_loop fuel' pgdir old_shm (u32 (a + PGSIZE)) (S i) phys_addr
      else ret tt
  end.

Definition mapshm (pgdir old_shm new_shm sz : Z) (phys_addr : list Z) : M kernel Z :=
  if shm_bad_range old_shm new_shm sz then ret 0
  else mapshm_loop (page_fuel old_shm) pgdir old_shm new_shm 0 phys_addr ;; ret new_shm.

(** [junk] is what the stack holds where the local array [phys_addr] is. *)
Definition shmgetat (junk : list Z) (key num_pages : Z) : M kernel Z :=
  if bad_key key || (num_pages <? 0) || (Z.of_nat MAX_SHM_PGNUM <? num_pages) then ret (u32 (-1))
  else
    let k := Z.to_nat key in
    let! me := myproc in
    if Z.testbit (p_shm_key_mask me) key then ret (default 0 (p_shm_va me !! k))
    else
      let! e := gets (shm_at k) in
      let! shm :=
        if shm_count e =? 0 then
          let! ' (shm, phys_addr) := allocshm (p_pgdir me) (p_shm me)
                (u32 (p_shm me - num_pages * PGSIZE)) (p_sz me) junk in
          if shm =? 0 then ret 0
          else
            upd_myproc (fun p => p <| p_shm_va ::= <[k := shm]> |>) ;;
            shm_add key num_pages phys_addr ;;
            ret shm
        else
          let phys_addr := copy_ptrs (Z.to_nat num_pages) junk (shm_phys_addr e) in
          let num_pages := shm_num_pages e in
          let! shm := mapshm (p_pgdir me) (p_shm me) (u32 (p_shm me - num_pages * PGSIZE))
                (p_sz me) phys_addr in
          if shm =? 0 then ret 0
          else
            upd_myproc (fun p => p <| p_shm_va ::= <[k := shm]> |>) ;;
            upd_shm k (fun e => e <| shm_count ::= fun c => s32 (c + 1) |>) ;;
            ret shm in
      if shm =? 0 then ret (u32 (-1))
      else
        upd_myproc (fun p => p <| p_shm := shm |> <| p_shm_key_mask ::= fun m => Z.lor m (Z.shiftl 1 key) |>) ;;
        ret shm.

Fixpoint kfree_all (l : list Z) : M kernel unit :=
  match l with [] => ret tt | p :: l' => kfree p ;; kfree_all l' end.

Definition shm_rm (key : Z) : M kernel Z :=
  if bad_key key then ret (-1)
  else
    let k := Z.to_nat key in
    let! e := gets (shm_at k) in
    kfree_all (take (Z.to_nat (shm_num_pages e)) (shm_phys_addr e)) ;;
    upd_shm k (fun e => e <| shm_count := 0 |>) ;;
    ret 0.

Fixpoint shm_release_loop (keys : list nat) (key_mask : Z) : M kernel unit :=
  match keys with
  | [] => ret tt
  | k :: keys' =>
      when (shm_key_used (Z.of_nat k) key_mask)
        (upd_shm k (fun e => e <| shm_count ::= fun c => s32 (c - 1) |>) ;;
         let! e := gets (shm_at k) in
         when (shm_count e =? 0) (shm_rm (Z.of_nat k) ;; ret tt)) ;;
      shm_release_loop keys' key_mask
  end.

Definition shm_release (pgdir shm key_mask : Z) : M kernel Z :=
  deallocshm pgdir shm USERTOP ;;
  shm_release_loop (seq 0 MAX_SHM_KEY) key_mask ;;
  ret 0.

Definition shm_refcount (key : Z) : M kernel Z :=
  if bad_key key then ret (-1) else gets (fun s => shm_count (shm_at (Z.to_nat key) s)).
End Shm.
