(* ===== verification/ShmProofs.v ===== *)
(** Correctness of shared memory: creating, attaching, inheriting and releasing a
    segment. *)
From S2P Require Import Prelude Types Mem Kalloc PageTable Cons Vm VmProofs VmUser VmSpec Shm.

Section ShmProofs.
Context `{HL : LinkerOk}.

(** What a lookup of user page [k] reads. *)
Lemma uv_lookup s d f R l k :
  uv_ok s d f R l -> 0 <= k < 160 ->
  let a := pte_slot (mem s) d (k * PGSIZE) in a <> 0 /\ ld32 (mem s) a = f k.
Proof.
  intros [K O V] Hk a. destruct (uvm_ptab _ _ _ V) as [p Hp]. rewrite <- (user_PDX k Hk) in Hp.
  destruct (ptab_slot_nz _ _ _ _ _ _ O Hp) as (_ & _ & Hnz). split; [done|].
  rewrite <- (uvm_at (mem s) d f k V Hk). unfold pte_of. fold a.
  by destruct (Z.eqb_spec a 0).
Qed.

(** The pages of entries [k, k + n) are among [R]. *)
Definition pages_in (f : Z -> Z) (k : Z) (n : nat) (R : list Z) : Prop :=
  forall i p, k <= i < k + Z.of_nat n -> upage f i = Some p -> p ∈ R.

Lemma R_page_ok s d f R l p : uv_ok s d f R l -> p ∈ R -> page_ok p.
Proof.
  intros [_ O _] Hp. eapply own_page; [exact O|]. rewrite elem_of_cons, !elem_of_app. auto.
Qed.

(** *** [deallocshm] *)
Lemma clear_range_last f k n i :
  clear_range (set_entry f (k + Z.of_nat n) 0) k n i = clear_range f k (S n) i.
Proof.
  unfold clear_range, set_entry.
  destruct (Z.leb_spec k i), (Z.ltb_spec i (k + Z.of_nat n)),
    (Z.ltb_spec i (k + Z.of_nat (S n))), (Z.eqb_spec i (k + Z.of_nat n)); cbn [andb]; try lia; done.
Qed.

Lemma clear_range_last_absent f k n i :
  f (k + Z.of_nat n) = 0 -> clear_range f k n i = clear_range f k (S n) i.
Proof.
  intros Hf. rewrite <- clear_range_last. unfold clear_range, set_entry.
  destruct (Z.eqb_spec i (k + Z.of_nat n)) as [->|]; by rewrite ?Hf.
Qed.

Lemma clear_range_0 f k i : clear_range f k 0 i = f i.
Proof.
  unfold clear_range. destruct (Z.leb_spec k i), (Z.ltb_spec i (k + Z.of_nat 0)); cbn [andb]; done || lia.
Qed.

Lemma wp_deallocshm_loop n : forall fuel d k s f R l,
  (n < fuel)%nat -> uv_ok s d f R l -> entries_ok f -> pages_in f k n R ->
  1 <= k -> k + Z.of_nat n <= 160 ->
  wp (deallocshm_loop fuel d (k * PGSIZE) ((k + Z.of_nat n - 1) * PGSIZE)) s (fun _ s' =>
    uv_ok s' d (clear_range f k n) R l /\ uv_step d R s s').
Proof.
  induction n as [|n IH]; intros fuel d k s f R l Hfuel U Hf Hin Hk Hkn;
    (destruct fuel as [|fuel]; [lia|]); cbn [deallocshm_loop].
  { destruct (Z.leb_spec (k * PGSIZE) ((k + Z.of_nat 0 - 1) * PGSIZE)); [unfold PGSIZE in *; lia|].
    apply wp_intro_ret. split; [|apply uv_step_refl]. eapply uv_ok_ext; [|exact U].
    intros i _. by rewrite clear_range_0. }
  destruct (Z.leb_spec (k * PGSIZE) ((k + Z.of_nat (S n) - 1) * PGSIZE)); [|unfold PGSIZE in *; lia].
  replace (k + Z.of_nat (S n) - 1) with (k + Z.of_nat n) by lia.
  apply wp_bind. eapply wp_run; [apply walkpgdir_lookup|].
  destruct (uv_lookup s d f R l (k + Z.of_nat n) U ltac:(lia)) as [Hnz Ev].
  destruct (Z.eqb_spec (pte_slot (mem s) d ((k + Z.of_nat n) * PGSIZE)) 0); [done|]. cbn [negb when].
  apply wp_bind. unfold load32. apply wp_gets. rewrite Ev.
  replace (u32 ((k + Z.of_nat n) * PGSIZE - PGSIZE)) with ((k + Z.of_nat n - 1) * PGSIZE)
    by (rewrite u32_small; unfold PGSIZE; lia).
  destruct (has (f (k + Z.of_nat n)) PTE_P) eqn:Ep; cbn [when].
  - assert (Hp : page_ok (PTE_ADDR (f (k + Z.of_nat n)))).
    { eapply R_page_ok; [exact U|]. eapply (Hin (k + Z.of_nat n)); [lia|]. unfold upage. by rewrite Ep. }
    pose proof (page_ok_bounds _ Hp). destruct (Z.eqb_spec (PTE_ADDR (f (k + Z.of_nat n))) 0); [lia|].
    destruct (uv_store s d f (k + Z.of_nat n) 0 R l U ltac:(lia) ltac:(lia)) as [U1 S1].
    unfold store32, wp at 1, modify.
    set (s1 := s <| mem := _ |>) in *. eapply wp_mono.
    + apply (IH fuel d k s1 (set_entry f (k + Z.of_nat n) 0) R l); try done; try lia.
      * intros i. unfold set_entry. destruct (i =? _); [done|apply Hf].
      * intros i p Hi. unfold upage, set_entry. destruct (Z.eqb_spec i (k + Z.of_nat n)); [lia|].
        intros Hp'. apply (Hin i p); [lia|done].
    + intros ? s2 [U2 S2]. split; [|by eapply uv_step_trans].
      eapply uv_ok_ext; [|exact U2]. intros i _. apply clear_range_last.
  - apply wp_intro_ret. eapply wp_mono.
    + apply (IH fuel d k s f R l); try done; try lia. intros i p Hi. apply Hin. lia.
    + intros ? s2 [U2 S2]. split; [|done]. eapply uv_ok_ext; [|exact U2].
      intros i _. apply clear_range_last_absent. by apply Hf.
Qed.

Lemma wp_deallocshm d k hi s f R l (Q : Z -> kernel -> Prop) :
  uv_ok s d f R l -> entries_ok f -> 1 <= k <= hi -> hi <= 160 ->
  pages_in f k (Z.to_nat (hi - k)) R ->
  (forall s', uv_ok s' d (clear_range f k (Z.to_nat (hi - k))) R l -> uv_step d R s s' ->
     Q (hi * PGSIZE) s') ->
  wp (deallocshm d (k * PGSIZE) (hi * PGSIZE)) s Q.
Proof.
  intros U Hf Hk Hhi Hin HQ. unfold deallocshm.
  destruct (Z.leb_spec (hi * PGSIZE) (k * PGSIZE)).
  - assert (hi = k) as -> by (unfold PGSIZE in *; lia). apply wp_intro_ret. apply HQ; [|apply uv_step_refl].
    rewrite Z.sub_diag. eapply uv_ok_ext; [|exact U]. intros i _. by rewrite clear_range_0.
  - assert (Ha : PGROUNDDOWN (hi * PGSIZE - PGSIZE) = (k + Z.of_nat (Z.to_nat (hi - k)) - 1) * PGSIZE).
    { rewrite PGROUNDDOWN_aligned; [unfold PGSIZE; lia|unfold PGSIZE in *; lia|].
      replace (hi * PGSIZE - PGSIZE) with ((hi - 1) * PGSIZE) by lia. apply Z_mod_mult. }
    rewrite Ha. apply wp_bind. eapply wp_mono.
    + apply (wp_deallocshm_loop (Z.to_nat (hi - k)) _ d k s f R l); try done; try lia.
      unfold page_fuel. rewrite Z.div_mul by done. lia.
    + intros ? s' [U' S']. apply wp_intro_ret. by apply HQ.
Qed.

(** *** [mapshm]: attaching the pages [P] *)
Lemma wp_mapshm_loop n : forall fuel d k s f P R l ps i,
  (n < fuel)%nat -> LKmem ∉ held s -> 0 <= k -> k + Z.of_nat (length P + n) <= 160 ->
  uv_ok s d (map_pages f k P) R l ->
  (forall j, k + Z.of_nat (length P) <= j < k + Z.of_nat (length P + n) -> has (f j) PTE_P = false) ->
  i = length P -> (length P + n <= length ps)%nat -> take (length P) ps = P ->
  Forall (fun p => p ∈ R) (take (length P + n) ps) ->
  wp (mapshm_loop fuel d ((k + Z.of_nat (length P + n)) * PGSIZE) ((k + Z.of_nat (length P)) * PGSIZE) i ps) s
    (fun _ s' => uv_ok s' d (map_pages f k (take (length P + n) ps)) R l /\ uv_step d R s s').
Proof.
  induction n as [|n IH]; intros fuel d k s f P R l ps i Hfuel Hl Hk Hkn U Hf -> Hlen HP HR;
    (destruct fuel as [|fuel]; [lia|]); cbn [mapshm_loop].
  { destruct (Z.ltb_spec ((k + Z.of_nat (length P)) * PGSIZE) ((k + Z.of_nat (length P + 0)) * PGSIZE));
      [unfold PGSIZE in *; lia|].
    apply wp_intro_ret. split; [|apply uv_step_refl]. by rewrite Nat.add_0_r, HP. }
  destruct (Z.ltb_spec ((k + Z.of_nat (length P)) * PGSIZE) ((k + Z.of_nat (length P + S n)) * PGSIZE));
    [|unfold PGSIZE in *; lia].
  destruct (lookup_lt_is_Some_2 ps (length P) ltac:(lia)) as [p Hp]. rewrite Hp. cbn [default].
  assert (HpR : p ∈ R).
  { rewrite Forall_forall in HR. apply HR. eapply (list_elem_of_lookup_2 _ (length P)).
    rewrite lookup_take_lt by lia. exact Hp. }
  assert (Hpo : page_ok p) by (by eapply R_page_ok).
  apply wp_bind. unfold PADDR. cbn [id]. rewrite page_ok_u32 by done.
  eapply wp_uv_map; [done|exact U|lia| |done|].
  { rewrite map_pages_beyond by lia. apply Hf. lia. }
  intros s1 U1 S1. rewrite u32_small by (unfold PGSIZE; lia).
  assert (ES : take (length (P ++ [p])) ps = P ++ [p]).
  { rewrite length_app. cbn. rewrite Nat.add_1_r, (take_S_r _ _ p) by done. by rewrite HP. }
  replace ((k + Z.of_nat (length P)) * PGSIZE + PGSIZE) with
    ((k + Z.of_nat (length (P ++ [p]))) * PGSIZE) by (rewrite length_app; cbn; lia).
  replace (length P + S n)%nat with (length (P ++ [p]) + n)%nat in * by (rewrite length_app; cbn; lia).
  eapply wp_mono.
  - apply (IH fuel d k s1 f (P ++ [p]) R l ps); try done; try lia.
    + rewrite (mframe_held s); [done|apply S1].
    + eapply uv_ok_ext; [|exact U1]. intros i _. symmetry. apply map_pages_snoc.
    + intros j Hj. apply Hf. rewrite length_app in Hj |- *. cbn [length] in *. lia.
    + rewrite length_app. cbn. lia.
  - intros ? s2 [U2 S2]. split; [done|]. by eapply uv_step_trans.
Qed.

(** *** [allocshm] *)

(** The array after storing [p] at index [n]. *)
Lemma take_snoc_insert (ps P : list Z) p :
  take (length P) ps = P -> (length P < length ps)%nat ->
  take (length (P ++ [p])) (<[length P := p]> ps) = P ++ [p].
Proof.
  intros HP Hl. rewrite length_app. cbn. rewrite Nat.add_1_r.
  rewrite (take_S_r _ _ p) by (by rewrite list_lookup_insert_eq). f_equal.
  rewrite take_insert_ge by lia. done.
Qed.

(** The error path of [allocshm] unmaps the pages but does not free them. *)
Lemma wp_allocshm_undo d k n s f P R l (ps : list Z) :
  cons_ready s -> entries_ok f -> 1 <= k -> k + Z.of_nat n <= 160 -> (length P <= n)%nat ->
  (forall i, k <= i < k + Z.of_nat n -> f i = 0) ->
  uv_ok s d (map_pages f k P) (P ++ R) l ->
  wp (cprintf "allocshm out of memory
" [] ;; deallocshm d (k * PGSIZE) ((k + Z.of_nat n) * PGSIZE) ;; ret (0, ps)) s
    (fun r s' => fst r = 0 /\ uv_step d (P ++ R) s s' /\ uv_ok s' d f (P ++ R) l).
Proof.
  intros Hc Hf Hk Hkn Hn Hz U. apply wp_bind. eapply wp_mono; [by apply wp_cprintf|].
  intros ? s1 Hpr. assert (S1 : uv_step d (P ++ R) s s1).
  { destruct Hpr as (c & -> & Hc1 & Hc2). split; [|by intros p x|done].
    apply printed_mframe. by exists c. }
  assert (U1 : uv_ok s1 d (map_pages f k P) (P ++ R) l).
  { destruct Hpr as (c & -> & _), U as [[] ? ?]. by split. }
  assert (HP : Forall page_ok P) by (by eapply uv_pages_ok).
  apply wp_bind. apply (wp_deallocshm d k (k + Z.of_nat n) s1 (map_pages f k P) (P ++ R) l);
    [exact U1|by apply entries_ok_map|lia|lia| |].
  - intros i p Hi Hp. apply elem_of_app. left. rewrite Z.add_simpl_l, Nat2Z.id in Hi.
    unfold upage, map_pages in Hp. destruct (Z.leb_spec k i); [|lia].
    destruct (P !! Z.to_nat (i - k)) as [q|] eqn:Eq; [|rewrite Hz in Hp by lia; done].
    assert (page_ok q) as Hq by (by eapply Forall_lookup_1). destruct (PTE_user q Hq) as [Ea Eh].
    rewrite Eh, Ea in Hp. injection Hp as <-. by eapply list_elem_of_lookup_2.
  - rewrite Z.add_simpl_l, Nat2Z.id. intros s2 U2 S2. apply wp_intro_ret.
    split_and!; [done|by eapply uv_step_trans|]. eapply uv_ok_ext; [|exact U2].
    intros i _. unfold clear_range.
    destruct (Z.leb_spec k i), (Z.ltb_spec i (k + Z.of_nat n)); cbn [andb];
      try (rewrite map_pages_beyond by lia; done). rewrite Hz; [done|lia].
Qed.

Lemma wp_allocshm_loop j : forall fuel d k n s f P R l ps,
  (j < fuel)%nat -> LKmem ∉ held s -> cons_ready s -> entries_ok f -> 1 <= k ->
  (length P + j)%nat = n -> k + Z.of_nat n <= 160 -> (forall i, k <= i < k + Z.of_nat n -> f i = 0) ->
  uv_ok s d (map_pages f k P) (P ++ R) l -> zero_pages (mem s) P ->
  take (length P) ps = P -> (n <= length ps)%nat ->
  wp (allocshm_loop fuel d ((k + Z.of_nat n) * PGSIZE) (k * PGSIZE)
        ((k + Z.of_nat (length P)) * PGSIZE) (length P) ps) s (fun r s' =>
    uv_step d R s s' /\
    ((fst r = k * PGSIZE /\ exists N l', l = N ++ l' /\ length N = j /\ take n (snd r) = P ++ N /\
        uv_ok s' d (map_pages f k (P ++ N)) (P ++ N ++ R) l' /\ zero_pages (mem s') (P ++ N)) \/
     (fst r = 0 /\ (length l < j)%nat /\ uv_ok s' d f (P ++ l ++ R) []))).
Proof.
  induction j as [|j IH]; intros fuel d k n s f P R l ps Hfuel Hl Hc Hf Hk Hn Hkn Hz U Zp Hps Hlen;
    (destruct fuel as [|fuel]; [lia|]); cbn [allocshm_loop].
  { destruct (Z.ltb_spec ((k + Z.of_nat (length P)) * PGSIZE) ((k + Z.of_nat n) * PGSIZE));
      [unfold PGSIZE in *; lia|].
    apply wp_intro_ret. split; [apply uv_step_refl|]. left. split; [done|]. exists [], l.
    rewrite app_nil_r. split_and!; try done. cbn. by replace n with (length P) by lia. }
  destruct (Z.ltb_spec ((k + Z.of_nat (length P)) * PGSIZE) ((k + Z.of_nat n) * PGSIZE));
    [|unfold PGSIZE in *; lia].
  apply wp_bind. eapply wp_kalloc; [done|apply U| |].
  - intros ->. cbn [Z.eqb].
    eapply wp_mono; [apply (wp_allocshm_undo d k n s f P R []); try done; lia|].
    intros r s' (Hr & S' & U'). split; [eapply uv_step_weaken; [|exact S']; set_solver|].
    right. cbn. split_and!; [done|lia|done].
  - intros r l' -> Hr Kr _. pose proof (page_ok_bounds r Hr).
    destruct (Z.eqb_spec r 0); [unfold PGSIZE in *; lia|].
    eapply (wp_uv_alloc _ s d (map_pages f k P) _ (P ++ R) r l'); try done; [lia| |].
    { rewrite map_pages_beyond by lia. rewrite Hz; [done|lia]. }
    intros s1 U1 S1 Z1. rewrite u32_small by (unfold PGSIZE in *; lia).
    assert (Eperm : r :: P ++ R ≡ₚ (P ++ [r]) ++ R) by (rewrite <- app_assoc; apply Permutation_middle).
    assert (S1' : uv_step d R s s1) by (eapply uv_step_weaken; [|exact S1]; set_solver).
    replace ((k + Z.of_nat (length P)) * PGSIZE + PGSIZE) with
      ((k + Z.of_nat (length (P ++ [r]))) * PGSIZE) by (rewrite length_app; cbn; lia).
    replace (S (length P)) with (length (P ++ [r])) by (rewrite length_app; cbn; lia).
    eapply wp_mono.
    + apply (IH fuel d k n s1 f (P ++ [r]) R l'); try done; try lia.
      * rewrite (mframe_held s); [done|apply S1].
      * eapply mframe_cons_ready; [apply S1|done].
      * rewrite length_app. cbn. lia.
      * eapply uv_ok_perm; [exact Eperm|]. eapply uv_ok_ext; [|exact U1].
        intros i _. symmetry. apply map_pages_snoc.
      * intros p x [Hp|Hp]%elem_of_app Hx; [|by eapply Z1].
        eapply (zero_pages_step d P s s1); try done. eapply uv_step_weaken; [|exact S1]. set_solver.
      * apply take_snoc_insert; [done|lia].
      * rewrite length_insert. lia.
    + intros ret s2 [S2 Hret]. split; [by eapply uv_step_trans|].
      rewrite <- !app_assoc in Hret. cbn in Hret.
      destruct Hret as [(E & N & l2 & -> & HN & Ht & U2 & Z2)|(E & Hlen' & U2)]; [left|right].
      * split; [done|]. exists (r :: N), l2. rewrite <- !app_assoc in *. cbn in *.
        split_and!; [done|lia|done|done|done].
      * split_and!; [done|cbn; lia|done].
Qed.

(** *** [copyshm] *)

(** The entries a child gets for the pages from [k] to [hi]: the parent's pages. *)
Definition share_range (f fs : Z -> Z) (k hi : Z) : Z -> Z :=
  fun i => if (k <=? i) && (i <? hi) then PTE_ADDR (fs i) + 7 else f i.

Lemma wp_copyshm_loop n : forall fuel pg d k0 k s0 s f fs R l,
  (n < fuel)%nat -> LKmem ∉ held s -> 0 <= k0 <= k -> k + Z.of_nat n = 160 ->
  parent_ok s0 pg fs k0 160 R -> keeps R s0 s ->
  (forall i, k <= i < 160 -> has (f i) PTE_P = false) -> uv_ok s d f R l ->
  wp (copyshm_loop fuel pg (k0 * PGSIZE) d (k * PGSIZE)) s (fun r s' =>
    r = 0 /\ uv_ok s' d (share_range f fs k 160) R l /\ uv_step d R s s').
Proof.
  induction n as [|n IH]; intros fuel pg d k0 k s0 s f fs R l Hfuel Hl Hk Hkn Pa Kp Hf U;
    (destruct fuel as [|fuel]; [lia|]); cbn [copyshm_loop].
  { destruct (Z.ltb_spec (k * PGSIZE) USERTOP); [unfold USERTOP, PGSIZE in *; lia|].
    apply wp_intro_ret. split_and!; [done| |apply uv_step_refl]. eapply uv_ok_ext; [|exact U].
    intros i Hi. unfold share_range. zdec. done. }
  destruct (Z.ltb_spec (k * PGSIZE) USERTOP); [|unfold USERTOP, PGSIZE in *; lia].
  apply wp_bind. eapply wp_run; [apply walkpgdir_lookup|].
  destruct (parent_entry s0 s pg fs k0 160 R k Pa Kp ltac:(lia) ltac:(lia) ltac:(lia))
    as (Hnz & Ev & Eh & HpR).
  destruct (Z.eqb_spec (pte_slot (mem s) pg (k * PGSIZE)) 0); [done|].
  unfold load32. apply wp_gets. rewrite Ev, Eh. cbn [negb].
  apply wp_bind. eapply wp_uv_map; [done|exact U|lia|apply Hf; lia|by eapply R_page_ok|].
  intros s1 U1 S1. cbn [Z.ltb Z.compare]. rewrite u32_small by (unfold USERTOP, PGSIZE in *; lia).
  replace (k * PGSIZE + PGSIZE) with ((k + 1) * PGSIZE) by lia. eapply wp_mono.
  - apply (IH fuel pg d k0 (k + 1) s0 s1 (set_entry f k (PTE_ADDR (fs k) + 7)) fs R l); try done; try lia.
    + rewrite (mframe_held s); [done|apply S1].
    + eapply keeps_trans; [exact Kp|apply S1].
    + intros i Hi. unfold set_entry. destruct (Z.eqb_spec i k); [lia|]. apply Hf. lia.
  - intros r s2 (-> & U2 & S2). split_and!; [done| |by eapply uv_step_trans].
    eapply uv_ok_ext; [|exact U2]. intros i Hi. unfold share_range, set_entry.
    destruct (Z.leb_spec (k + 1) i), (Z.leb_spec k i), (Z.ltb_spec i 160), (Z.eqb_spec i k);
      subst; cbn [andb]; done || lia.
Qed.

Lemma uv_ok_same s s' d f R l :
  mem s' = mem s -> freelist s' = freelist s -> uv_ok s d f R l -> uv_ok s' d f R l.
Proof. intros Em Ef [[] ? ?]. split; [split|..]; rewrite ?Em, ?Ef; done. Qed.

Lemma upd_myproc_run g i s : curproc s = Some i ->
  upd_myproc g s = Ret tt (s <| ptable ::= alter g i |>).
Proof. intros E. unfold upd_myproc, bind, gets. by rewrite E. Qed.

Lemma mask_no_key key : 0 <= key < 8 -> bad_key key = false.
Proof. intros. unfold bad_key. apply orb_false_iff. split; [apply Z.ltb_ge|apply Z.leb_gt]; unfold MAX_SHM_KEY; lia. Qed.

Lemma aligned_low k : has (k * PGSIZE) 0xFFF = false.
Proof.
  unfold has. replace (k * PGSIZE) with (k * PGSIZE + 0) by lia.
  change 0xFFF with (Z.ones 12). rewrite Z.land_ones by lia. unfold PGSIZE.
  change (2 ^ 12) with 4096. by rewrite Z.add_0_r, Z_mod_mult.
Qed.

(** The process after attaching [key] at [va]. *)
Definition attach (key va : Z) (p : proc) : proc :=
  p <| p_shm_va ::= <[Z.to_nat key := va]> |> <| p_shm := va |>
    <| p_shm_key_mask ::= fun m => Z.lor m (Z.shiftl 1 key) |>.

Lemma attach_alter key va i (pt : list proc) :
  alter (fun p => p <| p_shm := va |> <| p_shm_key_mask ::= fun m => Z.lor m (Z.shiftl 1 key) |>) i
    (alter (fun p => p <| p_shm_va ::= <[Z.to_nat key := va]> |>) i pt) = alter (attach key va) i pt.
Proof. by rewrite list_alter_alter. Qed.

(** The conditions of a call of [shmgetat] by process [me], number [i], whose shared
    pages start at page [hi], and whose page table is described by [f], [R], [l]. *)
Record shm_call (s : kernel) (i : nat) (me : proc) (f : Z -> Z) (R l : list Z) (key hi : Z) : Prop := {
  sc_ready : vm_ready s me;
  sc_cur : curproc s = Some i;
  sc_space : uv_ok s (p_pgdir me) f R l;
  sc_entries : entries_ok f;
  sc_key : 0 <= key < 8;
  sc_new : Z.testbit (p_shm_key_mask me) key = false;
  sc_shm : p_shm me = hi * PGSIZE /\ hi <= 160 }.

(** C23. The first [shmgetat] of a key creates the segment: with memory available and
    room above [proc->sz], it takes [n] zero-filled pages, maps them just below the
    process's shared pages, records them in [shm_tab] with count 1, and moves
    [proc->shm] down to the address it returns. *)
Theorem shmgetat_create (s : kernel) (i : nat) (me : proc) (f : Z -> Z) (R l junk : list Z)
    (key hi : Z) (n : nat) (e : shared_mem) :
  shm_call s i me f R l key hi -> (n <= MAX_SHM_PGNUM)%nat -> length junk = MAX_SHM_PGNUM ->
  shm_tab s !! Z.to_nat key = Some e -> shm_count e = 0 -> length (shm_phys_addr e) = MAX_SHM_PGNUM ->
  1 <= hi - Z.of_nat n -> 0 <= p_sz me <= (hi - Z.of_nat n) * PGSIZE ->
  (forall k, hi - Z.of_nat n <= k < hi -> f k = 0) -> (n <= length l)%nat ->
  let va := (hi - Z.of_nat n) * PGSIZE in
  wp (shmgetat junk key (Z.of_nat n)) s (fun r s' => r = va /\
    exists N l', l = N ++ l' /\ length N = n /\ zero_pages (mem s') N /\
      uv_ok s' (p_pgdir me) (map_pages f (hi - Z.of_nat n) N) (N ++ R) l' /\
      ptable s' = alter (attach key va) i (ptable s) /\
      shm_tab s' = <[Z.to_nat key := mkShm 1 (Z.of_nat n) (N ++ drop n (shm_phys_addr e))]> (shm_tab s)).
Proof.
  intros [[Hl Hc Hme Hshm] Hcur U Hf Hkey Hnew [Eshm Hhi]] Hn Hj He Hcnt Hpl Hlo Hsz Hz Hlen va.
  unfold shmgetat, MAX_SHM_PGNUM in *. rewrite mask_no_key by done. zdec.
  unfold myproc. apply wp_bind, wp_gets, wp_gets. rewrite Hme. apply wp_intro_ret.
  rewrite Hnew. apply wp_gets. unfold shm_at. rewrite He. cbn [default]. cbv [id]. rewrite Hcnt.
  apply wp_bind. cbn [Z.eqb].
  assert (Eva : u32 (p_shm me - Z.of_nat n * PGSIZE) = va)
    by (rewrite Eshm, u32_small; unfold va, PGSIZE; lia).
  rewrite Eva, Eshm. unfold allocshm, shm_bad_range, va. rewrite !aligned_low.
  rewrite (proj2 (Z.ltb_ge USERTOP (hi * PGSIZE))) by (unfold USERTOP, PGSIZE; lia). zdec.
  apply wp_bind.
  set (k := hi - Z.of_nat n) in *. replace (hi * PGSIZE) with ((k + Z.of_nat n) * PGSIZE) by (unfold k; lia).
  replace (k * PGSIZE) with ((k + Z.of_nat (length (@nil Z))) * PGSIZE) at 2 by (cbn; lia).
  eapply wp_mono.
  { apply (wp_allocshm_loop n _ (p_pgdir me) k n s f [] R l junk); try done; try lia.
    - unfold page_fuel. rewrite Z.div_mul by done. lia.
    - intros j Hjk. apply Hz. lia.
    - eapply uv_ok_ext; [|exact U]. intros j _. symmetry. apply map_pages_beyond. cbn. lia.
    - by intros p x ?%elem_of_nil. }
  intros [r ps] s1 [S1 [(E & N & l' & -> & HN & Ht & U1 & Z1)|(_ & ? & _)]]; [|lia].
  cbn [fst snd app] in *. subst r. destruct (Z.eqb_spec (k * PGSIZE) 0); [unfold PGSIZE in *; lia|].
  destruct (mframe_curproc s s1 (us_frame _ _ _ _ S1)) as [Ec Ept].
  apply wp_bind. eapply wp_run; [apply upd_myproc_run; by rewrite Ec|].
  apply wp_bind. unfold shm_add. rewrite mask_no_key by done. unfold MAX_SHM_PGNUM. zdec.
  unfold upd_shm. apply wp_modify, wp_intro_ret, wp_intro_ret.
  destruct (Z.eqb_spec (k * PGSIZE) 0); [done|].
  apply wp_bind. eapply wp_run; [apply upd_myproc_run; cbn; by rewrite Ec|].
  apply wp_intro_ret. split; [done|]. exists N, l'. split_and!; try done.
  - eapply uv_ok_same; [| |exact U1]; done.
  - cbn. rewrite Ept. apply attach_alter.
  - cbn. assert (Et : shm_tab s1 = shm_tab s).
    { destruct (us_frame _ _ _ _ S1) as (? & ? & ? & ? & -> & _). done. }
    rewrite Et. rewrite Nat2Z.id. apply list_eq. intros j.
    destruct (decide (j = Z.to_nat key)) as [->|Hne].
    + rewrite list_lookup_alter_eq, list_lookup_insert_eq, He by (by eapply lookup_lt_Some).
      cbn. unfold copy_ptrs. by rewrite Ht.
    + by rewrite list_lookup_alter_ne, list_lookup_insert_ne.
Qed.

(** C6. A later [shmgetat] of the key by another process attaches the same pages: when
    the call asks for at least the segment's pages, it maps exactly the recorded
    physical pages just below the process's shared pages, without touching their
    contents or the free list, and counts one more user. *)
Theorem shmgetat_attach (s : kernel) (i : nat) (me : proc) (f : Z -> Z) (R l junk : list Z)
    (key hi : Z) (n m : nat) (e : shared_mem) :
  shm_call s i me f R l key hi -> (m <= n <= MAX_SHM_PGNUM)%nat -> length junk = MAX_SHM_PGNUM ->
  shm_tab s !! Z.to_nat key = Some e -> shm_count e <> 0 -> shm_num_pages e = Z.of_nat m ->
  length (shm_phys_addr e) = MAX_SHM_PGNUM -> Forall (fun p => p ∈ R) (take m (shm_phys_addr e)) ->
  1 <= hi - Z.of_nat m -> 0 <= p_sz me <= (hi - Z.of_nat m) * PGSIZE ->
  (forall k, hi - Z.of_nat m <= k < hi -> f k = 0) ->
  let va := (hi - Z.of_nat m) * PGSIZE in
  wp (shmgetat junk key (Z.of_nat n)) s (fun r s' => r = va /\ keeps R s s' /\
    uv_ok s' (p_pgdir me) (map_pages f (hi - Z.of_nat m) (take m (shm_phys_addr e))) R l /\
    ptable s' = alter (attach key va) i (ptable s) /\
    shm_tab s' = alter (fun e => e <| shm_count ::= fun c => s32 (c + 1) |>) (Z.to_nat key) (shm_tab s)).
Proof.
  intros [[Hl Hc Hme Hshm] Hcur U Hf Hkey Hnew [Eshm Hhi]] Hn Hj He Hcnt Hm Hpl HR Hlo Hsz Hz va.
  unfold shmgetat, MAX_SHM_PGNUM in *. rewrite mask_no_key by done. zdec.
  unfold myproc. apply wp_bind, wp_gets, wp_gets. rewrite Hme. apply wp_intro_ret.
  rewrite Hnew. apply wp_gets. unfold shm_at. rewrite He. cbn [default]. cbv [id].
  destruct (Z.eqb_spec (shm_count e) 0); [done|]. apply wp_bind. rewrite Hm, Nat2Z.id.
  assert (Eva : u32 (p_shm me - Z.of_nat m * PGSIZE) = va)
    by (rewrite Eshm, u32_small; unfold va, PGSIZE; lia).
  rewrite Eva, Eshm. unfold mapshm, shm_bad_range, va. rewrite !aligned_low.
  rewrite (proj2 (Z.ltb_ge USERTOP (hi * PGSIZE))) by (unfold USERTOP, PGSIZE; lia). zdec.
  set (k := hi - Z.of_nat m) in *. replace (hi * PGSIZE) with ((k + Z.of_nat (length (@nil Z) + m)) * PGSIZE)
    by (unfold k; cbn; lia).
  replace (k * PGSIZE) with ((k + Z.of_nat (length (@nil Z))) * PGSIZE) at 1 by (cbn; lia).
  set (ps := copy_ptrs n junk (shm_phys_addr e)).
  assert (Eps : take m ps = take m (shm_phys_addr e)).
  { unfold ps, copy_ptrs. rewrite take_app_le by (rewrite length_take; lia).
    rewrite take_take. f_equal. lia. }
  apply wp_bind, wp_bind. eapply wp_mono.
  { apply (wp_mapshm_loop m _ (p_pgdir me) k s f [] R l ps 0); try done; try (cbn; lia).
    - unfold page_fuel. rewrite Z.div_mul by done. cbn. lia.
    - eapply uv_ok_ext; [|exact U]. intros j _. symmetry. apply map_pages_beyond. cbn. lia.
    - intros j Hjk. rewrite Hz; [done|]. cbn in Hjk. lia.
    - cbn. unfold ps, copy_ptrs. rewrite length_app, length_take, length_drop. lia.
    - cbn. by rewrite Eps. }
  intros ? s1 [U1 S1]. cbn [length Nat.add] in U1. rewrite Eps in U1. apply wp_intro_ret.
  destruct (Z.eqb_spec (k * PGSIZE) 0); [unfold PGSIZE in *; lia|].
  destruct (mframe_curproc s s1 (us_frame _ _ _ _ S1)) as [Ec Ept].
  apply wp_bind. eapply wp_run; [apply upd_myproc_run; by rewrite Ec|].
  unfold upd_shm. apply wp_modify, wp_intro_ret.
  destruct (Z.eqb_spec (k * PGSIZE) 0); [done|].
  apply wp_bind. eapply wp_run; [apply upd_myproc_run; cbn; by rewrite Ec|].
  apply wp_intro_ret. split_and!; [done|apply S1|..].
  - eapply uv_ok_same; [| |exact U1]; done.
  - cbn. rewrite Ept. apply attach_alter.
  - cbn. destruct (us_frame _ _ _ _ S1) as (? & ? & ? & ? & -> & _). done.
Qed.

(** C24. [copyshm], called by [fork], shares instead of copying: every shared page of the
    parent's table is mapped in the child's table to the same physical page, no
    contents change and no page is allocated. *)
Theorem copyshm_shares (s : kernel) (pg d k : Z) (f fs : Z -> Z) (R l : list Z) :
  LKmem ∉ held s -> 0 <= k <= 160 -> parent_ok s pg fs k 160 R ->
  (forall i, k <= i < 160 -> f i = 0) -> uv_ok s d f R l ->
  wp (copyshm pg (k * PGSIZE) d) s (fun r s' => r = 0 /\ keeps R s s' /\
    uv_ok s' d (share_range f fs k 160) R l /\
    forall i, k <= i < 160 -> upage (share_range f fs k 160) i = upage fs i).
Proof.
  intros Hl Hk Pa Hz U. unfold copyshm. eapply wp_mono.
  - apply (wp_copyshm_loop (Z.to_nat (160 - k)) _ pg d k k s s f fs R l); try done; try lia.
    + unfold page_fuel. change (USERTOP / PGSIZE) with 160. lia.
    + intros i Hi. by rewrite Hz.
  - intros r s' (-> & U' & S'). split_and!; [done|apply S'|done|].
    intros i Hi. destruct (pa_pages _ _ _ _ _ _ Pa i Hi) as (p & Hp & HpR).
    assert (Hpo : page_ok p) by (by eapply R_page_ok). destruct (PTE_user p Hpo) as [Ea Eh].
    rewrite Hp. unfold upage in Hp |- *. unfold share_range. zdec.
    destruct (has (fs i) PTE_P); [injection Hp as ->|done]. by rewrite Eh, Ea.
Qed.

(** *** [shm_release] *)
Lemma wp_kfree_all P : forall s d f R l (Q : unit -> kernel -> Prop),
  LKmem ∉ held s -> uv_ok s d f (P ++ R) l ->
  (forall s', uv_ok s' d f R (rev P ++ l) -> uv_step d R s s' -> Q tt s') ->
  wp (kfree_all P) s Q.
Proof.
  induction P as [|p P IH]; intros s d f R l Q Hl U HQ; cbn [kfree_all].
  { apply wp_intro_ret. apply HQ; [done|apply uv_step_refl]. }
  apply wp_bind. eapply wp_uv_kfree; [done|exact U|]. intros U1 S1.
  eapply IH; [|exact U1|].
  - rewrite (mframe_held s); [done|apply S1].
  - intros s' U' S'. apply HQ.
    + cbn [rev]. by rewrite <- app_assoc.
    + eapply uv_step_trans; [|exact S']. eapply uv_step_weaken; [|exact S1]. set_solver.
Qed.

(** The pages whose segment loses its last user when [mask] is released. *)
Definition last_user (mask : Z) (k : nat) (e : shared_mem) : bool :=
  shm_key_used (Z.of_nat k) mask && (shm_count e =? 1).
Definition freed_pages (tab : list shared_mem) (mask : Z) (keys : list nat) : list Z :=
  keys ≫= fun k => match tab !! k with
    | Some e => if last_user mask k e then take (Z.to_nat (shm_num_pages e)) (shm_phys_addr e) else []
    | None => []
    end.

(** The table after the release: one user less for each key of [mask]. *)
Definition drop_user (mask : Z) (k : nat) (e : shared_mem) : shared_mem :=
  if shm_key_used (Z.of_nat k) mask then e <| shm_count ::= fun c => c - 1 |> else e.

Lemma freed_pages_ext tab tab' mask keys :
  (forall k, k ∈ keys -> tab' !! k = tab !! k) -> freed_pages tab' mask keys = freed_pages tab mask keys.
Proof.
  intros E. unfold freed_pages. induction keys as [|k keys IH]; [done|]. cbn.
  rewrite E, IH by set_solver. done.
Qed.

Lemma seq_keys k : k ∈ seq 0 MAX_SHM_KEY -> (k < 8)%nat.
Proof. rewrite elem_of_seq. unfold MAX_SHM_KEY. lia. Qed.

Lemma upd_shm_eq s k e g : shm_tab s !! k = Some e ->
  s <| shm_tab ::= alter g k |> = s <| shm_tab := <[k := g e]> (shm_tab s) |>.
Proof. intros He. rewrite <- (list_alter_lookup g k e) by done. done. Qed.

Lemma shm_tab_set s t k e : (k < length t)%nat -> shm_tab (s <| shm_tab := <[k := e]> t |>) !! k = Some e.
Proof. intros Hk. cbn. by apply list_lookup_insert_eq. Qed.

(** One key of the loop. *)
Lemma wp_shm_release_key k mask s d f R l e (Q : unit -> kernel -> Prop) :
  LKmem ∉ held s -> (k < 8)%nat -> shm_tab s !! k = Some e ->
  (shm_key_used (Z.of_nat k) mask = true -> 1 <= shm_count e < 2 ^ 31) ->
  let P := if last_user mask k e then take (Z.to_nat (shm_num_pages e)) (shm_phys_addr e) else [] in
  uv_ok s d f (P ++ R) l ->
  (forall s', mframe (s <| shm_tab ::= <[k := drop_user mask k e]> |>) s' -> keeps R s s' ->
     uv_ok s' d f R (rev P ++ l) -> Q tt s') ->
  wp (when (shm_key_used (Z.of_nat k) mask)
        (upd_shm k (fun e => e <| shm_count ::= fun c => s32 (c - 1) |>) ;;
         let! e := gets (shm_at k) in
         when (shm_count e =? 0) (shm_rm (Z.of_nat k) ;; ret tt))) s Q.
Proof.
  intros Hl Hk He Hc P U HQ. subst P. unfold drop_user, last_user in *.
  destruct (shm_key_used (Z.of_nat k) mask) eqn:Eu; cbn [when andb] in *.
  2:{ apply wp_intro_ret, HQ; [|by intros p x|done].
      assert (E : s <| shm_tab := <[k := e]> (shm_tab s) |> = s)
        by (rewrite list_insert_id by done; by destruct s).
      change (s <| shm_tab ::= <[k := e]> |>) with (s <| shm_tab := <[k := e]> (shm_tab s) |>).
      rewrite E. apply mframe_refl. }
  unfold upd_shm. apply wp_modify, wp_gets. rewrite (upd_shm_eq s k e) by done.
  assert (Ee : e <| shm_count ::= fun c => s32 (c - 1) |> = e <| shm_count ::= fun c => c - 1 |>).
  { unfold update; cbn. rewrite s32_small by lia. done. }
  rewrite Ee. pose proof (lookup_lt_Some _ _ _ He) as Hlt.
  set (e1 := e <| shm_count ::= fun c => c - 1 |>).
  set (s1 := s <| shm_tab := <[k := e1]> (shm_tab s) |>).
  assert (He1 : shm_tab s1 !! k = Some e1) by (by apply shm_tab_set).
  unfold shm_at. rewrite He1. cbn [default]. cbv [id]. change (shm_count e1) with (shm_count e - 1).
  destruct (Z.eqb_spec (shm_count e) 1) as [E1|E1], (Z.eqb_spec (shm_count e - 1) 0); try lia; cbn [when].
  2:{ apply wp_intro_ret, HQ; [apply mframe_refl|by intros p x|]. eapply uv_ok_same; [| |exact U]; done. }
  unfold shm_rm. rewrite mask_no_key, Nat2Z.id by lia. apply wp_bind, wp_gets.
  unfold shm_at. rewrite He1. cbn [default]. cbv [id].
  change (shm_num_pages e1) with (shm_num_pages e). change (shm_phys_addr e1) with (shm_phys_addr e).
  apply wp_bind. eapply (wp_kfree_all _ _ d f R l); [done|eapply uv_ok_same; [| |exact U]; done|].
  intros s2 U2 [F2 K2 _]. unfold upd_shm. apply wp_modify, wp_intro_ret, wp_intro_ret.
  destruct F2 as (m & fl & c & kc & E2 & Hp).
  assert (Et : shm_tab s2 = <[k := e1]> (shm_tab s)) by by rewrite E2.
  rewrite (upd_shm_eq s2 k e1) by (by rewrite Et, list_lookup_insert_eq).
  rewrite Et, list_insert_insert_eq.
  assert (E0 : e1 <| shm_count := 0 |> = e1).
  { unfold e1, update; cbn. f_equal. lia. }
  rewrite E0.
  apply HQ; [|exact K2|eapply uv_ok_same; [| |exact U2]; done].
  exists m, fl, c, kc. split; [|done]. rewrite E2. done.
Qed.

Lemma wp_shm_release_loop keys : forall mask s d f R l,
  LKmem ∉ held s -> NoDup keys -> (forall k, k ∈ keys -> (k < 8)%nat /\ is_Some (shm_tab s !! k)) ->
  (forall k e, k ∈ keys -> shm_tab s !! k = Some e -> shm_key_used (Z.of_nat k) mask = true ->
     1 <= shm_count e < 2 ^ 31) ->
  uv_ok s d f (freed_pages (shm_tab s) mask keys ++ R) l ->
  wp (shm_release_loop keys mask) s (fun _ s' => exists t l',
    mframe (s <| shm_tab := t |>) s' /\ keeps R s s' /\ uv_ok s' d f R l' /\
    l' ≡ₚ freed_pages (shm_tab s) mask keys ++ l /\
    (forall k, t !! k = if decide (k ∈ keys) then drop_user mask k <$> shm_tab s !! k else shm_tab s !! k)).
Proof.
  induction keys as [|k keys IH]; intros mask s d f R l Hl Hnd Hks Hc U; cbn [shm_release_loop].
  { apply wp_intro_ret. exists (shm_tab s), l. split_and!; [|by intros p x|done|done|done].
    replace (s <| shm_tab := shm_tab s |>) with s by (by destruct s). apply mframe_refl. }
  apply NoDup_cons in Hnd as [Hk Hnd].
  destruct (Hks k ltac:(set_solver)) as [Hk8 [e He]].
  assert (EF : freed_pages (shm_tab s) mask (k :: keys) =
    (if last_user mask k e then take (Z.to_nat (shm_num_pages e)) (shm_phys_addr e) else []) ++
    freed_pages (shm_tab s) mask keys) by (unfold freed_pages; cbn; by rewrite He).
  rewrite EF in U |- *. rewrite <- app_assoc in U.
  apply wp_bind. eapply (wp_shm_release_key k mask s d f _ l e); [done|done|done| |exact U|].
  { apply Hc; [set_solver|done]. }
  intros s1 F1 K1 U1. set (t1 := <[k := drop_user mask k e]> (shm_tab s)).
  change (s <| shm_tab ::= <[k := drop_user mask k e]> |>) with (s <| shm_tab := t1 |>) in F1.
  assert (Et1 : shm_tab s1 = t1) by (by destruct F1 as (? & ? & ? & ? & -> & _)).
  assert (Ek : forall j, j ∈ keys -> shm_tab s1 !! j = shm_tab s !! j).
  { intros j Hj. rewrite Et1. unfold t1. rewrite list_lookup_insert_ne; [done|]. intros ->. done. }
  eapply wp_mono.
  - apply (IH mask s1 d f R (rev (if last_user mask k e then take (Z.to_nat (shm_num_pages e))
      (shm_phys_addr e) else []) ++ l)); try done.
    + by rewrite (mframe_held _ _ F1).
    + intros j Hj. rewrite Ek by done. apply Hks. set_solver.
    + intros j e' Hj. rewrite Ek by done. apply Hc. set_solver.
    + rewrite (freed_pages_ext (shm_tab s)) by done. exact U1.
  - intros ? s2 (t & l' & F2 & K2 & U2 & El & Ht).
    rewrite (freed_pages_ext (shm_tab s)) in El by done. exists t, l'. split_and!; [| |done| |].
    + destruct F1 as (m & fl & c & kc & E1 & Hp1 & Hp2), F2 as (m2 & fl2 & c2 & kc2 & E2 & Hp3 & Hp4).
      subst s1. exists m2, fl2, c2, kc2. rewrite E2. cbn in Hp1, Hp2, Hp3, Hp4 |- *. split_and!; [done|congruence..].
    + eapply keeps_trans; [|exact K2]. intros p x Hp. apply K1. set_solver.
    + rewrite El, <- Permutation_rev, <- app_assoc. apply Permutation_app_swap_app.
    + intros j. rewrite Ht. rewrite Et1. unfold t1.
      destruct (decide (j = k)) as [->|Hne].
      * rewrite decide_False by done. rewrite decide_True by set_solver.
        rewrite list_lookup_insert_eq, He by (by eapply lookup_lt_Some). done.
      * rewrite list_lookup_insert_ne by done.
        destruct (decide (j ∈ keys)); [rewrite decide_True by set_solver|rewrite decide_False by set_solver]; done.
Qed.

(** C25. [shm_release], when the last thread of a process is reaped, takes the process's
    shared pages out of its page table and drops its claim on each segment of
    [key_mask]: every such segment has one user less, the pages of those left
    without users go back on the free list, and the other segments keep theirs. *)
Theorem shm_release_correct (s : kernel) (d k mask : Z) (f : Z -> Z) (R l : list Z) :
  let keys := seq 0 MAX_SHM_KEY in
  let P := freed_pages (shm_tab s) mask keys in
  LKmem ∉ held s -> 1 <= k <= 160 -> length (shm_tab s) = MAX_SHM_KEY -> entries_ok f ->
  (forall j e, shm_tab s !! j = Some e -> shm_key_used (Z.of_nat j) mask = true ->
     1 <= shm_count e < 2 ^ 31) ->
  uv_ok s d f (P ++ R) l -> pages_in f k (Z.to_nat (160 - k)) (P ++ R) ->
  wp (shm_release d (k * PGSIZE) mask) s (fun r s' => r = 0 /\ keeps R s s' /\
    shm_tab s' = imap (drop_user mask) (shm_tab s) /\
    exists l', l' ≡ₚ P ++ l /\ uv_ok s' d (clear_range f k (Z.to_nat (160 - k))) R l').
Proof.
  intros keys P Hl Hk Ht Hf Hc U Hin. unfold shm_release. apply wp_bind.
  change USERTOP with (160 * PGSIZE).
  apply (wp_deallocshm d k 160 s f (P ++ R) l); try done.
  intros s1 U1 S1. apply wp_bind.
  assert (Et : shm_tab s1 = shm_tab s) by (by destruct (us_frame _ _ _ _ S1) as (? & ? & ? & ? & -> & _)).
  eapply wp_mono.
  - apply (wp_shm_release_loop keys mask s1 d (clear_range f k (Z.to_nat (160 - k))) R l).
    + rewrite (mframe_held s); [done|apply S1].
    + apply NoDup_seq.
    + intros j Hj%seq_keys. split; [done|]. rewrite Et. apply lookup_lt_is_Some. rewrite Ht.
      unfold MAX_SHM_KEY. lia.
    + intros j e _ He. rewrite Et in He. by apply Hc.
    + by rewrite Et.
  - intros ? s2 (t & l' & F2 & K2 & U2 & El & Hlook). apply wp_intro_ret. split_and!; [done|..].
    + eapply keeps_trans; [|exact K2]. intros p x Hp. apply (us_keeps _ _ _ _ S1). set_solver.
    + destruct F2 as (? & ? & ? & ? & -> & _). change (t = imap (drop_user mask) (shm_tab s)).
      apply list_eq. intros j. rewrite Hlook, Et, list_lookup_imap.
      destruct (decide (j ∈ keys)) as [|Hj]; [done|].
      rewrite lookup_ge_None_2; [done|]. rewrite Ht. apply Nat.le_ngt. intros Hlt. apply Hj.
      apply elem_of_seq. lia.
    + exists l'. rewrite Et in El. done.
Qed.
End ShmProofs.

(** ** Examples, on the machine of VmSpec.v *)

(** The running process with the fresh page table [d]. *)
Definition with_pgdir (s : kernel) (d : Z) : kernel :=
  s <| ptable := (me1 <| p_pgdir := d |>) :: replicate 63 proc0 |>.

Definition seg0 : shared_mem := mkShm 0 0 (replicate 4 0).

Lemma shm_call1 s d l : mframe kernel1 s -> @uv_ok linker1 s d (fun _ => 0) [] l ->
  @shm_call linker1 (with_pgdir s d) 0 (me1 <| p_pgdir := d |>) (fun _ => 0) [] l 3 160.
Proof.
  intros F U. destruct (vm_ready1 s F) as [Hl Hc Hme Hshm].
  destruct kernel1_frame as (_ & _ & Hcp & _). destruct (mframe_curproc _ _ F) as [E1 _].
  assert (Ec : curproc s = Some 0%nat) by by rewrite E1.
  split; [split|..]; try done.
  - cbn. rewrite Ec. reflexivity.
  - eapply (@uv_ok_same linker1); [| |exact U]; reflexivity.
Qed.

Lemma with_pgdir_tab s d : mframe kernel1 s -> shm_tab (with_pgdir s d) = replicate 8 seg0.
Proof.
  intros (m & f & c & k & -> & _). cbn. Transparent kernel1. unfold kernel1. Opaque kernel1.
  induction pages1 as [|p ps IH]; [reflexivity|exact IH].
Qed.

Lemma shmgetat_create_witness : exists s s',
  shmgetat (replicate 4 0) 3 2 s = Ret (158 * PGSIZE) s' /\ shm_refcount 3 s' = Ret 1 s'.
Proof.
  destruct fresh1 as (s & d & l & F & U & Hlen).
  assert (W := @shmgetat_create linker1 linker1_ok (with_pgdir s d) 0 (me1 <| p_pgdir := d |>)
    (fun _ => 0) [] l (replicate 4 0) 3 160 2 seg0 (shm_call1 s d l F U) ltac:(unfold MAX_SHM_PGNUM; lia) eq_refl
    ltac:(rewrite with_pgdir_tab by exact F; reflexivity) eq_refl eq_refl ltac:(lia)
    ltac:(vm_compute; intuition congruence) ltac:(reflexivity) ltac:(lia)).
  destruct (wp_elim _ _ _ W) as (r & s' & E & -> & N & l' & _ & _ & _ & _ & _ & Et).
  exists (with_pgdir s d), s'. split; [exact E|].
  rewrite with_pgdir_tab in Et by exact F.
  change (shm_refcount 3 s') with (@Ret kernel Z (shm_count (default (mkShm 0 0 []) (shm_tab s' !! 3%nat))) s').
  rewrite Et. reflexivity.
Defined.

(** A segment of two pages in use elsewhere, and a page table to attach it to. *)
Lemma segment1 : exists s d P l, mframe kernel1 s /\ @uv_ok linker1 s d (fun _ => 0) P l /\
  length P = 2%nat /\ Forall (fun p => p ∈ P) P /\ (23 <= length l)%nat.
Proof.
  destruct fresh1 as (s & d & l & F & U & Hlen).
  destruct l as [|p [|q l]]; cbn in Hlen; try lia.
  assert (Step : forall s r R l, mframe kernel1 s -> @uv_ok linker1 s d (fun _ => 0) R (r :: l) ->
    exists s', mframe kernel1 s' /\ @uv_ok linker1 s' d (fun _ => 0) (r :: R) l).
  { clear. intros s r R l F U. assert (HK := @uv_kmem _ _ _ _ _ _ U).
    assert (W : wp kalloc s (fun r' s' => r' = r /\ s' = after_kalloc s r /\ @page_ok linker1 r /\
                 @kmem_ok linker1 (after_kalloc s r) l)).
    { apply (@wp_kalloc linker1 linker1_ok s (r :: l));
        [apply (vm_ready1 s F)|exact HK|done|]. intros r' l' [= <- <-] Hr Hk _. done. }
    destruct (wp_elim _ _ _ W) as (? & ? & _ & _ & _ & Hr & Hk).
    destruct (@uv_kalloc linker1 linker1_ok s d _ r R l (mem s) U Hr Hk) as [U' S']; [done|].
    eexists. split; [eapply mframe_trans; [exact F|apply S']|exact U']. }
  destruct (Step s p [] (q :: l) F U) as (s1 & F1 & U1).
  destruct (Step s1 q [p] l F1 U1) as (s2 & F2 & U2).
  exists s2, d, [q; p], l. split_and!; [done|done|done| |lia]. repeat constructor; set_solver.
Qed.

Lemma shmgetat_attach_witness : exists s s',
  shmgetat (replicate 4 0) 3 2 s = Ret (158 * PGSIZE) s'.
Proof.
  destruct segment1 as (s & d & P & l & F & U & HP & HPin & _).
  destruct P as [|p [|q [|]]]; try discriminate HP.
  set (e := mkShm 1 2 [p; q; 0; 0]).
  set (s0 := (with_pgdir s d) <| shm_tab := <[3%nat := e]> (replicate 8 seg0) |>).
  assert (C : @shm_call linker1 s0 0 (me1 <| p_pgdir := d |>) (fun _ => 0) [p; q] l 3 160).
  { destruct (vm_ready1 s F) as [Hl Hc Hme Hshm].
    destruct kernel1_frame as (_ & _ & Hcp & _). destruct (mframe_curproc _ _ F) as [E1 _].
    assert (Ec : curproc s = Some 0%nat) by by rewrite E1.
    split; [split|..]; try done.
    - cbn. rewrite Ec. reflexivity.
    - eapply (@uv_ok_same linker1); [| |exact U]; reflexivity. }
  assert (W := @shmgetat_attach linker1 linker1_ok s0 0 (me1 <| p_pgdir := d |>)
    (fun _ => 0) [p; q] l (replicate 4 0) 3 160 2 2 e C ltac:(unfold MAX_SHM_PGNUM; lia) eq_refl
    ltac:(reflexivity) ltac:(discriminate) eq_refl eq_refl HPin ltac:(lia)
    ltac:(vm_compute; intuition congruence) ltac:(reflexivity)).
  destruct (wp_elim _ _ _ W) as (r & s' & E & -> & _).
  exists s0, s'. exact E.
Defined.

(** A parent that shares two pages, at 158 and 159 below [USERTOP]; and a child with an empty address space. *)
Lemma shared1 : exists s d p q l, mframe kernel1 s /\ (23 <= length l)%nat /\
  @uv_ok linker1 s d (map_pages (fun _ => 0) 158 [p; q]) [p; q] l.
Proof.
  destruct segment1 as (s & d & P & l & F & U & HP & HPin & Hlen). destruct P as [|p [|q [|]]]; try discriminate HP.
  assert (W := @wp_mapshm_loop linker1 linker1_ok 2 3 d 158 s (fun _ => 0) [] [p; q] l [p; q] 0 ltac:(lia)
    (vr_kmem _ _ (vm_ready1 s F)) ltac:(lia) ltac:(cbn; lia)).
  destruct (wp_elim _ _ _ (W ltac:(eapply (@uv_ok_ext linker1); [|exact U]; intros i _; symmetry; apply map_pages_beyond; cbn; lia)
    ltac:(done) eq_refl ltac:(cbn; lia) eq_refl HPin)) as (? & s1 & _ & U1 & S1).
  exists s1, d, p, q, l. split_and!; [eapply mframe_trans; [exact F|apply S1]|done|exact U1].
Qed.
Lemma child1 s R l : mframe kernel1 s -> @kmem_ok linker1 s l -> Forall (@page_ok linker1) (R ++ l) -> NoDup (R ++ l) ->
  (15 <= length l)%nat ->
  exists c s' l', mframe s s' /\ keeps R s s' /\ @uv_ok linker1 s' c (fun _ => 0) R l'.
Proof.
  intros F K HP ND Hlen.
  assert (W : wp (@setupkvm linker1) s (fun c s' => exists l', mframe s s' /\ keeps R s s' /\ @uv_ok linker1 s' c (fun _ => 0) R l')).
  { apply (@wp_setupkvm linker1 linker1_ok s R l); [apply (vm_ready1 s F)|exact K|exact HP|exact ND| |intros; lia].
    intros c s' l' Kv _. exists l'. split_and!; [apply Kv|apply Kv|]. by apply (@kvm_uv_ok linker1 linker1_ok) in Kv. }
  destruct (wp_elim _ _ _ W) as (c & s' & _ & l' & H). by exists c, s', l'.
Qed.

Lemma copyshm_shares_witness : exists s d p q c s' g R l', copyshm d (158 * PGSIZE) c s = Ret 0 s' /\ p <> q /\
  @uv_ok linker1 s' c g R l' /\ upage g 158 = Some p /\ upage g 159 = Some q.
Proof.
  destruct shared1 as (s & d & p & q & l & F & Hlen & U). set (fs := map_pages (fun _ => 0) 158 [p; q]) in *.
  assert (HP : @page_ok linker1 p /\ @page_ok linker1 q).
  { split; (eapply (@R_page_ok linker1); [exact U|set_solver]). }
  destruct HP as [Hp Hq]. destruct (@PTE_user linker1 linker1_ok p Hp) as [Ap Ep], (@PTE_user linker1 linker1_ok q Hq) as [Aq Eq].
  assert (U8 : upage fs 158 = Some p) by (unfold upage; change (fs 158) with (p + 7); by rewrite Ep, Ap).
  assert (U9 : upage fs 159 = Some q) by (unfold upage; change (fs 159) with (q + 7); by rewrite Eq, Aq).
  destruct (@uv_parent_ok linker1 s d fs 158 160 [p; q] l U) as [Pa ND].
  { intros k Hk. assert (k = 158 \/ k = 159) as [-> | ->] by lia; eexists; (split; [eassumption|set_solver]). }
  set (R := d :: ptpages (mem s) d ++ [p; q]) in *.
  destruct (child1 s R l F (@uv_kmem _ _ _ _ _ _ U)) as (c & s' & l' & F' & K' & U'); [|exact ND|lia|].
  { apply Forall_app. split; [apply Pa|apply U]. }
  assert (Pa' : @parent_ok linker1 s' d fs 158 160 R).
  { destruct Pa as [Pv Pd Pt Pp Po]. split; try done.
    - intros va Hva. rewrite <- (Pv va Hva). by apply (@keeps_view R s s').
    - rewrite (ptpages_ext (mem s)); [done|]. intros x Hx. by apply (K' d). }
  assert (W := @copyshm_shares linker1 linker1_ok s' d c 158 (fun _ => 0) fs R l'
    (vr_kmem _ _ (vm_ready1 s' (mframe_trans _ _ _ F F'))) ltac:(lia) Pa' ltac:(reflexivity) U').
  destruct (wp_elim _ _ _ W) as (r & s2 & E & -> & _ & U2 & Hs).
  exists s', d, p, q, c, s2, (share_range (fun _ => 0) fs 158 160), R, l'.
  split_and!; [exact E| |exact U2|by rewrite Hs|by rewrite Hs].
  intros ->. clear -ND. subst R. apply NoDup_app in ND as [ND _]. rewrite app_comm_cons in ND. apply NoDup_app in ND as (_ & _ & ND).
  apply NoDup_cons in ND as [Hn _]. apply Hn. set_solver.
Defined.

Lemma shm_release_correct_witness : exists s d s',
  @shm_release linker1 d (160 * PGSIZE) 8 s = Ret 0 s' /\ shm_refcount 3 s' = Ret 0 s'.
Proof.
  destruct segment1 as (s & d & P & l & F & U & HP & HPin & _).
  destruct P as [|p [|q [|]]]; try discriminate HP.
  set (e := mkShm 1 2 [p; q; 0; 0]).
  set (s0 := s <| shm_tab := <[3%nat := e]> (replicate 8 seg0) |>).
  assert (W := @shm_release_correct linker1 linker1_ok s0 d 160 8 (fun _ => 0) [] l
    ltac:(apply (vm_ready1 s F)) ltac:(lia) eq_refl ltac:(done)
    ltac:(intros j e0 Hj Hu; do 8 (destruct j as [|j]; [first [discriminate Hu|injection Hj as <-; cbn; lia]|]);
      discriminate Hj)
    ltac:(eapply (@uv_ok_same linker1); [| |exact U]; reflexivity)
    ltac:(intros i x Hi; cbn in Hi; lia)).
  destruct (wp_elim _ _ _ W) as (r & s' & E & -> & _ & Et & _).
  exists s0, d, s'. split; [exact E|].
  change (shm_refcount 3 s') with (@Ret kernel Z (shm_count (default (mkShm 0 0 []) (shm_tab s' !! 3%nat))) s').
  rewrite Et. reflexivity.
Defined.
