(* ===== verification/Spinlock.v ===== *)
(** Spinlocks, [kernel/spinlock.c], on several CPUs.

    Every CPU is a small state machine that runs [acquire] and [release] one memory
    access at a time; steps of different CPUs interleave freely.  The theorems say
    that the locks exclude, that the consistency panics cannot happen to a CPU that
    uses its locks correctly, and that interrupts stay off exactly while they must. *)
From S2P Require Import Prelude Types Mem.

(** ** Code *)

(** [struct spinlock] *)
Record spinlock := mkLock {
  lk_locked : Z; lk_name : string; lk_cpu : option nat; lk_pcs : list Z }.
#[global] Instance spinlock_eta : Eta spinlock := {| eta r :=
  mkLock (lk_locked r) (lk_name r) (lk_cpu r) (lk_pcs r) |}.

Definition initlock (name : string) (lk : spinlock) : spinlock :=
  lk <| lk_name := name |> <| lk_locked := 0 |> <| lk_cpu := None |>.

(** The part of [struct cpu] the locks use, with the interrupt flag of [%eflags]. *)
Record cpuirq := mkIrq { c_if : bool; c_ncli : Z; c_intena : bool }.
#[global] Instance cpuirq_eta : Eta cpuirq := {| eta r := mkIrq (c_if r) (c_ncli r) (c_intena r) |}.

Definition pushcli : M cpuirq unit :=
  let! eflags := gets c_if in
  modify (fun c => c <| c_if := false |>) ;;
  let! n := gets c_ncli in
  modify (fun c => c <| c_ncli := n + 1 |>) ;;
  when (n =? 0) (modify (fun c => c <| c_intena := eflags |>)).

Definition popcli : M cpuirq unit :=
  let! eflags := gets c_if in
  if eflags then panic "popcli - interruptible"
  else
    modify (fun c => c <| c_ncli ::= fun n => n - 1 |>) ;;
    let! c := get in
    if c_ncli c <? 0 then panic "popcli"
    else when ((c_ncli c =? 0) && c_intena c) (modify (fun c => c <| c_if := true |>)).

(** The return addresses found by following the saved [%ebp]s from [v], at most ten;
    the rest of the array is zero. *)
Fixpoint callerpcs (m : Z -> Z) (n : nat) (ebp : Z) : list Z :=
  match n with
  | O => []
  | S n' =>
      if (ebp =? 0) || (ebp <? 0x100000) || (ebp =? 0xffffffff) then []
      else ld32 m (u32 (ebp + 4)) :: callerpcs m n' (ld32 m ebp)
  end.
Definition getcallerpcs (m : Z -> Z) (v : Z) : list Z :=
  let pcs := callerpcs m 10 (u32 (v - 8)) in pcs ++ replicate (10 - length pcs) 0.

(** Where a CPU is: in the rest of the kernel, or before an access of [acquire] or
    [release].  [holding] reads [locked] and then [cpu]. *)
Inductive lockpc : Type :=
| Client
| AqHold1 (l : lockid)    (** [acquire]: read [lk->locked] of [holding(lk)] *)
| AqHold2 (l : lockid)    (** [acquire]: read [lk->cpu] of [holding(lk)] *)
| AqXchg (l : lockid)     (** [while(xchg(&lk->locked, 1) != 0)] *)
| AqRecord (l : lockid)   (** [lk->cpu = cpu; getcallerpcs(&lk, lk->pcs)] *)
| RlHold2 (l : lockid)    (** [release]: read [lk->cpu] of [holding(lk)] *)
| RlClear (l : lockid)    (** [lk->pcs[0] = 0; lk->cpu = 0] *)
| RlXchg (l : lockid)     (** [xchg(&lk->locked, 0)] *)
| RlPop (l : lockid).     (** [popcli()] *)

(** Two history variables, which the code does not read.  [c_owns]: the locks for which this CPU
    returned from [acquire] and has not called [release].  [c_before]: the interrupt flag from before
    the first of the nested [acquire]s in progress. *)
Record cpustate := mkCpu { c_pc : lockpc; c_irq : cpuirq; c_owns : list lockid; c_before : bool }.
#[global] Instance cpustate_eta : Eta cpustate := {| eta r := mkCpu (c_pc r) (c_irq r) (c_owns r) (c_before r) |}.

(** [parked t]: for a process [t] that has switched away in [sched], its local variable [intena] there, and its
    history variable [c_before]. *)
Record smp := mkSmp { locks : lockid -> spinlock; cpus : nat -> cpustate; parked : nat -> option (bool * bool) }.
#[global] Instance smp_eta : Eta smp := {| eta r := mkSmp (locks r) (cpus r) (parked r) |}.

Definition set_cpu (c : nat) (g : cpustate -> cpustate) : M smp unit :=
  modify (fun s => s <| cpus ::= fun f i => if decide (i = c) then g (f i) else f i |>).
Definition set_lock (l : lockid) (g : spinlock -> spinlock) : M smp unit :=
  modify (fun s => s <| locks ::= fun f i => if decide (i = l) then g (f i) else f i |>).
Definition park (t : nat) (v : option (bool * bool)) : M smp unit :=
  modify (fun s => s <| parked ::= fun f i => if decide (i = t) then v else f i |>).
Definition goto (c : nat) (pc : lockpc) : M smp unit := set_cpu c (fun st => st <| c_pc := pc |>).

(** Run [pushcli] or [popcli] on CPU [c]. *)
Definition on_irq (c : nat) (m : M cpuirq unit) : M smp unit := fun s =>
  match m (c_irq (cpus s c)) with
  | Ret _ i => set_cpu c (fun st => st <| c_irq := i |>) s
  | Panic msg => Panic msg
  | _ => Spins
  end.

(** What a CPU outside [acquire] and [release] does next: call one of them; set the interrupt flag, as [sti] in
    [scheduler] and [iret] do; call [sched] from process [t]; or, in [scheduler], switch to process [t]. *)
Inductive request : Type :=
| Acquire (l : lockid) | Release (l : lockid) | SetIF (b : bool) | Sched (t : nat) | Resume (t : nat).

(** The parts of [sched] that are about locks: the tests, [intena = cpu->intena] and [swtch] to the scheduler, which
    goes on with [ptable.lock] held and [cpu->intena] as the process left it. *)
Definition sched_out (c t : nat) : M smp unit :=
  let! s := get in
  let st := cpus s c in
  if negb (negb (lk_locked (locks s LPtable) =? 0) && bool_decide (lk_cpu (locks s LPtable) = Some c)) then
    panic "sched ptable.lock"
  else if negb (c_ncli (c_irq st) =? 1) then panic "sched locks"
  else if c_if (c_irq st) then panic "sched interruptible"
  else
    park t (Some (c_intena (c_irq st), c_before st)) ;;
    set_cpu c (fun st => st <| c_before := c_intena (c_irq st) |>).
(** [swtch] back into process [t]: [cpu->intena = intena]; a new process goes to [forkret] instead. *)
Definition sched_in (c t : nat) : M smp unit :=
  let! s := get in
  match parked s t with
  | Some (intena, before) =>
      park t None ;;
      set_cpu c (fun st => st <| c_irq ::= fun i => i <| c_intena := intena |> |> <| c_before := before |>)
  | None => ret tt
  end.

(** One step of CPU [c].  [m] and [v] are its memory and the address of [lk] on its
    stack, for [getcallerpcs]. *)
Definition cpu_step (c : nat) (r : request) (m : Z -> Z) (v : Z) : M smp unit :=
  let! s := get in
  match c_pc (cpus s c) with
  | Client =>
      match r with
      | Acquire l =>
          set_cpu c (fun st => st <| c_before := if c_owns st is [] then c_if (c_irq st) else c_before st |>) ;;
          on_irq c pushcli ;;
          goto c (AqHold1 l)
      | Release l => if lk_locked (locks s l) =? 0 then panic "release" else goto c (RlHold2 l)
      | SetIF b => set_cpu c (fun st => st <| c_irq ::= fun i => i <| c_if := b |> |>)
      | Sched t => sched_out c t
      | Resume t => sched_in c t
      end
  | AqHold1 l => goto c (if lk_locked (locks s l) =? 0 then AqXchg l else AqHold2 l)
  | AqHold2 l =>
      if decide (lk_cpu (locks s l) = Some c) then panic "acquire" else goto c (AqXchg l)
  | AqXchg l =>
      let old := lk_locked (locks s l) in
      set_lock l (fun k => k <| lk_locked := 1 |>) ;;
      when (old =? 0) (goto c (AqRecord l))
  | AqRecord l =>
      set_lock l (fun k => k <| lk_cpu := Some c |> <| lk_pcs := getcallerpcs m v |>) ;;
      set_cpu c (fun st => st <| c_pc := Client |> <| c_owns ::= cons l |>)
  | RlHold2 l =>
      if decide (lk_cpu (locks s l) = Some c) then
        set_cpu c (fun st => st <| c_pc := RlClear l |> <| c_owns ::= remove_lock l |>)
      else panic "release"
  | RlClear l =>
      set_lock l (fun k => k <| lk_pcs ::= <[0%nat := 0]> |> <| lk_cpu := None |>) ;;
      goto c (RlXchg l)
  | RlXchg l => set_lock l (fun k => k <| lk_locked := 0 |>) ;; goto c (RlPop l)
  | RlPop l => on_irq c popcli ;; goto c Client
  end.

(** The interrupt flag is set directly only by a CPU without locks: [scheduler] calls [sti] before it takes any, and
    [iret] returns to code that was interrupted, or to user mode. *)
Definition disciplined (r : request) (st : cpustate) : Prop := forall b, r = SetIF b -> c_owns st = [].

(** States reached from boot: every lock initialised, no CPU in the lock code. *)
Inductive reach : smp -> Prop :=
| reach_init s :
    (forall l, lk_locked (locks s l) = 0 /\ lk_cpu (locks s l) = None) ->
    (forall c, c_pc (cpus s c) = Client /\ c_owns (cpus s c) = [] /\ c_ncli (c_irq (cpus s c)) = 0) ->
    (forall t, parked s t = None) ->
    reach s
| reach_step s c r m v s' : reach s -> disciplined r (cpus s c) -> cpu_step c r m v s = Ret tt s' -> reach s'.

(** ** Invariant *)

(** CPU [c] is past the successful [xchg] of [acquire l] and before that of [release l]. *)
Definition inside (st : cpustate) (l : lockid) : Prop :=
  l ∈ c_owns st \/ c_pc st = AqRecord l \/ c_pc st = RlClear l \/ c_pc st = RlXchg l.

(** CPU [c] is recorded in [lk->cpu]. *)
Definition recorded (st : cpustate) (l : lockid) : Prop := l ∈ c_owns st \/ c_pc st = RlClear l.

(** [pushcli]s of the call in progress. *)
Definition in_call (pc : lockpc) : nat :=
  match pc with Client | RlHold2 _ => 0 | _ => 1 end.

Record smp_inv (s : smp) : Prop := {
  si_bool : forall l, lk_locked (locks s l) = 0 \/ lk_locked (locks s l) = 1;
  si_locked : forall l, lk_locked (locks s l) = 1 <-> exists c, inside (cpus s c) l;
  si_mutex : forall l c1 c2, inside (cpus s c1) l -> inside (cpus s c2) l -> c1 = c2;
  si_cpu : forall l c, lk_cpu (locks s l) = Some c <-> recorded (cpus s c) l;
  si_nodup : forall c, NoDup (c_owns (cpus s c));
  si_pc : forall c l, (c_pc (cpus s c) = AqRecord l \/ c_pc (cpus s c) = RlClear l \/
                       c_pc (cpus s c) = RlXchg l) -> l ∉ c_owns (cpus s c);
  si_ncli : forall c, c_ncli (c_irq (cpus s c)) =
              Z.of_nat (length (c_owns (cpus s c)) + in_call (c_pc (cpus s c)));
  si_if : forall c, 0 < c_ncli (c_irq (cpus s c)) -> c_if (c_irq (cpus s c)) = false;
  si_before : forall c, 0 < c_ncli (c_irq (cpus s c)) -> c_intena (c_irq (cpus s c)) = c_before (cpus s c) }.
Definition parked_ok (s : smp) : Prop := forall t intena before, parked s t = Some (intena, before) -> intena = before.

Lemma recorded_inside st l : recorded st l -> inside st l.
Proof. unfold recorded, inside. tauto. Qed.

(** The conditions on one CPU alone. *)
Record cpu_ok (st : cpustate) : Prop := {
  co_nodup : NoDup (c_owns st);
  co_pc : forall l, (c_pc st = AqRecord l \/ c_pc st = RlClear l \/ c_pc st = RlXchg l) ->
            l ∉ c_owns st;
  co_ncli : c_ncli (c_irq st) = Z.of_nat (length (c_owns st) + in_call (c_pc st));
  co_if : 0 < c_ncli (c_irq st) -> c_if (c_irq st) = false;
  co_before : 0 < c_ncli (c_irq st) -> c_intena (c_irq st) = c_before st }.

(** [locked] and membership change together, as [xchg] makes them. *)
Inductive lock_move (s : smp) (c : nat) (st' : cpustate) (l : lockid) (k' : spinlock) : Prop :=
| move_none : lk_locked k' = lk_locked (locks s l) -> (inside st' l <-> inside (cpus s c) l) ->
    lock_move s c st' l k'
| move_in : lk_locked (locks s l) = 0 -> lk_locked k' = 1 -> inside st' l -> lock_move s c st' l k'
| move_out : inside (cpus s c) l -> lk_locked k' = 0 -> ~ inside st' l -> lock_move s c st' l k'.

Inductive cpu_move (s : smp) (c : nat) (st' : cpustate) (l : lockid) (k' : spinlock) : Prop :=
| rec_none : lk_cpu k' = lk_cpu (locks s l) -> (recorded st' l <-> recorded (cpus s c) l) ->
    cpu_move s c st' l k'
| rec_in : lk_cpu k' = Some c -> inside (cpus s c) l -> recorded st' l -> cpu_move s c st' l k'
| rec_out : lk_cpu k' = None -> recorded (cpus s c) l -> ~ recorded st' l -> cpu_move s c st' l k'.

Lemma inside_ex s s' c st' l' :
  (forall i, cpus s' i = if decide (i = c) then st' else cpus s i) ->
  (exists i, inside (cpus s' i) l') <-> inside st' l' \/ exists i, i <> c /\ inside (cpus s i) l'.
Proof.
  intros EC. split.
  - intros [i Hi]. rewrite EC in Hi. destruct (decide (i = c)); [by left|right; eauto].
  - intros [H|(i & Hne & Hi)].
    + exists c. rewrite EC. by rewrite decide_True.
    + exists i. rewrite EC. by rewrite decide_False.
Qed.

Section inv_update.
Variables (s s' : smp) (c : nat) (st' : cpustate) (l : lockid) (k' : spinlock).
Hypothesis I : smp_inv s.
Hypothesis EL : forall l', locks s' l' = if decide (l' = l) then k' else locks s l'.
Hypothesis EC : forall i, cpus s' i = if decide (i = c) then st' else cpus s i.
Hypothesis Hin : forall l', l' <> l -> inside st' l' <-> inside (cpus s c) l'.
Hypothesis Hrec : forall l', l' <> l -> recorded st' l' <-> recorded (cpus s c) l'.
Hypothesis HL : lock_move s c st' l k'.
Hypothesis HC : cpu_move s c st' l k'.
Hypothesis Hok : cpu_ok st'.

Lemma no_other_inside l' i : inside (cpus s c) l' -> i <> c -> ~ inside (cpus s i) l'.
Proof. intros Hc Hne Hi. apply Hne. by eapply (si_mutex s I l'). Qed.

Lemma free_nobody l' i : lk_locked (locks s l') = 0 -> ~ inside (cpus s i) l'.
Proof. intros H0 Hi. assert (lk_locked (locks s l') = 1) by (apply (si_locked s I); eauto). lia. Qed.

Lemma inside_step i l' : inside (cpus s' i) l' ->
  (i = c /\ inside st' l') \/ (i <> c /\ inside (cpus s i) l').
Proof. rewrite EC. destruct (decide (i = c)); auto. Qed.

Lemma locked_step l' : lk_locked (locks s' l') = 1 <-> exists i, inside (cpus s' i) l'.
Proof.
  rewrite (inside_ex s s' c st' l' EC), EL. pose proof (si_locked s I l') as Hs.
  assert (Hsplit : (exists i, inside (cpus s i) l') <->
    inside (cpus s c) l' \/ exists i, i <> c /\ inside (cpus s i) l').
  { split; [|naive_solver]. intros [i Hi]. destruct (decide (i = c)) as [->|]; eauto. }
  destruct (decide (l' = l)) as [->|Hne]; [|rewrite Hs, Hsplit, Hin by done; done].
  destruct HL as [E Hi|E0 E1 Hi|Hi E0 Hn].
  - rewrite E, Hs, Hsplit, Hi. done.
  - rewrite E1. split; [by left|done].
  - rewrite E0. split; [done|]. intros [H|(i & Hne & H)]; [done|]. by destruct (no_other_inside l i Hi Hne).
Qed.

Lemma mutex_step l' c1 c2 : inside (cpus s' c1) l' -> inside (cpus s' c2) l' -> c1 = c2.
Proof.
  intros [[-> H1]|[N1 H1]]%inside_step [[-> H2]|[N2 H2]]%inside_step; try done.
  3: by eapply (si_mutex s I l').
  all: exfalso; destruct (decide (l' = l)) as [->|Hne]; [destruct HL as [E Hi|E0 E1 Hi|Hi E0 Hn]|].
  all: try (apply Hin in H1 + apply Hin in H2; [by eapply no_other_inside|done]).
  all: try (apply Hi in H1 + apply Hi in H2; by eapply no_other_inside).
  all: try done; by eapply free_nobody.
Qed.

Lemma cpu_step_ok l' i : lk_cpu (locks s' l') = Some i <-> recorded (cpus s' i) l'.
Proof.
  rewrite EL, EC. pose proof (si_cpu s I l' i) as Hs.
  assert (Hother : inside (cpus s c) l -> i <> c -> ~ recorded (cpus s i) l).
  { intros Hi Hne Hr. eapply no_other_inside; [exact Hi|exact Hne|by apply recorded_inside]. }
  destruct (decide (l' = l)) as [->|Hne], (decide (i = c)) as [->|Hnc]; rewrite ?Hrec by done; try done.
  - destruct HC as [E Hr|E Hi Hr|E Hr Hn]; rewrite E; [by rewrite Hs, Hr|done|done].
  - destruct HC as [E Hr|E Hi Hr|E Hr Hn]; rewrite E; [done| |].
    + split; [congruence|]. intros H. by destruct (Hother Hi Hnc).
    + split; [done|]. intros H. destruct (Hother (recorded_inside _ _ Hr) Hnc H).
Qed.

Lemma smp_inv_update : smp_inv s'.
Proof.
  assert (Hcpu : forall i, cpu_ok (cpus s' i)).
  { intros i. rewrite EC. destruct (decide (i = c)); [done|]. split; apply I. }
  split; try (intros; by apply Hcpu).
  - intros l'. rewrite EL. destruct (decide (l' = l)) as [->|]; [|apply I].
    destruct HL as [E _|_ E _|_ E _]; rewrite E; auto. apply I.
  - apply locked_step.
  - apply mutex_step.
  - apply cpu_step_ok.
Qed.
End inv_update.

Lemma pushcli_run i : pushcli i = Ret tt (mkIrq false (c_ncli i + 1)
  (if c_ncli i =? 0 then c_if i else c_intena i)).
Proof. unfold pushcli, bind. cbn. by destruct (c_ncli i =? 0). Qed.

Lemma popcli_run i : c_if i = false -> 1 <= c_ncli i -> popcli i =
  Ret tt (mkIrq ((c_ncli i - 1 =? 0) && c_intena i) (c_ncli i - 1) (c_intena i)).
Proof.
  intros Hi Hn. unfold popcli, bind, get. cbn. rewrite Hi. cbn.
  destruct (Z.ltb_spec (c_ncli i - 1) 0); [lia|].
  unfold when. destruct ((c_ncli i - 1 =? 0) && c_intena i); [done|]. by rewrite <- Hi; destruct i.
Qed.

Lemma elem_of_remove_lock l x h : NoDup h -> x ∈ remove_lock l h <-> x ∈ h /\ x <> l.
Proof.
  induction h as [|y h IH]; intros Hn; cbn; [set_solver|]. apply NoDup_cons in Hn as [Hy Hn].
  destruct (decide (l = y)) as [->|]; [set_solver|]. rewrite !elem_of_cons, IH by done.
  split; [|tauto]. intros [->|[? ?]]; auto.
Qed.

Lemma NoDup_remove_lock l h : NoDup h -> NoDup (remove_lock l h).
Proof.
  induction h as [|y h IH]; intros Hn; cbn; [done|]. pose proof Hn as [Hy Hn']%NoDup_cons.
  destruct (decide (l = y)) as [->|]; [done|]. apply NoDup_cons. split; [|auto].
  rewrite elem_of_remove_lock by done. tauto.
Qed.

Lemma length_remove_lock l h : l ∈ h -> S (length (remove_lock l h)) = length h.
Proof.
  induction h as [|y h IH]; intros Hl; cbn; [set_solver|].
  destruct (decide (l = y)) as [->|]; [done|]. cbn. rewrite IH; [done|set_solver].
Qed.

Lemma smp_inv_cpu s c : smp_inv s -> cpu_ok (cpus s c).
Proof. intros I. split; apply I. Qed.

(** A step that changes neither a lock nor what its CPU holds. *)
Lemma inv_quiet s s' c st' :
  smp_inv s -> cpu_ok st' ->
  (forall l, locks s' l = locks s l) ->
  (forall i, cpus s' i = if decide (i = c) then st' else cpus s i) ->
  (forall l, inside st' l <-> inside (cpus s c) l) -> (forall l, recorded st' l <-> recorded (cpus s c) l) ->
  smp_inv s'.
Proof.
  intros I Hok EL EC Hin Hrec. apply (smp_inv_update s _ c st' LPtable (locks s LPtable)); try done.
  - intros l'. rewrite EL. by destruct (decide (l' = LPtable)) as [->|].
  - by apply move_none.
  - by apply rec_none.
Qed.

Ltac solve_upd := let i := fresh in intros i; cbn; repeat case_decide; subst; done.
Ltac solve_sets := let x := fresh in intros x; cbn; naive_solver.

(** Read off the state a step returns. *)
Ltac inj_step := cbn [obind]; cbv beta iota; cbn [obind]; intros [= <-].

(** Spell out a step of CPU [c]. *)
Ltac open_step s c I :=
  pose proof (smp_inv_cpu s c I) as [Nd Np Nn Ni Nb];
  unfold cpu_step, bind, get, goto, set_cpu, set_lock, on_irq, modify, when, panic, ret; cbn [obind];
  set (st := cpus s c) in *.

(** The steps of [acquire] that write the lock. *)
Lemma acquire_access_inv s c r m v s' l :
  smp_inv s -> c_pc (cpus s c) = AqXchg l \/ c_pc (cpus s c) = AqRecord l ->
  cpu_step c r m v s = Ret tt s' -> smp_inv s'.
Proof.
  intros I Hpc. open_step s c I. destruct Hpc as [Epc|Epc]; rewrite Epc in *; cbn [in_call] in *.
  - destruct (Z.eqb_spec (lk_locked (locks s l)) 0) as [E0|E0].
    + inj_step.
      apply (smp_inv_update s _ c (st <| c_pc := AqRecord l |>) l ((locks s l) <| lk_locked := 1 |>));
        try solve_upd; try done; unfold inside, recorded; fold st; cbn; rewrite ?Epc;
        try solve_sets.
      * apply move_in; [done|done|]. right. by left.
      * apply rec_none; [done|]. unfold recorded. fold st. cbn. rewrite Epc. naive_solver.
      * split; cbn; [done| |done|done|done]. intros l1 [[= <-]|[?|?]]; try done.
        intros Hl. apply (free_nobody s I l c E0). by left.
    + inj_step.
      apply (smp_inv_update s _ c st l ((locks s l) <| lk_locked := 1 |>)); try solve_upd; try done.
      * apply move_none; [|done]. cbn. destruct (si_bool s I l); [done|congruence].
      * by apply rec_none.
      * apply (smp_inv_cpu s c I).
  - inj_step. assert (Hn : l ∉ c_owns st) by (apply Np; by left).
    apply (smp_inv_update s _ c (st <| c_pc := Client |> <| c_owns ::= cons l |>) l
      ((locks s l) <| lk_cpu := Some c |> <| lk_pcs := getcallerpcs m v |>)); try solve_upd; try done;
      unfold inside, recorded; fold st; cbn; rewrite ?Epc.
    + intros l1 Hl1. set_solver.
    + intros l1 Hl1. set_solver.
    + apply move_none; [done|]. unfold inside. fold st. cbn. rewrite Epc. set_solver.
    + apply rec_in; [done| |]; unfold inside, recorded; fold st; cbn; rewrite ?Epc; set_solver.
    + split; cbn; [by apply NoDup_cons|naive_solver|lia|done|done].
Qed.

(** The steps of [release] up to the [xchg]. *)
Lemma release_access_inv s c r m v s' l :
  smp_inv s ->
  c_pc (cpus s c) = RlHold2 l \/ c_pc (cpus s c) = RlClear l \/ c_pc (cpus s c) = RlXchg l ->
  cpu_step c r m v s = Ret tt s' -> smp_inv s'.
Proof.
  intros I Hpc. open_step s c I. destruct Hpc as [Epc|[Epc|Epc]]; rewrite Epc in *; cbn [in_call] in *.
  - destruct (decide _) as [Ec|]; [|done]. inj_step.
    assert (Hl : l ∈ c_owns st).
    { apply (si_cpu s I) in Ec. destruct Ec as [Ec|Ec]; [done|]. fold st in Ec. congruence. }
    apply (smp_inv_update s _ c (st <| c_pc := RlClear l |> <| c_owns ::= remove_lock l |>) l (locks s l));
      try solve_upd; try done; unfold inside, recorded; fold st; cbn; rewrite ?Epc.
    + intros l1 Hl1. rewrite elem_of_remove_lock by done. naive_solver.
    + intros l1 Hl1. rewrite elem_of_remove_lock by done. naive_solver.
    + apply move_none; [done|]. unfold inside. fold st. cbn. rewrite Epc, elem_of_remove_lock by done. naive_solver.
    + apply rec_none; [done|]. unfold recorded. fold st. cbn. rewrite Epc, elem_of_remove_lock by done. naive_solver.
    + pose proof (length_remove_lock l (c_owns st) Hl).
      split; cbn; [by apply NoDup_remove_lock| |lia|done|done].
      intros l1 [?|[[= <-]|?]]; try done. rewrite elem_of_remove_lock by done. tauto.
  - inj_step. assert (Hn : l ∉ c_owns st) by (apply Np; auto).
    apply (smp_inv_update s _ c (st <| c_pc := RlXchg l |>) l
      ((locks s l) <| lk_pcs ::= <[0%nat := 0]> |> <| lk_cpu := None |>)); try solve_upd; try done;
      unfold inside, recorded; fold st; cbn; rewrite ?Epc; try (intros; naive_solver).
    + apply move_none; [done|]. unfold inside. fold st. cbn. rewrite Epc. naive_solver.
    + apply rec_out; [done| |]; unfold recorded; fold st; cbn; rewrite ?Epc; naive_solver.
    + split; cbn; [done|naive_solver|lia|done|done].
  - inj_step. assert (Hn : l ∉ c_owns st) by (apply Np; auto).
    apply (smp_inv_update s _ c (st <| c_pc := RlPop l |>) l ((locks s l) <| lk_locked := 0 |>));
      try solve_upd; try done; unfold inside, recorded; fold st; cbn; rewrite ?Epc; try (intros; naive_solver).
    + apply move_out; [| done|]; unfold inside; fold st; cbn; rewrite ?Epc; naive_solver.
    + apply rec_none; [done|]. unfold recorded. fold st. cbn. rewrite Epc. naive_solver.
    + split; cbn; [done|naive_solver|lia|done|done].
Qed.

Lemma quiet_step_inv s s' c st' :
  smp_inv s -> cpu_ok st' -> (forall l, locks s' l = locks s l) ->
  (forall i, cpus s' i = if decide (i = c) then st' else cpus s i) ->
  c_owns st' = c_owns (cpus s c) ->
  (forall l, ~ (c_pc st' = AqRecord l \/ c_pc st' = RlClear l \/ c_pc st' = RlXchg l)) ->
  (forall l, ~ (c_pc (cpus s c) = AqRecord l \/ c_pc (cpus s c) = RlClear l \/ c_pc (cpus s c) = RlXchg l)) ->
  smp_inv s'.
Proof.
  intros I Hok EL EC Eo Hpc' Hpc. apply (inv_quiet s s' c st'); try done;
    intros l; unfold inside, recorded; rewrite Eo; naive_solver.
Qed.

(** The calls a client makes. *)
Lemma client_step_inv s c r m v s' : smp_inv s -> parked_ok s -> disciplined r (cpus s c) ->
  c_pc (cpus s c) = Client -> cpu_step c r m v s = Ret tt s' -> smp_inv s'.
Proof.
  intros I PK D Epc. open_step s c I. rewrite Epc in *. cbn [in_call] in Nn.
  assert (Hquiet : forall st', cpu_ok st' -> c_owns st' = c_owns st ->
    (forall l, ~ (c_pc st' = AqRecord l \/ c_pc st' = RlClear l \/ c_pc st' = RlXchg l)) ->
    forall s1, (forall l, locks s1 l = locks s l) -> (forall i, cpus s1 i = if decide (i = c) then st' else cpus s i) -> smp_inv s1).
  { intros st' Hok Eo Hpc s1 EL EC. apply (quiet_step_inv s s1 c st'); try done. intros l. fold st. rewrite Epc. naive_solver. }
  destruct r as [l|l|b|t|t].
  - rewrite pushcli_run. cbn. rewrite !decide_True by done. fold st. cbn. inj_step. apply (Hquiet (mkCpu (AqHold1 l) (mkIrq false (c_ncli (c_irq st) + 1)
      (if c_ncli (c_irq st) =? 0 then c_if (c_irq st) else c_intena (c_irq st))) (c_owns st)
      (if c_owns st is [] then c_if (c_irq st) else c_before st))); try done; try solve_upd; try solve_sets.
    split; cbn; [done|naive_solver|lia|done|]. intros _. destruct (c_owns st); cbn in Nn; destruct (Z.eqb_spec (c_ncli (c_irq st)) 0);
      try done; try lia. apply Nb. lia.
  - destruct (lk_locked (locks s l) =? 0); [done|]. inj_step. apply (Hquiet (st <| c_pc := RlHold2 l |>)); try done; try solve_upd; try solve_sets.
    split; cbn; [done|naive_solver|lia|done|done].
  - pose proof (D b eq_refl) as Eo. fold st in Eo. inj_step.
    apply (Hquiet (st <| c_irq ::= fun i => i <| c_if := b |> |>)); try done; try solve_upd; [|cbn; rewrite Epc; naive_solver].
    split; cbn; rewrite ?Epc; [done|naive_solver|done|rewrite Eo in Nn; cbn in Nn; lia|done].
  - unfold sched_out, bind, get, park, panic, modify. cbn [obind]. fold st. destruct (negb (_ && _)); [done|].
    destruct (negb _); [done|]. destruct (c_if (c_irq st)) eqn:Eif; [done|]. unfold set_cpu, modify. inj_step.
    apply (Hquiet (st <| c_before := c_intena (c_irq st) |>)); try done; try solve_upd; [|cbn; rewrite Epc; naive_solver].
    split; cbn; rewrite ?Epc; [done|naive_solver|cbn; lia|done|done].
  - unfold sched_in, bind, get, park, ret, modify. cbn [obind]. destruct (parked s t) as [[ie be]|] eqn:Et; [|by inj_step].
    unfold set_cpu, modify. inj_step. apply (Hquiet (st <| c_irq ::= fun i => i <| c_intena := ie |> |> <| c_before := be |>));
      try done; try solve_upd; [|cbn; rewrite Epc; naive_solver].
    split; cbn; rewrite ?Epc; [done|naive_solver|cbn; lia|by intros; apply Ni|]. intros _. by apply (PK t).
Qed.

Lemma cpu_step_inv s c r m v s' : smp_inv s -> parked_ok s -> disciplined r (cpus s c) ->
  cpu_step c r m v s = Ret tt s' -> smp_inv s'.
Proof.
  intros I PK D. destruct (c_pc (cpus s c)) as [|l|l|l|l|l|l|l|l] eqn:Epc.
  1: by apply client_step_inv.
  3,4: apply (acquire_access_inv s c r m v s' l I); auto.
  3-5: apply (release_access_inv s c r m v s' l I); auto.
  all: open_step s c I; rewrite Epc; rewrite Epc in Nn; cbn [in_call] in Nn.
  - destruct (lk_locked (locks s l) =? 0); inj_step;
      [apply (quiet_step_inv s _ c (st <| c_pc := AqXchg l |>))|apply (quiet_step_inv s _ c (st <| c_pc := AqHold2 l |>))];
      try done; try solve_upd; try solve_sets; try (intros ?; fold st; rewrite Epc; naive_solver); (split; cbn; [done|naive_solver|done|done|done]).
  - destruct (decide _); [done|]. inj_step.
    apply (quiet_step_inv s _ c (st <| c_pc := AqXchg l |>)); try done; try solve_upd; try solve_sets; try (intros ?; fold st; rewrite Epc; naive_solver).
    split; cbn; [done|naive_solver|done|done|done].
  - assert (Hpos : 1 <= c_ncli (c_irq st)) by lia.
    rewrite popcli_run; [|apply Ni; lia|done]. cbn. inj_step.
    apply (quiet_step_inv s _ c (mkCpu Client (mkIrq ((c_ncli (c_irq st) - 1 =? 0) && c_intena (c_irq st))
      (c_ncli (c_irq st) - 1) (c_intena (c_irq st))) (c_owns st) (c_before st))); try done; try solve_upd; try solve_sets; try (intros ?; fold st; rewrite Epc; naive_solver).
    split; cbn; [done|naive_solver|lia| |intros; apply Nb; lia]. intros Hp. destruct (Z.eqb_spec (c_ncli (c_irq st) - 1) 0); [lia|done].
Qed.

Lemma cpu_step_parked s c r m v s' : smp_inv s -> parked_ok s -> cpu_step c r m v s = Ret tt s' -> parked_ok s'.
Proof.
  intros I PK. pose proof (si_before s I c) as Nb. unfold cpu_step, bind, get, goto, set_cpu, set_lock, on_irq, modify, when, panic, ret. cbn [obind].
  destruct (c_pc (cpus s c)) as [|l|l|l|l|l|l|l|l]; try (repeat case_match; inj_step; done).
  destruct r as [l|l|b|t|t]; try (repeat case_match; inj_step; done).
  - unfold sched_out, bind, get, park, panic, set_cpu, modify. cbn [obind]. destruct (negb (_ && _)); [done|].
    destruct (Z.eqb_spec (c_ncli (c_irq (cpus s c))) 1); [|done]. cbn [negb]. destruct (c_if (c_irq (cpus s c))); [done|]. inj_step.
    intros t' ie be. cbn. case_decide; [|apply PK]. intros [= <- <-]. apply Nb. lia.
  - unfold sched_in, bind, get, park, set_cpu, ret, modify. cbn [obind]. destruct (parked s t) as [[ie be]|]; [|by inj_step]. inj_step.
    intros t' ie' be'. cbn. case_decide; [done|apply PK].
Qed.

Lemma reach_both s : reach s -> smp_inv s /\ parked_ok s.
Proof.
  induction 1 as [s HL HC HP|s c r m v s' _ [IH1 IH2] Hd Hstep].
  2:{ split; [by eapply cpu_step_inv|by eapply cpu_step_parked]. }
  split; [|intros t ie be; by rewrite HP].
  assert (Hno : forall c l, ~ inside (cpus s c) l).
  { intros c l. destruct (HC c) as (Ep & Eo & _). unfold inside. rewrite Ep, Eo. set_solver. }
  split.
  - intros l. left. apply HL.
  - intros l. rewrite (proj1 (HL l)). split; [done|]. intros [c Hc]. by destruct (Hno c l).
  - intros l c1 c2 H. by destruct (Hno c1 l).
  - intros l c. rewrite (proj2 (HL l)). split; [done|]. intros H%recorded_inside. by destruct (Hno c l).
  - intros c. destruct (HC c) as (_ & -> & _). constructor.
  - intros c l Hpc. destruct (HC c) as (Ep & _). rewrite Ep in Hpc. naive_solver.
  - intros c. destruct (HC c) as (-> & -> & ->). done.
  - intros c. destruct (HC c) as (_ & _ & ->). lia.
  - intros c. destruct (HC c) as (_ & _ & ->). lia.
Qed.
Lemma reach_inv s : reach s -> smp_inv s.
Proof. apply reach_both. Qed.

(** ** Theorems *)

(** C9. Spinlocks exclude: in every interleaving of the CPUs, at most one CPU is
    between the return of [acquire(lk)] and the call of [release(lk)], and while it is
    there [lk->locked] is 1 and [lk->cpu] names it. *)
Theorem spinlock_mutex (s : smp) (l : lockid) (c1 c2 : nat) :
  reach s -> l ∈ c_owns (cpus s c1) -> l ∈ c_owns (cpus s c2) ->
  c1 = c2 /\ lk_locked (locks s l) = 1 /\ lk_cpu (locks s l) = Some c1.
Proof.
  intros I%reach_inv H1 H2. split_and!.
  - apply (si_mutex s I l); by left.
  - apply (si_locked s I). exists c1. by left.
  - apply (si_cpu s I). by left.
Qed.

(** The lock code panics only on misuse: [acquire] when this CPU already holds the
    lock, [release] when it does not, [sched] when it does not hold [ptable.lock] alone.  In
    particular the races in reading [locked] and [cpu] separately are harmless, and [popcli]
    never panics. *)
Theorem spinlock_panics (s : smp) (c : nat) (r : request) (m : Z -> Z) (v : Z) (msg : string) :
  reach s -> cpu_step c r m v s = Panic msg ->
  (msg = "acquire" /\ exists l, c_pc (cpus s c) = AqHold2 l /\ l ∈ c_owns (cpus s c)) \/
  (msg = "release" /\ exists l, (r = Release l \/ c_pc (cpus s c) = RlHold2 l) /\ l ∉ c_owns (cpus s c)) \/
  (exists t, r = Sched t /\ c_owns (cpus s c) <> [LPtable]).
Proof.
  intros I%reach_inv. pose proof (si_ncli s I c) as Nn. pose proof (si_if s I c) as Ni.
  unfold cpu_step, bind, get, goto, set_cpu, set_lock, on_irq, modify, when, panic, ret. cbn [obind].
  destruct (c_pc (cpus s c)) as [|l|l|l|l|l|l|l|l] eqn:Epc; cbn [in_call] in *; try done.
  - destruct r as [l|l|b|t|t].
    + rewrite pushcli_run. done.
    + destruct (Z.eqb_spec (lk_locked (locks s l)) 0) as [E|]; [|done]. inj_step. right. left.
      split; [done|]. exists l. split; [by left|]. intros Hl.
      apply (free_nobody s I l c E). by left.
    + done.
    + intros E. right. right. exists t. split; [done|]. intros Eo. revert E. rewrite Eo in Nn. cbn in Nn.
      unfold sched_out, bind, get, park, panic, set_cpu, modify. cbn [obind].
      assert (Hin : LPtable ∈ c_owns (cpus s c)) by (rewrite Eo; set_solver).
      rewrite (proj2 (si_locked s I LPtable)) by (exists c; by left).
      rewrite bool_decide_eq_true_2 by (apply (si_cpu s I); by left). rewrite Nn, Ni by lia. done.
    + unfold sched_in, bind, get, park, set_cpu, ret, modify. cbn [obind]. destruct (parked s t) as [[]|]; done.
  - destruct (decide _) as [E|]; [|done]. inj_step. left. split; [done|]. exists l. split; [done|].
    apply (si_cpu s I) in E. destruct E as [E|E]; [done|congruence].
  - by destruct (_ =? 0).
  - destruct (decide _) as [E|E]; [done|]. inj_step. right. left. split; [done|]. exists l.
    split; [by right|]. intros Hl. apply E, (si_cpu s I). by left.
  - rewrite popcli_run; [done|apply Ni; lia|lia].
Qed.

(** C33. A CPU that holds a lock, or is inside [acquire], runs with interrupts off, and [ncli] counts its locks and the
    call in progress; and the [popcli] of its last [release] gives the interrupt flag the value that it had before the
    first of the nested [acquire]s, while the [popcli] of an inner [release] leaves interrupts off.  This holds through
    [sched]: a process that switched away with [ptable.lock] held gets back the value from before its own [acquire],
    whatever CPU it continues on; only the scheduler goes on with the value the process left. *)
Theorem spinlock_interrupts (s : smp) (c : nat) :
  reach s ->
  let st := cpus s c in
  (c_owns st <> [] \/ in_call (c_pc st) = 1%nat -> c_if (c_irq st) = false) /\
  c_ncli (c_irq st) = Z.of_nat (length (c_owns st) + in_call (c_pc st)) /\
  (forall l r m v s', c_pc st = RlPop l -> cpu_step c r m v s = Ret tt s' ->
     c_ncli (c_irq (cpus s' c)) = Z.of_nat (length (c_owns st)) /\
     c_if (c_irq (cpus s' c)) = bool_decide (c_owns st = []) && c_before st).
Proof.
  intros I%reach_inv st. pose proof (si_ncli s I c) as Nn. pose proof (si_if s I c) as Ni. pose proof (si_before s I c) as Nb.
  fold st in Nn, Ni, Nb. split_and!; [|exact Nn|].
  - intros H. apply Ni. rewrite Nn. destruct H as [H|H]; [destruct (c_owns st); [done|cbn]|]; lia.
  - intros l r m v s' Epc. rewrite Epc in Nn. cbn [in_call] in Nn.
    unfold cpu_step, bind, get, goto, set_cpu, on_irq, modify. cbn [obind]. fold st. rewrite Epc, popcli_run; [|apply Ni; lia|fold st; lia].
    cbn. inj_step. cbn. rewrite decide_True by done. rewrite decide_True by done. cbn.
    fold st. rewrite <- Nb by lia. split; [lia|]. destruct (c_owns st) as [|l0 ls]; cbn in Nn.
    + rewrite bool_decide_eq_true_2 by done. destruct (Z.eqb_spec (c_ncli (c_irq st) - 1) 0); [done|lia].
    + rewrite bool_decide_eq_false_2 by done. destruct (Z.eqb_spec (c_ncli (c_irq st) - 1) 0); [lia|done].
Qed.

(** [n] steps of one CPU. *)
Fixpoint run_cpu (n : nat) (c : nat) (r : request) (m : Z -> Z) (v : Z) : M smp unit :=
  match n with O => ret tt | S n' => cpu_step c r m v ;; run_cpu n' c r m v end.

Lemma run_cpu_reach n : forall c r m v s s', (forall b, r <> SetIF b) -> reach s -> run_cpu n c r m v s = Ret tt s' -> reach s'.
Proof.
  induction n as [|n IH]; intros c r m v s s' Hr H0; cbn; [by inj_step|].
  unfold bind. destruct (cpu_step c r m v s) as [[] s2| | |] eqn:E; try done.
  apply IH; [done|]. eapply reach_step; [exact H0| |exact E]. intros b ->. by destruct (Hr b).
Qed.

(** A free lock is taken: when no CPU is inside lock [l], four steps of a CPU that
    calls [acquire] suffice to return with the lock held. *)
Theorem acquire_uncontended (s : smp) (c : nat) (l : lockid) (m : Z -> Z) (v : Z) :
  reach s -> c_pc (cpus s c) = Client -> (forall i, ~ inside (cpus s i) l) ->
  exists s', run_cpu 4 c (Acquire l) m v s = Ret tt s' /\ reach s' /\
    c_pc (cpus s' c) = Client /\ c_owns (cpus s' c) = l :: c_owns (cpus s c) /\
    c_if (c_irq (cpus s' c)) = false.
Proof.
  intros HR Epc Hfree. pose proof (reach_inv s HR) as I.
  assert (E0 : lk_locked (locks s l) = 0).
  { destruct (si_bool s I l) as [|E]; [done|]. apply (si_locked s I) in E as [i Hi]. by destruct (Hfree i). }
  assert (E : exists s', run_cpu 4 c (Acquire l) m v s = Ret tt s' /\
    c_pc (cpus s' c) = Client /\ c_owns (cpus s' c) = l :: c_owns (cpus s c) /\
    c_if (c_irq (cpus s' c)) = false).
  { unfold run_cpu, cpu_step, bind, get, goto, set_cpu, set_lock, on_irq, modify, when, ret. cbn [obind].
    rewrite Epc, pushcli_run. cbn. repeat (rewrite decide_True by done; cbn).
    rewrite E0. cbn. repeat (rewrite decide_True by done; cbn). rewrite E0. cbn.
    repeat (rewrite decide_True by done; cbn). eexists. split; [done|]. cbn.
    repeat (rewrite decide_True by done; cbn). done. }
  destruct E as (s' & E & H). exists s'. split; [exact E|]. split; [|done].
  eapply run_cpu_reach; [|exact HR|exact E]. done.
Qed.

(** ** Examples: two CPUs at boot *)
Definition lock0 (l : lockid) : spinlock := initlock "lock" (mkLock 0 "" None (replicate 10 0)).
Definition smp0 : smp := mkSmp lock0 (fun _ => mkCpu Client (mkIrq true 0 false) [] true) (fun _ => None).

Lemma reach_smp0 : reach smp0.
Proof. apply reach_init; done. Qed.

(** CPU 0 holds the console's lock. *)
Definition smp1 : smp :=
  match run_cpu 4 0 (Acquire LCons) (fun _ => 0) 0 smp0 with Ret _ s => s | _ => smp0 end.

Lemma reach_smp1 : reach smp1.
Proof. apply (run_cpu_reach 4 0 (Acquire LCons) (fun _ => 0) 0 smp0); [done|apply reach_smp0|reflexivity]. Qed.

Lemma spinlock_mutex_witness : lk_locked (locks smp1 LCons) = 1 /\ lk_cpu (locks smp1 LCons) = Some 0%nat.
Proof.
  destruct (spinlock_mutex smp1 LCons 0 0 reach_smp1) as (_ & H); [cbn; left..|exact H].
Defined.

Lemma spinlock_panics_witness : cpu_step 1 (Release LCons) (fun _ => 0) 0 smp0 = Panic "release" /\
  LCons ∉ c_owns (cpus smp0 1).
Proof.
  split; [reflexivity|].
  destruct (spinlock_panics smp0 1 (Release LCons) (fun _ => 0) 0 "release" reach_smp0 eq_refl)
    as [[E _]|[(_ & l & [E|E] & H)|(t & E & _)]]; [discriminate E|injection E as <-; exact H|discriminate E|discriminate E].
Defined.

(** CPU 0 takes the disk's lock too and releases both, up to the last [popcli]: interrupts were on, and are on again. *)
Definition run_from (n : nat) (r : request) (s : smp) : smp :=
  match run_cpu n 0 r (fun _ => 0) 0 s with Ret _ s' => s' | _ => s end.
Lemma run_from_reach n r s : (forall b, r <> SetIF b) -> reach s -> reach (run_from n r s).
Proof.
  intros Hr HR. unfold run_from. destruct (run_cpu n 0 r (fun _ => 0) 0 s) as [[] s'| | |] eqn:E; try done.
  by eapply run_cpu_reach.
Qed.
Definition smp2 : smp := run_from 4 (Release LCons) (run_from 5 (Release LIde) (run_from 4 (Acquire LIde) smp1)).
Lemma spinlock_interrupts_witness : c_if (c_irq (cpus smp2 0)) = false /\
  exists s', cpu_step 0 (Release LCons) (fun _ => 0) 0 smp2 = Ret tt s' /\ c_if (c_irq (cpus s' 0)) = true.
Proof.
  assert (R : reach smp2) by (do 3 (apply run_from_reach; [discriminate|]); apply reach_smp1).
  assert (Epc : c_pc (cpus smp2 0) = RlPop LCons) by (vm_compute; reflexivity).
  destruct (spinlock_interrupts smp2 0 R) as (H1 & _ & H2). split; [apply H1; right; rewrite Epc; reflexivity|].
  destruct (cpu_step 0 (Release LCons) (fun _ => 0) 0 smp2) as [[] s'|msg|s' k|] eqn:E.
  - exists s'. split; [reflexivity|]. destruct (H2 _ _ _ _ _ Epc E) as [_ ->]. vm_compute. reflexivity.
  - exfalso. assert (B : match cpu_step 0 (Release LCons) (fun _ => 0) 0 smp2 with Panic _ => false | _ => true end = true)
      by (vm_compute; reflexivity). rewrite E in B. discriminate B.
  - exfalso. assert (B : match cpu_step 0 (Release LCons) (fun _ => 0) 0 smp2 with Switched _ _ => false | _ => true end = true)
      by (vm_compute; reflexivity). rewrite E in B. discriminate B.
  - exfalso. assert (B : match cpu_step 0 (Release LCons) (fun _ => 0) 0 smp2 with Spins => false | _ => true end = true)
      by (vm_compute; reflexivity). rewrite E in B. discriminate B.
Defined.

Lemma acquire_uncontended_witness : exists s', run_cpu 4 1 (Acquire LIde) (fun _ => 0) 0 smp0 = Ret tt s'.
Proof.
  destruct (acquire_uncontended smp0 1 LIde (fun _ => 0) 0 reach_smp0 eq_refl) as (s' & E & _).
  - intros i [H|[H|[H|H]]]; [inversion H|discriminate H..].
  - exists s'. exact E.
Defined.
