(* ===== verification/Sched.v ===== *)
(** Scheduling and sleeping, the middle part of [kernel/proc.c]: the multi-level
    feedback queue of [scheduler] and [update_ticks], and [sched], [yield], [sleep],
    [wakeup] and [kill]. *)
From S2P Require Import Prelude Types Mem Kalloc Vm Shm.

(** ** Code *)

(** [ptable.proc[i] = g(ptable.proc[i])] *)
Definition upd_proc (i : nat) (g : proc -> proc) : M kernel unit :=
  modify (fun s => s <| ptable ::= alter g i |>).

(** *** Entering the scheduler

    [held] has as many locks as [cpu->ncli] counts, and interrupts are off while it
    is not empty, so the fourth check of [sched] cannot fail after the first. *)
Definition sched : M kernel unit :=
  let! s := get in
  if negb (holding LPtable s) then panic "sched ptable.lock"
  else if negb (Z.of_nat (length (held s)) =? 1) then panic "sched locks"
  else
    let! me := myproc in
    if decide (p_state me = RUNNING) then panic "sched running" else switch.

Definition tick_quota : list Z := [5; 5; 10; 20].

Definition update_ticks : M kernel unit :=
  upd_myproc (fun p => p <| p_ticks_used ::= alter (fun t => u32 (t + 1)) (Z.to_nat (p_priority p)) |>
                         <| p_ticks ::= fun t => u32 (t + 1) |>) ;;
  let! p := myproc in
  when ((p_priority p <? Z.of_nat NPRIOR - 1) &&
        (default 0 (tick_quota !! Z.to_nat (p_priority p)) <=? p_ticks p))
    (upd_myproc (fun p => p <| p_priority ::= fun n => n + 1 |> <| p_ticks := 0 |>)).

Definition yield : M kernel unit :=
  acquire LPtable ;;
  upd_myproc (fun p => p <| p_state := RUNNABLE |>) ;;
  update_ticks ;;
  sched ;;
  release LPtable.

Definition forkret : M kernel unit := release LPtable.

(** [lk] is never null here, which is what [sleep] checks second. *)
Definition sleep (c : chan) (lk : lockid) : M kernel unit :=
  let! cur := gets curproc in
  match cur with
  | None => panic "sleep"
  | Some _ =>
      when (negb (bool_decide (lk = LPtable))) (acquire LPtable ;; release lk) ;;
      upd_myproc (fun p => p <| p_chan := Some c |> <| p_state := SLEEPING |>) ;;
      sched ;;
      upd_myproc (fun p => p <| p_chan := None |>) ;;
      when (negb (bool_decide (lk = LPtable))) (release LPtable ;; acquire lk)
  end.

(** *** Waking up *)
Definition wake_proc (c : option chan) (p : proc) : proc :=
  if bool_decide (p_state p = SLEEPING) && bool_decide (p_chan p = c)
  then p <| p_state := RUNNABLE |> else p.
Definition wakeup1 (c : option chan) : M kernel unit :=
  modify (fun s => s <| ptable ::= fmap (wake_proc c) |>).
Definition wakeup (c : chan) : M kernel unit :=
  acquire LPtable ;;
  wakeup1 (Some c) ;;
  release LPtable.

(** The first process of [l] that satisfies [f], with its index counted from [n]. *)
Fixpoint find_proc (f : proc -> bool) (n : nat) (l : list proc) : option nat :=
  match l with
  | [] => None
  | p :: l' => if f p then Some n else find_proc f (S n) l'
  end.

Definition kill (pid : Z) : M kernel Z :=
  acquire LPtable ;;
  let! pt := gets ptable in
  match find_proc (fun p => p_pid p =? pid) 0 pt with
  | Some i =>
      upd_proc i (fun p => p <| p_killed := 1 |>) ;;
      upd_proc i (fun p => if decide (p_state p = SLEEPING) then p <| p_state := RUNNABLE |> else p) ;;
      release LPtable ;;
      ret 0
  | None =>
      release LPtable ;;
      ret (-1)
  end.

(** *** The scheduler *)

(** One process of the boost loop. *)
Definition boost (ticks_copy : Z) (p : proc) : proc :=
  if bool_decide (p_state p = RUNNABLE) && (0 <? p_priority p) &&
     (u32 (p_last_sched_time p + TSTARV) <? ticks_copy)
  then p <| p_priority ::= fun n => n - 1 |> else p.

(** [while (priority < NPRIOR)] over the queues from [q] up. *)
Fixpoint find_queue (fuel : nat) (q : Z) (pt : list proc) : option nat :=
  match fuel with
  | O => None
  | S fuel' =>
      match find_proc (fun p => bool_decide (p_state p = RUNNABLE) && (p_priority p =? q)) 0 pt with
      | Some i => Some i
      | None => find_queue fuel' (q + 1) pt
      end
  end.

(** One round of [scheduler] up to [swtch]; [None] when there is nothing to run.  After
    the chosen process comes back, [scheduler_back] ends the round. *)
Definition scheduler : M kernel (option nat) :=
  acquire LTicks ;;
  let! ticks_copy := gets ticks in
  release LTicks ;;
  acquire LPtable ;;
  modify (fun s => s <| ptable ::= fmap (boost ticks_copy) |>) ;;
  let! pt := gets ptable in
  match find_queue NPRIOR 0 pt with
  | Some i =>
      modify (fun s => s <| curproc := Some i |>) ;;
      let! p := myproc in
      switchuvm p ;;
      upd_proc i (fun p => p <| p_state := RUNNING |> <| p_last_sched_time := ticks_copy |>) ;;
      ret (Some i)
  | None =>
      release LPtable ;;
      ret None
  end.
Definition scheduler_back : M kernel unit :=
  switchkvm ;;
  modify (fun s => s <| curproc := None |>) ;;
  release LPtable.

(** ** Searching the process table *)
Lemma find_proc_Some f l : forall n i, find_proc f n l = Some i ->
  exists j p, i = (n + j)%nat /\ l !! j = Some p /\ f p = true /\
    forall k q, (k < j)%nat -> l !! k = Some q -> f q = false.
Proof.
  induction l as [|x l IH]; intros n i; cbn [find_proc]; [done|].
  destruct (f x) eqn:Ef.
  - intros [= <-]. exists 0%nat, x. split_and!; [lia|done|done|]. intros k q Hk. lia.
  - intros (j & p & -> & Hj & Hf & Hlt)%IH. exists (S j), p. split_and!; [lia|done|done|].
    intros [|k] q Hk Hq; [by injection Hq as <-|]. apply (Hlt k); [lia|done].
Qed.

Lemma find_proc_None f l : forall n, find_proc f n l = None -> forall j p, l !! j = Some p -> f p = false.
Proof.
  induction l as [|x l IH]; intros n; cbn [find_proc]; [done|].
  destruct (f x) eqn:Ef; [done|]. intros Hn [|j] p Hj; [by injection Hj as <-|]. by eapply IH.
Qed.

Definition runnable (p : proc) : Prop := p_state p = RUNNABLE.

(** What the search over the queues finds. *)
Lemma find_queue_Some fuel : forall q pt i, find_queue fuel q pt = Some i ->
  exists p, pt !! i = Some p /\ runnable p /\ q <= p_priority p < q + Z.of_nat fuel /\
    forall j p', pt !! j = Some p' -> runnable p' -> q <= p_priority p' ->
      p_priority p < p_priority p' \/ (p_priority p = p_priority p' /\ (i <= j)%nat).
Proof.
  induction fuel as [|fuel IH]; intros q pt i; cbn [find_queue]; [done|].
  set (f := fun p => _). destruct (find_proc f 0 pt) as [k|] eqn:E.
  - intros [= <-]. apply find_proc_Some in E as (j & p & -> & Hj & Hf & Hlt). exists p.
    apply andb_true_iff in Hf as [Hr Hq]. apply bool_decide_eq_true in Hr. apply Z.eqb_eq in Hq.
    split_and!; [done|done|lia|lia|]. intros j' p' Hj' Hr' Hq'.
    destruct (Z.eq_dec (p_priority p') q) as [Eq|]; [right|left; lia]. split; [lia|].
    destruct (Nat.le_gt_cases j j') as [|Hlt']; [done|]. specialize (Hlt j' p' Hlt' Hj').
    unfold f in Hlt. rewrite bool_decide_eq_true_2, Eq, Z.eqb_refl in Hlt by done. done.
  - intros (p & Hp & Hr & Hq & Hbest)%IH. exists p. split_and!; [done|done|lia|lia|].
    intros j p' Hj Hr' Hq'. apply (Hbest j p'); try done.
    pose proof (find_proc_None f pt 0 E j p' Hj) as Hn. unfold f in Hn.
    rewrite bool_decide_eq_true_2 in Hn by done. apply Z.eqb_neq in Hn. lia.
Qed.

Lemma find_queue_None fuel : forall q pt, find_queue fuel q pt = None ->
  forall j p, pt !! j = Some p -> runnable p -> ~ q <= p_priority p < q + Z.of_nat fuel.
Proof.
  induction fuel as [|fuel IH]; intros q pt; cbn [find_queue]; [lia|].
  set (f := fun p => _). destruct (find_proc f 0 pt) as [k|] eqn:E; [done|].
  intros Hn j p Hj Hr Hq. pose proof (find_proc_None f pt 0 E j p Hj) as Hf. unfold f in Hf.
  rewrite bool_decide_eq_true_2 in Hf by done. apply Z.eqb_neq in Hf.
  apply (IH (q + 1) pt Hn j p Hj Hr). lia.
Qed.

Lemma boost_state t p : p_state (boost t p) = p_state p /\ p_pgdir (boost t p) = p_pgdir p.
Proof. unfold boost. by destruct (_ && _). Qed.

(** What a round of [scheduler] does. *)
Definition round_result (s : kernel) (r : option nat) (s' : kernel) : Prop :=
  let pt := boost (ticks s) <$> ptable s in
  match r with
  | Some i => exists p, pt !! i = Some p /\ runnable p /\ 0 <= p_priority p < Z.of_nat NPRIOR /\
        (forall j p', pt !! j = Some p' -> runnable p' -> 0 <= p_priority p' ->
           p_priority p < p_priority p' \/ (p_priority p = p_priority p' /\ (i <= j)%nat)) /\
        curproc s' = Some i /\ cr3 s' = PADDR (p_pgdir p) /\ held s' = [LPtable] /\
        ptable s' = <[i := p <| p_state := RUNNING |> <| p_last_sched_time := ticks s |>]> pt
  | None =>
        (forall j p, pt !! j = Some p -> runnable p -> ~ 0 <= p_priority p < Z.of_nat NPRIOR) /\
        held s' = [] /\ ptable s' = pt
  end.
Definition have_pgdirs (s : kernel) : Prop := forall j p, ptable s !! j = Some p -> runnable p -> p_pgdir p <> 0.
Lemma wp_scheduler (s : kernel) :
  held s = [] -> have_pgdirs s ->
  let pt := boost (ticks s) <$> ptable s in
  wp scheduler s (fun r s' =>
    match r with
    | Some i => exists p, pt !! i = Some p /\ runnable p /\ 0 <= p_priority p < Z.of_nat NPRIOR /\
        (forall j p', pt !! j = Some p' -> runnable p' -> 0 <= p_priority p' ->
           p_priority p < p_priority p' \/ (p_priority p = p_priority p' /\ (i <= j)%nat)) /\
        curproc s' = Some i /\ cr3 s' = PADDR (p_pgdir p) /\ held s' = [LPtable] /\
        ptable s' = <[i := p <| p_state := RUNNING |> <| p_last_sched_time := ticks s |>]> pt
    | None =>
        (forall j p, pt !! j = Some p -> runnable p -> ~ 0 <= p_priority p < Z.of_nat NPRIOR) /\
        held s' = [] /\ ptable s' = pt
    end).
Proof.
  intros Hh Hpg pt. unfold scheduler.
  apply wp_acquire; [rewrite Hh; set_solver|]. apply wp_gets.
  eapply (wp_release _ (held s)); [done|]. apply wp_acquire; [cbn; rewrite Hh; set_solver|].
  apply wp_modify, wp_gets. cbn [ptable update]. change (boost _ <$> ptable s) with pt.
  destruct (find_queue NPRIOR 0 pt) as [i|] eqn:Eq.
  - apply find_queue_Some in Eq as (p & Hp & Hr & Hq & Hbest). apply wp_modify.
    assert (Hlook : ((s <| held ::= cons LTicks |> <| held := held s |> <| held ::= cons LPtable |>
      <| ptable ::= fmap (boost (ticks s)) |> <| curproc := Some i |>)) = 
      (s <| held := [LPtable] |> <| ptable := pt |> <| curproc := Some i |>)).
    { kext. cbn. by rewrite Hh. }
    cbn [ticks update]. rewrite Hlook. clear Hlook.
    apply wp_bind. unfold myproc. apply wp_gets, wp_gets. cbn. rewrite Hp. apply wp_intro_ret.
    unfold switchuvm, myproc. apply wp_bind, wp_bind, wp_gets, wp_gets. cbn. rewrite Hp. apply wp_intro_ret.
    apply wp_modify. destruct (Z.eqb_spec (p_pgdir p) 0) as [E|E].
    + exfalso. unfold pt in Hp. rewrite list_lookup_fmap in Hp.
      destruct (ptable s !! i) as [q|] eqn:Hq'; [|done]. injection Hp as Hp. subst p.
      destruct (boost_state (ticks s) q) as [E1 E2]. unfold runnable in Hr. rewrite E1 in Hr.
      apply (Hpg i q Hq' Hr). congruence.
    + unfold wp at 1, modify. unfold upd_proc. apply wp_modify, wp_intro_ret. exists p.
      split_and!; try done; try lia. cbn. by rewrite (list_alter_lookup _ i p pt Hp).
  - eapply wp_release; [cbn; rewrite Hh; reflexivity|]. apply wp_intro_ret.
    split_and!; [exact (find_queue_None NPRIOR 0 pt Eq)|done|done].
Qed.

(** C30. [scheduler] runs a process of the best queue.  When some process is runnable at
    a priority from 0 to 3 (after the boost of the starved ones), it is the one with
    the smallest priority number and, among those, the smallest index in [ptable]
    that is chosen, marked [RUNNING] and stamped with the time, on its own page
    table and with [ptable.lock] held; the other processes are only boosted.  With no
    such process the lock is released and nothing runs. *)
Theorem scheduler_picks_best (s : kernel) :
  held s = [] -> (forall j p, ptable s !! j = Some p -> runnable p -> p_pgdir p <> 0) ->
  let pt := boost (ticks s) <$> ptable s in
  wp scheduler s (fun r s' =>
    match r with
    | Some i => exists p, pt !! i = Some p /\ runnable p /\ 0 <= p_priority p < Z.of_nat NPRIOR /\
        (forall j p', pt !! j = Some p' -> runnable p' -> 0 <= p_priority p' ->
           p_priority p < p_priority p' \/ (p_priority p = p_priority p' /\ (i <= j)%nat)) /\
        curproc s' = Some i /\ cr3 s' = PADDR (p_pgdir p) /\ held s' = [LPtable] /\
        ptable s' = <[i := p <| p_state := RUNNING |> <| p_last_sched_time := ticks s |>]> pt
    | None =>
        (forall j p, pt !! j = Some p -> runnable p -> ~ 0 <= p_priority p < Z.of_nat NPRIOR) /\
        held s' = [] /\ ptable s' = pt
    end).
Proof. intros Hh Hpg. by apply wp_scheduler. Qed.

(** *** Starvation

    A round in which the scheduler does not choose process [j]: until the next one, whatever runs
    leaves the state, the queue and the time stamp of [j] alone, and time goes on. *)
Definition sched_view (p : proc) : procstate * Z * Z := (p_state p, p_priority p, p_last_sched_time p).
Definition passed_over (j : nat) (s s' : kernel) : Prop :=
  held s = [] /\ have_pgdirs s /\ exists r s1, scheduler s = Ret r s1 /\ r <> Some j /\
    sched_view <$> ptable s' !! j = sched_view <$> ptable s1 !! j /\ ticks s <= ticks s' < 2 ^ 32.
Inductive rounds (j : nat) : nat -> kernel -> kernel -> Prop :=
| rounds_0 s : rounds j 0 s s
| rounds_S n s s1 s' : passed_over j s s1 -> rounds j n s1 s' -> rounds j (S n) s s'.

Lemma scheduler_elim s r s' : held s = [] -> have_pgdirs s -> scheduler s = Ret r s' -> round_result s r s'.
Proof. intros Hh Hp E. pose proof (wp_scheduler s Hh Hp) as W. unfold wp in W. by rewrite E in W. Qed.

(** A process that is passed over is boosted, and nothing else happens to it. *)
Lemma passed_over_boost j s s' p : passed_over j s s' -> ptable s !! j = Some p ->
  exists p', ptable s' !! j = Some p' /\ sched_view p' = sched_view (boost (ticks s) p) /\ ticks s <= ticks s' < 2 ^ 32.
Proof.
  intros (Hh & Hpg & r & s1 & E & Hr & Ev & Ht) Hp. pose proof (scheduler_elim s r s1 Hh Hpg E) as R.
  assert (Hj : ptable s1 !! j = Some (boost (ticks s) p)).
  { destruct r as [i|].
    - destruct R as (q & _ & _ & _ & _ & _ & _ & _ & ->). rewrite list_lookup_insert_ne by congruence. by rewrite list_lookup_fmap, Hp.
    - destruct R as (_ & _ & ->). by rewrite list_lookup_fmap, Hp. }
  rewrite Hj in Ev. destruct (ptable s' !! j) as [p'|]; [|done]. injection Ev as E1 E2 E3. exists p'. split_and!; try lia; [done|].
  unfold sched_view. congruence.
Qed.
Lemma rounds_ticks j n s s' : rounds j n s s' -> ticks s <= ticks s'.
Proof. induction 1 as [|n s s1 s' (_ & _ & ? & ? & _ & _ & _ & Ht) _ IH]; lia. Qed.

Definition starved (t : Z) (p : proc) : bool := bool_decide (p_state p = RUNNABLE) && (p_last_sched_time p + TSTARV <? t).
Lemma boost_starved t p : 0 <= p_last_sched_time p -> p_last_sched_time p + TSTARV < 2 ^ 32 -> 0 <= p_priority p ->
  sched_view (boost t p) = (p_state p, if starved t p then Z.max 0 (p_priority p - 1) else p_priority p, p_last_sched_time p).
Proof.
  intros H1 H2 H3. unfold boost, starved, sched_view. rewrite u32_small by (unfold TSTARV in *; lia).
  destruct (bool_decide (p_state p = RUNNABLE)), (Z.ltb_spec 0 (p_priority p)), (Z.ltb_spec (p_last_sched_time p + TSTARV) t);
    cbn; try done; repeat f_equal; lia.
Qed.

(** What [n] rounds do to a process that is not chosen. *)
Lemma rounds_view j n s s' : rounds j n s s' -> forall p, ptable s !! j = Some p ->
  0 <= p_last_sched_time p -> p_last_sched_time p + TSTARV < 2 ^ 32 -> 0 <= p_priority p ->
  exists p', ptable s' !! j = Some p' /\ p_state p' = p_state p /\ p_last_sched_time p' = p_last_sched_time p /\
    (starved (ticks s) p = true -> p_priority p' = Z.max 0 (p_priority p - Z.of_nat n)) /\
    (starved (ticks s') p = false -> p_priority p' = p_priority p).
Proof.
  induction 1 as [s|n s s1 s' Hp Hn IH]; intros p Ep H1 H2 H3.
  { exists p. split_and!; try done. intros _. lia. }
  destruct (passed_over_boost j s s1 p Hp Ep) as (p1 & E1 & Ev & Ht). rewrite boost_starved in Ev by done.
  injection Ev as V1 V2 V3. pose proof (rounds_ticks _ _ _ _ Hn) as Ht'.
  assert (Hst : forall t, starved t p1 = starved t p) by (intros t; unfold starved; by rewrite V1, V3).
  assert (Hmono : forall t t', t <= t' -> starved t p = true -> starved t' p = true).
  { unfold starved. intros t t' Hle [Ha Hb]%andb_true_iff. rewrite Ha. cbn. lia. }
  destruct (IH p1 E1) as (p' & E' & S' & L' & Hs & Hns); [lia|lia|rewrite V2; destruct (starved _ p); lia|].
  rewrite !Hst in *. exists p'. split_and!; [done|congruence|congruence| |].
  - intros St. rewrite St in V2. rewrite Hs, V2 by (by apply (Hmono (ticks s)); [lia|]). lia.
  - intros St. rewrite Hns by done. destruct (starved (ticks s) p) eqn:E; [|done].
    rewrite (Hmono (ticks s) (ticks s')) in St by (done || lia). done.
Qed.

(** C31. Starvation.  Take [n] rounds of [scheduler] in a row in which process [j] is not chosen, whatever runs in between.
    If [j] is runnable and was last scheduled more than [TSTARV] ticks ago, it has climbed [n] queues, or to queue 0, and
    when it has climbed to queue 0 (after three rounds at the latest) the next round runs [j] itself or a process of queue
    0 that comes before it in the table.  A process that is not runnable, or that waits for [TSTARV] ticks or less, stays
    in its queue. *)
Theorem starved_reaches_top (s s' : kernel) (j n : nat) (p : proc) :
  rounds j n s s' -> ptable s !! j = Some p -> 0 <= p_priority p < Z.of_nat NPRIOR ->
  0 <= p_last_sched_time p -> p_last_sched_time p + TSTARV < 2 ^ 32 ->
  exists p', ptable s' !! j = Some p' /\
    (p_state p <> RUNNABLE \/ ticks s' <= p_last_sched_time p + TSTARV -> p_priority p' = p_priority p) /\
    (p_state p = RUNNABLE -> p_last_sched_time p + TSTARV < ticks s ->
      p_priority p' = Z.max 0 (p_priority p - Z.of_nat n) /\
      ((3 <= n)%nat -> held s' = [] -> have_pgdirs s' -> exists i q s2, scheduler s' = Ret (Some i) s2 /\ (i <= j)%nat /\
        ptable s2 !! i = Some q /\ p_state q = RUNNING /\ p_priority q = 0)).
Proof.
  intros R Hp Hq H1 H2. destruct (rounds_view j n s s' R p Hp H1 H2 ltac:(lia)) as (p' & Ep' & St & Ls & Hs & Hns).
  pose proof (rounds_ticks _ _ _ _ R) as Ht. exists p'. split_and!; [done| |].
  { intros Hno. apply Hns. unfold starved. destruct Hno as [Hno|Hno]; [by rewrite bool_decide_eq_false_2|].
    rewrite (proj2 (Z.ltb_ge (p_last_sched_time p + TSTARV) (ticks s'))) by lia. apply andb_false_r. }
  intros Hr Hl. assert (E : p_priority p' = Z.max 0 (p_priority p - Z.of_nat n)).
  { apply Hs. unfold starved. rewrite bool_decide_eq_true_2 by done. cbn. lia. }
  split; [done|]. intros Hn Hh Hpg. assert (E0 : p_priority p' = 0) by (unfold NPRIOR in Hq; lia).
  destruct (wp_elim _ _ _ (wp_scheduler s' Hh Hpg)) as (r & s2 & Es & RR).
  assert (Hb : (boost (ticks s') <$> ptable s') !! j = Some p').
  { rewrite list_lookup_fmap, Ep'. cbn. unfold boost. by rewrite E0, andb_false_r. }
  assert (Hrun : runnable p') by (unfold runnable; congruence). destruct r as [i|].
  - destruct RR as (q & Hq' & Hrq & Hpr & Hbest & _ & _ & _ & Ept). exists i, (q <| p_state := RUNNING |> <| p_last_sched_time := ticks s' |>), s2.
    specialize (Hbest j p' Hb Hrun ltac:(lia)). split_and!; [done|lia| |done|cbn; lia].
    rewrite Ept. apply list_lookup_insert_eq. by eapply lookup_lt_Some.
  - destruct RR as [Hno _]. destruct (Hno j p' Hb Hrun). unfold NPRIOR. lia.
Qed.

(** ** Quotas *)

(** [update_ticks] on the process itself. *)
Definition tick (p : proc) : proc :=
  let p1 := p <| p_ticks_used ::= alter (fun t => u32 (t + 1)) (Z.to_nat (p_priority p)) |>
              <| p_ticks ::= fun t => u32 (t + 1) |> in
  if (p_priority p1 <? Z.of_nat NPRIOR - 1) &&
     (default 0 (tick_quota !! Z.to_nat (p_priority p1)) <=? p_ticks p1)
  then p1 <| p_priority ::= fun n => n + 1 |> <| p_ticks := 0 |> else p1.

Lemma upd_ptable_eq s i p g : ptable s !! i = Some p ->
  s <| ptable ::= alter g i |> = s <| ptable := <[i := g p]> (ptable s) |>.
Proof. intros Hp. rewrite <- (list_alter_lookup g i p) by done. done. Qed.

Lemma upd_myproc_eq s i p g : curproc s = Some i -> ptable s !! i = Some p ->
  upd_myproc g s = Ret tt (s <| ptable := <[i := g p]> (ptable s) |>).
Proof. intros Hc Hp. unfold upd_myproc, bind, gets. cbn [obind]. rewrite Hc. unfold modify. by rewrite (upd_ptable_eq s i p). Qed.

Lemma myproc_run s i p : curproc s = Some i -> ptable s !! i = Some p -> myproc s = Ret p s.
Proof. intros Hc Hp. unfold myproc, bind, gets. cbn [obind]. rewrite Hc. cbn. by rewrite Hp. Qed.

Lemma update_ticks_run s i p : curproc s = Some i -> ptable s !! i = Some p ->
  update_ticks s = Ret tt (s <| ptable := <[i := tick p]> (ptable s) |>).
Proof.
  intros Hc Hp. pose proof (lookup_lt_Some _ _ _ Hp) as Hlt.
  unfold update_ticks, bind. rewrite (upd_myproc_eq s i p) by done. cbn [obind].
  set (p1 := p <| p_ticks_used ::= _ |> <| p_ticks ::= _ |>).
  rewrite (myproc_run _ i p1) by (done || cbn; by apply list_lookup_insert_eq).
  cbn [obind]. unfold tick. fold p1. destruct (_ && _); cbn [when]; [|done].
  rewrite (upd_myproc_eq _ i p1) by (done || cbn; by apply list_lookup_insert_eq).
  cbn [ptable update]. by rewrite list_insert_insert_eq.
Qed.

Fixpoint ticks_n (n : nat) : M kernel unit :=
  match n with O => ret tt | S n' => ticks_n n' ;; update_ticks end.

(** The queue of a process after [n] ticks of CPU time, and how they are divided. *)
Definition level (n : Z) : Z := if n <? 5 then 0 else if n <? 10 then 1 else if n <? 20 then 2 else 3.
Definition level_start (n : Z) : Z := if n <? 5 then 0 else if n <? 10 then 5 else if n <? 20 then 10 else 20.
Definition ticks_split (n : Z) : list Z :=
  [Z.min n 5; Z.max 0 (Z.min (n - 5) 5); Z.max 0 (Z.min (n - 10) 10); Z.max 0 (n - 20)].

Lemma tick_level n p : 0 <= n < 2 ^ 32 - 1 -> p_priority p = level n -> p_ticks p = n - level_start n ->
  p_ticks_used p = ticks_split n ->
  p_priority (tick p) = level (n + 1) /\ p_ticks (tick p) = n + 1 - level_start (n + 1) /\
  p_ticks_used (tick p) = ticks_split (n + 1).
Proof.
  intros Hn Hp Ht Hu. unfold tick, level, level_start, ticks_split in *. cbn [p_priority p_ticks update].
  destruct (Z.ltb_spec n 5), (Z.ltb_spec n 10), (Z.ltb_spec n 20); try lia; rewrite Hp, Ht;
    rewrite u32_small by lia;
    [change (0 <? Z.of_nat NPRIOR - 1) with true; change (default 0 (tick_quota !! Z.to_nat 0)) with 5|
     change (1 <? Z.of_nat NPRIOR - 1) with true; change (default 0 (tick_quota !! Z.to_nat 1)) with 5|
     change (2 <? Z.of_nat NPRIOR - 1) with true; change (default 0 (tick_quota !! Z.to_nat 2)) with 10|
     change (3 <? Z.of_nat NPRIOR - 1) with false];
    rewrite ?andb_true_l, ?andb_false_l.
  all: try match goal with |- context [?q <=? ?t] => destruct (Z.leb_spec q t) end.
  all: cbn [p_priority p_ticks p_ticks_used update]; rewrite ?Hp, ?Ht, ?Hu;
    change (Z.to_nat 0) with 0%nat; change (Z.to_nat 1) with 1%nat;
    change (Z.to_nat 2) with 2%nat; change (Z.to_nat 3) with 3%nat;
    cbn [alter list_alter]; rewrite ?u32_small by lia.
  all: zdec; split_and!; try lia; do 4 (apply f_equal2; [lia|]); done.
Qed.


(** ** Examples *)
Definition sched_example : kernel :=
  kernel0 <| ticks := 500 |> <| ptable :=
    [proc0; proc0 <| p_state := RUNNABLE |> <| p_priority := 2 |> <| p_pgdir := 0x1000 |> <| p_last_sched_time := 450 |>;
     proc0 <| p_state := RUNNABLE |> <| p_priority := 2 |> <| p_pgdir := 0x2000 |> <| p_last_sched_time := 300 |>] |>.

Lemma scheduler_picks_best_witness : exists s', scheduler sched_example = Ret (Some 2%nat) s'.
Proof.
  pose proof (scheduler_picks_best sched_example eq_refl) as W.
  destruct (wp_elim _ _ _ (W ltac:(intros [|[|[|j]]] p Hj Hr; try discriminate Hj; injection Hj as <-;
    discriminate))) as (r & s' & E & _).
  exists s'. rewrite E. f_equal. revert E.
  assert (Er : (match scheduler sched_example with Ret r _ => r | _ => None end) = Some 2%nat) by reflexivity.
  intros E. rewrite E in Er. exact Er.
Defined.

(** Process 2 of this table has waited since tick 300 in queue 3, behind process 1, which is passed over in queue 0. *)
Definition hungry (k : Z) : proc :=
  proc0 <| p_state := RUNNABLE |> <| p_priority := 3 - k |> <| p_pgdir := 0x2000 |> <| p_last_sched_time := 300 |>.
Definition starving (k : Z) : kernel :=
  kernel0 <| ticks := 500 + k |> <| ptable :=
    [proc0; proc0 <| p_state := RUNNABLE |> <| p_pgdir := 0x1000 |> <| p_last_sched_time := 450 |>;
     hungry k] |>.
Lemma starving_dirs k : have_pgdirs (starving k).
Proof. intros [|[|[|j]]] p Hj Hr; try discriminate Hj; injection Hj as <-; [discriminate Hr|discriminate|discriminate]. Qed.
Lemma starving_passed k : k = 0 \/ k = 1 \/ k = 2 -> passed_over 2 (starving k) (starving (k + 1)).
Proof.
  intros Hk. split; [done|]. split; [apply starving_dirs|].
  destruct (wp_elim _ _ _ (wp_scheduler (starving k) eq_refl (starving_dirs k))) as (r & s1 & E & R).
  set (pt := boost (ticks (starving k)) <$> ptable (starving k)) in R.
  assert (P1 : exists p1, pt !! 1%nat = Some p1 /\ runnable p1 /\ p_priority p1 = 0).
  { eexists. split; [reflexivity|]. by destruct Hk as [->|[->| ->]]. }
  assert (P2 : exists p2, pt !! 2%nat = Some p2 /\ sched_view p2 = (RUNNABLE, 3 - (k + 1), 300)).
  { eexists. split; [reflexivity|]. by destruct Hk as [->|[->| ->]]. }
  clearbody pt. destruct P1 as (p1 & E1 & R1 & Q1), P2 as (p2 & E2 & V2). exists r, s1.
  assert (Hne : r <> Some 2%nat).
  { intros ->. destruct R as (p & Ep & _ & Hp & Hb & _). destruct (Hb 1%nat p1 E1 R1 ltac:(lia)) as [?|[_ ?]]; lia. }
  split_and!; [exact E|exact Hne| |cbn; lia|cbn; lia].
  assert (Ept : ptable s1 !! 2%nat = pt !! 2%nat).
  { destruct r as [i|].
    - destruct R as (p & _ & _ & _ & _ & _ & _ & _ & ->). apply list_lookup_insert_ne. congruence.
    - by destruct R as (_ & _ & ->). }
  rewrite Ept, E2. cbn. by rewrite V2.
Qed.

Lemma starved_reaches_top_witness : exists i q s2, rounds 2 3 (starving 0) (starving 3) /\
  scheduler (starving 3) = Ret (Some i) s2 /\ (i <= 2)%nat /\ ptable s2 !! i = Some q /\ p_state q = RUNNING /\ p_priority q = 0.
Proof.
  assert (R : rounds 2 3 (starving 0) (starving 3)).
  { apply (rounds_S 2 2 _ (starving 1)); [by apply (starving_passed 0); left|].
    apply (rounds_S 2 1 _ (starving 2)); [by apply (starving_passed 1); right; left|].
    apply (rounds_S 2 0 _ (starving 3)); [by apply (starving_passed 2); right; right|]. apply rounds_0. }
  destruct (starved_reaches_top (starving 0) (starving 3) 2 3 (hungry 0) R eq_refl ltac:(cbn; unfold NPRIOR; lia) ltac:(cbn; lia)
    ltac:(cbn; unfold TSTARV; lia)) as (p' & _ & _ & H).
  destruct (H eq_refl ltac:(cbn; unfold TSTARV; lia)) as [_ T]. destruct (T ltac:(lia) eq_refl) as (i & q & s2 & H').
  { apply starving_dirs. }
  exists i, q, s2. split; [exact R|exact H'].
Defined.

Definition running3 : kernel := kernel0 <| curproc := Some 3%nat |>.

