(* ===== verification/SleepWake.v ===== *)
(** [sleep] and [wakeup] of [kernel/proc.c] under interleaving.

    Sched.v runs each of them without interruption.  Here any number of processes run
    the pattern of the sleepers and wakers with a lock of their own (pipes, the console, the
    disk, the buffer and inode caches): a sleeper takes a lock [lk], tests a condition and calls
    [sleep(chan, lk)] in a loop; a waker takes [lk], makes the condition true and calls
    [wakeup(chan)].  One step is one lock operation or one update; processes interleave
    freely.  [wait] and [join] sleep with [lk == &ptable.lock], which [sleep] does not release
    before it switches: that branch is in [sleep] of Sched.v and not here. *)
From S2P Require Import Prelude Types.

(** Where a process is.  Comments give the statement about to be executed. *)
Inductive swpc : Type :=
| SlAcquire      (** caller: [acquire(lk)]; also the last line of [sleep] *)
| SlTest         (** caller: [while(!cond)] *)
| SlPtAcquire    (** sleep: [acquire(&ptable.lock)] *)
| SlRelease      (** sleep: [release(lk)] *)
| SlMark         (** sleep: [proc->chan = chan; proc->state = SLEEPING] *)
| SlSched        (** sched: switch; the scheduler releases [ptable.lock] *)
| SlOff          (** off the CPU, until the scheduler runs it again *)
| SlTidy         (** sleep: [proc->chan = 0; release(&ptable.lock)] *)
| SlLeave        (** caller: [release(lk)] *)
| SlDone
| WkAcquire      (** caller: [acquire(lk)] *)
| WkSet          (** caller: make the condition true *)
| WkPtAcquire    (** wakeup: [acquire(&ptable.lock)] *)
| WkScan         (** wakeup1 *)
| WkPtRelease    (** wakeup: [release(&ptable.lock)] *)
| WkRelease      (** caller: [release(lk)] *)
| WkDone.
#[global] Instance swpc_eq_dec : EqDecision swpc.
Proof. solve_decision. Defined.

(** [sw_lk], [sw_pt]: who holds [lk] and [ptable.lock]; [sw_state i]: [p->state] of
    process [i], whose [chan] is the one considered while it sleeps. *)
Record sw := mkSw {
  sw_lk : option nat; sw_pt : option nat; sw_cond : bool;
  sw_pc : nat -> swpc; sw_state : nat -> procstate }.

Definition at_pc (i : nat) (pc : swpc) (f : nat -> swpc) : nat -> swpc :=
  fun j => if decide (j = i) then pc else f j.
Definition set_state (i : nat) (st : procstate) (f : nat -> procstate) : nat -> procstate :=
  fun j => if decide (j = i) then st else f j.
Definition wake_state (st : procstate) : procstate :=
  if decide (st = SLEEPING) then RUNNABLE else st.

(** A step of process [i]; [None] when it waits for a lock or to be run. *)
Definition sw_step (i : nat) (s : sw) : option sw :=
  let '(mkSw lk pt cond pc st) := s in
  match pc i with
  | SlAcquire => match lk with None => Some (mkSw (Some i) pt cond (at_pc i SlTest pc) st) | _ => None end
  | SlTest => if cond then Some (mkSw lk pt false (at_pc i SlLeave pc) st)
              else Some (mkSw lk pt cond (at_pc i SlPtAcquire pc) st)
  | SlPtAcquire => match pt with None => Some (mkSw lk (Some i) cond (at_pc i SlRelease pc) st) | _ => None end
  | SlRelease => Some (mkSw None pt cond (at_pc i SlMark pc) st)
  | SlMark => Some (mkSw lk pt cond (at_pc i SlSched pc) (set_state i SLEEPING st))
  | SlSched => Some (mkSw lk None cond (at_pc i SlOff pc) st)
  | SlOff => match pt, st i with
             | None, RUNNABLE => Some (mkSw lk (Some i) cond (at_pc i SlTidy pc) (set_state i RUNNING st))
             | _, _ => None
             end
  | SlTidy => Some (mkSw lk None cond (at_pc i SlAcquire pc) st)
  | SlLeave => Some (mkSw None pt cond (at_pc i SlDone pc) st)
  | SlDone => None
  | WkAcquire => match lk with None => Some (mkSw (Some i) pt cond (at_pc i WkSet pc) st) | _ => None end
  | WkSet => Some (mkSw lk pt true (at_pc i WkPtAcquire pc) st)
  | WkPtAcquire => match pt with None => Some (mkSw lk (Some i) cond (at_pc i WkScan pc) st) | _ => None end
  | WkScan => Some (mkSw lk pt cond (at_pc i WkPtRelease pc) (fun j => wake_state (st j)))
  | WkPtRelease => Some (mkSw lk None cond (at_pc i WkRelease pc) st)
  | WkRelease => Some (mkSw None pt cond (at_pc i WkDone pc) st)
  | WkDone => None
  end.

(** Initially every process is about to take [lk], running, and no lock is held. *)
Inductive sw_reach : sw -> Prop :=
| sw_init cond pc : (forall i, pc i = SlAcquire \/ pc i = WkAcquire \/ pc i = WkDone) ->
    sw_reach (mkSw None None cond pc (fun _ => RUNNING))
| sw_next s i s' : sw_reach s -> sw_step i s = Some s' -> sw_reach s'.

(** ** Invariant *)
Definition has_lk (pc : swpc) : bool :=
  match pc with
  | SlTest | SlPtAcquire | SlRelease | SlLeave | WkSet | WkPtAcquire | WkScan | WkPtRelease | WkRelease => true
  | _ => false
  end.
Definition has_pt (pc : swpc) : bool :=
  match pc with SlRelease | SlMark | SlSched | SlTidy | WkScan | WkPtRelease => true | _ => false end.
(** The condition was seen false and [lk] is still held. *)
Definition committed (pc : swpc) : bool := match pc with SlPtAcquire | SlRelease => true | _ => false end.
(** Asleep, or about to be with [ptable.lock] held. *)
Definition dozing (pc : swpc) (st : procstate) : Prop :=
  pc = SlMark \/ pc = SlSched /\ st = SLEEPING \/ pc = SlOff /\ st = SLEEPING.
Definition will_scan (pc : swpc) : bool := match pc with WkPtAcquire | WkScan => true | _ => false end.

Record sw_inv (s : sw) : Prop := {
  wi_lk : forall i, sw_lk s = Some i <-> has_lk (sw_pc s i) = true;
  wi_pt : forall i, sw_pt s = Some i <-> has_pt (sw_pc s i) = true;
  wi_commit : forall i, committed (sw_pc s i) = true -> sw_cond s = false;
  wi_sleep : forall i, sw_state s i = SLEEPING -> sw_pc s i = SlSched \/ sw_pc s i = SlOff;
  wi_doze : forall i, dozing (sw_pc s i) (sw_state s i) -> sw_cond s = true ->
              exists w, will_scan (sw_pc s w) = true }.

Lemma at_pc_eq i pc f : at_pc i pc f i = pc.
Proof. unfold at_pc. by rewrite decide_True. Qed.
Lemma at_pc_ne i j pc f : j <> i -> at_pc i pc f j = f j.
Proof. intros. unfold at_pc. by rewrite decide_False. Qed.

(** Who holds a lock after a step of [i]: [new] says what happened to the lock. *)
Lemma holder_step (own : option nat) (own' : option nat) (h : swpc -> bool) (pc : nat -> swpc) i pc' :
  (forall j, own = Some j <-> h (pc j) = true) ->
  (own' = own /\ h pc' = h (pc i)) \/ (own = None /\ own' = Some i /\ h pc' = true) \/
  (h (pc i) = true /\ own' = None /\ h pc' = false) ->
  forall j, own' = Some j <-> h (at_pc i pc' pc j) = true.
Proof.
  intros Hown Hcase j. destruct (decide (j = i)) as [->|Hne]; [rewrite at_pc_eq|rewrite at_pc_ne by done].
  - destruct Hcase as [[-> ->]|[(-> & -> & ->)|(H & -> & ->)]]; [apply Hown|done|done].
  - destruct Hcase as [[-> _]|[(E & -> & _)|(H & -> & _)]]; [apply Hown| |].
    + rewrite <- Hown, E. split; [congruence|done].
    + rewrite <- Hown. apply Hown in H. split; [done|]. intros E. congruence.
Qed.

Section step_of_one.
Variables (s : sw) (i : nat) (lk' pt' : option nat) (cond' : bool) (pc' : swpc) (st' : nat -> procstate).
Hypothesis I : sw_inv s.

(** A step of [i] keeps the invariant when the locks follow its program counter, the
    condition becomes true only at [WkSet], and it does not fall asleep on a true
    condition. *)
Lemma sw_inv_step :
  (lk' = sw_lk s /\ has_lk pc' = has_lk (sw_pc s i)) \/ (sw_lk s = None /\ lk' = Some i /\ has_lk pc' = true) \/
    (has_lk (sw_pc s i) = true /\ lk' = None /\ has_lk pc' = false) ->
  (pt' = sw_pt s /\ has_pt pc' = has_pt (sw_pc s i)) \/ (sw_pt s = None /\ pt' = Some i /\ has_pt pc' = true) \/
    (has_pt (sw_pc s i) = true /\ pt' = None /\ has_pt pc' = false) ->
  cond' = false \/ cond' = sw_cond s \/ (sw_pc s i = WkSet /\ pc' = WkPtAcquire) ->
  (committed pc' = true -> cond' = false) ->
  (forall j, st' j = SLEEPING -> sw_state s j = SLEEPING \/ (j = i /\ sw_pc s i = SlMark)) ->
  (st' i = SLEEPING -> pc' = SlSched \/ pc' = SlOff) ->
  (dozing pc' (st' i) -> dozing (sw_pc s i) (sw_state s i) \/ cond' = false) ->
  (will_scan (sw_pc s i) = true -> will_scan pc' = true \/
     (has_pt (sw_pc s i) = true /\ forall j, st' j <> SLEEPING)) ->
  sw_inv (mkSw lk' pt' cond' (at_pc i pc' (sw_pc s)) st').
Proof.
  destruct I as [IL IP IC IS ID]. intros Hlk Hpt Hcond Hcom Hst Hsti Hdoze Hscan. split; cbn.
  - by apply (holder_step (sw_lk s)).
  - by apply (holder_step (sw_pt s)).
  - intros j. destruct (decide (j = i)) as [->|Hne]; [by rewrite at_pc_eq|rewrite at_pc_ne by done].
    intros Hj. pose proof (IC j Hj) as Hc. destruct Hcond as [->|[->|[E _]]]; [done..|]. exfalso.
    apply Hne. assert (sw_lk s = Some j) as E1 by (apply IL; by destruct (sw_pc s j)).
    assert (sw_lk s = Some i) as E2 by (apply IL; by rewrite E). congruence.
  - intros j Hj. destruct (decide (j = i)) as [->|Hne]; [rewrite at_pc_eq; auto|rewrite at_pc_ne by done].
    destruct (Hst j Hj) as [|[-> _]]; [auto|done].
  - intros j Hj Hc.
    assert (Hold : dozing (sw_pc s j) (sw_state s j)).
    { destruct (decide (j = i)) as [->|Hne].
      - rewrite at_pc_eq in Hj. destruct (Hdoze Hj) as [|E]; [done|congruence].
      - rewrite at_pc_ne in Hj by done. destruct Hj as [|[[E1 E2]|[E1 E2]]]; [by left|right; left|right; right];
          (split; [done|]); destruct (Hst j E2) as [|[-> _]]; done. }
    destruct Hcond as [->|[->|[_ ->]]]; [done| |exists i; by rewrite at_pc_eq].
    destruct (ID j Hold Hc) as [w Hw]. destruct (decide (w = i)) as [->|Hne].
    + destruct (Hscan Hw) as [Hs|[Hp Hno]]; [exists i; by rewrite at_pc_eq|]. exfalso.
      assert (Hpj : has_pt (sw_pc s j) = true).
      { destruct (decide (j = i)) as [->|Hne]; [done|]. rewrite at_pc_ne in Hj by done.
        destruct Hj as [->|[[_ E]|[_ E]]]; [done|by destruct (Hno j)..]. }
      apply IP in Hp, Hpj. assert (j = i) as -> by congruence.
      destruct Hold as [E|[[E _]|[E _]]]; rewrite E in Hw; done.
    + exists w. by rewrite at_pc_ne.
Qed.
End step_of_one.

Lemma wake_state_sleeping st : wake_state st <> SLEEPING.
Proof. unfold wake_state. by destruct (decide (st = SLEEPING)). Qed.

Lemma set_state_cases i st f j x : set_state i st f j = x -> (j = i /\ st = x) \/ (j <> i /\ f j = x).
Proof. unfold set_state. destruct (decide (j = i)); auto. Qed.

Lemma sw_step_inv s i s' : sw_inv s -> sw_step i s = Some s' -> sw_inv s'.
Proof.
  intros I. pose proof (wi_commit s I i) as IC. pose proof (wi_sleep s I i) as IS.
  destruct s as [lk pt cond pc st]. cbn [sw_step sw_pc sw_state sw_cond] in *.
  destruct (pc i) eqn:Epc; intros Hs; repeat case_match; simplify_eq.
  all: match goal with H : sw_inv ?s0 |- sw_inv (mkSw ?lk' ?pt' ?c' (at_pc ?j ?pc' _) ?st') =>
         apply (sw_inv_step s0 j lk' pt' c' pc' st' H) end;
    cbn [sw_lk sw_pt sw_cond sw_pc sw_state]; rewrite ?Epc; cbn; auto; try done.
  all: try (intros Hs; destruct (IS Hs); discriminate).
  all: try (intros [?|[[? ?]|[? ?]]]; discriminate).
  - intros j [[-> _]|[_ Hj]]%set_state_cases; auto.
  - intros _. left. by left.
  - intros [?|[[? ?]|[_ ?]]]; try discriminate. left. right. by left.
  - intros j [[_ ?]|[_ Hj]]%set_state_cases; [discriminate|auto].
  - intros [[_ ?]|[? _]]%set_state_cases; done.
  - intros j Hj. by destruct (wake_state_sleeping (st j)).
  - intros Hj. by destruct (wake_state_sleeping (st i)).
  - intros _. right. split; [done|]. intros j. apply wake_state_sleeping.
Qed.

Lemma sw_reach_inv s : sw_reach s -> sw_inv s.
Proof.
  induction 1 as [cond pc Hpc|s i s' _ IH Hs]; [|by eapply sw_step_inv].
  split; cbn; try done.
  - intros i. destruct (Hpc i) as [-> | [-> | ->]]; done.
  - intros i. destruct (Hpc i) as [-> | [-> | ->]]; done.
  - intros i. destruct (Hpc i) as [-> | [-> | ->]]; done.
  - intros i Hd. unfold dozing in Hd. destruct (Hpc i) as [E|[E|E]]; rewrite E in Hd; naive_solver.
Qed.

(** C8. No wakeup is lost: in every interleaving, when the condition is true and some
    process sleeps on it, a waker is still on its way to scan the process table.  So
    once all wakers have returned from [wakeup], no process sleeps on a condition
    that holds. *)
Theorem no_lost_wakeup (s : sw) (i : nat) :
  sw_reach s -> sw_cond s = true -> sw_state s i = SLEEPING ->
  exists w, sw_pc s w = WkPtAcquire \/ sw_pc s w = WkScan.
Proof.
  intros I%sw_reach_inv Hc Hi. destruct (wi_doze s I i) as [w Hw]; [|done|].
  - destruct (wi_sleep s I i Hi) as [E|E]; [right; left|right; right]; done.
  - exists w. destruct (sw_pc s w); try discriminate Hw; auto.
Qed.

(** Process 0 sleeps; process 1 takes the lock and makes the condition true. *)
Fixpoint sw_run (l : list nat) (s : sw) : sw :=
  match l with [] => s | i :: l' => match sw_step i s with Some s' => sw_run l' s' | None => s end end.
Definition sw_example : sw :=
  sw_run [0; 0; 0; 0; 0; 1; 1]%nat
    (mkSw None None false (fun i => if decide (i = 0%nat) then SlAcquire else WkAcquire) (fun _ => RUNNING)).

Lemma sw_run_reach l : forall s, sw_reach s -> sw_reach (sw_run l s).
Proof.
  induction l as [|i l IH]; intros s Hs; cbn; [done|].
  destruct (sw_step i s) eqn:E; [|done]. apply IH. by eapply sw_next.
Qed.

Lemma no_lost_wakeup_witness : exists w, sw_pc sw_example w = WkPtAcquire \/ sw_pc sw_example w = WkScan.
Proof.
  apply (no_lost_wakeup sw_example 0); [|reflexivity|reflexivity].
  apply sw_run_reach, sw_init. intros i. destruct (decide (i = 0%nat)); [left|right; left]; reflexivity.
Defined.
