(* ===== verification/Ide.v ===== *)
(** The disk driver, [kernel/ide.c]: a queue of buffers linked through [qnext], its
    interrupt handler, and a drive that stores what it is sent.

    The drive is hardware.  It is modelled by what the driver relies on: after a write
    command it stores the 512 bytes it is sent in the selected sector, after a read
    command it supplies the contents of the selected sector, or reports an error for a
    sector it cannot read ([disk_bad]).  It always becomes ready, so [idewait] does not
    wait. *)
From S2P Require Import Prelude Types Mem Kalloc Vm Shm Sched.

(** ** Code *)

Definition buf_at (b : nat) (s : kernel) : buf := default buf0 (bufs s !! b).
Definition upd_buf (b : nat) (g : buf -> buf) : M kernel unit :=
  modify (fun s => s <| bufs ::= alter g b |>).

(** Flag operations [f |= bit] and [f &= ~bit]. *)
Definition set_flag (f bit : Z) : Z := Z.lor f bit.
Definition clear_flag (f bit : Z) : Z := Z.ldiff f bit.

Definition idewait (checkerr : bool) : M kernel Z :=
  let! s := get in
  ret (if checkerr && disk_bad s (fst (ide_sel s)) (snd (ide_sel s)) then -1 else 0).

(** The sector number the registers [0x1f3] to [0x1f6] select. *)
Definition lba (sector : Z) : Z :=
  Z.land sector 0xff + Z.shiftl (Z.land (Z.shiftr sector 8) 0xff) 8 +
  Z.shiftl (Z.land (Z.shiftr sector 16) 0xff) 16 + Z.shiftl (Z.land (Z.shiftr sector 24) 0x0f) 24.

Definition idestart (b : option nat) : M kernel unit :=
  match b with
  | None => panic "idestart"
  | Some b =>
      idewait false ;;
      let! bf := gets (buf_at b) in
      let drive := Z.land (b_dev bf) 1 in
      let sector := lba (b_sector bf) in
      modify (fun s => s <| ide_sel := (drive, sector) |>) ;;
      when (has (b_flags bf) B_DIRTY)
        (modify (fun s => s <| disk ::= fun dk d x =>
           if (d =? drive) && (x =? sector) then b_data bf else dk d x |>))
  end.

Definition ideintr : M kernel unit :=
  acquire LIde ;;
  let! q := gets idequeue in
  match q with
  | None => release LIde
  | Some b =>
      let! bf := gets (buf_at b) in
      modify (fun s => s <| idequeue := b_qnext bf |>) ;;
      (if negb (has (b_flags bf) B_DIRTY) then
         let! r := idewait true in
         when (0 <=? r)
           (let! s := get in
            upd_buf b (fun x => x <| b_data := disk s (fst (ide_sel s)) (snd (ide_sel s)) |>))
       else ret tt) ;;
      upd_buf b (fun x => x <| b_flags ::= fun f => set_flag f B_VALID |>) ;;
      upd_buf b (fun x => x <| b_flags ::= fun f => clear_flag f B_DIRTY |>) ;;
      wakeup (ChBuf b) ;;
      let! q := gets idequeue in
      when (negb (bool_decide (q = None))) (idestart q) ;;
      release LIde
  end.

(** [for(pp=&idequeue; *pp; pp=&( *pp )->qnext);]: the last buffer of the queue. *)
Fixpoint queue_last (fuel : nat) (p : nat) : M kernel nat :=
  match fuel with
  | O => spin
  | S fuel' =>
      let! bf := gets (buf_at p) in
      match b_qnext bf with
      | None => ret p
      | Some p' => queue_last fuel' p'
      end
  end.

(** Appending a buffer to the queue. *)
Definition link (b : nat) : M kernel unit :=
  upd_buf b (fun x => x <| b_qnext := None |>) ;;
  let! q := gets idequeue in
  match q with
  | None => modify (fun s => s <| idequeue := Some b |>)
  | Some p =>
      let! e := queue_last (S NBUF) p in
      upd_buf e (fun x => x <| b_qnext := Some b |>)
  end.

Definition io_done (f : Z) : bool := Z.land f (Z.lor B_VALID B_DIRTY) =? B_VALID.

(** The waiting loop; [fuel] bounds how often the process is woken before its request
    is complete. *)
Fixpoint iderw_wait (fuel : nat) (b : nat) : M kernel unit :=
  match fuel with
  | O => spin
  | S fuel' =>
      let! bf := gets (buf_at b) in
      if io_done (b_flags bf) then ret tt
      else sleep (ChBuf b) LIde ;; iderw_wait fuel' b
  end.

(** The C loops that wait have no bound.  A run of the kernel wakes a waiting process finitely
    often, and the field [wakes] of the state is the bound of the run considered: no code
    reads or changes it otherwise, and the theorems hold for every value. *)
Definition waiting {A} (f : nat -> M kernel A) : M kernel A := fun s => f (S (S (wakes s))) s.

Definition iderw (b : nat) : M kernel unit :=
  let! bf := gets (buf_at b) in
  let! hd := gets havedisk1 in
  if negb (has (b_flags bf) B_BUSY) then panic "iderw: buf not busy"
  else if io_done (b_flags bf) then panic "iderw: nothing to do"
  else if negb (b_dev bf =? 0) && negb hd then panic "iderw: ide disk 1 not present"
  else
    acquire LIde ;;
    link b ;;
    let! q := gets idequeue in
    when (bool_decide (q = Some b)) (idestart (Some b)) ;;
    waiting (fun n => iderw_wait n b) ;;
    release LIde.

(** [ideinit]: drive 1 is present if its status register, polled up to 1000 times, is
    ever not zero; [status] gives the values read. *)
Fixpoint probe (n : nat) (status : nat -> Z) : bool :=
  match n with
  | O => false
  | S n' => negb (status 0%nat =? 0) || probe n' (fun i => status (S i))
  end.
Definition ideinit (status : nat -> Z) : M kernel unit :=
  idewait false ;;
  when (probe 1000 status) (modify (fun s => s <| havedisk1 := true |>)).

(** ** One process and the disk

    The environment in which, while a process sleeps, the scheduler takes the disk's
    interrupt and then resumes the process. *)
Definition resume (i : nat) : M kernel unit :=
  acquire LPtable ;;
  let! t := gets ticks in
  modify (fun s => s <| curproc := Some i |>) ;;
  let! p := myproc in
  if bool_decide (p_state p = RUNNABLE) then
    switchuvm p ;;
    upd_proc i (fun p => p <| p_state := RUNNING |> <| p_last_sched_time := t |>)
  else spin.

Definition disk_env (s : kernel) : option kernel :=
  match curproc s with
  | None => None
  | Some i =>
      match (scheduler_back ;; ideintr ;; resume i) s with
      | Ret _ s' => Some s'
      | _ => None
      end
  end.

(** What one completed request does to its buffer, to the disk and to the process
    that waited for it. *)
Definition sel_of (bf : buf) : Z * Z := (Z.land (b_dev bf) 1, lba (b_sector bf)).
Definition disk_at (s : kernel) (sel : Z * Z) : list Z := disk s (fst sel) (snd sel).
Definition disk_put (dk : Z -> Z -> list Z) (sel : Z * Z) (l : list Z) : Z -> Z -> list Z :=
  fun d x => if (d =? fst sel) && (x =? snd sel) then l else dk d x.

Definition done_disk (s : kernel) (bf : buf) : Z -> Z -> list Z :=
  if has (b_flags bf) B_DIRTY then disk_put (disk s) (sel_of bf) (b_data bf) else disk s.
Definition done_buf (s : kernel) (bf : buf) : buf :=
  (if negb (has (b_flags bf) B_DIRTY) && negb (disk_bad s (fst (sel_of bf)) (snd (sel_of bf)))
   then bf <| b_data := disk_at s (sel_of bf) |> else bf)
  <| b_flags := clear_flag (set_flag (b_flags bf) B_VALID) B_DIRTY |>.
Definition done_proc (s : kernel) (p : proc) : proc :=
  p <| p_chan := None |> <| p_state := RUNNING |> <| p_last_sched_time := ticks s |>.
Definition after_rw (s : kernel) (b : nat) (bf : buf) (i : nat) (p : proc) : kernel :=
  s <| bufs := <[b := done_buf s (bf <| b_qnext := None |>)]> (bufs s) |>
    <| disk := done_disk s bf |>
    <| ide_sel := sel_of bf |>
    <| ptable := <[i := done_proc s p]> (wake_proc (Some (ChBuf b)) <$> ptable s) |>
    <| cr3 := PADDR (p_pgdir p) |> <| ts_esp0 := u32 (p_kstack p + KSTACKSIZE) |>.

(** The process may use the disk: it is running, holds no spinlock, and the disk is
    idle. *)
Record io_ready (s : kernel) (i : nat) (p : proc) : Prop := {
  io_cur : curproc s = Some i;
  io_proc : ptable s !! i = Some p;
  io_running : p_state p = RUNNING;
  io_pgdir : p_pgdir p <> 0;
  io_held : held s = [];
  io_idle : idequeue s = None }.

(** ** Flags *)
Lemma has_bit f k : 0 <= k -> has f (2 ^ k) = Z.testbit f k.
Proof.
  intros Hk. unfold has. destruct (Z.testbit f k) eqn:E.
  - apply negb_true_iff, Z.eqb_neq. intros H0.
    apply (f_equal (fun z => Z.testbit z k)) in H0. rewrite Z.land_spec, E, Z.pow2_bits_true, Z.bits_0 in H0 by lia. done.
  - apply negb_false_iff, Z.eqb_eq. apply Z.bits_inj'. intros n Hn.
    rewrite Z.land_spec, Z.bits_0, Z.pow2_bits_eqb by lia.
    destruct (Z.eqb_spec k n) as [<-|]; [by rewrite E|by rewrite andb_false_r].
Qed.

Definition busy (f : Z) : bool := Z.testbit f 0.
Definition valid (f : Z) : bool := Z.testbit f 1.
Definition dirty (f : Z) : bool := Z.testbit f 2.
Lemma has_busy f : has f B_BUSY = busy f. Proof. exact (has_bit f 0 ltac:(lia)). Qed.
Lemma has_valid f : has f B_VALID = valid f. Proof. exact (has_bit f 1 ltac:(lia)). Qed.
Lemma has_dirty f : has f B_DIRTY = dirty f. Proof. exact (has_bit f 2 ltac:(lia)). Qed.

Lemma io_done_bits f : io_done f = valid f && negb (dirty f).
Proof.
  unfold io_done, valid, dirty. change (Z.lor B_VALID B_DIRTY) with 6. change B_VALID with 2.
  destruct (Z.eqb_spec (Z.land f 6) 2) as [E|E].
  - pose proof (f_equal (fun z => Z.testbit z 1) E) as E1. pose proof (f_equal (fun z => Z.testbit z 2) E) as E2.
    cbv beta in E1, E2. rewrite Z.land_spec in E1, E2.
    change (Z.testbit 6 _) with true in E1. change (Z.testbit 6 _) with true in E2.
    rewrite andb_true_r in E1, E2. by rewrite E1, E2.
  - destruct (Z.testbit f 1) eqn:E1; [|done]. destruct (Z.testbit f 2) eqn:E2; [done|]. exfalso. apply E.
    apply Z.bits_inj'. intros n Hn. rewrite Z.land_spec.
    assert (E6 : Z.testbit 6 n = (1 =? n) || (2 =? n))
      by (rewrite <- !Z.pow2_bits_eqb, <- Z.lor_spec by lia; done).
    assert (E7 : Z.testbit 2 n = (1 =? n)) by (rewrite <- Z.pow2_bits_eqb by lia; done).
    rewrite E6, E7. clear E6 E7.
    destruct (Z.eqb_spec 1 n) as [<-|]; [by rewrite E1|]. destruct (Z.eqb_spec 2 n) as [<-|]; [by rewrite E2|].
    by rewrite andb_false_r.
Qed.

Ltac bit_consts :=
  repeat match goal with
    | |- context [Z.testbit ?c ?k] =>
        match c with B_BUSY => idtac | B_VALID => idtac | B_DIRTY => idtac end;
        let v := eval vm_compute in (Z.testbit c k) in change (Z.testbit c k) with v
    end; cbn [negb].

(** The flags after a request is complete, taken or released. *)
Lemma done_flags f : let f' := clear_flag (set_flag f B_VALID) B_DIRTY in
  valid f' = true /\ dirty f' = false /\ busy f' = busy f.
Proof.
  cbv zeta. unfold clear_flag, set_flag, valid, dirty, busy.
  rewrite !Z.ldiff_spec, !Z.lor_spec. bit_consts. by rewrite orb_true_r, !andb_true_r, andb_false_r, orb_false_r.
Qed.
Lemma busy_flags f : let f' := set_flag f B_BUSY in busy f' = true /\ valid f' = valid f /\ dirty f' = dirty f.
Proof. cbv zeta. unfold set_flag, valid, dirty, busy. rewrite !Z.lor_spec. bit_consts. by rewrite orb_true_r, !orb_false_r. Qed.
Lemma dirty_flags f : let f' := set_flag f B_DIRTY in busy f' = busy f /\ valid f' = valid f /\ dirty f' = true.
Proof. cbv zeta. unfold set_flag, valid, dirty, busy. rewrite !Z.lor_spec. bit_consts. by rewrite orb_true_r, !orb_false_r. Qed.
Lemma free_flags f : let f' := clear_flag f B_BUSY in busy f' = false /\ valid f' = valid f /\ dirty f' = dirty f.
Proof. cbv zeta. unfold clear_flag, valid, dirty, busy. rewrite !Z.ldiff_spec. bit_consts. by rewrite !andb_true_r, andb_false_r. Qed.
#[global] Opaque busy valid dirty.

(** The registers hold the low 28 bits of the sector number. *)
Lemma lba_mod sector : 0 <= sector < 2 ^ 32 -> lba sector = sector mod 2 ^ 28.
Proof.
  intros Hs. unfold lba. change 0xff with (Z.ones 8). change 0x0f with (Z.ones 4).
  rewrite !Z.land_ones, !Z.shiftr_div_pow2, !Z.shiftl_mul_pow2 by lia.
  change (2 ^ 8) with 256. change (2 ^ 16) with 65536. change (2 ^ 24) with 16777216.
  change (2 ^ 28) with 268435456. change (2 ^ 4) with 16. Z.div_mod_to_equations; lia.
Qed.

(** ** Running the driver *)

(** The disk started on the buffer [c]. *)
Definition started (s : kernel) (c : nat) : kernel :=
  let bf := buf_at c s in
  s <| ide_sel := sel_of bf |> <| disk := done_disk s bf |>.

Lemma idestart_run s c : idestart (Some c) s = Ret tt (started s c).
Proof.
  unfold idestart, idewait, bind, get, gets, ret, modify, started, done_disk, disk_put, sel_of. cbn [obind].
  destruct (has (b_flags (buf_at c s)) B_DIRTY); cbn [when]; [done|]. by destruct s.
Qed.

Lemma upd_buf_eq s b bf g : bufs s !! b = Some bf ->
  upd_buf b g s = Ret tt (s <| bufs := <[b := g bf]> (bufs s) |>).
Proof. intros Hb. unfold upd_buf, modify. rewrite <- (list_alter_lookup g b bf) by done. done. Qed.

Lemma buf_at_eq s b bf : bufs s !! b = Some bf -> buf_at b s = bf.
Proof. unfold buf_at. by intros ->. Qed.

Lemma wakeup_run s c : LPtable ∉ held s ->
  wakeup c s = Ret tt (s <| ptable := wake_proc (Some c) <$> ptable s |>).
Proof.
  intros Hh. unfold wakeup, bind. rewrite acquire_run by done. cbn [obind]. unfold wakeup1, modify. cbn [obind].
  rewrite (release_run _ (held s)) by done. by destruct s.
Qed.

(** The state after the request at the head of the queue is complete and before the
    next one starts. *)
Definition completed (s : kernel) (b : nat) (bf : buf) : kernel :=
  s <| bufs := <[b := done_buf s bf]> (bufs s) |> <| idequeue := b_qnext bf |>
    <| ptable := wake_proc (Some (ChBuf b)) <$> ptable s |>.

Lemma ideintr_run s b bf : LIde ∉ held s -> LPtable ∉ held s ->
  idequeue s = Some b -> bufs s !! b = Some bf -> ide_sel s = sel_of bf ->
  ideintr s = Ret tt (let s1 := completed s b bf in
                      match b_qnext bf with None => s1 | Some c => started s1 c end).
Proof.
  intros Hi Hp Hq Hb Hsel. pose proof (lookup_lt_Some _ _ _ Hb) as Hlt.
  unfold ideintr. unfold bind at 1. rewrite acquire_run by done. cbn [obind].
  unfold bind at 1. unfold gets at 1. cbn [obind]. change (idequeue (s <| held ::= _ |>)) with (idequeue s). rewrite Hq.
  unfold bind at 1. unfold gets at 1. cbn [obind]. rewrite (buf_at_eq _ b bf) by done.
  unfold bind at 1. unfold modify at 1. cbn [obind].
  set (s1 := s <| held ::= cons LIde |> <| idequeue := b_qnext bf |>).
  set (bf1 := if negb (has (b_flags bf) B_DIRTY) && negb (disk_bad s (fst (sel_of bf)) (snd (sel_of bf)))
              then bf <| b_data := disk_at s (sel_of bf) |> else bf).
  set (m := if negb (has (b_flags bf) B_DIRTY) then _ else _).
  assert (Hm : m s1 = Ret tt (s1 <| bufs := <[b := bf1]> (bufs s) |>)).
  { unfold m, bf1. destruct (has (b_flags bf) B_DIRTY); cbn [negb andb].
    - unfold ret. rewrite list_insert_id by done. by destruct s.
    - unfold idewait, bind, get, ret. cbn [obind]. change (ide_sel s1) with (ide_sel s).
      change (disk_bad s1) with (disk_bad s). rewrite Hsel. cbn [andb].
      destruct (disk_bad s _ _); cbn [andb when negb Z.leb Z.compare].
      + rewrite list_insert_id by done. by destruct s.
      + rewrite (upd_buf_eq s1 b bf) by done. cbn beta.
        change (ide_sel s1) with (ide_sel s). rewrite Hsel. done. }
  unfold bind at 1. rewrite Hm. cbn [obind]. clearbody m.
  unfold bind at 1. rewrite (upd_buf_eq _ b bf1) by (cbn; by apply list_lookup_insert_eq). cbn [obind].
  set (bf2 := bf1 <| b_flags ::= _ |>).
  unfold bind at 1. rewrite (upd_buf_eq _ b bf2) by (cbn; apply list_lookup_insert_eq; rewrite length_insert; done).
  cbn [obind]. unfold bind at 1. rewrite wakeup_run by (cbn; set_solver). cbn [obind].
  unfold bind at 1. unfold gets at 1. cbn [obind].
  set (s2 := _ <| ptable := _ |>).
  assert (E2 : s2 = (completed s b bf) <| held ::= cons LIde |>).
  { unfold s2, s1, bf2, bf1, completed, done_buf. kext.
    cbn. rewrite !list_insert_insert_eq. f_equal. by destruct (_ && _). }
  clearbody s2. subst s2. unfold bind. change (idequeue (_ <| held ::= _ |>)) with (b_qnext bf).
  destruct (b_qnext bf) as [c|].
  - rewrite (bool_decide_eq_false_2 (Some c = None)) by done. cbn [negb when].
    rewrite idestart_run. cbn [obind]. rewrite (release_run _ (held s)) by done. by destruct s.
  - rewrite (bool_decide_eq_true_2 (None = None)) by done. cbn [negb when ret obind]. rewrite (release_run _ (held s)) by done. by destruct s.
Qed.

Lemma scheduler_back_run s : held s = [LPtable] ->
  scheduler_back s = Ret tt (s <| cr3 := PADDR (kpgdir s) |> <| curproc := None |> <| held := [] |>).
Proof.
  intros Hh. unfold scheduler_back, switchkvm, bind, modify. cbn [obind]. by rewrite (release_run _ []).
Qed.

Lemma resume_run s i p : held s = [] -> ptable s !! i = Some p -> p_state p = RUNNABLE -> p_pgdir p <> 0 ->
  resume i s = Ret tt (s <| held := [LPtable] |> <| curproc := Some i |>
    <| ts_esp0 := u32 (p_kstack p + KSTACKSIZE) |> <| cr3 := PADDR (p_pgdir p) |>
    <| ptable := <[i := p <| p_state := RUNNING |> <| p_last_sched_time := ticks s |>]> (ptable s) |>).
Proof.
  intros Hh Hp Hst Hpg. unfold resume, switchuvm, bind. rewrite acquire_run by (rewrite Hh; set_solver). cbn [obind].
  unfold gets, modify. cbn [obind]. rewrite !(myproc_run _ i p) by done. cbn [obind].
  rewrite bool_decide_eq_true_2 by done. cbn [obind]. rewrite !(myproc_run _ i p) by done. cbn [obind].
  destruct (Z.eqb_spec (p_pgdir p) 0); [done|]. cbn [obind]. unfold upd_proc, modify.
  rewrite (upd_ptable_eq _ i p) by done. f_equal. kext. cbn. by rewrite Hh.
Qed.

(** [sleep] up to the switch, and what is left of it after. *)
Definition slept (s : kernel) (c : chan) (i : nat) (p : proc) : kernel :=
  s <| held := [LPtable] |>
    <| ptable := <[i := p <| p_chan := Some c |> <| p_state := SLEEPING |>]> (ptable s) |>.
Definition wake_up (lk : lockid) : M kernel unit :=
  upd_myproc (fun p => p <| p_chan := None |>) ;;
  release LPtable ;; acquire lk.

Lemma sleep_run s c lk i p : held s = [lk] -> lk <> LPtable -> curproc s = Some i -> ptable s !! i = Some p ->
  sleep c lk s = Switched (slept s c i p) (wake_up lk).
Proof.
  intros Hh Hlk Hc Hp. pose proof (lookup_lt_Some _ _ _ Hp) as Hlt.
  unfold sleep, bind, gets. cbn [obind]. rewrite Hc. rewrite bool_decide_eq_false_2 by done. cbn [negb when].
  rewrite acquire_run by (rewrite Hh; set_solver). cbn [obind].
  unfold release at 1. unfold holding. rewrite bool_decide_eq_true_2 by (cbn; rewrite Hh; set_solver). cbn [obind].
  rewrite (upd_myproc_eq _ i p) by done. cbn [obind].
  unfold sched, bind, get. cbn [obind]. unfold holding.
  set (s1 := _ <| ptable := _ |>).
  assert (E : s1 = slept s c i p).
  { unfold s1, slept. kext. cbn. rewrite Hh. cbn. rewrite decide_False, decide_True by done. done. }
  clearbody s1. subst s1. rewrite bool_decide_eq_true_2 by (cbn; set_solver).
  change (Z.of_nat (length (held (slept s c i p))) =? 1) with true. cbn [negb]. rewrite (myproc_run _ i (p <| p_chan := Some c |> <| p_state := SLEEPING |>)).
  2:{ exact Hc. } 2:{ cbn. by apply list_lookup_insert_eq. }
  cbn [obind]. rewrite decide_False by done. unfold switch. cbn [obind]. done.
Qed.

Lemma wake_up_run s lk i p : held s = [LPtable] -> lk <> LPtable -> curproc s = Some i -> ptable s !! i = Some p ->
  wake_up lk s = Ret tt (s <| held := [lk] |> <| ptable := <[i := p <| p_chan := None |>]> (ptable s) |>).
Proof.
  intros Hh Hlk Hc Hp. unfold wake_up, bind. rewrite (upd_myproc_eq _ i p) by done. cbn [obind].
  rewrite (release_run _ []) by done. cbn [obind]. rewrite acquire_run by (cbn; set_solver). done.
Qed.

(** The process sleeps on the only request of the disk; the interrupt completes it. *)
Lemma wpe_sleep_disk s b bf i p (Q : unit -> kernel -> Prop) :
  held s = [LIde] -> curproc s = Some i -> ptable s !! i = Some p -> p_pgdir p <> 0 ->
  idequeue s = Some b -> bufs s !! b = Some bf -> b_qnext bf = None -> ide_sel s = sel_of bf ->
  Q tt (s <| bufs := <[b := done_buf s bf]> (bufs s) |> <| idequeue := None |>
          <| ptable := <[i := done_proc s p]> (wake_proc (Some (ChBuf b)) <$> ptable s) |>
          <| cr3 := PADDR (p_pgdir p) |> <| ts_esp0 := u32 (p_kstack p + KSTACKSIZE) |>) ->
  wpe disk_env (sleep (ChBuf b) LIde) s Q.
Proof.
  intros Hh Hc Hp Hpg Hq Hb Hn Hsel HQ. pose proof (lookup_lt_Some _ _ _ Hp) as Hlt.
  unfold wpe, wp, run_env. rewrite (sleep_run s _ _ i p) by done. cbn [orun].
  unfold disk_env. change (curproc (slept s _ i p)) with (curproc s). rewrite Hc.
  unfold bind. rewrite scheduler_back_run by done. cbn [obind].
  set (p1 := p <| p_chan := Some (ChBuf b) |> <| p_state := SLEEPING |>).
  rewrite (ideintr_run _ b bf) by (try done; cbn; set_solver). rewrite Hn. cbn [obind].
  set (s1 := completed _ b bf).
  assert (Hp1 : ptable s1 !! i = Some (p1 <| p_state := RUNNABLE |>)).
  { unfold s1. cbn. rewrite list_lookup_fmap, list_lookup_insert_eq by done. cbn. unfold wake_proc. cbn.
    by rewrite !bool_decide_eq_true_2 by done. }
  rewrite (resume_run s1 i (p1 <| p_state := RUNNABLE |>)) by done.
  rewrite (wake_up_run _ _ i (p1 <| p_state := RUNNING |> <| p_last_sched_time := ticks s |>)).
  2:{ done. } 2:{ done. } 2:{ done. }
  2:{ cbn. apply list_lookup_insert_eq. by rewrite length_fmap, length_insert. }
  cbn [orun]. match goal with |- Q tt ?t => match type of HQ with Q tt ?t' => replace t with t'; [exact HQ|] end end.
  kext; cbn; try done.
  rewrite list_insert_insert_eq, list_fmap_insert, list_insert_insert_eq. done.
Qed.

(** [iderw] alone with the disk: it returns with the request complete. *)
Lemma wpe_iderw s b bf i p (Q : unit -> kernel -> Prop) :
  io_ready s i p -> bufs s !! b = Some bf -> busy (b_flags bf) = true ->
  valid (b_flags bf) && negb (dirty (b_flags bf)) = false -> b_dev bf = 0 \/ havedisk1 s = true ->
  Q tt (after_rw s b bf i p) -> wpe disk_env (iderw b) s Q.
Proof.
  intros [Hc Hp Hst Hpg Hh Hq] Hb Hbusy Hdone Hdev HQ. pose proof (lookup_lt_Some _ _ _ Hb) as Hlt.
  unfold iderw. apply wpe_gets, wpe_gets. rewrite (buf_at_eq s b bf) by done.
  rewrite has_busy, Hbusy, io_done_bits, Hdone. cbn [negb].
  replace (negb (b_dev bf =? 0) && negb (havedisk1 s)) with false.
  2:{ destruct Hdev as [-> | ->]; [done|]. by rewrite andb_false_r. }
  apply wpe_bind, wp_wpe. apply wp_run with tt (s <| held ::= cons LIde |>); [apply acquire_run; rewrite Hh; set_solver|].
  apply wpe_bind, wpe_bind, wp_wpe. eapply wp_run; [by apply (upd_buf_eq _ b bf)|].
  apply wpe_gets. cbn. rewrite Hq. apply wp_wpe. eapply wp_run; [done|]. apply wpe_gets. cbn. rewrite bool_decide_eq_true_2 by done. cbn [when].
  apply wpe_bind, wp_wpe. eapply wp_run; [apply idestart_run|].
  set (bf1 := bf <| b_qnext := None |>). set (s1 := started _ b).
  assert (Hb1 : bufs s1 !! b = Some bf1) by (cbn; by apply list_lookup_insert_eq).
  assert (Hsel : ide_sel s1 = sel_of bf).
  { unfold s1, started. cbn. rewrite (buf_at_eq _ b bf1) by done. done. }
  assert (Hdk : disk s1 = done_disk s bf).
  { unfold s1, started. cbn. rewrite (buf_at_eq _ b bf1) by done. done. }
  apply wpe_bind. unfold waiting. cbn [iderw_wait]. apply wpe_gets. rewrite (buf_at_eq s1 b bf1) by done.
  change (b_flags bf1) with (b_flags bf). rewrite io_done_bits, Hdone.
  apply wpe_bind. apply (wpe_sleep_disk s1 b bf1 i p); try done; try (cbn; by rewrite Hh).
  set (s2 := _ <| ts_esp0 := _ |>).
  assert (Hb2 : bufs s2 !! b = Some (done_buf s1 bf1)).
  { cbn. apply list_lookup_insert_eq. by rewrite length_insert. }
  apply wpe_gets. rewrite (buf_at_eq s2 b _ Hb2). destruct (done_flags (b_flags bf)) as (V & D & _).
  replace (b_flags (done_buf s1 bf1)) with (clear_flag (set_flag (b_flags bf) B_VALID) B_DIRTY)
    by (unfold done_buf; by destruct (_ && _)).
  rewrite io_done_bits, V, D. cbn [negb andb]. apply wpe_ret, wp_wpe.
  eapply wp_run; [apply (release_run _ []); cbn; by rewrite Hh|].
  match goal with |- Q tt ?t => replace t with (after_rw s b bf i p); [exact HQ|] end.
  unfold after_rw. kext; try (by cbn); try (by symmetry).
  cbn. rewrite list_insert_insert_eq. f_equal. unfold done_buf. fold bf1.
  change (disk_bad s1) with (disk_bad s). destruct (negb _ && _) eqn:E; [|done].
  unfold disk_at. rewrite Hdk. unfold done_disk.
  apply andb_true_iff in E as [E _]. change (b_flags bf1) with (b_flags bf) in E. by apply negb_true_iff in E as ->.
Qed.

(** ** The request queue *)

(** The buffers of the queue, first request first. *)
Fixpoint queue_is (bs : list buf) (q : option nat) (l : list nat) : Prop :=
  match l with
  | [] => q = None
  | b :: l' => q = Some b /\ exists bf, bs !! b = Some bf /\ queue_is bs (b_qnext bf) l'
  end.

(** The driver's invariant: every queued buffer is owned and has a request, and the
    disk is working on the first. *)
Record ide_inv (s : kernel) (l : list nat) : Prop := {
  iq_len : length (bufs s) = S NBUF;
  iq_queue : queue_is (bufs s) (idequeue s) l;
  iq_nodup : NoDup l;
  iq_pending : forall b bf, b ∈ l -> bufs s !! b = Some bf ->
    busy (b_flags bf) = true /\ valid (b_flags bf) && negb (dirty (b_flags bf)) = false;
  iq_started : forall b bf, head l = Some b -> bufs s !! b = Some bf ->
    ide_sel s = sel_of bf /\ (dirty (b_flags bf) = true -> disk_at s (sel_of bf) = b_data bf) }.

Lemma queue_is_lookup bs q l b : queue_is bs q l -> b ∈ l -> exists bf, bs !! b = Some bf.
Proof.
  revert q. induction l as [|c l IH]; intros q; [set_solver|]. intros [-> (bf & Hb & Hl)].
  intros [->|H]%elem_of_cons; [by exists bf|]. by eapply IH.
Qed.

(** Updates of other buffers leave the queue alone. *)
Lemma queue_is_insert bs q l b bf : b ∉ l -> queue_is bs q l -> queue_is (<[b := bf]> bs) q l.
Proof.
  revert q. induction l as [|c l IH]; intros q Hn; [done|]. intros [-> (bf' & Hb & Hl)]. split; [done|].
  exists bf'. rewrite list_lookup_insert_ne by set_solver. split; [done|]. apply IH; set_solver.
Qed.

Lemma queue_last_run l : forall fuel p q e s, queue_is (bufs s) q l -> q = Some p -> last l = Some e ->
  (length l <= fuel)%nat -> queue_last fuel p s = Ret e s.
Proof.
  induction l as [|c l IH]; intros fuel p q e s; [done|]. intros [-> (bf & Hb & Hl)] [= ->] He Hf.
  destruct fuel as [|fuel]; [cbn in Hf; lia|]. cbn [queue_last]. unfold bind, gets. cbn [obind].
  rewrite (buf_at_eq s p bf Hb). destruct l as [|c' l].
  - cbn in Hl. rewrite Hl. by injection He as ->.
  - pose proof Hl as [E _]. rewrite E. eapply IH; [exact Hl|done|done|cbn in *; lia].
Qed.

(** Linking [b] behind the last buffer. *)
Lemma queue_append bs q l e ef b bf : queue_is bs q l -> last l = Some e -> NoDup l -> b ∉ l ->
  bs !! e = Some ef -> bs !! b = Some bf -> b_qnext bf = None ->
  queue_is (<[e := ef <| b_qnext := Some b |>]> bs) q (l ++ [b]).
Proof.
  revert q. induction l as [|c l IH]; intros q; [done|]. intros [-> (cf & Hc & Hl)] He Hnd Hn Hef Hb Hq.
  apply NoDup_cons in Hnd as [Hnc Hnd]. cbn [app]. split; [done|].
  pose proof (lookup_lt_Some _ _ _ Hef) as Hlt.
  destruct l as [|c' l].
  - injection He as ->. eexists. rewrite list_lookup_insert_eq by done. split; [done|]. cbn [b_qnext update app].
    split; [done|]. exists bf. rewrite list_lookup_insert_ne by set_solver. done.
  - change (last (c' :: l) = Some e) in He. assert (c <> e). { intros ->. apply Hnc. by apply last_Some_elem_of in He. }
    exists cf. rewrite list_lookup_insert_ne by done. split; [done|]. apply IH; try done. set_solver.
Qed.

Definition same_but_qnext (s s' : kernel) : Prop :=
  length (bufs s') = length (bufs s) /\
  forall c cf, bufs s !! c = Some cf -> exists q, bufs s' !! c = Some (cf <| b_qnext := q |>).

Lemma same_but_qnext_insert s s' b bf q : bufs s !! b = Some bf ->
  bufs s' = <[b := bf <| b_qnext := q |>]> (bufs s) -> same_but_qnext s s'.
Proof.
  intros Hb E. split; rewrite E; [apply length_insert|]. intros c cf Hcf. destruct (decide (c = b)) as [->|Hne].
  - rewrite list_lookup_insert_eq by by eapply lookup_lt_Some. replace cf with bf by congruence. by exists q.
  - rewrite list_lookup_insert_ne, Hcf by done. exists (b_qnext cf). by destruct cf.
Qed.

Lemma same_but_qnext_trans s1 s2 s3 : same_but_qnext s1 s2 -> same_but_qnext s2 s3 -> same_but_qnext s1 s3.
Proof.
  intros [L1 H1] [L2 H2]. split; [congruence|]. intros c cf Hc. destruct (H1 c cf Hc) as [q1 Hc1].
  destruct (H2 c _ Hc1) as [q2 Hc2]. by exists q2.
Qed.

Lemma link_run s l b bf : queue_is (bufs s) (idequeue s) l -> NoDup l -> b ∉ l ->
  length (bufs s) = S NBUF -> bufs s !! b = Some bf ->
  exists s', link b s = Ret tt s' /\ queue_is (bufs s') (idequeue s') (l ++ [b]) /\ same_but_qnext s s' /\
    s' = s <| bufs := bufs s' |> <| idequeue := idequeue s' |> /\ (l <> [] -> idequeue s' = idequeue s).
Proof.
  intros Hq Hnd Hn Hlen Hb. pose proof (lookup_lt_Some _ _ _ Hb) as Hlt.
  unfold link, bind. rewrite (upd_buf_eq s b bf) by done. cbn [obind]. set (bf1 := bf <| b_qnext := None |>).
  unfold gets. cbn [obind idequeue update].
  set (s1 := s <| bufs := <[b := bf1]> (bufs s) |>).
  assert (S1 : same_but_qnext s s1) by (by apply (same_but_qnext_insert s s1 b bf None)).
  assert (Hb1 : bufs s1 !! b = Some bf1) by (cbn; by apply list_lookup_insert_eq).
  destruct (last l) as [e|] eqn:He.
  - assert (Hin : e ∈ l) by by apply last_Some_elem_of in He.
    assert (Hq1 : queue_is (bufs s1) (idequeue s) l) by (by apply queue_is_insert).
    destruct (queue_is_lookup _ _ _ e Hq1 Hin) as [ef Hef].
    destruct l as [|c l]; [done|]. pose proof Hq as [Ec _]. rewrite Ec.
    rewrite (queue_last_run (c :: l) (S NBUF) c (Some c) e s1).
    2:{ change (idequeue s) with (idequeue s1) in Hq1. by rewrite <- Ec. } 2:{ done. } 2:{ done. }
    2:{ rewrite <- Hlen. replace (length (bufs s)) with (length (seq 0 (length (bufs s)))) by apply length_seq.
        apply submseteq_length, NoDup_submseteq; [done|]. intros x Hx.
        destruct (queue_is_lookup _ _ _ x Hq Hx) as [xf Hxf%lookup_lt_Some]. apply elem_of_seq. lia. }
    cbn [obind]. rewrite (upd_buf_eq s1 e ef) by done. eexists. split; [done|]. split_and!.
    + apply (queue_append (bufs s1) (idequeue s) (c :: l) e ef b bf1); done.
    + eapply same_but_qnext_trans; [exact S1|]. by apply (same_but_qnext_insert _ _ e ef (Some b)).
    + by kext.
    + done.
  - assert (l = []) as -> by (by apply last_None). cbn in Hq. rewrite Hq. eexists. split; [done|]. split_and!.
    + split; [done|]. exists bf1. split; [exact Hb1|done].
    + exact S1.
    + by kext.
    + done.
Qed.

(** The invariant after a buffer was linked and, if it is the first, the disk started. *)
Lemma linked_inv s s1 l b bf :
  ide_inv s l -> b ∉ l -> bufs s !! b = Some bf -> busy (b_flags bf) = true ->
  valid (b_flags bf) && negb (dirty (b_flags bf)) = false ->
  queue_is (bufs s1) (idequeue s1) (l ++ [b]) -> same_but_qnext s s1 ->
  disk s1 = disk s -> ide_sel s1 = ide_sel s ->
  let s2 := if bool_decide (idequeue s1 = Some b) then started s1 b else s1 in
  ide_inv s2 (l ++ [b]) /\ (l <> [] -> disk s2 = disk s /\ ide_sel s2 = ide_sel s).
Proof.
  intros [Hlen Hq Hnd Hpend Hst] Hn Hb Hbusy Hdone Hq1 [Hlen1 Hsame] Ed Es s2.
  destruct (Hsame b bf Hb) as [q1 Hb1].
  assert (Hold : forall c cf, bufs s1 !! c = Some cf -> exists cf0 q, bufs s !! c = Some cf0 /\ cf = cf0 <| b_qnext := q |>).
  { intros c cf Hcf. destruct (lookup_lt_is_Some_2 (bufs s) c) as [cf0 H0].
    { rewrite <- Hlen1. by eapply lookup_lt_Some. }
    destruct (Hsame c cf0 H0) as [q H1]. exists cf0, q. split; [done|congruence]. }
  assert (E2 : bufs s2 = bufs s1 /\ idequeue s2 = idequeue s1) by (unfold s2, started; by destruct (bool_decide _)).
  destruct E2 as [Eb Eq].
  assert (Hne : l <> [] -> s2 = s1).
  { intros Hl. unfold s2. destruct l as [|c l]; [done|]. destruct Hq1 as [-> _].
    rewrite bool_decide_eq_false_2; [done|]. intros [= ->]. set_solver. }
  split; [|intros Hl; by rewrite (Hne Hl)]. split.
  - by rewrite Eb, Hlen1.
  - by rewrite Eb, Eq.
  - apply NoDup_app. split_and!; [done| |apply NoDup_singleton]. set_solver.
  - rewrite Eb. intros c cf Hc (cf0 & q & H0 & ->)%Hold. cbn. apply elem_of_app in Hc as [Hc|Hc].
    + by apply (Hpend c).
    + apply list_elem_of_singleton in Hc as ->. replace cf0 with bf by congruence. done.
  - rewrite Eb. intros c cf Hc Hcf. destruct l as [|c0 l].
    + injection Hc as <-. destruct Hq1 as [Eq1 _]. unfold s2, disk_at. rewrite bool_decide_eq_true_2 by done.
      unfold started. cbn. rewrite (buf_at_eq s1 b cf) by done. split; [done|].
      intros Hdirty. unfold done_disk, disk_put. rewrite has_dirty, Hdirty. cbn. by rewrite !Z.eqb_refl.
    + rewrite (Hne ltac:(done)). injection Hc as ->. destruct (Hold _ _ Hcf) as (cf0 & q & H0 & ->).
      unfold disk_at. rewrite Ed, Es. exact (Hst c cf0 eq_refl H0).
Qed.

(** A request joins the end of the queue.  [iderw] of a buffer that is owned and has
    work to do links it behind the requests already queued, starts the disk only if
    there were none, changes no buffer but its link, and puts the process to sleep on
    its buffer with [idelock] released. *)
Theorem iderw_enqueues (s : kernel) (l : list nat) (b : nat) (bf : buf) (i : nat) (p : proc) :
  ide_inv s l -> b ∉ l -> bufs s !! b = Some bf -> busy (b_flags bf) = true ->
  valid (b_flags bf) && negb (dirty (b_flags bf)) = false -> b_dev bf = 0 \/ havedisk1 s = true ->
  held s = [] -> curproc s = Some i -> ptable s !! i = Some p ->
  exists s' k, iderw b s = Switched s' k /\ ide_inv s' (l ++ [b]) /\
    (l <> [] -> disk s' = disk s /\ ide_sel s' = ide_sel s) /\ same_but_qnext s s' /\ held s' = [LPtable] /\
    ptable s' = <[i := p <| p_chan := Some (ChBuf b) |> <| p_state := SLEEPING |>]> (ptable s).
Proof.
  intros [Hlen Hq Hnd Hpend Hst] Hn Hb Hbusy Hdone Hdev Hh Hc Hp. pose proof (lookup_lt_Some _ _ _ Hb) as Hlt.
  unfold iderw, bind, gets. cbn [obind]. rewrite (buf_at_eq s b bf) by done.
  rewrite has_busy, Hbusy, io_done_bits, Hdone. cbn [negb].
  replace (negb (b_dev bf =? 0) && negb (havedisk1 s)) with false.
  2:{ destruct Hdev as [-> | ->]; [done|]. by rewrite andb_false_r. }
  rewrite acquire_run by (rewrite Hh; set_solver). cbn [obind].
  destruct (link_run (s <| held ::= cons LIde |>) l b bf) as (s1 & -> & Hq1 & Hsame & Es1 & Hq0); try done.
  cbn [obind]. destruct Hsame as [Hlen1 Hsame].
  assert (Hb1 : exists q, bufs s1 !! b = Some (bf <| b_qnext := q |>)) by (by apply Hsame).
  destruct Hb1 as [q1 Hb1]. set (bf1 := bf <| b_qnext := q1 |>) in *.
  destruct (linked_inv s s1 l b bf) as [Hinv2 Hne2]; try done; [by rewrite Es1|by rewrite Es1|].
  set (s2 := if bool_decide (idequeue s1 = Some b) then started s1 b else s1) in *.
  replace (when _ (idestart (Some b)) s1) with (@Ret kernel unit tt s2).
  2:{ unfold s2. destruct (bool_decide (idequeue s1 = Some b)); cbn [when]; [by rewrite idestart_run|done]. }
  cbn [obind].
  assert (E2 : bufs s2 = bufs s1 /\ held s2 = [LIde] /\ curproc s2 = curproc s /\ ptable s2 = ptable s /\
               idequeue s2 = idequeue s1).
  { unfold s2, started. destruct (bool_decide _); rewrite Es1; cbn; by rewrite ?Hh. }
  destruct E2 as (Eb2 & Eh2 & Ec2 & Ep2 & Eq2).
  unfold waiting. cbn [iderw_wait]. unfold bind, gets. cbn [obind].
  rewrite (buf_at_eq s2 b bf1) by by rewrite Eb2. change (b_flags bf1) with (b_flags bf). rewrite io_done_bits, Hdone.
  rewrite (sleep_run s2 _ _ i p) by (done || congruence). cbn [obind].
  eexists _, _. split; [done|]. split_and!; [|intros Hl|..].
  - by destruct Hinv2.
  - by apply Hne2.
  - split; cbn; rewrite Eb2; done.
  - done.
  - cbn. by rewrite Ep2.
Qed.

(** C28. The interrupt completes the first request and starts the next.  The buffer ends
    up valid and clean; a read has filled it with the sector it names, unless the drive
    reported an error, and a write has reached the disk; its waiters are made runnable;
    no other buffer changes.  With an empty queue the interrupt changes nothing. *)
Theorem ideintr_completes (s : kernel) (l : list nat) :
  ide_inv s l -> held s = [] ->
  exists s', ideintr s = Ret tt s' /\ ide_inv s' (tail l) /\
    match l with
    | [] => s' = s
    | b :: _ => exists bf bf', bufs s !! b = Some bf /\ bufs s' = <[b := bf']> (bufs s) /\
        busy (b_flags bf') = true /\ valid (b_flags bf') = true /\ dirty (b_flags bf') = false /\
        b_dev bf' = b_dev bf /\ b_sector bf' = b_sector bf /\
        (dirty (b_flags bf) = true -> b_data bf' = b_data bf /\ disk_at s (sel_of bf) = b_data bf) /\
        (dirty (b_flags bf) = false -> disk_bad s (fst (sel_of bf)) (snd (sel_of bf)) = false ->
           b_data bf' = disk_at s (sel_of bf)) /\
        ptable s' = wake_proc (Some (ChBuf b)) <$> ptable s
    end.
Proof.
  intros [Hlen Hq Hnd Hpend Hst] Hh. destruct l as [|b l].
  - cbn in Hq. exists s. split; [|done]. unfold ideintr, bind. rewrite acquire_run by (rewrite Hh; set_solver).
    unfold gets. cbn [obind]. change (idequeue (s <| held ::= _ |>)) with (idequeue s). rewrite Hq.
    rewrite (release_run _ (held s)) by done. by destruct s.
  - destruct Hq as [Eq (bf & Hb & Hq)]. apply NoDup_cons in Hnd as [Hn Hnd].
    destruct (Hst b bf eq_refl Hb) as [Hsel Hdisk]. destruct (Hpend b bf ltac:(set_solver) Hb) as [Hbusy Hdone].
    rewrite (ideintr_run s b bf) by (done || (rewrite Hh; set_solver)).
    set (s1 := completed s b bf). cbn [tail].
    set (s2 := match b_qnext bf with None => s1 | Some c => started s1 c end).
    eexists. split; [done|].
    assert (E2 : bufs s2 = <[b := done_buf s bf]> (bufs s) /\ ptable s2 = wake_proc (Some (ChBuf b)) <$> ptable s /\
      idequeue s2 = b_qnext bf) by (unfold s2, s1, completed; by destruct (b_qnext bf)).
    destruct E2 as (Eb & Ep & Eq2). split.
    + split.
      * by rewrite Eb, length_insert.
      * rewrite Eb, Eq2. by apply queue_is_insert.
      * done.
      * rewrite Eb. intros c cf Hc. rewrite list_lookup_insert_ne by set_solver. apply Hpend. set_solver.
      * rewrite Eb. intros c cf Hc. destruct l as [|c0 l]; [done|]. injection Hc as ->.
        rewrite list_lookup_insert_ne by set_solver. intros Hcf. destruct Hq as [En _].
        unfold s2. rewrite En. unfold disk_at, started. cbn.
        rewrite (buf_at_eq s1 c cf) by (cbn; rewrite list_lookup_insert_ne by set_solver; done). split; [done|].
        intros Hd. unfold done_disk, disk_put. rewrite has_dirty, Hd. cbn. by rewrite !Z.eqb_refl.
    + exists bf, (done_buf s bf). destruct (done_flags (b_flags bf)) as (V & D & B).
      split_and!; try done; unfold done_buf; rewrite has_dirty; destruct (dirty (b_flags bf)) eqn:Hd; try done;
        cbn [negb andb]; try (destruct (disk_bad s _ _)); try done; try (by cbn; rewrite B).
      all: intros; split; [done|by apply Hdisk].
Qed.

(** ** Examples *)

(** A disk whose sectors hold their own number, one process, and buffer 0 owned for
    sector 7. *)
Definition disk1 : Z -> Z -> list Z := fun _ x => replicate 512 (x mod 256).
Definition proc1 : proc := proc0 <| p_state := RUNNING |> <| p_pgdir := 4096 |> <| p_pid := 1 |>.
Definition rbuf (sector : Z) : buf := buf0 <| b_flags := B_BUSY |> <| b_dev := 1 |> <| b_sector := sector |>.
Definition kernel_ide : kernel :=
  kernel0 <| disk := disk1 |> <| curproc := Some 0%nat |> <| ptable ::= alter (fun _ => proc1) 0%nat |>
          <| bufs := rbuf 7 :: rbuf 9 :: replicate 9 buf0 |>.

Lemma ide_inv_empty : ide_inv kernel_ide [].
Proof. split; try done; [by constructor|set_solver]. Qed.

Lemma iderw_enqueues_witness :
  exists s' k, iderw 1 kernel_ide = Switched s' k /\ ide_inv s' [1%nat] /\ held s' = [LPtable].
Proof.
  destruct (iderw_enqueues kernel_ide [] 1 (rbuf 9) 0 proc1 ide_inv_empty) as (s' & k & H1 & H2 & _ & _ & H3 & _);
    try reflexivity; [set_solver|by right|]. by exists s', k.
Defined.

(** Sector 7 requested, and the interrupt. *)
Definition kernel_ide1 : kernel :=
  kernel_ide <| idequeue := Some 0%nat |> <| ide_sel := (1, 7) |>.
Lemma ide_inv1 : ide_inv kernel_ide1 [0%nat].
Proof.
  split; try done.
  - split; [done|]. by exists (rbuf 7).
  - apply NoDup_singleton.
  - intros b bf ->%list_elem_of_singleton [= <-]. done.
  - intros b bf [= <-] [= <-]. done.
Qed.
Lemma ideintr_completes_witness :
  exists s' bf', ideintr kernel_ide1 = Ret tt s' /\ bufs s' !! 0%nat = Some bf' /\ b_data bf' = replicate 512 7.
Proof.
  destruct (ideintr_completes kernel_ide1 [0%nat] ide_inv1 eq_refl) as (s' & H1 & _ & bf & bf' & Hb & Hb' & _ & _ & _ & _ & _ & _ & H & _).
  injection Hb as <-. exists s', bf'. split; [done|]. rewrite Hb'. split; [done|]. rewrite H by done. done.
Defined.
