(* ===== verification/Bio.v ===== *)
(** The buffer cache, [kernel/bio.c]: a doubly linked list of buffers in order of use,
    through which every disk block is read and written. *)
From S2P Require Import Prelude Types Mem Kalloc Vm Shm Sched Ide.

(** ** Code *)

(** [&bcache.head] *)
Definition BHEAD : nat := NBUF.
(** [-1] in a [uint]: the device of a buffer that was never used. *)
Definition NODEV : Z := 2 ^ 32 - 1.

Definition set_next (b v : nat) : M kernel unit := upd_buf b (fun x => x <| b_next := v |>).
Definition set_prev (b v : nat) : M kernel unit := upd_buf b (fun x => x <| b_prev := v |>).
Definition get_next (b : nat) : M kernel nat := gets (fun s => b_next (buf_at b s)).
Definition get_prev (b : nat) : M kernel nat := gets (fun s => b_prev (buf_at b s)).

Fixpoint binit_loop (l : list nat) : M kernel unit :=
  match l with
  | [] => ret tt
  | b :: l' =>
      let! n := get_next BHEAD in
      set_next b n ;;
      set_prev b BHEAD ;;
      upd_buf b (fun x => x <| b_dev := NODEV |>) ;;
      let! n := get_next BHEAD in
      set_prev n b ;;
      set_next BHEAD b ;;
      binit_loop l'
  end.
Definition binit : M kernel unit :=
  set_prev BHEAD BHEAD ;;
  set_next BHEAD BHEAD ;;
  binit_loop (seq 0 NBUF).

(** The first loop of [bget]: the buffer of the block, from [b] on through [next]. *)
Fixpoint bget_cached (fuel : nat) (b : nat) (dev sector : Z) : M kernel (option nat) :=
  match fuel with
  | O => spin
  | S fuel' =>
      if (b =? BHEAD)%nat then ret None
      else
        let! bf := gets (buf_at b) in
        if (b_dev bf =? dev) && (b_sector bf =? sector) then ret (Some b)
        else bget_cached fuel' (b_next bf) dev sector
  end.

(** The second loop: a buffer that is not in use, from [b] on through [prev]. *)
Fixpoint bget_fresh (fuel : nat) (b : nat) : M kernel (option nat) :=
  match fuel with
  | O => spin
  | S fuel' =>
      if (b =? BHEAD)%nat then ret None
      else
        let! bf := gets (buf_at b) in
        if negb (has (b_flags bf) B_BUSY) then ret (Some b)
        else bget_fresh fuel' (b_prev bf)
  end.

(** [loop:]; [fuel] bounds how often the process is woken. *)
Fixpoint bget_loop (fuel : nat) (dev sector : Z) : M kernel nat :=
  match fuel with
  | O => spin
  | S fuel' =>
      let! b := get_next BHEAD in
      let! r := bget_cached (S NBUF) b dev sector in
      match r with
      | Some b =>
          let! bf := gets (buf_at b) in
          if negb (has (b_flags bf) B_BUSY) then
            upd_buf b (fun x => x <| b_flags ::= fun f => set_flag f B_BUSY |>) ;;
            release LBcache ;;
            ret b
          else
            sleep (ChBuf b) LBcache ;;
            bget_loop fuel' dev sector
      | None =>
          let! b := get_prev BHEAD in
          let! r := bget_fresh (S NBUF) b in
          match r with
          | Some b =>
              upd_buf b (fun x => x <| b_dev := dev |>) ;;
              upd_buf b (fun x => x <| b_sector := sector |>) ;;
              upd_buf b (fun x => x <| b_flags := B_BUSY |>) ;;
              release LBcache ;;
              ret b
          | None => panic "bget: no buffers"
          end
      end
  end.
Definition bget (dev sector : Z) : M kernel nat :=
  acquire LBcache ;;
  waiting (fun n => bget_loop n dev sector).

Definition bread (dev sector : Z) : M kernel nat :=
  let! b := bget dev sector in
  let! bf := gets (buf_at b) in
  when (negb (has (b_flags bf) B_VALID)) (iderw b) ;;
  ret b.

Definition bwrite (b : nat) : M kernel unit :=
  let! bf := gets (buf_at b) in
  if negb (has (b_flags bf) B_BUSY) then panic "bwrite"
  else
    upd_buf b (fun x => x <| b_flags ::= fun f => set_flag f B_DIRTY |>) ;;
    iderw b.

(** The six assignments of [brelse]: the buffer moves to the front. *)
Definition to_front (b : nat) : M kernel unit :=
  let! n := get_next b in
  let! p := get_prev b in
  set_prev n p ;;
  let! p := get_prev b in
  let! n := get_next b in
  set_next p n ;;
  let! h := get_next BHEAD in
  set_next b h ;;
  set_prev b BHEAD ;;
  let! h := get_next BHEAD in
  set_prev h b ;;
  set_next BHEAD b.

Definition brelse (b : nat) : M kernel unit :=
  let! bf := gets (buf_at b) in
  if negb (has (b_flags bf) B_BUSY) then panic "brelse"
  else
    acquire LBcache ;;
    to_front b ;;
    upd_buf b (fun x => x <| b_flags ::= fun f => clear_flag f B_BUSY |>) ;;
    wakeup (ChBuf b) ;;
    release LBcache.

(** ** Doubly linked lists

    [dll n p a l z]: following [n] from [a] visits [l] and then [z], and [p] leads
    back the same way. *)
Fixpoint dll (n p : nat -> nat) (a : nat) (l : list nat) (z : nat) : Prop :=
  match l with
  | [] => n a = z /\ p z = a
  | b :: l' => n a = b /\ p b = a /\ dll n p b l' z
  end.

Definition fset (f : nat -> nat) (x v : nat) : nat -> nat := fun y => if decide (y = x) then v else f y.
Lemma fset_eq f x v : fset f x v x = v.
Proof. unfold fset. by rewrite decide_True. Qed.
Lemma fset_ne f x v y : y <> x -> fset f x v y = f y.
Proof. intros. unfold fset. by rewrite decide_False. Qed.

Lemma dll_ext n p n' p' a l z : (forall x, n' x = n x) -> (forall x, p' x = p x) -> dll n p a l z -> dll n' p' a l z.
Proof. intros Hn Hp. revert a. induction l as [|b l IH]; intros a; cbn; rewrite ?Hn, ?Hp; naive_solver. Qed.

(** Links that the list does not use may change. *)
Lemma dll_frame n p x v y w a l z : x ∉ a :: l -> y ∉ l ++ [z] -> dll n p a l z -> dll (fset n x v) (fset p y w) a l z.
Proof.
  revert a. induction l as [|b l IH]; intros a Hx Hy; cbn.
  - intros [H1 H2]. rewrite !fset_ne by set_solver. done.
  - intros (H1 & H2 & H3). rewrite !fset_ne by set_solver. split_and!; [done|done|]. apply IH; set_solver.
Qed.

Lemma dll_prev_in n p a l z : dll n p a l z -> p z ∈ a :: l.
Proof.
  revert a. induction l as [|b l IH]; intros a; cbn; [intros [_ ->]; set_solver|].
  intros (_ & _ & H%IH). set_solver.
Qed.
Lemma dll_next_in n p a l z : dll n p a l z -> n a ∈ l ++ [z].
Proof. destruct l as [|b l]; cbn; [intros [-> _]; set_solver|]. intros (-> & _). set_solver. Qed.

Lemma dll_split n p a l1 b l2 z : dll n p a (l1 ++ b :: l2) z <-> dll n p a l1 b /\ dll n p b l2 z.
Proof. revert a. induction l1 as [|c l1 IH]; intros a; cbn; [tauto|]. rewrite IH. tauto. Qed.

(** Membership in lists built from [++] and [::]. *)
Ltac in_lists :=
  repeat match goal with
    | H : context [_ ∈ _ ++ _] |- _ => rewrite elem_of_app in H
    | H : context [_ ∈ _ :: _] |- _ => rewrite elem_of_cons in H
    | H : context [_ ∈ []] |- _ => rewrite elem_of_nil in H
    end;
  rewrite ?elem_of_app, ?elem_of_cons, ?elem_of_nil; intuition (subst; try congruence; try tauto).

(** Taking an element out, and putting one in front. *)
Lemma dll_unlink n p a l1 b l2 z : NoDup (l1 ++ b :: l2) -> a ∉ l1 ++ b :: l2 -> z ∉ l1 ++ b :: l2 ->
  dll n p a (l1 ++ b :: l2) z -> dll (fset n (p b) (n b)) (fset p (n b) (p b)) a (l1 ++ l2) z.
Proof.
  revert a. induction l1 as [|d l1 IH]; intros a Hnd Ha Hz; cbn [app].
  - cbn. intros (H1 & H2 & H3). rewrite H2. apply NoDup_cons in Hnd as [Hb Hnd].
    destruct l2 as [|c l2]; cbn in *.
    + destruct H3 as [-> _]. by rewrite !fset_eq.
    + destruct H3 as (-> & H4 & H5). rewrite !fset_eq. split_and!; [done|done|].
      apply dll_frame; [in_lists| |done]. apply NoDup_cons in Hnd as [Hc _]. in_lists.
  - cbn. intros (H1 & H2 & H3). pose proof H3 as [H4 H5]%dll_split.
    pose proof (dll_prev_in _ _ _ _ _ H4) as Hp. pose proof (dll_next_in _ _ _ _ _ H5) as Hn.
    cbn in Hnd. apply NoDup_cons in Hnd as [Hd Hnd].
    rewrite !fset_ne; [| |in_lists].
    2:{ intros ->. apply elem_of_app in Hn as [Hn|Hn]; in_lists. }
    split_and!; [done|done|]. apply IH; try done; in_lists.
Qed.

Lemma dll_push n p a l z b : b ∉ l -> b <> a -> b <> z -> NoDup l -> a ∉ l -> z ∉ l -> dll n p a l z ->
  dll (fset (fset n b (n a)) a b) (fset (fset p b a) (n a) b) a (b :: l) z.
Proof.
  intros Hb Hba Hbz Hnd Ha Hz. destruct l as [|c l]; cbn.
  - intros [H1 H2]. rewrite H1. rewrite fset_eq, (fset_ne _ z), fset_eq, fset_ne, fset_eq, fset_eq by done. done.
  - intros (H1 & H2 & H3). rewrite H1.
    rewrite fset_eq, (fset_ne _ c), fset_eq, (fset_ne _ a), !fset_eq by in_lists.
    split_and!; try done. apply NoDup_cons in Hnd as [Hc Hnd].
    apply dll_frame; [in_lists|in_lists|]. apply dll_frame; in_lists.
Qed.

(** ** The state of the cache *)

Definition nx (s : kernel) (b : nat) : nat := b_next (buf_at b s).
Definition pv (s : kernel) (b : nat) : nat := b_prev (buf_at b s).

(** The list of all buffers, most recently used first. *)
Definition lru (s : kernel) (l : list nat) : Prop :=
  length (bufs s) = S NBUF /\ l ≡ₚ seq 0 NBUF /\ dll (nx s) (pv s) BHEAD l BHEAD.

(** A block: device, sector, contents. *)
Definition block : Type := Z * Z * list Z.

(** The blocks of the disks the kernel uses. *)
Definition on_disk (dev sector : Z) : Prop := 0 <= dev <= 1 /\ 0 <= sector < 2 ^ 28.

(** Buffer [b] is owned by the caller and holds the block [k]. *)
Definition owns (s : kernel) (b : nat) (k : block) : Prop :=
  exists bf, bufs s !! b = Some bf /\ k = (b_dev bf, b_sector bf, b_data bf) /\
    busy (b_flags bf) = true /\ valid (b_flags bf) = true /\ dirty (b_flags bf) = false.

(** The buffers of a list of owned blocks. *)
Definition owned (H : list (nat * block)) : list nat := H.*1.

(** The cache between two operations of the process that owns the buffers of [H]:
    those hold what the process put there, every other buffer is free and, when valid,
    agrees with the disk; no block is cached twice. *)
Record bc_inv (s : kernel) (H : list (nat * block)) : Prop := {
  bc_lru : exists l, lru s l;
  bc_nodup : NoDup (owned H);
  bc_own : forall b k, (b, k) ∈ H -> (b < NBUF)%nat /\ owns s b k;
  bc_free : forall b bf, (b < NBUF)%nat -> bufs s !! b = Some bf -> b ∉ owned H ->
    busy (b_flags bf) = false /\ dirty (b_flags bf) = false /\
    (valid (b_flags bf) = true -> b_data bf = disk s (b_dev bf) (b_sector bf));
  bc_range : forall b bf, (b < NBUF)%nat -> bufs s !! b = Some bf ->
    on_disk (b_dev bf) (b_sector bf) \/ (b_dev bf = NODEV /\ (b ∉ owned H) /\ valid (b_flags bf) = false);
  bc_uniq : forall b c bf cf, (b < NBUF)%nat -> (c < NBUF)%nat -> bufs s !! b = Some bf -> bufs s !! c = Some cf ->
    b <> c -> b_dev bf <> NODEV -> (b_dev bf, b_sector bf) <> (b_dev cf, b_sector cf) }.

Lemma on_disk_sel bf : on_disk (b_dev bf) (b_sector bf) -> sel_of bf = (b_dev bf, b_sector bf).
Proof.
  intros [Hd Hs]. unfold sel_of. f_equal.
  - assert (b_dev bf = 0 \/ b_dev bf = 1) as [-> | ->] by lia; done.
  - rewrite lba_mod by lia. apply Z.mod_small. lia.
Qed.

(** *** What the disk may change behind the process

    Reading, writing and waiting change the cache, the controller, and in the process
    table only who sleeps, who is runnable and when the process last ran. *)
Definition psim (p q : proc) : Prop :=
  q = p <| p_state := p_state q |> <| p_chan := p_chan q |> <| p_last_sched_time := p_last_sched_time q |>.
#[global] Instance psim_preorder : PreOrder psim.
Proof.
  split; [intros p; by destruct p|]. intros p q r H1 H2. unfold psim in *. rewrite H2, H1. by destruct p.
Qed.

Record iofr (s s' : kernel) : Prop := {
  fr_eq : s' = s <| bufs := bufs s' |> <| ide_sel := ide_sel s' |> <| ptable := ptable s' |>
                 <| cr3 := cr3 s' |> <| ts_esp0 := ts_esp0 s' |>;
  fr_procs : Forall2 psim (ptable s) (ptable s') }.
#[global] Instance iofr_preorder : PreOrder iofr.
Proof.
  split.
  - intros s. split; [by kext|]. induction (ptable s); constructor; [reflexivity|done].
  - intros s1 s2 s3 [E1 P1] [E2 P2]. split.
    + rewrite E2. rewrite E1. by kext.
    + clear E1 E2. revert P2. generalize (ptable s3). induction P1; intros l3 P2; inversion P2; subst; constructor; eauto.
      by etransitivity.
Qed.

(** The current process may use the disk. *)
Definition io_ok (s : kernel) (i : nat) : Prop :=
  (exists p, io_ready s i p /\ cr3 s = PADDR (p_pgdir p)) /\ havedisk1 s = true /\
  (forall d x, disk_bad s d x = false).

(** Changing one buffer. *)
Lemma buf_at_insert s b bf c : (b < length (bufs s))%nat ->
  buf_at c (s <| bufs := <[b := bf]> (bufs s) |>) = if decide (c = b) then bf else buf_at c s.
Proof.
  intros Hb. unfold buf_at. cbn. destruct (decide (c = b)) as [->|].
  - by rewrite list_lookup_insert_eq.
  - by rewrite list_lookup_insert_ne.
Qed.

Lemma lru_same s s' l : length (bufs s') = length (bufs s) -> (forall b, nx s' b = nx s b) ->
  (forall b, pv s' b = pv s b) -> lru s l -> lru s' l.
Proof. intros Hl Hn Hp (H1 & H2 & H3). split_and!; [congruence|done|]. by eapply dll_ext. Qed.

Lemma lru_lt s l b : lru s l -> b ∈ l <-> (b < NBUF)%nat.
Proof. intros (_ & Hl & _). rewrite Hl, elem_of_seq. lia. Qed.
Lemma lru_NoDup s l : lru s l -> NoDup l.
Proof. intros (_ & Hl & _). rewrite Hl. apply NoDup_seq. Qed.
Lemma lru_head s l : lru s l -> BHEAD ∉ l.
Proof. intros Hl H%(lru_lt s l BHEAD Hl). unfold BHEAD in H. lia. Qed.
Lemma lru_lookup s l b : lru s l -> (b <= NBUF)%nat -> bufs s !! b = Some (buf_at b s).
Proof.
  intros (Hlen & _) Hb. unfold buf_at. destruct (lookup_lt_is_Some_2 (bufs s) b) as [bf ->]; [lia|done].
Qed.

(** The searches of [bget] walk the list in both directions. *)
Definition matches (s : kernel) (dev sector : Z) (b : nat) : bool :=
  (b_dev (buf_at b s) =? dev) && (b_sector (buf_at b s) =? sector).
Definition free (s : kernel) (b : nat) : bool := negb (busy (b_flags (buf_at b s))).
Fixpoint find_first (f : nat -> bool) (l : list nat) : option nat :=
  match l with [] => None | b :: l' => if f b then Some b else find_first f l' end.

Lemma find_first_Some f l b : find_first f l = Some b -> b ∈ l /\ f b = true.
Proof.
  induction l as [|c l IH]; cbn; [done|]. destruct (f c) eqn:E; [intros [= ->]; set_solver|].
  intros H%IH. set_solver.
Qed.
Lemma find_first_None f l : find_first f l = None -> forall b, b ∈ l -> f b = false.
Proof.
  induction l as [|c l IH]; cbn; [set_solver|]. destruct (f c) eqn:E; [done|].
  intros H b [->|Hb]%elem_of_cons; auto.
Qed.

Lemma bget_cached_run s dev sector l : forall fuel a, dll (nx s) (pv s) a l BHEAD -> BHEAD ∉ l ->
  (length l < fuel)%nat ->
  bget_cached fuel (nx s a) dev sector s = Ret (find_first (matches s dev sector) l) s.
Proof.
  induction l as [|b l IH]; intros fuel a Hd Hn Hf; (destruct fuel as [|fuel]; [cbn in Hf; lia|]); cbn [bget_cached].
  - destruct Hd as [-> _]. by rewrite Nat.eqb_refl.
  - destruct Hd as (-> & _ & Hd). destruct (Nat.eqb_spec b BHEAD) as [->|]; [set_solver|].
    unfold bind, gets. cbn [obind find_first]. fold (matches s dev sector b).
    destruct (matches s dev sector b); [done|]. apply (IH fuel b); [done|set_solver|cbn in Hf; lia].
Qed.

Lemma dll_rev n p a l z : dll n p a l z -> dll p n z (rev l) a.
Proof.
  revert a. induction l as [|b l IH]; intros a; cbn [rev dll]; [tauto|]. intros (H1 & H2 & H3).
  apply dll_split. split; [by apply IH|done].
Qed.

Lemma bget_fresh_run s l : forall fuel a, dll (pv s) (nx s) a l BHEAD -> BHEAD ∉ l ->
  (length l < fuel)%nat -> bget_fresh fuel (pv s a) s = Ret (find_first (free s) l) s.
Proof.
  induction l as [|b l IH]; intros fuel a Hd Hn Hf; (destruct fuel as [|fuel]; [cbn in Hf; lia|]); cbn [bget_fresh].
  - destruct Hd as [-> _]. by rewrite Nat.eqb_refl.
  - destruct Hd as (-> & _ & Hd). destruct (Nat.eqb_spec b BHEAD) as [->|]; [set_solver|].
    unfold bind, gets. cbn [obind find_first]. rewrite has_busy. fold (free s b).
    destruct (free s b); [done|]. apply (IH fuel b); [done|set_solver|cbn in Hf; lia].
Qed.

(** [bget] on a cached block, and on one that is not. *)
Lemma bget_hit s l dev sector b : lru s l -> held s = [] ->
  find_first (matches s dev sector) l = Some b -> free s b = true ->
  bget dev sector s = Ret b (s <| bufs := <[b := (buf_at b s) <| b_flags ::= fun f => set_flag f B_BUSY |>]> (bufs s) |>).
Proof.
  intros Hl Hh Hf Hfree. destruct (find_first_Some _ _ _ Hf) as [Hin _].
  pose proof (proj1 (lru_lt s l b Hl) Hin) as Hlt. pose proof (lru_lookup s l b Hl ltac:(lia)) as Hb.
  unfold bget, bind. rewrite acquire_run by (rewrite Hh; set_solver). cbn [obind]. unfold waiting.
  cbn [bget_loop]. unfold bind, get_next, gets. cbn [obind].
  set (s1 := s <| held ::= cons LBcache |>). change (b_next (buf_at BHEAD s1)) with (nx s1 BHEAD).
  destruct Hl as (Hlen & Hperm & Hd).
  rewrite (bget_cached_run s1 dev sector l).
  2:{ exact Hd. } 2:{ by eapply lru_head. } 2:{ rewrite Hperm, length_seq. lia. }
  change (matches s1 dev sector) with (matches s dev sector). rewrite Hf. cbn [obind].
  change (buf_at b s1) with (buf_at b s). rewrite has_busy. unfold free in Hfree. apply negb_true_iff in Hfree as ->.
  cbn [negb]. rewrite (upd_buf_eq s1 b (buf_at b s)) by done. cbn [obind].
  rewrite (release_run _ []) by (cbn; by rewrite Hh). cbn [obind]. unfold ret. f_equal. by kext.
Qed.

Lemma bget_miss s l dev sector b : lru s l -> held s = [] ->
  find_first (matches s dev sector) l = None -> find_first (free s) (rev l) = Some b ->
  bget dev sector s = Ret b (s <| bufs := <[b := (buf_at b s) <| b_dev := dev |> <| b_sector := sector |>
                                                             <| b_flags := B_BUSY |>]> (bufs s) |>).
Proof.
  intros Hl Hh Hf Hfree. destruct (find_first_Some _ _ _ Hfree) as [Hin _].
  assert (Hin' : b ∈ l) by (by apply list_elem_of_In, in_rev, list_elem_of_In).
  pose proof (proj1 (lru_lt s l b Hl) Hin') as Hlt. pose proof (lru_lookup s l b Hl ltac:(lia)) as Hb.
  unfold bget, bind. rewrite acquire_run by (rewrite Hh; set_solver). cbn [obind]. unfold waiting.
  cbn [bget_loop]. unfold bind, get_next, get_prev, gets. cbn [obind].
  set (s1 := s <| held ::= cons LBcache |>). change (b_next (buf_at BHEAD s1)) with (nx s1 BHEAD).
  pose proof (lru_head s l Hl) as Hnh. destruct Hl as (Hlen & Hperm & Hd).
  rewrite (bget_cached_run s1 dev sector l).
  2:{ exact Hd. } 2:{ done. } 2:{ rewrite Hperm, length_seq. lia. }
  change (matches s1 dev sector) with (matches s dev sector). rewrite Hf. cbn [obind].
  change (b_prev (buf_at BHEAD s1)) with (pv s1 BHEAD).
  rewrite (bget_fresh_run s1 (rev l)).
  2:{ exact (dll_rev _ _ _ _ _ Hd). } 2:{ rewrite list_elem_of_In, <- in_rev, <- list_elem_of_In. done. }
  2:{ rewrite length_rev, Hperm, length_seq. lia. }
  change (free s1) with (free s). rewrite Hfree. cbn [obind].
  rewrite (upd_buf_eq s1 b (buf_at b s)) by done. cbn [obind].
  erewrite upd_buf_eq by (cbn; apply list_lookup_insert_eq; lia). cbn [obind].
  erewrite upd_buf_eq by (cbn; apply list_lookup_insert_eq; rewrite length_insert; lia). cbn [obind].
  rewrite (release_run _ []) by (cbn; by rewrite Hh). cbn [obind]. unfold ret. f_equal.
  kext; cbn; by rewrite ?list_insert_insert_eq.
Qed.

Lemma bget_full s l dev sector : lru s l -> held s = [] ->
  find_first (matches s dev sector) l = None -> find_first (free s) (rev l) = None ->
  bget dev sector s = Panic "bget: no buffers".
Proof.
  intros Hl Hh Hf Hfree. unfold bget, bind. rewrite acquire_run by (rewrite Hh; set_solver). cbn [obind]. unfold waiting.
  cbn [bget_loop]. unfold bind, get_next, get_prev, gets. cbn [obind].
  set (s1 := s <| held ::= cons LBcache |>). change (b_next (buf_at BHEAD s1)) with (nx s1 BHEAD).
  pose proof (lru_head s l Hl) as Hnh. destruct Hl as (Hlen & Hperm & Hd).
  rewrite (bget_cached_run s1 dev sector l).
  2:{ exact Hd. } 2:{ done. } 2:{ rewrite Hperm, length_seq. lia. }
  change (matches s1 dev sector) with (matches s dev sector). rewrite Hf. cbn [obind].
  change (b_prev (buf_at BHEAD s1)) with (pv s1 BHEAD).
  rewrite (bget_fresh_run s1 (rev l)).
  2:{ exact (dll_rev _ _ _ _ _ Hd). } 2:{ rewrite list_elem_of_In, <- in_rev, <- list_elem_of_In. done. }
  2:{ rewrite length_rev, Hperm, length_seq. lia. }
  change (free s1) with (free s). by rewrite Hfree.
Qed.

(** A buffer taken for a block that no other buffer holds. *)
Lemma bc_take s s' H b bf : bc_inv s H -> (b < NBUF)%nat -> b ∉ owned H ->
  bufs s' = <[b := bf]> (bufs s) -> disk s' = disk s ->
  b_next bf = nx s b -> b_prev bf = pv s b ->
  busy (b_flags bf) = true -> valid (b_flags bf) = true -> dirty (b_flags bf) = false ->
  on_disk (b_dev bf) (b_sector bf) ->
  (forall c cf, (c < NBUF)%nat -> c <> b -> bufs s !! c = Some cf ->
     (b_dev bf, b_sector bf) <> (b_dev cf, b_sector cf)) ->
  bc_inv s' ((b, (b_dev bf, b_sector bf, b_data bf)) :: H).
Proof.
  intros [[l Hl] Hnd Hown Hfr Hrg Huq] Hlt Hno Eb Ed En Ep HB HV HD Hon Hu.
  assert (Hlen : (b < length (bufs s))%nat) by (destruct Hl as [-> _]; lia).
  assert (Hat : forall c, buf_at c s' = if decide (c = b) then bf else buf_at c s).
  { intros c. unfold buf_at. rewrite Eb. apply (buf_at_insert s b bf c Hlen). }
  split; cbn [owned fmap list_fmap fst].
  - exists l. apply (lru_same s); [by rewrite Eb, length_insert| | |done]; intros c; unfold nx, pv; rewrite Hat;
      by destruct (decide (c = b)) as [->|].
  - constructor; done.
  - intros c k [[= -> ->]|Hc]%elem_of_cons.
    + split; [done|]. exists bf. rewrite Eb, list_lookup_insert_eq by done. done.
    + destruct (Hown c k Hc) as [Hc1 (cf & Hcf & Hk)]. split; [done|]. exists cf.
      rewrite Eb, list_lookup_insert_ne; [done|]. intros ->. apply Hno. apply list_elem_of_fmap. by exists (c, k).
  - intros c cf Hc. rewrite Eb, Ed, not_elem_of_cons. intros Hcf [Hne Hno'].
    rewrite list_lookup_insert_ne in Hcf by done. by apply (Hfr c).
  - intros c cf Hc. rewrite Eb. destruct (decide (c = b)) as [->|Hne].
    + rewrite list_lookup_insert_eq by done. intros [= <-]. by left.
    + rewrite list_lookup_insert_ne by done. intros Hcf. rewrite not_elem_of_cons.
      destruct (Hrg c cf Hc Hcf) as [?|(? & ? & ?)]; [by left|right]. done.
  - intros c d cf df Hc Hd. rewrite Eb. intros Hcf Hdf Hne Hdev. destruct (decide (c = b)) as [->|Hcb].
    + rewrite list_lookup_insert_eq in Hcf by done. injection Hcf as <-.
      rewrite list_lookup_insert_ne in Hdf by done. by apply (Hu d).
    + rewrite list_lookup_insert_ne in Hcf by done. destruct (decide (d = b)) as [->|Hdb].
      * rewrite list_lookup_insert_eq in Hdf by done. injection Hdf as <-. intros E. by apply (Hu c cf Hc Hcb Hcf).
      * rewrite list_lookup_insert_ne in Hdf by done. by apply (Huq c d).
Qed.

(** ** Reading, writing and releasing *)

Lemma wake_proc_psim c p : psim p (wake_proc c p).
Proof. unfold wake_proc. destruct (_ && _); by destruct p. Qed.

Lemma psim_fmap_wake c l : Forall2 psim l (wake_proc c <$> l).
Proof. induction l; constructor; [apply wake_proc_psim|done]. Qed.

Lemma psim_insert l l' i p q : Forall2 psim l l' -> l !! i = Some p -> psim p q -> Forall2 psim l (<[i := q]> l').
Proof.
  intros H. revert i. induction H as [|x y l l' Hxy Hl IH]; intros [|i]; cbn; try done.
  - intros [= ->] Hq. by constructor.
  - intros Hi Hq. constructor; [done|]. by apply IH.
Qed.

Lemma done_proc_psim s p : psim p (done_proc s p).
Proof. unfold done_proc. by destruct p. Qed.

(** A completed request changes what [iofr] allows, and the disk. *)
Lemma after_rw_frame s b bf i p : io_ready s i p -> iofr (s <| disk := done_disk s bf |>) (after_rw s b bf i p).
Proof.
  intros Hr. split; [by kext|]. cbn. eapply psim_insert; [apply psim_fmap_wake|apply Hr|apply done_proc_psim].
Qed.

Lemma after_rw_ok s b bf i p : io_ready s i p -> havedisk1 s = true -> (forall d x, disk_bad s d x = false) ->
  io_ok (after_rw s b bf i p) i.
Proof.
  intros [Hc Hp Hst Hpg Hh Hq] Hd Hb. split_and!; [|done|done]. exists (done_proc s p).
  pose proof (lookup_lt_Some _ _ _ Hp) as Hlt. split; [|done]. split; cbn; try done.
  apply list_lookup_insert_eq. by rewrite length_fmap.
Qed.

(** Other buffers for the same block. *)
Lemma no_match s l H dev sector : bc_inv s H -> lru s l -> find_first (matches s dev sector) l = None ->
  forall c cf, (c < NBUF)%nat -> bufs s !! c = Some cf -> (dev, sector) <> (b_dev cf, b_sector cf).
Proof.
  intros Hinv Hl Hf c cf Hc Hcf [= -> ->].
  assert (Hin : c ∈ l) by (by apply (lru_lt s)). pose proof (find_first_None _ _ Hf c Hin) as Hm.
  unfold matches in Hm. rewrite (buf_at_eq s c cf Hcf), !Z.eqb_refl in Hm. done.
Qed.

Lemma match_unique s l H dev sector b bf : bc_inv s H -> lru s l -> on_disk dev sector ->
  find_first (matches s dev sector) l = Some b -> bufs s !! b = Some bf ->
  b_dev bf = dev /\ b_sector bf = sector /\ (b < NBUF)%nat /\
  forall c cf, (c < NBUF)%nat -> c <> b -> bufs s !! c = Some cf -> (dev, sector) <> (b_dev cf, b_sector cf).
Proof.
  intros Hinv Hl Hon Hf Hb. destruct (find_first_Some _ _ _ Hf) as [Hin Hm].
  unfold matches in Hm. rewrite (buf_at_eq s b bf Hb) in Hm. propify.
  assert (Hlt : (b < NBUF)%nat) by (by apply (lru_lt s l)). split_and!; try done.
  intros c cf Hc Hne Hcf. subst dev sector. apply (bc_uniq s H Hinv b c); try done.
  destruct Hon as [Hd _]. unfold NODEV. lia.
Qed.

(** What [bread] does with the buffer it got. *)
Lemma bread_tail s H i b bf dev sector (Q : nat -> kernel -> Prop) :
  let s1 := s <| bufs := <[b := bf]> (bufs s) |> in
  bc_inv s H -> io_ok s i -> on_disk dev sector -> (b < NBUF)%nat -> b ∉ owned H ->
  b_dev bf = dev -> b_sector bf = sector -> b_next bf = nx s b -> b_prev bf = pv s b ->
  busy (b_flags bf) = true -> dirty (b_flags bf) = false ->
  (valid (b_flags bf) = true -> b_data bf = disk s dev sector) ->
  (forall c cf, (c < NBUF)%nat -> c <> b -> bufs s !! c = Some cf -> (dev, sector) <> (b_dev cf, b_sector cf)) ->
  (forall s', bc_inv s' ((b, (dev, sector, disk s dev sector)) :: H) -> io_ok s' i -> iofr s s' -> Q b s') ->
  wpe disk_env (let! x := gets (buf_at b) in
                when (negb (has (b_flags x) B_VALID)) (iderw b) ;; ret b) s1 Q.
Proof.
  intros s1 Hinv Hok Hon Hlt Hno <- <- En Ep HB HD HV Hu HQ.
  destruct (Hinv.(bc_lru _ _)) as [l Hl].
  assert (Hlen : (b < length (bufs s))%nat) by (destruct Hl as [-> _]; lia).
  assert (Hb1 : bufs s1 !! b = Some bf) by (cbn; by apply list_lookup_insert_eq).
  apply wpe_gets. rewrite (buf_at_eq s1 b bf Hb1), has_valid. destruct (valid (b_flags bf)) eqn:V; cbn [negb when].
  - apply wpe_bind, wpe_ret, wpe_ret, HQ.
    + rewrite <- HV by done. by apply (bc_take s).
    + destruct Hok as ([p [[] ?]] & ? & ?). split; [|done]. exists p. done.
    + split; [by kext|]. cbn. apply iofr_preorder.
  - destruct Hok as ([p [Hr Hcr]] & Hdk & Hbad). apply wpe_bind. apply (wpe_iderw s1 b bf i p); try done.
    { by destruct Hr. } { by rewrite V. } { by right. }
    apply wpe_ret. set (bf' := done_buf s1 (bf <| b_qnext := None |>)).
    assert (Eb : bf' = bf <| b_qnext := None |> <| b_data := disk s (b_dev bf) (b_sector bf) |>
                         <| b_flags := clear_flag (set_flag (b_flags bf) B_VALID) B_DIRTY |>).
    { unfold bf', done_buf. change (b_flags (bf <| b_qnext := None |>)) with (b_flags bf). rewrite has_dirty, HD.
      change (disk_bad s1) with (disk_bad s). rewrite Hbad. cbn [negb andb]. unfold disk_at.
      change (sel_of (bf <| b_qnext := None |>)) with (sel_of bf). rewrite on_disk_sel by done. done. }
    destruct (done_flags (b_flags bf)) as (V' & D' & B').
    assert (Edk : done_disk s1 bf = disk s) by (unfold done_disk; by rewrite has_dirty, HD).
    apply HQ.
    + replace (b_dev bf, b_sector bf, disk s (b_dev bf) (b_sector bf)) with (b_dev bf', b_sector bf', b_data bf')
        by by rewrite Eb.
      apply (bc_take s); try done.
      1: { cbn. by rewrite list_insert_insert_eq. }
      all: rewrite Eb; cbn; rewrite ?B'; done.
    + apply after_rw_ok; try done. by destruct Hr.
    + pose proof (after_rw_frame s1 b bf i p ltac:(by destruct Hr)) as Hf. rewrite Edk in Hf.
      etransitivity; [|exact Hf]. split; [by kext|]. cbn. apply iofr_preorder.
Qed.

Lemma owned_match s H dev sector b bf : bc_inv s H -> (forall c k, (c, k) ∈ H -> fst k <> (dev, sector)) ->
  bufs s !! b = Some bf -> b_dev bf = dev -> b_sector bf = sector -> b ∉ owned H.
Proof.
  intros Hinv Hno Hb <- <- ([c k] & -> & Hc)%list_elem_of_fmap. cbn in Hb.
  destruct (bc_own s H Hinv c k Hc) as [_ (cf & Hcf & -> & _)]. apply (Hno c _ Hc). cbn. congruence.
Qed.

(** There is a buffer to reuse while the process owns fewer than all. *)
Lemma fresh_exists s l H : bc_inv s H -> lru s l -> (length H < NBUF)%nat ->
  exists b, find_first (free s) (rev l) = Some b /\ b ∉ owned H.
Proof.
  intros Hinv Hl Hlen. destruct (find_first (free s) (rev l)) as [b|] eqn:E.
  - exists b. split; [done|]. destruct (find_first_Some _ _ _ E) as [_ Hf]. intros ([c k] & -> & Hc)%list_elem_of_fmap.
    destruct (bc_own s H Hinv c k Hc) as [_ (cf & Hcf & _ & HB & _)]. cbn in Hf. unfold free in Hf.
    by rewrite (buf_at_eq s c cf Hcf), HB in Hf.
  - exfalso. assert (Hsub : seq 0 NBUF ⊆+ owned H).
    { apply NoDup_submseteq; [apply NoDup_seq|]. intros c Hc%elem_of_seq.
      destruct (decide (c ∈ owned H)) as [|Hn]; [done|]. exfalso.
      pose proof (lru_lookup s l c Hl ltac:(lia)) as Hcf.
      destruct (bc_free s H Hinv c _ ltac:(lia) Hcf Hn) as [HB _].
      assert (Hin : c ∈ rev l). { rewrite list_elem_of_In, <- in_rev, <- list_elem_of_In. apply (lru_lt s l c Hl). lia. }
      pose proof (find_first_None _ _ E c Hin) as Hfr. unfold free in Hfr. by rewrite HB in Hfr. }
    apply submseteq_length in Hsub. unfold owned in Hsub. rewrite length_seq, length_fmap in Hsub. lia.
Qed.

Lemma wpe_bread s H i dev sector (Q : nat -> kernel -> Prop) :
  bc_inv s H -> io_ok s i -> on_disk dev sector -> (length H < NBUF)%nat ->
  (forall c k, (c, k) ∈ H -> fst k <> (dev, sector)) ->
  (forall b s', bc_inv s' ((b, (dev, sector, disk s dev sector)) :: H) -> io_ok s' i -> iofr s s' -> Q b s') ->
  wpe disk_env (bread dev sector) s Q.
Proof.
  intros Hinv Hok Hon Hlen Hno HQ. destruct (Hinv.(bc_lru _ _)) as [l Hl].
  assert (Hh : held s = []) by (destruct Hok as ([p [[] _]] & _); done).
  unfold bread. apply wpe_bind, wp_wpe.
  destruct (find_first (matches s dev sector) l) as [b|] eqn:E.
  - destruct (find_first_Some _ _ _ E) as [Hin _]. pose proof (proj1 (lru_lt s l b Hl) Hin) as Hlt.
    pose proof (lru_lookup s l b Hl ltac:(lia)) as Hb.
    destruct (match_unique s l H dev sector b _ Hinv Hl Hon E Hb) as (Ed & Es & _ & Hu).
    assert (Hnb : b ∉ owned H) by (by eapply owned_match).
    destruct (bc_free s H Hinv b _ Hlt Hb Hnb) as (HB & HD & HV).
    eapply wp_run; [apply (bget_hit s l); try done; unfold free; by rewrite HB|].
    destruct (busy_flags (b_flags (buf_at b s))) as (B' & V' & D').
    apply (bread_tail s H i b _ dev sector); try done; cbn.
    + by rewrite D'.
    + rewrite V'. intros. rewrite <- Ed, <- Es. by apply HV.
    + intros. by apply HQ.
  - destruct (fresh_exists s l H Hinv Hl Hlen) as (b & Ef & Hnb).
    destruct (find_first_Some _ _ _ Ef) as [Hin _].
    assert (Hin' : b ∈ l) by (by apply list_elem_of_In, in_rev, list_elem_of_In).
    pose proof (proj1 (lru_lt s l b Hl) Hin') as Hlt.
    eapply wp_run; [by apply (bget_miss s l)|].
    apply (bread_tail s H i b _ dev sector); try done.
    + intros c cf Hc _. by apply (no_match s l H).
    + intros. by apply HQ.
Qed.

(** *** Changing links *)

(** [s'] is [s] up to the links of the cache's list. *)
Record relinked (s s' : kernel) : Prop := {
  rl_eq : s' = s <| bufs := bufs s' |>;
  rl_len : length (bufs s') = length (bufs s);
  rl_at : forall c, buf_at c s' = (buf_at c s) <| b_next := nx s' c |> <| b_prev := pv s' c |> }.
#[global] Instance relinked_preorder : PreOrder relinked.
Proof.
  split.
  - intros s. split; [by kext|done|]. intros c. unfold nx, pv. by destruct (buf_at c s).
  - intros s1 s2 s3 [E1 L1 A1] [E2 L2 A2]. split; [rewrite E2, E1; by kext|congruence|].
    intros c. rewrite A2, A1. by destruct (buf_at c s1).
Qed.

Lemma buf_at_alter s b g c : (b < length (bufs s))%nat ->
  buf_at c (s <| bufs ::= alter g b |>) = if decide (c = b) then g (buf_at b s) else buf_at c s.
Proof.
  intros Hb. destruct (lookup_lt_is_Some_2 _ _ Hb) as [bf Hbf].
  replace (s <| bufs ::= alter g b |>) with (s <| bufs := <[b := g bf]> (bufs s) |>).
  - rewrite buf_at_insert by done. by rewrite (buf_at_eq s b bf Hbf).
  - kext. cbn. by rewrite (list_alter_lookup g b bf).
Qed.

Lemma set_next_run s b v : (b < length (bufs s))%nat -> exists s', set_next b v s = Ret tt s' /\ relinked s s' /\
  (forall c, nx s' c = fset (nx s) b v c) /\ (forall c, pv s' c = pv s c).
Proof.
  intros Hb. eexists. split; [done|]. unfold nx, pv, fset. split_and!.
  - split; [by kext|by apply length_alter|]. intros c. unfold nx, pv. rewrite buf_at_alter by done.
    destruct (decide (c = b)) as [->|]; [by destruct (buf_at b s)|by destruct (buf_at c s)].
  - intros c. rewrite buf_at_alter by done. by destruct (decide (c = b)).
  - intros c. rewrite buf_at_alter by done. by destruct (decide (c = b)) as [->|].
Qed.

Lemma set_prev_run s b v : (b < length (bufs s))%nat -> exists s', set_prev b v s = Ret tt s' /\ relinked s s' /\
  (forall c, nx s' c = nx s c) /\ (forall c, pv s' c = fset (pv s) b v c).
Proof.
  intros Hb. eexists. split; [done|]. unfold nx, pv, fset. split_and!.
  - split; [by kext|by apply length_alter|]. intros c. unfold nx, pv. rewrite buf_at_alter by done.
    destruct (decide (c = b)) as [->|]; [by destruct (buf_at b s)|by destruct (buf_at c s)].
  - intros c. rewrite buf_at_alter by done. by destruct (decide (c = b)) as [->|].
  - intros c. rewrite buf_at_alter by done. by destruct (decide (c = b)).
Qed.

Lemma lru_unlink_links s l1 b l2 : lru s (l1 ++ b :: l2) -> (nx s b <= NBUF)%nat /\ (pv s b <= NBUF)%nat /\
  nx s b <> b /\ pv s b <> b.
Proof.
  intros Hl. pose proof (lru_lt s _ (nx s b) Hl) as Hn. pose proof (lru_lt s _ (pv s b) Hl) as Hp.
  pose proof (lru_NoDup s _ Hl) as Hnd. pose proof (lru_head s _ Hl) as Hh.
  destruct Hl as (_ & _ & Hd). apply dll_split in Hd as [H1 H2].
  apply NoDup_app in Hnd as (_ & Hx & Hnd2). apply NoDup_cons in Hnd2 as [Hb _].
  pose proof (dll_next_in _ _ _ _ _ H2) as I2. pose proof (dll_prev_in _ _ _ _ _ H1) as I1.
  assert (Hbh : b <> BHEAD) by (intros ->; set_solver).
  split_and!.
  - apply elem_of_app in I2 as [I2|I2%list_elem_of_singleton]; [|by rewrite I2].
    assert (nx s b ∈ l1 ++ b :: l2) by set_solver. assert (nx s b < NBUF)%nat by tauto. lia.
  - apply elem_of_cons in I1 as [I1|I1]; [by rewrite I1|].
    assert (pv s b ∈ l1 ++ b :: l2) by set_solver. assert (pv s b < NBUF)%nat by tauto. lia.
  - intros E. rewrite E in I2. set_solver.
  - intros E. rewrite E in I1. apply elem_of_cons in I1 as [I1|I1]; [done|]. apply (Hx b I1). set_solver.
Qed.

Lemma to_front_run s l1 b l2 : lru s (l1 ++ b :: l2) ->
  exists s', to_front b s = Ret tt s' /\ relinked s s' /\ lru s' (b :: l1 ++ l2).
Proof.
  intros Hl. destruct (lru_unlink_links s l1 b l2 Hl) as (Hn & Hp & Hnb & Hpb).
  pose proof (lru_NoDup s _ Hl) as Hnd. pose proof (lru_head s _ Hl) as Hh.
  assert (Hb : (b < NBUF)%nat) by (apply (lru_lt s _ b Hl); set_solver).
  destruct Hl as (Hlen & Hperm & Hd).
  unfold to_front, bind, get_next, get_prev, gets. cbn [obind].
  change (b_next (buf_at b s)) with (nx s b). change (b_prev (buf_at b s)) with (pv s b).
  destruct (set_prev_run s (nx s b) (pv s b)) as (s1 & -> & R1 & N1 & P1); [lia|]. cbn [obind].
  change (b_next (buf_at b s1)) with (nx s1 b). change (b_prev (buf_at b s1)) with (pv s1 b).
  rewrite N1, P1, fset_ne by done.
  destruct (set_next_run s1 (pv s b) (nx s b)) as (s2 & -> & R2 & N2 & P2); [rewrite (rl_len _ _ R1); lia|]. cbn [obind].
  assert (D2 : dll (nx s2) (pv s2) BHEAD (l1 ++ l2) BHEAD).
  { eapply dll_ext; [| |apply (dll_unlink (nx s) (pv s) BHEAD l1 b l2 BHEAD); done].
    - intros c. rewrite N2. unfold fset. destruct (decide _); [done|apply N1].
    - intros c. rewrite P2. apply P1. }
  assert (L2 : length (bufs s2) = S NBUF) by (rewrite (rl_len _ _ R2), (rl_len _ _ R1); done).
  change (b_next (buf_at BHEAD s2)) with (nx s2 BHEAD). set (h := nx s2 BHEAD).
  assert (Hbh : b <> BHEAD) by (intros ->; set_solver).
  assert (Hin : h ∈ (l1 ++ l2) ++ [BHEAD]) by (by eapply dll_next_in).
  assert (Hhl : (h <= NBUF)%nat).
  { apply elem_of_app in Hin as [Hin|Hin%list_elem_of_singleton]; [|by rewrite Hin].
    assert (Hx : h ∈ seq 0 NBUF) by (rewrite <- Hperm; set_solver). apply elem_of_seq in Hx. lia. }
  destruct (set_next_run s2 b h) as (s3 & -> & R3 & N3 & P3); [lia|]. cbn [obind].
  destruct (set_prev_run s3 b BHEAD) as (s4 & -> & R4 & N4 & P4); [rewrite (rl_len _ _ R3); lia|]. cbn [obind].
  change (b_next (buf_at BHEAD s4)) with (nx s4 BHEAD). rewrite N4, N3, fset_ne by done. fold h.
  destruct (set_prev_run s4 h b) as (s5 & -> & R5 & N5 & P5); [rewrite (rl_len _ _ R4), (rl_len _ _ R3); lia|]. cbn [obind].
  destruct (set_next_run s5 BHEAD b) as (s6 & -> & R6 & N6 & P6).
  { rewrite (rl_len _ _ R5), (rl_len _ _ R4), (rl_len _ _ R3), L2. unfold BHEAD. lia. }
  assert (R : relinked s s6) by (etransitivity; [exact R1|]; etransitivity; [exact R2|]; etransitivity; [exact R3|];
    etransitivity; [exact R4|]; etransitivity; [exact R5|]; exact R6).
  exists s6. split; [done|]. split; [done|]. split_and!.
  - by rewrite (rl_len _ _ R).
  - rewrite <- Hperm. apply Permutation_middle.
  - assert (Hnd' : NoDup (b :: l1 ++ l2)) by (by rewrite Permutation_middle).
    apply NoDup_cons in Hnd' as [Hb12 Hnd'].
    eapply dll_ext; [| |apply (dll_push (nx s2) (pv s2) BHEAD (l1 ++ l2) BHEAD b); try done; set_solver].
    + intros c. rewrite N6. unfold fset. destruct (decide _); [done|]. rewrite N5, N4, N3. done.
    + intros c. rewrite P6, P5. unfold fset. destruct (decide _); [done|]. rewrite P4. unfold fset.
      destruct (decide _); [done|]. by rewrite P3.
Qed.

Lemma bc_give s s' H b dev sector l : bc_inv s ((b, (dev, sector, disk s dev sector)) :: H) ->
  lru s' l -> disk s' = disk s ->
  (forall c, (c < NBUF)%nat -> exists n p, buf_at c s' =
     (if decide (c = b) then (buf_at c s) <| b_flags ::= fun f => clear_flag f B_BUSY |> else buf_at c s)
       <| b_next := n |> <| b_prev := p |>) ->
  bc_inv s' H.
Proof.
  intros [[l0 Hl0] Hnd Hown Hfr Hrg Huq] Hl' Ed Hat. apply NoDup_cons in Hnd as [Hno Hnd].
  assert (Hk : forall c, (c < NBUF)%nat -> bufs s !! c = Some (buf_at c s)) by (intros; apply (lru_lookup s l0); [done|lia]).
  assert (Hk' : forall c, (c < NBUF)%nat -> bufs s' !! c = Some (buf_at c s')) by (intros; apply (lru_lookup s' l); [done|lia]).
  assert (Hsame : forall c, (c < NBUF)%nat -> b_dev (buf_at c s') = b_dev (buf_at c s) /\
    b_sector (buf_at c s') = b_sector (buf_at c s) /\ b_data (buf_at c s') = b_data (buf_at c s) /\
    valid (b_flags (buf_at c s')) = valid (b_flags (buf_at c s)) /\ dirty (b_flags (buf_at c s')) = dirty (b_flags (buf_at c s)) /\
    busy (b_flags (buf_at c s')) = if decide (c = b) then false else busy (b_flags (buf_at c s))).
  { intros c Hc. destruct (Hat c Hc) as (n & p & ->). destruct (free_flags (b_flags (buf_at c s))) as (F1 & F2 & F3).
    destruct (decide (c = b)); cbn; rewrite ?F1, ?F2, ?F3; done. }
  assert (Hget : forall c cf, (c < NBUF)%nat -> bufs s' !! c = Some cf -> cf = buf_at c s') by (intros c cf Hc; rewrite Hk' by done; congruence).
  split; [by exists l|done|..].
  - intros c k Hc. destruct (Hown c k ltac:(set_solver)) as [Hlt (cf & Hcf & -> & B & V & D)].
    assert (c <> b). { intros ->. apply Hno. apply list_elem_of_fmap. eexists (_, _). by split; [|exact Hc]. }
    rewrite Hk in Hcf by done. injection Hcf as <-. destruct (Hsame c Hlt) as (E1 & E2 & E3 & E4 & E5 & E6).
    rewrite decide_False in E6 by done. split; [done|]. exists (buf_at c s'). rewrite Hk', E1, E2, E3, E4, E5, E6 by done. done.
  - intros c cf Hlt ->%Hget Hn; [|done]. destruct (Hsame c Hlt) as (E1 & E2 & E3 & E4 & E5 & E6).
    rewrite E1, E2, E3, E4, E5, E6, Ed. destruct (decide (c = b)) as [->|Hne].
    + destruct (Hown b _ ltac:(by left)) as [_ (bf & Hbf & Ek & B & V & D)]. rewrite Hk in Hbf by done. injection Hbf as <-.
      injection Ek as <- <- E. done.
    + apply (Hfr c); try done; [by apply Hk|]. apply not_elem_of_cons. done.
  - intros c cf Hlt ->%Hget; [|done]. destruct (Hsame c Hlt) as (E1 & E2 & _ & E4 & _ & _). rewrite E1, E2, E4.
    destruct (Hrg c _ Hlt (Hk c Hlt)) as [|(? & Hc & ?)]; [by left|]. apply not_elem_of_cons in Hc as [_ Hc]. by right.
  - intros c d cf df Hc Hd ->%Hget ->%Hget; [|done|done].
    destruct (Hsame c Hc) as (E1 & E2 & _). destruct (Hsame d Hd) as (F1 & F2 & _). rewrite E1, E2, F1, F2.
    apply Huq; auto.
Qed.

(** The state after [brelse]. *)
Definition released (s1 : kernel) (b : nat) : kernel :=
  s1 <| bufs := <[b := (buf_at b s1) <| b_flags ::= fun f => clear_flag f B_BUSY |>]> (bufs s1) |>
     <| ptable := wake_proc (Some (ChBuf b)) <$> ptable s1 |>.

Lemma brelse_run s l1 b l2 : lru s (l1 ++ b :: l2) -> held s = [] -> busy (b_flags (buf_at b s)) = true ->
  exists s1, relinked s s1 /\ lru s1 (b :: l1 ++ l2) /\ brelse b s = Ret tt (released s1 b).
Proof.
  intros Hl Hh B. assert (Hlt : (b < NBUF)%nat) by (apply (lru_lt s _ b Hl); set_solver).
  destruct (to_front_run (s <| held ::= cons LBcache |>) l1 b l2) as (s1 & E1 & R1 & L1); [exact Hl|].
  exists (s1 <| held := [] |>). split_and!.
  - destruct R1 as [E L A]. split; [|done|exact A]. rewrite E. kext; cbn; done.
  - exact L1.
  - unfold brelse, bind, gets. cbn [obind]. rewrite has_busy, B. cbn [negb].
    rewrite acquire_run by (rewrite Hh; set_solver). cbn [obind]. rewrite E1. cbn [obind].
    assert (Hb1 : bufs s1 !! b = Some (buf_at b s1)) by (apply (lru_lookup s1 _ _ L1); lia).
    rewrite (upd_buf_eq s1 b (buf_at b s1)) by done. cbn [obind].
    assert (Hh1 : held s1 = [LBcache]) by (rewrite (rl_eq _ _ R1); cbn; by rewrite Hh).
    rewrite wakeup_run by (cbn; rewrite Hh1; set_solver). cbn [obind].
    rewrite (release_run _ []) by (cbn; done). done.
Qed.

Lemma released_at s1 b c : (b < length (bufs s1))%nat -> buf_at c (released s1 b) =
  if decide (c = b) then (buf_at b s1) <| b_flags ::= fun f => clear_flag f B_BUSY |> else buf_at c s1.
Proof.
  intros Hb. unfold released.
  rewrite <- (buf_at_insert s1 b ((buf_at b s1) <| b_flags ::= fun f => clear_flag f B_BUSY |>) c Hb). done.
Qed.

Lemma released_lru s1 b l : (b < length (bufs s1))%nat -> lru s1 l -> lru (released s1 b) l.
Proof.
  intros Hb. apply lru_same; [apply length_insert|..]; intros c; unfold nx, pv; rewrite released_at by done;
    by destruct (decide (c = b)) as [->|].
Qed.

(** Releasing a buffer whose contents the disk has. *)
Lemma wp_brelse s H i b dev sector (Q : unit -> kernel -> Prop) :
  bc_inv s ((b, (dev, sector, disk s dev sector)) :: H) -> io_ok s i ->
  (forall s', bc_inv s' H -> io_ok s' i -> iofr s s' -> Q tt s') -> wp (brelse b) s Q.
Proof.
  intros Hinv Hok HQ. destruct (Hinv.(bc_lru _ _)) as [l Hl].
  destruct (bc_own _ _ Hinv b _ ltac:(by left)) as [Hlt (bf & Hbf & _ & B & _)].
  destruct (list_elem_of_split l b) as (l1 & l2 & ->); [by apply (lru_lt s l b Hl)|].
  destruct Hok as ([p [[Hc Hp Hst Hpg Hh Hq] Hcr]] & Hdk & Hbad).
  destruct (brelse_run s l1 b l2) as (s1 & R1 & L1 & E1); [done|done|by rewrite (buf_at_eq s b bf Hbf)|].
  assert (Hlen1 : length (bufs s1) = S NBUF) by apply L1.
  assert (Epr : ptable s1 = ptable s /\ curproc s1 = curproc s /\ idequeue s1 = idequeue s /\ cr3 s1 = cr3 s /\
    held s1 = held s /\ havedisk1 s1 = havedisk1 s /\ disk_bad s1 = disk_bad s /\ disk s1 = disk s)
    by (rewrite (rl_eq _ _ R1); done).
  destruct Epr as (E2 & E3 & E4 & E5 & E6 & E7 & E8 & E9).
  eapply wp_run; [exact E1|]. apply HQ.
  - apply (bc_give s _ H b dev sector (b :: l1 ++ l2)); [done|apply released_lru; [lia|done]|done|].
    intros c Hc'. exists (nx s1 c), (pv s1 c). rewrite released_at by lia.
    destruct (decide (c = b)) as [->|]; rewrite (rl_at _ _ R1) at 1; done.
  - split; [|cbn; by rewrite E7, E8]. exists p. split; [|cbn; by rewrite E5].
    assert (Ew : wake_proc (Some (ChBuf b)) p = p) by (unfold wake_proc; by rewrite bool_decide_eq_false_2 by congruence).
    split; cbn; rewrite ?E2, ?E3, ?E4, ?E6; try done. rewrite list_lookup_fmap, Hp. cbn. by rewrite Ew.
  - split; [|cbn; rewrite E2; apply psim_fmap_wake].
    unfold released. rewrite (rl_eq _ _ R1). by kext.
Qed.

Lemma bc_inv_perm s H H' : H ≡ₚ H' -> bc_inv s H -> bc_inv s H'.
Proof.
  intros HP [H1 H2 H3 H4 H5 H6]. assert (HP' : owned H ≡ₚ owned H') by (unfold owned; by rewrite HP).
  split; try done.
  - by rewrite <- HP'.
  - intros b k. rewrite <- HP. apply H3.
  - intros b bf Hb Hbf. rewrite <- HP'. by apply H4.
  - intros b bf Hb Hbf. rewrite <- HP'. by apply H5.
Qed.

(** The owner may change the contents of its buffer, and the disk's copy of it. *)
Lemma bc_change s s' H b bf dev sector data data' : bc_inv s ((b, (dev, sector, data)) :: H) ->
  bufs s' = <[b := bf]> (bufs s) -> b_next bf = nx s b -> b_prev bf = pv s b ->
  b_dev bf = dev -> b_sector bf = sector -> b_data bf = data' ->
  busy (b_flags bf) = true -> valid (b_flags bf) = true -> dirty (b_flags bf) = false ->
  (forall d x, (d, x) <> (dev, sector) -> disk s' d x = disk s d x) ->
  bc_inv s' ((b, (dev, sector, data')) :: H).
Proof.
  intros [[l Hl] Hnd Hown Hfr Hrg Huq] Eb En Ep <- <- <- HB HV HD Hdk.
  destruct (Hown b _ ltac:(by left)) as [Hlt (bf0 & Hbf0 & [= Ed0 Es0 _] & _)].
  assert (Hlen : (b < length (bufs s))%nat) by (destruct Hl as [-> _]; lia).
  assert (Hon : on_disk (b_dev bf) (b_sector bf)).
  { rewrite Ed0, Es0. destruct (Hrg b bf0 Hlt Hbf0) as [|(_ & Hn & _)]; [done|]. apply not_elem_of_cons in Hn as [Hn _]. done. }
  assert (Hat : forall c, buf_at c s' = if decide (c = b) then bf else buf_at c s).
  { intros c. unfold buf_at. rewrite Eb. apply (buf_at_insert s b bf c Hlen). }
  assert (Hother : forall c cf, bufs s' !! c = Some cf -> c <> b -> bufs s !! c = Some cf).
  { intros c cf. rewrite Eb. intros Hcf Hne. by rewrite list_lookup_insert_ne in Hcf. }
  assert (Hself : forall cf, bufs s' !! b = Some cf -> cf = bf).
  { intros cf. rewrite Eb, list_lookup_insert_eq by done. congruence. }
  split.
  - exists l. apply (lru_same s); [by rewrite Eb, length_insert| | |done]; intros c; unfold nx, pv; rewrite Hat;
      by destruct (decide (c = b)) as [->|].
  - done.
  - apply NoDup_cons in Hnd as [Hno _]. intros c k [[= -> ->]|Hc]%elem_of_cons.
    + split; [done|]. exists bf. rewrite Eb, list_lookup_insert_eq by done. done.
    + destruct (Hown c k ltac:(by right)) as [Hc1 (cf & Hcf & Hk)]. split; [done|]. exists cf.
      rewrite Eb, list_lookup_insert_ne; [done|]. intros ->. apply Hno. apply list_elem_of_fmap. by exists (c, k).
  - intros c cf Hc Hcf Hn. assert (Hne : c <> b) by (intros ->; apply Hn; by left).
    apply Hother in Hcf; [|done]. destruct (Hfr c cf Hc Hcf Hn) as (F1 & F2 & F3). split_and!; try done.
    intros V. rewrite Hdk; [by apply F3|]. rewrite Ed0, Es0. intros E.
    apply (Huq b c bf0 cf); try done. rewrite <- Ed0. destruct Hon as [Hd _]. unfold NODEV. lia.
  - intros c cf Hc Hcf. destruct (decide (c = b)) as [->|Hne]; [apply Hself in Hcf as ->; by left|].
    apply Hother in Hcf; [|done]. by apply Hrg.
  - intros c d cf df Hc Hd Hcf Hdf Hne Hdev. destruct (decide (c = b)) as [->|Hcb].
    + apply Hself in Hcf as ->. apply Hother in Hdf; [|done]. rewrite Ed0, Es0. apply (Huq b d); try done. by rewrite <- Ed0.
    + apply Hother in Hcf; [|done]. destruct (decide (d = b)) as [->|Hdb].
      * apply Hself in Hdf as ->. rewrite Ed0, Es0. by apply (Huq c b).
      * apply Hother in Hdf; [|done]. by apply (Huq c d).
Qed.

Lemma bc_set_data s H b dev sector l l' : bc_inv s ((b, (dev, sector, l)) :: H) ->
  bc_inv (s <| bufs ::= alter (fun x => x <| b_data := l' |>) b |>) ((b, (dev, sector, l')) :: H).
Proof.
  intros Hinv. destruct (bc_own _ _ Hinv b _ ltac:(by left)) as [Hlt (bf & Hbf & [= -> -> ->] & B & V & D)].
  apply (bc_change s _ H b (bf <| b_data := l' |>) _ _ (b_data bf) l'); try done.
  - cbn. by rewrite (list_alter_lookup _ b bf).
  - cbn. unfold nx. by rewrite (buf_at_eq s b bf).
  - cbn. unfold pv. by rewrite (buf_at_eq s b bf).
Qed.

Lemma wpe_bwrite s H i b dev sector l (Q : unit -> kernel -> Prop) :
  bc_inv s ((b, (dev, sector, l)) :: H) -> io_ok s i ->
  (forall s', bc_inv s' ((b, (dev, sector, l)) :: H) -> io_ok s' i ->
     iofr (s <| disk := disk_put (disk s) (dev, sector) l |>) s' -> Q tt s') ->
  wpe disk_env (bwrite b) s Q.
Proof.
  intros Hinv Hok HQ. destruct (bc_own _ _ Hinv b _ ltac:(by left)) as [Hlt (bf & Hbf & [= -> -> ->] & B & V & D)].
  assert (Hon : on_disk (b_dev bf) (b_sector bf)).
  { destruct (bc_range _ _ Hinv b bf Hlt Hbf) as [|(_ & Hn & _)]; [done|]. apply not_elem_of_cons in Hn as [Hn _]. done. }
  destruct Hok as ([p [Hr Hcr]] & Hdk & Hbad). unfold bwrite. apply wpe_gets.
  rewrite (buf_at_eq s b bf Hbf), has_busy, B. cbn [negb].
  apply wpe_bind, wp_wpe. eapply wp_run; [by apply (upd_buf_eq s b bf)|].
  set (bf1 := bf <| b_flags ::= fun f => set_flag f B_DIRTY |>). set (s1 := s <| bufs := <[b := bf1]> (bufs s) |>).
  destruct (dirty_flags (b_flags bf)) as (B1 & V1 & D1). destruct (done_flags (b_flags bf1)) as (V2 & D2 & B2).
  pose proof (lookup_lt_Some _ _ _ Hbf) as Hlen.
  apply (wpe_iderw s1 b bf1 i p); try done.
  { by destruct Hr. } { cbn. by apply list_lookup_insert_eq. } { cbn. by rewrite B1. }
  { cbn. by rewrite V1, D1, andb_false_r. } { by right. }
  assert (Eb : done_buf s1 (bf1 <| b_qnext := None |>) =
    bf1 <| b_qnext := None |> <| b_flags := clear_flag (set_flag (b_flags bf1) B_VALID) B_DIRTY |>).
  { unfold done_buf. change (b_flags (bf1 <| b_qnext := None |>)) with (b_flags bf1). rewrite has_dirty. cbn. by rewrite D1. }
  assert (Edk : done_disk s1 bf1 = disk_put (disk s) (b_dev bf, b_sector bf) (b_data bf)).
  { unfold done_disk. rewrite has_dirty. cbn [b_flags bf1 update]. rewrite D1. change (sel_of bf1) with (sel_of bf).
    by rewrite on_disk_sel. }
  apply HQ.
  - apply (bc_change s _ H b (done_buf s1 (bf1 <| b_qnext := None |>)) _ _ (b_data bf)); try done; try (by rewrite Eb).
    + cbn. by rewrite list_insert_insert_eq.
    + rewrite Eb. unfold nx. by rewrite (buf_at_eq s b bf).
    + rewrite Eb. unfold pv. by rewrite (buf_at_eq s b bf).
    + rewrite Eb. exact (eq_trans B2 (eq_trans B1 B)).
    + cbn. rewrite Edk. intros d x Hne. unfold disk_put. cbn.
      destruct (Z.eqb_spec d (b_dev bf)), (Z.eqb_spec x (b_sector bf)); cbn; try done. congruence.
  - apply after_rw_ok; try done. by destruct Hr.
  - pose proof (after_rw_frame s1 b bf1 i p ltac:(by destruct Hr)) as Hf. rewrite Edk in Hf.
    etransitivity; [|exact Hf]. split; [by kext|]. cbn. apply iofr_preorder.
Qed.

(** ** Initialisation *)

Lemma upd_dev_run s b : (b < length (bufs s))%nat ->
  exists s', upd_buf b (fun x => x <| b_dev := NODEV |>) s = Ret tt s' /\ s' = s <| bufs := bufs s' |> /\
    length (bufs s') = length (bufs s) /\ (forall c, nx s' c = nx s c) /\ (forall c, pv s' c = pv s c) /\
    forall c, b_flags (buf_at c s') = b_flags (buf_at c s) /\
      b_dev (buf_at c s') = if decide (c = b) then NODEV else b_dev (buf_at c s).
Proof.
  intros Hb. eexists. split; [done|]. unfold nx, pv. split_and!; [by kext|apply length_alter|..];
    intros c; rewrite buf_at_alter by done; by destruct (decide (c = b)) as [->|].
Qed.

(** What [binit] leaves of each buffer: its flags, and no device. *)
Record fresh_bufs (s s' : kernel) (l : list nat) : Prop := {
  fb_eq : s' = s <| bufs := bufs s' |>;
  fb_len : length (bufs s') = length (bufs s);
  fb_at : forall c, b_flags (buf_at c s') = b_flags (buf_at c s) /\
    b_dev (buf_at c s') = if decide (c ∈ l) then NODEV else b_dev (buf_at c s) }.

Lemma relinked_fresh s s' : relinked s s' -> fresh_bufs s s' [].
Proof.
  intros [E L A]. split; [done|done|]. intros c. rewrite A, decide_False by set_solver. done.
Qed.
Lemma fresh_bufs_trans s1 s2 s3 l l' : fresh_bufs s1 s2 l -> fresh_bufs s2 s3 l' -> fresh_bufs s1 s3 (l ++ l').
Proof.
  intros [E1 L1 A1] [E2 L2 A2]. split; [rewrite E2, E1; by kext|congruence|]. intros c.
  destruct (A1 c) as [F1 D1], (A2 c) as [F2 D2]. rewrite F2, D2, F1, D1. split; [done|].
  destruct (decide (c ∈ l')), (decide (c ∈ l)), (decide (c ∈ l ++ l')); set_solver.
Qed.

Lemma binit_step s b m : length (bufs s) = S NBUF -> (b < NBUF)%nat -> b ∉ m -> NoDup m -> BHEAD ∉ m ->
  (forall c, c ∈ m -> (c < NBUF)%nat) -> dll (nx s) (pv s) BHEAD m BHEAD ->
  exists s', (forall (k : M kernel unit),
    (let! n := get_next BHEAD in set_next b n ;; set_prev b BHEAD ;; upd_buf b (fun x => x <| b_dev := NODEV |>) ;;
     let! n := get_next BHEAD in set_prev n b ;; set_next BHEAD b ;; k) s = k s') /\
    fresh_bufs s s' [b] /\ dll (nx s') (pv s') BHEAD (b :: m) BHEAD.
Proof.
  intros Hlen Hb Hm Hnd Hh Hlt Hd. set (h := nx s BHEAD).
  assert (Hbh : b <> BHEAD) by (unfold BHEAD; lia).
  assert (Hhl : (h <= NBUF)%nat).
  { pose proof (dll_next_in _ _ _ _ _ Hd) as Hin. apply elem_of_app in Hin as [Hin%Hlt|Hin%list_elem_of_singleton];
      fold h in Hin; [lia|by rewrite Hin]. }
  destruct (set_next_run s b h) as (s1 & E1 & R1 & N1 & P1); [lia|]. pose proof (rl_len _ _ R1) as L1.
  destruct (set_prev_run s1 b BHEAD) as (s2 & E2 & R2 & N2 & P2); [lia|]. pose proof (rl_len _ _ R2) as L2.
  destruct (upd_dev_run s2 b) as (s3 & E3 & F3 & L3 & N3 & P3 & A3); [lia|].
  assert (Eh : nx s3 BHEAD = h) by (rewrite N3, N2, N1, fset_ne by done; done).
  destruct (set_prev_run s3 h b) as (s4 & E4 & R4 & N4 & P4); [lia|]. pose proof (rl_len _ _ R4) as L4.
  destruct (set_next_run s4 BHEAD b) as (s5 & E5 & R5 & N5 & P5); [unfold BHEAD; lia|].
  exists s5. split_and!.
  - intros k. unfold bind, get_next, gets. cbn [obind]. change (b_next (buf_at BHEAD s)) with h.
    rewrite E1. cbn [obind]. rewrite E2. cbn [obind]. rewrite E3. cbn [obind].
    change (b_next (buf_at BHEAD s3)) with (nx s3 BHEAD). rewrite Eh, E4. cbn [obind]. rewrite E5. done.
  - assert (F23 : fresh_bufs s2 s3 [b]).
    { split; [done|done|]. intros c. destruct (A3 c) as [-> ->]. split; [done|].
      destruct (decide (c = b)), (decide (c ∈ [b])); set_solver. }
    change [b] with (([] ++ [] ++ [b] ++ []) ++ []).
    eapply fresh_bufs_trans; [|by apply relinked_fresh]. eapply fresh_bufs_trans; [by apply relinked_fresh|].
    eapply fresh_bufs_trans; [by apply relinked_fresh|]. eapply fresh_bufs_trans; [exact F23|by apply relinked_fresh].
  - eapply dll_ext; [| |apply (dll_push (nx s) (pv s) BHEAD m BHEAD b); done].
    + intros c. rewrite N5. unfold fset. destruct (decide _); [done|]. rewrite N4, N3, N2, N1. done.
    + intros c. rewrite P5, P4. unfold fset. fold h. destruct (decide _); [done|]. rewrite P3, P2. unfold fset.
      destruct (decide _); [done|]. by rewrite P1.
Qed.

Lemma binit_loop_run l : forall s m, length (bufs s) = S NBUF -> NoDup (l ++ m) ->
  (forall c, c ∈ l ++ m -> (c < NBUF)%nat) -> dll (nx s) (pv s) BHEAD m BHEAD ->
  exists s', binit_loop l s = Ret tt s' /\ fresh_bufs s s' l /\ dll (nx s') (pv s') BHEAD (rev l ++ m) BHEAD.
Proof.
  induction l as [|b l IH]; intros s m Hlen Hnd Hlt Hd.
  - exists s. split_and!; [done|apply relinked_fresh; reflexivity|done].
  - cbn in Hnd. apply NoDup_cons in Hnd as [Hb Hnd]. pose proof Hnd as (_ & _ & Hm)%NoDup_app.
    destruct (binit_step s b m) as (s1 & E1 & F1 & D1); try done; try set_solver.
    { intros Hh. specialize (Hlt BHEAD ltac:(set_solver)). unfold BHEAD in Hlt. lia. }
    destruct (IH s1 (b :: m)) as (s2 & E2 & F2 & D2); try done.
    + by rewrite (fb_len _ _ _ F1).
    + rewrite <- Permutation_middle. by constructor.
    + intros c Hc. apply Hlt. set_solver.
    + exists s2. cbn [binit_loop]. rewrite E1. split_and!; [done| |].
      * change (b :: l) with ([b] ++ l). by eapply fresh_bufs_trans.
      * cbn [rev]. by rewrite <- app_assoc.
Qed.

Lemma binit_run s : length (bufs s) = S NBUF -> (forall c, (c < NBUF)%nat -> b_flags (buf_at c s) = 0) ->
  exists s', binit s = Ret tt s' /\ s' = s <| bufs := bufs s' |> /\ lru s' (rev (seq 0 NBUF)) /\ bc_inv s' [].
Proof.
  intros Hlen Hfl. unfold binit, bind.
  destruct (set_prev_run s BHEAD BHEAD) as (s1 & -> & R1 & N1 & P1); [unfold BHEAD; lia|]. cbn [obind].
  destruct (set_next_run s1 BHEAD BHEAD) as (s2 & -> & R2 & N2 & P2); [rewrite (rl_len _ _ R1); unfold BHEAD; lia|]. cbn [obind].
  destruct (binit_loop_run (seq 0 NBUF) s2 []) as (s3 & -> & F3 & D3).
  { by rewrite (rl_len _ _ R2), (rl_len _ _ R1). } { rewrite app_nil_r. apply NoDup_seq. }
  { intros c. rewrite app_nil_r, elem_of_seq. lia. }
  { cbn. rewrite N2, fset_eq, P2, P1, fset_eq. done. }
  assert (F : fresh_bufs s s3 (seq 0 NBUF)).
  { change (seq 0 NBUF) with (([] ++ []) ++ seq 0 NBUF).
    eapply fresh_bufs_trans; [eapply fresh_bufs_trans; by apply relinked_fresh|done]. }
  assert (Hl : lru s3 (rev (seq 0 NBUF))).
  { split_and!; [by rewrite (fb_len _ _ _ F)|symmetry; apply Permutation_rev|by rewrite app_nil_r in D3]. }
  exists s3. split_and!; [done|by apply F|done|].
  assert (Hat : forall c cf, (c < NBUF)%nat -> bufs s3 !! c = Some cf -> b_flags cf = 0 /\ b_dev cf = NODEV).
  { intros c cf Hc Hcf. destruct (fb_at _ _ _ F c) as [F1 F2]. rewrite (buf_at_eq s3 c cf Hcf) in F1, F2.
    rewrite F1, F2, decide_True by (apply elem_of_seq; lia). split; [by apply Hfl|done]. }
  split; [by eexists|constructor|set_solver|..].
  - intros b bf Hb [-> _]%Hat _; done.
  - intros b bf Hb [-> ->]%Hat; [|done]. right. split_and!; [done|cbn; set_solver|done].
  - intros b c bf cf Hb _ [_ ->]%Hat; done.
Qed.

(** [binit] on the zeroed buffers of the boot image links all of them into the list
    and leaves an empty cache: no buffer is owned, none is valid. *)
Theorem binit_correct (s : kernel) :
  length (bufs s) = S NBUF -> (forall c, (c < NBUF)%nat -> b_flags (buf_at c s) = 0) ->
  exists s', binit s = Ret tt s' /\ s' = s <| bufs := bufs s' |> /\ lru s' (rev (seq 0 NBUF)) /\ bc_inv s' [].
Proof. apply binit_run. Qed.

(** C26. [bread] returns an owned buffer with the contents of the block on disk: whether
    the block was cached or not, the process gets a buffer it does not own yet, which
    holds exactly the disk's contents; the disk, and the buffers the process owns
    already, are as before. *)
Theorem bread_correct (s : kernel) (H : list (nat * block)) (i : nat) (dev sector : Z) :
  bc_inv s H -> io_ok s i -> on_disk dev sector -> (length H < NBUF)%nat ->
  (forall c k, (c, k) ∈ H -> fst k <> (dev, sector)) ->
  wpe disk_env (bread dev sector) s (fun b s' =>
    bc_inv s' ((b, (dev, sector, disk s dev sector)) :: H) /\ iofr s s' /\ io_ok s' i).
Proof. intros. by apply (wpe_bread s H i). Qed.

(** Writing a block and reading it back, the way the file system does. *)
Definition write_read (dev sector : Z) (l : list Z) : M kernel (list Z) :=
  let! b := bread dev sector in
  upd_buf b (fun x => x <| b_data := l |>) ;;
  bwrite b ;;
  brelse b ;;
  let! b := bread dev sector in
  let! bf := gets (buf_at b) in
  brelse b ;;
  ret (b_data bf).

Lemma iofr_disk s s' : iofr s s' -> disk s' = disk s.
Proof. intros [E _]. by rewrite E. Qed.

Lemma io_ok_disk s i d : io_ok s i -> io_ok (s <| disk := d |>) i.
Proof. intros ([p [[] ?]] & ? & ?). split; [exists p; done|done]. Qed.

Lemma disk_put_eq dk sel l : disk_put dk sel l (fst sel) (snd sel) = l.
Proof. unfold disk_put. by rewrite !Z.eqb_refl. Qed.

Lemma io_ok_data s i b g : io_ok s i -> io_ok (s <| bufs ::= alter g b |>) i.
Proof. intros ([p [[] ?]] & ? & ?). split; [exists p; done|done]. Qed.

(** A block written through the cache is on the disk when [bwrite] returns and is
    what the next [bread] returns; no other block of the disk changes and every buffer
    is free again. *)
Theorem block_write_read (s : kernel) (H : list (nat * block)) (i : nat) (dev sector : Z) (l : list Z) :
  bc_inv s H -> io_ok s i -> on_disk dev sector -> (length H < NBUF)%nat ->
  (forall c k, (c, k) ∈ H -> fst k <> (dev, sector)) ->
  wpe disk_env (write_read dev sector l) s (fun r s' =>
    r = l /\ disk s' = disk_put (disk s) (dev, sector) l /\ bc_inv s' H).
Proof.
  intros Hinv Hok Hon Hlen Hno. unfold write_read.
  apply wpe_bind. apply (wpe_bread s H i); try done. intros b s1 I1 O1 F1.
  apply wpe_modify. apply wpe_bind. eapply wpe_bwrite.
  { eapply bc_set_data. exact I1. } { by apply io_ok_data. }
  intros s2 I2 O2 F2. pose proof (iofr_disk _ _ F2) as D2. cbn in D2. rewrite (iofr_disk _ _ F1) in D2.
  apply wpe_bind, wp_wpe.
  assert (E2 : disk s2 dev sector = l) by (rewrite D2; apply (disk_put_eq _ (dev, sector))).
  eapply wp_brelse; [by rewrite E2|exact O2|]. intros s3 I3 O3 F3.
  assert (D3 : disk s3 = disk s2) by by apply iofr_disk.
  apply wpe_bind. apply (wpe_bread s3 H i); try done. intros b' s4 I4 O4 F4. apply wpe_gets.
  destruct (bc_own _ _ I4 b' _ ltac:(by left)) as [_ (bf & Hbf & Ek & _)].
  apply wpe_bind, wp_wpe. eapply (wp_brelse _ H i b' dev sector).
  { rewrite (iofr_disk _ _ F4). exact I4. } { done. }
  intros s5 I5 _ F5. apply wpe_ret. rewrite (buf_at_eq s4 b' bf Hbf). injection Ek as _ _ <-.
  rewrite (iofr_disk _ _ F5), (iofr_disk _ _ F4), D3, E2. done.
Qed.

(** C27. The list is kept in order of use: [brelse] moves its buffer to the front, and
    [bget] of a block that is not cached takes the last buffer of the list that is not
    in use, and panics only if all are in use. *)
Theorem cache_lru (s : kernel) (l : list nat) (dev sector : Z) (l1 l2 : list nat) (b : nat) :
  lru s l -> held s = [] ->
  (l = l1 ++ b :: l2 -> busy (b_flags (buf_at b s)) = true ->
     wp (brelse b) s (fun _ s' => lru s' (b :: l1 ++ l2) /\ busy (b_flags (buf_at b s')) = false)) /\
  (find_first (matches s dev sector) l = None ->
     match find_first (free s) (rev l) with
     | Some c => exists s', bget dev sector s = Ret c s' /\ lru s' l
     | None => bget dev sector s = Panic "bget: no buffers"
     end).
Proof.
  intros Hl Hh. split.
  - intros -> B. assert (Hlt : (b < NBUF)%nat) by (apply (lru_lt s _ b Hl); set_solver).
    destruct (brelse_run s l1 b l2 Hl Hh B) as (s1 & R1 & L1 & E1). eapply wp_run; [exact E1|].
    assert (Hlen : (b < length (bufs s1))%nat) by (destruct L1 as [-> _]; lia).
    split; [by apply released_lru|]. rewrite released_at, decide_True by done. cbn. apply free_flags.
  - intros Hf. destruct (find_first (free s) (rev l)) as [c|] eqn:E.
    + eexists. split; [by apply (bget_miss s l)|].
      destruct (find_first_Some _ _ _ E) as [Hin _]. rewrite list_elem_of_In, <- in_rev, <- list_elem_of_In in Hin.
      pose proof (proj1 (lru_lt s l c Hl) Hin) as Hlt. assert (Hlen : (c < length (bufs s))%nat) by (destruct Hl as [-> _]; lia).
      apply (lru_same s); [apply length_insert| | |done]; intros x; unfold nx, pv; rewrite buf_at_insert by done;
        by destruct (decide (x = c)) as [->|].
    + by apply (bget_full s l).
Qed.

(** ** Examples *)

(** The kernel of [kernel_ide] with an initialised cache; the process may read and write
    block 7 of drive 1. *)
Definition kernel_ide0 : kernel := kernel_ide <| bufs := replicate (S NBUF) buf0 |> <| cr3 := 4096 |>.
Definition kernel_bio : kernel := match binit kernel_ide0 with Ret _ s => s | _ => kernel0 end.

Lemma kernel_ide0_free c : (c < NBUF)%nat -> b_flags (buf_at c kernel_ide0) = 0.
Proof. intros Hc. unfold buf_at. cbn [kernel_ide0 bufs update]. rewrite lookup_replicate_2 by (unfold NBUF in *; lia). done. Qed.
Lemma kernel_bio_inv : bc_inv kernel_bio [] /\ lru kernel_bio (rev (seq 0 NBUF)).
Proof.
  destruct (binit_run kernel_ide0 eq_refl kernel_ide0_free) as (s' & E & _ & H1 & H2).
  unfold kernel_bio. rewrite E. split; assumption.
Qed.
Lemma kernel_bio_ok : io_ok kernel_bio 0.
Proof.
  destruct (binit_run kernel_ide0 eq_refl kernel_ide0_free) as (s' & E & E' & _).
  unfold kernel_bio. rewrite E, E'. split_and!; try done.
  exists proc1. split; [|by vm_compute]. split; by vm_compute.
Qed.
Lemma binit_correct_witness : bc_inv kernel_bio [].
Proof.
  destruct (binit_correct kernel_ide0 eq_refl kernel_ide0_free) as (s' & E & _ & _ & H).
  unfold kernel_bio. rewrite E. exact H.
Defined.
#[global] Opaque kernel_bio.

Lemma bread_correct_witness : wpe disk_env (bread 1 7) kernel_bio (fun b s' =>
  bc_inv s' [(b, (1, 7, disk kernel_bio 1 7))] /\ iofr kernel_bio s' /\ io_ok s' 0).
Proof.
  apply (bread_correct kernel_bio [] 0 1 7).
  - apply kernel_bio_inv.
  - apply kernel_bio_ok.
  - unfold on_disk. lia.
  - cbn. unfold NBUF. lia.
  - set_solver.
Defined.

Lemma block_write_read_witness : wpe disk_env (write_read 1 7 [42]) kernel_bio (fun r s' =>
  r = [42] /\ disk s' = disk_put (disk kernel_bio) (1, 7) [42] /\ bc_inv s' []).
Proof.
  apply (block_write_read kernel_bio [] 0 1 7).
  - apply kernel_bio_inv.
  - apply kernel_bio_ok.
  - unfold on_disk. lia.
  - cbn. unfold NBUF. lia.
  - set_solver.
Defined.

Lemma cache_lru_witness : exists s', bget 1 7 kernel_bio = Ret 0%nat s' /\ lru s' (rev (seq 0 NBUF)).
Proof.
  assert (Hh : held kernel_bio = []) by by vm_compute.
  pose proof (proj2 (cache_lru kernel_bio (rev (seq 0 NBUF)) 1 7 [] [] 0 (proj2 kernel_bio_inv) Hh)) as H.
  assert (E1 : find_first (matches kernel_bio 1 7) (rev (seq 0 NBUF)) = None) by by vm_compute.
  assert (E2 : find_first (free kernel_bio) (rev (rev (seq 0 NBUF))) = Some 0%nat) by by vm_compute.
  specialize (H E1). by rewrite E2 in H.
Defined.
