(* ===== verification/UserMem.v ===== *)
(** Access to memory through the page table in [%cr3], and little-endian data in byte
    arrays.

    System calls hand user pointers to the kernel, which dereferences them directly: the
    user part of the current page table is mapped while the kernel runs.  An access to an
    unmapped address is a page fault in the kernel, where [trap] panics. *)
From S2P Require Import Prelude Types Mem Kalloc PageTable Cons Vm.

(** ** Translation *)

(** The physical address of [va] under the page directory [dir]: the two-level walk of
    the processor. *)
Definition xlate (m : Z -> Z) (dir va : Z) : option Z :=
  let pde := ld32 m (dir + 4 * PDX va) in
  if has pde PTE_P then
    let pte := ld32 m (PTE_ADDR pde + 4 * PTX va) in
    if has pte PTE_P then Some (PTE_ADDR pte + u32 va mod PGSIZE) else None
  else None.

Definition vload (va : Z) : M kernel Z :=
  let! s := get in
  match xlate (mem s) (cr3 s) va with
  | Some pa => ret (ld8 (mem s) pa)
  | None => panic "trap"
  end.
Definition vstore (va v : Z) : M kernel unit :=
  let! s := get in
  match xlate (mem s) (cr3 s) va with
  | Some pa => modify (fun s => s <| mem := st8 (mem s) pa v |>)
  | None => panic "trap"
  end.

(** Copying [n] bytes from, or the bytes [l] to, virtual address [va]. *)
Fixpoint vread (va : Z) (n : nat) : M kernel (list Z) :=
  match n with
  | O => ret []
  | S n' =>
      let! c := vload va in
      let! l := vread (u32 (va + 1)) n' in
      ret (c :: l)
  end.
Fixpoint vwrite (va : Z) (l : list Z) : M kernel unit :=
  match l with
  | [] => ret tt
  | c :: l' => vstore va c ;; vwrite (u32 (va + 1)) l'
  end.

(** ** Data in byte arrays *)
Definition byte_at (l : list Z) (i : Z) : Z := default 0 (l !! Z.to_nat i).
Definition get16 (l : list Z) (i : Z) : Z := byte_at l i + 2 ^ 8 * byte_at l (i + 1).
Definition get32 (l : list Z) (i : Z) : Z :=
  byte_at l i + 2 ^ 8 * byte_at l (i + 1) + 2 ^ 16 * byte_at l (i + 2) + 2 ^ 24 * byte_at l (i + 3).
Definition le16 (v : Z) : list Z := [u8 v; u8 (v / 2 ^ 8)].
Definition le32 (v : Z) : list Z := [u8 v; u8 (v / 2 ^ 8); u8 (v / 2 ^ 16); u8 (v / 2 ^ 24)].

(** [memmove(l + i, w, length w)] *)
Definition splice (l : list Z) (i : Z) (w : list Z) : list Z :=
  take (Z.to_nat i) l ++ w ++ drop (Z.to_nat i + length w) l.
(** The [n] bytes at [l + i] *)
Definition slice (l : list Z) (i n : Z) : list Z := take (Z.to_nat n) (drop (Z.to_nat i) l).

(** A [short] and a [ushort]. *)
Definition u16 (x : Z) : Z := x mod 2 ^ 16.
Definition s16 (x : Z) : Z := let y := u16 x in if y <? 2 ^ 15 then y else y - 2 ^ 16.

(** Dereferencing a null pointer to a kernel object: the model stops. *)
Definition deref {A} (o : option A) : M kernel A :=
  match o with Some x => ret x | None => panic "trap" end.

(** The destination of a read and the source of a write of a file: a virtual address, or a local
    variable of the caller, whose bytes are passed by value. *)
Inductive dest : Type := DVa (va : Z) | DLoc.
Inductive source : Type := SVa (va : Z) | SLoc (l : list Z).

Definition store_to (dst : dest) (tot : Z) (l : list Z) : M kernel unit :=
  match dst with DVa va => vwrite (u32 (va + tot)) l | DLoc => ret tt end.
Definition load_from (src : source) (tot m : Z) : M kernel (list Z) :=
  match src with SVa va => vread (u32 (va + tot)) (Z.to_nat m) | SLoc l => ret (slice l tot m) end.
