(* ===== verification/UserView.v ===== *)
(** User memory as the kernel sees it in a system call: loads and stores through the
    page table of the current process, in terms of the view of [VmUser.v]. *)
From S2P Require Import Prelude Types Mem Kalloc PageTable Cons Vm VmProofs VmUser VmSpec UserMem.

(** The [n] bytes at user address [va]. *)
Definition ubytes (f : Z -> Z) (m : Z -> Z) (va : Z) (n : nat) : list Z :=
  (fun i => ld8 m (upa f (va + Z.of_nat i))) <$> seq 0 n.

Lemma ubytes_S f m va n : ubytes f m va (S n) = ld8 m (upa f va) :: ubytes f m (va + 1) n.
Proof.
  unfold ubytes. cbn [seq]. rewrite fmap_cons, Z.add_0_r. f_equal.
  rewrite <- fmap_S_seq, <- list_fmap_compose. apply list_fmap_ext. intros j i _. cbn. do 2 f_equal. lia.
Qed.

Lemma ubytes_length f m va n : length (ubytes f m va n) = n.
Proof. unfold ubytes. by rewrite length_fmap, length_seq. Qed.

Lemma ubytes_range f m va n : Forall (fun c => 0 <= c < 256) (ubytes f m va n).
Proof. apply Forall_fmap, Forall_true. intros i. apply u8_range. Qed.

Lemma user_pages_tail f va n : user_pages f va (va + Z.of_nat (S n)) -> user_pages f (va + 1) (va + 1 + Z.of_nat n).
Proof. intros H v Hv. apply H. lia. Qed.

Section UserView.
Context `{HL : LinkerOk}.

(** The current page table has the user part [f]; its pages, the other pages [R] in use and
    the free pages [l] are all different. *)
Definition uspace (s : kernel) (f : Z -> Z) (R l : list Z) : Prop :=
  uv_ok s (cr3 s) f (upages f 0 NUSER ++ R) l.

(** A state with the same memory and allocator. *)
Lemma uspace_same s s' f R l : uspace s f R l -> mem s' = mem s -> cr3 s' = cr3 s ->
  freelist s' = freelist s -> freecount s' = freecount s -> uspace s' f R l.
Proof.
  unfold uspace. intros [K O V] Em Ec Ef En. rewrite Ec. split; [|by rewrite Em..].
  destruct K. split; rewrite ?Em, ?Ef, ?En; done.
Qed.

Lemma xlate_user s f R l va : uspace s f R l -> 0 <= va < USERTOP -> has (f (va / PGSIZE)) PTE_P = true ->
  xlate (mem s) (cr3 s) va = Some (upa f va).
Proof.
  intros U Hva EP. destruct (uvm_ptab _ _ _ (uv_view _ _ _ _ _ U)) as [p Hp].
  rewrite <- (PDX_lt_4M va) in Hp by (unfold USERTOP in *; lia).
  destruct (ptab_slot_nz _ _ _ _ _ _ (uv_own _ _ _ _ _ U) Hp) as (_ & Hs & Hnz).
  pose proof (uv_view _ _ _ _ _ U va ltac:(unfold USERTOP in *; lia)) as V. unfold pte_of in V.
  destruct (Z.eqb_spec (pte_slot (mem s) (cr3 s) va) 0); [done|].
  destruct (Z.ltb_spec va USERTOP); [|lia].
  unfold xlate, ptab, pte_slot, pde_of in *. destruct (has (ld32 _ _) PTE_P); [|done].
  rewrite V, EP. unfold upa. by rewrite u32_small by (unfold USERTOP in *; lia).
Qed.

Lemma wp_vload s f R l va (Q : Z -> kernel -> Prop) :
  uspace s f R l -> 0 <= va < USERTOP -> has (f (va / PGSIZE)) PTE_P = true ->
  Q (ld8 (mem s) (upa f va)) s -> wp (vload va) s Q.
Proof. intros U Hva EP HQ. unfold vload. apply wp_get. rewrite (xlate_user s f R l) by done. by apply wp_intro_ret. Qed.

Lemma wp_vread n : forall s f R l va (Q : list Z -> kernel -> Prop),
  uspace s f R l -> 0 <= va -> va + Z.of_nat n <= USERTOP -> user_pages f va (va + Z.of_nat n) ->
  Q (ubytes f (mem s) va n) s -> wp (vread va n) s Q.
Proof.
  induction n as [|n IH]; intros s f R l va Q U H0 Ht Hu HQ; cbn [vread]; [by apply wp_intro_ret|].
  rewrite ubytes_S in HQ. apply wp_bind. eapply wp_vload; [exact U|lia|apply Hu; lia|].
  apply wp_bind. rewrite u32_small by (unfold USERTOP in *; lia).
  eapply IH; [exact U|lia|lia|by apply user_pages_tail|]. by apply wp_intro_ret.
Qed.

Lemma upa_in_page f va : in_page (PTE_ADDR (f (va / PGSIZE))) (upa f va).
Proof. unfold in_page, upa. pose proof (Z.mod_pos_bound va PGSIZE eq_refl). lia. Qed.

(** One byte stored in user memory. *)
Lemma uspace_st8 s f R l va v : uspace s f R l -> 0 <= va < USERTOP -> has (f (va / PGSIZE)) PTE_P = true ->
  uspace (s <| mem := st8 (mem s) (upa f va) v |>) f R l.
Proof.
  intros U Hva EP. eapply (uv_write_user _ _ _ _ _ (va / PGSIZE)); [exact U| | |].
  - unfold USERTOP, PGSIZE in *. Z.div_mod_to_equations; lia.
  - unfold upage. by rewrite EP.
  - intros x Hx. unfold st8. destruct (Z.eqb_spec x (upa f va)) as [->|]; [|done].
    destruct Hx. apply upa_in_page.
Qed.

Lemma wp_vstore s f R l va v (Q : unit -> kernel -> Prop) :
  uspace s f R l -> 0 <= va < USERTOP -> has (f (va / PGSIZE)) PTE_P = true ->
  Q tt (s <| mem := st8 (mem s) (upa f va) v |>) -> wp (vstore va v) s Q.
Proof. intros U Hva EP HQ. unfold vstore. apply wp_get. rewrite (xlate_user s f R l) by done. exact HQ. Qed.

Lemma copied_out_nil f va m : copied_out f va [] m m.
Proof. by split. Qed.

Lemma copied_out_cons s f R l va c buf m2 :
  uspace s f R l -> 0 <= va -> va + Z.of_nat (S (length buf)) <= USERTOP ->
  user_pages f va (va + Z.of_nat (S (length buf))) ->
  copied_out f (va + 1) buf (st8 (mem s) (upa f va) c) m2 -> copied_out f va (c :: buf) (mem s) m2.
Proof.
  intros U H0 Ht Hu C. eapply (copied_out_app _ _ _ _ _ va (c :: buf) 1); [exact U|lia|done|done|cbn; lia| |done|done].
  pose proof (Z.mod_pos_bound va PGSIZE eq_refl). lia.
Qed.

Lemma wp_vwrite buf : forall s f R l va (Q : unit -> kernel -> Prop),
  uspace s f R l -> 0 <= va -> va + Z.of_nat (length buf) <= USERTOP -> user_pages f va (va + Z.of_nat (length buf)) ->
  (forall m', copied_out f va buf (mem s) m' -> uspace (s <| mem := m' |>) f R l -> Q tt (s <| mem := m' |>)) ->
  wp (vwrite va buf) s Q.
Proof.
  induction buf as [|c buf IH]; intros s f R l va Q U H0 Ht Hu HQ; cbn [vwrite].
  { apply wp_intro_ret. replace s with (s <| mem := mem s |>) by by destruct s. apply HQ; [apply copied_out_nil|].
    by destruct s. }
  cbn [length] in *. apply wp_bind. eapply wp_vstore; [exact U|lia|apply Hu; lia|].
  rewrite u32_small by (unfold USERTOP in *; lia).
  eapply IH; [by apply uspace_st8; [|lia|apply Hu; lia]|lia|lia|by apply user_pages_tail|].
  intros m' C U'. apply HQ; [|exact U']. eapply copied_out_cons; try done.
Qed.

(** What was written is read back. *)
Lemma copied_out_ubytes f va buf m m' : copied_out f va buf m m' -> ubytes f m' va (length buf) = u8 <$> buf.
Proof.
  intros [Ci _]. apply list_eq. intros i. unfold ubytes. rewrite !list_lookup_fmap.
  destruct (buf !! i) as [c|] eqn:E.
  - rewrite lookup_seq_lt by by eapply lookup_lt_Some. cbn. by rewrite (Ci i c).
  - rewrite lookup_seq_ge by by apply lookup_ge_None. done.
Qed.
End UserView.

(** ** Example: the address space of three pages of [VmSpec.v], as the current one. *)
Lemma user1 : exists s f l, held s = [] /\ curproc s = Some 0%nat /\ ptable s = me1 :: replicate 63 proc0 /\
  @uspace linker1 s f [] l /\ user_pages f 0 0x3000 /\ (22 <= length l)%nat.
Proof.
  destruct space1 as (s & d & N & l & F & U & HN & Hl).
  destruct kernel1_frame as (Hh & _ & Hcp & Hpt). destruct (mframe_curproc _ _ F) as [E1 E2].
  exists (s <| cr3 := d |>), (map_pages (fun _ => 0) 0 N), l. cbn. split_and!.
  - by rewrite (mframe_held _ _ F).
  - by rewrite E1.
  - by rewrite E2.
  - assert (EN : upages (map_pages (fun _ => 0) 0 N) 0 NUSER = N).
    { apply (@upages_map_pages linker1 linker1_ok); [eapply (@uv_pages_ok linker1); rewrite app_nil_r; exact U|
        pose proof NUSER_eq; lia|done]. }
    unfold uspace. rewrite EN, app_nil_r. destruct U as [K O V]. split; [|done|done]. destruct K. by split.
  - intros va Hva. assert (HP : Forall (@page_ok linker1) N).
    { eapply (@uv_pages_ok linker1). rewrite app_nil_r. exact U. }
    destruct (space1_entry N (va / PGSIZE) HP HN) as (p & Hp & E & Hu & Hus).
    { unfold PGSIZE. Z.div_mod_to_equations; lia. }
    rewrite E. split; [|exact Hus]. apply (@PTE_user linker1 linker1_ok). rewrite Forall_forall in HP. by apply HP.
  - done.
Qed.
