(* ===== verification/Inode.v ===== *)
(** Blocks and inodes, the first half of [kernel/fs.c]: the block allocator, the inode
    cache with its reference counts and locks, and the map from file blocks to disk
    blocks. *)
From S2P Require Import Prelude Types Mem Kalloc PageTable Cons Vm Shm Sched Ide Bio UserMem.

(** ** On-disk structures, [include/fs.h] *)

(** [struct superblock] *)
Record superblock := mkSb { sb_size : Z; sb_nblocks : Z; sb_ninodes : Z }.

(** [struct dinode]: 64 bytes on disk. *)
Record dinode := mkDinode {
  d_type : Z; d_major : Z; d_minor : Z; d_nlink : Z; d_size : Z; d_addrs : list Z }.
Definition DINODE : Z := 64.

Definition dinode_get (l : list Z) (o : Z) : dinode :=
  mkDinode (s16 (get16 l o)) (s16 (get16 l (o + 2))) (s16 (get16 l (o + 4))) (s16 (get16 l (o + 6)))
    (get32 l (o + 8)) ((fun i => get32 l (o + 12 + 4 * Z.of_nat i)) <$> seq 0 13).
Definition dinode_bytes (d : dinode) : list Z :=
  le16 (d_type d) ++ le16 (d_major d) ++ le16 (d_minor d) ++ le16 (d_nlink d) ++ le32 (d_size d) ++
  concat (le32 <$> d_addrs d).

(** ** Checksums in block addresses (p5b)

    A block address of a [T_CHECKED] file has the block number in its low 24 bits and the
    checksum of the block above. *)
Definition real_addr (addr type : Z) : Z := if type =? T_CHECKED then Z.land addr 0x00FFFFFF else addr.
Definition get_checksum (addr : Z) : Z := u8 (Z.shiftr addr 24).
Definition synth_addr (addr chksum : Z) : Z := Z.lor (u32 (Z.shiftl chksum 24)) (real_addr addr T_CHECKED).

(** ** Code *)
Definition data_of (b : nat) : M kernel (list Z) := gets (fun s => b_data (buf_at b s)).
Definition set_data (b : nat) (l : list Z) : M kernel unit := upd_buf b (fun x => x <| b_data := l |>).

Definition readsb (dev : Z) : M kernel superblock :=
  let! bp := bread dev 1 in
  let! l := data_of bp in
  brelse bp ;;
  ret (mkSb (get32 l 0) (get32 l 4) (get32 l 8)).

Definition bzero (dev bno : Z) : M kernel unit :=
  let! bp := bread dev bno in
  set_data bp (replicate (Z.to_nat BSIZE) 0) ;;
  bwrite bp ;;
  brelse bp.

(** [data[bi/8] & m], [data[bi/8] |= m], [data[bi/8] &= ~m] with [m = 1 << (bi % 8)] *)
Definition bit_mask (bi : Z) : Z := Z.shiftl 1 (bi mod 8).
Definition bit_is_set (l : list Z) (bi : Z) : bool := has (byte_at l (bi / 8)) (bit_mask bi).
Definition set_bit (l : list Z) (bi : Z) : list Z :=
  <[Z.to_nat (bi / 8) := Z.lor (byte_at l (bi / 8)) (bit_mask bi)]> l.
Definition clear_bit (l : list Z) (bi : Z) : list Z :=
  <[Z.to_nat (bi / 8) := Z.ldiff (byte_at l (bi / 8)) (bit_mask bi)]> l.

(** The inner loop of [balloc]: the first clear bit from [bi] on, of [n] left. *)
Fixpoint free_bit (n : nat) (bi : Z) (l : list Z) : option Z :=
  match n with
  | O => None
  | S n' => if bit_is_set l bi then free_bit n' (bi + 1) l else Some bi
  end.

Fixpoint balloc_loop (fuel : nat) (dev b : Z) (sb : superblock) : M kernel Z :=
  match fuel with
  | O => spin
  | S fuel' =>
      if b <? sb_size sb then
        let! bp := bread dev (BBLOCK b (sb_ninodes sb)) in
        let! l := data_of bp in
        match free_bit (Z.to_nat BPB) 0 l with
        | Some bi =>
            set_data bp (set_bit l bi) ;;
            bwrite bp ;;
            brelse bp ;;
            ret (b + bi)
        | None =>
            brelse bp ;;
            balloc_loop fuel' dev (b + BPB) sb
        end
      else panic "balloc: out of blocks"
  end.
Definition balloc (dev : Z) : M kernel Z :=
  let! sb := readsb dev in
  balloc_loop (S (S (Z.to_nat (sb_size sb / BPB)))) dev 0 sb.

Definition bfree (dev b : Z) : M kernel unit :=
  bzero dev b ;;
  let! sb := readsb dev in
  let! bp := bread dev (BBLOCK b (sb_ninodes sb)) in
  let bi := b mod BPB in
  let! l := data_of bp in
  if negb (bit_is_set l bi) then panic "freeing free block"
  else
    set_data bp (clear_bit l bi) ;;
    bwrite bp ;;
    brelse bp.

(** *** The inode cache *)
Definition inode_at (ip : nat) (s : kernel) : inode := default inode0 (icache s !! ip).
Definition upd_inode (ip : nat) (g : inode -> inode) : M kernel unit :=
  modify (fun s => s <| icache ::= alter g ip |>).

(** The loop of [iget] from slot [n] on: the cached inode, or else the first empty slot. *)
Fixpoint iget_scan (dev inum : Z) (n : nat) (l : list inode) (empty : option nat) : option nat * option nat :=
  match l with
  | [] => (None, empty)
  | ip :: l' =>
      if (0 <? i_ref ip) && (i_dev ip =? dev) && (i_inum ip =? inum) then (Some n, empty)
      else iget_scan dev inum (S n) l'
             (if bool_decide (empty = None) && (i_ref ip =? 0) then Some n else empty)
  end.

Definition iget (dev inum : Z) : M kernel nat :=
  acquire LIcache ;;
  let! ic := gets icache in
  match iget_scan dev inum 0 ic None with
  | (Some ip, _) =>
      upd_inode ip (fun x => x <| i_ref ::= fun r => r + 1 |>) ;;
      release LIcache ;;
      ret ip
  | (None, None) => panic "iget: no inodes"
  | (None, Some ip) =>
      upd_inode ip (fun x => x <| i_dev := dev |> <| i_inum := inum |> <| i_ref := 1 |> <| i_flags := 0 |>) ;;
      release LIcache ;;
      ret ip
  end.

Fixpoint ialloc_loop (fuel : nat) (dev inum ninodes type : Z) : M kernel nat :=
  match fuel with
  | O => spin
  | S fuel' =>
      if inum <? ninodes then
        let! bp := bread dev (IBLOCK inum) in
        let! l := data_of bp in
        let o := DINODE * (inum mod IPB) in
        if d_type (dinode_get l o) =? 0 then
          set_data bp (splice l o (dinode_bytes (mkDinode type 0 0 0 0 (replicate 13 0)))) ;;
          bwrite bp ;;
          brelse bp ;;
          iget dev inum
        else
          brelse bp ;;
          ialloc_loop fuel' dev (inum + 1) ninodes type
      else panic "ialloc: no inodes"
  end.
Definition ialloc (dev type : Z) : M kernel nat :=
  let! sb := readsb dev in
  ialloc_loop (S (Z.to_nat (sb_ninodes sb))) dev 1 (sb_ninodes sb) type.

Definition to_dinode (i : inode) : dinode :=
  mkDinode (i_type i) (i_major i) (i_minor i) (i_nlink i) (i_size i) (i_addrs i).
Definition of_dinode (d : dinode) (i : inode) : inode :=
  i <| i_type := d_type d |> <| i_major := d_major d |> <| i_minor := d_minor d |>
    <| i_nlink := d_nlink d |> <| i_size := d_size d |> <| i_addrs := d_addrs d |>.

Definition iupdate (ip : nat) : M kernel unit :=
  let! i := gets (inode_at ip) in
  let! bp := bread (i_dev i) (IBLOCK (i_inum i)) in
  let! l := data_of bp in
  let! i := gets (inode_at ip) in
  set_data bp (splice l (DINODE * (i_inum i mod IPB)) (dinode_bytes (to_dinode i))) ;;
  bwrite bp ;;
  brelse bp.

Definition idup (ip : nat) : M kernel nat :=
  acquire LIcache ;;
  upd_inode ip (fun x => x <| i_ref ::= fun r => r + 1 |>) ;;
  release LIcache ;;
  ret ip.

(** [while(ip->flags & I_BUSY) sleep(ip, &icache.lock)] *)
Fixpoint ilock_wait (fuel : nat) (ip : nat) : M kernel unit :=
  match fuel with
  | O => spin
  | S fuel' =>
      let! i := gets (inode_at ip) in
      if has (i_flags i) I_BUSY then sleep (ChInode ip) LIcache ;; ilock_wait fuel' ip else ret tt
  end.

(** A null pointer is [None]. *)
Definition ilock (ip : option nat) : M kernel unit :=
  match ip with
  | None => panic "ilock"
  | Some ip =>
      let! i := gets (inode_at ip) in
      if i_ref i <? 1 then panic "ilock"
      else
        acquire LIcache ;;
        waiting (fun n => ilock_wait n ip) ;;
        upd_inode ip (fun x => x <| i_flags ::= fun f => set_flag f I_BUSY |>) ;;
        release LIcache ;;
        let! i := gets (inode_at ip) in
        when (negb (has (i_flags i) I_VALID))
          (let! bp := bread (i_dev i) (IBLOCK (i_inum i)) in
           let! l := data_of bp in
           upd_inode ip (of_dinode (dinode_get l (DINODE * (i_inum i mod IPB)))) ;;
           brelse bp ;;
           upd_inode ip (fun x => x <| i_flags ::= fun f => set_flag f I_VALID |>) ;;
           let! i := gets (inode_at ip) in
           if i_type i =? 0 then panic "ilock: no type" else ret tt)
  end.

Definition iunlock (ip : option nat) : M kernel unit :=
  match ip with
  | None => panic "iunlock"
  | Some ip =>
      let! i := gets (inode_at ip) in
      if negb (has (i_flags i) I_BUSY) || (i_ref i <? 1) then panic "iunlock"
      else
        acquire LIcache ;;
        upd_inode ip (fun x => x <| i_flags ::= fun f => clear_flag f I_BUSY |>) ;;
        wakeup (ChInode ip) ;;
        release LIcache
  end.

(** *** Contents *)

(** [ip->addrs[k]] *)
Definition addr_at (ip : nat) (k : Z) : M kernel Z :=
  gets (fun s => default 0 (i_addrs (inode_at ip s) !! Z.to_nat k)).
Definition set_addr (ip : nat) (k v : Z) : M kernel unit :=
  upd_inode ip (fun x => x <| i_addrs ::= <[Z.to_nat k := v]> |>).

Definition bmap (ip : nat) (bn : Z) : M kernel Z :=
  let! i := gets (inode_at ip) in
  if bn <? NDIRECT then
    let! addr := addr_at ip bn in
    if addr =? 0 then
      let! addr := balloc (i_dev i) in
      set_addr ip bn addr ;;
      ret addr
    else ret addr
  else
    let bn := bn - NDIRECT in
    if bn <? NINDIRECT then
      let! addr := addr_at ip NDIRECT in
      let! addr :=
        (if addr =? 0 then
           let! addr := balloc (i_dev i) in
           set_addr ip NDIRECT addr ;;
           ret addr
         else ret addr) in
      let! bp := bread (i_dev i) addr in
      let! l := data_of bp in
      let addr := get32 l (4 * bn) in
      if addr =? 0 then
        let! addr := balloc (i_dev i) in
        let! l := data_of bp in
        set_data bp (splice l (4 * bn) (le32 addr)) ;;
        bwrite bp ;;
        brelse bp ;;
        ret addr
      else
        brelse bp ;;
        ret addr
    else panic "bmap: out of range".

(** [for(i = 0; i < NDIRECT; i++)] *)
Fixpoint itrunc_direct (ip : nat) (l : list Z) : M kernel unit :=
  match l with
  | [] => ret tt
  | k :: l' =>
      let! i := gets (inode_at ip) in
      let! addr := addr_at ip k in
      when (negb (addr =? 0)) (bfree (i_dev i) addr ;; set_addr ip k 0) ;;
      itrunc_direct ip l'
  end.
(** [for(j = 0; j < NINDIRECT; j++)] over the indirect block in [bp] *)
Fixpoint itrunc_indirect (dev : Z) (bp : nat) (l : list Z) : M kernel unit :=
  match l with
  | [] => ret tt
  | j :: l' =>
      let! d := data_of bp in
      when (negb (get32 d (4 * j) =? 0)) (bfree dev (get32 d (4 * j))) ;;
      itrunc_indirect dev bp l'
  end.

Definition itrunc (ip : nat) : M kernel unit :=
  itrunc_direct ip (Z.of_nat <$> seq 0 (Z.to_nat NDIRECT)) ;;
  let! i := gets (inode_at ip) in
  let! addr := addr_at ip NDIRECT in
  when (negb (addr =? 0))
    (let! bp := bread (i_dev i) addr in
     itrunc_indirect (i_dev i) bp (Z.of_nat <$> seq 0 (Z.to_nat NINDIRECT)) ;;
     brelse bp ;;
     let! addr := addr_at ip NDIRECT in
     bfree (i_dev i) addr ;;
     set_addr ip NDIRECT 0) ;;
  upd_inode ip (fun x => x <| i_size := 0 |>) ;;
  iupdate ip.

Definition iput (ip : nat) : M kernel unit :=
  acquire LIcache ;;
  let! i := gets (inode_at ip) in
  (if (i_ref i =? 1) && has (i_flags i) I_VALID && (i_nlink i =? 0) then
     if has (i_flags i) I_BUSY then panic "iput busy"
     else
       upd_inode ip (fun x => x <| i_flags ::= fun f => set_flag f I_BUSY |>) ;;
       release LIcache ;;
       itrunc ip ;;
       upd_inode ip (fun x => x <| i_type := 0 |>) ;;
       iupdate ip ;;
       acquire LIcache ;;
       upd_inode ip (fun x => x <| i_flags := 0 |>) ;;
       wakeup (ChInode ip)
   else ret tt) ;;
  upd_inode ip (fun x => x <| i_ref ::= fun r => r - 1 |>) ;;
  release LIcache.

Definition iunlockput (ip : nat) : M kernel unit :=
  iunlock (Some ip) ;;
  iput ip.

(** *** Checksums *)
Definition gen_checksum (l : list Z) : Z := foldl Z.lxor 0 (take (Z.to_nat BSIZE) l).
Definition vrfy_checksum (l : list Z) (chk_sum : Z) : bool := gen_checksum l =? chk_sum.

(** The buffer of the indirect block is not released when the entry is empty. *)
Definition set_checksum (ip : nat) (bn chk_sum : Z) : M kernel Z :=
  let! i := gets (inode_at ip) in
  if bn <? NDIRECT then
    let! addr := addr_at ip bn in
    if addr =? 0 then ret (-1)
    else set_addr ip bn (synth_addr addr chk_sum) ;; ret 0
  else
    let bn := bn - NDIRECT in
    if bn <? NINDIRECT then
      let! addr := addr_at ip NDIRECT in
      if addr =? 0 then ret (-1)
      else
        let! bp := bread (i_dev i) (real_addr addr (i_type i)) in
        let! l := data_of bp in
        if get32 l (4 * bn) =? 0 then ret (-1)
        else
          set_data bp (splice l (4 * bn) (le32 (synth_addr (get32 l (4 * bn)) chk_sum))) ;;
          bwrite bp ;;
          brelse bp ;;
          ret 0
    else panic "set_checksum: out of range".

(** The two loops of [aggregate_checksum]: the sum up to the first empty address, and
    whether there was one. *)
Fixpoint sum_addrs (chk_sum : Z) (l : list Z) : Z * bool :=
  match l with
  | [] => (chk_sum, false)
  | a :: l' => if a =? 0 then (chk_sum, true) else sum_addrs (Z.lxor chk_sum (get_checksum a)) l'
  end.
Definition aggregate_checksum (ip : nat) : M kernel Z :=
  let! i := gets (inode_at ip) in
  let '(chk_sum, stop) := sum_addrs 0 (take (Z.to_nat NDIRECT) (i_addrs i)) in
  if stop then ret chk_sum
  else
    let! addr := addr_at ip NDIRECT in
    if addr =? 0 then ret chk_sum
    else
      let! bp := bread (i_dev i) (real_addr addr (i_type i)) in
      let! l := data_of bp in
      let '(chk_sum, stop) := sum_addrs chk_sum ((fun j => get32 l (4 * Z.of_nat j)) <$> seq 0 (Z.to_nat NINDIRECT)) in
      brelse bp ;;
      if stop then ret chk_sum else panic "aggregate_checksum: out of range".
