(* ===== verification/Console.v ===== *)
(** Console input: the keyboard driver [kernel/kbd.c], the receiver of [kernel/uart.c],
    the line editor and the read and write functions of [kernel/console.c], and the
    process listing of [kernel/proc.c] that control-P prints. *)
From S2P Require Import Prelude Types Mem Kalloc PageTable Cons Vm Shm Spinlock Sched Ide Bio UserMem Inode.

(** ** Keyboard, [kernel/kbd.h] and [kernel/kbd.c] *)
Notation NO := 0 (only parsing).
Notation SHIFT := 1 (only parsing).
Notation CTL := 2 (only parsing).
Notation ALT := 4 (only parsing).
Notation CAPSLOCK := 8 (only parsing).
Notation NUMLOCK := 16 (only parsing).
Notation SCROLLLOCK := 32 (only parsing).
Notation E0ESC := 64 (only parsing).
Notation KEY_HOME := 0xE0 (only parsing).
Notation KEY_END := 0xE1 (only parsing).
Notation KEY_UP := 0xE2 (only parsing).
Notation KEY_DN := 0xE3 (only parsing).
Notation KEY_LF := 0xE4 (only parsing).
Notation KEY_RT := 0xE5 (only parsing).
Notation KEY_PGUP := 0xE6 (only parsing).
Notation KEY_PGDN := 0xE7 (only parsing).
Notation KEY_INS := 0xE8 (only parsing).
Notation KEY_DEL := 0xE9 (only parsing).

(** [C('A')] is control-A. *)
Definition C (x : Z) : Z := x - 64.

(** An array initialised with the values [base] and the designated entries [ext]; the
    rest is zero. *)
Fixpoint entry (ext : list (Z * Z)) (i : Z) : option Z :=
  match ext with [] => None | (k, v) :: ext' => if k =? i then Some v else entry ext' i end.
Definition keymap (base : list Z) (ext : list (Z * Z)) (i : Z) : Z :=
  match entry ext i with Some v => v | None => default 0 (base !! Z.to_nat i) end.

Definition shiftcode : Z -> Z :=
  keymap [] [(0x1D, CTL); (0x2A, SHIFT); (0x36, SHIFT); (0x38, ALT); (0x9D, CTL); (0xB8, ALT)].
Definition togglecode : Z -> Z := keymap [] [(0x3A, CAPSLOCK); (0x45, NUMLOCK); (0x46, SCROLLLOCK)].

Definition normalmap : Z -> Z :=
  keymap ([NO; 0x1B] ++ str "1234567890-=" ++ [8; 9] ++
          str "qwertyuiop[]" ++ [10; NO] ++ str "as" ++
          str "dfghjkl;" ++ [39; 96; NO; 92] ++ str "zxcv" ++
          str "bnm,./" ++ [NO] ++ str "*" ++
          [NO] ++ str " " ++ replicate 6 NO ++
          replicate 7 NO ++ str "7" ++ str "89-456+1" ++ str "230." ++ replicate 4 NO)
         [(0x9C, 10); (0xB5, 47); (0xC8, KEY_UP); (0xD0, KEY_DN); (0xC9, KEY_PGUP); (0xD1, KEY_PGDN);
          (0xCB, KEY_LF); (0xCD, KEY_RT); (0x97, KEY_HOME); (0xCF, KEY_END); (0xD2, KEY_INS); (0xD3, KEY_DEL)].
Definition shiftmap : Z -> Z :=
  keymap ([NO; 27] ++ str "!@#$%^&*()_+" ++ [8; 9] ++
          str "QWERTYUIOP{}" ++ [10; NO] ++ str "AS" ++
          str "DFGHJKL:" ++ [34; 126; NO; 124] ++ str "ZXCV" ++
          str "BNM<>?" ++ [NO] ++ str "*" ++
          [NO] ++ str " " ++ replicate 6 NO ++
          replicate 7 NO ++ str "7" ++ str "89-456+1" ++ str "230." ++ replicate 4 NO)
         [(0x9C, 10); (0xB5, 47); (0xC8, KEY_UP); (0xD0, KEY_DN); (0xC9, KEY_PGUP); (0xD1, KEY_PGDN);
          (0xCB, KEY_LF); (0xCD, KEY_RT); (0x97, KEY_HOME); (0xCF, KEY_END); (0xD2, KEY_INS); (0xD3, KEY_DEL)].
Definition ctlmap : Z -> Z :=
  keymap (replicate 16 NO ++
          (C <$> str "QWERTYUI") ++ (C <$> str "OP") ++ [NO; NO; 13; NO] ++ (C <$> str "AS") ++
          (C <$> str "DFGHJKL") ++ [NO] ++ [NO; NO; NO; C 92] ++ (C <$> str "ZXCV") ++
          (C <$> str "BNM") ++ [NO; NO; u8 (C 47); NO; NO])
         [(0x9C, 13); (0xB5, u8 (C 47)); (0xC8, KEY_UP); (0xD0, KEY_DN); (0xC9, KEY_PGUP); (0xD1, KEY_PGDN);
          (0xCB, KEY_LF); (0xCD, KEY_RT); (0x97, KEY_HOME); (0xCF, KEY_END); (0xD2, KEY_INS); (0xD3, KEY_DEL)].

Definition charcode (i : Z) : Z -> Z :=
  if i =? 0 then normalmap else if i =? 1 then shiftmap else ctlmap.

(** One key event; [st] is the status register and [data] the byte of the data register. *)
Definition kbdgetc (st data : Z) : M kernel Z :=
  if negb (has st 0x01) then ret (-1)
  else
    let! shift := gets kbd_shift in
    let set v := modify (fun s => s <| kbd_shift := v |>) in
    if data =? 0xE0 then set (Z.lor shift E0ESC) ;; ret 0
    else if has data 0x80 then
      let data := if has shift E0ESC then data else Z.land data 0x7F in
      set (Z.ldiff shift (Z.lor (shiftcode data) E0ESC)) ;; ret 0
    else
      let data := if has shift E0ESC then Z.lor data 0x80 else data in
      let shift := if has shift E0ESC then Z.ldiff shift E0ESC else shift in
      let shift := Z.lxor (Z.lor shift (shiftcode data)) (togglecode data) in
      set shift ;;
      let c := charcode (Z.land shift (Z.lor CTL SHIFT)) data in
      ret (if has shift CAPSLOCK then
             if (97 <=? c) && (c <=? 122) then c - 32
             else if (65 <=? c) && (c <=? 90) then c + 32 else c
           else c).

(** [lsr] is the line status register, [data] the receive buffer. *)
Definition uartgetc (lsr data : Z) : M kernel Z :=
  let! k := gets kcons in
  ret (if negb (uart k) then -1 else if negb (has lsr 0x01) then -1 else data).

(** ** The process listing, [procdump] of [kernel/proc.c] *)
Definition state_name (st : procstate) : string :=
  match st with
  | UNUSED => "unused" | EMBRYO => "embryo" | SLEEPING => "sleep "
  | RUNNABLE => "runble" | RUNNING => "run   " | ZOMBIE => "zombie"
  end.
Fixpoint dump_pcs (l : list Z) : M kernel unit :=
  match l with
  | [] => ret tt
  | pc :: l' => if pc =? 0 then ret tt else cprintf " %p" [AInt pc] ;; dump_pcs l'
  end.
Fixpoint procdump_loop (l : list proc) : M kernel unit :=
  match l with
  | [] => ret tt
  | p :: l' =>
      (if decide (p_state p = UNUSED) then ret tt
       else
         cprintf "%d %s %s" [AInt (p_pid p); AStr (Some (str (state_name (p_state p)))); AStr (Some (p_name p))] ;;
         when (bool_decide (p_state p = SLEEPING))
           (let! m := gets mem in
            dump_pcs (getcallerpcs m (u32 (ctx_ebp (p_context p) + 8)))) ;;
         cprintf "
" []) ;;
      procdump_loop l'
  end.
Definition procdump : M kernel unit :=
  let! pt := gets ptable in
  procdump_loop pt.

(** ** The line editor, [consoleintr] *)
Definition INPUT_BUF : Z := 128.
Definition upd_input (g : inputbuf -> inputbuf) : M kernel unit := modify (fun s => s <| kinput ::= g |>).

(** [input.buf[i % INPUT_BUF]]; a [char] is signed. *)
Definition s8 (x : Z) : Z := let y := u8 x in if y <? 128 then y else y - 256.
Definition in_at (k : inputbuf) (i : Z) : Z := s8 (default 0 (in_buf k !! Z.to_nat (u32 i mod INPUT_BUF))).

(** Kill line: at most the whole buffer is erased. *)
Fixpoint kill_line (fuel : nat) : M kernel unit :=
  match fuel with
  | O => ret tt
  | S fuel' =>
      let! k := gets kinput in
      if negb (in_e k =? in_w k) && negb (in_at k (in_e k - 1) =? 10) then
        upd_input (fun k => k <| in_e ::= fun e => u32 (e - 1) |>) ;;
        consputc BACKSPACE ;;
        kill_line fuel'
      else ret tt
  end.

(** [input.buf[input.e++ % INPUT_BUF] = c] *)
Definition push_char (c : Z) (k : inputbuf) : inputbuf :=
  k <| in_buf ::= <[Z.to_nat (in_e k mod INPUT_BUF) := u8 c]> |> <| in_e ::= fun e => u32 (e + 1) |>.

(** The body of the loop of [consoleintr] for the character [c]. *)
Definition console_char (c : Z) : M kernel unit :=
  if c =? C 80 then procdump
  else if c =? C 85 then kill_line (Z.to_nat INPUT_BUF)
  else if (c =? C 72) || (c =? 0x7f) then
    let! k := gets kinput in
    when (negb (in_e k =? in_w k))
      (upd_input (fun k => k <| in_e ::= fun e => u32 (e - 1) |>) ;;
       consputc BACKSPACE)
  else
    let! k := gets kinput in
    when (negb (c =? 0) && (u32 (in_e k - in_r k) <? INPUT_BUF))
      (let c := if c =? 13 then 10 else c in
       upd_input (push_char c) ;;
       consputc c ;;
       let! k := gets kinput in
       when ((c =? 10) || (c =? C 68) || (in_e k =? u32 (in_r k + INPUT_BUF)))
         (upd_input (fun k => k <| in_w := in_e k |>) ;;
          wakeup ChInput)).

(** [consoleintr(getc)]: [getc] is called once per byte the device has; the device has no
    more when it returns [-1]. *)
Fixpoint consoleintr_loop (getc : Z -> M kernel Z) (bytes : list Z) : M kernel unit :=
  match bytes with
  | [] => ret tt
  | b :: bytes' =>
      let! c := getc b in
      if c <? 0 then ret tt
      else console_char c ;; consoleintr_loop getc bytes'
  end.
Definition consoleintr (getc : Z -> M kernel Z) (bytes : list Z) : M kernel unit :=
  acquire LInput ;;
  consoleintr_loop getc bytes ;;
  release LInput.

Definition kbdintr (bytes : list Z) : M kernel unit := consoleintr (kbdgetc 1) bytes.
Definition uartintr (bytes : list Z) : M kernel unit := consoleintr (uartgetc 1) bytes.

(** ** Reading and writing the console *)

(** [while(input.r == input.w)]: [false] when the process was killed. *)
Fixpoint input_wait (fuel : nat) : M kernel bool :=
  match fuel with
  | O => spin
  | S fuel' =>
      let! k := gets kinput in
      if in_r k =? in_w k then
        let! me := myproc in
        if negb (p_killed me =? 0) then ret false
        else sleep ChInput LInput ;; input_wait fuel'
      else ret true
  end.

(** [while(n > 0)]: the count left, or [None] when the process was killed, and the bytes
    read so far. *)
Fixpoint consoleread_loop (fuel : nat) (dst : dest) (n target : Z) (acc : list Z) : M kernel (option Z * list Z) :=
  match fuel with
  | O => spin
  | S fuel' =>
      if 0 <? n then
        let! ok := waiting input_wait in
        if negb ok then ret (None, acc)
        else
          let! k := gets kinput in
          let c := in_at k (in_r k) in
          upd_input (fun k => k <| in_r ::= fun r => u32 (r + 1) |>) ;;
          if c =? C 68 then
            when (u32 n <? target) (upd_input (fun k => k <| in_r ::= fun r => u32 (r - 1) |>)) ;;
            ret (Some n, acc)
          else
            store_to dst (Z.of_nat (length acc)) [u8 c] ;;
            if c =? 10 then ret (Some (n - 1), acc ++ [u8 c])
            else consoleread_loop fuel' dst (n - 1) target (acc ++ [u8 c])
      else ret (Some n, acc)
  end.

Definition consoleread (ip : nat) (dst : dest) (n : Z) : M kernel (Z * list Z) :=
  iunlock (Some ip) ;;
  let target := u32 n in
  acquire LInput ;;
  let! '(r, acc) := consoleread_loop (S (Z.to_nat n)) dst n target [] in
  release LInput ;;
  ilock (Some ip) ;;
  match r with
  | None => ret (-1, acc)
  | Some n => ret (s32 (target - n), acc)
  end.

Fixpoint consolewrite_loop (src : source) (i : Z) (n : nat) : M kernel unit :=
  match n with
  | O => ret tt
  | S n' => let! l := load_from src i 1 in consputs l ;; consolewrite_loop src (i + 1) n'
  end.
Definition consolewrite (ip : nat) (src : source) (n : Z) : M kernel Z :=
  iunlock (Some ip) ;;
  acquire LCons ;;
  consolewrite_loop src 0 (Z.to_nat n) ;;
  release LCons ;;
  ilock (Some ip) ;;
  ret n.

Definition consoleinit : M kernel unit :=
  modify (fun s => s <| devsw ::= alter (fun _ => (true, true)) (Z.to_nat CONSOLE) |>) ;;
  modify (fun s => s <| kcons ::= fun k => k <| cons_locking := true |> |>).

(** [uartinit]: [lsr] is the line status register. *)
Definition uartinit (lsr : Z) : M kernel unit :=
  if lsr =? 0xFF then ret tt
  else
    modify (fun s => s <| kcons ::= fun k => k <| uart := true |> |>) ;;
    let fix puts l := match l with [] => ret tt | c :: l' => uartputc c ;; puts l' end in
    puts (str "xv6...
").

(** ** The line discipline *)

(** What a reader sees of [input]: the bytes committed for reading, and the line being
    edited. *)
Record input_rel (k : inputbuf) (ready line : list Z) : Prop := {
  ir_buf : length (in_buf k) = Z.to_nat INPUT_BUF;
  ir_r : 0 <= in_r k < 2 ^ 32;
  ir_w : in_w k = u32 (in_r k + Z.of_nat (length ready));
  ir_e : in_e k = u32 (in_r k + Z.of_nat (length ready) + Z.of_nat (length line));
  ir_len : Z.of_nat (length ready) + Z.of_nat (length line) <= INPUT_BUF;
  ir_at : forall j c, (ready ++ line) !! j = Some c ->
    in_buf k !! Z.to_nat ((in_r k + Z.of_nat j) mod INPUT_BUF) = Some c /\ 0 <= c < 256;
  ir_line : 10 ∉ line }.

(** One typed character. *)
Definition edit (rl : list Z * list Z) (c : Z) : list Z * list Z :=
  let '(ready, line) := rl in
  if c =? C 80 then (ready, line)
  else if c =? C 85 then (ready, [])
  else if (c =? C 72) || (c =? 0x7f) then (ready, removelast line)
  else if (c =? 0) || (INPUT_BUF <=? Z.of_nat (length ready) + Z.of_nat (length line)) then (ready, line)
  else
    let c := if c =? 13 then 10 else c in
    if (c =? 10) || (c =? C 68) || (Z.of_nat (length ready) + Z.of_nat (length line) + 1 =? INPUT_BUF)
    then (ready ++ line ++ [c], [])
    else (ready, line ++ [c]).

Lemma u32_mod x k : 0 <= k <= 32 -> u32 x mod 2 ^ k = x mod 2 ^ k.
Proof.
  intros Hk. Transparent u32. unfold u32. Opaque u32. apply Z.mod_mod_divide.
  exists (2 ^ (32 - k)). rewrite <- Z.pow_add_r by lia. f_equal. lia.
Qed.

Lemma u32_eqb x y d : 0 <= d < 2 ^ 32 -> y = x + d -> (u32 x =? u32 y) = (d =? 0).
Proof.
  intros Hd ->. Transparent u32. unfold u32. Opaque u32.
  destruct (Z.eqb_spec d 0) as [->|Hne]; [rewrite Z.add_0_r; apply Z.eqb_refl|].
  apply Z.eqb_neq. change (2 ^ 32) with 4294967296 in *. Z.div_mod_to_equations. lia.
Qed.

Section input_facts.
Context (k : inputbuf) (ready line : list Z) (H : input_rel k ready line).

Lemma input_empty_line : (in_e k =? in_w k) = bool_decide (line = []).
Proof.
  destruct H as [_ _ -> -> Hlen _ _]. rewrite Z.eqb_sym. unfold INPUT_BUF in *.
  rewrite (u32_eqb _ _ (Z.of_nat (length line))) by lia.
  destruct line; [done|]. rewrite bool_decide_eq_false_2 by done. cbn [length]. apply Z.eqb_neq. lia.
Qed.

Lemma input_used : u32 (in_e k - in_r k) = Z.of_nat (length ready) + Z.of_nat (length line).
Proof.
  destruct H as [_ Hr _ -> Hlen _ _]. unfold INPUT_BUF in *.
  Transparent u32. unfold u32. Opaque u32. change (2 ^ 32) with 4294967296 in *. Z.div_mod_to_equations. lia.
Qed.

Lemma input_last c l : line = l ++ [c] -> in_at k (in_e k - 1) = s8 c /\ c <> 10 /\ 0 <= c < 256.
Proof.
  intros El. destruct H as [_ Hr _ -> Hlen Hat Hnl].
  assert (Hj : (ready ++ line) !! (length ready + length l)%nat = Some c).
  { rewrite El, lookup_app_r by lia. replace (length ready + length l - length ready)%nat with (length l) by lia.
    by rewrite list_lookup_middle. }
  destruct (Hat _ _ Hj) as [Hb Hc]. split_and!; try lia.
  - unfold in_at. f_equal. change INPUT_BUF with (2 ^ 7) in *. rewrite u32_mod by lia.
    rewrite <- (Zminus_mod_idemp_l (u32 _)), u32_mod, Zminus_mod_idemp_l by lia.
    replace (in_r k + Z.of_nat (length ready) + Z.of_nat (length line) - 1)
      with (in_r k + Z.of_nat (length ready + length l)).
    + by rewrite Hb.
    + rewrite El, length_app. cbn [length]. lia.
  - intros ->. apply Hnl. rewrite El. set_solver.
Qed.

(** Erasing the last character. *)
Lemma input_erase c l : line = l ++ [c] ->
  input_rel (k <| in_e ::= fun e => u32 (e - 1) |>) ready l.
Proof.
  intros El. destruct H as [Hb Hr Hw He Hlen Hat Hnl]. rewrite El, length_app in *. cbn [length] in *.
  split; cbn; try done; try lia.
  - rewrite He. Transparent u32. unfold u32. Opaque u32.
    rewrite Zminus_mod_idemp_l. f_equal. lia.
  - intros j d Hj. apply Hat. rewrite app_assoc. by apply lookup_app_l_Some.
  - set_solver.
Qed.
End input_facts.

Lemma mod_small_eq a b n : 0 < n -> a mod n = b mod n -> 0 <= b - a < n -> a = b.
Proof.
  intros Hn E Hab. assert ((b - a) mod n = 0) as Hm by (rewrite Zminus_mod, E, Z.sub_diag; done).
  rewrite Z.mod_small in Hm by done. lia.
Qed.

Lemma push_at k ready line c : input_rel k ready line -> 0 <= c < 256 ->
  Z.of_nat (length ready) + Z.of_nat (length line) < INPUT_BUF ->
  forall j d, (ready ++ line ++ [c]) !! j = Some d ->
    in_buf (push_char c k) !! Z.to_nat ((in_r k + Z.of_nat j) mod INPUT_BUF) = Some d /\ 0 <= d < 256.
Proof.
  intros [Hb Hr Hw He Hlen Hat Hnl] Hc Hroom j d Hj. cbn [in_buf push_char update].
  assert (Ee : in_e k mod INPUT_BUF = (in_r k + Z.of_nat (length (ready ++ line))) mod INPUT_BUF).
  { rewrite He. change INPUT_BUF with (2 ^ 7). rewrite u32_mod, length_app by lia. f_equal. lia. }
  assert (0 < INPUT_BUF) as Hpos by (unfold INPUT_BUF; lia).
  rewrite app_assoc in Hj. apply lookup_app_Some in Hj as [Hj|[Hge Hj]].
  - pose proof (lookup_lt_Some _ _ _ Hj) as Hlt. rewrite length_app in Hlt.
    rewrite list_lookup_insert_ne; [by apply Hat|]. rewrite Ee. intros E.
    apply Z2Nat.inj in E; [|apply Z.mod_pos_bound; lia|apply Z.mod_pos_bound; lia].
    symmetry in E. rewrite length_app in E.
    assert (Hjl : in_r k + Z.of_nat j = in_r k + Z.of_nat (length ready + length line)); [|lia].
    apply (mod_small_eq _ _ _ Hpos E). lia.
  - assert (Hz : (j - length (ready ++ line) < length [c])%nat) by (by eapply lookup_lt_Some). cbn in Hz.
    replace j with (length (ready ++ line)) in Hj |- * by lia.
    rewrite Nat.sub_diag in Hj. injection Hj as <-. rewrite Ee, list_lookup_insert_eq.
    + by rewrite u8_small.
    + rewrite Hb. apply Z2Nat.inj_lt; [apply Z.mod_pos_bound; lia|lia|]. apply Z.mod_pos_bound. lia.
Qed.

Lemma input_push k ready line c : input_rel k ready line -> 0 <= c < 256 -> c <> 10 ->
  Z.of_nat (length ready) + Z.of_nat (length line) < INPUT_BUF ->
  input_rel (push_char c k) ready (line ++ [c]).
Proof.
  intros Hrel Hc Hnl Hroom. pose proof (push_at k ready line c Hrel Hc Hroom) as Hat'.
  destruct Hrel as [Hb Hr Hw He Hlen Hat Hl]. split; try done.
  - cbn. by rewrite length_insert.
  - cbn. rewrite He, length_app. Transparent u32. unfold u32. Opaque u32.
    rewrite Zplus_mod_idemp_l. f_equal. cbn [length]. lia.
  - rewrite length_app. cbn [length]. lia.
  - set_solver.
Qed.

Lemma input_commit k ready line c : input_rel k ready line -> 0 <= c < 256 ->
  Z.of_nat (length ready) + Z.of_nat (length line) < INPUT_BUF ->
  input_rel ((push_char c k) <| in_w := in_e (push_char c k) |>) (ready ++ line ++ [c]) [].
Proof.
  intros Hrel Hc Hroom. pose proof (push_at k ready line c Hrel Hc Hroom) as Hat'.
  destruct Hrel as [Hb Hr Hw He Hlen Hat Hl].
  assert (Ee : in_e (push_char c k) = u32 (in_r k + Z.of_nat (length (ready ++ line ++ [c])))).
  { cbn. rewrite He, !length_app. Transparent u32. unfold u32. Opaque u32.
    rewrite Zplus_mod_idemp_l. f_equal. cbn [length]. lia. }
  split; try done.
  - cbn. by rewrite length_insert.
  - cbn [length in_e update]. rewrite Z.add_0_r. exact Ee.
  - rewrite !length_app. cbn [length]. lia.
  - rewrite app_nil_r. exact Hat'.
  - set_solver.
Qed.

(** *** The handler *)

(** What typing may change besides [input]: the screen, and who is runnable. *)
Record typed (s s' : kernel) : Prop := {
  ty_eq : s' = s <| kcons := kcons s' |> <| kinput := kinput s' |> <| ptable := ptable s' |>;
  ty_cons : panicked (kcons s') = panicked (kcons s) /\ uart (kcons s') = uart (kcons s);
  ty_procs : ptable s' = ptable s \/ ptable s' = wake_proc (Some ChInput) <$> ptable s }.

Lemma wake_twice c (l : list proc) : wake_proc c <$> (wake_proc c <$> l) = wake_proc c <$> l.
Proof.
  rewrite <- list_fmap_compose. apply list_fmap_ext. intros i p _. unfold compose, wake_proc at 2 3.
  destruct (bool_decide (p_state p = SLEEPING)) eqn:E1, (bool_decide (p_chan p = c)) eqn:E2; cbn;
    unfold wake_proc; cbn; rewrite ?E1, ?E2; try done.
Qed.
#[global] Instance typed_preorder : PreOrder typed.
Proof.
  split.
  - intros s. split; [by kext|done|by left].
  - intros s1 s2 s3 [E1 C1 P1] [E2 C2 P2]. split.
    + rewrite E2. rewrite E1. by kext.
    + destruct C1, C2. split; congruence.
    + destruct P1 as [P1|P1], P2 as [P2|P2]; rewrite P2, P1; auto. right. apply wake_twice.
Qed.

Lemma printed_typed s s' : printed s s' -> typed s s'.
Proof. intros (c & -> & H1 & H2 & H3). split; [by kext|done|by left]. Qed.

Lemma wp_procdump s : cons_ready s -> wp procdump s (fun _ s' => printed s s').
Proof.
  intros Hr. unfold procdump. apply wp_gets. generalize (ptable s) as l. intros l.
  assert (R : forall s0 s1, cons_ready s0 -> printed s0 s1 -> cons_ready s1).
  { intros s0 s1 [H1 H2] (c & -> & H3 & H4). split; [cbn; congruence|done]. }
  assert (G : forall (m : M kernel unit) s0 s1, cons_ready s0 -> printed s0 s1 ->
    (forall s, cons_ready s -> wp m s (fun _ s' => printed s s')) -> wp m s1 (fun _ s' => printed s0 s')).
  { intros m s0 s1 H0 H1 Hm. eapply wp_mono; [apply Hm; by eapply R|]. intros ? s2 H2. by eapply printed_trans. }
  assert (D : forall l s, cons_ready s -> wp (dump_pcs l) s (fun _ s' => printed s s')).
  { intros l'. induction l' as [|c l' IH]; intros s0 H0; cbn [dump_pcs]; [apply wp_intro_ret, printed_refl|].
    destruct (c =? 0); [apply wp_intro_ret, printed_refl|]. apply wp_bind.
    eapply wp_mono; [by apply wp_cprintf|]. intros ? s1 H1. by apply G. }
  revert s Hr. induction l as [|p l IH]; intros s Hr; cbn [procdump_loop]; [apply wp_intro_ret, printed_refl|].
  apply wp_bind. apply wp_mono with (P := fun _ s' => printed s s').
  - destruct (decide (p_state p = UNUSED)); [apply wp_intro_ret, printed_refl|].
    apply wp_bind. eapply wp_mono; [by apply wp_cprintf|]. intros ? s1 H1.
    apply wp_bind. eapply wp_mono; [|intros ? s2 H2; apply (G _ s s2 Hr H2); intros; by apply wp_cprintf].
    destruct (bool_decide _); cbn [when]; [|by apply wp_intro_ret].
    apply wp_gets. apply G; try done. intros. by apply D.
  - intros ? s1 H1. by apply G.
Qed.

(** The kill loop erases the whole line. *)
Lemma wp_kill_line fuel : forall s ready line, (length line <= fuel)%nat -> panicked (kcons s) = false ->
  input_rel (kinput s) ready line ->
  wp (kill_line fuel) s (fun _ s' => typed s s' /\ ptable s' = ptable s /\ input_rel (kinput s') ready []).
Proof.
  induction fuel as [|fuel IH]; intros s ready line Hlen Hp Hrel; cbn [kill_line].
  { destruct line; [|cbn in Hlen; lia]. apply wp_intro_ret. split_and!; [reflexivity|done|done]. }
  apply wp_gets. rewrite (input_empty_line _ _ _ Hrel).
  destruct (decide (line = [])) as [->|Hne].
  { rewrite bool_decide_eq_true_2 by done. apply wp_intro_ret. split_and!; [reflexivity|done|done]. }
  destruct (exists_last Hne) as (l & c & El). rewrite bool_decide_eq_false_2 by done.
  destruct (input_last _ _ _ Hrel c l El) as (-> & Hc & Hr). unfold s8. rewrite u8_small by done.
  replace ((if c <? 128 then c else c - 256) =? 10) with false.
  2:{ symmetry. apply Z.eqb_neq. destruct (Z.ltb_spec c 128); lia. }
  cbn [negb andb]. apply wp_modify, wp_bind. eapply wp_mono; [by apply wp_consputc|].
  intros ? s1 H1. pose proof H1 as (k & -> & H2 & H3 & H4).
  eapply wp_mono; [apply (IH _ ready l)|].
  - rewrite El, length_app in Hlen. cbn in Hlen. lia.
  - cbn in *. congruence.
  - exact (input_erase _ _ _ Hrel c l El).
  - intros ? s2 (T & P & R2). split_and!; [|done|done]. etransitivity; [|exact T]. split; [by kext|cbn in *; split; congruence|by left].
Qed.

Lemma input_full k ready line : input_rel k ready line -> Z.of_nat (length ready) + Z.of_nat (length line) < INPUT_BUF ->
  forall c, (in_e (push_char c k) =? u32 (in_r k + INPUT_BUF)) =
    (Z.of_nat (length ready) + Z.of_nat (length line) + 1 =? INPUT_BUF).
Proof.
  intros [Hb Hr Hw He Hlen Hat Hl] Hroom c. cbn. rewrite He.
  rewrite u32_add_l. unfold INPUT_BUF in *.
  rewrite (u32_eqb _ _ (128 - (Z.of_nat (length ready) + Z.of_nat (length line) + 1))) by lia.
  destruct (Z.eqb_spec (128 - (Z.of_nat (length ready) + Z.of_nat (length line) + 1)) 0),
    (Z.eqb_spec (Z.of_nat (length ready) + Z.of_nat (length line) + 1) 128); lia.
Qed.

Lemma wp_console_char s ready line c : held s = [LInput] -> panicked (kcons s) = false -> 0 <= c < 256 ->
  input_rel (kinput s) ready line ->
  wp (console_char c) s (fun _ s' => typed s s' /\
    input_rel (kinput s') (fst (edit (ready, line) c)) (snd (edit (ready, line) c))).
Proof.
  intros Hh Hp Hc Hrel. unfold console_char, edit.
  destruct (c =? C 80).
  { eapply wp_mono; [apply wp_procdump; split; [done|rewrite Hh; set_solver]|].
    intros ? s1 H1. split; [by apply printed_typed|]. destruct H1 as (k & -> & _). done. }
  destruct (c =? C 85).
  { eapply wp_mono; [apply (wp_kill_line _ s ready line); try done; destruct Hrel; lia|].
    intros ? s1 (T & _ & R). done. }
  destruct ((c =? C 72) || (c =? 0x7f)).
  { apply wp_gets. rewrite (input_empty_line _ _ _ Hrel). destruct (decide (line = [])) as [->|Hne].
    - rewrite bool_decide_eq_true_2 by done. apply wp_intro_ret. split; [reflexivity|done].
    - rewrite bool_decide_eq_false_2 by done. cbn [negb when]. destruct (exists_last Hne) as (l & d & El).
      apply wp_modify. eapply wp_mono; [by apply wp_consputc|]. intros ? s1 (k & -> & H2 & H3 & H4). split.
      + split; [by kext|done|by left].
      + cbn [fst snd kinput update]. rewrite El, removelast_last. exact (input_erase _ _ _ Hrel d l El). }
  apply wp_gets. rewrite (input_used _ _ _ Hrel).
  destruct (Z.eqb_spec c 0) as [->|Hc0]; cbn [negb andb orb when].
  { apply wp_intro_ret. split; [reflexivity|done]. }
  rewrite Z.leb_antisym. destruct (Z.ltb_spec (Z.of_nat (length ready) + Z.of_nat (length line)) INPUT_BUF) as [Hroom|Hfull];
    cbn [negb when]; [|apply wp_intro_ret; split; [reflexivity|done]].
  set (d := if c =? 13 then 10 else c).
  assert (Hd : 0 <= d < 256) by (unfold d; destruct (c =? 13); lia).
  apply wp_modify, wp_bind. eapply wp_mono; [by apply wp_consputc|]. intros ? s1 (k & -> & H2 & H3 & H4).
  apply wp_gets. cbn [kinput update]. change (in_r (push_char d (kinput s))) with (in_r (kinput s)).
  rewrite (input_full _ ready line Hrel Hroom d).
  destruct ((d =? 10) || (d =? C 68) || _) eqn:E; cbn [when fst snd].
  - apply wp_modify. eapply wp_run; [apply wakeup_run; cbn; rewrite Hh; set_solver|]. split.
    + split; [by kext|done|by right].
    + exact (input_commit _ _ _ d Hrel Hd Hroom).
  - apply wp_intro_ret. split; [split; [by kext|done|by left]|].
    apply orb_false_iff in E as [E _]. apply orb_false_iff in E as [E _]. apply Z.eqb_neq in E.
    exact (input_push _ _ _ d Hrel Hd E Hroom).
Qed.

Lemma wp_uart_loop bytes : forall s ready line,
  held s = [LInput] -> panicked (kcons s) = false -> uart (kcons s) = true -> Forall (fun b => 0 <= b < 256) bytes ->
  input_rel (kinput s) ready line ->
  wp (consoleintr_loop (uartgetc 1) bytes) s (fun _ s' => typed s s' /\
    input_rel (kinput s') (fst (foldl edit (ready, line) bytes)) (snd (foldl edit (ready, line) bytes))).
Proof.
  induction bytes as [|b bytes IH]; intros s ready line Hh Hp Hu Hb Hrel; cbn [consoleintr_loop foldl].
  { apply wp_intro_ret. split; [reflexivity|done]. }
  apply Forall_cons in Hb as [Hb Hbs]. unfold uartgetc at 1. apply wp_bind, wp_gets. rewrite Hu. apply wp_intro_ret.
  change (negb (has 1 1)) with false. cbn [negb]. destruct (Z.ltb_spec b 0); [lia|].
  apply wp_bind. eapply wp_mono; [by apply (wp_console_char s ready line b)|]. intros ? s1 [T1 R1].
  destruct (edit (ready, line) b) as [ready1 line1]. cbn [fst snd] in R1.
  eapply wp_mono; [apply (IH s1 ready1 line1)|]; try done.
  - rewrite (ty_eq _ _ T1). done.
  - rewrite (proj1 (ty_cons _ _ T1)). done.
  - rewrite (proj2 (ty_cons _ _ T1)). done.
  - intros ? s2 [T2 R2]. split; [by etransitivity|done].
Qed.

(** C19. Console input refines a line editor.  Whatever bytes arrive on the serial line,
    [uartintr] leaves in [input] exactly what the abstract editor [edit] computes: erase
    and kill take back characters of the current line only, a newline, control-D or a
    full buffer commits the line for reading, and no committed byte is lost or
    overwritten, also when the 32-bit indices wrap. *)
Theorem uartintr_edits (s : kernel) (bytes ready line : list Z) :
  held s = [] -> panicked (kcons s) = false -> uart (kcons s) = true -> Forall (fun b => 0 <= b < 256) bytes ->
  input_rel (kinput s) ready line ->
  wp (uartintr bytes) s (fun _ s' => typed s s' /\
    input_rel (kinput s') (fst (foldl edit (ready, line) bytes)) (snd (foldl edit (ready, line) bytes))).
Proof.
  intros Hh Hp Hu Hb Hrel. unfold uartintr, consoleintr. apply wp_acquire; [rewrite Hh; set_solver|].
  apply wp_bind. eapply wp_mono; [apply (wp_uart_loop bytes _ ready line); try done; cbn; by rewrite Hh|].
  intros ? s1 [T1 R1]. eapply wp_run; [apply (release_run _ (held s)); by rewrite (ty_eq _ _ T1)|].
  split; [|done]. destruct T1 as [E C P]. split; [|done|done]. rewrite E. by kext.
Qed.

(** Typing "ls", a backspace, and return commits the line "l". *)
Lemma uartintr_edits_witness :
  wp (uartintr (str "ls" ++ [8; 13])) kernel0 (fun _ s' => typed kernel0 s' /\ input_rel (kinput s') (str "l" ++ [10]) []).
Proof.
  eapply wp_mono; [apply (uartintr_edits kernel0 (str "ls" ++ [8; 13]) [] [])|]; try reflexivity.
  - repeat constructor; vm_compute; intuition congruence.
  - split; try reflexivity; try (vm_compute; intuition congruence); set_solver.
  - intros ? s' H. exact H.
Defined.
