(* ===== verification/Fs.v ===== *)
(** Files, directories and paths, the second half of [kernel/fs.c]. *)
From S2P Require Import Prelude Types Mem Kalloc PageTable Cons Vm Shm Sched Ide Bio UserMem Inode Console.

(** ** Code *)

(** [struct stat], [include/stat.h] *)
Record stat := mkStat {
  st_type : Z; st_dev : Z; st_ino : Z; st_nlink : Z; st_size : Z; st_checksum : Z }.

Definition stati (ip : nat) : M kernel stat :=
  let! i := gets (inode_at ip) in
  let! chk := aggregate_checksum ip in
  ret (mkStat (i_type i) (i_dev i) (i_inum i) (i_nlink i) (i_size i) chk).

Definition has_read (major : Z) (s : kernel) : bool :=
  (0 <=? major) && (major <? Z.of_nat NDEV) && fst (default (false, false) (devsw s !! Z.to_nat major)).
Definition has_write (major : Z) (s : kernel) : bool :=
  (0 <=? major) && (major <? Z.of_nat NDEV) && snd (default (false, false) (devsw s !! Z.to_nat major)).

(** The loop of [readi]; [acc] is what was read so far.  On a corrupt block the buffer
    stays owned. *)
Fixpoint readi_loop (fuel : nat) (ip : nat) (dst : dest) (off n tot : Z) (acc : list Z) : M kernel (Z * list Z) :=
  match fuel with
  | O => spin
  | S fuel' =>
      if tot <? n then
        let! i := gets (inode_at ip) in
        let! addr := bmap ip (off / BSIZE) in
        let! bp := bread (i_dev i) (real_addr addr (i_type i)) in
        let! l := data_of bp in
        if (i_type i =? T_CHECKED) && negb (vrfy_checksum l (get_checksum addr)) then ret (-1, acc)
        else
          let m := Z.min (n - tot) (BSIZE - off mod BSIZE) in
          store_to dst tot (slice l (off mod BSIZE) m) ;;
          brelse bp ;;
          readi_loop fuel' ip dst (off + m) n (tot + m) (acc ++ slice l (off mod BSIZE) m)
      else ret (s32 n, acc)
  end.

Definition rw_fuel (n : Z) : nat := S (S (Z.to_nat (n / BSIZE + 1))).

Definition readi (ip : nat) (dst : dest) (off n : Z) : M kernel (Z * list Z) :=
  let! i := gets (inode_at ip) in
  if i_type i =? T_DEV then
    let! ok := gets (has_read (i_major i)) in
    if negb ok then ret (-1, []) else consoleread ip dst (s32 n)
  else if (i_size i <? off) || (u32 (off + n) <? off) then ret (-1, [])
  else
    let n := if i_size i <? off + n then i_size i - off else n in
    readi_loop (rw_fuel n) ip dst off n 0 [].

Fixpoint writei_loop (fuel : nat) (ip : nat) (src : source) (off n tot : Z) : M kernel Z :=
  match fuel with
  | O => spin
  | S fuel' =>
      if tot <? n then
        let! i := gets (inode_at ip) in
        let! addr := bmap ip (off / BSIZE) in
        let! bp := bread (i_dev i) addr in
        let m := Z.min (n - tot) (BSIZE - off mod BSIZE) in
        let! w := load_from src tot m in
        let! l := data_of bp in
        let l := splice l (off mod BSIZE) w in
        set_data bp l ;;
        bwrite bp ;;
        when (i_type i =? T_CHECKED)
          (let! r := set_checksum ip (off / BSIZE) (gen_checksum l) in
           when (r <? 0) (cprintf "writei: set checksum failed
" [])) ;;
        brelse bp ;;
        writei_loop fuel' ip src (off + m) n (tot + m)
      else ret off
  end.

Definition writei (ip : nat) (src : source) (off n : Z) : M kernel Z :=
  let! i := gets (inode_at ip) in
  if i_type i =? T_DEV then
    let! ok := gets (has_write (i_major i)) in
    if negb ok then ret (-1) else consolewrite ip src (s32 n)
  else if (i_size i <? off) || (u32 (off + n) <? off) then ret (-1)
  else
    let n := if MAXFILE * BSIZE <? off + n then MAXFILE * BSIZE - off else n in
    let! off := writei_loop (rw_fuel n) ip src off n 0 in
    let! i := gets (inode_at ip) in
    when ((0 <? n) && (i_size i <? off))
      (upd_inode ip (fun x => x <| i_size := off |>) ;;
       iupdate ip) ;;
    ret (s32 n).

(** *** Directories *)

(** [struct dirent]: 16 bytes on disk. *)
Record dirent := mkDirent { de_inum : Z; de_name : list Z }.
Definition DIRENT : Z := 16.
Definition dirent_get (l : list Z) (o : Z) : dirent := mkDirent (get16 l o) (slice l (o + 2) (Z.of_nat DIRSIZ)).
Definition dirent_bytes (d : dirent) : list Z := le16 (de_inum d) ++ de_name d.

Definition namecmp (s t : list Z) : Z := strncmp s t DIRSIZ.

(** The inner loop of [dirlookup] over one block: offset and inode number of the entry. *)
Fixpoint dirent_find (n : nat) (o : Z) (l : list Z) (name : list Z) : option (Z * Z) :=
  match n with
  | O => None
  | S n' =>
      let de := dirent_get l o in
      if de_inum de =? 0 then dirent_find n' (o + DIRENT) l name
      else if namecmp name (de_name de) =? 0 then Some (o, de_inum de)
      else dirent_find n' (o + DIRENT) l name
  end.

Fixpoint dirlookup_loop (fuel : nat) (dp : nat) (name : list Z) (off : Z) : M kernel (option (nat * Z)) :=
  match fuel with
  | O => spin
  | S fuel' =>
      let! d := gets (inode_at dp) in
      if off <? i_size d then
        let! addr := bmap dp (off / BSIZE) in
        let! bp := bread (i_dev d) addr in
        let! l := data_of bp in
        match dirent_find (Z.to_nat (BSIZE / DIRENT)) 0 l name with
        | Some (o, inum) =>
            brelse bp ;;
            let! ip := iget (i_dev d) inum in
            ret (Some (ip, off + o))
        | None =>
            brelse bp ;;
            dirlookup_loop fuel' dp name (off + BSIZE)
        end
      else ret None
  end.

(** The inode found and the offset of its entry. *)
Definition dirlookup (dp : nat) (name : list Z) : M kernel (option (nat * Z)) :=
  let! d := gets (inode_at dp) in
  if negb (i_type d =? T_DIR) then panic "dirlookup not DIR"
  else dirlookup_loop (rw_fuel (i_size d)) dp name 0.

(** The offset of the first empty entry, or the end of the directory. *)
Fixpoint dirlink_loop (fuel : nat) (dp : nat) (off : Z) : M kernel Z :=
  match fuel with
  | O => spin
  | S fuel' =>
      let! d := gets (inode_at dp) in
      if off <? i_size d then
        let! '(r, l) := readi dp DLoc off DIRENT in
        if negb (r =? DIRENT) then panic "dirlink read"
        else if get16 l 0 =? 0 then ret off
        else dirlink_loop fuel' dp (off + DIRENT)
      else ret off
  end.

Definition dirlink (dp : nat) (name : list Z) (inum : Z) : M kernel Z :=
  let! r := dirlookup dp name in
  match r with
  | Some (ip, _) => iput ip ;; ret (-1)
  | None =>
      let! d := gets (inode_at dp) in
      let! off := dirlink_loop (S (Z.to_nat (i_size d / DIRENT + 1))) dp 0 in
      let de := mkDirent (u16 inum) (strncpy_chars name DIRSIZ) in
      let! r := writei dp (SLoc (dirent_bytes de)) off DIRENT in
      if negb (r =? DIRENT) then panic "dirlink" else ret 0
  end.

(** *** Paths *)
Fixpoint skip_slashes (path : list Z) : list Z :=
  match path with c :: path' => if c =? 47 then skip_slashes path' else path | [] => [] end.
(** The characters up to a slash or the end, and the rest. *)
Fixpoint take_elem (path : list Z) : list Z * list Z :=
  match path with
  | c :: path' =>
      if (c =? 47) || (c =? 0) then ([], path)
      else let '(s, rest) := take_elem path' in (c :: s, rest)
  | [] => ([], [])
  end.

(** [name] and the rest of the path; a path is a C string without its NUL. *)
Definition skipelem (path : list Z) : option (list Z * list Z) :=
  let path := skip_slashes path in
  if chr0 path =? 0 then None
  else
    let '(s, rest) := take_elem path in
    Some (take DIRSIZ s, skip_slashes rest).

(** Where a name lookup goes next. *)
Fixpoint namex_loop (fuel : nat) (ip : nat) (path : list Z) (nameiparent : bool) (name : list Z)
    : M kernel (option nat * list Z) :=
  match fuel with
  | O => spin
  | S fuel' =>
      match skipelem path with
      | None => if nameiparent then iput ip ;; ret (None, name) else ret (Some ip, name)
      | Some (name, path) =>
          ilock (Some ip) ;;
          let! i := gets (inode_at ip) in
          if negb (i_type i =? T_DIR) then iunlockput ip ;; ret (None, name)
          else if nameiparent && (chr0 path =? 0) then iunlock (Some ip) ;; ret (Some ip, name)
          else
            let! r := dirlookup ip name in
            match r with
            | None => iunlockput ip ;; ret (None, name)
            | Some (next, _) => iunlockput ip ;; namex_loop fuel' next path nameiparent name
            end
      end
  end.

Definition namex (path : list Z) (nameiparent : bool) : M kernel (option nat * list Z) :=
  let! ip :=
    (if chr0 path =? 47 then iget ROOTDEV ROOTINO
     else let! me := myproc in let! cwd := deref (p_cwd me) in idup cwd) in
  namex_loop (S (length path)) ip path nameiparent [].

Definition namei (path : list Z) : M kernel (option nat) :=
  let! '(r, _) := namex path false in ret r.
Definition nameiparent (path : list Z) : M kernel (option nat * list Z) := namex path true.
