(* ===== verification/FsBlocks.v ===== *)
(** The block layer of [kernel/fs.c] on top of the buffer cache: reading and writing whole
    blocks, the free bitmap ([balloc], [bfree]) and the map from file blocks to disk
    blocks ([bmap]) of a file whose blocks are allocated. *)
From S2P Require Import Prelude Types Mem Kalloc PageTable Cons Vm VmProofs VmUser VmSpec Shm Sched Ide Bio UserMem UserView Inode Console Fs.

(** ** Blocks through the cache *)

(** The cache between two operations of process [i], which owns the buffers [H]; a sector has
    512 bytes. *)
Record cache_ok (s : kernel) (H : list (nat * block)) (i : nat) : Prop := {
  co_bc : bc_inv s H;
  co_io : io_ok s i;
  co_sectors : forall d x, length (disk s d x) = Z.to_nat BSIZE;
  co_bytes : forall d x, Forall (fun c => 0 <= c < 256) (disk s d x) }.

Lemma length_sector s H i d x : cache_ok s H i -> length (disk s d x) = Z.to_nat BSIZE.
Proof. intros C. apply C. Qed.

Lemma iofr_set_disk s s' dk : iofr s s' -> iofr (s <| disk := dk |>) (s' <| disk := dk |>).
Proof. intros [E P]. split; [|exact P]. rewrite E at 1. by kext. Qed.

Lemma disk_put_at dk d x l : disk_put dk (d, x) l d x = l.
Proof. exact (disk_put_eq dk (d, x) l). Qed.
Lemma disk_put_ne dk k l d x : (d, x) <> k -> disk_put dk k l d x = dk d x.
Proof.
  destruct k as [d' x']. intros Hne. unfold disk_put. cbn. destruct (Z.eqb_spec d d') as [->|]; [|done].
  destruct (Z.eqb_spec x x') as [->|]; done.
Qed.

Section blocks.
Context (i : nat).

Lemma wpe_read s H dev sector (Q : nat -> kernel -> Prop) :
  cache_ok s H i -> on_disk dev sector -> (length H < NBUF)%nat ->
  (forall c k, (c, k) ∈ H -> fst k <> (dev, sector)) ->
  (forall b s', cache_ok s' ((b, (dev, sector, disk s dev sector)) :: H) i -> iofr s s' -> Q b s') ->
  wpe disk_env (bread dev sector) s Q.
Proof.
  intros [C1 C2 C3 C4] Hon Hlen Hno HQ. apply (wpe_bread s H i); try done. intros b s' I1 O1 F1. apply HQ; [|done].
  split; [done|done|..]; intros d x; by rewrite (iofr_disk _ _ F1).
Qed.

Lemma wpe_data {A} s H b dev sector l (f : list Z -> M kernel A) Q :
  cache_ok s ((b, (dev, sector, l)) :: H) i -> wpe disk_env (f l) s Q -> wpe disk_env (bind (data_of b) f) s Q.
Proof.
  intros [C1 _ _ _] HQ. unfold data_of. apply wpe_gets.
  destruct (bc_own _ _ C1 b _ ltac:(by left)) as [_ (bf & Hbf & [= _ _ El] & _)].
  by rewrite (buf_at_eq s b bf Hbf), <- El.
Qed.

Lemma wpe_store {A} s H b dev sector l l' (k : M kernel A) Q :
  cache_ok s ((b, (dev, sector, l)) :: H) i -> length l' = Z.to_nat BSIZE -> Forall (fun c => 0 <= c < 256) l' ->
  (forall s', cache_ok s' ((b, (dev, sector, l')) :: H) i ->
     iofr (s <| disk := disk_put (disk s) (dev, sector) l' |>) s' -> disk s' = disk_put (disk s) (dev, sector) l' ->
     wpe disk_env k s' Q) ->
  wpe disk_env (set_data b l' ;; bwrite b ;; k) s Q.
Proof.
  intros [C1 C2 C3 C4] Hl Hb HQ. unfold set_data, upd_buf. apply wpe_modify, wpe_bind. eapply wpe_bwrite.
  { eapply bc_set_data. exact C1. } { by apply io_ok_data. }
  intros s' I1 O1 F1. pose proof (iofr_disk _ _ F1) as D1. cbn in D1. apply HQ.
  - split; [done|done|..]; intros d x; rewrite D1; unfold disk_put; cbn; destruct (_ && _); done.
  - etransitivity; [|exact F1]. split; [by kext|]. cbn. apply iofr_preorder.
  - done.
Qed.

Lemma wpe_release {A} s H b dev sector (k : M kernel A) Q :
  cache_ok s ((b, (dev, sector, disk s dev sector)) :: H) i ->
  (forall s', cache_ok s' H i -> iofr s s' -> wpe disk_env k s' Q) -> wpe disk_env (brelse b ;; k) s Q.
Proof.
  intros [C1 C2 C3 C4] HQ. apply wpe_bind, wp_wpe. eapply (wp_brelse s H i); [exact C1|done|]. intros s' I1 O1 F1.
  apply HQ; [|done]. split; [done|done|..]; intros d x; by rewrite (iofr_disk _ _ F1).
Qed.

Lemma wpe_release_last s H b dev sector (Q : unit -> kernel -> Prop) :
  cache_ok s ((b, (dev, sector, disk s dev sector)) :: H) i ->
  (forall s', cache_ok s' H i -> iofr s s' -> Q tt s') -> wpe disk_env (brelse b) s Q.
Proof.
  intros [C1 C2 C3 C4] HQ. apply wp_wpe. eapply (wp_brelse s H i); [exact C1|done|]. intros s' I1 O1 F1.
  apply HQ; [|done]. split; [done|done|..]; intros d x; by rewrite (iofr_disk _ _ F1).
Qed.

(** ** The superblock and the bitmap *)
Definition sb_of (s : kernel) (dev : Z) : superblock :=
  let l := disk s dev 1 in mkSb (get32 l 0) (get32 l 4) (get32 l 8).

Lemma wpe_readsb {A} s H dev (f : superblock -> M kernel A) Q :
  cache_ok s H i -> 0 <= dev <= 1 -> (length H < NBUF)%nat -> (forall c k, (c, k) ∈ H -> fst k <> (dev, 1)) ->
  (forall s', cache_ok s' H i -> iofr s s' -> wpe disk_env (f (sb_of s dev)) s' Q) ->
  wpe disk_env (bind (readsb dev) f) s Q.
Proof.
  intros C Hd Hlen Hno HQ. apply wpe_bind. unfold readsb. apply wpe_bind.
  apply (wpe_read s H dev 1); [done|split; lia|done|done|]. intros b s1 C1 F1. eapply wpe_data; [exact C1|].
  pose proof (iofr_disk _ _ F1) as D1. eapply wpe_release; [rewrite D1; exact C1|]. intros s2 C2 F2. apply wpe_ret.
  apply HQ; [done|by transitivity s1].
Qed.

(** *** Bits of a block *)
Lemma log2_lt x k : 0 < k -> 0 <= x < 2 ^ k -> Z.log2 x < k.
Proof. intros Hk Hx. destruct (Z.eq_dec x 0) as [->|]; [cbn; lia|]. apply Z.log2_lt_pow2; lia. Qed.
Lemma lor_bound k x y : 0 < k -> 0 <= x < 2 ^ k -> 0 <= y < 2 ^ k -> 0 <= Z.lor x y < 2 ^ k.
Proof.
  intros Hk Hx Hy. assert (0 <= Z.lor x y) by (apply Z.lor_nonneg; lia). split; [done|].
  destruct (Z.eq_dec (Z.lor x y) 0) as [->|]; [apply Z.pow_pos_nonneg; lia|].
  apply Z.log2_lt_pow2; [lia|]. rewrite Z.log2_lor by lia. pose proof (log2_lt x k Hk Hx). pose proof (log2_lt y k Hk Hy). lia.
Qed.
Lemma has_mask x bi : 0 <= bi -> has x (bit_mask bi) = Z.testbit x (bi mod 8).
Proof.
  intros Hb. unfold bit_mask. rewrite Z.shiftl_1_l. apply has_bit. apply Z.mod_pos_bound. lia.
Qed.
Lemma bit_set_spec l bi bj : 0 <= bi < BPB -> 0 <= bj < BPB -> length l = Z.to_nat BSIZE ->
  bit_is_set (set_bit l bi) bj = (bj =? bi) || bit_is_set l bj.
Proof.
  intros Hi Hj Hl. unfold bit_is_set, set_bit, byte_at. unfold BPB, BSIZE in *.
  assert (Hbi : 0 <= bi / 8 < 512) by (Z.div_mod_to_equations; lia).
  assert (Hbj : 0 <= bj / 8 < 512) by (Z.div_mod_to_equations; lia). rewrite !has_mask by lia.
  destruct (Z.eq_dec (bj / 8) (bi / 8)) as [E|E].
  - rewrite E, list_lookup_insert_eq by lia. cbn. rewrite Z.lor_spec. unfold bit_mask. rewrite Z.shiftl_1_l, orb_comm.
    f_equal. rewrite Z.pow2_bits_eqb by (apply Z.mod_pos_bound; lia).
    destruct (Z.eqb_spec (bi mod 8) (bj mod 8)), (Z.eqb_spec bj bi); try done; subst; try done.
    exfalso. Z.div_mod_to_equations; lia.
  - rewrite list_lookup_insert_ne by lia. destruct (Z.eqb_spec bj bi) as [->|]; done.
Qed.
Lemma bit_clear_spec l bi bj : 0 <= bi < BPB -> 0 <= bj < BPB -> length l = Z.to_nat BSIZE ->
  bit_is_set (clear_bit l bi) bj = negb (bj =? bi) && bit_is_set l bj.
Proof.
  intros Hi Hj Hl. unfold bit_is_set, clear_bit, byte_at. unfold BPB, BSIZE in *.
  assert (Hbi : 0 <= bi / 8 < 512) by (Z.div_mod_to_equations; lia).
  assert (Hbj : 0 <= bj / 8 < 512) by (Z.div_mod_to_equations; lia). rewrite !has_mask by lia.
  destruct (Z.eq_dec (bj / 8) (bi / 8)) as [E|E].
  - rewrite E, list_lookup_insert_eq by lia. cbn. rewrite Z.ldiff_spec. unfold bit_mask. rewrite Z.shiftl_1_l, andb_comm.
    f_equal. rewrite Z.pow2_bits_eqb by (apply Z.mod_pos_bound; lia). f_equal.
    destruct (Z.eqb_spec (bi mod 8) (bj mod 8)), (Z.eqb_spec bj bi); try done; subst; try done.
    exfalso. Z.div_mod_to_equations; lia.
  - rewrite list_lookup_insert_ne by lia. destruct (Z.eqb_spec bj bi) as [->|]; done.
Qed.
Lemma set_bit_block l bi : 0 <= bi < BPB -> length l = Z.to_nat BSIZE -> Forall (fun c => 0 <= c < 256) l ->
  length (set_bit l bi) = Z.to_nat BSIZE /\ Forall (fun c => 0 <= c < 256) (set_bit l bi).
Proof.
  intros Hi Hl Hb. split; [by unfold set_bit; rewrite length_insert|]. apply Forall_insert; [done|].
  change 256 with (2 ^ 8). apply lor_bound; [lia| |].
  - unfold byte_at. destruct (l !! _) as [c|] eqn:E; cbn; [|lia]. rewrite Forall_lookup in Hb. by eapply Hb.
  - unfold bit_mask. rewrite Z.shiftl_1_l. pose proof (Z.mod_pos_bound bi 8 ltac:(lia)).
    split; [lia|]. apply Z.pow_lt_mono_r; lia.
Qed.

Lemma clear_bit_block l bi : length l = Z.to_nat BSIZE -> Forall (fun c => 0 <= c < 256) l ->
  length (clear_bit l bi) = Z.to_nat BSIZE /\ Forall (fun c => 0 <= c < 256) (clear_bit l bi).
Proof.
  intros Hl Hb. split; [by unfold clear_bit; rewrite length_insert|]. apply Forall_insert; [done|].
  assert (Hx : 0 <= byte_at l (bi / 8) < 256).
  { unfold byte_at. destruct (l !! _) as [c|] eqn:E; cbn; [|lia]. rewrite Forall_lookup in Hb. by eapply Hb. }
  assert (0 <= Z.ldiff (byte_at l (bi / 8)) (bit_mask bi)) by (apply Z.ldiff_nonneg; lia).
  split; [done|]. apply Z.le_lt_trans with (byte_at l (bi / 8)); [|lia].
  apply (Z.ldiff_le _ (byte_at l (bi / 8))); [lia|]. apply Z.bits_inj'. intros k Hk. rewrite !Z.ldiff_spec, Z.bits_0.
  by destruct (Z.testbit (byte_at l (bi / 8)) k), (Z.testbit (bit_mask bi) k).
Qed.

Lemma free_bit_first n : forall bi l r, bi <= r < bi + Z.of_nat n -> bit_is_set l r = false ->
  (forall j, bi <= j < r -> bit_is_set l j = true) -> free_bit n bi l = Some r.
Proof.
  induction n as [|n IH]; intros bi l r Hr Hf Hs; cbn [free_bit]; [lia|]. destruct (Z.eq_dec bi r) as [->|]; [by rewrite Hf|].
  rewrite Hs by lia. apply IH; [lia|done|]. intros j Hj. apply Hs. lia.
Qed.
Lemma free_bit_none n : forall bi l, (forall j, bi <= j < bi + Z.of_nat n -> bit_is_set l j = true) -> free_bit n bi l = None.
Proof.
  induction n as [|n IH]; intros bi l Hs; cbn [free_bit]; [done|]. rewrite Hs by lia. apply IH. intros j Hj. apply Hs. lia.
Qed.

Lemma filter_ext_in {A} (P Q : A -> Prop) `{!forall x, Decision (P x)} `{!forall x, Decision (Q x)} (l : list A) :
  (forall x, x ∈ l -> P x <-> Q x) -> filter P l = filter Q l.
Proof.
  induction l as [|x l IH]; intros E; [done|]. assert (Ex : P x <-> Q x) by (apply E; left).
  rewrite !filter_cons. rewrite IH by (intros y Hy; apply E; by right). by destruct (decide (P x)), (decide (Q x)); try tauto.
Qed.

(** ** The file system on a disk *)

(** The bitmap block of block [b], whether [b] is in use, and the first block after the
    bitmap. *)
Definition bitmap (sb : superblock) (b : Z) : Z := BBLOCK b (sb_ninodes sb).
Definition used (s : kernel) (dev b : Z) : bool :=
  bit_is_set (disk s dev (bitmap (sb_of s dev) b)) (b mod BPB).
Definition data_start (sb : superblock) : Z := bitmap sb (sb_size sb) + 1.

(** The superblock describes a disk on which the blocks up to the bitmap are in use and the free
    blocks are zero. *)
Record fs_ok (s : kernel) (dev : Z) : Prop := {
  fo_dev : 0 <= dev <= 1;
  fo_inodes : 0 <= sb_ninodes (sb_of s dev);
  fo_size : data_start (sb_of s dev) <= sb_size (sb_of s dev) <= 2 ^ 27;
  fo_meta : forall b, 0 <= b < data_start (sb_of s dev) -> used s dev b = true;
  fo_zero : forall b, 0 <= b < sb_size (sb_of s dev) -> used s dev b = false ->
    disk s dev b = replicate (Z.to_nat BSIZE) 0 }.

(** The free blocks, in order. *)
Definition frees (s : kernel) (dev : Z) : list Z :=
  filter (fun b => used s dev b = false) (seqZ 0 (sb_size (sb_of s dev))).

(** The owned buffers hold data blocks. *)
Definition data_only (H : list (nat * block)) (dev : Z) (sb : superblock) : Prop :=
  forall c k, (c, k) ∈ H -> fst (fst k) = dev -> data_start sb <= snd (fst k).

Lemma fs_size_pos s dev : fs_ok s dev -> 0 <= sb_size (sb_of s dev).
Proof.
  intros [_ HN [Hs _] _ _]. unfold data_start, bitmap, BBLOCK in Hs. change BPB with 4096 in Hs. change IPB with 8 in Hs.
  Z.div_mod_to_equations; lia.
Qed.
Lemma bitmap_range s dev b : fs_ok s dev -> 0 <= b <= sb_size (sb_of s dev) ->
  3 <= bitmap (sb_of s dev) b < data_start (sb_of s dev).
Proof.
  intros [_ HN _ _ _] Hb. unfold data_start, bitmap, BBLOCK. change BPB with 4096. change IPB with 8.
  Z.div_mod_to_equations; lia.
Qed.
Lemma bitmap_same sb b c : bitmap sb b = bitmap sb c <-> b / BPB = c / BPB.
Proof. unfold bitmap, BBLOCK. lia. Qed.
Lemma data_only_ne H dev sb x : data_only H dev sb -> x < data_start sb -> forall c k, (c, k) ∈ H -> fst k <> (dev, x).
Proof. intros HD Hx c [[d y] l] Hin [= -> ->]. specialize (HD _ _ Hin eq_refl). cbn in HD. lia. Qed.
Lemma data_only_nil dev sb : data_only [] dev sb.
Proof. by intros c k Hin%elem_of_nil. Qed.

(** What the superblock and the bitmap determine. *)
Lemma bitmap_mono sb b c : b <= c -> bitmap sb b <= bitmap sb c.
Proof. intros H. unfold bitmap, BBLOCK. pose proof (Z.div_le_mono b c BPB eq_refl H). lia. Qed.

Definition same_meta (s s' : kernel) (dev : Z) : Prop :=
  forall x, x = 1 \/ bitmap (sb_of s dev) 0 <= x < data_start (sb_of s dev) -> disk s' dev x = disk s dev x.

Lemma meta_same_at s s' dev : fs_ok s dev -> same_meta s s' dev ->
  sb_of s' dev = sb_of s dev /\ (forall b, 0 <= b <= sb_size (sb_of s dev) -> used s' dev b = used s dev b) /\
  frees s' dev = frees s dev.
Proof.
  intros F E. assert (Esb : sb_of s' dev = sb_of s dev) by (unfold sb_of at 1; by rewrite E by (by left)).
  assert (Eu : forall b, 0 <= b <= sb_size (sb_of s dev) -> used s' dev b = used s dev b).
  { intros b Hb. unfold used. rewrite Esb. pose proof (bitmap_range s dev b F Hb). pose proof (bitmap_mono (sb_of s dev) 0 b).
    by rewrite E by (right; lia). }
  split_and!; [done|done|]. unfold frees. rewrite Esb. apply filter_ext_in. intros b Hb%elem_of_seqZ. by rewrite Eu by lia.
Qed.
Lemma fs_ok_same_at s s' dev : fs_ok s dev -> same_meta s s' dev ->
  (forall x, 0 <= x < sb_size (sb_of s dev) -> used s dev x = false -> disk s' dev x = disk s dev x) -> fs_ok s' dev.
Proof.
  intros F E Ez. destruct (meta_same_at s s' dev F E) as (Esb & Eu & _). destruct F as [F1 F2 F3 F4 F5].
  split; rewrite ?Esb; try done.
  - intros b Hb. rewrite Eu by lia. by apply F4.
  - intros b Hb Hf. rewrite Eu in Hf by lia. rewrite Ez by done. by apply F5.
Qed.

Lemma same_meta_all s s' dev : fs_ok s dev ->
  (forall x, 0 <= x < data_start (sb_of s dev) -> disk s' dev x = disk s dev x) -> same_meta s s' dev.
Proof.
  intros F E x Hx. pose proof (fs_size_pos _ _ F). pose proof (bitmap_range s dev 0 F ltac:(lia)). apply E. lia.
Qed.
Lemma meta_same s s' dev : fs_ok s dev ->
  (forall x, 0 <= x < data_start (sb_of s dev) -> disk s' dev x = disk s dev x) ->
  sb_of s' dev = sb_of s dev /\ (forall b, 0 <= b <= sb_size (sb_of s dev) -> used s' dev b = used s dev b) /\
  frees s' dev = frees s dev.
Proof. intros F E. apply meta_same_at; [done|]. by apply same_meta_all. Qed.
Lemma fs_ok_same s s' dev : fs_ok s dev ->
  (forall x, 0 <= x < data_start (sb_of s dev) -> disk s' dev x = disk s dev x) ->
  (forall x, 0 <= x < sb_size (sb_of s dev) -> used s dev x = false -> disk s' dev x = disk s dev x) -> fs_ok s' dev.
Proof. intros F E Ez. apply (fs_ok_same_at s); [done| |done]. by apply same_meta_all. Qed.

(** ** Allocating a block *)

(** The disk when the bit of [b] has been set in the bitmap. *)
Definition marked (s : kernel) (dev b : Z) : Z -> Z -> list Z :=
  disk_put (disk s) (dev, bitmap (sb_of s dev) b) (set_bit (disk s dev (bitmap (sb_of s dev) b)) (b mod BPB)).

Lemma filter_seqZ_head (P : Z -> Prop) `{!forall x, Decision (P x)} n : forall a r fr,
  filter P (seqZ a (Z.of_nat n)) = r :: fr ->
  a <= r < a + Z.of_nat n /\ P r /\ (forall c, a <= c < r -> ~ P c) /\ fr = filter P (seqZ (r + 1) (a + Z.of_nat n - r - 1)).
Proof.
  induction n as [|n IH]; intros a r fr; [done|]. rewrite seqZ_cons by lia. replace (Z.pred (Z.of_nat (S n))) with (Z.of_nat n) by lia.
  destruct (decide (P a)) as [Pa|Pa].
  - rewrite filter_cons_True by done. intros [= -> <-]. split_and!; [lia|lia|done|lia|]. do 2 f_equal; lia.
  - rewrite filter_cons_False by done. intros (H1 & H2 & H3 & H4)%IH. split_and!; [lia|lia|done|..].
    + intros c Hc. destruct (Z.eq_dec c a) as [->|]; [done|]. apply H3. lia.
    + rewrite H4. do 2 f_equal. lia.
Qed.
Lemma filter_seqZ_skip (P : Z -> Prop) `{!forall x, Decision (P x)} n : forall a r,
  a <= r < a + Z.of_nat n -> (forall c, a <= c <= r -> ~ P c) ->
  filter P (seqZ a (Z.of_nat n)) = filter P (seqZ (r + 1) (a + Z.of_nat n - r - 1)).
Proof.
  induction n as [|n IH]; intros a r Hr HP; [lia|]. rewrite seqZ_cons by lia. rewrite filter_cons_False by (apply HP; lia).
  replace (Z.pred (Z.of_nat (S n))) with (Z.of_nat n) by lia. destruct (Z.eq_dec a r) as [->|].
  - do 2 f_equal; lia.
  - replace (Z.succ a) with (a + 1) by lia. rewrite (IH _ r) by (lia || (intros c Hc; apply HP; lia)). do 2 f_equal. lia.
Qed.

Lemma frees_head s dev r fr : frees s dev = r :: fr ->
  0 <= r < sb_size (sb_of s dev) /\ used s dev r = false /\ (forall c, 0 <= c < r -> used s dev c = true) /\
  fr = filter (fun b => used s dev b = false) (seqZ (r + 1) (sb_size (sb_of s dev) - r - 1)).
Proof.
  unfold frees. destruct (Z.le_gt_cases (sb_size (sb_of s dev)) 0) as [Hle|Hgt]; [by rewrite seqZ_nil by lia|].
  rewrite <- (Z2Nat.id (sb_size (sb_of s dev))) by lia. intros (H1 & H2 & H3 & H4)%filter_seqZ_head.
  split_and!; [lia|lia|done| |done]. intros c Hc. specialize (H3 c Hc). by destruct (used s dev c).
Qed.

Lemma marked_other s dev b d x : (d, x) <> (dev, bitmap (sb_of s dev) b) -> marked s dev b d x = disk s d x.
Proof. apply disk_put_ne. Qed.

Lemma sb_of_marked s s' dev b : fs_ok s dev -> 0 <= b <= sb_size (sb_of s dev) -> disk s' = marked s dev b ->
  sb_of s' dev = sb_of s dev.
Proof.
  intros F Hb E. unfold sb_of at 1. rewrite E. pose proof (bitmap_range s dev b F Hb). by rewrite marked_other by (intros [=]; lia).
Qed.

Lemma used_marked s s' dev b c : fs_ok s dev -> 0 <= b <= sb_size (sb_of s dev) -> 0 <= c ->
  length (disk s dev (bitmap (sb_of s dev) b)) = Z.to_nat BSIZE ->
  disk s' = marked s dev b -> used s' dev c = (c =? b) || used s dev c.
Proof.
  intros F Hb Hc Hl E. unfold used. rewrite (sb_of_marked s s' dev b F Hb E), E.
  destruct (Z.eq_dec (bitmap (sb_of s dev) c) (bitmap (sb_of s dev) b)) as [Eb|Eb].
  - rewrite Eb. unfold marked. rewrite disk_put_at, bit_set_spec by (done || apply Z.mod_pos_bound; done).
    apply bitmap_same in Eb. f_equal. unfold BPB, BSIZE in *.
    destruct (Z.eqb_spec (c mod (512 * 8)) (b mod (512 * 8))), (Z.eqb_spec c b); try done; exfalso;
      subst; try done; Z.div_mod_to_equations; lia.
  - rewrite marked_other by (intros [=]; lia). destruct (Z.eqb_spec c b) as [->|]; done.
Qed.

(** Marking the first free block takes it off the list of free blocks. *)
Lemma fs_ok_marked s s' dev r fr : fs_ok s dev -> (forall d x, length (disk s d x) = Z.to_nat BSIZE) ->
  frees s dev = r :: fr -> disk s' = marked s dev r ->
  fs_ok s' dev /\ frees s' dev = fr /\ sb_of s' dev = sb_of s dev /\ data_start (sb_of s dev) <= r < sb_size (sb_of s dev) /\
  (forall b, 0 <= b -> used s' dev b = (b =? r) || used s dev b) /\
  (forall x, data_start (sb_of s dev) <= x -> disk s' dev x = disk s dev x).
Proof.
  intros F Hl E D. apply frees_head in E as (Hr & Hur & Hlow & ->).
  assert (Esb : sb_of s' dev = sb_of s dev) by (eapply sb_of_marked; [done| |done]; lia).
  assert (Eu : forall b, 0 <= b -> used s' dev b = (b =? r) || used s dev b).
  { intros b Hb. eapply used_marked; try done; lia. }
  assert (Hst : data_start (sb_of s dev) <= r).
  { destruct (Z.le_gt_cases (data_start (sb_of s dev)) r); [done|]. rewrite (fo_meta _ _ F) in Hur by lia. done. }
  assert (Ed : forall x, data_start (sb_of s dev) <= x -> disk s' dev x = disk s dev x).
  { intros x Hx. rewrite D. apply marked_other. intros [= ->]. pose proof (bitmap_range s dev r F ltac:(lia)). lia. }
  split_and!; [|..]; try done; try lia.
  - destruct F as [F1 F2 F3 F4 F5]. split; rewrite ?Esb; try done.
    + intros b Hb. rewrite Eu, F4 by lia. apply orb_true_r.
    + intros b Hb Hf. rewrite Eu in Hf by lia. apply orb_false_iff in Hf as [_ Hf]. rewrite Ed; [by apply F5|].
      destruct (Z.le_gt_cases (data_start (sb_of s dev)) b); [done|]. rewrite F4 in Hf by lia. done.
  - unfold frees. rewrite Esb. rewrite <- (Z2Nat.id (sb_size (sb_of s dev))) at 1 by lia.
    rewrite (filter_seqZ_skip _ _ 0 r) by first [lia | intros c Hc; rewrite Eu by lia; destruct (Z.eqb_spec c r); [done|rewrite Hlow by lia; done]].
    rewrite Z2Nat.id, Z.add_0_l by lia. apply filter_ext_in. intros b Hb%elem_of_seqZ. rewrite Eu by lia.
    destruct (Z.eqb_spec b r); [lia|done].
Qed.

(** The bits of one bitmap block. *)
Lemma used_row s dev b c : 0 <= b -> b mod BPB = 0 -> 0 <= c < BPB ->
  bit_is_set (disk s dev (bitmap (sb_of s dev) b)) c = used s dev (b + c).
Proof.
  intros Hb Hm Hc. unfold used. rewrite (proj2 (bitmap_same _ (b + c) b)).
  - f_equal. unfold BPB, BSIZE in *. Z.div_mod_to_equations; lia.
  - unfold BPB, BSIZE in *. Z.div_mod_to_equations; lia.
Qed.

(** [r] is the first block whose bit is clear. *)
Definition first_clear (s : kernel) (dev r : Z) : Prop :=
  0 <= r /\ used s dev r = false /\ (forall c, 0 <= c < r -> used s dev c = true) /\ r / BPB * BPB < sb_size (sb_of s dev).

Lemma frees_first s dev r fr : frees s dev = r :: fr -> first_clear s dev r.
Proof.
  intros (Hr & Hu & Hlow & _)%frees_head. split_and!; [lia|done|done|].
  unfold BPB, BSIZE in *. Z.div_mod_to_equations; lia.
Qed.

Lemma wpe_balloc_loop fuel : forall s H dev b r (Q : Z -> kernel -> Prop),
  cache_ok s H i -> fs_ok s dev -> (length H < NBUF)%nat -> data_only H dev (sb_of s dev) ->
  0 <= b <= r -> b mod BPB = 0 -> first_clear s dev r -> (r - b) / BPB < Z.of_nat fuel ->
  (forall s', cache_ok s' H i -> iofr (s <| disk := marked s dev r |>) s' -> Q r s') ->
  wpe disk_env (balloc_loop fuel dev b (sb_of s dev)) s Q.
Proof.
  induction fuel as [|fuel IH]; intros s H dev b r Q C F Hlen Hno Hb Hm E Hfu HQ.
  { exfalso. unfold BPB, BSIZE in *. Z.div_mod_to_equations; lia. }
  pose proof E as (Hr & Hfree & Hlow & Hrow). assert (Hbs : b < sb_size (sb_of s dev)) by (unfold BPB, BSIZE in *; Z.div_mod_to_equations; lia).
  cbn [balloc_loop]. destruct (Z.ltb_spec b (sb_size (sb_of s dev))) as [_|?]; [|lia].
  pose proof (bitmap_range s dev b F ltac:(lia)) as Hrg. pose proof (fo_size _ _ F) as Hsize. pose proof (fo_dev _ _ F) as Hd.
  fold (bitmap (sb_of s dev) b). apply wpe_bind, (wpe_read s H); [done|split; [done|lia]|done|eapply data_only_ne; [done|lia]|].
  intros bp s1 C1 F1. eapply wpe_data; [exact C1|].
  set (blk := disk s dev (bitmap (sb_of s dev) b)) in *. pose proof (iofr_disk _ _ F1) as D1.
  destruct (Z.lt_ge_cases r (b + BPB)) as [Hin|Hout].
  - rewrite (free_bit_first _ _ _ (r - b)); [|change (Z.of_nat (Z.to_nat BPB)) with BPB; lia|..].
    3: { intros j Hj. unfold blk. rewrite used_row by (done || lia). apply Hlow. lia. }
    2: { unfold blk. rewrite used_row by (done || lia). by replace (b + (r - b)) with r by lia. }
    destruct (set_bit_block blk (r - b) ltac:(lia) ltac:(apply C) ltac:(apply C)) as [L1 L2].
    eapply wpe_store; [exact C1|done|done|]. intros s2 C2 F2 D2.
    eapply wpe_release; [rewrite D2, disk_put_at; exact C2|]. intros s3 C3 F3. apply wpe_ret.
    replace (b + (r - b)) with r by lia. apply HQ; [done|]. etransitivity; [|exact F3]. rewrite D1 in F2.
    etransitivity; [|exact F2]. unfold marked. rewrite (proj2 (bitmap_same _ r b)); [|unfold BPB, BSIZE in *; Z.div_mod_to_equations; lia].
    replace (r mod BPB) with (r - b) by (unfold BPB, BSIZE in *; Z.div_mod_to_equations; lia). by apply iofr_set_disk.
  - rewrite free_bit_none.
    2: { intros j Hj. change (Z.of_nat (Z.to_nat BPB)) with BPB in Hj. unfold blk. rewrite used_row by (done || lia). apply Hlow. lia. }
    eapply wpe_release; [rewrite D1; exact C1|]. intros s2 C2 F2.
    assert (Fr : iofr s s2) by by transitivity s1. pose proof (iofr_disk _ _ Fr) as D.
    assert (Esb : sb_of s2 dev = sb_of s dev) by (unfold sb_of; by rewrite D). rewrite <- Esb.
    apply (IH s2 H dev (b + BPB) r); rewrite ?Esb; try done.
    + eapply fs_ok_same; [exact F|..]; intros; by rewrite D.
    + unfold BPB, BSIZE in *. lia.
    + unfold BPB, BSIZE in *. Z.div_mod_to_equations; lia.
    + unfold first_clear, used. rewrite Esb, D. done.
    + unfold BPB, BSIZE in *. Z.div_mod_to_equations; lia.
    + intros s' Cr Fr'. apply HQ; [done|]. unfold marked in *. rewrite Esb, D in Fr'. etransitivity; [|exact Fr']. by apply iofr_set_disk.
Qed.

Lemma wpe_balloc_first s H dev r (Q : Z -> kernel -> Prop) :
  cache_ok s H i -> fs_ok s dev -> (length H < NBUF)%nat -> data_only H dev (sb_of s dev) -> first_clear s dev r ->
  (forall s', cache_ok s' H i -> iofr (s <| disk := marked s dev r |>) s' -> Q r s') ->
  wpe disk_env (balloc dev) s Q.
Proof.
  intros C F Hlen Hno E HQ. unfold balloc. pose proof (fo_dev _ _ F) as Hd.
  pose proof (bitmap_range s dev 0 F ltac:(pose proof (fs_size_pos _ _ F); lia)) as Hrg.
  apply (wpe_readsb s H); [done|done|done|eapply data_only_ne; [done|lia]|]. intros s1 C1 F1.
  pose proof (iofr_disk _ _ F1) as D. assert (Esb : sb_of s1 dev = sb_of s dev) by (unfold sb_of; by rewrite D).
  pose proof E as (Hr & _ & _ & Hrow). rewrite <- Esb. apply (wpe_balloc_loop _ s1 H dev 0 r); rewrite ?Esb; try done.
  - eapply fs_ok_same; [exact F|..]; intros; by rewrite D.
  - unfold first_clear, used. rewrite Esb, D. done.
  - rewrite Z.sub_0_r. pose proof (Z.div_pos r BPB ltac:(lia) eq_refl).
    pose proof (Z.div_le_mono (r / BPB * BPB) (sb_size (sb_of s dev)) BPB eq_refl ltac:(lia)) as Hle. rewrite Z.div_mul in Hle by done. lia.
  - intros s' C' F'. apply HQ; [done|]. unfold marked in *. rewrite Esb, D in F'. etransitivity; [|exact F']. by apply iofr_set_disk.
Qed.

Lemma wpe_balloc s H dev r fr (Q : Z -> kernel -> Prop) :
  cache_ok s H i -> fs_ok s dev -> (length H < NBUF)%nat -> data_only H dev (sb_of s dev) -> frees s dev = r :: fr ->
  (forall s', cache_ok s' H i -> iofr (s <| disk := marked s dev r |>) s' -> Q r s') ->
  wpe disk_env (balloc dev) s Q.
Proof. intros C F Hlen Hno E. apply wpe_balloc_first; try done. by eapply frees_first. Qed.

(** ** Freeing a block *)
Definition freed (s : kernel) (dev b : Z) : Z -> Z -> list Z :=
  disk_put (disk_put (disk s) (dev, b) (replicate (Z.to_nat BSIZE) 0))
    (dev, bitmap (sb_of s dev) b) (clear_bit (disk s dev (bitmap (sb_of s dev) b)) (b mod BPB)).

Lemma freed_other s dev b d x : (d, x) <> (dev, bitmap (sb_of s dev) b) -> (d, x) <> (dev, b) -> freed s dev b d x = disk s d x.
Proof. intros H1 H2. unfold freed. by rewrite !disk_put_ne. Qed.

Lemma bzero_block : length (replicate (Z.to_nat BSIZE) 0) = Z.to_nat BSIZE /\
  Forall (fun c => 0 <= c < 256) (replicate (Z.to_nat BSIZE) 0).
Proof. split; [by rewrite length_replicate|]. apply Forall_replicate. lia. Qed.

Lemma wpe_bzero {A} s H dev b (k : M kernel A) Q : cache_ok s H i -> on_disk dev b -> (length H < NBUF)%nat ->
  (forall c kb, (c, kb) ∈ H -> fst kb <> (dev, b)) ->
  (forall s', cache_ok s' H i -> iofr (s <| disk := disk_put (disk s) (dev, b) (replicate (Z.to_nat BSIZE) 0) |>) s' ->
     wpe disk_env k s' Q) ->
  wpe disk_env (bzero dev b ;; k) s Q.
Proof.
  intros C Hon Hlen Hno HQ. destruct bzero_block as [L1 L2]. apply wpe_bind. unfold bzero. apply wpe_bind, (wpe_read s H); try done.
  intros bp s1 C1 F1. eapply wpe_store; [exact C1|done|done|]. intros s2 C2 F2 D2.
  eapply wpe_release_last; [rewrite D2, disk_put_at; exact C2|]. intros s3 C3 F3. apply HQ; [done|].
  etransitivity; [|exact F3]. rewrite (iofr_disk _ _ F1) in F2. etransitivity; [|exact F2]. by apply iofr_set_disk.
Qed.

Lemma wpe_bfree s H dev b (Q : unit -> kernel -> Prop) :
  cache_ok s H i -> fs_ok s dev -> (length H < NBUF)%nat -> data_only H dev (sb_of s dev) ->
  data_start (sb_of s dev) <= b < sb_size (sb_of s dev) -> used s dev b = true ->
  (forall c k, (c, k) ∈ H -> fst k <> (dev, b)) ->
  (forall s', cache_ok s' H i -> iofr (s <| disk := freed s dev b |>) s' -> Q tt s') ->
  wpe disk_env (bfree dev b) s Q.
Proof.
  intros C F Hlen Hno Hb Hu HnoB HQ. pose proof (fo_dev _ _ F) as Hd. pose proof (fo_size _ _ F) as Hsz.
  pose proof (fs_size_pos _ _ F) as Hpos. pose proof (bitmap_range s dev 0 F ltac:(lia)) as Hr0.
  pose proof (bitmap_range s dev b F ltac:(lia)) as Hrb.
  unfold bfree. apply (wpe_bzero s H); [done|split; lia|done|done|]. intros s1 C1 F1.
  pose proof (iofr_disk _ _ F1) as D1. cbn in D1.
  destruct (meta_same s s1 dev F) as (Esb & Eu & _); [intros x Hx; rewrite D1; apply disk_put_ne; intros [=]; lia|].
  apply (wpe_readsb s1 H); [done|done|done|eapply data_only_ne; [done|lia]|]. intros s2 C2 F2. rewrite Esb.
  pose proof (iofr_disk _ _ F2) as D2. fold (bitmap (sb_of s dev) b).
  apply wpe_bind, (wpe_read s2 H); [done|split; lia|done|eapply data_only_ne; [done|lia]|]. intros bp s3 C3 F3.
  eapply wpe_data; [exact C3|]. pose proof (iofr_disk _ _ F3) as D3. rewrite D2, D1, disk_put_ne in * by (intros [=]; lia).
  fold (used s dev b). rewrite Hu. cbn [negb].
  destruct (clear_bit_block (disk s dev (bitmap (sb_of s dev) b)) (b mod BPB) ltac:(apply C) ltac:(apply C)) as [L1 L2].
  eapply wpe_store; [exact C3|done|done|]. intros s4 C4 F4 D4.
  eapply wpe_release_last; [rewrite D4, disk_put_at; exact C4|]. intros s5 C5 F5. apply HQ; [done|].
  etransitivity; [|exact F5]. rewrite D3 in F4. etransitivity; [|exact F4]. unfold freed.
  assert (F13 : iofr (s <| disk := disk_put (disk s) (dev, b) (replicate (Z.to_nat BSIZE) 0) |>) s3) by by rewrite F1, F2, F3.
  exact (iofr_set_disk _ _ _ F13).
Qed.

Lemma used_freed s s' dev b c : fs_ok s dev -> data_start (sb_of s dev) <= b < sb_size (sb_of s dev) ->
  0 <= c <= sb_size (sb_of s dev) ->
  length (disk s dev (bitmap (sb_of s dev) b)) = Z.to_nat BSIZE -> disk s' = freed s dev b ->
  sb_of s' dev = sb_of s dev /\ used s' dev c = negb (c =? b) && used s dev c.
Proof.
  intros F Hb Hc Hl E. pose proof (fs_size_pos _ _ F) as Hpos. pose proof (bitmap_range s dev b F ltac:(pose proof (bitmap_range s dev 0 F); lia)) as Hrb.
  pose proof (bitmap_range s dev c F Hc) as Hrc.
  assert (Esb : sb_of s' dev = sb_of s dev).
  { unfold sb_of at 1. rewrite E. by rewrite freed_other by (intros [=]; lia). }
  split; [done|]. unfold used. rewrite Esb, E. destruct (Z.eq_dec (bitmap (sb_of s dev) c) (bitmap (sb_of s dev) b)) as [Eb|Eb].
  - rewrite Eb. unfold freed. rewrite disk_put_at, bit_clear_spec by (done || apply Z.mod_pos_bound; done).
    apply bitmap_same in Eb. f_equal. f_equal. unfold BPB, BSIZE in *.
    destruct (Z.eqb_spec (c mod (512 * 8)) (b mod (512 * 8))), (Z.eqb_spec c b); try done; exfalso;
      subst; try done; Z.div_mod_to_equations; lia.
  - rewrite freed_other by (intros [=]; lia). destruct (Z.eqb_spec c b) as [->|]; done.
Qed.

(** A freed block goes on the list of free blocks. *)
Lemma fs_ok_freed s s' dev b : fs_ok s dev -> (forall d x, length (disk s d x) = Z.to_nat BSIZE) ->
  data_start (sb_of s dev) <= b < sb_size (sb_of s dev) -> used s dev b = true -> disk s' = freed s dev b ->
  fs_ok s' dev /\ frees s' dev ≡ₚ b :: frees s dev /\ sb_of s' dev = sb_of s dev /\
  (forall c, 0 <= c <= sb_size (sb_of s dev) -> used s' dev c = negb (c =? b) && used s dev c) /\
  (forall x, data_start (sb_of s dev) <= x -> x <> b -> disk s' dev x = disk s dev x).
Proof.
  intros F Hl Hb Hu E. pose proof (fs_size_pos _ _ F) as Hpos. pose proof (bitmap_range s dev 0 F ltac:(lia)) as Hr0.
  pose proof (bitmap_range s dev b F ltac:(lia)) as Hrb.
  destruct (used_freed s s' dev b 0 F Hb ltac:(lia) (Hl _ _) E) as [Esb _].
  assert (Eu : forall c, 0 <= c <= sb_size (sb_of s dev) -> used s' dev c = negb (c =? b) && used s dev c).
  { intros c Hc. apply (used_freed s s' dev b c F Hb Hc (Hl _ _) E). }
  assert (Ed : forall x, data_start (sb_of s dev) <= x -> x <> b -> disk s' dev x = disk s dev x).
  { intros x Hx Hne. rewrite E. apply freed_other; intros [=]; lia. }
  split_and!; try done.
  - destruct F as [F1 F2 F3 F4 F5]. split; rewrite ?Esb; try done.
    + intros c Hc. rewrite Eu, F4 by lia. destruct (Z.eqb_spec c b); [lia|done].
    + intros c Hc Hf. rewrite Eu in Hf by lia. destruct (Z.eqb_spec c b) as [->|Hne].
      * rewrite E. unfold freed. rewrite disk_put_ne by (intros [=]; lia). apply disk_put_at.
      * cbn in Hf. rewrite Ed; [by apply F5| |done]. destruct (Z.le_gt_cases (data_start (sb_of s dev)) c); [done|].
        rewrite F4 in Hf by lia. done.
  - unfold frees. rewrite Esb. apply NoDup_Permutation.
    + apply NoDup_filter, NoDup_seqZ.
    + constructor; [|apply NoDup_filter, NoDup_seqZ]. intros Hin%list_elem_of_filter. destruct Hin as [Hf _]. congruence.
    + intros c. rewrite elem_of_cons, !list_elem_of_filter, elem_of_seqZ. split.
      * intros [Hf Hc]. rewrite Eu in Hf by lia. destruct (Z.eqb_spec c b); [by left|]. by right.
      * intros [->|[Hf Hc]]; (split; [|lia]); rewrite Eu by lia; [by rewrite Z.eqb_refl|]. rewrite Hf. apply andb_false_r.
Qed.
End blocks.
