(* ===== verification/FsFile.v ===== *)
(** The contents of files: the map from the blocks of a file to blocks of the disk, and [readi].

    A file has 141 slots: twelve direct addresses, the address of the indirect block, and the 128
    addresses in that block. *)
From S2P Require Import Prelude Types Mem Kalloc PageTable Cons Vm VmProofs VmUser VmSpec Shm Sched Ide Bio UserMem UserView Inode Console Fs FsBlocks.

(** ** Slots *)
Definition NSLOT : Z := NDIRECT + 1 + NINDIRECT.

Definition indirect (s : kernel) (ip : nat) : Z := default 0 (i_addrs (inode_at ip s) !! 12%nat).
Definition slot (s : kernel) (ip : nat) (k : Z) : Z :=
  if k <=? NDIRECT then default 0 (i_addrs (inode_at ip s) !! Z.to_nat k)
  else if indirect s ip =? 0 then 0
  else get32 (disk s (i_dev (inode_at ip s)) (indirect s ip)) (4 * (k - NDIRECT - 1)).
Definition fslot (bn : Z) : Z := if bn <? NDIRECT then bn else bn + 1.
Definition block_no (s : kernel) (ip : nat) (k : Z) : Z := real_addr (slot s ip k) (i_type (inode_at ip s)).

(** The inode [ip] in the cache is a file of a file system: the blocks up to its size are
    allocated, and its blocks are distinct data blocks in use. *)
Record file_ok (s : kernel) (ip : nat) : Prop := {
  fi_fs : fs_ok s (i_dev (inode_at ip s));
  fi_in : (ip < length (icache s))%nat;
  fi_addrs : length (i_addrs (inode_at ip s)) = 13%nat;
  fi_inum : 0 <= i_inum (inode_at ip s) < sb_ninodes (sb_of s (i_dev (inode_at ip s)));
  fi_size : 0 <= i_size (inode_at ip s) <= MAXFILE * BSIZE;
  fi_mapped : forall bn, 0 <= bn -> bn * BSIZE < i_size (inode_at ip s) -> slot s ip (fslot bn) <> 0;
  fi_block : forall k, 0 <= k < NSLOT -> slot s ip k <> 0 ->
    data_start (sb_of s (i_dev (inode_at ip s))) <= block_no s ip k < sb_size (sb_of s (i_dev (inode_at ip s))) /\
    used s (i_dev (inode_at ip s)) (block_no s ip k) = true;
  fi_inj : forall k k', 0 <= k < NSLOT -> 0 <= k' < NSLOT -> slot s ip k <> 0 -> slot s ip k' <> 0 ->
    block_no s ip k = block_no s ip k' -> k = k';
  fi_indirect : block_no s ip NDIRECT = slot s ip NDIRECT }.

(** The bytes of the file. *)
Definition file_block (s : kernel) (ip : nat) (bn : Z) : list Z :=
  disk s (i_dev (inode_at ip s)) (block_no s ip (fslot bn)).
Definition file_byte (s : kernel) (ip : nat) (o : Z) : Z := byte_at (file_block s ip (o / BSIZE)) (o mod BSIZE).
Definition file_data (s : kernel) (ip : nat) : list Z :=
  (fun o => file_byte s ip (Z.of_nat o)) <$> seq 0 (Z.to_nat (i_size (inode_at ip s))).

(** The checksums of a checked file are those of its blocks. *)
Definition sums_ok (s : kernel) (ip : nat) : Prop :=
  forall bn, 0 <= bn -> bn * BSIZE < i_size (inode_at ip s) -> i_type (inode_at ip s) = T_CHECKED ->
    gen_checksum (file_block s ip bn) = get_checksum (slot s ip (fslot bn)).

(** ** Slices *)
Lemma slice_lookup l a m j : (j < Z.to_nat m)%nat -> slice l a m !! j = l !! (Z.to_nat a + j)%nat.
Proof. intros Hj. unfold slice. by rewrite lookup_take_lt, lookup_drop by done. Qed.
Lemma slice_length l a m : 0 <= a -> 0 <= m -> a + m <= Z.of_nat (length l) -> length (slice l a m) = Z.to_nat m.
Proof. intros Ha Hm Hl. unfold slice. rewrite length_take, length_drop. lia. Qed.
Lemma slice_app l a m n : 0 <= a -> 0 <= m -> 0 <= n -> slice l a m ++ slice l (a + m) n = slice l a (m + n).
Proof.
  intros Ha Hm Hn. unfold slice. rewrite (Z2Nat.inj_add a m), (Z2Nat.inj_add m n), <- drop_drop by lia.
  by rewrite take_take_drop.
Qed.

Lemma file_data_length s ip : length (file_data s ip) = Z.to_nat (i_size (inode_at ip s)).
Proof. unfold file_data. by rewrite length_fmap, length_seq. Qed.
Lemma file_data_lookup s ip o : 0 <= o < i_size (inode_at ip s) -> file_data s ip !! Z.to_nat o = Some (file_byte s ip o).
Proof.
  intros Ho. unfold file_data. rewrite list_lookup_fmap, lookup_seq_lt by lia. cbn. do 2 f_equal. lia.
Qed.

(** A part of one block. *)
Lemma slice_block s ip off m : (forall d x, length (disk s d x) = Z.to_nat BSIZE) ->
  0 <= off -> 0 <= m -> m <= BSIZE - off mod BSIZE -> off + m <= i_size (inode_at ip s) ->
  slice (file_block s ip (off / BSIZE)) (off mod BSIZE) m = slice (file_data s ip) off m.
Proof.
  intros Hl Ho Hm Hb Hs. assert (Hd : length (file_block s ip (off / BSIZE)) = Z.to_nat BSIZE) by apply Hl.
  pose proof (Z.mod_pos_bound off BSIZE eq_refl) as Hmod.
  apply list_eq_same_length with (n := Z.to_nat m).
  - apply slice_length; [lia|lia|]. rewrite file_data_length. lia.
  - apply slice_length; [lia|lia|]. unfold BSIZE in *. lia.
  - intros j x y Hj Hx Hy. rewrite slice_lookup in Hx, Hy by lia.
    replace (Z.to_nat off + j)%nat with (Z.to_nat (off + Z.of_nat j)) in Hy by lia.
    rewrite file_data_lookup in Hy by lia. injection Hy as <-. unfold file_byte.
    replace ((off + Z.of_nat j) / BSIZE) with (off / BSIZE) by (unfold BSIZE in *; Z.div_mod_to_equations; lia).
    replace ((off + Z.of_nat j) mod BSIZE) with (off mod BSIZE + Z.of_nat j) by (unfold BSIZE in *; Z.div_mod_to_equations; lia).
    unfold byte_at. replace (Z.to_nat (off mod BSIZE + Z.of_nat j)) with (Z.to_nat (off mod BSIZE) + j)%nat by lia. by rewrite Hx.
Qed.

(** ** Destinations of a read *)

(** What [readi] needs of its destination: [P s acc] says that [acc] has been stored. *)
Record sink (dst : dest) (n : Z) (P : kernel -> list Z -> Prop) : Prop := {
  sk_store : forall s acc c, P s acc -> Z.of_nat (length (acc ++ c)) <= n ->
    wp (store_to dst (Z.of_nat (length acc)) c) s (fun _ s' => P s' (acc ++ c) /\ s' = s <| mem := mem s' |>);
  sk_same : forall s s' acc, P s acc -> mem s' = mem s -> cr3 s' = cr3 s -> freelist s' = freelist s ->
    freecount s' = freecount s -> P s' acc }.

Lemma sink_local n : sink DLoc n (fun _ _ => True).
Proof. split; [|done]. intros s acc c _ _. apply wp_intro_ret. split; [done|by kext]. Qed.

Section user_sink.
Context `{HL : LinkerOk}.

Lemma copied_out_snoc s f R l va acc c m0 m2 : uspace s f R l -> 0 <= va ->
  va + Z.of_nat (length (acc ++ c)) <= USERTOP -> user_pages f va (va + Z.of_nat (length (acc ++ c))) ->
  copied_out f va acc m0 (mem s) -> copied_out f (va + Z.of_nat (length acc)) c (mem s) m2 -> copied_out f va (acc ++ c) m0 m2.
Proof.
  intros U H0 Ht Hu [A1 A2] [C1 C2]. rewrite length_app in *. split.
  - intros i x Hi. destruct (Nat.lt_ge_cases i (length acc)) as [Hlt|Hge].
    + rewrite lookup_app_l in Hi by done. rewrite <- (A1 i x Hi). unfold ld8. rewrite C2; [done|]. intros j Hj E.
      assert (va + Z.of_nat i = va + Z.of_nat (length acc) + Z.of_nat j); [|lia].
      eapply (upa_inj s (cr3 s) f R l); try done; try lia; apply Hu; lia.
    + rewrite lookup_app_r in Hi by done. rewrite <- (C1 _ _ Hi). do 2 f_equal. lia.
  - intros x Hx. rewrite C2, A2; [done|..].
    + intros i Hi. apply Hx. rewrite length_app. lia.
    + intros i Hi. replace (va + Z.of_nat (length acc) + Z.of_nat i) with (va + Z.of_nat (length acc + i)) by lia.
      apply Hx. rewrite length_app. lia.
Qed.

(** A buffer of the user. *)
Lemma sink_user f R l m0 va n : 0 <= va -> 0 <= n -> va + n <= USERTOP -> user_pages f va (va + n) ->
  sink (DVa va) n (fun s acc => uspace s f R l /\ copied_out f va acc m0 (mem s)).
Proof.
  intros H0 Hn Ht Hu. split.
  - intros s acc c [U C] Hlen. rewrite length_app in Hlen. cbn [store_to].
    rewrite u32_small by (unfold USERTOP in *; lia).
    apply (wp_vwrite c s f R l); [done|lia|lia|intros v Hv; apply Hu; lia|]. intros m' C' U'. split; [|by kext]. split; [done|].
    apply (copied_out_snoc s f R l); try done; rewrite length_app; [lia|]. intros v Hv. apply Hu. lia.
  - intros s s' acc [U C] Em Ec Ef En. split; [by eapply uspace_same|by rewrite Em].
Qed.
End user_sink.

(** ** Finding a block *)
Section read.
Context (i : nat).

Lemma cache_ok_mem s H m : cache_ok s H i -> cache_ok (s <| mem := m |>) H i.
Proof.
  intros [[[l []] B2 B3 B4 B5 B6] ([p [[] ?]] & ? & ?) C3 C4]. split; [|split; [exists p; done|done]|done|done].
  split; try done. exists l. by split.
Qed.

Lemma iofr_cr3 s s' : io_ok s i -> io_ok s' i -> iofr s s' -> cr3 s' = cr3 s.
Proof.
  intros [[p [R E]] _] [[q [R' E']] _] [_ P]. rewrite E, E'. f_equal.
  destruct (Forall2_lookup_l _ _ _ _ _ P (io_proc _ _ _ R)) as (q' & Hq & Hs).
  rewrite (io_proc _ _ _ R') in Hq. injection Hq as <-. unfold psim in Hs. by rewrite Hs.
Qed.

Lemma sink_iofr dst n P s s' acc : sink dst n P -> io_ok s i -> io_ok s' i -> iofr s s' -> P s acc -> P s' acc.
Proof.
  intros K O O' F HP. apply (sk_same _ _ _ K s); [done|..]; try by rewrite (fr_eq _ _ F). by apply iofr_cr3.
Qed.

Lemma bmap_mapped s ip bn (Q : Z -> kernel -> Prop) : cache_ok s [] i -> file_ok s ip -> 0 <= bn < MAXFILE ->
  slot s ip (fslot bn) <> 0 ->
  (forall s', cache_ok s' [] i -> iofr s s' -> Q (slot s ip (fslot bn)) s') -> wpe disk_env (bmap ip bn) s Q.
Proof.
  intros C FI Hbn Hm HQ. pose proof (fi_fs _ _ FI) as FS. unfold fslot, slot in *. unfold bmap. apply wpe_gets.
  destruct (Z.ltb_spec bn NDIRECT) as [Hlt|Hge].
  - destruct (Z.leb_spec bn NDIRECT); [|lia]. unfold addr_at. apply wpe_gets.
    destruct (Z.eqb_spec (default 0 (i_addrs (inode_at ip s) !! Z.to_nat bn)) 0); [done|]. apply wpe_ret. by apply HQ.
  - destruct (Z.leb_spec (bn + 1) NDIRECT); [lia|]. destruct (Z.ltb_spec (bn - NDIRECT) NINDIRECT); [|unfold MAXFILE in *; lia].
    unfold addr_at. apply wpe_gets. change (default 0 (i_addrs (inode_at ip s) !! Z.to_nat NDIRECT)) with (indirect s ip).
    destruct (Z.eqb_spec (indirect s ip) 0) as [|Hi]; [done|]. apply wpe_bind, wpe_ret.
    assert (Hs12 : slot s ip NDIRECT <> 0) by exact Hi.
    destruct (fi_block _ _ FI NDIRECT ltac:(done) Hs12) as [Hr _].
    rewrite (fi_indirect _ _ FI) in Hr. change (slot s ip NDIRECT) with (indirect s ip) in Hr.
    pose proof (fo_size _ _ FS). pose proof (fo_dev _ _ FS).
    pose proof (bitmap_range _ _ 0 FS ltac:(pose proof (fs_size_pos _ _ FS); lia)).
    apply wpe_bind, (wpe_read i s []); [done|split; lia|cbn; unfold NBUF; lia|set_solver|]. intros bp s1 C1 F1.
    eapply wpe_data; [exact C1|]. replace (4 * (bn + 1 - NDIRECT - 1)) with (4 * (bn - NDIRECT)) in * by lia.
    match goal with |- context [if ?g =? 0 then _ else _] => destruct (Z.eqb_spec g 0); [done|] end.
    eapply wpe_release; [rewrite (iofr_disk _ _ F1); exact C1|]. intros s2 C2 F2. apply wpe_ret. apply HQ; [done|by transitivity s1].
Qed.

(** ** Reading *)

(** A state with the same inodes and the same disk. *)
Lemma same_file s s' ip : disk s' = disk s -> icache s' = icache s ->
  (file_ok s ip -> file_ok s' ip) /\ (sums_ok s ip -> sums_ok s' ip) /\ file_data s' ip = file_data s ip.
Proof.
  intros Ed Ei. assert (En : inode_at ip s' = inode_at ip s) by (unfold inode_at; by rewrite Ei).
  assert (Es : forall k, slot s' ip k = slot s ip k) by (intros k; unfold slot, indirect; by rewrite En, Ed).
  assert (Esb : forall d, sb_of s' d = sb_of s d) by (intros d; unfold sb_of; by rewrite Ed).
  assert (Eu : forall d b, used s' d b = used s d b) by (intros d b; unfold used; by rewrite Esb, Ed).
  split_and!.
  - intros [F1 F2 F3 F4 F5 F6 F7 F8 F9]. split; unfold block_no; rewrite ?En, ?Ei, ?Esb; try done.
    + eapply fs_ok_same; [exact F1|..]; intros; by rewrite Ed.
    + intros bn. rewrite Es. apply F6.
    + intros k. rewrite Es, Eu. apply F7.
    + intros k k'. rewrite !Es. apply F8.
    + rewrite Es. exact F9.
  - intros S bn. unfold file_block, block_no. rewrite En, Es, Ed. apply S.
  - unfold file_data, file_byte, file_block, block_no. rewrite En, Ed. apply list_fmap_ext. intros. by rewrite Es.
Qed.

(** Reading changes memory, and what [iofr] allows. *)
Definition rdfr (s s' : kernel) : Prop := iofr (s <| mem := mem s' |>) s'.
Lemma iofr_set_mem s s' m : iofr s s' -> iofr (s <| mem := m |>) (s' <| mem := m |>).
Proof. intros [E P]. split; [|exact P]. rewrite E at 1. by kext. Qed.
Lemma iofr_rdfr s s' : iofr s s' -> rdfr s s'.
Proof.
  intros F. unfold rdfr. assert (E : s <| mem := mem s' |> = s).
  { rewrite (fr_eq _ _ F). cbn. by kext. } by rewrite E.
Qed.
#[global] Instance rdfr_preorder : PreOrder rdfr.
Proof.
  split; [intros s; by apply iofr_rdfr|]. intros s1 s2 s3 F1 F2. unfold rdfr in *.
  etransitivity; [|exact F2]. apply (iofr_set_mem _ _ (mem s3)) in F1. etransitivity; [|exact F1].
  match goal with |- iofr ?a ?b => replace a with b by by kext end. reflexivity.
Qed.
Lemma rdfr_mem s m : rdfr s (s <| mem := m |>).
Proof. unfold rdfr. reflexivity. Qed.
#[global] Instance iofr_rdfr_sub : subrelation iofr rdfr := iofr_rdfr.
Lemma rdfr_same s s' : rdfr s s' -> disk s' = disk s /\ icache s' = icache s.
Proof. intros [E _]. rewrite E. done. Qed.

Lemma length_block s ip k : cache_ok s [] i -> length (file_block s ip k) = Z.to_nat BSIZE.
Proof. intros C. apply C. Qed.

Lemma file_mapped s ip off : file_ok s ip -> 0 <= off < i_size (inode_at ip s) ->
  0 <= off / BSIZE < MAXFILE /\ slot s ip (fslot (off / BSIZE)) <> 0 /\
  on_disk (i_dev (inode_at ip s)) (block_no s ip (fslot (off / BSIZE))).
Proof.
  intros FI Ho. pose proof (fi_size _ _ FI) as Hs. pose proof (fi_fs _ _ FI) as FS.
  assert (Hbn : 0 <= off / BSIZE < MAXFILE).
  { change MAXFILE with 140 in *. unfold BSIZE in *. Z.div_mod_to_equations; lia. }
  assert (Hm : slot s ip (fslot (off / BSIZE)) <> 0).
  { apply (fi_mapped _ _ FI); [lia|]. unfold BSIZE in *. Z.div_mod_to_equations; lia. }
  split_and!; [lia|lia|done|]. destruct (fi_block _ _ FI (fslot (off / BSIZE))) as [Hr _]; [|done|].
  { change NSLOT with 141. change MAXFILE with 140 in *. unfold fslot. change NDIRECT with 12. destruct (Z.ltb_spec (off / BSIZE) 12); lia. }
  pose proof (fo_size _ _ FS). pose proof (bitmap_range _ _ 0 FS ltac:(pose proof (fs_size_pos _ _ FS); lia)).
  split; [apply FS|lia].
Qed.

Lemma wpe_readi_loop fuel : forall s ip dst off n tot acc P (Q : Z * list Z -> kernel -> Prop),
  cache_ok s [] i -> file_ok s ip -> sums_ok s ip -> sink dst n P -> P s acc -> Z.of_nat (length acc) = tot ->
  tot <= n < 2 ^ 31 -> 0 <= off -> off + (n - tot) <= i_size (inode_at ip s) ->
  (0 < fuel)%nat -> (tot < n -> off mod BSIZE + (n - tot) <= BSIZE * (Z.of_nat fuel - 1)) ->
  (forall s', cache_ok s' [] i -> rdfr s s' -> P s' (acc ++ slice (file_data s ip) off (n - tot)) ->
     Q (n, acc ++ slice (file_data s ip) off (n - tot)) s') ->
  wpe disk_env (readi_loop fuel ip dst off n tot acc) s Q.
Proof.
  induction fuel as [|fuel IH]; intros s ip dst off n tot acc P Q C FI SU K HP Hacc Hn Ho Hs Hf0 Hf HQ; [lia|].
  cbn [readi_loop]. destruct (Z.ltb_spec tot n) as [Hlt|Hge].
  2: { apply wpe_ret. replace (n - tot) with 0 in HQ by lia. cbn in HQ. rewrite app_nil_r in HQ. rewrite s32_small by lia.
       by apply HQ. }
  apply wpe_gets. destruct (file_mapped s ip off FI ltac:(lia)) as (Hbn & Hsl & Hon).
  apply wpe_bind, (bmap_mapped s ip (off / BSIZE)); [done..|]. intros s1 C1 F1. pose proof (iofr_disk _ _ F1) as D1.
  fold (block_no s ip (fslot (off / BSIZE))).
  apply wpe_bind, (wpe_read i s1 []); [done|done|cbn; unfold NBUF; lia|set_solver|]. intros bp s2 C2 F2.
  eapply wpe_data; [exact C2|]. rewrite D1 in *. fold (file_block s ip (off / BSIZE)) in *.
  pose proof (iofr_disk _ _ F2) as D2. rewrite D1 in D2.
  replace (_ && _) with false.
  2: { destruct (Z.eqb_spec (i_type (inode_at ip s)) T_CHECKED) as [ET|]; [|done]. unfold vrfy_checksum.
       rewrite (SU (off / BSIZE)), Z.eqb_refl; [done|lia| |done]. unfold BSIZE in *. Z.div_mod_to_equations; lia. }
  set (m := Z.min (n - tot) (BSIZE - off mod BSIZE)). pose proof (Z.mod_pos_bound off BSIZE eq_refl) as Hmod.
  rewrite slice_block by (try apply C; lia). set (c := slice (file_data s ip) off m).
  assert (Hc : Z.of_nat (length c) = m).
  { unfold c. rewrite slice_length by (rewrite ?file_data_length; lia). lia. }
  rewrite <- Hacc at 1. apply wpe_bind, wp_wpe. eapply wp_mono.
  { apply (sk_store _ _ _ K); [|rewrite length_app; lia].
    eapply (sink_iofr dst n P s1 s2); try done; [apply C1|apply C2|]. eapply (sink_iofr dst n P s s1); try done; [apply C|apply C1]. }
  intros _ s3 [HP3 E3]. assert (C3 := cache_ok_mem _ _ (mem s3) C2). rewrite <- E3 in C3.
  assert (D3 : disk s3 = disk s) by (rewrite E3; exact D2).
  eapply wpe_release; [rewrite D3; exact C3|]. intros s4 C4 F4.
  assert (F : rdfr s s4).
  { rewrite F1, F2. etransitivity; [|apply iofr_rdfr, F4]. rewrite E3. apply rdfr_mem. }
  destruct (rdfr_same _ _ F) as [D4 I4]. destruct (same_file s s4 ip D4 I4) as (K1 & K2 & K3).
  apply (IH s4 ip dst (off + m) n (tot + m) (acc ++ c) P); try done; try lia.
  - by apply K1.
  - by apply K2.
  - eapply (sink_iofr dst n P s3 s4); try done; [apply C3|apply C4].
  - rewrite length_app. lia.
  - unfold inode_at. rewrite I4. fold (inode_at ip s). lia.
  - specialize (Hf Hlt). unfold BSIZE in *. lia.
  - intros Hlt'. specialize (Hf Hlt). assert (Em : m = BSIZE - off mod BSIZE) by lia.
    replace ((off + m) mod BSIZE) with 0 by (rewrite Em; unfold BSIZE in *; Z.div_mod_to_equations; lia).
    rewrite Em. unfold BSIZE in *. lia.
  - intros s' C' F' HP'. rewrite K3, <- app_assoc in HP' |- *. unfold c in HP' |- *. rewrite slice_app in HP' |- * by lia.
    replace (m + (n - (tot + m))) with (n - tot) in * by lia. apply HQ; [done|by transitivity s4|done].
Qed.
End read.

Lemma sink_le dst n n' P : sink dst n P -> n' <= n -> sink dst n' P.
Proof. intros [K1 K2] Hn. split; [|exact K2]. intros s acc c HP Hlen. apply K1; [done|lia]. Qed.

(** Whether [readi] and [writei] refuse the offset. *)
Definition bad_range (size off n : Z) : bool := (size <? off) || (2 ^ 32 <=? off + n).
Lemma bad_range_u32 size off n : 0 <= off < 2 ^ 32 -> 0 <= n < 2 ^ 32 ->
  (size <? off) || (u32 (off + n) <? off) = bad_range size off n.
Proof.
  intros Ho Hn. unfold bad_range. f_equal. rewrite u32_eq.
  destruct (Z.leb_spec (2 ^ 32) (off + n)).
  - apply Z.ltb_lt. replace (off + n) with (off + n - 2 ^ 32 + 1 * 2 ^ 32) by lia. rewrite Z.mod_add, Z.mod_small by lia. lia.
  - rewrite Z.mod_small by lia. apply Z.ltb_ge. lia.
Qed.

Lemma wpe_readi i s ip dst off n P (Q : Z * list Z -> kernel -> Prop) :
  cache_ok s [] i -> file_ok s ip -> sums_ok s ip -> i_type (inode_at ip s) <> T_DEV ->
  0 <= off < 2 ^ 32 -> 0 <= n < 2 ^ 32 -> sink dst n P -> P s [] ->
  (let m := Z.min n (i_size (inode_at ip s) - off) in
   if bad_range (i_size (inode_at ip s)) off n then Q (-1, []) s
   else forall s', cache_ok s' [] i -> rdfr s s' -> P s' (slice (file_data s ip) off m) -> Q (m, slice (file_data s ip) off m) s') ->
  wpe disk_env (readi ip dst off n) s Q.
Proof.
  intros C FI SU HT Ho Hn K HP HQ. unfold readi. apply wpe_gets. apply Z.eqb_neq in HT. rewrite HT, bad_range_u32 by done.
  cbv zeta in HQ. destruct (bad_range _ off n) eqn:EB; [by apply wpe_ret|]. unfold bad_range in EB.
  apply orb_false_iff in EB as [E1%Z.ltb_ge E2%Z.leb_gt]. pose proof (fi_size _ _ FI) as Hs. change (MAXFILE * BSIZE) with 71680 in Hs.
  replace (if i_size (inode_at ip s) <? off + n then i_size (inode_at ip s) - off else n)
    with (Z.min n (i_size (inode_at ip s) - off)) by (destruct (Z.ltb_spec (i_size (inode_at ip s)) (off + n)); lia).
  set (m := Z.min n (i_size (inode_at ip s) - off)) in *.
  pose proof (Z.mod_pos_bound off BSIZE eq_refl) as Hmod.
  apply (wpe_readi_loop i _ s ip dst off m 0 [] P); try done; try lia.
  - eapply sink_le; [done|lia].
  - unfold rw_fuel. lia.
  - intros _. unfold rw_fuel, BSIZE in *. Z.div_mod_to_equations; lia.
  - rewrite Z.sub_0_r. exact HQ.
Qed.
