(* ===== verification/FsWrite.v ===== *)
(** Writing files: allocation in [bmap], [writei] and [iupdate], for files without checksums. *)
From S2P Require Import Prelude Types Mem Kalloc PageTable Cons Vm VmProofs VmUser VmSpec Shm Sched Ide Bio UserMem UserView Inode Console Fs FsBlocks FsFile.

(** ** Bytes of a block *)
Lemma byte_at_splice l o w p : 0 <= o -> 0 <= p -> o + Z.of_nat (length w) <= Z.of_nat (length l) ->
  byte_at (splice l o w) p = if (o <=? p) && (p <? o + Z.of_nat (length w)) then byte_at w (p - o) else byte_at l p.
Proof.
  intros Ho Hp Hl. unfold byte_at, splice. assert (Ht : length (take (Z.to_nat o) l) = Z.to_nat o) by (rewrite length_take; lia).
  destruct (Z.leb_spec o p) as [H1|H1]; cbn.
  - rewrite lookup_app_r by lia. rewrite Ht. destruct (Z.ltb_spec p (o + Z.of_nat (length w))) as [H2|H2].
    + rewrite lookup_app_l by lia. do 2 f_equal. lia.
    + rewrite lookup_app_r, lookup_drop by lia. do 2 f_equal. lia.
  - rewrite lookup_app_l, lookup_take_lt by lia. done.
Qed.
Lemma splice_length l o w : 0 <= o -> o + Z.of_nat (length w) <= Z.of_nat (length l) -> length (splice l o w) = length l.
Proof. intros Ho Hl. unfold splice. rewrite !length_app, length_take, length_drop. lia. Qed.
Lemma splice_bytes l o w : Forall (fun c => 0 <= c < 256) l -> Forall (fun c => 0 <= c < 256) w ->
  Forall (fun c => 0 <= c < 256) (splice l o w).
Proof. intros Hl Hw. unfold splice. rewrite !Forall_app. split_and!; [by apply Forall_take|done|by apply Forall_drop]. Qed.

Lemma le32_length v : length (le32 v) = 4%nat.
Proof. done. Qed.
Lemma le32_bytes v : Forall (fun c => 0 <= c < 256) (le32 v).
Proof. unfold le32. repeat constructor; apply u8_range. Qed.
Lemma le32_get v : 0 <= v < 2 ^ 32 -> get32 (le32 v) 0 = v.
Proof.
  intros Hv.
  change (u8 v + 2 ^ 8 * u8 (v / 2 ^ 8) + 2 ^ 16 * u8 (v / 2 ^ 16) + 2 ^ 24 * u8 (v / 2 ^ 24) = v). rewrite !u8_eq.
  change (2 ^ 8) with 256; change (2 ^ 16) with 65536; change (2 ^ 24) with 16777216; change (2 ^ 32) with 4294967296 in Hv.
  Z.div_mod_to_equations; lia.
Qed.

Lemma get32_splice_in l o v : 0 <= o -> o + 4 <= Z.of_nat (length l) -> 0 <= v < 2 ^ 32 -> get32 (splice l o (le32 v)) o = v.
Proof.
  intros Ho Hl Hv. rewrite <- (le32_get v Hv) at 2. unfold get32. rewrite !byte_at_splice by (rewrite ?le32_length; lia).
  rewrite le32_length. change (Z.of_nat 4) with 4.
  repeat match goal with |- context [(?a <=? ?b) && (?c <? ?d)] =>
    replace ((a <=? b) && (c <? d)) with true by (symmetry; apply andb_true_intro; split; [apply Z.leb_le|apply Z.ltb_lt]; lia) end.
  do 3 f_equal; [f_equal|..]; do 2 f_equal; lia.
Qed.
Lemma get32_splice_out l o w p : 0 <= o -> 0 <= p -> o + Z.of_nat (length w) <= Z.of_nat (length l) ->
  p + 4 <= o \/ o + Z.of_nat (length w) <= p -> get32 (splice l o w) p = get32 l p.
Proof.
  intros Ho Hp Hl Hd. unfold get32. rewrite !byte_at_splice by lia.
  repeat match goal with |- context [(?a <=? ?b) && (?c <? ?d)] =>
    replace ((a <=? b) && (c <? d)) with false by (symmetry; apply andb_false_iff; rewrite Z.leb_gt, Z.ltb_ge; lia) end.
  done.
Qed.
Lemma get32_zero p n : get32 (replicate n 0) p = 0.
Proof.
  assert (Hz : forall q, byte_at (replicate n 0) q = 0).
  { intros q. unfold byte_at. destruct (replicate n 0 !! Z.to_nat q) eqn:E; [|done]. by apply lookup_replicate in E as [-> _]. }
  unfold get32. by rewrite !Hz.
Qed.
Lemma get32_range l p : Forall (fun c => 0 <= c < 256) l -> 0 <= get32 l p < 2 ^ 32.
Proof.
  intros Hl. assert (Hb : forall q, 0 <= byte_at l q < 256).
  { intros q. unfold byte_at. destruct (l !! Z.to_nat q) eqn:E; cbn; [|lia]. rewrite Forall_lookup in Hl. by eapply Hl. }
  unfold get32. pose proof (Hb p). pose proof (Hb (p + 1)). pose proof (Hb (p + 2)). pose proof (Hb (p + 3)). lia.
Qed.

(** ** What allocation and writing keep *)

(** Files without checksums. *)
Definition plain (s : kernel) (ip : nat) : Prop := i_type (inode_at ip s) <> T_DEV /\ i_type (inode_at ip s) <> T_CHECKED.

Lemma block_no_plain s ip k : plain s ip -> block_no s ip k = slot s ip k.
Proof. intros [_ HT]. unfold block_no, real_addr. apply Z.eqb_neq in HT. by rewrite HT. Qed.

Definition wrfr (s s' : kernel) : Prop := iofr (s <| disk := disk s' |> <| icache := icache s' |>) s'.

(** [s'] is [s] with more blocks in the file [ip] and other contents of its blocks. *)
Record extends (ip : nat) (s s' : kernel) : Prop := {
  ex_frame : wrfr s s';
  ex_inode : exists addrs, icache s' = alter (fun x => x <| i_addrs := addrs |>) ip (icache s);
  ex_sb : sb_of s' (i_dev (inode_at ip s)) = sb_of s (i_dev (inode_at ip s));
  ex_used : forall b, 0 <= b <= sb_size (sb_of s (i_dev (inode_at ip s))) ->
    used s (i_dev (inode_at ip s)) b = true -> used s' (i_dev (inode_at ip s)) b = true;
  ex_slots : forall k, 0 <= k < NSLOT -> slot s ip k <> 0 -> slot s' ip k = slot s ip k;
  ex_fresh : forall k, 0 <= k < NSLOT -> slot s' ip k <> 0 -> slot s ip k = 0 ->
    0 <= slot s' ip k < sb_size (sb_of s (i_dev (inode_at ip s))) /\
    used s (i_dev (inode_at ip s)) (slot s' ip k) = false;
  ex_other : forall x, data_start (sb_of s (i_dev (inode_at ip s))) <= x <= sb_size (sb_of s (i_dev (inode_at ip s))) ->
    0 <= x -> used s (i_dev (inode_at ip s)) x = true -> (forall k, 0 <= k < NSLOT -> slot s ip k <> 0 -> slot s ip k <> x) ->
    disk s' (i_dev (inode_at ip s)) x = disk s (i_dev (inode_at ip s)) x;
  ex_meta : forall x, x < bitmap (sb_of s (i_dev (inode_at ip s))) 0 ->
    disk s' (i_dev (inode_at ip s)) x = disk s (i_dev (inode_at ip s)) x;
  ex_dev : forall d x, d <> i_dev (inode_at ip s) -> disk s' d x = disk s d x }.

Lemma iofr_set_icache s s' ic : iofr s s' -> iofr (s <| icache := ic |>) (s' <| icache := ic |>).
Proof. intros [E P]. split; [|exact P]. rewrite E at 1. by kext. Qed.
Lemma iofr_icache s s' : iofr s s' -> icache s' = icache s.
Proof. intros [E _]. by rewrite E. Qed.
#[global] Instance wrfr_preorder : PreOrder wrfr.
Proof.
  split.
  - intros s. unfold wrfr. replace (s <| disk := disk s |> <| icache := icache s |>) with s by by kext. reflexivity.
  - intros s1 s2 s3 F1 F2. unfold wrfr in *. etransitivity; [|exact F2].
    apply (iofr_set_disk _ _ (disk s3)), (iofr_set_icache _ _ (icache s3)) in F1. etransitivity; [|exact F1].
    match goal with |- iofr ?a ?b => replace a with b by by kext end. reflexivity.
Qed.
#[global] Instance iofr_wrfr : subrelation iofr wrfr.
Proof.
  intros s s' F. unfold wrfr. assert (E : s <| disk := disk s' |> <| icache := icache s' |> = s).
  { rewrite (fr_eq _ _ F). cbn. by kext. } by rewrite E.
Qed.

Lemma wrfr_disk s s' dk : iofr (s <| disk := dk |>) s' -> wrfr s s'.
Proof.
  intros F. unfold wrfr. rewrite (iofr_disk _ _ F), (iofr_icache _ _ F). cbn.
  replace (s <| disk := dk |> <| icache := icache s |>) with (s <| disk := dk |>) by by kext. done.
Qed.

Lemma inode_alter s' s ip g : (ip < length (icache s))%nat -> icache s' = alter g ip (icache s) -> inode_at ip s' = g (inode_at ip s).
Proof.
  intros Hl E. unfold inode_at. rewrite E, list_lookup_alter_eq. destruct (lookup_lt_is_Some_2 _ _ Hl) as [x ->]. done.
Qed.

Lemma extends_inode ip s s' : extends ip s s' -> (ip < length (icache s))%nat ->
  exists addrs, inode_at ip s' = (inode_at ip s) <| i_addrs := addrs |>.
Proof. intros X Hl. destruct (ex_inode _ _ _ X) as [addrs E]. exists addrs. by rewrite (inode_alter _ _ _ _ Hl E). Qed.
Lemma extends_dev ip s s' : extends ip s s' -> i_dev (inode_at ip s') = i_dev (inode_at ip s) /\
  i_type (inode_at ip s') = i_type (inode_at ip s) /\ i_size (inode_at ip s') = i_size (inode_at ip s) /\
  i_inum (inode_at ip s') = i_inum (inode_at ip s).
Proof.
  intros X. destruct (ex_inode _ _ _ X) as [addrs E]. unfold inode_at. rewrite E, list_lookup_alter_eq.
  by destruct (icache s !! ip).
Qed.

Lemma alter_same_addrs s ip : alter (fun x => x <| i_addrs := i_addrs (inode_at ip s) |>) ip (icache s) = icache s.
Proof.
  apply list_eq. intros j. destruct (decide (ip = j)) as [->|Hne].
  - rewrite list_lookup_alter_eq. unfold inode_at. destruct (icache s !! j) as [x|]; [|done]. by destruct x.
  - by rewrite list_lookup_alter_ne.
Qed.

#[global] Instance extends_preorder ip : PreOrder (extends ip).
Proof.
  split.
  - intros s. split; try done.
    exists (i_addrs (inode_at ip s)). symmetry. apply alter_same_addrs.
  - intros s1 s2 s3 X1 X2. pose proof (extends_dev _ _ _ X1) as (Ed & _).
    destruct X1 as [A1 [l1 A2] A3 A4 A5 A6 A7 A8 A9], X2 as [B1 [l2 B2] B3 B4 B5 B6 B7 B8 B9]. rewrite Ed in *. rewrite A3 in *.
    split.
    + by transitivity s2.
    + exists l2. rewrite B2, A2, list_alter_alter. done.
    + done.
    + intros b Hb Hu. by apply B4, A4.
    + intros k Hk Hs. rewrite B5; [by apply A5|done|by rewrite A5].
    + intros k Hk H3 H1. destruct (Z.eq_dec (slot s2 ip k) 0) as [H2|H2].
      * destruct (B6 k Hk H3 H2) as [Hr Hf]. split; [done|].
        destruct (used s1 _ (slot s3 ip k)) eqn:Eu; [|done]. rewrite A4 in Hf; [done|lia|done].
      * rewrite B5 by done. by apply A6.
    + intros x Hx H0 Hu Hn. rewrite B7; [by apply A7|lia|lia|by apply A4; [lia|]|]. intros k Hk H2 E.
      destruct (Z.eq_dec (slot s1 ip k) 0) as [H1|H1]; [|by apply (Hn k Hk H1); rewrite <- A5].
      destruct (A6 k Hk H2 H1) as [_ Hf]. rewrite E in Hf. congruence.
    + intros x Hx. rewrite B8 by done. by apply A8.
    + intros d x Hd. rewrite B9 by done. by apply A9.
Qed.

#[global] Instance iofr_extends ip : subrelation iofr (extends ip).
Proof.
  intros s s' F. pose proof (iofr_disk _ _ F) as D. pose proof (iofr_icache _ _ F) as I.
  assert (Es : forall k, slot s' ip k = slot s ip k) by (intros k; unfold slot, indirect, inode_at; by rewrite D, I).
  assert (Esb : forall d, sb_of s' d = sb_of s d) by (intros d; unfold sb_of; by rewrite D).
  split; try done; try by (intros; rewrite D).
  - by apply iofr_wrfr.
  - rewrite I. apply (ex_inode ip s s). reflexivity.
  - intros b _. unfold used. by rewrite Esb, D.
  - intros k _. by rewrite Es.
Qed.

Lemma plain_extends ip s s' : extends ip s s' -> plain s ip -> plain s' ip.
Proof. intros X [P1 P2]. destruct (extends_dev _ _ _ X) as (_ & Et & _). split; by rewrite Et. Qed.

Lemma slot_data s ip k : file_ok s ip -> plain s ip -> 0 <= k < NSLOT -> slot s ip k <> 0 ->
  data_start (sb_of s (i_dev (inode_at ip s))) <= slot s ip k < sb_size (sb_of s (i_dev (inode_at ip s))) /\
  used s (i_dev (inode_at ip s)) (slot s ip k) = true.
Proof. intros FI HP Hk Hs. pose proof (fi_block _ _ FI k Hk Hs) as H. by rewrite (block_no_plain _ _ _ HP) in H. Qed.

(** The first free block [r] is allocated and stored in the empty slot [k0] of the file [ip]. *)
Section add.
Context (s0 s' : kernel) (ip : nat) (k0 r : Z) (fr addrs : list Z) (dev : Z).
Hypothesis Hdev : i_dev (inode_at ip s0) = dev.
Hypothesis FI : file_ok s0 ip.
Hypothesis HP : plain s0 ip.
Hypothesis Hl : forall d x, length (disk s0 d x) = Z.to_nat BSIZE.
Hypothesis Hfr : frees s0 dev = r :: fr.
Hypothesis Hw : wrfr s0 s'.
Hypothesis Hk0 : 0 <= k0 < NSLOT.
Hypothesis Hic : icache s' = alter (fun x => x <| i_addrs := addrs |>) ip (icache s0).
Hypothesis Hla : length addrs = 13%nat.
Hypothesis Hd : forall d x, slot s0 ip NDIRECT = 0 \/ (d, x) <> (dev, slot s0 ip NDIRECT) ->
  disk s' d x = marked s0 dev r d x.
Hypothesis Hs0 : slot s0 ip k0 = 0.
Hypothesis Hsr : slot s' ip k0 = r.
Hypothesis Hsk : forall k, 0 <= k < NSLOT -> k <> k0 -> slot s' ip k = slot s0 ip k.

Let s1 := s0 <| disk := marked s0 dev r |>.

Lemma add_fs : fs_ok s0 dev.
Proof. rewrite <- Hdev. apply FI. Qed.

Lemma add_marked : fs_ok s1 dev /\ frees s1 dev = fr /\ sb_of s1 dev = sb_of s0 dev /\
  data_start (sb_of s0 dev) <= r < sb_size (sb_of s0 dev) /\
  (forall b, 0 <= b -> used s1 dev b = (b =? r) || used s0 dev b) /\
  (forall x, data_start (sb_of s0 dev) <= x -> disk s1 dev x = disk s0 dev x).
Proof. apply fs_ok_marked; [apply add_fs|done|done|done]. Qed.

Lemma add_indirect : slot s0 ip NDIRECT = 0 \/ (data_start (sb_of s0 dev) <= slot s0 ip NDIRECT < sb_size (sb_of s0 dev) /\
  used s0 dev (slot s0 ip NDIRECT) = true).
Proof.
  destruct (Z.eq_dec (slot s0 ip NDIRECT) 0) as [|Hne]; [by left|right]. rewrite <- Hdev. by apply slot_data.
Qed.

Lemma add_disk x : x <> slot s0 ip NDIRECT \/ x < data_start (sb_of s0 dev) -> disk s' dev x = disk s1 dev x.
Proof. intros Hx. apply Hd. destruct add_indirect as [|[Hr _]]; [by left|right]. intros [= ->]. lia. Qed.

Lemma add_meta : sb_of s' dev = sb_of s0 dev /\ frees s' dev = fr /\
  forall b, 0 <= b <= sb_size (sb_of s0 dev) -> used s' dev b = (b =? r) || used s0 dev b.
Proof.
  destruct add_marked as (M1 & M2 & M3 & M4 & M5 & M6).
  destruct (meta_same s1 s' dev M1) as (E1 & E2 & E3). { intros x Hx. rewrite M3 in Hx. apply add_disk. right. lia. }
  rewrite M3 in E1, E2. rewrite M2 in E3. split_and!; [done|done|]. intros b Hb. rewrite E2, M5 by lia. done.
Qed.

Lemma add_fs_ok : fs_ok s' dev.
Proof.
  destruct add_marked as (M1 & M2 & M3 & M4 & M5 & M6).
  eapply fs_ok_same; [exact M1|..]; rewrite M3; intros x Hx; [apply add_disk; right; lia|]. intros Hf. apply add_disk. left. intros ->.
  rewrite M5 in Hf by lia. apply orb_false_iff in Hf as [_ Hf]. destruct add_indirect as [Ez|[_ Hu]]; [|congruence].
  rewrite Ez, (fo_meta _ _ add_fs) in Hf; [done|]. pose proof (bitmap_range _ _ 0 add_fs). pose proof (fs_size_pos _ _ add_fs). lia.
Qed.

Lemma add_slots k : 0 <= k < NSLOT -> slot s0 ip k <> 0 -> slot s' ip k = slot s0 ip k.
Proof. intros Hk Hs. apply Hsk; [done|]. intros ->. done. Qed.

Lemma add_extends : extends ip s0 s'.
Proof.
  destruct add_meta as (E1 & E2 & E3). destruct add_marked as (M1 & M2 & M3 & M4 & M5 & M6).
  destruct (frees_head s0 dev r fr Hfr) as (Hr & Hur & _). pose proof (bitmap_range _ _ 0 add_fs ltac:(lia)) as Hb0.
  split; rewrite ?Hdev; try done.
  - by exists addrs.
  - intros b Hb Hu. rewrite E3, Hu by lia. apply orb_true_r.
  - apply add_slots.
  - intros k Hk Hs' Hz. destruct (Z.eq_dec k k0) as [->|Hne]; [by rewrite Hsr|]. rewrite Hsk in Hs' by done. done.
  - intros x Hx Hx0 Hu Hn. rewrite add_disk; [by apply M6; lia|]. left. intros ->.
    destruct (Z.eq_dec (slot s0 ip NDIRECT) 0) as [Ez|Hne]; [rewrite Ez in Hx; lia|by apply (Hn NDIRECT)].
  - intros x Hx. rewrite add_disk by (right; lia). apply marked_other. intros [= ->].
    pose proof (bitmap_mono (sb_of s0 dev) 0 r). lia.
  - intros d x Hd'. rewrite Hd by (right; congruence). apply marked_other. congruence.
Qed.

Lemma add_file_ok : file_ok s' ip.
Proof.
  destruct add_meta as (E1 & E2 & E3). destruct add_marked as (M1 & M2 & M3 & M4 & M5 & M6).
  destruct (frees_head s0 dev r fr Hfr) as (Hr & Hur & _). pose proof (bitmap_range _ _ 0 add_fs ltac:(lia)) as Hb0.
  assert (Hin : inode_at ip s' = (inode_at ip s0) <| i_addrs := addrs |>) by exact (inode_alter _ _ _ _ (fi_in _ _ FI) Hic).
  assert (HP' : plain s' ip) by (eapply plain_extends; [apply add_extends|done]).
  pose proof FI as [F1 F2 F3 F4 F5 F6 F7 F8 F9]. rewrite Hdev in *.
  assert (Hfresh : forall k, 0 <= k < NSLOT -> slot s0 ip k <> 0 -> slot s0 ip k <> r).
  { intros k Hk Hs Er. destruct (F7 k Hk Hs) as [_ Hu]. rewrite block_no_plain, Er in Hu by done. congruence. }
  destruct (extends_dev _ _ _ add_extends) as (X1 & X2 & X3 & X4). split; rewrite ?X1, ?X3, ?X4, ?Hdev, ?E1; try done.
  - apply add_fs_ok.
  - by rewrite Hic, length_alter.
  - by rewrite Hin.
  - intros bn Hbn Hs. pose proof (F6 bn Hbn Hs). destruct (Z.eq_dec (fslot bn) k0) as [E|Hne]; [rewrite E in *; lia|].
    rewrite Hsk; [done| |done]. unfold fslot. change (MAXFILE * BSIZE) with 71680 in *. change BSIZE with 512 in *.
    change NSLOT with 141. change NDIRECT with 12. destruct (Z.ltb_spec bn 12); lia.
  - intros k Hk Hs. rewrite block_no_plain by done. destruct (Z.eq_dec k k0) as [->|Hne].
    + rewrite Hsr. split; [lia|]. rewrite E3, Z.eqb_refl by lia. done.
    + rewrite Hsk in * by done. destruct (F7 k Hk Hs) as [H1 H2]. rewrite block_no_plain in H1, H2 by done.
      split; [done|]. rewrite E3, H2 by lia. apply orb_true_r.
  - intros k k' Hk Hk' Hs Hs'. rewrite !block_no_plain by done.
    destruct (Z.eq_dec k k0) as [->|Hne], (Z.eq_dec k' k0) as [->|Hne']; [done|..].
    + rewrite (Hsk k') in Hs' |- * by done. rewrite Hsr. intros E. symmetry in E. by apply Hfresh in E.
    + rewrite (Hsk k) in Hs |- * by done. rewrite Hsr. intros E. by apply Hfresh in E.
    + rewrite (Hsk k), (Hsk k') in * by done. intros E. apply F8; try done. by rewrite !block_no_plain.
  - by apply block_no_plain.
Qed.

Lemma add_all : extends ip s0 s' /\ file_ok s' ip /\ frees s' dev = fr.
Proof. split_and!; [apply add_extends|apply add_file_ok|apply add_meta]. Qed.
End add.

(** ** Allocation in [bmap] *)

(** The free blocks left when the indirect block has been set aside. *)
Definition spare (s : kernel) (ip : nat) : Z :=
  Z.of_nat (length (frees s (i_dev (inode_at ip s)))) - (if slot s ip NDIRECT =? 0 then 1 else 0).

(** What [bmap ip bn] does: the block is there, and at most one spare block is used. *)
Record bmapped (ip : nat) (bn a : Z) (s s' : kernel) : Prop := {
  bm_extends : extends ip s s';
  bm_file : file_ok s' ip;
  bm_slot : slot s' ip (fslot bn) = a;
  bm_addr : a <> 0;
  bm_spare : spare s ip <= spare s' ip + 1;
  bm_same : slot s ip (fslot bn) <> 0 -> icache s' = icache s;
  bm_kept : forall x, data_start (sb_of s (i_dev (inode_at ip s))) <= x -> x <> slot s' ip NDIRECT ->
    disk s' (i_dev (inode_at ip s)) x = disk s (i_dev (inode_at ip s)) x }.

Section bmap.
Context (i : nat).

Lemma slot_direct s ip k : k <= NDIRECT -> slot s ip k = default 0 (i_addrs (inode_at ip s) !! Z.to_nat k).
Proof. intros Hk. unfold slot. destruct (Z.leb_spec k NDIRECT); [done|lia]. Qed.
Lemma slot_entry s ip k : NDIRECT < k ->
  slot s ip k = if slot s ip NDIRECT =? 0 then 0
                else get32 (disk s (i_dev (inode_at ip s)) (slot s ip NDIRECT)) (4 * (k - NDIRECT - 1)).
Proof. intros Hk. unfold slot at 1. destruct (Z.leb_spec k NDIRECT); [lia|]. done. Qed.

Lemma set_direct_slots s s2 ip k r fr : file_ok s ip -> plain s ip -> (forall d x, length (disk s d x) = Z.to_nat BSIZE) ->
  0 <= k <= NDIRECT -> slot s ip k = 0 -> frees s (i_dev (inode_at ip s)) = r :: fr ->
  inode_at ip s2 = (inode_at ip s) <| i_addrs := <[Z.to_nat k := r]> (i_addrs (inode_at ip s)) |> ->
  disk s2 = marked s (i_dev (inode_at ip s)) r ->
  slot s2 ip k = r /\ forall k', 0 <= k' < NSLOT -> k' <> k -> slot s2 ip k' = slot s ip k'.
Proof.
  intros FI HP Hl Hk Hz Hfr Hin D. pose proof (fi_fs _ _ FI) as FS. set (dev := i_dev (inode_at ip s)) in *.
  destruct (fs_ok_marked s s2 dev r fr FS Hl Hfr D) as (_ & _ & _ & Hr & _ & Hd). destruct (frees_head s dev r fr Hfr) as (Hr' & Hu & _).
  pose proof (fi_addrs _ _ FI) as Ha. pose proof (bitmap_range _ _ 0 FS ltac:(lia)) as Hb0.
  assert (Hself : slot s2 ip k = r).
  { rewrite slot_direct, Hin by lia. cbn. rewrite list_lookup_insert_eq; [done|]. change NDIRECT with 12 in Hk. lia. }
  assert (Hdir : forall k', 0 <= k' <= NDIRECT -> k' <> k -> slot s2 ip k' = slot s ip k').
  { intros k' Hk' Hne. rewrite !slot_direct, Hin by lia. cbn. rewrite list_lookup_insert_ne by lia. done. }
  split; [done|]. intros k' Hk' Hne. destruct (Z.le_gt_cases k' NDIRECT) as [Hle|Hgt]; [apply Hdir; lia|].
  rewrite (slot_entry s2), (slot_entry s) by done. destruct (Z.eq_dec k NDIRECT) as [->|Hk12].
  - rewrite Hself, Hz. cbn [Z.eqb]. destruct (Z.eqb_spec r 0); [done|]. rewrite Hin.
    change (i_dev (_ <| i_addrs := _ |>)) with dev. rewrite Hd, (fo_zero _ _ FS) by (done || lia). apply get32_zero.
  - rewrite Hdir by (done || lia). destruct (Z.eqb_spec (slot s ip NDIRECT) 0) as [|Hne12]; [done|]. rewrite Hin.
    change (i_dev (_ <| i_addrs := _ |>)) with dev. fold dev. rewrite Hd; [done|]. by apply slot_data.
Qed.

Lemma cache_ok_icache s H g : cache_ok s H i -> cache_ok (s <| icache ::= g |>) H i.
Proof.
  intros [[[l []] B2 B3 B4 B5 B6] ([p [[] ?]] & ? & ?) C3 C4]. split; [|split; [exists p; done|done]|done|done].
  split; try done. exists l. by split.
Qed.

Lemma wpe_alloc_direct {A} s ip k r fr (f : Z -> M kernel A) Q :
  cache_ok s [] i -> file_ok s ip -> plain s ip -> 0 <= k <= NDIRECT -> slot s ip k = 0 ->
  frees s (i_dev (inode_at ip s)) = r :: fr ->
  (forall s', cache_ok s' [] i -> file_ok s' ip -> extends ip s s' -> frees s' (i_dev (inode_at ip s)) = fr ->
     slot s' ip k = r -> (forall k', 0 <= k' < NSLOT -> k' <> k -> slot s' ip k' = slot s ip k') ->
     (forall x, data_start (sb_of s (i_dev (inode_at ip s))) <= x ->
        disk s' (i_dev (inode_at ip s)) x = disk s (i_dev (inode_at ip s)) x) -> wpe disk_env (f r) s' Q) ->
  wpe disk_env (let! addr := balloc (i_dev (inode_at ip s)) in set_addr ip k addr ;; f addr) s Q.
Proof.
  intros C FI HP Hk Hs Hfr HQ. pose proof (fi_fs _ _ FI) as FS. set (dev := i_dev (inode_at ip s)) in *.
  apply wpe_bind, (wpe_balloc i s [] dev r fr); [done|done|cbn; unfold NBUF; lia|apply data_only_nil|done|]. intros s1 C1 F1.
  unfold set_addr, upd_inode. apply wpe_modify. set (g := fun x : inode => x <| i_addrs ::= <[Z.to_nat k := r]> |>).
  set (s2 := s1 <| icache ::= alter g ip |>). pose proof (iofr_icache _ _ F1) as I1. pose proof (iofr_disk _ _ F1) as D1. cbn in I1, D1.
  set (addrs := <[Z.to_nat k := r]> (i_addrs (inode_at ip s))).
  assert (I2 : icache s2 = alter (fun x => x <| i_addrs := addrs |>) ip (icache s)).
  { unfold s2. cbn. rewrite I1. destruct (lookup_lt_is_Some_2 _ _ (fi_in _ _ FI)) as [x Hx].
    rewrite !(list_alter_lookup _ _ x) by done. f_equal. unfold addrs, inode_at. by rewrite Hx. }
  assert (Hin : inode_at ip s2 = (inode_at ip s) <| i_addrs := addrs |>) by exact (inode_alter _ _ _ _ (fi_in _ _ FI) I2).
  assert (Hl := co_sectors _ _ _ C). assert (Hla : length addrs = 13%nat) by (unfold addrs; rewrite length_insert; apply FI).
  assert (W : wrfr s s2).
  { unfold wrfr. cbn. rewrite D1, I1. apply (iofr_set_icache _ _ (alter g ip (icache s))) in F1.
    replace s2 with (s1 <| icache := alter g ip (icache s) |>) by (unfold s2; kext; cbn; by rewrite I1). exact F1. }
  destruct (set_direct_slots s s2 ip k r fr) as [S1 S2]; try done.
  destruct (add_all s s2 ip k r fr addrs dev) as (X & F2 & Hfr2); try done.
  { intros d x _. unfold s2. cbn. by rewrite D1. }
  apply HQ; try done.
  - by apply cache_ok_icache.
  - intros x Hx. unfold s2. cbn. rewrite D1.
    destruct (fs_ok_marked s (s <| disk := marked s dev r |>) dev r fr FS Hl Hfr ltac:(done)) as (_ & _ & _ & _ & _ & Hm).
    exact (Hm x Hx).
Qed.

Lemma set_entry_slots s s2 ip k r : (forall d x, length (disk s d x) = Z.to_nat BSIZE) ->
  NDIRECT < k < NSLOT -> slot s ip NDIRECT <> 0 -> 0 <= r < 2 ^ 32 -> icache s2 = icache s ->
  disk s2 (i_dev (inode_at ip s)) (slot s ip NDIRECT) =
    splice (disk s (i_dev (inode_at ip s)) (slot s ip NDIRECT)) (4 * (k - NDIRECT - 1)) (le32 r) ->
  slot s2 ip k = r /\ forall k', 0 <= k' < NSLOT -> k' <> k -> slot s2 ip k' = slot s ip k'.
Proof.
  intros Hl Hk Hi Hr I D. assert (Hin : inode_at ip s2 = inode_at ip s) by (unfold inode_at; by rewrite I).
  assert (Hdir : forall k', k' <= NDIRECT -> slot s2 ip k' = slot s ip k') by (intros k' Hk'; rewrite !slot_direct, Hin by done; done).
  assert (Hz : (slot s ip NDIRECT =? 0) = false) by by apply Z.eqb_neq.
  set (l := disk s (i_dev (inode_at ip s)) (slot s ip NDIRECT)) in *.
  assert (Hll : Z.of_nat (length l) = 512) by (unfold l; by rewrite Hl). change NSLOT with 141 in *.
  split.
  - rewrite slot_entry, Hdir, Hz, Hin, D by (done || lia). change NDIRECT with 12 in *. apply get32_splice_in; lia.
  - intros k' Hk' Hne. destruct (Z.le_gt_cases k' NDIRECT) as [|Hgt]; [by apply Hdir|].
    rewrite (slot_entry s2), (slot_entry s), Hdir, Hz, Hin, D by (done || lia). fold l. change NDIRECT with 12 in *.
    apply get32_splice_out; rewrite ?le32_length; lia.
Qed.

Lemma bmapped_same s s' ip bn a : file_ok s ip -> iofr s s' -> slot s ip (fslot bn) = a -> a <> 0 -> bmapped ip bn a s s'.
Proof.
  intros FI F Ha Hnz. pose proof (iofr_disk _ _ F) as D. pose proof (iofr_icache _ _ F) as I.
  assert (Es : forall k, slot s' ip k = slot s ip k) by (intros k; unfold slot, indirect, inode_at; by rewrite D, I).
  destruct (meta_same s s' (i_dev (inode_at ip s)) (fi_fs _ _ FI)) as (_ & _ & Ef); [by intros; rewrite D|].
  split; [by apply iofr_extends| |by rewrite Es|done| |done|intros; by rewrite D].
  - by apply (same_file s s').
  - unfold spare. replace (inode_at ip s') with (inode_at ip s) by (unfold inode_at; by rewrite I). rewrite Es, Ef. lia.
Qed.

(** The entry [k] of the indirect block, which the process owns, is empty: it gets a new
    block. *)
Lemma wpe_alloc_entry s s1 ip bn bp r fr (Q : Z -> kernel -> Prop) :
  file_ok s ip -> plain s ip -> (forall d x, length (disk s d x) = Z.to_nat BSIZE) ->
  NDIRECT <= bn < MAXFILE -> slot s ip NDIRECT <> 0 -> slot s ip (bn + 1) = 0 ->
  frees s (i_dev (inode_at ip s)) = r :: fr -> iofr s s1 ->
  cache_ok s1 [(bp, (i_dev (inode_at ip s), slot s ip NDIRECT, disk s (i_dev (inode_at ip s)) (slot s ip NDIRECT)))] i ->
  (forall s', cache_ok s' [] i -> extends ip s s' -> file_ok s' ip -> frees s' (i_dev (inode_at ip s)) = fr ->
     slot s' ip (bn + 1) = r -> slot s' ip NDIRECT = slot s ip NDIRECT ->
     (forall x, data_start (sb_of s (i_dev (inode_at ip s))) <= x -> x <> slot s ip NDIRECT ->
        disk s' (i_dev (inode_at ip s)) x = disk s (i_dev (inode_at ip s)) x) -> Q r s') ->
  wpe disk_env (
    let! addr := balloc (i_dev (inode_at ip s)) in
    let! l := data_of bp in
    set_data bp (splice l (4 * (bn - NDIRECT)) (le32 addr)) ;;
    bwrite bp ;;
    brelse bp ;;
    ret addr) s1 Q.
Proof.
  intros FI HP Hl Hbn Hi Hz Hfr F1 C1 HQ. pose proof (fi_fs _ _ FI) as FS. set (dev := i_dev (inode_at ip s)) in *.
  pose proof (iofr_disk _ _ F1) as D1. destruct (meta_same s s1 dev FS) as (E1 & _ & E3); [by intros; rewrite D1|].
  destruct (slot_data s ip NDIRECT FI HP ltac:(done) Hi) as [Hir _]. fold dev in Hir.
  destruct (fs_ok_marked s (s <| disk := marked s dev r |>) dev r fr FS Hl Hfr ltac:(done)) as (_ & _ & _ & Hr & _ & Hm).
  eapply wpe_bind, (wpe_balloc i s1 _ dev r fr); [exact C1| |cbn; unfold NBUF; lia| |by rewrite E3|].
  { eapply fs_ok_same; [exact FS|..]; intros; by rewrite D1. }
  { intros c kb Hin _. apply list_elem_of_singleton in Hin. injection Hin as -> ->. cbn [fst snd]. rewrite E1. lia. }
  intros s2 C2 F2. pose proof (iofr_disk _ _ F2) as D2. cbn in D2. unfold marked in D2. rewrite E1, D1 in D2. fold (marked s dev r) in D2.
  destruct (frees_head s dev r fr Hfr) as (Hr0 & _). pose proof (fo_size _ _ FS). eapply wpe_data; [exact C2|].
  set (l' := splice _ _ _). assert (Hll : Z.of_nat (length (disk s dev (slot s ip NDIRECT))) = 512) by (by rewrite Hl).
  change MAXFILE with 140 in Hbn. assert (H4 : 0 <= 4 * (bn - NDIRECT) <= 508) by (change NDIRECT with 12 in *; lia).
  eapply (wpe_store i s2 [] bp dev (slot s ip NDIRECT) _ l'); [exact C2| | |].
  { unfold l'. rewrite splice_length by (rewrite ?le32_length; lia). apply Hl. }
  { unfold l'. rewrite <- D1. apply splice_bytes; [apply C1|apply le32_bytes]. }
  intros s3 C3 F3 D3. eapply wpe_release; [rewrite D3, disk_put_at; exact C3|]. intros s4 C4 F4. apply wpe_ret.
  pose proof (iofr_disk _ _ F4) as D4. rewrite D3, D2 in D4.
  assert (I4 : icache s4 = icache s).
  { rewrite (iofr_icache _ _ F4), (iofr_icache _ _ F3). cbn. rewrite (iofr_icache _ _ F2). cbn. apply (iofr_icache _ _ F1). }
  destruct (set_entry_slots s s4 ip (bn + 1) r) as [S1 S2]; [done|change NSLOT with 141; lia|done|lia|done| |].
  { fold dev. rewrite D4, disk_put_at. unfold l'. f_equal. lia. }
  assert (Hd4 : forall d x, slot s ip NDIRECT = 0 \/ (d, x) <> (dev, slot s ip NDIRECT) -> disk s4 d x = marked s dev r d x).
  { intros d x [?|Hne]; [done|]. rewrite D4. by rewrite disk_put_ne. }
  destruct (add_all s s4 ip (bn + 1) r fr (i_addrs (inode_at ip s)) dev) as (X & FI4 & Hfr4); try done.
  { rewrite F1, (wrfr_disk _ _ _ F2), (wrfr_disk _ _ _ F3), F4. done. } { by rewrite I4, alter_same_addrs. } { apply FI. }
  apply HQ; [done|done|done|done|done| |].
  - apply S2; [done|lia].
  - intros x Hx Hne. rewrite Hd4 by (right; congruence). exact (Hm x Hx).
Qed.

(** [bmap] when the indirect block is there. *)
Lemma wpe_bmap_entry s ip bn (Q : Z -> kernel -> Prop) :
  cache_ok s [] i -> file_ok s ip -> plain s ip -> NDIRECT <= bn < MAXFILE -> slot s ip NDIRECT <> 0 ->
  (slot s ip (fslot bn) = 0 -> 1 <= spare s ip) ->
  (forall a s', cache_ok s' [] i -> bmapped ip bn a s s' -> Q a s') ->
  wpe disk_env
    (let! bp := bread (i_dev (inode_at ip s)) (slot s ip NDIRECT) in
     let! l := data_of bp in
     let addr := get32 l (4 * (bn - NDIRECT)) in
     if addr =? 0 then
       let! addr := balloc (i_dev (inode_at ip s)) in
       let! l := data_of bp in
       set_data bp (splice l (4 * (bn - NDIRECT)) (le32 addr)) ;;
       bwrite bp ;;
       brelse bp ;;
       ret addr
     else
       brelse bp ;;
       ret addr) s Q.
Proof.
  intros C FI HP Hbn Hi Hsp HQ. pose proof (fi_fs _ _ FI) as FS. set (dev := i_dev (inode_at ip s)) in *.
  destruct (slot_data s ip NDIRECT FI HP ltac:(done) Hi) as [Hir Hiu]. fold dev in Hir, Hiu.
  pose proof (fo_size _ _ FS). pose proof (fo_dev _ _ FS). pose proof (bitmap_range _ _ 0 FS ltac:(pose proof (fs_size_pos _ _ FS); lia)).
  assert (Ef : fslot bn = bn + 1) by (unfold fslot; destruct (Z.ltb_spec bn NDIRECT); lia).
  assert (Es : slot s ip (fslot bn) = get32 (disk s dev (slot s ip NDIRECT)) (4 * (bn - NDIRECT))).
  { rewrite Ef, slot_entry by lia. apply Z.eqb_neq in Hi. rewrite Hi. fold dev. f_equal. lia. }
  apply wpe_bind, (wpe_read i s []); [done|split; lia|cbn; unfold NBUF; lia|set_solver|]. intros bp s1 C1 F1.
  pose proof (iofr_disk _ _ F1) as D1. eapply wpe_data; [exact C1|]. cbv zeta. rewrite <- Es.
  destruct (Z.eqb_spec (slot s ip (fslot bn)) 0) as [Hz|Hnz].
  2: { eapply wpe_release; [rewrite D1; exact C1|]. intros s2 C2 F2. apply wpe_ret. apply HQ; [done|].
       apply bmapped_same; [done| |done|done]. by transitivity s1. }
  specialize (Hsp Hz). unfold spare in Hsp. apply Z.eqb_neq in Hi as Hi'. rewrite Hi' in Hsp. fold dev in Hsp.
  destruct (frees s dev) as [|r fr] eqn:Hfr; [cbn in Hsp; lia|].
  apply (wpe_alloc_entry s s1 ip bn bp r fr); try done; [apply C|by rewrite <- Ef|].
  intros s' C' X FI' Hfr' S1 S2 Hk. destruct (extends_dev _ _ _ X) as (Ed & _).
  destruct (fs_ok_marked s (s <| disk := marked s dev r |>) dev r fr FS ltac:(apply C) Hfr ltac:(done)) as (_ & _ & _ & Hr & _).
  apply HQ; [done|]. split; [done|done|by rewrite Ef|lia| |done|].
  - unfold spare. rewrite Ed, Hfr'. fold dev. rewrite Hfr, S2, Hi'. cbn [length]. lia.
  - fold dev. intros x Hx Hne. rewrite S2 in Hne. by apply Hk.
Qed.

Lemma spare_frees s ip : 1 <= spare s ip -> exists r fr, frees s (i_dev (inode_at ip s)) = r :: fr.
Proof.
  intros Hs. unfold spare in Hs. destruct (frees s _) as [|r fr]; [|by eauto].
  cbn [length] in Hs. destruct (slot s ip NDIRECT =? 0); lia.
Qed.

Lemma wpe_bmap s ip bn (Q : Z -> kernel -> Prop) :
  cache_ok s [] i -> file_ok s ip -> plain s ip -> 0 <= bn < MAXFILE ->
  (slot s ip (fslot bn) = 0 -> 1 <= spare s ip) ->
  (forall a s', cache_ok s' [] i -> bmapped ip bn a s s' -> Q a s') ->
  wpe disk_env (bmap ip bn) s Q.
Proof.
  intros C FI HP Hbn Hsp HQ. unfold bmap. apply wpe_gets. destruct (Z.ltb_spec bn NDIRECT) as [Hlt|Hge].
  - assert (Ef : fslot bn = bn) by (unfold fslot; destruct (Z.ltb_spec bn NDIRECT); lia). rewrite Ef in Hsp.
    unfold addr_at. apply wpe_gets. rewrite <- slot_direct by lia. destruct (Z.eqb_spec (slot s ip bn) 0) as [Hz|Hnz].
    + destruct (spare_frees s ip (Hsp Hz)) as (r & fr & Hfr).
      apply (wpe_alloc_direct s ip bn r fr); [done..|lia|done|done|]. intros s' C' FI' X Hfr' S1 S2 Hd. apply wpe_ret, HQ; [done|].
      destruct (extends_dev _ _ _ X) as (Ed & _).
      destruct (fs_ok_marked s (s <| disk := marked s (i_dev (inode_at ip s)) r |>) _ r fr (fi_fs _ _ FI) ltac:(apply C) Hfr ltac:(done)) as (_ & _ & _ & Hr & _).
      destruct (frees_head _ _ _ _ Hfr) as (Hr0 & _). pose proof (bitmap_range _ _ 0 (fi_fs _ _ FI) ltac:(lia)).
      split; [done|done|by rewrite Ef|lia| |by rewrite Ef|by auto].
      unfold spare. rewrite Ed, Hfr, Hfr', S2 by (done || lia). cbn [length]. lia.
    + apply wpe_ret, HQ; [done|]. apply bmapped_same; [done|reflexivity|by rewrite Ef|done].
  - destruct (Z.ltb_spec (bn - NDIRECT) NINDIRECT) as [_|?]; [|unfold MAXFILE in Hbn; lia].
    unfold addr_at. apply wpe_gets. rewrite <- slot_direct by done. destruct (Z.eqb_spec (slot s ip NDIRECT) 0) as [Hz|Hnz].
    2: { apply wpe_bind, wpe_ret. apply (wpe_bmap_entry s ip bn); try done; lia. }
    assert (Ez : slot s ip (fslot bn) = 0).
    { unfold fslot. destruct (Z.ltb_spec bn NDIRECT); [lia|]. rewrite slot_entry, Hz by lia. done. }
    specialize (Hsp Ez). destruct (spare_frees s ip Hsp) as (r & fr & Hfr).
    apply wpe_bind, (wpe_alloc_direct s ip NDIRECT r fr); [done..|]. intros s1 C1 FI1 X1 Hfr1 S1 S2 Hd1. apply wpe_ret.
    destruct (extends_dev _ _ _ X1) as (Ed & _). destruct (frees_head _ _ _ _ Hfr) as (Hr0 & Hru & _).
    assert (Hr : slot s1 ip NDIRECT <> 0).
    { rewrite S1. intros ->. pose proof (bitmap_range _ _ 0 (fi_fs _ _ FI) ltac:(lia)). rewrite (fo_meta _ _ (fi_fs _ _ FI)) in Hru by lia. done. }
    assert (Esp : spare s1 ip = spare s ip).
    { unfold spare. rewrite Ed, Hfr1, Hfr, Hz. apply Z.eqb_neq in Hr. rewrite Hr. cbn [length Z.eqb]. lia. }
    rewrite <- Ed, <- S1. apply (wpe_bmap_entry s1 ip bn); [done|done|by eapply plain_extends|lia|done|lia|].
    intros a s2 C2 [B1 B2 B3 B4 B5 B6 B7]. apply HQ; [done|]. rewrite Ed, (ex_sb _ _ _ X1) in B7.
    split; [by transitivity s1|done|done|done|lia|done|]. intros x Hx Hne. rewrite B7 by done. by apply Hd1.
Qed.
End bmap.

(** ** Writing into a block of the file *)

(** The disk with [l] in the block of slot [k]. *)
Lemma file_put s s' ip k l : file_ok s ip -> plain s ip -> 0 <= k < NSLOT -> k <> NDIRECT -> slot s ip k <> 0 ->
  icache s' = icache s -> disk s' = disk_put (disk s) (i_dev (inode_at ip s), slot s ip k) l -> wrfr s s' ->
  extends ip s s' /\ file_ok s' ip /\ (forall k', 0 <= k' < NSLOT -> slot s' ip k' = slot s ip k') /\
  frees s' (i_dev (inode_at ip s)) = frees s (i_dev (inode_at ip s)).
Proof.
  intros FI HP Hk Hk12 Hs I D W. pose proof (fi_fs _ _ FI) as FS. assert (Hin : inode_at ip s' = inode_at ip s) by (unfold inode_at; by rewrite I).
  destruct (slot_data s ip k FI HP Hk Hs) as [Hr Hu]. set (dev := i_dev (inode_at ip s)) in *.
  pose proof (fs_size_pos _ _ FS). pose proof (bitmap_range s dev 0 FS ltac:(lia)) as Hb0.
  assert (Hd : forall x, x <> slot s ip k -> disk s' dev x = disk s dev x) by (intros x Hx; rewrite D; apply disk_put_ne; congruence).
  assert (Hsl : forall k', 0 <= k' < NSLOT -> slot s' ip k' = slot s ip k').
  { intros k' Hk'. destruct (Z.le_gt_cases k' NDIRECT) as [|Hgt]; [by rewrite !slot_direct, Hin by done|].
    rewrite (slot_entry s'), (slot_entry s), Hin by done. rewrite (slot_direct s' ip NDIRECT), Hin, <- slot_direct by done.
    destruct (Z.eqb_spec (slot s ip NDIRECT) 0) as [|Hne]; [done|]. fold dev. rewrite Hd; [done|].
    intros E. apply Hk12. apply (fi_inj _ _ FI); [done|done|done|done|]. by rewrite !block_no_plain. }
  destruct (meta_same s s' dev FS) as (E1 & E2 & E3); [intros x Hx; apply Hd; lia|]. split_and!; [| |done|done].
  - split; fold dev; try done.
    + rewrite I. exists (i_addrs (inode_at ip s)). symmetry. apply alter_same_addrs.
    + intros b Hb. by rewrite E2.
    + intros k' Hk' _. by apply Hsl.
    + intros k' Hk'. rewrite Hsl by done. done.
    + intros x Hx Hx0 Hux Hn. apply Hd. intros ->. by apply (Hn k).
    + intros x Hx. apply Hd. lia.
    + intros d x Hd'. rewrite D. apply disk_put_ne. congruence.
  - assert (HP' : plain s' ip) by (unfold plain; by rewrite Hin). pose proof FI as [F1 F2 F3 F4 F5 F6 F7 F8 F9].
    split; rewrite ?Hin, ?I; fold dev; rewrite ?E1; try done.
    + eapply fs_ok_same; [exact FS|intros x Hx; apply Hd; lia|]. intros x Hx Hf. apply Hd. intros ->. congruence.
    + intros bn Hbn Hsz. rewrite Hsl; [by apply F6|]. change (MAXFILE * BSIZE) with 71680 in *. change BSIZE with 512 in *.
      unfold fslot. change NSLOT with 141. change NDIRECT with 12. destruct (Z.ltb_spec bn 12); lia.
    + intros k' Hk' Hs'. rewrite block_no_plain, Hsl in * by done. destruct (F7 k' Hk' Hs') as [H1 H2].
      rewrite block_no_plain in H1, H2 by done. split; [done|]. fold dev in H1, H2. by rewrite E2 by lia.
    + intros k1 k2 H1 H2. rewrite !block_no_plain, !Hsl by done. intros N1 N2 E. apply F8; try done. by rewrite !block_no_plain.
    + by rewrite !block_no_plain.
Qed.

(** ** Sources of a write *)

(** What [writei] needs of its source: it holds the bytes [w] while [P] holds. *)
Record feed (src : source) (w : list Z) (P : kernel -> Prop) : Prop := {
  fd_load : forall s tot m, P s -> 0 <= tot -> 0 <= m -> tot + m <= Z.of_nat (length w) ->
    load_from src tot m s = Ret (slice w tot m) s;
  fd_bytes : Forall (fun c => 0 <= c < 256) w;
  fd_same : forall s s', P s -> mem s' = mem s -> cr3 s' = cr3 s -> freelist s' = freelist s ->
    freecount s' = freecount s -> P s' }.

Lemma feed_local w : Forall (fun c => 0 <= c < 256) w -> feed (SLoc w) w (fun _ => True).
Proof. intros Hw. by split. Qed.

Section user_feed.
Context `{HL : LinkerOk}.

Lemma ubytes_slice f m va n tot k : 0 <= tot -> 0 <= k -> tot + k <= Z.of_nat n ->
  ubytes f m (va + tot) (Z.to_nat k) = slice (ubytes f m va n) tot k.
Proof.
  intros Ht Hk Hn. apply list_eq_same_length with (n := Z.to_nat k).
  - rewrite slice_length by (rewrite ?ubytes_length; lia). done.
  - apply ubytes_length.
  - intros j x y Hj Hx Hy. rewrite slice_lookup in Hy by lia. unfold ubytes in *. rewrite list_lookup_fmap, lookup_seq_lt in Hx, Hy by lia.
    cbn in Hx, Hy. injection Hx as <-. injection Hy as <-. do 2 f_equal. lia.
Qed.

(** A buffer of the user. *)
Lemma feed_user s0 f R l va n : uspace s0 f R l -> 0 <= va -> 0 <= n -> va + n <= USERTOP -> user_pages f va (va + n) ->
  feed (SVa va) (ubytes f (mem s0) va (Z.to_nat n)) (fun s => uspace s f R l /\ mem s = mem s0).
Proof.
  intros U0 H0 Hn Ht Hu. split.
  - intros s tot m [U Em] H1 H2 H3. rewrite ubytes_length in H3. cbn [load_from]. rewrite u32_small by (unfold USERTOP in *; lia).
    assert (W : wp (vread (va + tot) (Z.to_nat m)) s (fun r s' => r = ubytes f (mem s) (va + tot) (Z.to_nat m) /\ s' = s)).
    { apply (wp_vread _ s f R l); [done|lia|lia|intros v Hv; apply Hu; lia|done]. }
    apply wp_elim in W as (r & s' & E & -> & ->). rewrite E, Em. by rewrite (ubytes_slice f (mem s0) va (Z.to_nat n)) by lia.
  - apply ubytes_range.
  - intros s s' [U Em] E1 E2 E3 E4. split; [by eapply uspace_same|by rewrite E1].
Qed.
End user_feed.

(** ** The loop of [writei] *)

(** The bytes [c] have been written at [off], the other bytes of the blocks are as before. *)
Definition written (ip : nat) (s s' : kernel) (off : Z) (c : list Z) : Prop :=
  forall o, 0 <= o < MAXFILE * BSIZE ->
    if (off <=? o) && (o <? off + Z.of_nat (length c))
    then slot s' ip (fslot (o / BSIZE)) <> 0 /\ file_byte s' ip o = byte_at c (o - off)
    else slot s ip (fslot (o / BSIZE)) <> 0 -> file_byte s' ip o = file_byte s ip o.

Lemma byte_at_app c1 c2 p : 0 <= p ->
  byte_at (c1 ++ c2) p = if p <? Z.of_nat (length c1) then byte_at c1 p else byte_at c2 (p - Z.of_nat (length c1)).
Proof.
  intros Hp. unfold byte_at. destruct (Z.ltb_spec p (Z.of_nat (length c1))).
  - by rewrite lookup_app_l by lia.
  - rewrite lookup_app_r by lia. do 2 f_equal. lia.
Qed.

Lemma fslot_range o : 0 <= o < MAXFILE * BSIZE -> 0 <= o / BSIZE < MAXFILE /\ 0 <= fslot (o / BSIZE) < NSLOT /\ fslot (o / BSIZE) <> NDIRECT.
Proof.
  intros Ho. change (MAXFILE * BSIZE) with 71680 in Ho. change MAXFILE with 140. change NSLOT with 141. unfold fslot.
  change NDIRECT with 12. change BSIZE with 512. assert (0 <= o / 512 < 140) by (Z.div_mod_to_equations; lia).
  destruct (Z.ltb_spec (o / 512) 12); lia.
Qed.
Lemma fslot_inj a b : 0 <= a -> 0 <= b -> fslot a = fslot b -> a = b.
Proof. unfold fslot. intros Ha Hb. destruct (Z.ltb_spec a NDIRECT), (Z.ltb_spec b NDIRECT); lia. Qed.

Lemma written_app ip s s1 s2 off c1 c2 : 0 <= off -> extends ip s s1 -> extends ip s1 s2 ->
  written ip s s1 off c1 -> written ip s1 s2 (off + Z.of_nat (length c1)) c2 -> written ip s s2 off (c1 ++ c2).
Proof.
  intros Hoff X1 X2 W1 W2 o Ho. specialize (W1 o Ho). specialize (W2 o Ho). destruct (fslot_range o Ho) as (_ & Hr & _).
  rewrite length_app. destruct (Z.leb_spec off o) as [L1|L1]; cbn [andb] in *.
  - rewrite byte_at_app by lia. destruct (Z.ltb_spec o (off + Z.of_nat (length c1))) as [L2|L2].
    + destruct W1 as [N1 B1]. destruct (Z.ltb_spec o (off + Z.of_nat (length c1 + length c2))); [|lia].
      destruct (Z.ltb_spec (o - off) (Z.of_nat (length c1))); [|lia].
      destruct (Z.leb_spec (off + Z.of_nat (length c1)) o); [lia|]. cbn [andb] in W2. split; [|by rewrite W2].
      by rewrite (ex_slots _ _ _ X2).
    + destruct (Z.leb_spec (off + Z.of_nat (length c1)) o); [|lia]. cbn [andb] in W2.
      destruct (Z.ltb_spec o (off + Z.of_nat (length c1) + Z.of_nat (length c2))) as [L3|L3];
        destruct (Z.ltb_spec o (off + Z.of_nat (length c1 + length c2))); try lia.
      * destruct (Z.ltb_spec (o - off) (Z.of_nat (length c1))); [lia|]. destruct W2 as [N2 B2]. split; [done|]. rewrite B2. f_equal. lia.
      * intros N. rewrite W2, W1; [done|done|]. by rewrite (ex_slots _ _ _ X1).
  - destruct (Z.leb_spec (off + Z.of_nat (length c1)) o); [lia|]. cbn [andb] in W2. intros N. rewrite W2, W1; [done|done|].
    by rewrite (ex_slots _ _ _ X1).
Qed.

Lemma file_byte_plain s ip o : plain s ip ->
  file_byte s ip o = byte_at (disk s (i_dev (inode_at ip s)) (slot s ip (fslot (o / BSIZE)))) (o mod BSIZE).
Proof. intros HP. unfold file_byte, file_block. by rewrite block_no_plain. Qed.

Section write.
Context (i : nat).

(** One block: [bmap], then the block is changed. *)
Lemma written_block ip s s1 s2 off c a : file_ok s ip -> plain s ip -> bmapped ip (off / BSIZE) a s s1 -> plain s1 ip ->
  (forall d x, length (disk s1 d x) = Z.to_nat BSIZE) ->
  0 <= off -> off mod BSIZE + Z.of_nat (length c) <= BSIZE -> off + Z.of_nat (length c) <= MAXFILE * BSIZE -> off < MAXFILE * BSIZE ->
  icache s2 = icache s1 ->
  disk s2 = disk_put (disk s1) (i_dev (inode_at ip s), a) (splice (disk s1 (i_dev (inode_at ip s)) a) (off mod BSIZE) c) ->
  (forall k, 0 <= k < NSLOT -> slot s2 ip k = slot s1 ip k) ->
  written ip s s2 off c.
Proof.
  intros FI HP [X FI1 Ea Hnz _ _ Hkept] HP1 Hl Hoff Hc1 Hc2 Hc3 I D S o Ho.
  destruct (extends_dev _ _ _ X) as (Ed & _). set (dev := i_dev (inode_at ip s)) in *.
  assert (Hin : inode_at ip s2 = inode_at ip s1) by (unfold inode_at; by rewrite I).
  assert (HP2 : plain s2 ip) by (unfold plain; by rewrite Hin).
  destruct (fslot_range o Ho) as (Hbo & Hko & Ho12). destruct (fslot_range off ltac:(lia)) as (Hb & Hk & H12).
  assert (Hbytes : file_byte s2 ip o = byte_at (disk s2 dev (slot s1 ip (fslot (o / BSIZE)))) (o mod BSIZE)).
  { rewrite file_byte_plain, Hin, Ed, S by done. done. }
  assert (Hold : slot s ip (fslot (o / BSIZE)) <> 0 -> slot s1 ip (fslot (o / BSIZE)) = slot s ip (fslot (o / BSIZE)) /\
    byte_at (disk s1 dev (slot s1 ip (fslot (o / BSIZE)))) (o mod BSIZE) = file_byte s ip o).
  { intros N. pose proof (ex_slots _ _ _ X _ Hko N) as E. split; [done|]. rewrite file_byte_plain by done. fold dev.
    destruct (slot_data s ip _ FI HP Hko N) as [Hr _]. rewrite E, Hkept; [done|apply Hr|]. intros E'. rewrite <- E in E'.
    apply Ho12, (fi_inj _ _ FI1); rewrite ?block_no_plain by done; try done; rewrite ?E, <- ?E', ?E; done. }
  pose proof (Z.mod_pos_bound off BSIZE eq_refl) as Hm1. pose proof (Z.mod_pos_bound o BSIZE eq_refl) as Hm2.
  pose proof (Z.div_mod off BSIZE ltac:(done)) as Hd1. pose proof (Z.div_mod o BSIZE ltac:(done)) as Hd2.
  destruct (Z.eq_dec (o / BSIZE) (off / BSIZE)) as [E|E].
  - rewrite E in *. rewrite Ea in *. rewrite Hbytes, D, disk_put_at, byte_at_splice; [|lia|lia|rewrite Hl; unfold BSIZE in *; lia].
    replace ((off mod BSIZE <=? o mod BSIZE) && (o mod BSIZE <? off mod BSIZE + Z.of_nat (length c)))
      with ((off <=? o) && (o <? off + Z.of_nat (length c))).
    2: { f_equal; apply eq_iff_eq_true; rewrite ?Z.leb_le, ?Z.ltb_lt; lia. }
    destruct ((off <=? o) && (o <? off + Z.of_nat (length c))).
    + split; [by rewrite S, Ea|]. f_equal. lia.
    + intros N. apply (Hold N).
  - replace ((off <=? o) && (o <? off + Z.of_nat (length c))) with false.
    2: { symmetry. apply andb_false_iff. rewrite Z.leb_gt, Z.ltb_ge. unfold BSIZE in *. lia. }
    intros N. destruct (Hold N) as [Es Eb]. rewrite Hbytes, D, disk_put_ne; [done|]. intros [= Ex].
    apply E, fslot_inj; [lia|lia|]. apply (fi_inj _ _ FI1); rewrite ?block_no_plain, ?Ea by done; try done. by rewrite Es.
Qed.

Lemma wrfr_cr3 s s' : io_ok s i -> io_ok s' i -> wrfr s s' -> cr3 s' = cr3 s.
Proof.
  intros [[p [R E]] _] [[q [R' E']] _] [_ P]. rewrite E, E'. f_equal.
  destruct (Forall2_lookup_l _ _ _ _ _ P (io_proc _ _ _ R)) as (q' & Hq & Hs).
  rewrite (io_proc _ _ _ R') in Hq. injection Hq as <-. unfold psim in Hs. by rewrite Hs.
Qed.
Lemma feed_wrfr src w P s s' : feed src w P -> io_ok s i -> io_ok s' i -> wrfr s s' -> P s -> P s'.
Proof.
  intros K O O' F HP. apply (fd_same _ _ _ K s); [done|..]; try by rewrite (fr_eq _ _ F). by apply wrfr_cr3.
Qed.

(** The blocks that [m] bytes at [off] touch. *)
Definition nblocks (off m : Z) : Z := (off mod BSIZE + m + BSIZE - 1) / BSIZE.

(** What the loop of [writei] does. *)
Record wrote (ip : nat) (s s' : kernel) (off : Z) (c : list Z) : Prop := {
  wr_cache : cache_ok s' [] i;
  wr_file : file_ok s' ip;
  wr_extends : extends ip s s';
  wr_bytes : written ip s s' off c;
  wr_same : (forall o, off <= o < off + Z.of_nat (length c) -> slot s ip (fslot (o / BSIZE)) <> 0) -> icache s' = icache s }.

Lemma wrote_nil ip s off : cache_ok s [] i -> file_ok s ip -> wrote ip s s off [].
Proof.
  intros C FI. split; [done|done|reflexivity| |done]. intros o Ho. cbn [length]. rewrite Z.add_0_r.
  replace ((off <=? o) && (o <? off)) with false; [done|]. symmetry. apply andb_false_iff. rewrite Z.leb_gt, Z.ltb_ge. lia.
Qed.
Lemma wrote_app ip s s1 s2 off c1 c2 : 0 <= off -> off + Z.of_nat (length (c1 ++ c2)) <= MAXFILE * BSIZE ->
  wrote ip s s1 off c1 -> wrote ip s1 s2 (off + Z.of_nat (length c1)) c2 -> wrote ip s s2 off (c1 ++ c2).
Proof.
  intros Hoff Hmax [A1 A2 A3 A4 A5] [B1 B2 B3 B4 B5]. rewrite length_app in Hmax.
  split; [done|done|by transitivity s1|by eapply written_app|].
  rewrite length_app. intros Hall. rewrite B5, A5; [done|..].
  - intros o Ho. apply Hall. lia.
  - intros o Ho. rewrite (ex_slots _ _ _ A3); [apply Hall; lia| |apply Hall; lia]. apply (fslot_range o). lia.
Qed.

(** One turn of the loop. *)
Lemma wpe_write_block {A} s ip src off n tot w P (k : M kernel A) Q :
  let m := Z.min (n - tot) (BSIZE - off mod BSIZE) in
  cache_ok s [] i -> file_ok s ip -> plain s ip -> feed src w P -> P s -> n <= Z.of_nat (length w) ->
  0 <= tot < n -> 0 <= off -> off + (n - tot) <= MAXFILE * BSIZE -> 1 <= spare s ip ->
  (forall s', wrote ip s s' off (slice w tot m) -> spare s ip <= spare s' ip + 1 -> wpe disk_env k s' Q) ->
  wpe disk_env (
    let! i := gets (inode_at ip) in
    let! addr := bmap ip (off / BSIZE) in
    let! bp := bread (i_dev i) addr in
    let! w := load_from src tot m in
    let! l := data_of bp in
    let l := splice l (off mod BSIZE) w in
    set_data bp l ;;
    bwrite bp ;;
    when (i_type i =? T_CHECKED)
      (let! r := set_checksum ip (off / BSIZE) (gen_checksum l) in
       when (r <? 0) (cprintf "writei: set checksum failed
" [])) ;;
    brelse bp ;;
    k) s Q.
Proof.
  intros m C FI HP K Ps Hw Ht Ho Hmax Hsp HQ. pose proof (Z.mod_pos_bound off BSIZE eq_refl) as Hmod.
  destruct (fslot_range off ltac:(lia)) as (Hbn & Hkr & H12). apply wpe_gets.
  apply wpe_bind, (wpe_bmap i s ip (off / BSIZE)); [done..|lia|]. intros a s1 C1 B. pose proof B as [X FI1 Ea Hnz Hs1 Hsame _].
  destruct (extends_dev _ _ _ X) as (Ed & _). assert (HP1 : plain s1 ip) by by eapply plain_extends.
  destruct (slot_data s1 ip _ FI1 HP1 Hkr ltac:(by rewrite Ea)) as [Hra _]. rewrite Ea, Ed in Hra.
  pose proof (fi_fs _ _ FI1) as FS1. rewrite Ed in FS1. set (dev := i_dev (inode_at ip s)) in *.
  pose proof (fo_size _ _ FS1). pose proof (fo_dev _ _ FS1). pose proof (bitmap_range _ _ 0 FS1 ltac:(pose proof (fs_size_pos _ _ FS1); lia)).
  apply wpe_bind, (wpe_read i s1 []); [done|split; lia|cbn; unfold NBUF; lia|set_solver|]. intros bp s2 C2 F2.
  assert (P2 : P s2).
  { eapply (feed_wrfr src w P s s2); try done; [apply C|apply C2|]. rewrite (ex_frame _ _ _ X). by apply iofr_wrfr. }
  pose proof (iofr_disk _ _ F2) as D2. pose proof (iofr_icache _ _ F2) as I2.
  apply wpe_bind, wp_wpe. unfold wp. rewrite (fd_load _ _ _ K s2 tot m) by (done || lia). set (c := slice w tot m).
  assert (Hc : Z.of_nat (length c) = m) by (unfold c; rewrite slice_length by lia; lia).
  eapply wpe_data; [exact C2|]. set (l' := splice _ _ c). assert (Hl1 := co_sectors _ _ _ C1).
  assert (Hll : Z.of_nat (length (disk s1 dev a)) = BSIZE) by (by rewrite Hl1). cbv zeta.
  eapply (wpe_store i s2 [] bp dev a _ l'); [exact C2| | |].
  { unfold l'. rewrite splice_length by lia. apply C1. }
  { unfold l'. apply splice_bytes; [apply C1|]. unfold c, slice. apply Forall_take, Forall_drop, K. }
  intros s3 C3 F3 D3. destruct HP as [HT1 HT2]. apply Z.eqb_neq in HT2 as HT2'. rewrite HT2'. cbn [when]. apply wpe_bind, wpe_ret.
  eapply wpe_release; [rewrite D3, disk_put_at; exact C3|]. intros s4 C4 F4. pose proof (iofr_disk _ _ F4) as D4. rewrite D3, D2 in D4.
  assert (I4 : icache s4 = icache s1) by (rewrite (iofr_icache _ _ F4), (iofr_icache _ _ F3); exact I2).
  assert (W : wrfr s1 s4) by (rewrite F2, (wrfr_disk _ _ _ F3), F4; done).
  destruct (file_put s1 s4 ip (fslot (off / BSIZE)) l') as (X4 & FI4 & S4 & Fr4); rewrite ?Ea, ?Ed; try done. rewrite Ed in Fr4.
  apply HQ.
  - split; [done|done|by transitivity s1| |].
    + eapply (written_block ip s s1 s4 off c a); try done; try lia.
    + intros Hall. rewrite I4. apply Hsame, Hall. fold c. lia.
  - unfold spare in *. rewrite (proj1 (extends_dev _ _ _ X4)), Ed in *. fold dev in Hs1 |- *. rewrite Fr4, S4 by done. lia.
Qed.

Lemma wpe_writei_loop fuel : forall s ip src off n tot w P (Q : Z -> kernel -> Prop),
  cache_ok s [] i -> file_ok s ip -> plain s ip -> feed src w P -> P s -> n <= Z.of_nat (length w) ->
  0 <= tot <= n -> 0 <= off -> off + (n - tot) <= MAXFILE * BSIZE -> (tot < n -> nblocks off (n - tot) <= spare s ip) ->
  (0 < fuel)%nat -> (tot < n -> off mod BSIZE + (n - tot) <= BSIZE * (Z.of_nat fuel - 1)) ->
  (forall s', wrote ip s s' off (slice w tot (n - tot)) -> Q (off + (n - tot)) s') ->
  wpe disk_env (writei_loop fuel ip src off n tot) s Q.
Proof.
  induction fuel as [|fuel IH]; intros s ip src off n tot w P Q C FI HP K Ps Hw Ht Ho Hmax Hsp Hf0 Hf HQ; [lia|].
  cbn [writei_loop]. destruct (Z.ltb_spec tot n) as [Hlt|Hge].
  2: { apply wpe_ret. replace (n - tot) with 0 in HQ by lia. rewrite Z.add_0_r in HQ. apply HQ. by apply wrote_nil. }
  specialize (Hsp Hlt). specialize (Hf Hlt). pose proof (Z.mod_pos_bound off BSIZE eq_refl) as Hmod.
  set (m := Z.min (n - tot) (BSIZE - off mod BSIZE)). assert (Hm : 0 < m <= n - tot) by lia.
  assert (Hn1 : 1 <= nblocks off (n - tot)).
  { unfold nblocks, BSIZE in *. Z.div_mod_to_equations; lia. }
  apply (wpe_write_block s ip src off n tot w P); try done; [lia|lia|]. fold m. intros s1 W1 Hs1. pose proof W1 as [C1 FI1 X1 _ _].
  assert (Hc : Z.of_nat (length (slice w tot m)) = m) by (rewrite slice_length by lia; lia).
  apply (IH s1 ip src (off + m) n (tot + m) w P); try done; try lia.
  - by eapply plain_extends.
  - eapply (feed_wrfr src w P s s1); try done; [apply C|apply C1|apply X1].
  - intros Hlt'. assert (Em : m = BSIZE - off mod BSIZE) by lia. unfold nblocks in *.
    replace ((off + m) mod BSIZE) with 0 by (rewrite Em; unfold BSIZE in *; Z.div_mod_to_equations; lia).
    assert (off mod BSIZE + (n - tot) + BSIZE - 1 = (0 + (n - (tot + m)) + BSIZE - 1) + 1 * BSIZE) as E by lia.
    rewrite E, Z.div_add in Hsp by done. lia.
  - unfold BSIZE in *. lia.
  - intros Hlt'. assert (Em : m = BSIZE - off mod BSIZE) by lia.
    replace ((off + m) mod BSIZE) with 0 by (rewrite Em; unfold BSIZE in *; Z.div_mod_to_equations; lia). unfold BSIZE in *. lia.
  - intros s2 W2. replace (off + m + (n - (tot + m))) with (off + (n - tot)) by lia. apply HQ.
    replace (n - tot) with (m + (n - (tot + m))) by lia. rewrite <- slice_app by lia. eapply wrote_app; [done| |exact W1|by rewrite Hc].
    rewrite slice_app by lia. rewrite slice_length by lia. lia.
Qed.
End write.
