(* ===== verification/FsSpec.v ===== *)
(** Files: [iupdate], [writei] and [itrunc], and reading back what was written. *)
From S2P Require Import Prelude Types Mem Kalloc PageTable Cons Vm VmProofs VmUser VmSpec Shm Sched Ide Bio UserMem UserView Inode Console Fs FsBlocks FsFile FsWrite.

(** ** Inodes on disk *)

(** The fields of an inode fit the fields of [struct dinode]. *)
Record dinode_ok (d : dinode) : Prop := {
  do_type : - 2 ^ 15 <= d_type d < 2 ^ 15;
  do_major : - 2 ^ 15 <= d_major d < 2 ^ 15;
  do_minor : - 2 ^ 15 <= d_minor d < 2 ^ 15;
  do_nlink : - 2 ^ 15 <= d_nlink d < 2 ^ 15;
  do_size : 0 <= d_size d < 2 ^ 32;
  do_addrs : length (d_addrs d) = 13%nat;
  do_addr : Forall (fun a => 0 <= a < 2 ^ 32) (d_addrs d) }.

Lemma concat_le32_length l : length (concat (le32 <$> l)) = (4 * length l)%nat.
Proof. induction l as [|a l IH]; [done|]. rewrite fmap_cons. cbn [concat]. rewrite length_app, IH, le32_length. cbn [length]. lia. Qed.
Lemma dinode_bytes_length d : length (d_addrs d) = 13%nat -> length (dinode_bytes d) = 64%nat.
Proof. intros H. unfold dinode_bytes. rewrite !length_app, concat_le32_length, H. done. Qed.
Lemma dinode_bytes_range d : Forall (fun c => 0 <= c < 256) (dinode_bytes d).
Proof.
  assert (H16 : forall v, Forall (fun c => 0 <= c < 256) (le16 v)) by (intros v; repeat constructor; apply u8_range).
  unfold dinode_bytes. rewrite !Forall_app. split_and!; try apply H16; try apply le32_bytes.
  induction (d_addrs d) as [|a l IH]; [constructor|]. rewrite fmap_cons. cbn [concat]. apply Forall_app. split; [apply le32_bytes|done].
Qed.

Lemma short_get v : - 2 ^ 15 <= v < 2 ^ 15 -> s16 (u8 v + 2 ^ 8 * u8 (v / 2 ^ 8)) = v.
Proof.
  intros Hv. unfold s16, u16. rewrite !u8_eq.
  change (2 ^ 8) with 256; change (2 ^ 15) with 32768 in *; change (2 ^ 16) with 65536.
  assert (E : v mod 256 + 256 * ((v / 256) mod 256) = v mod 65536) by (Z.div_mod_to_equations; lia). rewrite E, Z.mod_mod by done.
  destruct (Z.ltb_spec (v mod 65536) 32768); Z.div_mod_to_equations; lia.
Qed.
Lemma uint_get v : 0 <= v < 2 ^ 32 -> u8 v + 2 ^ 8 * u8 (v / 2 ^ 8) + 2 ^ 16 * u8 (v / 2 ^ 16) + 2 ^ 24 * u8 (v / 2 ^ 24) = v.
Proof. exact (le32_get v). Qed.

Lemma dinode_roundtrip d : dinode_ok d -> dinode_get (dinode_bytes d) 0 = d.
Proof.
  intros [H1 H2 H3 H4 H5 H6 H7]. destruct d as [ty ma mi nl sz ad]. cbn in *.
  do 14 (destruct ad as [|? ad]; [try done|]); [|done]. repeat match goal with H : Forall _ (_ :: _) |- _ => apply Forall_cons in H as [? H] end.
  unfold dinode_get, dinode_bytes. cbn [d_type d_major d_minor d_nlink d_size d_addrs].
  unfold get16, get32, byte_at. cbn -[u8 s16 Z.div Z.mul Z.pow]. f_equal.
  1-4: by apply short_get. 1: by apply uint_get.
  repeat f_equal; by apply uint_get.
Qed.

Lemma dinode_get_ext l o l' o' : (forall p, 0 <= p < 64 -> byte_at l (o + p) = byte_at l' (o' + p)) -> dinode_get l o = dinode_get l' o'.
Proof.
  intros E. assert (E16 : forall p, 0 <= p < 63 -> get16 l (o + p) = get16 l' (o' + p)).
  { intros p Hp. unfold get16. rewrite <- !Z.add_assoc, !E by lia. done. }
  assert (E32 : forall p, 0 <= p < 61 -> get32 l (o + p) = get32 l' (o' + p)).
  { intros p Hp. unfold get32. rewrite <- !Z.add_assoc, !E by lia. done. }
  unfold dinode_get. rewrite <- (Z.add_0_r o) at 1. rewrite <- (Z.add_0_r o') at 1. rewrite !E16, (E32 8) by lia. f_equal.
  apply list_fmap_ext. intros j x Hj. apply lookup_seq in Hj as [-> Hj]. rewrite <- !Z.add_assoc. apply E32. lia.
Qed.
Lemma dinode_splice l o d : 0 <= o -> o + 64 <= Z.of_nat (length l) -> dinode_ok d ->
  dinode_get (splice l o (dinode_bytes d)) o = d.
Proof.
  intros Ho Hl Hd. rewrite <- (dinode_roundtrip d Hd) at 2. pose proof (dinode_bytes_length d (do_addrs _ Hd)) as H64.
  apply dinode_get_ext. intros p Hp. rewrite byte_at_splice by (rewrite ?H64; lia). rewrite H64.
  destruct (Z.leb_spec o (o + p)), (Z.ltb_spec (o + p) (o + Z.of_nat 64)); try lia. cbn [andb]. f_equal. lia.
Qed.
Lemma dinode_splice_ne l o o' w : 0 <= o -> 0 <= o' -> length w = 64%nat -> o + 64 <= Z.of_nat (length l) -> o' + 64 <= o \/ o + 64 <= o' ->
  dinode_get (splice l o w) o' = dinode_get l o'.
Proof.
  intros Ho Ho' Hw Hl Hne. apply dinode_get_ext. intros p Hp. rewrite byte_at_splice by lia. rewrite Hw.
  destruct (Z.leb_spec o (o' + p)), (Z.ltb_spec (o' + p) (o + Z.of_nat 64)); try lia; done.
Qed.

(** The inode [inum] on the disk; the inode in the cache is on the disk. *)
Definition disk_inode (s : kernel) (dev inum : Z) : dinode :=
  dinode_get (disk s dev (IBLOCK inum)) (DINODE * (inum mod IPB)).
Definition inode_saved (s : kernel) (ip : nat) : Prop :=
  disk_inode s (i_dev (inode_at ip s)) (i_inum (inode_at ip s)) = to_dinode (inode_at ip s).

Definition iupdated (s : kernel) (ip : nat) : Z -> Z -> list Z :=
  let i := inode_at ip s in
  disk_put (disk s) (i_dev i, IBLOCK (i_inum i))
    (splice (disk s (i_dev i) (IBLOCK (i_inum i))) (DINODE * (i_inum i mod IPB)) (dinode_bytes (to_dinode i))).

Lemma iblock_range s dev inum : fs_ok s dev -> 0 <= inum < sb_ninodes (sb_of s dev) ->
  2 <= IBLOCK inum < bitmap (sb_of s dev) 0 /\ 0 <= DINODE * (inum mod IPB) <= 448.
Proof.
  intros F Hi. unfold IBLOCK, bitmap, BBLOCK, DINODE. change IPB with 8. change (0 / BPB) with 0. Z.div_mod_to_equations; lia.
Qed.

Section iupdate.
Context (i : nat).

Lemma wpe_iupdate s ip (Q : unit -> kernel -> Prop) :
  cache_ok s [] i -> fs_ok s (i_dev (inode_at ip s)) -> 0 <= i_inum (inode_at ip s) < sb_ninodes (sb_of s (i_dev (inode_at ip s))) ->
  length (i_addrs (inode_at ip s)) = 13%nat ->
  (forall s', cache_ok s' [] i -> iofr (s <| disk := iupdated s ip |>) s' -> Q tt s') ->
  wpe disk_env (iupdate ip) s Q.
Proof.
  intros C FS Hn Ha HQ. destruct (iblock_range s _ _ FS Hn) as [Hb Ho]. unfold iupdate. apply wpe_gets.
  pose proof (fo_size _ _ FS). pose proof (fo_dev _ _ FS). pose proof (bitmap_range _ _ 0 FS ltac:(pose proof (fs_size_pos _ _ FS); lia)).
  apply wpe_bind, (wpe_read i s []); [done|split; lia|cbn; unfold NBUF; lia|set_solver|]. intros bp s1 C1 F1.
  pose proof (iofr_disk _ _ F1) as D1. eapply wpe_data; [exact C1|]. apply wpe_gets.
  assert (Hin : inode_at ip s1 = inode_at ip s) by (unfold inode_at; by rewrite (iofr_icache _ _ F1)). rewrite Hin.
  pose proof (dinode_bytes_length (to_dinode (inode_at ip s)) Ha) as H64.
  assert (Hll : Z.of_nat (length (disk s (i_dev (inode_at ip s)) (IBLOCK (i_inum (inode_at ip s))))) = 512) by (by rewrite (co_sectors _ _ _ C)).
  eapply wpe_store; [exact C1| | |].
  { rewrite splice_length by lia. apply C. }
  { apply splice_bytes; [apply C|apply dinode_bytes_range]. }
  intros s2 C2 F2 D2. eapply wpe_release_last; [rewrite D2, disk_put_at; exact C2|]. intros s3 C3 F3. apply HQ; [done|].
  etransitivity; [|exact F3]. rewrite D1 in F2. etransitivity; [|exact F2]. by apply iofr_set_disk.
Qed.
End iupdate.

(** ** Changing the size and the inode on disk *)

(** [s'] has the blocks of the file and the bitmap of [s]; only the size of the inode differs. *)
Record same_blocks (ip : nat) (s s' : kernel) : Prop := {
  sm_inode : exists size, icache s' = alter (fun x => x <| i_size := size |>) ip (icache s);
  sm_meta : same_meta s s' (i_dev (inode_at ip s));
  sm_data : forall x, data_start (sb_of s (i_dev (inode_at ip s))) <= x ->
    disk s' (i_dev (inode_at ip s)) x = disk s (i_dev (inode_at ip s)) x }.

Lemma same_blocks_inode ip s s' : (ip < length (icache s))%nat -> same_blocks ip s s' ->
  exists size, inode_at ip s' = (inode_at ip s) <| i_size := size |>.
Proof. intros Hl [[size E] _ _]. exists size. by rewrite (inode_alter _ _ _ _ Hl E). Qed.

Lemma same_blocks_slots ip s s' : file_ok s ip -> plain s ip -> same_blocks ip s s' ->
  forall k, 0 <= k < NSLOT -> slot s' ip k = slot s ip k.
Proof.
  intros FI HP SB. destruct (same_blocks_inode ip s s' (fi_in _ _ FI) SB) as [size Hin].
  assert (Hdir : forall k, k <= NDIRECT -> slot s' ip k = slot s ip k) by (intros k Hk; by rewrite !slot_direct, Hin by done).
  intros k Hk. destruct (Z.le_gt_cases k NDIRECT) as [|Hgt]; [by apply Hdir|].
  rewrite (slot_entry s'), (slot_entry s), Hdir by done. destruct (Z.eqb_spec (slot s ip NDIRECT) 0) as [|Hne]; [done|].
  rewrite Hin. change (i_dev (_ <| i_size := _ |>)) with (i_dev (inode_at ip s)). rewrite (sm_data _ _ _ SB); [done|].
  by apply slot_data.
Qed.

Lemma same_blocks_ok ip s s' : file_ok s ip -> plain s ip -> same_blocks ip s s' ->
  0 <= i_size (inode_at ip s') <= MAXFILE * BSIZE ->
  (forall bn, 0 <= bn -> bn * BSIZE < i_size (inode_at ip s') -> slot s ip (fslot bn) <> 0) ->
  file_ok s' ip /\ (forall o, 0 <= o < MAXFILE * BSIZE -> slot s ip (fslot (o / BSIZE)) <> 0 -> file_byte s' ip o = file_byte s ip o).
Proof.
  intros FI HP SB Hsz Hmap. pose proof (same_blocks_slots ip s s' FI HP SB) as Hsl. pose proof (fi_fs _ _ FI) as FS.
  destruct (same_blocks_inode ip s s' (fi_in _ _ FI) SB) as [size Hin].
  assert (E : i_dev (inode_at ip s') = i_dev (inode_at ip s) /\ i_type (inode_at ip s') = i_type (inode_at ip s) /\
    i_inum (inode_at ip s') = i_inum (inode_at ip s) /\ i_addrs (inode_at ip s') = i_addrs (inode_at ip s)) by by rewrite Hin.
  destruct E as (Ed & Et & En & Ea). assert (HP' : plain s' ip) by (unfold plain; by rewrite Et).
  destruct (meta_same_at s s' _ FS (sm_meta _ _ _ SB)) as (E1 & E2 & E3).
  pose proof FI as [F1 F2 F3 F4 F5 F6 F7 F8 F9]. set (dev := i_dev (inode_at ip s)) in *. split.
  - split; rewrite ?Ed, ?En, ?Ea, ?E1; try done.
    + eapply fs_ok_same_at; [exact FS|apply SB|]. intros x Hx Hf. apply (sm_data _ _ _ SB).
      destruct (Z.le_gt_cases (data_start (sb_of s dev)) x); [done|]. rewrite (fo_meta _ _ FS) in Hf by lia. done.
    + destruct (sm_inode _ _ _ SB) as [size' ->]. by rewrite length_alter.
    + intros bn Hbn Hb. rewrite Hsl; [by apply Hmap|]. change (MAXFILE * BSIZE) with 71680 in *. change BSIZE with 512 in *.
      unfold fslot. change NSLOT with 141. change NDIRECT with 12. destruct (Z.ltb_spec bn 12); lia.
    + intros k Hk Hs. rewrite block_no_plain, Hsl in * by done. destruct (F7 k Hk Hs) as [H1 H2].
      rewrite block_no_plain in H1, H2 by done. split; [done|]. by rewrite E2 by (pose proof (fs_size_pos _ _ FS); pose proof (bitmap_range _ _ 0 FS); lia).
    + intros k1 k2 H1 H2. rewrite !block_no_plain, !Hsl by done. intros N1 N2 E. apply F8; try done. by rewrite !block_no_plain.
    + by rewrite !block_no_plain.
  - intros o Ho N. destruct (fslot_range o Ho) as (_ & Hk & _). rewrite !file_byte_plain, Ed, Hsl by done.
    rewrite (sm_data _ _ _ SB); [done|]. by apply slot_data.
Qed.

(** ** Writing *)

(** Only the file [ip] has changed: the other cached inodes, the inodes of other files on
    the disk and the blocks in use by other files are as before. *)
Record only_file (ip : nat) (s s' : kernel) : Prop := {
  of_frame : wrfr s s';
  of_sb : sb_of s' (i_dev (inode_at ip s)) = sb_of s (i_dev (inode_at ip s));
  of_cache : forall j, j <> ip -> icache s' !! j = icache s !! j;
  of_blocks : forall x, data_start (sb_of s (i_dev (inode_at ip s))) <= x < sb_size (sb_of s (i_dev (inode_at ip s))) ->
    used s (i_dev (inode_at ip s)) x = true -> (forall k, 0 <= k < NSLOT -> slot s ip k <> 0 -> slot s ip k <> x) ->
    disk s' (i_dev (inode_at ip s)) x = disk s (i_dev (inode_at ip s)) x;
  of_inodes : forall j, 0 <= j < sb_ninodes (sb_of s (i_dev (inode_at ip s))) -> j <> i_inum (inode_at ip s) ->
    disk_inode s' (i_dev (inode_at ip s)) j = disk_inode s (i_dev (inode_at ip s)) j;
  of_dev : forall d x, d <> i_dev (inode_at ip s) -> disk s' d x = disk s d x }.

Lemma extends_only ip s s' : file_ok s ip -> extends ip s s' -> only_file ip s s'.
Proof.
  intros FI X. pose proof (fi_fs _ _ FI) as FS. pose proof (fs_size_pos _ _ FS). pose proof (bitmap_range _ _ 0 FS ltac:(lia)).
  split; try apply X.
  - intros j Hj. destruct (ex_inode _ _ _ X) as [addrs ->]. by rewrite list_lookup_alter_ne.
  - intros x Hx. apply X; lia.
  - intros j Hj _. unfold disk_inode. destruct (iblock_range s _ j FS Hj) as [Hb _]. rewrite (ex_meta _ _ _ X); [done|lia].
Qed.

Lemma sb_same_inum_ne a b : 0 <= a -> 0 <= b -> a <> b -> IBLOCK a = IBLOCK b ->
  DINODE * (a mod IPB) + 64 <= DINODE * (b mod IPB) \/ DINODE * (b mod IPB) + 64 <= DINODE * (a mod IPB).
Proof. unfold IBLOCK, DINODE. change IPB with 8. intros. Z.div_mod_to_equations; lia. Qed.

(** The update of the inode. *)
Lemma iupdated_inode s s' ip : fs_ok s (i_dev (inode_at ip s)) ->
  0 <= i_inum (inode_at ip s) < sb_ninodes (sb_of s (i_dev (inode_at ip s))) -> length (i_addrs (inode_at ip s)) = 13%nat -> (forall d x, length (disk s d x) = Z.to_nat BSIZE) ->
  disk s' = iupdated s ip -> icache s' = icache s ->
  (dinode_ok (to_dinode (inode_at ip s)) -> inode_saved s' ip) /\
  (forall j, 0 <= j < sb_ninodes (sb_of s (i_dev (inode_at ip s))) -> j <> i_inum (inode_at ip s) ->
     disk_inode s' (i_dev (inode_at ip s)) j = disk_inode s (i_dev (inode_at ip s)) j) /\
  (forall d x, (d, x) <> (i_dev (inode_at ip s), IBLOCK (i_inum (inode_at ip s))) -> disk s' d x = disk s d x).
Proof.
  intros FS Hn Ha Hl D I. destruct (iblock_range s _ _ FS Hn) as [Hb Ho].
  pose proof (dinode_bytes_length (to_dinode (inode_at ip s)) Ha) as H64.
  assert (Hll : Z.of_nat (length (disk s (i_dev (inode_at ip s)) (IBLOCK (i_inum (inode_at ip s))))) = 512) by (by rewrite Hl).
  split_and!.
  - intros Hd. unfold inode_saved, disk_inode. replace (inode_at ip s') with (inode_at ip s) by (unfold inode_at; by rewrite I).
    rewrite D. unfold iupdated. cbv zeta. rewrite disk_put_at. apply dinode_splice; [lia|lia|done].
  - intros j Hj Hne. unfold disk_inode. rewrite D. unfold iupdated. cbv zeta. destruct (Z.eq_dec (IBLOCK j) (IBLOCK (i_inum (inode_at ip s)))) as [E|E].
    + destruct (iblock_range s _ _ FS Hj) as [_ Hoj]. rewrite E, disk_put_at. apply dinode_splice_ne; [lia|lia|done|lia|].
      apply sb_same_inum_ne; [lia|lia|done|done].
    + rewrite disk_put_ne; [done|]. congruence.
  - intros d x Hne. rewrite D. by apply disk_put_ne.
Qed.

Lemma splice_lookup l o w j : 0 <= o <= Z.of_nat (length l) ->
  splice l o w !! j = if (o <=? Z.of_nat j) && (Z.of_nat j <? o + Z.of_nat (length w)) then w !! (j - Z.to_nat o)%nat
                      else l !! j.
Proof.
  intros Ho. unfold splice. assert (Ht : length (take (Z.to_nat o) l) = Z.to_nat o) by (rewrite length_take; lia).
  destruct (Z.leb_spec o (Z.of_nat j)), (Z.ltb_spec (Z.of_nat j) (o + Z.of_nat (length w))); cbn [andb].
  - rewrite lookup_app_r, lookup_app_l by lia. f_equal. lia.
  - rewrite lookup_app_r, lookup_app_r, lookup_drop by lia. f_equal. lia.
  - rewrite lookup_app_l, lookup_take_lt by lia. done.
  - lia.
Qed.

Lemma slice_splice l o w : 0 <= o <= Z.of_nat (length l) -> slice (splice l o w) o (Z.of_nat (length w)) = w.
Proof.
  intros Ho. unfold slice, splice. assert (Ht : length (take (Z.to_nat o) l) = Z.to_nat o) by (rewrite length_take; lia).
  rewrite drop_app_length', Nat2Z.id by done. by rewrite take_app_length.
Qed.

Lemma file_data_written s s' ip off w : 0 <= off <= i_size (inode_at ip s) ->
  i_size (inode_at ip s') = Z.max (i_size (inode_at ip s)) (off + Z.of_nat (length w)) ->
  (forall o, 0 <= o < i_size (inode_at ip s') -> file_byte s' ip o =
     if (off <=? o) && (o <? off + Z.of_nat (length w)) then byte_at w (o - off) else file_byte s ip o) ->
  file_data s' ip = splice (file_data s ip) off w.
Proof.
  intros Ho Hs Hb. apply list_eq. intros j. rewrite splice_lookup by (rewrite file_data_length; lia).
  destruct (Z.lt_ge_cases (Z.of_nat j) (i_size (inode_at ip s'))) as [Hj|Hj].
  - rewrite <- (Nat2Z.id j) at 1. rewrite file_data_lookup by lia. rewrite Hb by lia.
    destruct (Z.leb_spec off (Z.of_nat j)), (Z.ltb_spec (Z.of_nat j) (off + Z.of_nat (length w))); cbn [andb].
    + unfold byte_at. replace (Z.to_nat (Z.of_nat j - off)) with (j - Z.to_nat off)%nat by lia.
      destruct (lookup_lt_is_Some_2 w (j - Z.to_nat off)) as [x ->]; [lia|done].
    + rewrite <- (file_data_lookup s) by lia. by rewrite Nat2Z.id.
    + rewrite <- (file_data_lookup s) by lia. by rewrite Nat2Z.id.
    + lia.
  - rewrite lookup_ge_None_2 by (rewrite file_data_length; lia).
    destruct (Z.leb_spec off (Z.of_nat j)), (Z.ltb_spec (Z.of_nat j) (off + Z.of_nat (length w))); cbn [andb]; try lia.
    rewrite lookup_ge_None_2; [done|]. rewrite file_data_length. lia.
Qed.

(** What [writei] does with the bytes [w] at offset [off]. *)
Record file_written (i ip : nat) (s s' : kernel) (off : Z) (w : list Z) : Prop := {
  fw_cache : cache_ok s' [] i;
  fw_file : file_ok s' ip;
  fw_data : file_data s' ip = splice (file_data s ip) off w;
  fw_saved : inode_saved s' ip;
  fw_type : i_type (inode_at ip s') = i_type (inode_at ip s);
  fw_only : only_file ip s s' }.

Section writei.
Context (i : nat).

(** Within the file. *)
Lemma written_inside ip s s' off w : file_ok s ip -> plain s ip -> inode_saved s ip -> 0 <= off <= i_size (inode_at ip s) ->
  off + Z.of_nat (length w) <= i_size (inode_at ip s) -> wrote i ip s s' off w -> file_written i ip s s' off w.
Proof.
  intros FI HP SV Ho Hw [C FI' X W S]. pose proof (fi_size _ _ FI) as Hsz. pose proof (fi_fs _ _ FI) as FS.
  assert (Hmap : forall o, 0 <= o < i_size (inode_at ip s) -> slot s ip (fslot (o / BSIZE)) <> 0).
  { intros o Hoo. apply (file_mapped s ip o FI Hoo). }
  assert (I : icache s' = icache s) by (apply S; intros o Hoo; apply Hmap; lia).
  assert (Hin : inode_at ip s' = inode_at ip s) by (unfold inode_at; by rewrite I).
  split; [done|done| | |by rewrite Hin|by apply extends_only].
  - apply file_data_written; [done|rewrite Hin; lia|]. rewrite Hin. intros o Hoo. specialize (W o ltac:(lia)).
    destruct ((off <=? o) && (o <? off + Z.of_nat (length w))); [apply W|]. by apply W, Hmap.
  - unfold inode_saved, disk_inode in *. rewrite Hin. destruct (iblock_range s _ _ FS (fi_inum _ _ FI)) as [Hb _].
    rewrite (ex_meta _ _ _ X) by lia. done.
Qed.

Lemma addrs_range s ip : file_ok s ip -> plain s ip -> Forall (fun a => 0 <= a < 2 ^ 32) (i_addrs (inode_at ip s)).
Proof.
  intros FI HP. apply Forall_lookup. intros j a Hj. pose proof (lookup_lt_Some _ _ _ Hj) as Hlt. rewrite (fi_addrs _ _ FI) in Hlt.
  assert (E : slot s ip (Z.of_nat j) = a) by (rewrite slot_direct by (change NDIRECT with 12; lia); by rewrite Nat2Z.id, Hj).
  destruct (Z.eq_dec a 0) as [->|Hne]; [lia|]. pose proof (fi_fs _ _ FI) as FS.
  destruct (slot_data s ip (Z.of_nat j) FI HP ltac:(change NSLOT with 141; lia) ltac:(by rewrite E)) as [Hr _]. rewrite E in Hr.
  pose proof (fo_size _ _ FS). pose proof (fs_size_pos _ _ FS). pose proof (bitmap_range _ _ 0 FS ltac:(lia)). lia.
Qed.

(** Past the end: the size changes and the inode is written. *)
Section grown.
Context (ip : nat) (s s1 s2 : kernel) (off : Z) (w : list Z).
Let sz := off + Z.of_nat (length w).
Let s1' := s1 <| icache ::= alter (fun x => x <| i_size := sz |>) ip |>.
Hypothesis FI : file_ok s ip.
Hypothesis HP : plain s ip.
Hypothesis DO : dinode_ok (to_dinode (inode_at ip s)).
Hypothesis Ho : 0 <= off <= i_size (inode_at ip s).
Hypothesis Hw : i_size (inode_at ip s) < sz <= MAXFILE * BSIZE.
Hypothesis W : wrote i ip s s1 off w.
Hypothesis C2 : cache_ok s2 [] i.
Hypothesis F2 : iofr (s1' <| disk := iupdated s1' ip |>) s2.

Lemma grown_inode : inode_at ip s1' = (inode_at ip s1) <| i_size := sz |>.
Proof. apply (inode_alter s1' s1 ip (fun x => x <| i_size := sz |>)); [apply W|done]. Qed.
Lemma grown_dev : i_dev (inode_at ip s1') = i_dev (inode_at ip s) /\ i_inum (inode_at ip s1') = i_inum (inode_at ip s).
Proof. rewrite grown_inode. destruct (extends_dev _ _ _ (wr_extends _ _ _ _ _ _ W)) as (E1 & _ & _ & E2). by split. Qed.
Lemma grown_fs : fs_ok s1' (i_dev (inode_at ip s1')).
Proof.
  rewrite (proj1 grown_dev), <- (proj1 (extends_dev _ _ _ (wr_extends _ _ _ _ _ _ W))).
  eapply fs_ok_same; [apply (fi_fs _ _ (wr_file _ _ _ _ _ _ W))|done|done].
Qed.
Lemma grown_disk : disk s2 = iupdated s1' ip.
Proof. apply (iofr_disk _ _ F2). Qed.
Lemma grown_icache : icache s2 = icache s1'.
Proof. exact (iofr_icache _ _ F2). Qed.

Lemma grown_saved :
  inode_saved s2 ip /\
  (forall j, 0 <= j < sb_ninodes (sb_of s (i_dev (inode_at ip s))) -> j <> i_inum (inode_at ip s) ->
     disk_inode s2 (i_dev (inode_at ip s)) j = disk_inode s1 (i_dev (inode_at ip s)) j) /\
  (forall d x, (d, x) <> (i_dev (inode_at ip s), IBLOCK (i_inum (inode_at ip s))) -> disk s2 d x = disk s1 d x).
Proof.
  pose proof W as [C1 FI1 X _ _]. destruct grown_dev as [E1 E2]. destruct (extends_dev _ _ _ X) as (X1 & X2 & X3 & X4).
  assert (Esb : sb_of s1' (i_dev (inode_at ip s1')) = sb_of s (i_dev (inode_at ip s))).
  { rewrite E1. change (sb_of s1') with (sb_of s1). apply X. }
  destruct (iupdated_inode s1' s2 ip grown_fs) as (H1 & H2 & H3).
  - rewrite E2, Esb. apply FI.
  - rewrite grown_inode. apply FI1.
  - apply C1.
  - apply grown_disk.
  - apply grown_icache.
  - rewrite E1, E2 in H2, H3. change (sb_of s1') with (sb_of s1) in H2. rewrite (ex_sb _ _ _ X) in H2.
    split_and!; [|exact H2|exact H3]. apply H1. rewrite grown_inode.
    destruct (extends_inode _ _ _ X (fi_in _ _ FI)) as [addrs Ha].
    pose proof (addrs_range s1 ip FI1 (plain_extends _ _ _ X HP)) as Hr. pose proof (fi_addrs _ _ FI1) as H13.
    rewrite Ha in *. destruct DO as [D1 D2 D3 D4 D5 D6 D7]. change (MAXFILE * BSIZE) with 71680 in Hw. split; try done. cbn. lia.
Qed.

Lemma grown_same : same_blocks ip s1 s2.
Proof.
  pose proof W as [C1 FI1 X _ _]. destruct (extends_dev _ _ _ X) as (X1 & X2 & X3 & X4). destruct grown_saved as (_ & _ & H3).
  pose proof (fi_fs _ _ FI1) as FS1. pose proof (fs_size_pos _ _ FS1). pose proof (bitmap_range _ _ 0 FS1 ltac:(lia)).
  destruct (iblock_range s1 _ _ FS1 (fi_inum _ _ FI1)) as [Hb _]. rewrite X1, X4 in *. split.
  - exists sz. rewrite grown_icache. done.
  - rewrite X1. intros x Hx. apply H3. intros [= ->]. lia.
  - rewrite X1. intros x Hx. apply H3. intros [= ->]. lia.
Qed.

Lemma grown_size : i_size (inode_at ip s2) = sz.
Proof. unfold inode_at at 1. rewrite grown_icache. fold (inode_at ip s1'). by rewrite grown_inode. Qed.

Lemma grown_mapped o : 0 <= o < sz -> slot s1 ip (fslot (o / BSIZE)) <> 0.
Proof.
  intros Hoo. pose proof W as [C1 FI1 X WR _]. specialize (WR o ltac:(lia)). destruct (fslot_range o ltac:(lia)) as (_ & Hk & _).
  destruct (Z.lt_ge_cases o (i_size (inode_at ip s))) as [Hlt|Hge].
  - destruct (file_mapped s ip o FI ltac:(lia)) as (_ & N & _). by rewrite (ex_slots _ _ _ X).
  - destruct (Z.leb_spec off o), (Z.ltb_spec o (off + Z.of_nat (length w))); try lia. apply WR.
Qed.

Lemma written_grown : file_written i ip s s2 off w.
Proof.
  pose proof W as [C1 FI1 X WR _]. pose proof (plain_extends _ _ _ X HP) as HP1. destruct grown_saved as (SV & HI & HD).
  destruct (same_blocks_ok ip s1 s2 FI1 HP1 grown_same) as [FI2 HB].
  { rewrite grown_size. lia. }
  { rewrite grown_size. intros bn Hbn Hs. pose proof (grown_mapped (bn * BSIZE)) as N. rewrite Z.div_mul in N by done. apply N. unfold BSIZE in *. lia. }
  pose proof (extends_only ip s s1 FI X) as [O1 O2 O3 O4 O5 O6]. pose proof (fi_fs _ _ FI) as FS.
  destruct (iblock_range s _ _ FS (fi_inum _ _ FI)) as [Hb _]. pose proof (fs_size_pos _ _ FS). pose proof (bitmap_range _ _ 0 FS ltac:(lia)).
  split; [done|done| |done| |].
  - apply file_data_written; [done|rewrite grown_size; lia|]. rewrite grown_size. intros o Hoo. rewrite HB by (apply grown_mapped || lia; lia).
    specialize (WR o ltac:(lia)). fold sz in WR |- *. destruct ((off <=? o) && (o <? sz)) eqn:EB; [apply WR|]. apply WR.
    apply (file_mapped s ip o FI). apply andb_false_iff in EB. rewrite Z.leb_gt, Z.ltb_ge in EB. lia.
  - unfold inode_at at 1. rewrite grown_icache. fold (inode_at ip s1'). rewrite grown_inode. apply (extends_dev _ _ _ X).
  - split.
    + transitivity s1; [done|]. pose proof grown_disk as E1. pose proof grown_icache as E2. unfold wrfr. rewrite E1, E2. exact F2.
    + rewrite <- O2. unfold sb_of. rewrite HD; [done|]. intros [=]. lia.
    + intros j Hj. rewrite <- O3 by done. rewrite grown_icache. cbn. by rewrite list_lookup_alter_ne.
    + intros x Hx Hu Hn. rewrite <- O4 by done. apply HD. intros [=]. lia.
    + intros j Hj Hne. rewrite HI by done. by apply O5.
    + intros d x Hd. rewrite <- O6 by done. apply HD. congruence.
Qed.
End grown.

Lemma wpe_writei s ip src off n w P (Q : Z -> kernel -> Prop) :
  let m := Z.min n (MAXFILE * BSIZE - off) in
  cache_ok s [] i -> file_ok s ip -> plain s ip -> inode_saved s ip -> dinode_ok (to_dinode (inode_at ip s)) ->
  0 <= off < 2 ^ 32 -> 0 <= n < 2 ^ 32 -> feed src w P -> P s -> Z.of_nat (length w) = Z.max 0 m -> nblocks off m <= spare s ip ->
  (if bad_range (i_size (inode_at ip s)) off n then Q (-1) s
   else forall s', file_written i ip s s' off w -> Q m s') ->
  wpe disk_env (writei ip src off n) s Q.
Proof.
  intros m C FI HP SV DO Ho Hn K Ps Hw Hsp HQ. pose proof (fi_size _ _ FI) as Hsz. unfold writei. apply wpe_gets.
  destruct HP as [HT1 HT2]. apply Z.eqb_neq in HT1 as HT1'. rewrite HT1', bad_range_u32 by done.
  destruct (bad_range _ off n) eqn:EB; [by apply wpe_ret|]. unfold bad_range in EB. apply orb_false_iff in EB as [E1%Z.ltb_ge E2%Z.leb_gt].
  replace (if MAXFILE * BSIZE <? off + n then MAXFILE * BSIZE - off else n) with m
    by (unfold m; destruct (Z.ltb_spec (MAXFILE * BSIZE) (off + n)); lia).
  assert (Hm : 0 <= m) by lia. pose proof (Z.mod_pos_bound off BSIZE eq_refl) as Hmod. change (MAXFILE * BSIZE) with 71680 in *.
  apply wpe_bind, (wpe_writei_loop i _ s ip src off m 0 w P); try done; try lia.
  { change (MAXFILE * BSIZE) with 71680. lia. }
  { rewrite Z.sub_0_r. lia. } { unfold rw_fuel. lia. }
  { intros _. unfold rw_fuel, BSIZE in *. Z.div_mod_to_equations; lia. }
  intros s1 W. rewrite Z.sub_0_r in *. replace (slice w 0 m) with w in W by (unfold slice; rewrite drop_0, take_ge by lia; done).
  assert (HP : plain s ip) by done.
  apply wpe_gets. destruct (extends_dev _ _ _ (wr_extends _ _ _ _ _ _ W)) as (_ & _ & Es & _). rewrite Es.
  replace (s32 m) with m by (symmetry; apply s32_small; lia).
  destruct ((0 <? m) && (i_size (inode_at ip s) <? off + m)) eqn:EG; cbn [when].
  - apply andb_true_iff in EG as [_ EG%Z.ltb_lt]. apply wpe_bind. unfold upd_inode. apply wpe_modify.
    assert (El : off + m = off + Z.of_nat (length w)) by lia. rewrite El in *.
    set (s1' := s1 <| icache ::= _ |>).
    destruct (grown_dev ip s s1 off w W) as [G1 G2].
    apply (wpe_iupdate i s1' ip).
    + apply (cache_ok_icache i s1 []), W.
    + by eapply grown_fs.
    + unfold s1'. rewrite G1, G2. pose proof (ex_sb _ _ _ (wr_extends _ _ _ _ _ _ W)) as Esb. pose proof (fi_inum _ _ FI) as Hi. rewrite <- Esb in Hi. exact Hi.
    + unfold s1'. rewrite (grown_inode ip s s1 off w W). apply W.
    + intros s2 C2 F2. apply wpe_ret, HQ. eapply written_grown; try done; change (MAXFILE * BSIZE) with 71680; lia.
  - apply andb_false_iff in EG. rewrite !Z.ltb_ge in EG. apply wpe_bind, wpe_ret, wpe_ret, HQ. apply written_inside; try done; lia.
Qed.
End writei.
