(* ===== verification/FsTrunc.v ===== *)
(** Truncating a file: [itrunc] frees every block of the file, and only those. *)
From S2P Require Import Prelude Types Mem Kalloc PageTable Cons Vm VmProofs VmUser VmSpec Shm Sched Ide Bio UserMem UserView Inode Console Fs FsBlocks FsFile FsWrite FsSpec.

(** ** Freeing a list of blocks *)

(** [s'] is [s] with the blocks [L] freed. *)
Record freed_all (dev : Z) (L : list Z) (s s' : kernel) : Prop := {
  fa_fs : fs_ok s' dev;
  fa_sb : sb_of s' dev = sb_of s dev;
  fa_frees : frees s' dev ≡ₚ L ++ frees s dev;
  fa_used : forall c, 0 <= c <= sb_size (sb_of s dev) -> c ∉ L -> used s' dev c = used s dev c;
  fa_disk : forall x, data_start (sb_of s dev) <= x -> x ∉ L -> disk s' dev x = disk s dev x;
  fa_meta : forall x, x < bitmap (sb_of s dev) 0 -> disk s' dev x = disk s dev x;
  fa_dev : forall d x, d <> dev -> disk s' d x = disk s d x;
  fa_frame : wrfr s s' }.

(** The blocks [L] are distinct data blocks in use. *)
Definition freeable (s : kernel) (dev : Z) (L : list Z) : Prop :=
  NoDup L /\ forall b, b ∈ L -> data_start (sb_of s dev) <= b < sb_size (sb_of s dev) /\ used s dev b = true.

Lemma freed_none dev s s' : fs_ok s dev -> disk s' = disk s -> wrfr s s' -> freed_all dev [] s s'.
Proof.
  intros F D W. destruct (meta_same s s' dev F) as (E1 & E2 & E3); [by intros; rewrite D|].
  split; try done; try (intros; by rewrite D).
  - eapply fs_ok_same; [exact F|..]; intros; by rewrite D.
  - by rewrite E3.
  - intros c Hc _. by apply E2.
Qed.
Lemma freed_app dev L1 L2 s s1 s2 : freed_all dev L1 s s1 -> freed_all dev L2 s1 s2 -> freed_all dev (L2 ++ L1) s s2.
Proof.
  intros [A1 A2 A3 A4 A5 A6 A7 A8] [B1 B2 B3 B4 B5 B6 B7 B8]. rewrite A2 in *. split.
  - done.
  - done.
  - by rewrite B3, A3, app_assoc.
  - intros c Hc [H2 H1]%not_elem_of_app. by rewrite B4, A4.
  - intros x Hx [H2 H1]%not_elem_of_app. by rewrite B5, A5.
  - intros x Hx. by rewrite B6, A6.
  - intros d x Hd. by rewrite B7, A7.
  - by transitivity s1.
Qed.
Lemma freed_set dev L s s1 s2 : freed_all dev L s s1 -> disk s2 = disk s1 -> wrfr s1 s2 -> freed_all dev L s s2.
Proof. intros F D W. apply (freed_app dev L [] s s1 s2); [done|]. apply freed_none; [apply F|done|done]. Qed.
Lemma wrfr_icache s g : wrfr s (s <| icache ::= g |>).
Proof. unfold wrfr. match goal with |- iofr ?a ?b => replace a with b by by kext end. reflexivity. Qed.

Lemma freeable_tail dev b L s s' : freeable s dev (b :: L) -> freed_all dev [b] s s' -> freeable s' dev L.
Proof.
  intros [[Hb HN]%NoDup_cons HL] F. split; [done|]. intros c Hc. rewrite (fa_sb _ _ _ _ F). destruct (HL c ltac:(by right)) as [H1 H2].
  split; [done|]. rewrite (fa_used _ _ _ _ F); [done| |by intros ->%list_elem_of_singleton].
  destruct (HL b ltac:(by left)) as [H3 _]. pose proof (fa_fs _ _ _ _ F) as FS. pose proof (fs_size_pos _ _ FS) as H0.
  pose proof (bitmap_range _ _ 0 FS ltac:(lia)) as Hb0. rewrite (fa_sb _ _ _ _ F) in *. lia.
Qed.

Section trunc.
Context (i : nat).

Lemma wpe_free s H dev b (Q : unit -> kernel -> Prop) :
  cache_ok s H i -> fs_ok s dev -> (length H < NBUF)%nat -> data_only H dev (sb_of s dev) -> freeable s dev [b] ->
  (forall c k, (c, k) ∈ H -> fst k <> (dev, b)) ->
  (forall s', cache_ok s' H i -> freed_all dev [b] s s' -> icache s' = icache s -> Q tt s') ->
  wpe disk_env (bfree dev b) s Q.
Proof.
  intros C F Hlen Hno [_ HL] HnoB HQ. destruct (HL b ltac:(by left)) as [Hb Hu]. apply (wpe_bfree i s H dev b); try done.
  intros s' C' F'. pose proof (iofr_disk _ _ F') as D. cbn in D. pose proof (fs_size_pos _ _ F). pose proof (bitmap_range _ _ 0 F ltac:(lia)) as Hb0.
  pose proof (bitmap_range _ _ b F ltac:(lia)). pose proof (bitmap_mono (sb_of s dev) 0 b ltac:(lia)).
  destruct (fs_ok_freed s s' dev b F ltac:(apply C) Hb Hu D) as (G1 & G2 & G3 & G4 & G5).
  apply HQ; [done| |exact (iofr_icache _ _ F')]. split; try done.
  - intros c Hc Hne. rewrite list_elem_of_singleton in Hne. rewrite G4 by done. apply Z.eqb_neq in Hne. by rewrite Hne.
  - intros x Hx Hne. rewrite list_elem_of_singleton in Hne. by apply G5.
  - intros x Hx. rewrite D. apply freed_other; intros [=]; lia.
  - intros d x Hd. rewrite D. apply freed_other; congruence.
  - by eapply wrfr_disk.
Qed.

(** The entries of the indirect block, which the process owns. *)
Lemma wpe_itrunc_indirect dev bp ind data ks : forall s L (Q : unit -> kernel -> Prop),
  cache_ok s [(bp, (dev, ind, data))] i -> fs_ok s dev -> data_start (sb_of s dev) <= ind ->
  L = filter (fun a => a <> 0) ((fun k => get32 data (4 * k)) <$> ks) -> freeable s dev L -> ind ∉ L ->
  (forall s', cache_ok s' [(bp, (dev, ind, data))] i -> freed_all dev (reverse L) s s' -> icache s' = icache s -> Q tt s') ->
  wpe disk_env (itrunc_indirect dev bp ks) s Q.
Proof.
  induction ks as [|k ks IH]; intros s L Q C F Hi -> HL Hnot HQ; cbn [itrunc_indirect].
  { apply wpe_ret, HQ; [done| |done]. apply freed_none; [done|done|reflexivity]. }
  eapply wpe_data; [exact C|]. rewrite fmap_cons in *. destruct (Z.eq_dec (get32 data (4 * k)) 0) as [E|E].
  - rewrite E. cbn [negb Z.eqb when]. apply wpe_bind, wpe_ret. rewrite filter_cons_False in * by (rewrite E; by intros ?).
    by apply (IH s _ Q C F Hi eq_refl).
  - apply Z.eqb_neq in E as E'. rewrite E'. cbn [negb when]. rewrite filter_cons_True in * by done.
    set (a := get32 data (4 * k)) in *. set (L := filter _ _) in *.
    assert (HD : data_only [(bp, (dev, ind, data))] dev (sb_of s dev)).
    { intros c kb Hin%list_elem_of_singleton _. injection Hin as -> ->. done. }
    apply wpe_bind, (wpe_free s [(bp, (dev, ind, data))] dev a); [done|done|cbn; unfold NBUF; lia|done|..].
    + split; [apply NoDup_singleton|]. intros b ->%list_elem_of_singleton. apply HL. by left.
    + intros c kb Hin%list_elem_of_singleton. injection Hin as -> ->. cbn. intros [= ->]. apply Hnot. by left.
    + intros s1 C1 F1 I1. apply (IH s1 L); [done|apply F1|by rewrite (fa_sb _ _ _ _ F1)|done|by eapply freeable_tail| |].
      { intros Hin. apply Hnot. by right. }
      intros s2 C2 F2 I2. apply HQ; [done| |by rewrite I2]. rewrite reverse_cons. by eapply freed_app.
Qed.

(** One direct address. *)
Lemma wpe_clear_direct ip dev k s (Q : unit -> kernel -> Prop) :
  cache_ok s [] i -> fs_ok s dev -> (ip < length (icache s))%nat -> length (i_addrs (inode_at ip s)) = 13%nat ->
  0 <= k <= NDIRECT -> freeable s dev [slot s ip k] ->
  (forall s', cache_ok s' [] i -> freed_all dev [slot s ip k] s s' ->
     icache s' = alter (fun x => x <| i_addrs ::= <[Z.to_nat k := 0]> |>) ip (icache s) ->
     inode_at ip s' = (inode_at ip s) <| i_addrs ::= <[Z.to_nat k := 0]> |> ->
     (forall k', 0 <= k' <= NDIRECT -> slot s' ip k' = if decide (k' = k) then 0 else slot s ip k') -> Q tt s') ->
  wpe disk_env (bfree dev (slot s ip k) ;; set_addr ip k 0) s Q.
Proof.
  intros C F Hip Ha Hk HL HQ. apply wpe_bind, (wpe_free s [] dev (slot s ip k));
    [done|done|cbn; unfold NBUF; lia|apply data_only_nil|done|set_solver|].
  intros s1 C1 F1 I1. unfold set_addr, upd_inode. set (g := fun x : inode => _). set (s2 := s1 <| icache ::= alter g ip |>).
  assert (Hin : inode_at ip s2 = (inode_at ip s) <| i_addrs ::= <[Z.to_nat k := 0]> |>).
  { rewrite (inode_alter s2 s1 ip g); [|by rewrite I1|done]. unfold inode_at, g. by rewrite I1. }
  apply (HQ s2); [by apply cache_ok_icache| |cbn; by rewrite I1|done|].
  - eapply (freed_set dev _ s s1 s2); [done|done|apply wrfr_icache].
  - intros k' Hk'. rewrite !slot_direct, Hin by lia. cbn. change NDIRECT with 12 in *. destruct (decide (k' = k)) as [->|].
    + rewrite list_lookup_insert_eq by lia. done.
    + rewrite list_lookup_insert_ne by lia. done.
Qed.

Lemma zeroed_cons (k k' v : Z) ks :
  (if decide (k' ∈ k :: ks) then 0 else v) = if decide (k' = k) then 0 else if decide (k' ∈ ks) then 0 else v.
Proof.
  destruct (decide (k' = k)) as [->|Hne]; [by rewrite decide_True by by left|].
  destruct (decide (k' ∈ ks)); [by rewrite decide_True by by right|]. rewrite decide_False; [done|]. by intros [?|?]%elem_of_cons.
Qed.

(** The direct addresses. *)
Lemma wpe_itrunc_direct ip dev ks : forall s (Q : unit -> kernel -> Prop),
  let L := filter (fun a => a <> 0) (slot s ip <$> ks) in
  cache_ok s [] i -> fs_ok s dev -> i_dev (inode_at ip s) = dev -> (ip < length (icache s))%nat ->
  length (i_addrs (inode_at ip s)) = 13%nat -> NoDup ks -> Forall (fun k => 0 <= k < NDIRECT) ks -> freeable s dev L ->
  (forall s', cache_ok s' [] i -> freed_all dev (reverse L) s s' ->
     (exists addrs, icache s' = alter (fun x => x <| i_addrs := addrs |>) ip (icache s) /\ length addrs = 13%nat /\
        (forall k, 0 <= k <= NDIRECT -> default 0 (addrs !! Z.to_nat k) = if decide (k ∈ ks) then 0 else slot s ip k)) -> Q tt s') ->
  wpe disk_env (itrunc_direct ip ks) s Q.
Proof.
  induction ks as [|k ks IH]; intros s Q L C F Hdev Hip Ha HN HR HL HQ; cbn [itrunc_direct].
  { apply wpe_ret, HQ; [done| |].
    - apply freed_none; [done|done|reflexivity].
    - exists (i_addrs (inode_at ip s)). rewrite alter_same_addrs. split_and!; [done|done|]. intros k Hk. by rewrite slot_direct by lia. }
  apply Forall_cons in HR as [Hk HR']. apply NoDup_cons in HN as [Hnk HN].
  apply wpe_gets. rewrite Hdev. unfold addr_at. apply wpe_gets. rewrite <- slot_direct by lia.
  subst L. rewrite fmap_cons in HL, HQ. destruct (Z.eq_dec (slot s ip k) 0) as [E|E].
  - rewrite E. cbn [negb Z.eqb when]. apply wpe_bind, wpe_ret. rewrite filter_cons_False in HL, HQ by (rewrite E; by intros ?).
    apply (IH s); try done. intros s' C' F' (addrs & I' & H13 & Hs'). apply HQ; [done|done|]. exists addrs. split_and!; [done|done|].
    intros k' Hk'. rewrite Hs', zeroed_cons by done. destruct (decide (k' = k)) as [->|Hne]; [|done]. by rewrite decide_False, E by done.
  - apply Z.eqb_neq in E as E'. rewrite E'. cbn [negb when]. rewrite filter_cons_True in HL, HQ by done. set (L := filter _ _) in *.
    apply wpe_bind, (wpe_clear_direct ip dev k s); try done; [lia| |].
    { split; [apply NoDup_singleton|]. intros b ->%list_elem_of_singleton. apply HL. by left. }
    intros s2 C2 F2 I2 Hin Hsl.
    assert (EL : slot s2 ip <$> ks = slot s ip <$> ks).
    { apply list_fmap_ext. intros j k' Hj. rewrite Forall_lookup in HR'. rewrite Hsl by (pose proof (HR' _ _ Hj); lia).
      rewrite decide_False; [done|]. intros ->. apply Hnk. by eapply list_elem_of_lookup_2. }
    apply (IH s2); [done|apply F2|by rewrite Hin|by rewrite I2, length_alter| |done|done| |].
    { rewrite Hin. cbn. by rewrite length_insert. }
    { rewrite EL. by eapply freeable_tail. }
    rewrite EL. fold L. intros s' C' F' (addrs & I' & H13 & Hs'). apply HQ; [done| |].
    + rewrite reverse_cons. by eapply freed_app.
    + exists addrs. split_and!; [by rewrite I', I2, list_alter_alter|done|].
      intros k' Hk'. rewrite Hs', Hsl, zeroed_cons by done. by destruct (decide (k' = k)), (decide (k' ∈ ks)).
Qed.
End trunc.

(** ** The whole file *)

(** The blocks of the file, in the order of the slots. *)
Definition slots_from (s : kernel) (ip : nat) (a n : Z) : list Z := filter (fun b => b <> 0) (slot s ip <$> seqZ a n).
Definition blocks (s : kernel) (ip : nat) : list Z := slots_from s ip 0 NSLOT.

Lemma blocks_split s ip : blocks s ip = slots_from s ip 0 NDIRECT ++ slots_from s ip NDIRECT 1 ++ slots_from s ip (NDIRECT + 1) NINDIRECT.
Proof.
  unfold blocks, slots_from. replace NSLOT with (NDIRECT + (1 + NINDIRECT)) by done.
  rewrite (seqZ_app _ NDIRECT (1 + NINDIRECT)), (seqZ_app _ 1 NINDIRECT) by done. by rewrite !fmap_app, !filter_app.
Qed.
Lemma slots_from_elem s ip a n b : b ∈ slots_from s ip a n <-> b <> 0 /\ exists k, a <= k < a + n /\ slot s ip k = b.
Proof.
  unfold slots_from. rewrite list_elem_of_filter, list_elem_of_fmap. setoid_rewrite elem_of_seqZ. naive_solver.
Qed.
Lemma NoDup_filter_fmap (f : Z -> Z) l : NoDup l -> (forall x y, x ∈ l -> y ∈ l -> f x <> 0 -> f x = f y -> x = y) ->
  NoDup (filter (fun b => b <> 0) (f <$> l)).
Proof.
  induction 1 as [|x l Hx HN IH]; intros Hinj; [constructor|]. rewrite fmap_cons.
  assert (HI : NoDup (filter (fun b => b <> 0) (f <$> l))) by (apply IH; intros y z Hy Hz; apply Hinj; by right).
  destruct (Z.eq_dec (f x) 0) as [E|E]; [by rewrite filter_cons_False by auto|]. rewrite filter_cons_True by done.
  constructor; [|done]. rewrite list_elem_of_filter, list_elem_of_fmap. intros (_ & y & Ey & Hy). apply Hx.
  rewrite (Hinj x y); [done|by left|by right|done|done].
Qed.
Lemma blocks_freeable s ip : file_ok s ip -> plain s ip -> freeable s (i_dev (inode_at ip s)) (blocks s ip).
Proof.
  intros FI HP. split.
  - apply NoDup_filter_fmap; [apply NoDup_seqZ|]. intros x y Hx%elem_of_seqZ Hy%elem_of_seqZ Hne E.
    apply (fi_inj _ _ FI); [lia|lia|done|by rewrite <- E|by rewrite !block_no_plain].
  - intros b (Hne & k & Hk & <-)%slots_from_elem. apply slot_data; [done|done|lia|done].
Qed.

Lemma freeable_app dev A B s : freeable s dev (A ++ B) -> freeable s dev A /\ freeable s dev B /\ forall b, b ∈ A -> b ∉ B.
Proof.
  intros [HN HL]. apply NoDup_app in HN as (H1 & H2 & H3). split_and!; [|split; [done|]|done].
  - split; [done|]. intros b Hb. apply HL, elem_of_app. by left.
  - intros b Hb. apply HL, elem_of_app. by right.
Qed.
Lemma freeable_rest dev A B s s' : fs_ok s dev -> freeable s dev (A ++ B) -> freed_all dev (reverse A) s s' -> freeable s' dev B.
Proof.
  intros FS HL F. destruct (freeable_app _ _ _ _ HL) as (_ & [HN HB] & HD). split; [done|]. intros b Hb. rewrite (fa_sb _ _ _ _ F).
  destruct (HB b Hb) as [H1 H2]. split; [done|]. pose proof (fs_size_pos _ _ FS). pose proof (bitmap_range _ _ 0 FS ltac:(lia)).
  rewrite (fa_used _ _ _ _ F); [done|lia|]. rewrite elem_of_reverse. intros Ha. by apply (HD b).
Qed.
Lemma freed_perm dev L L' s s' : L ≡ₚ L' -> freed_all dev L s s' -> freed_all dev L' s s'.
Proof.
  intros E [A1 A2 A3 A4 A5 A6 A7 A8]. split; try done.
  - by rewrite A3, E.
  - intros c Hc. rewrite <- E. by apply A4.
  - intros x Hx. rewrite <- E. by apply A5.
Qed.

Lemma entries_list s ip : slot s ip NDIRECT <> 0 ->
  slot s ip <$> seqZ (NDIRECT + 1) NINDIRECT =
  (fun k => get32 (disk s (i_dev (inode_at ip s)) (slot s ip NDIRECT)) (4 * k)) <$> (Z.of_nat <$> seq 0 (Z.to_nat NINDIRECT)).
Proof.
  intros Hi. unfold seqZ. rewrite <- !list_fmap_compose. apply list_fmap_ext. intros j k Hk. cbn [compose]. unfold compose.
  rewrite slot_entry by (change NDIRECT with 12; lia). apply Z.eqb_neq in Hi. rewrite Hi. f_equal. lia.
Qed.

Section itrunc.
Context (i : nat).

(** The indirect block and its entries. *)
Lemma wpe_itrunc_tail {A} s ip dev (m : M kernel A) Q :
  let B := slots_from s ip NDIRECT 1 ++ slots_from s ip (NDIRECT + 1) NINDIRECT in
  cache_ok s [] i -> fs_ok s dev -> i_dev (inode_at ip s) = dev -> (ip < length (icache s))%nat ->
  length (i_addrs (inode_at ip s)) = 13%nat -> freeable s dev B ->
  (forall s', cache_ok s' [] i -> freed_all dev B s s' ->
     (exists addrs, icache s' = alter (fun x => x <| i_addrs := addrs |>) ip (icache s) /\ length addrs = 13%nat /\
        (forall k, 0 <= k <= NDIRECT -> default 0 (addrs !! Z.to_nat k) = if decide (k = NDIRECT) then 0 else slot s ip k)) ->
     wpe disk_env m s' Q) ->
  wpe disk_env (
    let! x := gets (inode_at ip) in
    let! addr := addr_at ip NDIRECT in
    when (negb (addr =? 0))
      (let! bp := bread (i_dev x) addr in
       itrunc_indirect (i_dev x) bp (Z.of_nat <$> seq 0 (Z.to_nat NINDIRECT)) ;;
       brelse bp ;;
       let! addr := addr_at ip NDIRECT in
       bfree (i_dev x) addr ;;
       set_addr ip NDIRECT 0) ;;
    m) s Q.
Proof.
  intros B C F Hdev Hip Ha HB HQ. apply wpe_gets. rewrite Hdev. unfold addr_at at 1. apply wpe_gets. rewrite <- slot_direct by done.
  destruct (Z.eq_dec (slot s ip NDIRECT) 0) as [E|E].
  - rewrite E. cbn [negb Z.eqb when]. apply wpe_bind, wpe_ret. apply HQ; [done| |].
    + assert (EB : B = []).
      { apply elem_of_nil_inv. intros b [(Hne & k & Hk & <-)%slots_from_elem|(Hne & k & Hk & <-)%slots_from_elem]%elem_of_app; apply Hne.
        - by replace k with NDIRECT by lia.
        - rewrite slot_entry, E by lia. done. }
      rewrite EB. apply freed_none; [done|done|reflexivity].
    + exists (i_addrs (inode_at ip s)). rewrite alter_same_addrs. split_and!; [done|done|]. intros k Hk. rewrite <- slot_direct by lia.
      by destruct (decide (k = NDIRECT)) as [->|].
  - apply Z.eqb_neq in E as E'. rewrite E'. cbn [negb when].
    assert (EB : B = slot s ip NDIRECT :: slots_from s ip (NDIRECT + 1) NINDIRECT).
    { unfold B. unfold slots_from at 1. change (seqZ NDIRECT 1) with [NDIRECT]. rewrite fmap_cons, filter_cons_True by done. done. }
    rewrite EB in *. destruct HB as [[Hind HN]%NoDup_cons HB]. destruct (HB (slot s ip NDIRECT) ltac:(by left)) as [Hr Hu].
    pose proof (fo_size _ _ F). pose proof (fo_dev _ _ F). pose proof (fs_size_pos _ _ F). pose proof (bitmap_range _ _ 0 F ltac:(lia)).
    apply wpe_bind, wpe_bind, (wpe_read i s []); [done|split; lia|cbn; unfold NBUF; lia|set_solver|]. intros bp s1 C1 F1.
    pose proof (iofr_disk _ _ F1) as D1. pose proof (iofr_icache _ _ F1) as I1. set (L := slots_from s ip (NDIRECT + 1) NINDIRECT) in *.
    assert (F1' : freed_all dev [] s s1) by (apply freed_none; [done|done|by apply iofr_wrfr]).
    apply wpe_bind. eapply (wpe_itrunc_indirect i dev bp (slot s ip NDIRECT) _ _ s1 L); [exact C1|apply F1'|rewrite (fa_sb _ _ _ _ F1'); lia| | |done|].
    { unfold L, slots_from. by rewrite entries_list, Hdev. }
    { apply (freeable_rest dev [] L s s1 F); [|done]. split; [done|]. intros b Hb. apply HB. by right. }
    intros s2 C2 F2 I2. pose proof (freed_app _ _ _ _ _ _ F1' F2) as F12. rewrite app_nil_r in F12.
    eapply wpe_release.
    { rewrite (fa_disk _ _ _ _ F12); [exact C2|lia|by rewrite elem_of_reverse]. }
    intros s3 C3 F3. assert (F13 : freed_all dev (reverse L) s s3).
    { eapply freed_set; [exact F12|apply (iofr_disk _ _ F3)|by apply iofr_wrfr]. }
    assert (I3 : icache s3 = icache s) by (rewrite (iofr_icache _ _ F3), I2; exact I1).
    assert (Hin : inode_at ip s3 = inode_at ip s) by (unfold inode_at; by rewrite I3).
    unfold addr_at. apply wpe_gets. rewrite <- slot_direct by done.
    assert (Es : forall k, k <= NDIRECT -> slot s3 ip k = slot s ip k) by (intros k Hk; by rewrite !slot_direct, Hin by done).
    apply (wpe_clear_direct i ip dev NDIRECT s3); [done|apply F13|by rewrite I3|by rewrite Hin|done| |].
    { rewrite Es by done. apply (freeable_rest dev L [slot s ip NDIRECT] s s3 F); [|done]. split.
      - apply NoDup_app. split_and!; [done|intros b Hb ->%list_elem_of_singleton; done|apply NoDup_singleton].
      - intros b [Hb | ->%list_elem_of_singleton]%elem_of_app; apply HB; [by right|by left]. }
    intros s4 C4 F4 I4 Hin4 Hs4. rewrite Es in F4 by done. apply HQ; [done| |].
    + eapply freed_perm; [|by eapply freed_app]. by rewrite reverse_Permutation.
    + exists (i_addrs (inode_at ip s4)). split_and!.
      * rewrite I4, I3, Hin4, Hin. destruct (lookup_lt_is_Some_2 _ _ Hip) as [x Hx].
        rewrite !(list_alter_lookup _ _ x) by done. unfold inode_at. by rewrite Hx.
      * rewrite Hin4, Hin. cbn. by rewrite length_insert.
      * intros k Hk. rewrite <- slot_direct by lia. rewrite Hs4 by lia. destruct (decide (k = NDIRECT)); [done|]. apply Es. lia.
Qed.

(** What [itrunc] does: the file is empty, its blocks are free. *)
Record truncated (ip : nat) (s s' : kernel) : Prop := {
  tr_cache : cache_ok s' [] i;
  tr_file : file_ok s' ip;
  tr_data : file_data s' ip = [];
  tr_blocks : blocks s' ip = [];
  tr_frees : frees s' (i_dev (inode_at ip s)) ≡ₚ blocks s ip ++ frees s (i_dev (inode_at ip s));
  tr_saved : inode_saved s' ip;
  tr_only : only_file ip s s' }.

Lemma no_blocks s ip : (forall k, 0 <= k <= NDIRECT -> slot s ip k = 0) -> forall k, 0 <= k -> slot s ip k = 0.
Proof.
  intros H k Hk. destruct (Z.le_gt_cases k NDIRECT) as [|Hgt]; [apply H; lia|]. rewrite slot_entry, H by (done || lia). done.
Qed.
Lemma file_ok_empty s ip : fs_ok s (i_dev (inode_at ip s)) -> (ip < length (icache s))%nat ->
  length (i_addrs (inode_at ip s)) = 13%nat -> 0 <= i_inum (inode_at ip s) < sb_ninodes (sb_of s (i_dev (inode_at ip s))) ->
  i_size (inode_at ip s) = 0 -> plain s ip -> (forall k, 0 <= k -> slot s ip k = 0) -> file_ok s ip.
Proof.
  intros F Hip Ha Hn Hs HP Hz. split; try done; rewrite ?Hs; try done.
  - intros bn Hbn Hb. unfold BSIZE in *. lia.
  - intros k Hk Hne. rewrite Hz in Hne by lia. done.
  - intros k k' Hk Hk' Hne. rewrite Hz in Hne by lia. done.
  - by apply block_no_plain.
Qed.

(** [itrunc] up to the update of the inode. *)
Lemma wpe_itrunc_blocks {A} s ip (m : M kernel A) Q : cache_ok s [] i -> file_ok s ip -> plain s ip ->
  (forall s', cache_ok s' [] i -> freed_all (i_dev (inode_at ip s)) (blocks s ip) s s' ->
     (exists addrs, icache s' = alter (fun x => x <| i_addrs := addrs |>) ip (icache s) /\ length addrs = 13%nat) ->
     (forall k, 0 <= k -> slot s' ip k = 0) -> wpe disk_env m s' Q) ->
  wpe disk_env (
    itrunc_direct ip (Z.of_nat <$> seq 0 (Z.to_nat NDIRECT)) ;;
    let! x := gets (inode_at ip) in
    let! addr := addr_at ip NDIRECT in
    when (negb (addr =? 0))
      (let! bp := bread (i_dev x) addr in
       itrunc_indirect (i_dev x) bp (Z.of_nat <$> seq 0 (Z.to_nat NINDIRECT)) ;;
       brelse bp ;;
       let! addr := addr_at ip NDIRECT in
       bfree (i_dev x) addr ;;
       set_addr ip NDIRECT 0) ;;
    m) s Q.
Proof.
  intros C FI HP HQ. pose proof (fi_fs _ _ FI) as F. set (dev := i_dev (inode_at ip s)) in *.
  pose proof (blocks_freeable s ip FI HP) as HL. fold dev in HL. rewrite blocks_split in *. set (A1 := slots_from s ip 0 NDIRECT) in *.
  destruct (freeable_app _ _ _ _ HL) as (HA & _ & Hdis).
  apply wpe_bind. change (Z.of_nat <$> seq 0 (Z.to_nat NDIRECT)) with (seqZ 0 NDIRECT).
  apply (wpe_itrunc_direct i ip dev (seqZ 0 NDIRECT) s); try done; [apply FI|apply FI|apply NoDup_seqZ| |].
  { apply Forall_forall. intros k Hk%elem_of_seqZ. lia. }
  fold (slots_from s ip 0 NDIRECT). fold A1. intros s1 C1 F1 (a1 & I1 & H13 & Hs1).
  assert (Hin1 : inode_at ip s1 = (inode_at ip s) <| i_addrs := a1 |>) by exact (inode_alter _ _ _ _ (fi_in _ _ FI) I1).
  assert (Hd1 : forall k, 0 <= k <= NDIRECT -> slot s1 ip k = if decide (k ∈ seqZ 0 NDIRECT) then 0 else slot s ip k).
  { intros k Hk. rewrite slot_direct, Hin1 by lia. by apply Hs1. }
  assert (H12 : slot s1 ip NDIRECT = slot s ip NDIRECT).
  { rewrite Hd1 by done. rewrite decide_False; [done|]. rewrite elem_of_seqZ. lia. }
  assert (HB : forall a n, NDIRECT <= a -> 0 <= n -> slots_from s1 ip a n = slots_from s ip a n).
  { intros a n Hal _. unfold slots_from. f_equal. apply list_fmap_ext. intros j k Hk%list_elem_of_lookup_2%elem_of_seqZ.
    destruct (Z.eq_dec k NDIRECT) as [->|Hne]; [done|]. rewrite (slot_entry s1), (slot_entry s), H12 by lia.
    destruct (Z.eqb_spec (slot s ip NDIRECT) 0) as [|E]; [done|]. rewrite Hin1. change (i_dev (_ <| i_addrs := _ |>)) with dev. fold dev.
    rewrite (fa_disk _ _ _ _ F1); [done|by apply slot_data|]. rewrite elem_of_reverse. intros Hin. apply (Hdis _ Hin).
    apply elem_of_app. left. apply slots_from_elem. split; [done|]. exists NDIRECT. split; [lia|done]. }
  rewrite <- !HB in HL, HQ by done.
  apply (wpe_itrunc_tail s1 ip dev); [done|apply F1|by rewrite Hin1|rewrite I1, length_alter; apply FI|by rewrite Hin1| |].
  { eapply freeable_rest; [exact F|exact HL|done]. }
  intros s2 C2 F2 (a2 & I2 & H13' & Hs2). rewrite I1, list_alter_alter in I2.
  assert (Hin2 : inode_at ip s2 = (inode_at ip s) <| i_addrs := a2 |>) by exact (inode_alter _ _ _ _ (fi_in _ _ FI) I2).
  apply HQ; [done| |by exists a2|].
  - eapply freed_perm; [|by eapply freed_app]. by rewrite reverse_Permutation, Permutation_app_comm.
  - apply no_blocks. intros k Hk. rewrite slot_direct, Hin2 by lia. cbn. rewrite Hs2, Hd1 by done.
    destruct (decide (k = NDIRECT)); [done|]. rewrite decide_True; [done|]. apply elem_of_seqZ. lia.
Qed.

(** [iupdate] of a file. *)
Record iupdate_post (ip : nat) (s s' : kernel) : Prop := {
  iu_cache : cache_ok s' [] i;
  iu_file : file_ok s' ip;
  iu_saved : inode_saved s' ip;
  iu_icache : icache s' = icache s;
  iu_frame : wrfr s s';
  iu_blocks : same_blocks ip s s';
  iu_inodes : forall j, 0 <= j < sb_ninodes (sb_of s (i_dev (inode_at ip s))) -> j <> i_inum (inode_at ip s) ->
    disk_inode s' (i_dev (inode_at ip s)) j = disk_inode s (i_dev (inode_at ip s)) j;
  iu_dev : forall d x, d <> i_dev (inode_at ip s) -> disk s' d x = disk s d x }.

Lemma wpe_iupdate_file s ip (Q : unit -> kernel -> Prop) : cache_ok s [] i -> file_ok s ip -> plain s ip ->
  dinode_ok (to_dinode (inode_at ip s)) -> (forall s', iupdate_post ip s s' -> Q tt s') -> wpe disk_env (iupdate ip) s Q.
Proof.
  intros C FI HP DO HQ. pose proof (fi_fs _ _ FI) as FS. pose proof (fi_inum _ _ FI) as Hn.
  apply (wpe_iupdate i s ip); [done|done|done|apply FI|]. intros s' C' F'.
  pose proof (iofr_disk _ _ F') as D. pose proof (iofr_icache _ _ F') as I. cbn in D, I.
  destruct (iupdated_inode s s' ip FS Hn (fi_addrs _ _ FI) ltac:(apply C) D I) as (H1 & H2 & H3).
  destruct (iblock_range s _ _ FS Hn) as [Hb _]. pose proof (fs_size_pos _ _ FS). pose proof (bitmap_range _ _ 0 FS ltac:(lia)).
  assert (SB : same_blocks ip s s').
  { split.
    - exists (i_size (inode_at ip s)). rewrite I. destruct (lookup_lt_is_Some_2 _ _ (fi_in _ _ FI)) as [x Hx].
      rewrite (list_alter_lookup _ _ x) by done. unfold inode_at. rewrite Hx. symmetry. apply list_insert_id. rewrite Hx. by destruct x.
    - intros x Hx. apply H3. intros [=]. lia.
    - intros x Hx. apply H3. intros [=]. lia. }
  assert (Hin : inode_at ip s' = inode_at ip s) by (unfold inode_at; by rewrite I).
  destruct (same_blocks_ok ip s s' FI HP SB) as [FI' _]; rewrite ?Hin; [apply FI|apply FI|].
  apply HQ. split; try done; [by apply H1|by eapply wrfr_disk|]. intros d x Hd. apply H3. congruence.
Qed.

Lemma truncated_intro s s1 s2 s3 ip a1 : file_ok s ip -> freed_all (i_dev (inode_at ip s)) (blocks s ip) s s1 ->
  icache s1 = alter (fun x => x <| i_addrs := a1 |>) ip (icache s) -> (forall k, 0 <= k -> slot s2 ip k = 0) ->
  s2 = s1 <| icache ::= alter (fun x => x <| i_size := 0 |>) ip |> -> file_ok s2 ip -> plain s2 ip ->
  inode_at ip s2 = (inode_at ip s) <| i_addrs := a1 |> <| i_size := 0 |> -> iupdate_post ip s2 s3 -> truncated ip s s3.
Proof.
  intros FI F1 I1 Hz E2 FI2 HP2 Hin [C3 FI3 SV I3 W3 SB HI HD]. pose proof (fi_fs _ _ FI) as FS.
  assert (Ed : i_dev (inode_at ip s2) = i_dev (inode_at ip s)) by by rewrite Hin.
  assert (En : i_inum (inode_at ip s2) = i_inum (inode_at ip s)) by by rewrite Hin.
  set (dev := i_dev (inode_at ip s)) in *. assert (Es2 : sb_of s2 dev = sb_of s dev) by (subst s2; apply F1).
  destruct (meta_same_at s2 s3 (i_dev (inode_at ip s2)) (fi_fs _ _ FI2) (sm_meta _ _ _ SB)) as (E3 & _ & Ef3). rewrite Ed in *.
  pose proof (same_blocks_slots ip s2 s3 FI2 HP2 SB) as Hsl.
  split; [done|done| | | |done|].
  - unfold file_data, inode_at. rewrite I3. fold (inode_at ip s2). by rewrite Hin.
  - apply elem_of_nil_inv. intros b (Hne & k & Hk & <-)%slots_from_elem. apply Hne. rewrite Hsl by lia. apply Hz. lia.
  - fold dev. rewrite Ef3. assert (Ef2 : frees s2 dev = frees s1 dev) by by subst s2. rewrite Ef2. apply F1.
  - split; fold dev.
    + rewrite (fa_frame _ _ _ _ F1), <- W3. subst s2. apply wrfr_icache.
    + by rewrite E3, Es2.
    + intros j Hj. rewrite I3. subst s2. cbn. rewrite list_lookup_alter_ne, I1, list_lookup_alter_ne by done. done.
    + intros x Hx Hu Hn. pose proof (sm_data _ _ _ SB x) as Hd. rewrite Ed, Es2 in Hd. rewrite Hd by lia. subst s2. apply (fa_disk _ _ _ _ F1); [lia|].
      intros (Hne & k & Hk & E)%slots_from_elem. apply (Hn k); [lia|by rewrite E|done].
    + intros j Hj Hne. rewrite HI by (rewrite ?Es2, ?En; done). subst s2. unfold disk_inode.
      destruct (iblock_range s _ j FS Hj) as [Hb _]. cbn [disk]. change (disk (s1 <| icache ::= _ |>)) with (disk s1). rewrite (fa_meta _ _ _ _ F1) by lia. done.
    + intros d x Hd. rewrite HD by done. subst s2. by apply F1.
Qed.

Lemma wpe_itrunc s ip (Q : unit -> kernel -> Prop) : cache_ok s [] i -> file_ok s ip -> plain s ip -> dinode_ok (to_dinode (inode_at ip s)) ->
  (forall s', truncated ip s s' -> Q tt s') -> wpe disk_env (itrunc ip) s Q.
Proof.
  intros C FI HP DO HQ. unfold itrunc. apply wpe_itrunc_blocks; [done..|]. intros s1 C1 F1 (a1 & I1 & H13) Hz1.
  unfold upd_inode. apply wpe_modify. set (s2 := s1 <| icache ::= _ |>).
  assert (Hin1 := inode_alter _ _ _ _ (fi_in _ _ FI) I1).
  assert (Hin : inode_at ip s2 = (inode_at ip s) <| i_addrs := a1 |> <| i_size := 0 |>).
  { rewrite (inode_alter s2 s1 ip (fun x => x <| i_size := 0 |>)); [by rewrite Hin1|rewrite I1, length_alter; apply FI|done]. }
  assert (Hz : forall k, 0 <= k -> slot s2 ip k = 0).
  { apply no_blocks. intros k Hk. rewrite <- (Hz1 k) by lia. rewrite !slot_direct, Hin, Hin1 by lia. done. }
  assert (HP2 : plain s2 ip) by (unfold plain; by rewrite Hin).
  assert (FI2 : file_ok s2 ip).
  { apply file_ok_empty; rewrite ?Hin; try done.
    - eapply fs_ok_same; [apply F1|done|done].
    - cbn. rewrite length_alter, I1, length_alter. apply FI.
    - change (sb_of s2) with (sb_of s1). cbn [i_dev]. change (i_dev (_ <| i_size := _ |>)) with (i_dev (inode_at ip s)).
      rewrite (fa_sb _ _ _ _ F1). apply FI. }
  apply wpe_iupdate_file; [by apply cache_ok_icache|done|done| |].
  - rewrite Hin. pose proof (addrs_range s2 ip FI2 HP2) as Hr. rewrite Hin in Hr. destruct DO. split; done.
  - intros s3 P3. apply HQ. by eapply (truncated_intro s s1 s2 s3).
Qed.
End itrunc.
