(* ===== verification/FsClaims.v ===== *)
(** The theorems about blocks and files, with an example disk on which they apply. *)
From S2P Require Import Prelude Types Mem Kalloc PageTable Cons Vm VmProofs VmUser VmSpec Shm Sched Ide Bio UserMem UserView Inode Console Fs FsBlocks FsFile FsWrite FsSpec FsTrunc.

(** ** Theorems *)

(** [balloc] returns the first free block, marks exactly this block in use, and changes no
    data block: the list of free blocks loses its head. *)
Theorem balloc_correct (i : nat) (s : kernel) (dev r : Z) (fr : list Z) :
  cache_ok s [] i -> fs_ok s dev -> frees s dev = r :: fr ->
  wpe disk_env (balloc dev) s (fun b s' =>
    b = r /\ cache_ok s' [] i /\ fs_ok s' dev /\ frees s' dev = fr /\
    (forall c, 0 <= c -> used s' dev c = (c =? r) || used s dev c) /\
    (forall x, data_start (sb_of s dev) <= x -> disk s' dev x = disk s dev x)).
Proof.
  intros C F E. apply (wpe_balloc i s [] dev r fr); [done|done|cbn; unfold NBUF; lia|apply data_only_nil|done|]. intros s' C' F'.
  destruct (fs_ok_marked s s' dev r fr F ltac:(apply C) E (iofr_disk _ _ F')) as (H1 & H2 & _ & _ & H5 & H6). done.
Qed.

(** On a full disk [balloc] does not panic when the bitmap has a clear bit after the last
    block: it returns the number of the first block past the end of the disk. *)
Theorem balloc_past_end (i : nat) (s : kernel) (dev : Z) :
  cache_ok s [] i -> fs_ok s dev -> frees s dev = [] ->
  used s dev (sb_size (sb_of s dev)) = false -> sb_size (sb_of s dev) mod BPB <> 0 ->
  wpe disk_env (balloc dev) s (fun b s' => b = sb_size (sb_of s dev) /\ disk s' = marked s dev b).
Proof.
  intros C F E Hu Hm. pose proof (fs_size_pos _ _ F) as Hpos.
  apply (wpe_balloc_first i s [] dev (sb_size (sb_of s dev))); [done|done|cbn; unfold NBUF; lia|apply data_only_nil| |].
  - split_and!; [done|done| |].
    + intros c Hc. destruct (used s dev c) eqn:Ec; [done|]. exfalso. apply (not_elem_of_nil c). rewrite <- E.
      apply list_elem_of_filter. split; [done|]. apply elem_of_seqZ. lia.
    + pose proof (Z.div_mod (sb_size (sb_of s dev)) BPB ltac:(done)). pose proof (Z.mod_pos_bound (sb_size (sb_of s dev)) BPB ltac:(done)). lia.
  - intros s' _ F'. split; [done|]. exact (iofr_disk _ _ F').
Qed.

(** C13. [readi] on a file: an offset past the end or an overflowing range is refused, otherwise the
    bytes of the file from [off] on, at most [n] and at most up to its end, are stored at
    the destination, and their number is returned; the disk and the inodes are unchanged
    and no buffer stays owned.  On a checked file this holds when every block matches its
    checksum. *)
Theorem readi_correct (i : nat) (s : kernel) (ip : nat) (dst : dest) (off n : Z) (P : kernel -> list Z -> Prop) :
  cache_ok s [] i -> file_ok s ip -> sums_ok s ip -> i_type (inode_at ip s) <> T_DEV ->
  0 <= off < 2 ^ 32 -> 0 <= n < 2 ^ 32 -> sink dst n P -> P s [] ->
  wpe disk_env (readi ip dst off n) s (fun r s' =>
    if bad_range (i_size (inode_at ip s)) off n then r = (-1, []) /\ s' = s
    else r = (Z.min n (i_size (inode_at ip s) - off),
              slice (file_data s ip) off (Z.min n (i_size (inode_at ip s) - off))) /\
         P s' (snd r) /\ cache_ok s' [] i /\ rdfr s s').
Proof.
  intros C FI SU HT Ho Hn K HP. apply (wpe_readi i s ip dst off n P); try done. cbv zeta. destruct (bad_range _ off n); done.
Qed.

(** C39. When the block at [off] of a checked file does not match its checksum, [readi] returns
    an error before it stores anything; the buffer of the block stays owned. *)
Theorem readi_corrupt (i : nat) (s : kernel) (ip : nat) (dst : dest) (off n : Z) :
  cache_ok s [] i -> file_ok s ip -> i_type (inode_at ip s) = T_CHECKED ->
  0 <= off < i_size (inode_at ip s) -> 0 < n < 2 ^ 31 ->
  gen_checksum (file_block s ip (off / BSIZE)) <> get_checksum (slot s ip (fslot (off / BSIZE))) ->
  wpe disk_env (readi ip dst off n) s (fun r s' =>
    r = (-1, []) /\ mem s' = mem s /\
    exists b, cache_ok s' [(b, (i_dev (inode_at ip s), block_no s ip (fslot (off / BSIZE)), file_block s ip (off / BSIZE)))] i).
Proof.
  intros C FI HT Ho Hn Hsum. pose proof (fi_size _ _ FI) as Hs. change (MAXFILE * BSIZE) with 71680 in Hs.
  unfold readi. apply wpe_gets. rewrite HT. cbn [Z.eqb]. change (T_CHECKED =? T_DEV) with false. cbv iota.
  rewrite bad_range_u32 by lia. unfold bad_range. destruct (Z.ltb_spec (i_size (inode_at ip s)) off); [lia|].
  destruct (Z.leb_spec (2 ^ 32) (off + n)); [lia|]. cbn [orb]. match goal with |- context [if ?c then ?a else n] => set (m := if c then a else n) end.
  assert (Hm : 0 < m) by (unfold m; destruct (Z.ltb_spec (i_size (inode_at ip s)) (off + n)); lia).
  unfold rw_fuel. cbn [readi_loop]. destruct (Z.ltb_spec 0 m); [|lia]. apply wpe_gets.
  destruct (file_mapped s ip off FI Ho) as (Hbn & Hsl & Hon). apply wpe_bind, (bmap_mapped i s ip (off / BSIZE)); [done..|].
  intros s1 C1 F1. fold (block_no s ip (fslot (off / BSIZE))).
  apply wpe_bind, (wpe_read i s1 []); [done|done|cbn; unfold NBUF; lia|set_solver|]. intros bp s2 C2 F2.
  eapply wpe_data; [exact C2|]. rewrite (iofr_disk _ _ F1) in *. fold (file_block s ip (off / BSIZE)) in *.
  rewrite HT. change (T_CHECKED =? T_CHECKED) with true. unfold vrfy_checksum. apply Z.eqb_neq in Hsum. rewrite Hsum. cbn [andb negb].
  apply wpe_ret. split_and!; [done| |by exists bp]. rewrite (fr_eq _ _ F2). cbn. rewrite (fr_eq _ _ F1). done.
Qed.

(** C2. [writei] on a file without checksums: an offset past the end or an overflowing range is
    refused; otherwise the bytes are written, up to the largest size of a file, with
    blocks allocated as needed.  The contents of the file are the old contents with the
    bytes at [off], the size grows when needed, the inode on the disk is the inode in the
    cache, and no other file changes.  The disk must have enough free blocks. *)
Theorem writei_correct (i : nat) (s : kernel) (ip : nat) (src : source) (off n : Z) (w : list Z) (P : kernel -> Prop) :
  cache_ok s [] i -> file_ok s ip -> plain s ip -> inode_saved s ip -> dinode_ok (to_dinode (inode_at ip s)) ->
  0 <= off < 2 ^ 32 -> 0 <= n < 2 ^ 32 -> feed src w P -> P s ->
  Z.of_nat (length w) = Z.max 0 (Z.min n (MAXFILE * BSIZE - off)) ->
  nblocks off (Z.min n (MAXFILE * BSIZE - off)) <= spare s ip ->
  wpe disk_env (writei ip src off n) s (fun r s' =>
    if bad_range (i_size (inode_at ip s)) off n then r = -1 /\ s' = s
    else r = Z.min n (MAXFILE * BSIZE - off) /\ file_written i ip s s' off w).
Proof.
  intros C FI HP SV DO Ho Hn K Ps Hw Hsp. apply (wpe_writei i s ip src off n w P); try done. destruct (bad_range _ off n); done.
Qed.

(** Writing and reading back. *)
Definition write_back (ip : nat) (w : list Z) (off : Z) : M kernel (Z * list Z) :=
  let! _ := writei ip (SLoc w) off (Z.of_nat (length w)) in
  readi ip DLoc off (Z.of_nat (length w)).

(** C7. On a file without checksums (not [T_CHECKED], not a device) what [writei] writes at an
    offset inside the file or at its end, [readi] reads back there, when the file stays within
    its largest size and the disk has the blocks it needs. *)
Theorem write_read_file (i : nat) (s : kernel) (ip : nat) (w : list Z) (off : Z) :
  cache_ok s [] i -> file_ok s ip -> plain s ip -> inode_saved s ip -> dinode_ok (to_dinode (inode_at ip s)) ->
  Forall (fun c => 0 <= c < 256) w -> 0 <= off <= i_size (inode_at ip s) -> off + Z.of_nat (length w) <= MAXFILE * BSIZE ->
  nblocks off (Z.of_nat (length w)) <= spare s ip ->
  wpe disk_env (write_back ip w off) s (fun r s' => r = (Z.of_nat (length w), w) /\ cache_ok s' [] i /\ file_ok s' ip).
Proof.
  intros C FI HP SV DO Hb Ho Hmax Hsp. pose proof (fi_size _ _ FI) as Hs. change (MAXFILE * BSIZE) with 71680 in *.
  assert (Em : Z.min (Z.of_nat (length w)) (MAXFILE * BSIZE - off) = Z.of_nat (length w)) by (change (MAXFILE * BSIZE) with 71680; lia).
  assert (Hrange : bad_range (i_size (inode_at ip s)) off (Z.of_nat (length w)) = false).
  { unfold bad_range. apply orb_false_iff. rewrite Z.ltb_ge, Z.leb_gt. lia. }
  unfold write_back. apply wpe_bind. apply (wpe_writei i s ip (SLoc w) off (Z.of_nat (length w)) w (fun _ => True)); rewrite ?Em; try done; try lia.
  rewrite Hrange. intros s1 [C1 FI1 HD SV1 HT HO].
  assert (Hlen : i_size (inode_at ip s1) = Z.max (i_size (inode_at ip s)) (off + Z.of_nat (length w))).
  { pose proof (f_equal length HD) as E. rewrite file_data_length in E. unfold splice in E.
    rewrite !length_app, length_take, length_drop, file_data_length in E. pose proof (fi_size _ _ FI1). lia. }
  apply (wpe_readi i s1 ip DLoc off (Z.of_nat (length w)) (fun _ _ => True)); try done; try lia.
  { intros bn _ _ E. rewrite HT in E. by destruct HP. } { rewrite HT. apply HP. } { apply sink_local. }
  cbv zeta. replace (bad_range _ off _) with false by (symmetry; apply orb_false_iff; rewrite Z.ltb_ge, Z.leb_gt; lia).
  intros s2 C2 F2 _. replace (Z.min _ _) with (Z.of_nat (length w)) by lia. rewrite HD, slice_splice by (rewrite file_data_length; lia).
  split_and!; [done|done|]. destruct (rdfr_same _ _ F2) as [D2 I2]. by apply (same_file s1 s2 ip D2 I2).
Qed.

(** C16. [itrunc] on a file without checksums empties it: every block of the file, the indirect
    block included, is free and zero again, no other block is freed, the empty inode is on the
    disk and no other file changes.  (The addresses of a checked file also hold the checksums,
    and [itrunc] does not take them off.) *)
Theorem itrunc_correct (i : nat) (s : kernel) (ip : nat) :
  cache_ok s [] i -> file_ok s ip -> plain s ip -> dinode_ok (to_dinode (inode_at ip s)) ->
  wpe disk_env (itrunc ip) s (fun _ s' => truncated i ip s s').
Proof. intros C FI HP DO. by apply (wpe_itrunc i). Qed.

(** ** An example disk

    Disk 1 has 32 blocks and eight inodes: the superblock in block 1, the inodes in block
    2, the bitmap in block 4, data from block 5 on.  Inode 1 is a file of 700 bytes in blocks
    5 and 6. *)
Definition pad (l : list Z) : list Z := l ++ replicate (512 - length l) 0.
Definition inode1 (type : Z) : inode :=
  mkInode 1 1 1 (I_BUSY + I_VALID) type 0 0 1 700 ([5; 6] ++ replicate 11 0).
Definition fs_disk (bits : list Z) (type : Z) (d x : Z) : list Z :=
  if x =? 1 then pad (le32 32 ++ le32 27 ++ le32 8)
  else if x =? 2 then pad (replicate 64 0 ++ dinode_bytes (to_dinode (inode1 type)))
  else if x =? 4 then pad bits
  else if x =? 5 then replicate 512 7
  else if x =? 6 then 9 :: replicate 511 0
  else replicate 512 0.

Definition kernel_fs0 (bits : list Z) (type : Z) : kernel :=
  kernel_ide0 <| disk := fs_disk bits type |> <| icache := [inode1 type] |>.
Definition kernel_fs (bits : list Z) (type : Z) : kernel :=
  match binit (kernel_fs0 bits type) with Ret _ s => s | _ => kernel0 end.

Lemma kernel_fs_run bits type : exists bs, kernel_fs bits type = (kernel_fs0 bits type) <| bufs := bs |> /\
  bc_inv (kernel_fs bits type) [].
Proof.
  destruct (binit_run (kernel_fs0 bits type) eq_refl kernel_ide0_free) as (s' & E & E' & _ & H).
  unfold kernel_fs. rewrite E. exists (bufs s'). by split.
Qed.
Lemma kernel_fs_disk bits type : disk (kernel_fs bits type) = fs_disk bits type.
Proof. destruct (kernel_fs_run bits type) as (bs & E & _). by rewrite E. Qed.
Lemma kernel_fs_icache bits type : icache (kernel_fs bits type) = [inode1 type].
Proof. destruct (kernel_fs_run bits type) as (bs & E & _). by rewrite E. Qed.
Lemma kernel_fs_inode bits type : inode_at 0 (kernel_fs bits type) = inode1 type.
Proof. unfold inode_at. by rewrite kernel_fs_icache. Qed.

Lemma fs_disk_sectors bits type d x : (length bits <= 512)%nat -> Forall (fun c => 0 <= c < 256) bits ->
  length (fs_disk bits type d x) = Z.to_nat BSIZE /\ Forall (fun c => 0 <= c < 256) (fs_disk bits type d x).
Proof.
  intros Hl Hb. assert (Hpad : forall l, (length l <= 512)%nat -> Forall (fun c => 0 <= c < 256) l ->
    length (pad l) = Z.to_nat BSIZE /\ Forall (fun c => 0 <= c < 256) (pad l)).
  { intros l H1 H2. unfold pad. rewrite length_app, length_replicate. split; [change (Z.to_nat BSIZE) with 512%nat; lia|].
    apply Forall_app. split; [done|]. apply Forall_replicate. lia. }
  unfold fs_disk. repeat case_match; try by apply Hpad.
  - apply Hpad; [rewrite !length_app, !le32_length; lia|]. rewrite !Forall_app. split_and!; apply le32_bytes.
  - apply Hpad; [rewrite length_app, length_replicate, dinode_bytes_length by done; lia|]. apply Forall_app. split; [apply Forall_replicate; lia|apply dinode_bytes_range].
  - split; [done|]. apply Forall_replicate. lia.
  - split; [done|]. constructor; [lia|]. apply Forall_replicate. lia.
  - split; [done|]. apply Forall_replicate. lia.
Qed.

Lemma io_ok_upd s i dk ic bs : io_ok s i -> io_ok (s <| disk := dk |> <| icache := ic |> <| bufs := bs |>) i.
Proof. intros ([p [[] ?]] & ? & ?). split; [exists p; done|done]. Qed.
Lemma kernel_ide0_ok : io_ok kernel_ide0 0.
Proof. split_and!; try done. exists proc1. split; [|by vm_compute]. split; by vm_compute. Qed.

Lemma kernel_fs_cache bits type : (length bits <= 512)%nat -> Forall (fun c => 0 <= c < 256) bits -> cache_ok (kernel_fs bits type) [] 0.
Proof.
  intros Hl Hb. destruct (kernel_fs_run bits type) as (bs & E & H). split; [done| |..].
  - rewrite E. apply (io_ok_upd kernel_ide0), kernel_ide0_ok.
  - intros d x. rewrite kernel_fs_disk. by apply fs_disk_sectors.
  - intros d x. rewrite kernel_fs_disk. by apply fs_disk_sectors.
Qed.
#[global] Opaque kernel_fs.

(** Blocks 0 to 6 in use, and a disk where every block is. *)
Definition bits7 : list Z := [127].
Definition bits_full : list Z := [255; 255; 255; 255].

Lemma kernel_fs_sb bits type : sb_of (kernel_fs bits type) 1 = mkSb 32 27 8.
Proof. unfold sb_of. rewrite kernel_fs_disk. done. Qed.
Lemma kernel_fs_used bits type b : used (kernel_fs bits type) 1 b = bit_is_set (fs_disk bits type 1 (BBLOCK b 8)) (b mod BPB).
Proof. unfold used, bitmap. rewrite kernel_fs_sb, kernel_fs_disk. done. Qed.

Lemma range_check (P : Z -> bool) a n : forallb P (seqZ a n) = true -> forall b, a <= b < a + n -> P b = true.
Proof. intros H b Hb. rewrite forallb_forall in H. apply H, list_elem_of_In, elem_of_seqZ. lia. Qed.

Lemma kernel_fs_ok bits type :
  forallb (fun b => bit_is_set (fs_disk bits type 1 (BBLOCK b 8)) (b mod BPB)) (seqZ 0 7) = true ->
  fs_ok (kernel_fs bits type) 1.
Proof.
  intros H. pose proof (range_check _ _ _ H) as Hu. split; rewrite ?kernel_fs_sb; cbn [sb_ninodes sb_size]; try lia.
  - done.
  - intros b Hb. change (data_start (mkSb 32 27 8)) with 5 in Hb. rewrite kernel_fs_used. apply Hu. lia.
  - intros b Hb Hf. rewrite kernel_fs_used in Hf. destruct (Z.lt_ge_cases b 7) as [Hlt|Hge]; [rewrite Hu in Hf by lia; done|].
    rewrite kernel_fs_disk. unfold fs_disk.
    destruct (Z.eqb_spec b 1), (Z.eqb_spec b 2), (Z.eqb_spec b 4), (Z.eqb_spec b 5), (Z.eqb_spec b 6); try lia. done.
Qed.

Lemma kernel_fs_slot bits type k : 0 <= k -> slot (kernel_fs bits type) 0 k = if k =? 0 then 5 else if k =? 1 then 6 else 0.
Proof.
  intros Hk. assert (Hdir : forall k, 0 <= k <= NDIRECT -> slot (kernel_fs bits type) 0 k = if k =? 0 then 5 else if k =? 1 then 6 else 0).
  { intros j Hj. rewrite slot_direct, kernel_fs_inode by lia. change NDIRECT with 12 in Hj. cbn [inode1 i_addrs].
    destruct (Z.eqb_spec j 0) as [->|]; [done|]. destruct (Z.eqb_spec j 1) as [->|]; [done|].
    rewrite lookup_app_r by (cbn [length]; lia). destruct (replicate 11 0 !! _) eqn:E; [|done]. by apply lookup_replicate in E as [-> _]. }
  destruct (Z.le_gt_cases k NDIRECT) as [|Hgt]; [apply Hdir; lia|]. rewrite slot_entry, Hdir by (done || lia). change NDIRECT with 12 in Hgt.
  cbn. destruct (Z.eqb_spec k 0), (Z.eqb_spec k 1); lia.
Qed.

Lemma kernel_fs_file bits type : type = T_FILE \/ type = T_CHECKED ->
  forallb (fun b => bit_is_set (fs_disk bits type 1 (BBLOCK b 8)) (b mod BPB)) (seqZ 0 7) = true ->
  file_ok (kernel_fs bits type) 0.
Proof.
  intros HT H. pose proof (range_check _ _ _ H) as Hu.
  assert (Hr : forall k, 0 <= k -> block_no (kernel_fs bits type) 0 k = slot (kernel_fs bits type) 0 k).
  { intros k Hk. unfold block_no. rewrite kernel_fs_inode, kernel_fs_slot by done.
    destruct HT as [-> | ->]; destruct (k =? 0), (k =? 1); done. }
  split; rewrite ?kernel_fs_inode; cbn [inode1 i_dev i_inum i_size i_addrs]; rewrite ?kernel_fs_sb; cbn [sb_ninodes sb_size].
  - by apply kernel_fs_ok.
  - rewrite kernel_fs_icache. cbn. lia.
  - done.
  - lia.
  - change (MAXFILE * BSIZE) with 71680. lia.
  - intros bn Hbn Hb. unfold BSIZE in Hb. assert (E : bn = 0 \/ bn = 1) by lia. destruct E as [-> | ->]; rewrite kernel_fs_slot by done; done.
  - intros k Hk Hs. rewrite Hr, kernel_fs_slot in * by lia. change (data_start (mkSb 32 27 8)) with 5. rewrite kernel_fs_used.
    destruct (k =? 0); [split; [lia|by apply (Hu 5)]|]. destruct (k =? 1); [split; [lia|by apply (Hu 6)]|done].
  - intros k k' Hk Hk' Hs Hs'. rewrite !Hr, !kernel_fs_slot in * by lia.
    destruct (Z.eqb_spec k 0), (Z.eqb_spec k 1), (Z.eqb_spec k' 0), (Z.eqb_spec k' 1); lia.
  - by apply Hr.
Qed.

Lemma bits7_used type : forallb (fun b => bit_is_set (fs_disk bits7 type 1 (BBLOCK b 8)) (b mod BPB)) (seqZ 0 7) = true.
Proof. vm_compute. reflexivity. Qed.
Lemma bits_full_used type : forallb (fun b => bit_is_set (fs_disk bits_full type 1 (BBLOCK b 8)) (b mod BPB)) (seqZ 0 32) = true.
Proof. vm_compute. reflexivity. Qed.
Lemma bits7_bytes : (length bits7 <= 512)%nat /\ Forall (fun c => 0 <= c < 256) bits7.
Proof. split; [cbn; lia|]. repeat constructor; lia. Qed.
Lemma bits_full_bytes : (length bits_full <= 512)%nat /\ Forall (fun c => 0 <= c < 256) bits_full.
Proof. split; [cbn; lia|]. repeat constructor; lia. Qed.

Lemma frees_bits bits type :
  frees (kernel_fs bits type) 1 = filter (fun b => bit_is_set (fs_disk bits type 1 (BBLOCK b 8)) (b mod BPB) = false) (seqZ 0 32).
Proof.
  unfold frees. rewrite kernel_fs_sb. cbn [sb_size]. apply filter_ext_in. intros b _. by rewrite kernel_fs_used.
Qed.
Lemma frees_bits7 : frees (kernel_fs bits7 T_FILE) 1 = seqZ 7 25.
Proof. rewrite frees_bits. vm_compute. reflexivity. Qed.
Lemma spare_bits7 : spare (kernel_fs bits7 T_FILE) 0 = 24.
Proof.
  unfold spare. rewrite kernel_fs_slot, kernel_fs_inode by done. cbn [inode1 i_dev]. rewrite frees_bits7. vm_compute. reflexivity.
Qed.
Lemma plain_fs : plain (kernel_fs bits7 T_FILE) 0.
Proof. unfold plain. rewrite kernel_fs_inode. done. Qed.
Lemma saved_fs : inode_saved (kernel_fs bits7 T_FILE) 0.
Proof. unfold inode_saved, disk_inode. rewrite kernel_fs_inode, kernel_fs_disk. vm_compute. reflexivity. Qed.
Lemma dinode_fs : dinode_ok (to_dinode (inode_at 0 (kernel_fs bits7 T_FILE))).
Proof. rewrite kernel_fs_inode. split; try (cbn; lia); [done|]. repeat constructor; lia. Qed.
Lemma cache_fs type : cache_ok (kernel_fs bits7 type) [] 0.
Proof. apply kernel_fs_cache; apply bits7_bytes. Qed.
Lemma file_fs : file_ok (kernel_fs bits7 T_FILE) 0.
Proof. apply kernel_fs_file; [by left|apply bits7_used]. Qed.

Lemma balloc_correct_witness : wpe disk_env (balloc 1) (kernel_fs bits7 T_FILE) (fun b s' => b = 7 /\ frees s' 1 = seqZ 8 24).
Proof.
  eapply wpe_mono; [apply (balloc_correct 0 (kernel_fs bits7 T_FILE) 1 7 (seqZ 8 24))|].
  - apply cache_fs.
  - apply kernel_fs_ok, bits7_used.
  - exact frees_bits7.
  - intros b s' (H1 & _ & _ & H2 & _). by split.
Defined.

Lemma balloc_past_end_witness : wpe disk_env (balloc 1) (kernel_fs bits_full T_FILE) (fun b _ => b = 32).
Proof.
  eapply wpe_mono; [apply (balloc_past_end 0 (kernel_fs bits_full T_FILE) 1)|].
  - apply kernel_fs_cache; apply bits_full_bytes.
  - apply kernel_fs_ok. vm_compute. reflexivity.
  - rewrite frees_bits. vm_compute. reflexivity.
  - rewrite kernel_fs_sb, kernel_fs_used. vm_compute. reflexivity.
  - rewrite kernel_fs_sb. done.
  - intros b s' [H _]. by rewrite H, kernel_fs_sb.
Defined.

(** The last 100 bytes of the file, which is 700 bytes long. *)
Lemma readi_correct_witness : wpe disk_env (readi 0 DLoc 600 500) (kernel_fs bits7 T_FILE) (fun r _ =>
  r = (100, slice (file_data (kernel_fs bits7 T_FILE) 0) 600 100)).
Proof.
  eapply wpe_mono; [apply (readi_correct 0 (kernel_fs bits7 T_FILE) 0 DLoc 600 500 (fun _ _ => True))|].
  - apply cache_fs.
  - apply file_fs.
  - intros bn _ _. rewrite kernel_fs_inode. done.
  - rewrite kernel_fs_inode. done.
  - lia.
  - lia.
  - apply sink_local.
  - done.
  - cbv beta. rewrite kernel_fs_inode. intros r s' H. exact (proj1 H).
Defined.

(** The second block of the same file as a checked file does not match. *)
Lemma readi_corrupt_witness : wpe disk_env (readi 0 DLoc 600 50) (kernel_fs bits7 T_CHECKED) (fun r _ => r = (-1, [])).
Proof.
  eapply wpe_mono; [apply (readi_corrupt 0 (kernel_fs bits7 T_CHECKED) 0 DLoc 600 50)|].
  - apply cache_fs.
  - apply kernel_fs_file; [by right|apply bits7_used].
  - by rewrite kernel_fs_inode.
  - rewrite kernel_fs_inode. cbn. lia.
  - lia.
  - unfold file_block, block_no. rewrite kernel_fs_inode, kernel_fs_slot, kernel_fs_disk by done. vm_compute. discriminate.
  - intros r s' H. exact (proj1 H).
Defined.

Definition bytes1000 : list Z := replicate 1000 33.
Lemma bytes1000_ok : Forall (fun c => 0 <= c < 256) bytes1000.
Proof. apply Forall_replicate. lia. Qed.
Lemma bytes1000_length : Z.of_nat (length bytes1000) = 1000.
Proof. unfold bytes1000. by rewrite length_replicate. Qed.

(** Appending 1000 bytes to the file. *)
Lemma writei_correct_witness : wpe disk_env (writei 0 (SLoc bytes1000) 700 1000) (kernel_fs bits7 T_FILE) (fun r s' =>
  r = 1000 /\ file_written 0 0 (kernel_fs bits7 T_FILE) s' 700 bytes1000).
Proof.
  assert (Em : Z.min 1000 (MAXFILE * BSIZE - 700) = 1000) by (change (MAXFILE * BSIZE) with 71680; lia).
  eapply wpe_mono; [apply (writei_correct 0 (kernel_fs bits7 T_FILE) 0 (SLoc bytes1000) 700 1000 bytes1000 (fun _ => True))|].
  - apply cache_fs.
  - apply file_fs.
  - apply plain_fs.
  - apply saved_fs.
  - apply dinode_fs.
  - lia.
  - lia.
  - apply feed_local, bytes1000_ok.
  - done.
  - rewrite Em, bytes1000_length. lia.
  - rewrite Em, spare_bits7. vm_compute. discriminate.
  - cbv beta. rewrite kernel_fs_inode, Em. intros r s' H. exact H.
Defined.

Lemma write_read_file_witness : wpe disk_env (write_back 0 bytes1000 700) (kernel_fs bits7 T_FILE) (fun r _ => r = (1000, bytes1000)).
Proof.
  eapply wpe_mono; [apply (write_read_file 0 (kernel_fs bits7 T_FILE) 0 bytes1000 700)|].
  - apply cache_fs.
  - apply file_fs.
  - apply plain_fs.
  - apply saved_fs.
  - apply dinode_fs.
  - apply bytes1000_ok.
  - rewrite kernel_fs_inode. cbn. lia.
  - rewrite bytes1000_length. change (MAXFILE * BSIZE) with 71680. lia.
  - rewrite bytes1000_length, spare_bits7. vm_compute. discriminate.
  - rewrite bytes1000_length. intros r s' H. exact (proj1 H).
Defined.

Lemma itrunc_correct_witness : wpe disk_env (itrunc 0) (kernel_fs bits7 T_FILE) (fun _ s' => file_data s' 0 = []).
Proof.
  eapply wpe_mono; [apply (itrunc_correct 0 (kernel_fs bits7 T_FILE) 0)|].
  - apply cache_fs.
  - apply file_fs.
  - apply plain_fs.
  - apply dinode_fs.
  - intros r s' H. apply H.
Defined.
