(* ===== verification/Pipe.v ===== *)
(** Pipes, [kernel/pipe.c]: a ring of 512 bytes between a writer and a reader, with
    [sleep] when it is full or empty. *)
From S2P Require Import Prelude Types Mem Kalloc PageTable Cons Vm Shm Sched Ide UserMem.

(** ** Code *)
Definition PIPESIZE : Z := 512.
Definition upd_pipe (p : Z) (g : pipe -> pipe) : M kernel unit :=
  modify (fun s => s <| pipes ::= fun f x => if x =? p then g (f x) else f x |>).
Definition pipe_at (p : Z) : M kernel pipe := gets (fun s => pipes s p).

Section Pipe.
Context `{Linker}.

Definition pipeclose (p writable : Z) : M kernel unit :=
  acquire (LPipe p) ;;
  (if negb (writable =? 0) then
     upd_pipe p (fun x => x <| pi_writeopen := 0 |>) ;;
     wakeup (ChPipeR p)
   else
     upd_pipe p (fun x => x <| pi_readopen := 0 |>) ;;
     wakeup (ChPipeW p)) ;;
  let! x := pipe_at p in
  if (pi_readopen x =? 0) && (pi_writeopen x =? 0) then
    release (LPipe p) ;;
    kfree p
  else release (LPipe p).
End Pipe.

Definition pipe_full (x : pipe) : bool := pi_nwrite x =? u32 (pi_nread x + PIPESIZE).
Definition pipe_empty (x : pipe) : bool := pi_nread x =? pi_nwrite x.

(** [while(p->nwrite == p->nread + PIPESIZE)]: [false] when there is no reader or the
    process was killed. *)
Fixpoint pipe_wait_room (fuel : nat) (p : Z) : M kernel bool :=
  match fuel with
  | O => spin
  | S fuel' =>
      let! x := pipe_at p in
      if pipe_full x then
        let! me := myproc in
        if (pi_readopen x =? 0) || negb (p_killed me =? 0) then ret false
        else
          wakeup (ChPipeR p) ;;
          sleep (ChPipeW p) (LPipe p) ;;
          pipe_wait_room fuel' p
      else ret true
  end.

(** [p->data[p->nwrite++ % PIPESIZE] = c] *)
Definition pipe_put (c : Z) (x : pipe) : pipe :=
  x <| pi_data ::= <[Z.to_nat (pi_nwrite x mod PIPESIZE) := u8 c]> |>
    <| pi_nwrite ::= fun w => u32 (w + 1) |>.

(** [for(i = 0; i < n; i++)]: [false] when the loop was left early. *)
Fixpoint pipewrite_loop (p addr : Z) (n : nat) : M kernel bool :=
  match n with
  | O => ret true
  | S n' =>
      let! ok := waiting (fun n => pipe_wait_room n p) in
      if negb ok then ret false
      else
        let! c := vload addr in
        upd_pipe p (pipe_put c) ;;
        pipewrite_loop p (u32 (addr + 1)) n'
  end.
Definition pipewrite (p addr n : Z) : M kernel Z :=
  acquire (LPipe p) ;;
  let! ok := pipewrite_loop p addr (Z.to_nat n) in
  if negb ok then release (LPipe p) ;; ret (-1)
  else
    wakeup (ChPipeR p) ;;
    release (LPipe p) ;;
    ret n.

(** [while(p->nread == p->nwrite && p->writeopen)]: [false] when the process was killed. *)
Fixpoint pipe_wait_data (fuel : nat) (p : Z) : M kernel bool :=
  match fuel with
  | O => spin
  | S fuel' =>
      let! x := pipe_at p in
      if pipe_empty x && negb (pi_writeopen x =? 0) then
        let! me := myproc in
        if negb (p_killed me =? 0) then ret false
        else
          sleep (ChPipeR p) (LPipe p) ;;
          pipe_wait_data fuel' p
      else ret true
  end.

(** [for(i = 0; i < n; i++)]: the number of bytes copied. *)
Fixpoint piperead_loop (p addr i : Z) (n : nat) : M kernel Z :=
  match n with
  | O => ret i
  | S n' =>
      let! x := pipe_at p in
      if pipe_empty x then ret i
      else
        let c := default 0 (pi_data x !! Z.to_nat (pi_nread x mod PIPESIZE)) in
        upd_pipe p (fun x => x <| pi_nread ::= fun r => u32 (r + 1) |>) ;;
        vstore (u32 (addr + i)) c ;;
        piperead_loop p addr (i + 1) n'
  end.
Definition piperead (p addr n : Z) : M kernel Z :=
  acquire (LPipe p) ;;
  let! ok := waiting (fun n => pipe_wait_data n p) in
  if negb ok then release (LPipe p) ;; ret (-1)
  else
    let! i := piperead_loop p addr 0 (Z.to_nat n) in
    wakeup (ChPipeW p) ;;
    release (LPipe p) ;;
    ret i.
