(* ===== verification/PipeProofs.v ===== *)
(** Pipes are first-in first-out queues of at most 512 bytes: [pipewrite] and [piperead] of
    [kernel/pipe.c] against the list of bytes in the ring. *)
From S2P Require Import Prelude Types Mem Kalloc PageTable Cons Vm VmProofs VmUser VmSpec Shm Sched Ide UserMem UserView Pipe.

(** ** The ring *)

(** The number of bytes in the ring; [nread] and [nwrite] count modulo 2^32. *)
Definition pipe_count (x : pipe) : Z := u32 (pi_nwrite x - pi_nread x).
Definition pipe_slot (x : pipe) (i : nat) : Z := default 0 (pi_data x !! Z.to_nat (u32 (pi_nread x + Z.of_nat i) mod PIPESIZE)).
Definition contents (x : pipe) : list Z := pipe_slot x <$> seq 0 (Z.to_nat (pipe_count x)).

Record pipe_ok (x : pipe) : Prop := {
  po_data : length (pi_data x) = Z.to_nat PIPESIZE;
  po_bytes : Forall (fun c => 0 <= c < 256) (pi_data x);
  po_read : 0 <= pi_nread x < 2 ^ 32;
  po_write : 0 <= pi_nwrite x < 2 ^ 32;
  po_count : pipe_count x <= PIPESIZE }.

Lemma length_contents x : Z.of_nat (length (contents x)) = pipe_count x.
Proof. unfold contents. rewrite length_fmap, length_seq. pose proof (u32_range (pi_nwrite x - pi_nread x)). unfold pipe_count. lia. Qed.

Ltac u32_arith := unfold pipe_count, PIPESIZE in *; u32_lia.

Lemma pipe_full_spec x : pipe_ok x -> pipe_full x = (pipe_count x =? PIPESIZE).
Proof.
  intros [_ _ Hr Hw Hc]. unfold pipe_full. apply eq_bool_prop_intro. rewrite !Is_true_true, !Z.eqb_eq. u32_arith.
Qed.
Lemma pipe_empty_spec x : pipe_ok x -> pipe_empty x = (pipe_count x =? 0).
Proof.
  intros [_ _ Hr Hw Hc]. unfold pipe_empty. apply eq_bool_prop_intro. rewrite !Is_true_true, !Z.eqb_eq. u32_arith.
Qed.

Lemma slot_bound x : (Z.to_nat (x mod PIPESIZE) < Z.to_nat PIPESIZE)%nat.
Proof. pose proof (Z.mod_pos_bound x PIPESIZE eq_refl). lia. Qed.

Lemma pipe_put_ok c x : pipe_ok x -> pipe_count x < PIPESIZE ->
  pipe_ok (pipe_put c x) /\ contents (pipe_put c x) = contents x ++ [u8 c].
Proof.
  intros [Hd Hb Hr Hw Hc] Hlt. pose proof (u32_range (pi_nwrite x - pi_nread x)) as Hrg.
  assert (Ec : pipe_count (pipe_put c x) = pipe_count x + 1) by (unfold pipe_count in *; cbn; u32_arith).
  split.
  - split; cbn.
    + by rewrite length_insert.
    + apply Forall_insert; [done|apply u8_range].
    + done.
    + apply u32_range.
    + fold (pipe_put c x). rewrite Ec. lia.
  - unfold contents. rewrite Ec.
    replace (Z.to_nat (pipe_count x + 1)) with (Z.to_nat (pipe_count x) + 1)%nat by (unfold pipe_count; lia).
    rewrite seq_app, fmap_app. f_equal.
    + apply list_fmap_ext. intros j i Hi. apply lookup_seq in Hi as [-> Hj]. unfold pipe_slot. cbn.
      rewrite list_lookup_insert_ne; [done|]. intros E. apply Z2Nat.inj in E; try (apply Z.mod_pos_bound; done).
      unfold pipe_count in *. revert E Hj. u32_arith.
    + cbn [seq fmap list_fmap Nat.add]. f_equal. unfold pipe_slot. cbn.
      replace (u32 (pi_nread x + Z.of_nat (Z.to_nat (pipe_count x)))) with (pi_nwrite x) by u32_arith.
      rewrite list_lookup_insert_eq; [done|]. rewrite Hd. apply slot_bound.
Qed.

Definition pipe_get (x : pipe) : pipe := x <| pi_nread ::= fun r => u32 (r + 1) |>.
Lemma pipe_get_ok x : pipe_ok x -> 0 < pipe_count x ->
  pipe_ok (pipe_get x) /\
  contents x = default 0 (pi_data x !! Z.to_nat (pi_nread x mod PIPESIZE)) :: contents (pipe_get x).
Proof.
  intros [Hd Hb Hr Hw Hc] Hlt. pose proof (u32_range (pi_nwrite x - pi_nread x)) as Hrg.
  assert (Ec : pipe_count (pipe_get x) = pipe_count x - 1) by (unfold pipe_count in *; cbn; u32_arith).
  split.
  - split; cbn; try done; [apply u32_range|]. fold (pipe_get x). rewrite Ec. lia.
  - unfold contents. rewrite Ec.
    replace (Z.to_nat (pipe_count x)) with (S (Z.to_nat (pipe_count x - 1))) by (unfold pipe_count in *; lia).
    cbn [seq]. rewrite fmap_cons. f_equal.
    + unfold pipe_slot. by rewrite Z.add_0_r, u32_small.
    + rewrite <- fmap_S_seq, <- list_fmap_compose. apply list_fmap_ext. intros j i _. cbn. unfold pipe_slot. cbn.
      do 4 f_equal. u32_arith.
Qed.

(** ** [pipewrite] *)

(** The pipes [g] are those of [s] but for [p], whose ring has the bytes [l]. *)
Record pipe_now (p : Z) (s : kernel) (g : Z -> pipe) (l : list Z) : Prop := {
  pn_other : forall y, y <> p -> g y = pipes s y;
  pn_ok : pipe_ok (g p);
  pn_contents : contents (g p) = l;
  pn_readopen : pi_readopen (g p) = pi_readopen (pipes s p);
  pn_writeopen : pi_writeopen (g p) = pi_writeopen (pipes s p) }.

Lemma pipe_now_refl p s : pipe_ok (pipes s p) -> pipe_now p s (pipes s) (contents (pipes s p)).
Proof. by split. Qed.
Lemma pipe_now_trans p s s1 g l l1 : pipe_now p s (pipes s1) l1 -> pipe_now p s1 g l -> pipe_now p s g l.
Proof. intros [A1 A2 A3 A4 A5] [B1 B2 B3 B4 B5]. split; try congruence. intros y Hy. by rewrite B1, A1. Qed.

Lemma pipe_now_same p s s0 g l : pipes s0 = pipes s -> pipe_now p s0 g l -> pipe_now p s g l.
Proof. intros E [A1 A2 A3 A4 A5]. rewrite E in *. by split. Qed.

Section PipeProofs.
Context `{HL : LinkerOk}.

(** One byte goes in while there is room. *)
Lemma pipewrite_step s p addr n f R l :
  uspace s f R l -> 0 <= addr -> addr + 1 <= USERTOP -> user_pages f addr (addr + 1) ->
  pipe_ok (pipes s p) -> pipe_count (pipes s p) < PIPESIZE ->
  exists g, pipe_now p s g (contents (pipes s p) ++ ubytes f (mem s) addr 1) /\
    pipewrite_loop p addr (S n) s = pipewrite_loop p (addr + 1) n (s <| pipes := g |>).
Proof.
  intros U H0 Ht Hu Hok Hlt. cbn [pipewrite_loop]. unfold bind at 1.
  unfold waiting at 1. cbn [pipe_wait_room]. unfold pipe_at, bind at 1, gets at 1. cbn [obind].
  rewrite pipe_full_spec by done. destruct (Z.eqb_spec (pipe_count (pipes s p)) PIPESIZE); [lia|].
  unfold ret at 1. cbn [obind negb]. unfold bind at 1, vload, bind at 1, get at 1. cbn [obind].
  rewrite (xlate_user s f R l); [|exact U|lia|apply Hu; lia]. unfold ret at 1. cbn [obind].
  unfold bind at 1, upd_pipe, modify at 1. cbn [obind]. rewrite u32_small by (unfold USERTOP in *; lia).
  destruct (pipe_put_ok (ld8 (mem s) (upa f addr)) (pipes s p) Hok Hlt) as [Hok' Hc].
  eexists. split; [|reflexivity]. rewrite ubytes_S. unfold ubytes. cbn [seq fmap list_fmap].
  assert (Eu : u8 (ld8 (mem s) (upa f addr)) = ld8 (mem s) (upa f addr)) by apply u8_small, u8_range.
  rewrite Eu in Hc. split; cbn; rewrite ?Z.eqb_refl; try done.
  intros y Hy. apply Z.eqb_neq in Hy. by rewrite Hy.
Qed.

Lemma ubytes_app f m va a b : ubytes f m va (a + b) = ubytes f m va a ++ ubytes f m (va + Z.of_nat a) b.
Proof.
  unfold ubytes. rewrite seq_app, fmap_app. f_equal. cbn [Nat.add].
  replace (seq a b) with (Nat.add a <$> seq 0 b) by by rewrite fmap_add_seq, Nat.add_0_r. rewrite <- list_fmap_compose.
  apply list_fmap_ext. intros j i _. cbn. do 2 f_equal. lia.
Qed.

Lemma pipewrite_fill a : forall s p addr b f R l,
  uspace s f R l -> 0 <= addr -> addr + Z.of_nat a <= USERTOP -> user_pages f addr (addr + Z.of_nat a) ->
  pipe_ok (pipes s p) -> pipe_count (pipes s p) + Z.of_nat a <= PIPESIZE ->
  exists g, pipe_now p s g (contents (pipes s p) ++ ubytes f (mem s) addr a) /\
    pipewrite_loop p addr (a + b) s = pipewrite_loop p (addr + Z.of_nat a) b (s <| pipes := g |>).
Proof.
  induction a as [|a IH]; intros s p addr b f R l U H0 Ht Hu Hok Hc.
  { exists (pipes s). rewrite Z.add_0_r. split; [|by destruct s]. rewrite app_nil_r. by apply pipe_now_refl. }
  destruct (pipewrite_step s p addr (a + b) f R l U) as (g & N & E); [lia|lia| |done|lia|].
  { intros v Hv. apply Hu. lia. }
  set (s1 := s <| pipes := g |>) in *.
  assert (Ec : pipe_count (pipes s1 p) = pipe_count (pipes s p) + 1).
  { rewrite <- !length_contents. cbn. rewrite (pn_contents _ _ _ _ N), length_app, ubytes_length. lia. }
  destruct (IH s1 p (addr + 1) b f R l) as (g' & N' & E'); [by eapply uspace_same|lia|lia| |apply N|lia|].
  { intros v Hv. apply Hu. lia. }
  exists g'. split.
  - replace (S a) with (1 + a)%nat by lia. rewrite ubytes_app, app_assoc. change (Z.of_nat 1) with 1.
    rewrite <- (pn_contents _ _ _ _ N). by apply (pipe_now_trans p s s1 g' _ _ N).
  - change (S a + b)%nat with (S (a + b)). rewrite E, E'. cbn. f_equal. lia.
Qed.

(** What [pipewrite] leaves: the ring [l], and the readers woken. *)
Record pipe_done (p : Z) (c : chan) (s s' : kernel) (l : list Z) : Prop := {
  pd_now : pipe_now p s (pipes s') l;
  pd_woken : ptable s' = wake_proc (Some c) <$> ptable s;
  pd_frame : s' = s <| pipes := pipes s' |> <| ptable := ptable s' |> <| mem := mem s' |> }.

Lemma user_pages_take f va n k : (k <= n)%nat -> user_pages f va (va + Z.of_nat n) -> user_pages f va (va + Z.of_nat k).
Proof. intros Hk Hu v Hv. apply Hu. lia. Qed.

Lemma ubytes_take f m va n k : (k <= n)%nat -> take k (ubytes f m va n) = ubytes f m va k.
Proof.
  intros Hk. replace n with (k + (n - k))%nat by lia. rewrite ubytes_app, take_app_le by (rewrite ubytes_length; lia).
  apply take_ge. rewrite ubytes_length. lia.
Qed.

(** The turn of the loop that finds the ring full. *)
Lemma pipewrite_full s p addr n i me :
  held s = [LPipe p] -> curproc s = Some i -> ptable s !! i = Some me -> pipe_ok (pipes s p) ->
  pipe_count (pipes s p) = PIPESIZE ->
  if (pi_readopen (pipes s p) =? 0) || negb (p_killed me =? 0) then pipewrite_loop p addr (S n) s = Ret false s
  else let s1 := s <| ptable := wake_proc (Some (ChPipeR p)) <$> ptable s |> in
    exists k, pipewrite_loop p addr (S n) s = Switched (slept s1 (ChPipeW p) i (wake_proc (Some (ChPipeR p)) me)) k.
Proof.
  intros Hh Hc Hp Hok Hf. cbn [pipewrite_loop]. set (W := waiting _).
  assert (EW : W s = (if (pi_readopen (pipes s p) =? 0) || negb (p_killed me =? 0) then ret false
    else wakeup (ChPipeR p) ;; sleep (ChPipeW p) (LPipe p) ;; pipe_wait_room (S (wakes s)) p) s).
  { subst W. unfold waiting. cbn [pipe_wait_room]. unfold pipe_at. rewrite bind_gets, pipe_full_spec, Hf, Z.eqb_refl by done.
    by rewrite (bind_run _ _ _ _ _ (myproc_run s i me Hc Hp)). }
  clearbody W. destruct (_ || _).
  - rewrite (bind_run _ _ _ _ _ EW). done.
  - rewrite (bind_run _ _ _ _ _ (wakeup_run s (ChPipeR p) ltac:(rewrite Hh; set_solver))) in EW.
    erewrite (bind_switched _ _ _ _ _ (sleep_run _ _ _ i (wake_proc (Some (ChPipeR p)) me) _ _ _ _)) in EW.
    rewrite (bind_switched _ _ _ _ _ EW). by eexists.
    Unshelve. all: try done. cbn. by rewrite list_lookup_fmap, Hp.
Qed.

(** C17. [pipewrite] appends to the ring.  With room for all [n] bytes it returns [n], the ring holds the old
    bytes followed by the [n] bytes of the user's buffer, and the sleeping readers are runnable.  Without, the
    first bytes fill the ring up to its 512: it returns -1 if the read end is closed or the process was killed,
    and otherwise wakes the readers and gives up the CPU, asleep until a reader makes room. *)
Theorem pipewrite_correct (s : kernel) (p addr n : Z) (i : nat) (me : proc) (f : Z -> Z) (R l : list Z) :
  held s = [] -> curproc s = Some i -> ptable s !! i = Some me ->
  uspace s f R l -> 0 <= n -> 0 <= addr -> addr + n <= USERTOP -> user_pages f addr (addr + n) ->
  pipe_ok (pipes s p) ->
  let old := contents (pipes s p) in
  let new := ubytes f (mem s) addr (Z.to_nat n) in
  let room := PIPESIZE - Z.of_nat (length old) in
  if n <=? room then exists s', pipewrite p addr n s = Ret n s' /\ pipe_done p (ChPipeR p) s s' (old ++ new)
  else exists g, pipe_now p s g (old ++ take (Z.to_nat room) new) /\ length (contents (g p)) = Z.to_nat PIPESIZE /\
    if (pi_readopen (pipes s p) =? 0) || negb (p_killed me =? 0)
    then pipewrite p addr n s = Ret (-1) (s <| pipes := g |>)
    else exists k, pipewrite p addr n s =
      Switched (slept (s <| pipes := g |> <| ptable := wake_proc (Some (ChPipeR p)) <$> ptable s |>)
                  (ChPipeW p) i (wake_proc (Some (ChPipeR p)) me)) k.
Proof.
  intros Hh Hc Hp U Hn H0 Ht Hu Hok old new room. set (s0 := s <| held ::= cons (LPipe p) |>).
  assert (U0 : uspace s0 f R l) by by eapply uspace_same.
  assert (Hrm : 0 <= room) by (unfold room, old; rewrite length_contents; pose proof (po_count _ Hok); lia).
  assert (Hlc : pipe_count (pipes s p) = PIPESIZE - room) by (unfold room, old; rewrite length_contents; lia).
  assert (E0 : forall A (k : unit -> M kernel A), bind (acquire (LPipe p)) k s = k tt s0).
  { intros A k. unfold bind. rewrite acquire_run by (rewrite Hh; set_solver). done. }
  unfold pipewrite. rewrite E0.
  destruct (Z.leb_spec n room) as [Hle|Hgt].
  - destruct (pipewrite_fill (Z.to_nat n) s0 p addr 0 f R l U0) as (g & N & E);
      [lia|lia|rewrite Z2Nat.id by lia; exact Hu|exact Hok|cbn; lia|].
    apply (pipe_now_same p s) in N; [|done].
    rewrite Nat.add_0_r in E. unfold bind at 1. rewrite E. cbn [pipewrite_loop]. unfold ret at 1. cbn [obind negb].
    unfold bind at 1. rewrite wakeup_run by (cbn; rewrite Hh; set_solver). cbn [obind].
    unfold bind at 1. rewrite (release_run _ []) by (cbn; by rewrite Hh). cbn [obind].
    eexists. split; [reflexivity|]. split; [exact N|done|]. kext. by cbn.
  - assert (Hk : (Z.to_nat room <= Z.to_nat n)%nat) by lia.
    replace (take (Z.to_nat room) new) with (ubytes f (mem s) addr (Z.to_nat room)) by (symmetry; by apply ubytes_take).
    destruct (pipewrite_fill (Z.to_nat room) s0 p addr (S (Z.to_nat n - Z.to_nat room - 1)) f R l U0) as (g & N & E);
      [lia|lia|apply (user_pages_take f addr (Z.to_nat n)); [lia|rewrite Z2Nat.id by lia; exact Hu]|exact Hok|cbn; lia|].
    apply (pipe_now_same p s) in N; [|done].
    replace (Z.to_nat room + S (Z.to_nat n - Z.to_nat room - 1))%nat with (Z.to_nat n) in E by lia.
    assert (Hfull : length (contents (g p)) = Z.to_nat PIPESIZE).
    { rewrite (pn_contents _ _ _ _ N), length_app, ubytes_length. change (pipes s0 p) with (pipes s p). fold old. lia. }
    exists g. split; [exact N|]. split; [exact Hfull|].
    assert (Hh0 : held (s0 <| pipes := g |>) = [LPipe p]) by (unfold s0; cbn; by rewrite Hh).
    pose proof (pipewrite_full (s0 <| pipes := g |>) p (addr + Z.of_nat (Z.to_nat room)) (Z.to_nat n - Z.to_nat room - 1)
      i me Hh0 Hc Hp (pn_ok _ _ _ _ N)) as F.
    change (pipes (s0 <| pipes := g |>) p) with (g p) in F.
    rewrite <- length_contents, Hfull, (pn_readopen _ _ _ _ N) in F. specialize (F eq_refl).
    rewrite <- E in F. destruct (_ || _).
    + rewrite (bind_run _ _ _ _ _ F). cbn [negb]. unfold bind at 1. rewrite (release_run _ []) by (cbn; by rewrite Hh).
      cbn [obind]. unfold ret. f_equal. kext. cbn. done.
    + destruct F as [k F]. rewrite (bind_switched _ _ _ _ _ F). eexists. by f_equal.
Qed.

(** ** [piperead] *)

Lemma contents_bytes x : pipe_ok x -> Forall (fun c => 0 <= c < 256) (contents x).
Proof.
  intros Hok. apply Forall_fmap, Forall_true. intros i. cbn. unfold pipe_slot.
  destruct (_ !! _) eqn:E; cbn; [|lia]. pose proof (po_bytes _ Hok) as B. rewrite Forall_lookup in B. by eapply B.
Qed.

(** A state with other pipes and memory. *)
Record pipe_moved (p : Z) (s s' : kernel) (f : Z -> Z) (va : Z) (moved rest : list Z) : Prop := {
  pm_now : pipe_now p s (pipes s') rest;
  pm_copied : copied_out f va moved (mem s) (mem s');
  pm_frame : s' = s <| pipes := pipes s' |> <| mem := mem s' |> }.

Lemma piperead_loop_spec n : forall s p addr i f R l,
  uspace s f R l -> 0 <= addr -> 0 <= i -> addr + i + Z.of_nat n <= USERTOP ->
  user_pages f (addr + i) (addr + i + Z.of_nat n) -> pipe_ok (pipes s p) ->
  let old := contents (pipes s p) in
  exists s', piperead_loop p addr i n s = Ret (i + Z.of_nat (length (take n old))) s' /\ uspace s' f R l /\
    pipe_moved p s s' f (addr + i) (take n old) (drop n old).
Proof.
  induction n as [|n IH]; intros s p addr i f R l U H0 Hi Ht Hu Hok old; cbn [piperead_loop].
  { exists s. cbn. rewrite Z.add_0_r, drop_0. split_and!; [done|done|]. split; [by apply pipe_now_refl|apply copied_out_nil|].
    by destruct s. }
  unfold pipe_at. rewrite bind_gets, pipe_empty_spec by done.
  pose proof (length_contents (pipes s p)) as Hl. destruct (Z.eqb_spec (pipe_count (pipes s p)) 0) as [E|E].
  { assert (En : old = []) by (apply nil_length_inv; unfold old; lia). exists s. rewrite En. cbn. rewrite Z.add_0_r.
    split_and!; [done|done|]. split; [rewrite <- En; by apply pipe_now_refl|apply copied_out_nil|by destruct s]. }
  destruct (pipe_get_ok (pipes s p) Hok) as [Hok' Ec]; [lia|].
  set (c := default 0 _) in *. unfold upd_pipe. rewrite bind_modify.
  set (s1 := s <| pipes ::= _ |>). assert (Es1 : pipes s1 p = pipe_get (pipes s p)) by (cbn; by rewrite Z.eqb_refl).
  assert (U1 : uspace s1 f R l) by by eapply uspace_same.
  rewrite (u32_small (addr + i)) by (unfold USERTOP in *; lia).
  set (s2 := s1 <| mem := st8 (mem s1) (upa f (addr + i)) c |>).
  assert (HP : has (f ((addr + i) / PGSIZE)) PTE_P = true) by (apply Hu; lia).
  assert (E2 : vstore (addr + i) c s1 = Ret tt s2).
  { unfold vstore. rewrite bind_get, (xlate_user s1 f R l); [done|exact U1|lia|exact HP]. }
  rewrite (bind_run _ _ _ _ _ E2).
  destruct (IH s2 p addr (i + 1) f R l) as (s' & -> & U' & [N C F]).
  - apply uspace_st8; [done|lia|exact HP].
  - lia.
  - lia.
  - lia.
  - intros v Hv. apply Hu. lia.
  - change (pipes s2 p) with (pipes s1 p). by rewrite Es1.
  - change (pipes s2 p) with (pipes s1 p) in *. rewrite Es1 in *. exists s'. unfold old. rewrite Ec. cbn [take drop length].
    split_and!; [f_equal; lia|done|]. split.
    + eapply (pipe_now_trans p s s2); [|exact N]. split; cbn; rewrite ?Z.eqb_refl; try done.
      intros y Hy. apply Z.eqb_neq in Hy. by rewrite Hy.
    + eapply copied_out_cons; [exact U|lia| | |].
      * rewrite length_take. lia.
      * intros v Hv. apply Hu. rewrite length_take in Hv. lia.
      * replace (addr + i + 1) with (addr + (i + 1)) by lia. exact C.
    + rewrite F. by kext.
Qed.

Lemma take_drop_min n (l : list Z) : 0 <= n -> let k := Z.min n (Z.of_nat (length l)) in
  take (Z.to_nat n) l = take (Z.to_nat k) l /\ drop (Z.to_nat n) l = drop (Z.to_nat k) l.
Proof.
  intros Hn k. destruct (Z.le_gt_cases n (Z.of_nat (length l))).
  - unfold k. by rewrite Z.min_l.
  - rewrite !take_ge, !drop_ge; [done|lia..].
Qed.

Lemma bytes_u8 l : Forall (fun c => 0 <= c < 256) l -> u8 <$> l = l.
Proof. induction 1 as [|c l Hc _ IH]; [done|]. cbn. rewrite IH, u8_small; done. Qed.

(** C18. [piperead] takes from the front of the ring.  If there are bytes, or the write end is closed, it returns
    the number of bytes it took, at most [n]; these are now in the user's buffer, the rest of the ring is as before
    (bytes come out in the order they went in), nothing else in memory changed, and the sleeping writers are
    runnable.  Otherwise it returns -1 if the process was killed, and else sleeps until a writer comes. *)
Theorem piperead_correct (s : kernel) (p addr n : Z) (i : nat) (me : proc) (f : Z -> Z) (R l : list Z) :
  held s = [] -> curproc s = Some i -> ptable s !! i = Some me ->
  uspace s f R l -> 0 <= n -> 0 <= addr -> addr + n <= USERTOP -> user_pages f addr (addr + n) ->
  pipe_ok (pipes s p) ->
  let old := contents (pipes s p) in
  let k := Z.min n (Z.of_nat (length old)) in
  if (pipe_count (pipes s p) =? 0) && negb (pi_writeopen (pipes s p) =? 0) then
    if negb (p_killed me =? 0) then piperead p addr n s = Ret (-1) s
    else exists k', piperead p addr n s = Switched (slept s (ChPipeR p) i me) k'
  else exists s', piperead p addr n s = Ret k s' /\ uspace s' f R l /\
    pipe_done p (ChPipeW p) s s' (drop (Z.to_nat k) old) /\
    ubytes f (mem s') addr (Z.to_nat k) = take (Z.to_nat k) old /\
    copied_out f addr (take (Z.to_nat k) old) (mem s) (mem s').
Proof.
  intros Hh Hc Hp U Hn H0 Ht Hu Hok old k. set (s0 := s <| held ::= cons (LPipe p) |>).
  unfold piperead. rewrite (bind_run _ _ _ _ _ (acquire_run (LPipe p) s ltac:(rewrite Hh; set_solver))). fold s0.
  set (W := waiting _).
  assert (EW : W s0 = (if (pipe_count (pipes s p) =? 0) && negb (pi_writeopen (pipes s p) =? 0) then
    if negb (p_killed me =? 0) then ret false else sleep (ChPipeR p) (LPipe p) ;; pipe_wait_data (S (wakes s0)) p else ret true) s0).
  { subst W. unfold waiting. cbn [pipe_wait_data]. unfold pipe_at. rewrite bind_gets. change (pipes s0 p) with (pipes s p). rewrite pipe_empty_spec by done.
    destruct (_ && _); [|done]. by rewrite (bind_run _ _ _ _ _ (myproc_run s0 i me Hc Hp)). }
  clearbody W. destruct (_ && _); [destruct (negb (p_killed me =? 0))|].
  - rewrite (bind_run _ _ _ _ _ EW). cbn [negb].
    rewrite (bind_run _ _ _ _ _ (release_run (LPipe p) [] s0 ltac:(unfold s0; cbn; by rewrite Hh))). unfold ret. f_equal.
    kext. by rewrite Hh.
  - erewrite (bind_switched _ _ _ _ _ (sleep_run s0 _ _ i me _ _ Hc Hp)) in EW.
    rewrite (bind_switched _ _ _ _ _ EW). eexists. by f_equal.
    Unshelve. { unfold s0. cbn. by rewrite Hh. } done.
  - rewrite (bind_run _ _ _ _ _ EW). cbn [negb].
    destruct (piperead_loop_spec (Z.to_nat n) s0 p addr 0 f R l) as (s1 & E1 & U1 & [N C F]);
      rewrite ?Z.add_0_r, ?Z2Nat.id by lia; try done; try lia; [by eapply uspace_same|].
    change (pipes s0 p) with (pipes s p) in *. fold old in E1, N, C. rewrite Z.add_0_l in E1. rewrite Z.add_0_r in C.
    assert (Ek : Z.of_nat (length (take (Z.to_nat n) old)) = k) by (rewrite length_take; unfold k; lia).
    rewrite (bind_run _ _ _ _ _ E1), Ek. destruct (take_drop_min n old Hn) as [Etk Edk]. fold k in Etk, Edk.
    rewrite Etk, Edk in *. clear E1.
    assert (Hh1 : held s1 = [LPipe p]) by (rewrite F; unfold s0; cbn; by rewrite Hh).
    rewrite (bind_run _ _ _ _ _ (wakeup_run s1 (ChPipeW p) ltac:(rewrite Hh1; set_solver))).
    erewrite (bind_run _ _ _ _ _ (release_run (LPipe p) [] _ _)).
    eexists. split; [reflexivity|]. split_and!.
    + eapply uspace_same; [exact U1|done..].
    + split; [by apply (pipe_now_same p s) in N|cbn; by rewrite F|cbn; rewrite F; kext; done].
    + assert (Eb := copied_out_ubytes _ _ _ _ _ C). cbn.
      replace (length (take (Z.to_nat k) old)) with (Z.to_nat k) in Eb by lia. rewrite Eb.
      apply bytes_u8, Forall_take, contents_bytes, Hok.
    + exact C.
    Unshelve. exact Hh1.
Qed.
End PipeProofs.

(** ** Examples: a pipe at 0xE00000 between two processes of which the current one has three pages. *)
Lemma pipe_new_ok ro wo : pipe_ok (mkPipe (replicate 512 0) 0 0 ro wo).
Proof. split; [done| | | |]; [|cbn; lia..|vm_compute; congruence]. apply Forall_replicate. lia. Qed.

Lemma pipe_two_ok : pipe_ok (mkPipe (7 :: 8 :: replicate 510 0) 0 2 1 1).
Proof.
  split; [done| | | |]; [|cbn; lia..|vm_compute; congruence].
  apply Forall_cons. split; [lia|]. apply Forall_cons. split; [lia|]. apply Forall_replicate. lia.
Qed.

Lemma pipewrite_correct_witness : exists s s', pipewrite 0xE00000 0xFFE 4 s = Ret 4 s' /\
  length (contents (pipes s' 0xE00000)) = 4%nat.
Proof.
  destruct user1 as (s & f & l & Hh & Hc & Hp & U & Hu & _).
  set (s1 := s <| pipes := fun _ => mkPipe (replicate 512 0) 0 0 1 1 |>). exists s1.
  destruct (@pipewrite_correct linker1 linker1_ok s1 0xE00000 0xFFE 4 0 me1 f [] l Hh Hc ltac:(change (ptable s !! 0%nat = Some me1);
    by rewrite Hp) ltac:(by eapply (@uspace_same linker1)) ltac:(lia) ltac:(lia) ltac:(unfold USERTOP; lia)
    ltac:(intros v Hv; apply Hu; lia) (pipe_new_ok 1 1)) as (s' & E & [N _ _]).
  exists s'. split; [exact E|]. rewrite (pn_contents _ _ _ _ N), length_app, ubytes_length. done.
Defined.

Lemma piperead_correct_witness : exists s s', piperead 0xE00000 0xFFE 4 s = Ret 2 s'.
Proof.
  destruct user1 as (s & f & l & Hh & Hc & Hp & U & Hu & _).
  set (s1 := s <| pipes := fun _ => mkPipe (7 :: 8 :: replicate 510 0) 0 2 1 1 |>). exists s1.
  destruct (@piperead_correct linker1 linker1_ok s1 0xE00000 0xFFE 4 0 me1 f [] l Hh Hc ltac:(change (ptable s !! 0%nat = Some me1);
    by rewrite Hp) ltac:(by eapply (@uspace_same linker1)) ltac:(lia) ltac:(lia) ltac:(unfold USERTOP; lia)
    ltac:(intros v Hv; apply Hu; lia) pipe_two_ok) as (s' & E & _).
  exists s'. exact E.
Defined.
