(* ===== verification/File.v ===== *)
(** Open files, [kernel/file.c], and [pipealloc] of [kernel/pipe.c]: the table of open
    files with its reference counts. *)
From S2P Require Import Prelude Types Mem Kalloc PageTable Cons Vm Shm Sched Ide Bio UserMem Inode Console Fs Pipe.

(** ** Code *)
Definition file_at (f : nat) (s : kernel) : file := default file0 (ftable s !! f).
Definition upd_file (f : nat) (g : file -> file) : M kernel unit :=
  modify (fun s => s <| ftable ::= alter g f |>).

(** The first slot without references, from [n] on. *)
Fixpoint find_file (n : nat) (l : list file) : option nat :=
  match l with
  | [] => None
  | f :: l' => if f_ref f =? 0 then Some n else find_file (S n) l'
  end.
Definition filealloc : M kernel (option nat) :=
  acquire LFtable ;;
  let! ft := gets ftable in
  match find_file 0 ft with
  | Some f =>
      upd_file f (fun x => x <| f_ref := 1 |>) ;;
      release LFtable ;;
      ret (Some f)
  | None =>
      release LFtable ;;
      ret None
  end.

Definition filedup (f : nat) : M kernel nat :=
  acquire LFtable ;;
  let! x := gets (file_at f) in
  if f_ref x <? 1 then panic "filedup"
  else
    upd_file f (fun x => x <| f_ref ::= fun r => r + 1 |>) ;;
    release LFtable ;;
    ret f.

Section File.
Context `{Linker}.

Definition fileclose (f : nat) : M kernel unit :=
  acquire LFtable ;;
  let! x := gets (file_at f) in
  if f_ref x <? 1 then panic "fileclose"
  else
    upd_file f (fun x => x <| f_ref ::= fun r => r - 1 |>) ;;
    let! ff := gets (file_at f) in
    if 0 <? f_ref ff then release LFtable
    else
      upd_file f (fun x => x <| f_ref := 0 |> <| f_type := FD_NONE |>) ;;
      release LFtable ;;
      match f_type ff with
      | FD_PIPE => pipeclose (f_pipe ff) (f_writable ff)
      | FD_INODE => let! ip := deref (f_ip ff) in iput ip
      | FD_NONE => ret tt
      end.

(** [None] is the failure [-1]. *)
Definition filestat (f : nat) : M kernel (option stat) :=
  let! x := gets (file_at f) in
  match f_type x with
  | FD_INODE =>
      ilock (f_ip x) ;;
      let! ip := deref (f_ip x) in
      let! st := stati ip in
      iunlock (f_ip x) ;;
      ret (Some st)
  | _ => ret None
  end.

Definition fileread (f : nat) (addr n : Z) : M kernel Z :=
  let! x := gets (file_at f) in
  if f_readable x =? 0 then ret (-1)
  else
    match f_type x with
    | FD_PIPE => piperead (f_pipe x) addr n
    | FD_INODE =>
        ilock (f_ip x) ;;
        let! ip := deref (f_ip x) in
        let! x := gets (file_at f) in
        let! '(r, _) := readi ip (DVa addr) (f_off x) (u32 n) in
        when (0 <? r) (upd_file f (fun x => x <| f_off ::= fun o => u32 (o + r) |>)) ;;
        iunlock (f_ip x) ;;
        ret r
    | FD_NONE => panic "fileread"
    end.

Definition filewrite (f : nat) (addr n : Z) : M kernel Z :=
  let! x := gets (file_at f) in
  if f_writable x =? 0 then ret (-1)
  else
    match f_type x with
    | FD_PIPE => pipewrite (f_pipe x) addr n
    | FD_INODE =>
        ilock (f_ip x) ;;
        let! ip := deref (f_ip x) in
        let! x := gets (file_at f) in
        let! r := writei ip (SVa addr) (f_off x) (u32 n) in
        when (0 <? r) (upd_file f (fun x => x <| f_off ::= fun o => u32 (o + r) |>)) ;;
        iunlock (f_ip x) ;;
        ret r
    | FD_NONE => panic "filewrite"
    end.

(** [pipealloc], with its [bad:] label; the two files on success. *)
Definition pipealloc_bad (p : Z) (f0 f1 : option nat) : M kernel (option (nat * nat)) :=
  when (negb (p =? 0)) (kfree p) ;;
  (match f0 with Some f => fileclose f | None => ret tt end) ;;
  (match f1 with Some f => fileclose f | None => ret tt end) ;;
  ret None.
Definition pipealloc : M kernel (option (nat * nat)) :=
  let! f0 := filealloc in
  match f0 with
  | None => pipealloc_bad 0 None None
  | Some f0 =>
      let! f1 := filealloc in
      match f1 with
      | None => pipealloc_bad 0 (Some f0) None
      | Some f1 =>
          let! p := kalloc in
          if p =? 0 then pipealloc_bad 0 (Some f0) (Some f1)
          else
            upd_pipe p (fun x => x <| pi_readopen := 1 |> <| pi_writeopen := 1 |>
                                   <| pi_nwrite := 0 |> <| pi_nread := 0 |>) ;;
            upd_file f0 (fun x => x <| f_type := FD_PIPE |> <| f_readable := 1 |>
                                    <| f_writable := 0 |> <| f_pipe := p |>) ;;
            upd_file f1 (fun x => x <| f_type := FD_PIPE |> <| f_readable := 0 |>
                                    <| f_writable := 1 |> <| f_pipe := p |>) ;;
            ret (Some (f0, f1))
      end
  end.
End File.
