(* ===== verification/Proc.v ===== *)
(** Processes and threads, [kernel/proc.c]: creation, exit and reaping, and the reference
    counts of page directories that threads share. *)
From S2P Require Import Prelude Types Mem Kalloc PageTable Cons Vm Shm Sched Ide Bio UserMem Inode Console Fs Pipe File.

(** ** Code *)

(** *** Reference counts of page directories *)
Definition upd_ref (i : nat) (g : pgdir_refs -> pgdir_refs) : M kernel unit :=
  modify (fun s => s <| pgdir_table ::= alter g i |>).

Definition init_ref : M kernel unit :=
  modify (fun s => s <| pgdir_table ::= fmap (fun r => r <| r_count := 0 |>) |>).

(** The first entry that satisfies [f], from index [n] on. *)
Fixpoint find_ref (f : pgdir_refs -> bool) (n : nat) (l : list pgdir_refs) : option nat :=
  match l with
  | [] => None
  | r :: l' => if f r then Some n else find_ref f (S n) l'
  end.
Definition counts (pgdir : Z) (r : pgdir_refs) : bool := (0 <? r_count r) && (r_addr r =? pgdir).

Definition get_index (pgdir : Z) (s : kernel) : option nat := find_ref (counts pgdir) 0 (pgdir_table s).
Definition get_count (pgdir : Z) (s : kernel) : Z :=
  match get_index pgdir s with
  | Some i => r_count (default (mkRefs 0 0) (pgdir_table s !! i))
  | None => 0
  end.

Definition add_ref (pgdir : Z) : M kernel unit :=
  let! i := gets (get_index pgdir) in
  match i with
  | Some i => upd_ref i (fun r => r <| r_count ::= fun c => c + 1 |>)
  | None =>
      let! t := gets pgdir_table in
      match find_ref (fun r => r_count r =? 0) 0 t with
      | Some i => upd_ref i (fun _ => mkRefs pgdir 1)
      | None => ret tt
      end
  end.

Definition delete_ref (pgdir : Z) : M kernel Z :=
  let! t := gets pgdir_table in
  match find_ref (fun r => (r_addr r =? pgdir) && (0 <? r_count r)) 0 t with
  | Some i =>
      upd_ref i (fun r => r <| r_count ::= fun c => c - 1 |>) ;;
      gets (fun s => r_count (default (mkRefs 0 0) (pgdir_table s !! i)))
  | None => ret (-1)
  end.

Definition pinit : M kernel unit := init_ref.

(** Addresses of the assembly routines a new process starts in. *)
Class CodeSyms : Type := { sym_forkret : Z; sym_trapret : Z }.

Definition proc_at (i : nat) : M kernel proc := gets (fun s => default proc0 (ptable s !! i)).

Section Proc.
Context `{Linker} `{CodeSyms}.

(** *** Creation *)

(** The new trap frame [p->tf] lies in a fresh stack page and is filled in by the caller. *)
Definition allocproc : M kernel (option nat) :=
  acquire LPtable ;;
  let! pt := gets ptable in
  match find_proc (fun p => bool_decide (p_state p = UNUSED)) 0 pt with
  | None =>
      release LPtable ;;
      ret None
  | Some i =>
      let! pid := gets (fun s => s32 (nextpid s)) in
      upd_proc i (fun p => p <| p_state := EMBRYO |> <| p_pid := pid |>) ;;
      modify (fun s => s <| nextpid ::= Z.succ |>) ;;
      upd_proc i (fun p => p <| p_shm := USERTOP |> <| p_shm_key_mask := 0 |> <| p_priority := 0 |>
                             <| p_ticks_used := replicate NPRIOR 0 |>) ;;
      release LPtable ;;
      let! k := kalloc in
      upd_proc i (fun p => p <| p_kstack := k |>) ;;
      if k =? 0 then
        upd_proc i (fun p => p <| p_state := UNUSED |>) ;;
        ret None
      else
        upd_proc i (fun p => p <| p_context := mkContext 0 0 0 0 sym_forkret sym_trapret |>) ;;
        ret (Some i)
  end.

(** [initcode] is the program of [initcode.S], which the build links into the kernel. *)
Definition userinit (initcode : list Z) : M kernel unit :=
  let! r := allocproc in
  acquire LPtable ;;
  modify (fun s => s <| initproc := r |>) ;;
  let! d := setupkvm in
  let! i := deref r in
  upd_proc i (fun p => p <| p_pgdir := d |>) ;;
  if d =? 0 then panic "userinit: out of memory?"
  else
    inituvm d initcode ;;
    upd_proc i (fun p => p <| p_sz := PGSIZE |>
      <| p_tf := trapframe0 <| tf_cs := Z.lor (Z.shiftl SEG_UCODE 3) DPL_USER |>
                            <| tf_ds := Z.lor (Z.shiftl SEG_UDATA 3) DPL_USER |>
                            <| tf_es := Z.lor (Z.shiftl SEG_UDATA 3) DPL_USER |>
                            <| tf_ss := Z.lor (Z.shiftl SEG_UDATA 3) DPL_USER |>
                            <| tf_eflags := FL_IF |> <| tf_esp := PGSIZE |> <| tf_eip := 0 |> |>
      <| p_name ::= fun n => safestrcpy n (str "initcode") 16 |>) ;;
    let! ip := namei (str "/") in
    upd_proc i (fun p => p <| p_cwd := ip |> <| p_state := RUNNABLE |>) ;;
    add_ref d ;;
    release LPtable.

Definition growproc (n : Z) : M kernel Z :=
  let! me := myproc in
  let! r :=
    (if 0 <? n then allocuvm (p_pgdir me) (p_sz me) (u32 (p_sz me + n))
     else if n <? 0 then deallocuvm (p_pgdir me) (p_sz me) (u32 (p_sz me + n))
     else ret (p_sz me)) in
  if negb (n =? 0) && (r =? 0) then ret (-1)
  else
    upd_myproc (fun p => p <| p_sz := r |>) ;;
    let! me := myproc in
    switchuvm me ;;
    ret 0.

(** [for(i = 0; i < NOFILE; i++) if(proc->ofile[i]) np->ofile[i] = filedup(proc->ofile[i])] *)
Fixpoint dup_files (np : nat) (fds : list nat) : M kernel unit :=
  match fds with
  | [] => ret tt
  | fd :: fds' =>
      let! me := myproc in
      (match me.(p_ofile) !! fd with
       | Some (Some f) =>
           let! f := filedup f in
           upd_proc np (fun p => p <| p_ofile ::= <[fd := Some f]> |>)
       | _ => ret tt
       end) ;;
      dup_files np fds'
  end.

(** [np->shm_va[i] = proc->shm_va[i]] for the keys of the mask. *)
Definition copy_shm_va (mask : Z) (src dst : list Z) : list Z :=
  imap (fun i v => if shm_key_used (Z.of_nat i) mask then default 0 (src !! i) else v) dst.

(** The fields both [fork] and [clone] copy from the caller to the new process. *)
Definition inherit (me : proc) (parent : option nat) (np : proc) : proc :=
  np <| p_shm := p_shm me |> <| p_shm_key_mask := p_shm_key_mask me |>
     <| p_shm_va ::= copy_shm_va (p_shm_key_mask me) (p_shm_va me) |>
     <| p_sz := p_sz me |> <| p_parent := parent |>
     <| p_tf := (p_tf me) <| tf_eax := 0 |> |>.

Definition fork : M kernel Z :=
  let! r := allocproc in
  match r with
  | None => ret (-1)
  | Some np =>
      let! me := myproc in
      let! d := copyuvm (p_pgdir me) (p_sz me) in
      upd_proc np (fun p => p <| p_pgdir := d |>) ;;
      let! bad :=
        (if d =? 0 then ret true
         else let! r := copyshm (p_pgdir me) (p_shm me) d in ret (r <? 0)) in
      if bad then
        let! q := proc_at np in
        kfree (p_kstack q) ;;
        upd_proc np (fun p => p <| p_kstack := 0 |> <| p_state := UNUSED |>) ;;
        ret (-1)
      else
        shm_add_count (p_shm_key_mask me) ;;
        let! cur := gets curproc in
        upd_proc np (inherit me cur) ;;
        dup_files np (seq 0 NOFILE) ;;
        let! cwd := deref (p_cwd me) in
        let! cwd := idup cwd in
        upd_proc np (fun p => p <| p_cwd := Some cwd |>) ;;
        let! q := proc_at np in
        let pid := p_pid q in
        upd_proc np (fun p => p <| p_state := RUNNABLE |>) ;;
        add_ref (p_pgdir q) ;;
        upd_proc np (fun p => p <| p_name ::= fun n => safestrcpy n (p_name me) 16 |>) ;;
        ret pid
  end.

(** *** Exit *)
Fixpoint close_files (fds : list nat) : M kernel unit :=
  match fds with
  | [] => ret tt
  | fd :: fds' =>
      let! me := myproc in
      (match me.(p_ofile) !! fd with
       | Some (Some f) =>
           fileclose f ;;
           upd_myproc (fun p => p <| p_ofile ::= <[fd := None]> |>)
       | _ => ret tt
       end) ;;
      close_files fds'
  end.

(** [for(p = ptable.proc; ...)]: abandoned children are passed to init. *)
Fixpoint reparent (cur : nat) (init : option nat) (l : list nat) : M kernel unit :=
  match l with
  | [] => ret tt
  | i :: l' =>
      let! p := proc_at i in
      when (bool_decide (p_parent p = Some cur))
        (upd_proc i (fun p => p <| p_parent := init |>) ;;
         when (bool_decide (p_state p = ZOMBIE)) (wakeup1 (ChProc <$> init))) ;;
      reparent cur init l'
  end.

Definition exit : M kernel unit :=
  let! cur := gets curproc in
  let! init := gets initproc in
  if bool_decide (cur = init) then panic "init exiting"
  else
    close_files (seq 0 NOFILE) ;;
    let! me := myproc in
    let! cwd := deref (p_cwd me) in
    iput cwd ;;
    upd_myproc (fun p => p <| p_cwd := None |>) ;;
    acquire LPtable ;;
    let! me := myproc in
    wakeup1 (ChProc <$> p_parent me) ;;
    let! cur := deref cur in
    reparent cur init (seq 0 NPROC) ;;
    upd_myproc (fun p => p <| p_state := ZOMBIE |>) ;;
    sched ;;
    panic "zombie exit".

(** *** Reaping *)

(** The scan of [wait] and [join]: whether a child of process [cur] that satisfies [mine]
    was seen, and the first such child that is a zombie. *)
Fixpoint scan_children (cur : nat) (mine : proc -> bool) (n : nat) (l : list proc) : bool * option nat :=
  match l with
  | [] => (false, None)
  | p :: l' =>
      if negb (bool_decide (p_parent p = Some cur)) then scan_children cur mine (S n) l'
      else if negb (mine p) then scan_children cur mine (S n) l'
      else if decide (p_state p = ZOMBIE) then (true, Some n)
      else (true, snd (scan_children cur mine (S n) l'))
  end.

(** Drop the zombie's share of its address space; the last thread frees it. *)
Definition drop_vm (i : nat) : M kernel unit :=
  let! p := proc_at i in
  let! pt_count := delete_ref (p_pgdir p) in
  if pt_count <? 0 then
    cprintf "ref count of pgdir=%x is negative
" [AInt (p_pgdir p)] ;;
    panic "pgdir ref"
  else
    when (pt_count =? 0)
      (shm_release (p_pgdir p) (p_shm p) (p_shm_key_mask p) ;;
       upd_proc i (fun p => p <| p_shm := USERTOP |> <| p_shm_key_mask := 0 |>) ;;
       freevm (p_pgdir p)).

Definition free_slot (p : proc) : proc :=
  p <| p_state := UNUSED |> <| p_pid := 0 |> <| p_parent := None |>
    <| p_name ::= <[0%nat := 0]> |> <| p_killed := 0 |>.

Fixpoint wait_loop (fuel : nat) : M kernel Z :=
  match fuel with
  | O => spin
  | S fuel' =>
      let! cur := gets curproc in
      let! cur := deref cur in
      let! me := myproc in
      let! pt := gets ptable in
      match scan_children cur (fun p => negb (p_pgdir p =? p_pgdir me)) 0 pt with
      | (_, Some i) =>
          let! p := proc_at i in
          let pid := p_pid p in
          kfree (p_kstack p) ;;
          upd_proc i (fun p => p <| p_kstack := 0 |>) ;;
          drop_vm i ;;
          upd_proc i (fun p => (free_slot p) <| p_ustack := 0 |>) ;;
          release LPtable ;;
          ret pid
      | (havekids, None) =>
          if negb havekids || negb (p_killed me =? 0) then
            release LPtable ;;
            ret (-1)
          else
            sleep (ChProc cur) LPtable ;;
            wait_loop fuel'
      end
  end.
Definition wait : M kernel Z :=
  acquire LPtable ;;
  waiting wait_loop.

(** [stack] is a user address. *)
Fixpoint join_loop (fuel : nat) (stack : Z) : M kernel Z :=
  match fuel with
  | O => spin
  | S fuel' =>
      let! cur := gets curproc in
      let! cur := deref cur in
      let! me := myproc in
      let! pt := gets ptable in
      match scan_children cur (fun p => p_pgdir p =? p_pgdir me) 0 pt with
      | (_, Some i) =>
          let! p := proc_at i in
          let pid := p_pid p in
          kfree (p_kstack p) ;;
          upd_proc i (fun p => p <| p_kstack := 0 |>) ;;
          vwrite stack (le32 (p_ustack p)) ;;
          drop_vm i ;;
          upd_proc i free_slot ;;
          release LPtable ;;
          ret pid
      | (havekids, None) =>
          if negb havekids || negb (p_killed me =? 0) then
            release LPtable ;;
            ret (-1)
          else
            sleep (ChProc cur) LPtable ;;
            join_loop fuel' stack
      end
  end.
Definition join (stack : Z) : M kernel Z :=
  acquire LPtable ;;
  waiting (fun n => join_loop n stack).

(** *** Threads *)
Definition clone (fcn arg stack : Z) : M kernel Z :=
  let! r := allocproc in
  match r with
  | None => ret (-1)
  | Some np =>
      let! me := myproc in
      let! cur := gets curproc in
      upd_proc np (fun p => p <| p_pgdir := p_pgdir me |>) ;;
      upd_proc np (inherit me cur) ;;
      dup_files np (seq 0 NOFILE) ;;
      let! cwd := deref (p_cwd me) in
      let! cwd := idup cwd in
      upd_proc np (fun p => p <| p_cwd := Some cwd |>) ;;
      let! q := proc_at np in
      let pid := p_pid q in
      upd_proc np (fun p => p <| p_state := RUNNABLE |>) ;;
      add_ref (p_pgdir q) ;;
      upd_proc np (fun p => p <| p_name ::= fun n => safestrcpy n (p_name me) 16 |>) ;;
      let sp := u32 (stack + PGSIZE - 8) in
      let! r := copyout (p_pgdir q) sp (le32 0xffffffff ++ le32 arg) in
      if r <? 0 then
        cprintf "clone: copy stack failed
" [] ;;
        ret (-1)
      else
        upd_proc np (fun p => p <| p_ustack := stack |>
                                <| p_tf ::= fun t => t <| tf_esp := sp |> <| tf_eip := fcn |> |>) ;;
        ret pid
  end.

(** *** [getpinfo]: the arrays of [struct pstat] in user memory at [ps] *)
Definition state_num (st : procstate) : Z :=
  match st with UNUSED => 0 | EMBRYO => 1 | SLEEPING => 2 | RUNNABLE => 3 | RUNNING => 4 | ZOMBIE => 5 end.
Definition pinfo_ticks (p : proc) : list Z :=
  (fun pi => if Z.of_nat pi <? p_priority p then default 0 (tick_quota !! pi)
             else if Z.of_nat pi =? p_priority p then default 0 (p_ticks_used p !! pi) else 0) <$> seq 0 NPRIOR.
Fixpoint getpinfo_loop (ps : Z) (l : list nat) : M kernel unit :=
  match l with
  | [] => ret tt
  | i :: l' =>
      let! p := proc_at i in
      let at_ k := u32 (ps + 4 * Z.of_nat NPROC * k + 4 * Z.of_nat i) in
      vwrite (at_ 0) (le32 (if decide (p_state p = UNUSED) then 0 else 1)) ;;
      vwrite (at_ 1) (le32 (p_pid p)) ;;
      vwrite (at_ 2) (le32 (p_priority p)) ;;
      vwrite (at_ 3) (le32 (state_num (p_state p))) ;;
      vwrite (u32 (ps + 16 * Z.of_nat NPROC + 16 * Z.of_nat i)) (concat (le32 <$> pinfo_ticks p)) ;;
      getpinfo_loop ps l'
  end.
Definition getpinfo (ps : Z) : M kernel unit := getpinfo_loop ps (seq 0 NPROC).
End Proc.
