(* ===== verification/Exec.v ===== *)
(** Program loading: [exec] of [kernel/exec.c] and [loaduvm] of [kernel/vm.c]. *)
From S2P Require Import Prelude Types Mem Kalloc PageTable Cons Vm Shm Sched Ide Bio UserMem Inode Console Fs Pipe File Proc.

(** ** [kernel/elf.h] *)
Definition ELF_MAGIC : Z := 0x464C457F.
Definition ELF_PROG_LOAD : Z := 1.

(** [struct elfhdr], the fields that are read, and [struct proghdr]. *)
Record elfhdr := mkElf { e_magic : Z; e_entry : Z; e_phoff : Z; e_phnum : Z }.
Definition ELFHDR : Z := 52.
Definition elfhdr_get (l : list Z) : elfhdr := mkElf (get32 l 0) (get32 l 24) (get32 l 28) (get16 l 44).
Record proghdr := mkPh { ph_type : Z; ph_offset : Z; ph_va : Z; ph_filesz : Z; ph_memsz : Z }.
Definition PROGHDR : Z := 32.
Definition proghdr_get (l : list Z) : proghdr :=
  mkPh (get32 l 0) (get32 l 4) (get32 l 8) (get32 l 16) (get32 l 20).

Section Exec.
Context `{Linker}.

(** [for(i = 0; i < sz; i += PGSIZE)] *)
Fixpoint loaduvm_loop (fuel : nat) (pgdir addr : Z) (ip : nat) (offset sz i : Z) : M kernel Z :=
  match fuel with
  | O => spin
  | S fuel' =>
      if i <? sz then
        let! pte := walkpgdir pgdir (u32 (addr + i)) false in
        if pte =? 0 then panic "loaduvm: address should exist"
        else
          let! v := load32 pte in
          let pa := PTE_ADDR v in
          let n := if sz - i <? PGSIZE then sz - i else PGSIZE in
          let! '(r, _) := readi ip (DVa pa) (u32 (offset + i)) n in
          if negb (u32 r =? n) then ret (-1)
          else loaduvm_loop fuel' pgdir addr ip offset sz (i + PGSIZE)
      else ret 0
  end.
Definition loaduvm (pgdir addr : Z) (ip : nat) (offset sz : Z) : M kernel Z :=
  if negb (addr mod PGSIZE =? 0) then panic "loaduvm: addr must be page aligned"
  else loaduvm_loop (page_fuel sz) pgdir addr ip offset sz 0.

(** The [bad:] label of [exec]. *)
Definition exec_bad (pgdir : Z) (ip : option nat) : M kernel Z :=
  when (negb (pgdir =? 0)) (freevm pgdir) ;;
  (match ip with Some ip => iunlockput ip | None => ret tt end) ;;
  ret (-1).

(** The loop over the program headers: the new size, or [None] for [goto bad]. *)
Fixpoint load_segments (n : nat) (pgdir : Z) (ip : nat) (off sz : Z) : M kernel (option Z) :=
  match n with
  | O => ret (Some sz)
  | S n' =>
      let! '(r, l) := readi ip DLoc (u32 off) PROGHDR in
      if negb (u32 r =? PROGHDR) then ret None
      else
        let ph := proghdr_get l in
        if negb (ph_type ph =? ELF_PROG_LOAD) then load_segments n' pgdir ip (off + PROGHDR) sz
        else if ph_memsz ph <? ph_filesz ph then ret None
        else
          let! sz := allocuvm pgdir sz (u32 (ph_va ph + ph_memsz ph)) in
          if sz =? 0 then ret None
          else
            let! r := loaduvm pgdir (ph_va ph) ip (ph_offset ph) (ph_filesz ph) in
            if r <? 0 then ret None
            else load_segments n' pgdir ip (off + PROGHDR) sz
  end.

(** [for(argc = 0; argv[argc]; argc++)]: the stack pointer and the addresses of the
    strings, or [None] for [goto bad]. *)
Fixpoint push_args (pgdir sp argc : Z) (argv : list (list Z)) (ustack : list Z) : M kernel (option (Z * list Z)) :=
  match argv with
  | [] => ret (Some (sp, ustack))
  | a :: argv' =>
      if Z.of_nat MAXARG <=? argc then ret None
      else
        let sp := Z.land (u32 (sp - (Z.of_nat (length a) + 1))) (2 ^ 32 - 4) in
        let! r := copyout pgdir sp (a ++ [0]) in
        if r <? 0 then ret None
        else push_args pgdir sp (argc + 1) argv' (ustack ++ [sp])
  end.

(** The loop that leaves [last] after the last slash of [path]. *)
Fixpoint last_elem (last s : list Z) : list Z :=
  match s with [] => last | c :: s' => last_elem (if c =? 47 then s' else last) s' end.

(** Commit to the user image. *)
Definition commit_image (pgdir sz entry sp : Z) (p : proc) : proc :=
  p <| p_pgdir := pgdir |> <| p_sz := sz |>
    <| p_tf ::= fun t => t <| tf_eip := entry |> <| tf_esp := sp |> |>
    <| p_ustack := PGROUNDDOWN sz |>.

(** The part of [exec] after the segments are loaded. *)
Definition exec_stack (path : list Z) (argv : list (list Z)) (pgdir sz entry : Z) : M kernel Z :=
  let sz := PGROUNDUP sz in
  let! sz := allocuvm pgdir sz (u32 (sz + PGSIZE)) in
  if sz =? 0 then exec_bad pgdir None
  else
    let! r := push_args pgdir sz 0 argv [] in
    match r with
    | None => exec_bad pgdir None
    | Some (sp, addrs) =>
        let argc := Z.of_nat (length addrs) in
        let ustack := [0xffffffff; argc; u32 (sp - (argc + 1) * 4)] ++ addrs ++ [0] in
        let sp := u32 (sp - (3 + argc + 1) * 4) in
        let! r := copyout pgdir sp (concat (le32 <$> ustack)) in
        if r <? 0 then exec_bad pgdir None
        else
          upd_myproc (fun p => p <| p_name ::= fun n => safestrcpy n (last_elem path path) 16 |>) ;;
          let! me := myproc in
          let oldpgdir := p_pgdir me in
          let! pt_count := delete_ref oldpgdir in
          add_ref pgdir ;;
          upd_myproc (commit_image pgdir sz entry sp) ;;
          let! me := myproc in
          switchuvm me ;;
          (if pt_count <? 0 then
             cprintf "ref count of pgdir=%x is negative
" [AInt oldpgdir] ;;
             panic "pgdir ref"
           else
             when (pt_count =? 0)
               (shm_release oldpgdir (p_shm me) (p_shm_key_mask me) ;;
                freevm oldpgdir)) ;;
          upd_myproc (fun p => p <| p_shm := USERTOP |> <| p_shm_key_mask := 0 |>) ;;
          ret 0
    end.

(** [junk] is what the stack holds where the local [elf] is: a failed [readi] returns
    [-1], which is not less than the unsigned [sizeof(elf)]. *)
Definition exec (junk : list Z) (path : list Z) (argv : list (list Z)) : M kernel Z :=
  let! r := namei path in
  match r with
  | None => ret (-1)
  | Some ip =>
      ilock (Some ip) ;;
      let! '(r, l) := readi ip DLoc 0 ELFHDR in
      let elf := elfhdr_get (l ++ drop (length l) junk) in
      if u32 r <? ELFHDR then exec_bad 0 (Some ip)
      else if negb (e_magic elf =? ELF_MAGIC) then exec_bad 0 (Some ip)
      else
        let! pgdir := setupkvm in
        if pgdir =? 0 then exec_bad 0 (Some ip)
        else
          let! r := load_segments (Z.to_nat (e_phnum elf)) pgdir ip (s32 (e_phoff elf)) 0 in
          match r with
          | None => exec_bad pgdir (Some ip)
          | Some sz =>
              iunlockput ip ;;
              exec_stack path argv pgdir sz (e_entry elf)
          end
  end.
End Exec.
