(* ===== verification/Syscall.v ===== *)
(** System calls: argument fetching and dispatch of [kernel/syscall.c], the handlers of
    [kernel/sysproc.c] and [kernel/sysfile.c]. *)
From S2P Require Import Prelude Types Mem Kalloc PageTable Cons Vm Shm Sched Ide Bio UserMem Inode Console Fs Pipe File Proc Exec.

(** ** Arguments *)

(** The failure [-1] of the argument functions is [None]. *)
Definition fetchint (p : proc) (addr : Z) : M kernel (option Z) :=
  if (p_sz p <=? addr) || (p_sz p <? u32 (addr + 4)) then ret None
  else
    let! l := vread addr 4 in
    ret (Some (s32 (get32 l 0))).

(** The characters from [s] to the first NUL before [ep]. *)
Fixpoint fetch_chars (fuel : nat) (s ep : Z) : M kernel (option (list Z)) :=
  match fuel with
  | O => ret None
  | S fuel' =>
      if s <? ep then
        let! c := vload s in
        if c =? 0 then ret (Some [])
        else
          let! r := fetch_chars fuel' (s + 1) ep in
          ret (cons c <$> r)
      else ret None
  end.
Definition fetchstr (p : proc) (addr : Z) : M kernel (option (list Z)) :=
  if p_sz p <=? addr then ret None
  else fetch_chars (S (Z.to_nat (p_sz p - addr))) addr (p_sz p).

Definition argint (n : Z) : M kernel (option Z) :=
  let! me := myproc in
  fetchint me (u32 (tf_esp (p_tf me) + 4 + 4 * n)).

Definition argptr (n size : Z) : M kernel (option Z) :=
  let! i := argint n in
  match i with
  | None => ret None
  | Some i =>
      let! me := myproc in
      ret (if (p_sz me <=? u32 i) || (p_sz me <? u32 (i + size)) then None else Some (u32 i))
  end.

Definition argstr (n : Z) : M kernel (option (list Z)) :=
  let! i := argint n in
  match i with
  | None => ret None
  | Some i => let! me := myproc in fetchstr me (u32 i)
  end.

(** [if(m < 0) return -1] for the argument functions. *)
Definition arg {A} (m : M kernel (option A)) (f : A -> M kernel Z) : M kernel Z :=
  let! r := m in
  match r with None => ret (-1) | Some a => f a end.

(** ** [kernel/sysfile.c] *)
Definition argfd (n : Z) : M kernel (option (Z * nat)) :=
  let! r := argint n in
  match r with
  | None => ret None
  | Some fd =>
      let! me := myproc in
      ret (if (fd <? 0) || (Z.of_nat NOFILE <=? fd) then None
           else match p_ofile me !! Z.to_nat fd with
                | Some (Some f) => Some (fd, f)
                | _ => None
                end)
  end.

Fixpoint find_fd (n : nat) (l : list (option nat)) : option nat :=
  match l with
  | [] => None
  | None :: _ => Some n
  | Some _ :: l' => find_fd (S n) l'
  end.
Definition fdalloc (f : nat) : M kernel (option nat) :=
  let! me := myproc in
  match find_fd 0 (p_ofile me) with
  | Some fd =>
      upd_myproc (fun p => p <| p_ofile ::= <[fd := Some f]> |>) ;;
      ret (Some fd)
  | None => ret None
  end.
Definition clear_fd (fd : nat) : M kernel unit :=
  upd_myproc (fun p => p <| p_ofile ::= <[fd := None]> |>).

Definition sys_dup : M kernel Z :=
  arg (argfd 0) (fun '(_, f) =>
  arg (fdalloc f) (fun fd =>
  filedup f ;;
  ret (Z.of_nat fd))).

Definition sys_read : M kernel Z :=
  arg (argfd 0) (fun '(_, f) =>
  arg (argint 2) (fun n =>
  arg (argptr 1 n) (fun p =>
  fileread f p n))).

Definition sys_write : M kernel Z :=
  arg (argfd 0) (fun '(_, f) =>
  arg (argint 2) (fun n =>
  arg (argptr 1 n) (fun p =>
  filewrite f p n))).

(** [struct stat] in memory: 24 bytes, the fields at their offsets. *)
Definition STAT : Z := 24.
Definition write_stat (va : Z) (st : stat) : M kernel unit :=
  vwrite va (le16 (st_type st)) ;;
  vwrite (u32 (va + 4)) (le32 (st_dev st)) ;;
  vwrite (u32 (va + 8)) (le32 (st_ino st)) ;;
  vwrite (u32 (va + 12)) (le16 (st_nlink st)) ;;
  vwrite (u32 (va + 16)) (le32 (st_size st)) ;;
  vwrite (u32 (va + 20)) [u8 (st_checksum st)].

Section Syscall.
Context `{Linker} `{CodeSyms}.

Definition sys_close : M kernel Z :=
  arg (argfd 0) (fun '(fd, f) =>
  clear_fd (Z.to_nat fd) ;;
  fileclose f ;;
  ret 0).

Definition sys_fstat : M kernel Z :=
  arg (argfd 0) (fun '(_, f) =>
  arg (argptr 1 STAT) (fun va =>
  let! r := filestat f in
  match r with
  | Some st => write_stat va st ;; ret 0
  | None => ret (-1)
  end)).

(** The [bad:] label of [sys_link]. *)
Definition link_bad (ip : nat) : M kernel Z :=
  ilock (Some ip) ;;
  upd_inode ip (fun x => x <| i_nlink ::= fun n => s16 (n - 1) |>) ;;
  iupdate ip ;;
  iunlockput ip ;;
  ret (-1).
Definition sys_link : M kernel Z :=
  arg (argstr 0) (fun old =>
  arg (argstr 1) (fun new =>
  arg (namei old) (fun ip =>
  ilock (Some ip) ;;
  let! i := gets (inode_at ip) in
  if i_type i =? T_DIR then iunlockput ip ;; ret (-1)
  else
    upd_inode ip (fun x => x <| i_nlink ::= fun n => s16 (n + 1) |>) ;;
    iupdate ip ;;
    iunlock (Some ip) ;;
    let! '(dp, name) := nameiparent new in
    match dp with
    | None => link_bad ip
    | Some dp =>
        ilock (Some dp) ;;
        let! d := gets (inode_at dp) in
        let! i := gets (inode_at ip) in
        let! r := (if negb (i_dev d =? i_dev i) then ret (-1) else dirlink dp name (i_inum i)) in
        if r <? 0 then iunlockput dp ;; link_bad ip
        else
          iunlockput dp ;;
          iput ip ;;
          ret 0
    end))).

(** The scan of [isdirempty] from offset [off]. *)
Fixpoint isdirempty_loop (fuel : nat) (dp : nat) (off : Z) : M kernel bool :=
  match fuel with
  | O => spin
  | S fuel' =>
      let! d := gets (inode_at dp) in
      if off <? i_size d then
        let! '(r, l) := readi dp DLoc off DIRENT in
        if negb (r =? DIRENT) then panic "isdirempty: readi"
        else if negb (get16 l 0 =? 0) then ret false
        else isdirempty_loop fuel' dp (off + DIRENT)
      else ret true
  end.
Definition isdirempty (dp : nat) : M kernel bool :=
  let! d := gets (inode_at dp) in
  isdirempty_loop (S (Z.to_nat (i_size d / DIRENT + 1))) dp (2 * DIRENT).

Definition sys_unlink : M kernel Z :=
  arg (argstr 0) (fun path =>
  let! '(dp, name) := nameiparent path in
  match dp with
  | None => ret (-1)
  | Some dp =>
      ilock (Some dp) ;;
      if (namecmp name (str ".") =? 0) || (namecmp name (str "..") =? 0) then iunlockput dp ;; ret (-1)
      else
        let! r := dirlookup dp name in
        match r with
        | None => iunlockput dp ;; ret (-1)
        | Some (ip, off) =>
            ilock (Some ip) ;;
            let! i := gets (inode_at ip) in
            if i_nlink i <? 1 then panic "unlink: nlink < 1"
            else
              let! ok := (if i_type i =? T_DIR then isdirempty ip else ret true) in
              if negb ok then iunlockput ip ;; iunlockput dp ;; ret (-1)
              else
                let! r := writei dp (SLoc (replicate (Z.to_nat DIRENT) 0)) off DIRENT in
                if negb (r =? DIRENT) then panic "unlink: writei"
                else
                  let! i := gets (inode_at ip) in
                  when (i_type i =? T_DIR)
                    (upd_inode dp (fun x => x <| i_nlink ::= fun n => s16 (n - 1) |>) ;;
                     iupdate dp) ;;
                  iunlockput dp ;;
                  upd_inode ip (fun x => x <| i_nlink ::= fun n => s16 (n - 1) |>) ;;
                  iupdate ip ;;
                  iunlockput ip ;;
                  ret 0
        end
  end).

Definition create (path : list Z) (type major minor : Z) : M kernel (option nat) :=
  let! '(dp, name) := nameiparent path in
  match dp with
  | None => ret None
  | Some dp =>
      ilock (Some dp) ;;
      let! r := dirlookup dp name in
      match r with
      | Some (ip, _) =>
          iunlockput dp ;;
          ilock (Some ip) ;;
          let! i := gets (inode_at ip) in
          if (type =? T_FILE) && (i_type i =? T_FILE) then ret (Some ip)
          else if (type =? T_CHECKED) && (i_type i =? T_CHECKED) then ret (Some ip)
          else iunlockput ip ;; ret None
      | None =>
          let! d := gets (inode_at dp) in
          let! ip := ialloc (i_dev d) type in
          ilock (Some ip) ;;
          upd_inode ip (fun x => x <| i_major := s16 major |> <| i_minor := s16 minor |> <| i_nlink := 1 |>) ;;
          iupdate ip ;;
          let! i := gets (inode_at ip) in
          (if type =? T_DIR then
             upd_inode dp (fun x => x <| i_nlink ::= fun n => s16 (n + 1) |>) ;;
             iupdate dp ;;
             let! d := gets (inode_at dp) in
             let! r := dirlink ip (str ".") (i_inum i) in
             let! r := (if r <? 0 then ret r else dirlink ip (str "..") (i_inum d)) in
             if r <? 0 then panic "create dots" else ret tt
           else ret tt) ;;
          let! r := dirlink dp name (i_inum i) in
          if r <? 0 then panic "create: dirlink"
          else
            iunlockput dp ;;
            ret (Some ip)
      end
  end.

(** The end of [sys_open], with the inode locked. *)
Definition open_file (ip : nat) (omode : Z) : M kernel Z :=
  let! f := filealloc in
  match f with
  | None => iunlockput ip ;; ret (-1)
  | Some f =>
      let! fd := fdalloc f in
      match fd with
      | None =>
          fileclose f ;;
          iunlockput ip ;;
          ret (-1)
      | Some fd =>
          iunlock (Some ip) ;;
          upd_file f (fun x => x <| f_type := FD_INODE |> <| f_ip := Some ip |> <| f_off := 0 |>
            <| f_readable := if has omode O_WRONLY then 0 else 1 |>
            <| f_writable := if has omode O_WRONLY || has omode O_RDWR then 1 else 0 |>) ;;
          ret (Z.of_nat fd)
      end
  end.
Definition sys_open : M kernel Z :=
  arg (argstr 0) (fun path =>
  arg (argint 1) (fun omode =>
  if has omode O_CREATE then
    arg (create path (if has omode O_CHECKED then T_CHECKED else T_FILE) 0 0) (fun ip => open_file ip omode)
  else
    arg (namei path) (fun ip =>
    ilock (Some ip) ;;
    let! i := gets (inode_at ip) in
    if (i_type i =? T_DIR) && negb (omode =? O_RDONLY) then iunlockput ip ;; ret (-1)
    else open_file ip omode))).

Definition sys_mkdir : M kernel Z :=
  arg (argstr 0) (fun path =>
  arg (create path T_DIR 0 0) (fun ip =>
  iunlockput ip ;;
  ret 0)).

Definition sys_mknod : M kernel Z :=
  arg (argstr 0) (fun path =>
  arg (argint 1) (fun major =>
  arg (argint 2) (fun minor =>
  arg (create path T_DEV major minor) (fun ip =>
  iunlockput ip ;;
  ret 0)))).

Definition sys_chdir : M kernel Z :=
  arg (argstr 0) (fun path =>
  arg (namei path) (fun ip =>
  ilock (Some ip) ;;
  let! i := gets (inode_at ip) in
  if negb (i_type i =? T_DIR) then iunlockput ip ;; ret (-1)
  else
    iunlock (Some ip) ;;
    let! me := myproc in
    let! cwd := deref (p_cwd me) in
    iput cwd ;;
    upd_myproc (fun p => p <| p_cwd := Some ip |>) ;;
    ret 0)).

(** The loop of [sys_exec] that fetches the argument strings. *)
Fixpoint fetch_argv (n : nat) (uargv : Z) : M kernel (option (list (list Z))) :=
  match n with
  | O => ret None
  | S n' =>
      let! me := myproc in
      let! r := fetchint me uargv in
      match r with
      | None => ret None
      | Some uarg =>
          if uarg =? 0 then ret (Some [])
          else
            let! r := fetchstr me (u32 uarg) in
            match r with
            | None => ret None
            | Some a => let! r := fetch_argv n' (u32 (uargv + 4)) in ret (cons a <$> r)
            end
      end
  end.
Definition sys_exec (junk : list Z) : M kernel Z :=
  arg (argstr 0) (fun path =>
  arg (argint 1) (fun uargv =>
  arg (fetch_argv MAXARG (u32 uargv)) (fun argv =>
  exec junk path argv))).

Definition sys_pipe : M kernel Z :=
  arg (argptr 0 8) (fun fd =>
  arg pipealloc (fun '(rf, wf) =>
  let! r := fdalloc rf in
  match r with
  | None =>
      fileclose rf ;;
      fileclose wf ;;
      ret (-1)
  | Some fd0 =>
      let! r := fdalloc wf in
      match r with
      | None =>
          clear_fd fd0 ;;
          fileclose rf ;;
          fileclose wf ;;
          ret (-1)
      | Some fd1 =>
          vwrite fd (le32 (Z.of_nat fd0)) ;;
          vwrite (u32 (fd + 4)) (le32 (Z.of_nat fd1)) ;;
          ret 0
      end
  end)).

(** ** [kernel/sysproc.c] *)
Definition sys_fork : M kernel Z := fork.
Definition sys_exit : M kernel Z := exit ;; ret 0.
Definition sys_wait : M kernel Z := wait.
Definition sys_kill : M kernel Z := arg (argint 0) kill.
Definition sys_getpid : M kernel Z := let! me := myproc in ret (p_pid me).

Definition sys_sbrk : M kernel Z :=
  arg (argint 0) (fun n =>
  let! me := myproc in
  let addr := p_sz me in
  let! r := growproc n in
  ret (if r <? 0 then -1 else s32 addr)).

(** [while(ticks - ticks0 < n)]: the comparison is between unsigned numbers. *)
Fixpoint sleep_loop (fuel : nat) (ticks0 n : Z) : M kernel Z :=
  match fuel with
  | O => spin
  | S fuel' =>
      let! t := gets ticks in
      if u32 (t - ticks0) <? u32 n then
        let! me := myproc in
        if negb (p_killed me =? 0) then release LTicks ;; ret (-1)
        else sleep ChTicks LTicks ;; sleep_loop fuel' ticks0 n
      else release LTicks ;; ret 0
  end.
Definition sys_sleep : M kernel Z :=
  arg (argint 0) (fun n =>
  acquire LTicks ;;
  let! ticks0 := gets ticks in
  sleep_loop (S (Z.to_nat (u32 n))) ticks0 n).

Definition sys_uptime : M kernel Z :=
  acquire LTicks ;;
  let! xticks := gets ticks in
  release LTicks ;;
  ret (s32 xticks).

Definition sys_getnumsyscallp : M kernel Z := gets num_syscalls.

(** [sizeof(struct pstat)]: eight words per process. *)
Definition PSTAT : Z := 4 * 8 * Z.of_nat NPROC.
Definition sys_getpinfo : M kernel Z :=
  arg (argptr 0 PSTAT) (fun ps =>
  getpinfo ps ;;
  ret 0).

Definition sys_shmgetat (junk : list Z) : M kernel Z :=
  arg (argint 0) (fun key =>
  arg (argint 1) (fun num_pages =>
  let! r := shmgetat junk key num_pages in
  ret (s32 r))).
Definition sys_shm_refcount : M kernel Z := arg (argint 0) shm_refcount.

Definition sys_clone : M kernel Z :=
  arg (argptr 0 4) (fun fcn =>
  arg (argptr 1 4) (fun a =>
  arg (argptr 2 4) (fun stack =>
  clone fcn a stack))).
Definition sys_join : M kernel Z := arg (argptr 0 4) join.

(** ** Dispatch *)

(** The table [syscalls], indexed by the numbers of [include/syscall.h]. *)
Definition syscalls (junk : list Z) (num : Z) : option (M kernel Z) :=
  match num with
  | 1 => Some sys_fork | 2 => Some sys_exit | 3 => Some sys_wait | 4 => Some sys_pipe
  | 5 => Some sys_write | 6 => Some sys_read | 7 => Some sys_close | 8 => Some sys_kill
  | 9 => Some (sys_exec junk) | 10 => Some sys_open | 11 => Some sys_mknod | 12 => Some sys_unlink
  | 13 => Some sys_fstat | 14 => Some sys_link | 15 => Some sys_mkdir | 16 => Some sys_chdir
  | 17 => Some sys_dup | 18 => Some sys_getpid | 19 => Some sys_sbrk | 20 => Some sys_sleep
  | 21 => Some sys_uptime | 22 => Some sys_getnumsyscallp | 23 => Some sys_getpinfo
  | 24 => Some (sys_shmgetat junk) | 25 => Some sys_shm_refcount | 26 => Some sys_clone | 27 => Some sys_join
  | _ => None
  end.

Definition set_eax (v : Z) : M kernel unit := upd_myproc (fun p => p <| p_tf ::= fun t => t <| tf_eax := u32 v |> |>).

Definition syscall (junk : list Z) : M kernel unit :=
  modify (fun s => s <| num_syscalls ::= fun n => s32 (n + 1) |>) ;;
  let! me := myproc in
  let num := s32 (tf_eax (p_tf me)) in
  match syscalls junk num with
  | Some f => let! r := f in set_eax r
  | None =>
      cprintf "%d %s: unknown sys call %d
" [AInt (p_pid me); AStr (Some (p_name me)); AInt num] ;;
      set_eax (-1)
  end.
End Syscall.
