(* ===== verification/Trap.v ===== *)
(** Traps and interrupts: [kernel/trap.c], the gate descriptors of [kernel/mmu.h], and the segments that
    [seginit] of [kernel/vm.c] sets up. *)
From S2P Require Import Prelude Types Mem Kalloc PageTable Cons Vm Shm Sched Ide Bio UserMem Inode Console Fs Pipe File Proc Exec Syscall.

(** ** Descriptors *)
Record gatedesc := mkGate {
  g_off_15_0 : Z; g_cs : Z; g_args : Z; g_rsv1 : Z; g_type : Z; g_s : Z; g_dpl : Z; g_p : Z; g_off_31_16 : Z }.
Notation STS_IG32 := 0xE (only parsing).
Notation STS_TG32 := 0xF (only parsing).

(** The fields are bit fields: 16, 16, 5, 3, 4, 1, 2, 1 and 16 bits. *)
Definition SETGATE (istrap : bool) (sel off d : Z) : gatedesc :=
  mkGate (Z.land off 0xffff) (sel mod 2 ^ 16) 0 0 (if istrap then STS_TG32 else STS_IG32) 0 (d mod 4) 1
    (u32 off / 2 ^ 16).

(** [tvinit]: the table [idt]; [vectors] are the entry points of [vectors.S]. *)
Fixpoint tvinit_loop (n : nat) (i : Z) (vectors : Z -> Z) : list gatedesc :=
  match n with
  | O => []
  | S n' => SETGATE false (SEG_KCODE * 8) (vectors i) 0 :: tvinit_loop n' (i + 1) vectors
  end.
Definition tvinit (vectors : Z -> Z) : list gatedesc :=
  <[Z.to_nat T_SYSCALL := SETGATE true (SEG_KCODE * 8) (vectors T_SYSCALL) DPL_USER]> (tvinit_loop 256 0 vectors).

Record segdesc := mkSeg {
  sd_lim_15_0 : Z; sd_base_15_0 : Z; sd_base_23_16 : Z; sd_type : Z; sd_s : Z; sd_dpl : Z; sd_p : Z;
  sd_lim_19_16 : Z; sd_avl : Z; sd_rsv1 : Z; sd_db : Z; sd_g : Z; sd_base_31_24 : Z }.
Notation STA_X := 8 (only parsing).
Notation STA_W := 2 (only parsing).
Notation STA_R := 2 (only parsing).
Definition SEG (type base lim dpl : Z) : segdesc :=
  mkSeg (Z.land (Z.shiftr lim 12) 0xffff) (Z.land base 0xffff) (Z.land (Z.shiftr (u32 base) 16) 0xff) type 1 dpl 1
    (Z.shiftr (u32 lim) 28) 0 0 1 1 (Z.shiftr (u32 base) 24).
Definition NSEGS : nat := 7.
Definition SEG_KDATA : Z := 2.
Definition SEG_KCPU : Z := 3.

(** [seginit] of a CPU whose [struct cpu] has its [cpu] field at [cpu_field]: the entries of
    its [gdt] that are set. *)
Definition seginit (gdt : list segdesc) (cpu_field : Z) : list segdesc :=
  <[Z.to_nat SEG_KCPU := SEG STA_W cpu_field 8 0]>
  (<[Z.to_nat SEG_UDATA := SEG STA_W 0 0xffffffff DPL_USER]>
  (<[Z.to_nat SEG_UCODE := SEG (Z.lor STA_X STA_R) 0 0xffffffff DPL_USER]>
  (<[Z.to_nat SEG_KDATA := SEG STA_W 0 0xffffffff 0]>
  (<[Z.to_nat SEG_KCODE := SEG (Z.lor STA_X STA_R) 0 0xffffffff 0]> gdt)))).

(** ** [trap] *)
Section Trap.
Context `{Linker} `{CodeSyms}.

(** [proc && proc->killed && (tf->cs&3) == DPL_USER] *)
Definition exit_if_killed (tf : trapframe) : M kernel unit :=
  let! c := gets curproc in
  match c with
  | None => ret tt
  | Some _ =>
      let! me := myproc in
      when (negb (p_killed me =? 0) && (Z.land (tf_cs tf) 3 =? DPL_USER)) exit
  end.

(** What the devices hold when the interrupt comes: the CPU that takes it, the bytes in the
    keyboard controller or the serial port, the faulting address in [%cr2], and the
    uninitialised locals of the system calls. *)
Record trap_input := mkTrapInput { in_cpu : Z; in_bytes : list Z; in_cr2 : Z; in_junk : list Z }.

Definition timer_tick (cpu : Z) : M kernel unit :=
  when (cpu =? 0)
    (acquire LTicks ;;
     modify (fun s => s <| ticks ::= fun t => u32 (t + 1) |>) ;;
     wakeup ChTicks ;;
     release LTicks).

Definition trap_default (e : trap_input) (tf : trapframe) : M kernel unit :=
  let! c := gets curproc in
  if (match c with None => true | Some _ => false end) || (Z.land (tf_cs tf) 3 =? 0) then
    cprintf "unexpected trap %d from cpu %d eip %x (cr2=0x%x)
" [AInt (tf_trapno tf); AInt (in_cpu e); AInt (tf_eip tf); AInt (in_cr2 e)] ;;
    panic "trap"
  else
    let! me := myproc in
    cprintf "pid %d %s: trap %d err %d on cpu %d eip 0x%x addr 0x%x--kill proc
" [AInt (p_pid me); AStr (Some (p_name me)); AInt (tf_trapno tf); AInt (tf_err tf); AInt (in_cpu e); AInt (tf_eip tf);
       AInt (in_cr2 e)] ;;
    upd_myproc (fun p => p <| p_killed := 1 |>).

Definition trap (e : trap_input) (tf : trapframe) : M kernel unit :=
  let no := tf_trapno tf in
  if no =? T_SYSCALL then
    let! me := myproc in
    when (negb (p_killed me =? 0)) exit ;;
    upd_myproc (fun p => p <| p_tf := tf |>) ;;
    syscall (in_junk e) ;;
    let! me := myproc in
    when (negb (p_killed me =? 0)) exit
  else
    (if no =? T_IRQ0 + IRQ_TIMER then timer_tick (in_cpu e)
     else if no =? T_IRQ0 + IRQ_IDE then ideintr
     else if no =? T_IRQ0 + IRQ_IDE + 1 then ret tt
     else if no =? T_IRQ0 + IRQ_KBD then kbdintr (in_bytes e)
     else if no =? T_IRQ0 + IRQ_COM1 then uartintr (in_bytes e)
     else if (no =? T_IRQ0 + 7) || (no =? T_IRQ0 + IRQ_SPURIOUS) then
       cprintf "cpu%d: spurious interrupt at %x:%x
" [AInt (in_cpu e); AInt (tf_cs tf); AInt (tf_eip tf)]
     else trap_default e tf) ;;
    exit_if_killed tf ;;
    let! c := gets curproc in
    (match c with
     | None => ret tt
     | Some _ =>
         let! me := myproc in
         when (bool_decide (p_state me = RUNNING) && (no =? T_IRQ0 + IRQ_TIMER)) yield
     end) ;;
    exit_if_killed tf.
End Trap.
