(* ===== verification/Boot.v ===== *)
(** The first process: [allocproc] and [userinit] of [kernel/proc.c], and [inituvm] of
    [kernel/vm.c], on a machine that has just been initialised. *)
From S2P Require Import Prelude Types Mem Kalloc PageTable Cons Vm VmProofs VmUser VmSpec Shm Sched Ide Bio UserMem Inode Console Fs Pipe File Proc.

Section Boot.
Context `{HL : LinkerOk} `{CodeSyms}.

(** ** [allocproc] *)

(** The slot it returns. *)
Definition new_proc (pid k : Z) (p : proc) : proc :=
  p <| p_state := EMBRYO |> <| p_pid := pid |>
    <| p_shm := USERTOP |> <| p_shm_key_mask := 0 |> <| p_priority := 0 |> <| p_ticks_used := replicate NPRIOR 0 |>
    <| p_kstack := k |> <| p_context := mkContext 0 0 0 0 sym_forkret sym_trapret |>.

Lemma allocproc_run s i p : LPtable ∉ held s -> LKmem ∉ held s -> freelist s <> 0 ->
  find_proc (fun p => bool_decide (p_state p = UNUSED)) 0 (ptable s) = Some i -> ptable s !! i = Some p ->
  allocproc s = Ret (Some i) ((after_kalloc s (freelist s)) <| nextpid := Z.succ (nextpid s) |>
    <| ptable := <[i := new_proc (s32 (nextpid s)) (freelist s) p]> (ptable s) |>).
Proof.
  intros H1 H2 H3 Hf Hp. unfold allocproc. rewrite (bind_run _ _ _ _ _ (acquire_run _ _ H1)), bind_gets.
  change (ptable (s <| held ::= cons LPtable |>)) with (ptable s). rewrite Hf, bind_gets. unfold upd_proc.
  rewrite !bind_modify. set (s1 := _ <| ptable ::= _ |>).
  assert (E1 : held s1 = LPtable :: held s) by done.
  rewrite (bind_run _ _ _ _ _ (release_run _ _ _ E1)). set (s2 := s1 <| held := held s |>).
  rewrite (bind_run _ _ _ _ _ (kalloc_run s2 H2)). change (freelist s2) with (freelist s). rewrite !bind_modify.
  destruct (Z.eqb_spec (freelist s) 0) as [?|_]; [done|]. rewrite bind_modify. unfold ret. f_equal.
  unfold after_kalloc. destruct (Z.eqb_spec (freelist s) 0) as [?|_]; [done|]. kext. cbn.
  by rewrite !list_alter_alter, (list_alter_lookup _ _ _ _ Hp).
Qed.

Lemma wp_allocproc s l i p (Q : option nat -> kernel -> Prop) : LPtable ∉ held s -> LKmem ∉ held s ->
  kmem_ok s l -> l <> [] ->
  find_proc (fun p => bool_decide (p_state p = UNUSED)) 0 (ptable s) = Some i -> ptable s !! i = Some p ->
  (forall k l', l = k :: l' -> page_ok k ->
     let s' := s <| freelist := ld32 (mem s) k |> <| freecount := s32 (freecount s - 1) |>
                 <| nextpid := Z.succ (nextpid s) |> <| ptable := <[i := new_proc (s32 (nextpid s)) k p]> (ptable s) |> in
     kmem_ok s' l' -> Q (Some i) s') ->
  wp allocproc s Q.
Proof.
  intros H1 H2 Hk Hne Hf Hp HQ.
  assert (W : wp kalloc s (fun k s1 => k = freelist s /\ exists l', l = k :: l' /\ page_ok k /\ kmem_ok s1 l' /\
    s1 = s <| freelist := ld32 (mem s) k |> <| freecount := s32 (freecount s - 1) |>)).
  { eapply wp_kalloc; [done|exact Hk|done|]. intros r l' -> Hr K E. split; [|exists l'; by rewrite <- E].
    destruct Hk as [[Hc _] _ _]. done. }
  destruct (wp_elim _ _ _ W) as (k & s1 & Ek & -> & l' & -> & Hpk & K & ->).
  rewrite kalloc_run in Ek by done. injection Ek as Ea. pose proof (page_ok_bounds _ Hpk).
  eapply wp_run; [apply (allocproc_run s i p); try done; lia|]. rewrite Ea. apply (HQ _ l'); [done|done|].
  destruct K. by split.
Qed.

(** ** [inituvm] *)

(** The program is at address 0, in the only page of the process. *)
Lemma wp_inituvm s d R l init (Q : unit -> kernel -> Prop) :
  LKmem ∉ held s -> uv_ok s d (fun _ => 0) R l -> l <> [] -> Z.of_nat (length init) < PGSIZE ->
  (forall p l' s', l = p :: l' -> uv_ok s' d (set_entry (fun _ => 0) 0 (p + 7)) (p :: R) l' -> mframe s s' -> keeps R s s' ->
     (forall j c, init !! j = Some c -> ld8 (mem s') (p + Z.of_nat j) = u8 c) -> Q tt s') ->
  wp (inituvm d init) s Q.
Proof.
  intros Hl U Hne Hlen HQ. unfold inituvm. destruct (Z.leb_spec PGSIZE (Z.of_nat (length init))); [lia|].
  apply wp_bind. eapply wp_kalloc; [done|apply U|done|]. intros p l' El Hp K' Es. pose proof (page_ok_bounds p Hp) as Hb.
  unfold memset_m. apply wp_modify. subst l.
  destruct (uv_kalloc s d _ p R l' (memset (mem s) p 0 PGSIZE) U Hp K') as [U1 S1].
  { intros x Hx. unfold memset, in_page in *. destruct (Z.leb_spec p x), (Z.ltb_spec x (p + PGSIZE)); try done. cbn. lia. }
  assert (Em : mem (after_kalloc s p) = mem s) by (unfold after_kalloc; by destruct (p =? 0)). rewrite Em.
  set (s1 := (after_kalloc s p) <| mem := memset (mem s) p 0 PGSIZE |>) in *.
  assert (EP : PADDR p = p) by (unfold PADDR; apply u32_small; unfold PGSIZE, PHYSTOP in *; lia). rewrite EP.
  apply wp_bind. replace 0 with (0 * PGSIZE) at 1 by lia.
  eapply wp_uv_map; [|exact U1|lia|done|done|].
  { rewrite (mframe_held s); [done|apply S1]. }
  intros s2 U2 S2. refine (HQ p l' (s2 <| mem := put_bytes (mem s2) p init |>) eq_refl _ _ _ _).
  - apply uv_write; [done|]. intros x Hx. apply put_bytes_out. unfold in_page in Hx. lia.
  - eapply mframe_trans; [apply S1|]. eapply mframe_trans; [apply S2|apply mframe_mem].
  - intros q x Hq Hx. change (put_bytes (mem s2) p init x = mem s x). rewrite put_bytes_out.
    + rewrite (us_keeps _ _ _ _ S2 q x) by (by right || done). by apply (us_keeps _ _ _ _ S1 q).
    + destruct U1 as [_ [Hpg Hnd] _]. apply NoDup_cons in Hnd as [_ Hnd]. apply NoDup_app in Hnd as (_ & _ & Hnd).
      apply NoDup_cons in Hnd as [Hni _]. apply Forall_cons in Hpg as [_ Hpg]. rewrite !Forall_app in Hpg.
      assert (Hqo : page_ok q). { destruct Hpg as (_ & Hpg & _). rewrite Forall_forall in Hpg. apply Hpg. by right. }
      assert (Hqp : q <> p) by (intros ->; apply Hni; apply elem_of_app; by left).
      destruct Hqo as [Hqm _], Hp as [Hpm _]. pose proof (pages_disjoint q p x Hqm Hpm Hqp Hx) as Hap. unfold in_page in Hap. lia.
  - intros j c Hj. by apply put_bytes_in.
Qed.

(** ** [userinit] *)
Lemma kmem_ok_same s s' l : mem s' = mem s -> freelist s' = freelist s -> kmem_ok s l -> kmem_ok s' l.
Proof. intros E1 E2 []. split; rewrite ?E1, ?E2; done. Qed.
Lemma uv_ok_mem s s' d f R l : mem s' = mem s -> freelist s' = freelist s -> uv_ok s d f R l -> uv_ok s' d f R l.
Proof. intros E1 E2 [[] O V]. split; [split|..]; rewrite ?E1, ?E2; done. Qed.

Lemma iget_scan_fresh dev inum l : Forall (fun i => i_ref i = 0) l -> forall n e, e <> None ->
  iget_scan dev inum n l e = (None, e).
Proof.
  induction 1 as [|i l Hi _ IH]; intros n e He; cbn; [done|]. rewrite Hi. cbn. destruct e; [|done]. by apply IH.
Qed.
Lemma namei_root_run s i0 ic : LIcache ∉ held s -> icache s = i0 :: ic -> Forall (fun i => i_ref i = 0) (i0 :: ic) ->
  namei (str "/") s = Ret (Some 0%nat) (s <| icache := i0 <| i_dev := ROOTDEV |> <| i_inum := ROOTINO |> <| i_ref := 1 |>
    <| i_flags := 0 |> :: ic |>).
Proof.
  intros Hh Eic Hr. unfold namei, namex. change (str "/") with [47]. change (chr0 [47] =? 47) with true. cbv iota.
  set (s' := _ <| icache := _ |>).
  assert (E : iget ROOTDEV ROOTINO s = Ret 0%nat s').
  { unfold iget. rewrite (bind_run _ _ _ _ _ (acquire_run _ _ Hh)), bind_gets.
    change (icache (s <| held ::= cons LIcache |>)) with (icache s). rewrite Eic. apply Forall_cons in Hr as [Hr0 Hr].
    cbn [iget_scan]. rewrite Hr0. cbn [Z.ltb Z.compare andb Z.eqb]. rewrite bool_decide_eq_true_2 by done. cbn [andb].
    rewrite iget_scan_fresh by done. unfold upd_inode. rewrite bind_modify.
    erewrite bind_run; [|apply (release_run LIcache (held s)); reflexivity]. unfold ret. f_equal. unfold s'. kext. cbn.
    by rewrite Eic. }
  rewrite (bind_run _ _ _ (Some 0%nat, []) s'); [done|]. by rewrite (bind_run _ _ _ _ _ E).
Qed.

Lemma add_ref_first d rt s : pgdir_table s = mkRefs 0 0 :: rt -> Forall (fun r => r_count r = 0) rt ->
  add_ref d s = Ret tt (s <| pgdir_table := mkRefs d 1 :: rt |>).
Proof.
  intros E Hr. unfold add_ref. rewrite bind_gets. unfold get_index. rewrite E. cbn [find_ref counts r_count].
  assert (N : forall n, find_ref (counts d) n rt = None).
  { clear E. induction Hr as [|r rt Hr0 _ IH]; intros n; cbn; [done|]. unfold counts at 1. rewrite Hr0. cbn. apply IH. }
  cbn. rewrite N, bind_gets, E. cbn. unfold upd_ref, modify. f_equal. kext. cbn. by rewrite E.
Qed.

(** The first process is in the first slot, before the slots [pt]: it has the identifier [pid], is runnable, works in
    the root directory and will run [code] from address 0 in user mode with interrupts on; its address space is the
    kernel map and one page, in pages other than those of [R], and its page directory is counted once. *)
Definition first_process (code R : list Z) (pid : Z) (pt : list proc) (s' : kernel) : Prop :=
  exists p d page l', ptable s' = p :: pt /\
    p_state p = RUNNABLE /\ p_pid p = pid /\ p_sz p = PGSIZE /\ p_pgdir p = d /\ p_cwd p = Some 0%nat /\
    i_dev (inode_at 0 s') = ROOTDEV /\ i_inum (inode_at 0 s') = ROOTINO /\ i_ref (inode_at 0 s') = 1 /\
    tf_eip (p_tf p) = 0 /\ tf_esp (p_tf p) = PGSIZE /\ Z.land (tf_cs (p_tf p)) 3 = DPL_USER /\
    tf_eflags (p_tf p) = FL_IF /\
    uv_ok s' d (set_entry (fun _ => 0) 0 (page + 7)) (page :: p_kstack p :: R) l' /\
    (forall j c, code !! j = Some c -> ld8 (mem s') (page + Z.of_nat j) = u8 c) /\
    get_count d s' = 1.

(** What [userinit] leaves. *)
Definition started_init (code R : list Z) (s : kernel) (pt : list proc) (s' : kernel) : Prop :=
  held s' = [] /\ initproc s' = Some 0%nat /\ keeps R s s' /\ kpgdir s' = kpgdir s /\ curproc s' = curproc s /\
  bufs s' = bufs s /\ disk s' = disk s /\ cr3 s' = cr3 s /\ first_process code R (s32 (nextpid s)) pt s'.

(** On a machine with an empty process table, an empty inode cache and seventeen free pages [userinit] starts the first
    process, and the pages [R] that are in use elsewhere keep their contents. *)
Lemma wp_userinit (s : kernel) (code R l : list Z) (pt : list proc) (rt : list pgdir_refs) (ic : list inode) (p0 : proc) :
  held s = [] -> kmem_ok s l -> Forall page_ok (R ++ l) -> NoDup (R ++ l) -> (17 <= length l)%nat -> Z.of_nat (length code) < PGSIZE ->
  ptable s = p0 :: pt -> p_state p0 = UNUSED ->
  pgdir_table s = mkRefs 0 0 :: rt -> Forall (fun r => r_count r = 0) rt ->
  icache s = inode0 :: ic -> Forall (fun i => i_ref i = 0) ic ->
  wp (userinit code) s (fun _ s' => started_init code R s pt s').
Proof.
  intros Hh Hk HRp HRn Hlen Hcode Ept Hu Ert Hrt Eic Hic. unfold userinit.
  assert (Hnh : forall lk, lk ∉ held s) by (intros lk; rewrite Hh; set_solver).
  apply wp_bind. apply (wp_allocproc s l 0 p0); [apply Hnh|apply Hnh|exact Hk|by destruct l; [cbn in Hlen; lia|]| |by rewrite Ept|].
  { rewrite Ept. cbn. by rewrite bool_decide_eq_true_2. }
  intros k l1 -> Hpk s1 K1. cbn [length] in Hlen.
  apply wp_bind. eapply wp_run; [apply acquire_run; unfold s1; cbn; rewrite Hh; set_solver|]. apply wp_modify.
  set (s2 := _ <| initproc := _ |>). apply wp_bind.
  assert (Hh2 : held s2 = [LPtable]) by (unfold s2, s1; cbn; by rewrite Hh).
  assert (HP : R ++ k :: l1 ≡ₚ (k :: R) ++ l1) by (cbn; symmetry; apply Permutation_middle). rewrite HP in HRp, HRn.
  apply (wp_setupkvm s2 (k :: R) l1); [rewrite Hh2; set_solver|by destruct K1|exact HRp|exact HRn| |by intros; lia].
  intros d s3 l3 Kv Hl3. pose proof (kvm_uv_ok _ _ _ _ _ _ Kv) as U3. destruct Kv as [Hd (m & f & c & kc & Es3 & _) _ _ _ Kp3 _ _].
  pose proof (page_ok_bounds d Hd) as Hdb. apply wp_bind, wp_intro_ret. apply wp_modify.
  destruct (Z.eqb_spec d 0); [lia|]. apply wp_bind. eapply (wp_inituvm _ d (k :: R) l3); [rewrite Es3; cbn; rewrite Hh; set_solver| | |done|].
  { eapply uv_ok_mem; [| |exact U3]; done. }
  { intros ->. cbn in Hl3. lia. }
  intros page l4 s4 -> U4 (m4 & f4 & c4 & kc4 & Es4 & _) Kp4 Hcd. apply wp_modify. set (s5 := s4 <| ptable ::= _ |>).
  apply wp_bind. eapply wp_run; [apply (namei_root_run s5 inode0 ic)|].
  { unfold s5. rewrite Es4, Es3. cbn. rewrite Hh. set_solver. }
  { unfold s5. rewrite Es4, Es3. cbn. done. }
  { by apply Forall_cons. }
  apply wp_modify. apply wp_bind. eapply wp_run; [apply (add_ref_first d rt)|]; [|done|].
  { unfold s5. rewrite Es4, Es3. cbn. done. }
  eapply wp_run; [apply (release_run _ []); unfold s5; rewrite Es4, Es3; cbn; by rewrite Hh|].
  assert (Em : forall x, mem s4 x = m4 x) by by rewrite Es4.
  unfold started_init, first_process, s5. rewrite Es4, Es3. cbn. rewrite Ept. cbn. split_and!; [done|done| |done..|].
  { intros q x Hq Hx. cbn. rewrite <- Em, (Kp4 q x) by (done || by right). cbn. rewrite (Kp3 q x) by (done || by right). done. }
  eexists _, d, page, l4. split; [done|]. cbn. split_and!; try done.
  - eapply (uv_ok_mem s4); [by rewrite Es4|by rewrite Es4|exact U4].
  - intros j x Hj. rewrite <- (Hcd j x Hj). unfold ld8. by rewrite Em.
  - unfold get_count, get_index. cbn. unfold counts at 1. cbn. rewrite Z.eqb_refl. cbn. done.
Qed.
End Boot.

(** ** Example: the machine of [VmSpec.v] with 40 free pages, before it has processes. *)
Definition codesyms1 : CodeSyms := {| sym_forkret := 0x100100; sym_trapret := 0x100200 |}.
Definition no_procs (k : kernel) : kernel := k <| curproc := None |> <| ptable := replicate NPROC proc0 |>.
Definition boot1 : kernel := no_procs kernel1.

Lemma no_procs_fields k : held (no_procs k) = held k /\ mem (no_procs k) = mem k /\ freelist (no_procs k) = freelist k /\
  ptable (no_procs k) = proc0 :: replicate 63 proc0 /\ pgdir_table (no_procs k) = pgdir_table k /\
  icache (no_procs k) = icache k /\ nextpid (no_procs k) = nextpid k /\ curproc (no_procs k) = None.
Proof. done. Qed.
Lemma boot1_fields : held boot1 = [] /\ @kmem_ok linker1 boot1 pages1 /\ ptable boot1 = proc0 :: replicate 63 proc0 /\
  pgdir_table boot1 = mkRefs 0 0 :: replicate 63 (mkRefs 0 0) /\ icache boot1 = inode0 :: replicate 49 inode0 /\
  nextpid boot1 = 1 /\ curproc boot1 = None.
Proof.
  destruct kernel1_frame as (Hh & _). destruct kernel1_rest as (Er & En & Ei & _). unfold boot1.
  destruct (no_procs_fields kernel1) as (E1 & E2 & E3 & E4 & E5 & E6 & E7 & E8). rewrite E1, E4, E5, E6, E7, E8, Hh, Er, En, Ei.
  split; [reflexivity|]. split; [|by split_and!].
  apply (kmem_ok_same kernel1); [exact E2|exact E3|exact kernel1_ok].
Qed.
#[global] Opaque boot1.

Lemma userinit_boot1 : exists s', @userinit linker1 codesyms1 [0x68; 0x00] boot1 = Ret tt s'.
Proof.
  destruct boot1_fields as (Hh & K & Ep & Er & Ei & _).
  assert (Hl : (17 <= length pages1)%nat) by (change (length pages1) with 40%nat; lia).
  assert (W := @wp_userinit linker1 linker1_ok codesyms1 boot1 [0x68; 0x00] [] pages1 (replicate 63 proc0)
    (replicate 63 (mkRefs 0 0)) (replicate 49 inode0) proc0 Hh K (ko_pages _ _ K) (ko_nodup _ _ K) Hl ltac:(cbn; unfold PGSIZE; lia) Ep eq_refl Er
    ltac:(by apply Forall_replicate) Ei ltac:(by apply Forall_replicate)).
  destruct (wp_elim _ _ _ W) as ([] & s' & E & _). exists s'. exact E.
Qed.
