(* ===== verification/Procs.v ===== *)
(** The process table as a whole: an invariant that every system call, interrupt and
    fault keeps, in whatever order processes give up the CPU.

    Threads made by [clone] share a page directory; [pgdir_table] of [kernel/proc.c]
    counts the sharers, and the last one to be reaped, or to call [exec], frees the
    memory.  The invariant says that the counts are right and that process identifiers
    are unique, so that the panic of [wait], [join] and [exec] on a bad count is never
    reached. *)
From S2P Require Import Prelude Types Mem Kalloc PageTable Cons Vm Shm ShmProofs Sched Ide Bio UserMem Inode Console Fs Pipe File Proc Exec Syscall Trap.

(** ** The reference counts of page directories *)

(** Counts are not negative, and no directory has two entries that count. *)
Record refs_ok (t : list pgdir_refs) : Prop := {
  ro_nonneg : Forall (fun r => 0 <= r_count r) t;
  ro_unique : forall i j r1 r2, t !! i = Some r1 -> t !! j = Some r2 -> 0 < r_count r1 -> 0 < r_count r2 ->
    r_addr r1 = r_addr r2 -> i = j }.

Definition tcount (d : Z) (t : list pgdir_refs) : Z :=
  match find_ref (counts d) 0 t with
  | Some i => r_count (default (mkRefs 0 0) (t !! i))
  | None => 0
  end.

Lemma find_ref_Some f l : forall n i, find_ref f n l = Some i ->
  exists j r, i = (n + j)%nat /\ l !! j = Some r /\ f r = true.
Proof.
  induction l as [|x l IH]; intros n i; cbn [find_ref]; [done|]. destruct (f x) eqn:E.
  - intros [= <-]. exists 0%nat, x. split_and!; [lia|done|done].
  - intros (j & r & -> & Hj & Hr)%IH. exists (S j), r. split_and!; [lia|done|done].
Qed.
Lemma find_ref_None f l : forall n, find_ref f n l = None -> forall j r, l !! j = Some r -> f r = false.
Proof.
  induction l as [|x l IH]; intros n H j r Hj; [done|]. cbn [find_ref] in H. destruct (f x) eqn:E; [done|].
  destruct j as [|j]; [by injection Hj as ->|]. by eapply IH.
Qed.

Lemma counts_spec d r : counts d r = true <-> 0 < r_count r /\ r_addr r = d.
Proof. unfold counts. rewrite andb_true_iff, Z.ltb_lt, Z.eqb_eq. done. Qed.

(** The entry of a directory that is counted. *)
Lemma tcount_spec d t : refs_ok t ->
  (tcount d t = 0 /\ forall j r, t !! j = Some r -> 0 < r_count r -> r_addr r <> d) \/
  (exists i r, find_ref (counts d) 0 t = Some i /\ t !! i = Some r /\ 0 < r_count r /\ r_addr r = d /\ tcount d t = r_count r).
Proof.
  intros Hok. unfold tcount. destruct (find_ref (counts d) 0 t) as [i|] eqn:E; [right|left].
  - destruct (find_ref_Some _ _ _ _ E) as (j & r & -> & Hj & Hr). apply counts_spec in Hr as [H1 H2]. cbn.
    exists j, r. rewrite Hj. done.
  - split; [done|]. intros j r Hj Hc Ha. pose proof (find_ref_None _ _ _ E j r Hj) as F.
    assert (counts d r = true) by by apply counts_spec. congruence.
Qed.

(** The count is the count of the only entry. *)
Lemma tcount_at d t i r : refs_ok t -> t !! i = Some r -> 0 < r_count r -> r_addr r = d -> tcount d t = r_count r.
Proof.
  intros Hok Hi Hc Ha. destruct (tcount_spec d t Hok) as [[_ Hn]|(j & r' & _ & Hj & Hc' & Ha' & ->)].
  - by destruct (Hn i r Hi Hc).
  - assert (j = i) as -> by (eapply (ro_unique t Hok); try done; congruence). congruence.
Qed.
Lemma tcount_none d t : refs_ok t -> (forall j r, t !! j = Some r -> 0 < r_count r -> r_addr r <> d) -> tcount d t = 0.
Proof.
  intros Hok Hn. destruct (tcount_spec d t Hok) as [[-> _]|(j & r & _ & Hj & Hc & Ha & _)]; [done|].
  by destruct (Hn j r Hj Hc).
Qed.

(** The table counts the directories of [ds]. *)
Definition refs_match (t : list pgdir_refs) (ds : list Z) : Prop :=
  forall d, tcount d t = Z.of_nat (length (filter (fun x => x = d) ds)).

Lemma refs_match_perm t ds ds' : ds ≡ₚ ds' -> refs_match t ds -> refs_match t ds'.
Proof. intros HP M d. by rewrite M, HP. Qed.

(** Changing one entry changes the count of its directory only. *)
Lemma refs_insert t i r c d : refs_ok t -> t !! i = Some r -> 0 <= c ->
  (0 < r_count r -> r_addr r = d) -> (0 < c -> r_count r = 0 -> tcount d t = 0) ->
  let t' := <[i := mkRefs d c]> t in
  refs_ok t' /\ (0 < r_count r \/ tcount d t = 0 -> tcount d t' = c) /\ forall d', d' <> d -> tcount d' t' = tcount d' t.
Proof.
  intros Hok Hi Hc Hr Hz t'. pose proof (lookup_lt_Some _ _ _ Hi) as Hlt.
  assert (At : forall j r', t' !! j = Some r' -> (j = i /\ r' = mkRefs d c) \/ (j <> i /\ t !! j = Some r')).
  { intros j r'. unfold t'. destruct (decide (j = i)) as [->|Hne].
    - rewrite list_lookup_insert_eq by done. intros [= <-]. by left.
    - rewrite list_lookup_insert_ne by done. by right. }
  assert (Hno : forall j r', j <> i -> t !! j = Some r' -> 0 < c -> 0 < r_count r' -> r_addr r' <> d).
  { intros j r' Hne Hj Hc0 Hc' Ha. pose proof (ro_nonneg t Hok) as Hnn. rewrite Forall_lookup in Hnn.
    pose proof (Hnn i r Hi). destruct (Z.eq_dec (r_count r) 0) as [E|E].
    - pose proof (tcount_at d t j r' Hok Hj Hc' Ha). specialize (Hz Hc0 E). lia.
    - apply Hne. eapply (ro_unique t Hok); try done; [lia|]. rewrite Hr by lia. done. }
  assert (Hok' : refs_ok t').
  { split.
    - apply Forall_insert; [apply Hok|done].
    - intros j1 j2 r1 r2 [[-> ->]|[N1 H1]]%At [[-> ->]|[N2 H2]]%At C1 C2 E; cbn in *.
      + done.
      + by destruct (Hno j2 r2 N2 H2 C1 C2).
      + by destruct (Hno j1 r1 N1 H1 C2 C1).
      + by eapply (ro_unique t Hok). }
  split; [done|]. split.
  - intros Hcase. destruct (Z.eq_dec c 0) as [->|Hc0].
    + apply tcount_none; [done|]. intros j r' [[-> ->]|[N1 H1]]%At C1 Ha; cbn in *; [lia|].
      destruct Hcase as [Hp|H0].
      * apply N1. eapply (ro_unique t Hok); try done. rewrite Hr by done. done.
      * pose proof (tcount_at d t j r' Hok H1 C1 Ha). lia.
    + rewrite (tcount_at d t' i (mkRefs d c)); [done|done| |cbn; lia|done].
      unfold t'. by rewrite list_lookup_insert_eq.
  - intros d' Hd. destruct (tcount_spec d' t Hok) as [[-> Hn]|(j & r' & _ & Hj & C1 & Ha & ->)].
    + apply tcount_none; [done|]. intros j r' [[-> ->]|[N1 H1]]%At C1; cbn in *; [done|]. by eapply Hn.
    + apply (tcount_at _ t' j); try done. unfold t'. destruct (decide (j = i)) as [->|Hne].
      * exfalso. assert (r' = r) as -> by congruence. apply Hd. rewrite <- Ha. by apply Hr.
      * by rewrite list_lookup_insert_ne.
Qed.

(** *** Adding a reference *)

(** Every entry counts: then there are as many directories as entries. *)
Lemma refs_full t ds : refs_ok t -> refs_match t ds -> (forall j r, t !! j = Some r -> r_count r <> 0) ->
  (length t <= length ds)%nat.
Proof.
  intros Hok M Hall. pose proof (ro_nonneg t Hok) as Hnn. rewrite Forall_lookup in Hnn.
  rewrite <- (length_fmap r_addr t). apply submseteq_length, NoDup_submseteq.
  - apply NoDup_alt. intros i j a Hi Hj. rewrite list_lookup_fmap in Hi, Hj.
    destruct (t !! i) as [r1|] eqn:E1, (t !! j) as [r2|] eqn:E2; try done. cbn in *.
    injection Hi as Ha. injection Hj as Ha'. eapply (ro_unique t Hok); try done; try congruence.
    + pose proof (Hnn i r1 E1). pose proof (Hall i r1 E1). lia.
    + pose proof (Hnn j r2 E2). pose proof (Hall j r2 E2). lia.
  - intros a. rewrite list_elem_of_fmap. intros (r & -> & Hr). apply list_elem_of_lookup in Hr as [i Hi].
    assert (0 < r_count r) by (pose proof (Hnn i r Hi); pose proof (Hall i r Hi); lia).
    pose proof (tcount_at _ t i r Hok Hi ltac:(done) eq_refl) as E. rewrite M in E.
    destruct (filter (fun x => x = r_addr r) ds) as [|y l] eqn:F; [cbn in E; lia|].
    assert (Hy : y ∈ filter (fun x => x = r_addr r) ds) by (rewrite F; apply elem_of_cons; by left).
    by apply list_elem_of_filter in Hy as [-> Hy].
Qed.

Lemma add_ref_run s d ds : refs_ok (pgdir_table s) -> refs_match (pgdir_table s) ds ->
  (length ds < length (pgdir_table s))%nat ->
  exists t', add_ref d s = Ret tt (s <| pgdir_table := t' |>) /\ refs_ok t' /\ refs_match t' (d :: ds) /\
    length t' = length (pgdir_table s).
Proof.
  intros Hok M Hlen. set (t := pgdir_table s) in *. unfold add_ref. rewrite bind_gets. unfold get_index. fold t.
  assert (HM : forall t', tcount d t' = tcount d t + 1 -> (forall d', d' <> d -> tcount d' t' = tcount d' t) ->
    refs_match t' (d :: ds)).
  { intros t' E1 E2 d'. destruct (Z.eq_dec d' d) as [->|Hne].
    - rewrite filter_cons_True by done. cbn [length]. rewrite E1, M. lia.
    - rewrite filter_cons_False by done. by rewrite E2, M. }
  destruct (tcount_spec d t Hok) as [[E0 Hn]|(i & r & Ef & Hi & Hc & Ha & Et)].
  - destruct (find_ref (counts d) 0 t) as [i|] eqn:Ef.
    { destruct (find_ref_Some _ _ _ _ Ef) as (j & r & -> & Hj & Hr). apply counts_spec in Hr as [H1 H2].
      by destruct (Hn j r Hj H1). }
    rewrite bind_gets. fold t. destruct (find_ref (fun r => r_count r =? 0) 0 t) as [i|] eqn:Ez.
    + destruct (find_ref_Some _ _ _ _ Ez) as (j & r & -> & Hj & Hr). apply Z.eqb_eq in Hr. cbn [Nat.add].
      destruct (refs_insert t j r 1 d Hok Hj) as (Hok' & E1 & E2); [lia|lia|done|].
      exists (<[j := mkRefs d 1]> t). unfold upd_ref, modify. split_and!; [|done| |by rewrite length_insert].
      * f_equal. kext. cbn. fold t. by rewrite (list_alter_lookup _ _ _ _ Hj).
      * apply HM; [rewrite E1 by auto; lia|done].
    + exfalso. assert (length t <= length ds)%nat; [|lia]. apply refs_full; try done.
      intros j r Hj E. pose proof (find_ref_None _ _ _ Ez j r Hj) as F. cbn in F. lia.
  - rewrite Ef. destruct (refs_insert t i r (r_count r + 1) d Hok Hi) as (Hok' & E1 & E2); [lia|done|lia|].
    exists (<[i := mkRefs d (r_count r + 1)]> t). unfold upd_ref, modify. split_and!; [|done| |by rewrite length_insert].
    + f_equal. kext. cbn. fold t. rewrite (list_alter_lookup _ _ _ _ Hi). f_equal. destruct r; cbn in *. by subst.
    + apply HM; [rewrite E1 by auto; lia|done].
Qed.

(** *** Dropping a reference *)
Lemma delete_ref_run s d ds : refs_ok (pgdir_table s) -> refs_match (pgdir_table s) (d :: ds) ->
  exists t', delete_ref d s = Ret (Z.of_nat (length (filter (fun x => x = d) ds))) (s <| pgdir_table := t' |>) /\
    refs_ok t' /\ refs_match t' ds /\ length t' = length (pgdir_table s).
Proof.
  intros Hok M. set (t := pgdir_table s) in *. unfold delete_ref. rewrite bind_gets. fold t.
  assert (Ef' : forall n l, find_ref (fun r => (r_addr r =? d) && (0 <? r_count r)) n l = find_ref (counts d) n l).
  { intros n l. revert n. induction l as [|x l IH]; intros n; cbn; [done|]. unfold counts at 1.
    rewrite andb_comm, IH. done. }
  rewrite Ef'. pose proof (M d) as Md. rewrite filter_cons_True in Md by done. cbn [length] in Md.
  destruct (tcount_spec d t Hok) as [[E0 _]|(i & r & -> & Hi & Hc & Ha & Et)]; [lia|].
  destruct (refs_insert t i r (r_count r - 1) d Hok Hi) as (Hok' & E1 & E2); [lia|done|lia|].
  exists (<[i := mkRefs d (r_count r - 1)]> t).
  assert (Er : r <| r_count ::= fun c => c - 1 |> = mkRefs d (r_count r - 1)) by (destruct r; cbn in *; by subst).
  assert (Es : s <| pgdir_table ::= alter (fun r => r <| r_count ::= fun c => c - 1 |>) i |> =
    s <| pgdir_table := <[i := mkRefs d (r_count r - 1)]> t |>).
  { kext. cbn. fold t. by rewrite (list_alter_lookup _ _ _ _ Hi), Er. }
  unfold upd_ref. rewrite bind_modify, Es. unfold gets. split_and!; [|done| |by rewrite length_insert].
  - f_equal. cbn. rewrite list_lookup_insert_eq by by eapply lookup_lt_Some. cbn. lia.
  - intros d'. destruct (Z.eq_dec d' d) as [->|Hne]; [rewrite E1 by auto; lia|].
    rewrite E2, M, filter_cons_False by done. done.
Qed.

(** ** The invariant *)
Inductive pkind : Type := KFree | KEmbryo | KLive | KZombie.
Definition kind (st : procstate) : pkind :=
  match st with UNUSED => KFree | EMBRYO => KEmbryo | ZOMBIE => KZombie | _ => KLive end.

(** What the invariant looks at: the kind, the page directory and the identifier. *)
Definition pkey : Type := pkind * Z * Z.
Definition key (p : proc) : pkey := (kind (p_state p), p_pgdir p, p_pid p).
Definition live_dir (k : pkey) : option Z := match k with (KLive, d, _) | (KZombie, d, _) => Some d | _ => None end.
Definition used_pid (k : pkey) : option Z := match k with (KFree, _, _) => None | (_, _, n) => Some n end.

Record pinv (K : list pkey) (t : list pgdir_refs) (next : Z) (cur : option nat) : Prop := {
  pv_procs : length K = NPROC;
  pv_entries : length t = NPROC;
  pv_refs : refs_ok t;
  pv_match : refs_match t (omap live_dir K);
  pv_next : 0 < next;
  pv_unique : next <= 2 ^ 31 -> NoDup (omap used_pid K);
  pv_pids : next <= 2 ^ 31 -> Forall (fun n => 0 < n < next) (omap used_pid K);
  pv_cur : forall i, cur = Some i -> exists d n, K !! i = Some (KLive, d, n) }.

(** The table of page directories counts the processes that use each directory; process
    identifiers are different; the current process is live.  When a process gives up the CPU for
    good, as a zombie, the last part only holds again when the scheduler has cleared [proc]. *)
Definition procs_inv (s : kernel) : Prop :=
  pinv (key <$> ptable s) (pgdir_table s) (nextpid s) (curproc s).
Definition procs_out (s : kernel) : Prop :=
  pinv (key <$> ptable s) (pgdir_table s) (nextpid s) None.

Lemma procs_inv_out s : procs_inv s -> procs_out s.
Proof. intros []. by split. Qed.

(** Replacing one element. *)
Lemma omap_insert_perm {A B} (f : A -> option B) (l : list A) i x y : l !! i = Some x ->
  option_list (f x) ++ omap f (<[i := y]> l) ≡ₚ option_list (f y) ++ omap f l.
Proof.
  revert i. induction l as [|z l IH]; intros [|i] Hi; try done.
  - injection Hi as ->. cbn. destruct (f x), (f y); cbn; try done. apply Permutation_swap.
  - cbn in Hi |- *. destruct (f z); cbn; [|by apply IH]. rewrite <- !Permutation_middle. by rewrite IH.
Qed.

Section moves.
Context (K : list pkey) (t : list pgdir_refs) (next : Z) (cur : option nat) (i : nat).

Lemma pinv_alloc d n : pinv K t next cur -> K !! i = Some (KFree, d, n) ->
  pinv (<[i := (KEmbryo, d, s32 next)]> K) t (Z.succ next) cur.
Proof.
  intros [H1 H2 H3 H4 H5 H6 H7 H8] Hi. pose proof (lookup_lt_Some _ _ _ Hi).
  pose proof (omap_insert_perm live_dir K i _ (KEmbryo, d, s32 next) Hi) as P1. cbn in P1.
  pose proof (omap_insert_perm used_pid K i _ (KEmbryo, d, s32 next) Hi) as P2. cbn in P2.
  split; try done; [by rewrite length_insert|by eapply refs_match_perm|lia|intros Hw..|].
  - rewrite P2, (s32_small next) by lia. apply NoDup_cons. split; [|apply H6; lia].
    intros Hin. specialize (H7 ltac:(lia)). rewrite Forall_forall in H7. specialize (H7 _ Hin). lia.
  - rewrite P2, (s32_small next) by lia. apply Forall_cons. split; [lia|]. eapply Forall_impl; [apply H7; lia|]. cbn. lia.
  - intros j Hj. destruct (H8 j Hj) as (d' & n' & E). exists d', n'. rewrite list_lookup_insert_ne; [done|]. congruence.
Qed.

Lemma pinv_setdir d d' n : pinv K t next cur -> K !! i = Some (KEmbryo, d, n) ->
  pinv (<[i := (KEmbryo, d', n)]> K) t next cur.
Proof.
  intros [H1 H2 H3 H4 H5 H6 H7 H8] Hi.
  pose proof (omap_insert_perm live_dir K i _ (KEmbryo, d', n) Hi) as P1. cbn in P1.
  pose proof (omap_insert_perm used_pid K i _ (KEmbryo, d', n) Hi) as P2. cbn in P2. apply Permutation_cons_inv in P2.
  split; try done; [by rewrite length_insert|by eapply refs_match_perm|by rewrite P2|by rewrite P2|].
  intros j Hj. destruct (H8 j Hj) as (d1 & n1 & E). exists d1, n1. rewrite list_lookup_insert_ne; [done|]. congruence.
Qed.

Lemma pinv_abandon d n n' : pinv K t next cur -> K !! i = Some (KEmbryo, d, n) ->
  pinv (<[i := (KFree, d, n')]> K) t next cur.
Proof.
  intros [H1 H2 H3 H4 H5 H6 H7 H8] Hi.
  pose proof (omap_insert_perm live_dir K i _ (KFree, d, n') Hi) as P1. cbn in P1.
  pose proof (omap_insert_perm used_pid K i _ (KFree, d, n') Hi) as P2. cbn in P2. rewrite <- P2 in H6, H7.
  split; try done; [by rewrite length_insert|by eapply refs_match_perm|intros Hw; specialize (H6 Hw); by apply NoDup_cons in H6 as [_ ?]|
    intros Hw; specialize (H7 Hw); by apply Forall_cons in H7 as [_ ?]|].
  intros j Hj. destruct (H8 j Hj) as (d1 & n1 & E). exists d1, n1. rewrite list_lookup_insert_ne; [done|]. congruence.
Qed.

Lemma pinv_start t' d n : pinv K t next cur -> K !! i = Some (KEmbryo, d, n) ->
  refs_ok t' -> refs_match t' (d :: omap live_dir K) -> length t' = length t ->
  pinv (<[i := (KLive, d, n)]> K) t' next cur.
Proof.
  intros [H1 H2 H3 H4 H5 H6 H7 H8] Hi Ht Hm Hl. pose proof (lookup_lt_Some _ _ _ Hi).
  pose proof (omap_insert_perm live_dir K i _ (KLive, d, n) Hi) as P1. cbn in P1.
  pose proof (omap_insert_perm used_pid K i _ (KLive, d, n) Hi) as P2. cbn in P2. apply Permutation_cons_inv in P2.
  split; try done; [by rewrite length_insert|congruence|by eapply refs_match_perm|by rewrite P2|by rewrite P2|].
  intros j Hj. destruct (decide (j = i)) as [->|Hne].
  - exists d, n. by rewrite list_lookup_insert_eq.
  - destruct (H8 j Hj) as (d1 & n1 & E). exists d1, n1. by rewrite list_lookup_insert_ne.
Qed.

Lemma pinv_reap t' d n n' : pinv K t next cur -> K !! i = Some (KZombie, d, n) ->
  refs_ok t' -> (forall ds, omap live_dir K ≡ₚ d :: ds -> refs_match t' ds) -> length t' = length t ->
  pinv (<[i := (KFree, d, n')]> K) t' next cur.
Proof.
  intros [H1 H2 H3 H4 H5 H6 H7 H8] Hi Ht Hm Hl. pose proof (lookup_lt_Some _ _ _ Hi).
  pose proof (omap_insert_perm live_dir K i _ (KFree, d, n') Hi) as P1. cbn in P1.
  pose proof (omap_insert_perm used_pid K i _ (KFree, d, n') Hi) as P2. cbn in P2. rewrite <- P2 in H6, H7.
  split; try done; [by rewrite length_insert|congruence|by apply Hm|intros Hw; specialize (H6 Hw); by apply NoDup_cons in H6 as [_ ?]|
    intros Hw; specialize (H7 Hw); by apply Forall_cons in H7 as [_ ?]|].
  intros j Hj. destruct (H8 j Hj) as (d1 & n1 & E). exists d1, n1. rewrite list_lookup_insert_ne; [done|]. congruence.
Qed.

Lemma pinv_newdir t' d d' n : pinv K t next cur -> K !! i = Some (KLive, d, n) ->
  refs_ok t' -> (forall ds, omap live_dir K ≡ₚ d :: ds -> refs_match t' (d' :: ds)) -> length t' = length t ->
  pinv (<[i := (KLive, d', n)]> K) t' next cur.
Proof.
  intros [H1 H2 H3 H4 H5 H6 H7 H8] Hi Ht Hm Hl. pose proof (lookup_lt_Some _ _ _ Hi).
  pose proof (omap_insert_perm live_dir K i _ (KLive, d', n) Hi) as P1. cbn in P1.
  pose proof (omap_insert_perm used_pid K i _ (KLive, d', n) Hi) as P2. cbn in P2. apply Permutation_cons_inv in P2.
  pose proof (omap_insert_perm live_dir K i _ (KFree, d, n) Hi) as P3. cbn in P3.
  split; try done; [by rewrite length_insert|congruence| |by rewrite P2|by rewrite P2|].
  - eapply refs_match_perm; [|apply (Hm (omap live_dir (<[i:=(KFree, d, n)]> K))); by rewrite P3].
    apply (Permutation_cons_inv (a := d)). rewrite P1, Permutation_swap, P3. done.
  - intros j Hj. destruct (decide (j = i)) as [->|Hne].
    + exists d', n. by rewrite list_lookup_insert_eq.
    + destruct (H8 j Hj) as (d1 & n1 & E). exists d1, n1. by rewrite list_lookup_insert_ne.
Qed.

(** A process that is not live leaves room for one more directory. *)
Lemma pinv_room k d n : pinv K t next cur -> K !! i = Some (k, d, n) -> k = KFree \/ k = KEmbryo ->
  (length (omap live_dir K) < length t)%nat.
Proof.
  intros [H1 H2 _ _ _ _ _ _] Hi Hk. rewrite H2, <- H1. clear -Hi Hk.
  assert (L : forall l, (length (omap live_dir l) <= length l)%nat).
  { induction l as [|x l IH]; cbn; [lia|]. destruct (live_dir x); cbn; lia. }
  revert i Hi. induction K as [|x l IH]; intros [|j] Hi; try done; cbn in *.
  - injection Hi as ->. destruct Hk as [-> | ->]; cbn; specialize (L l); lia.
  - specialize (IH _ Hi). destruct (live_dir x); cbn; lia.
Qed.

Lemma pinv_zombie d n : pinv K t next cur -> K !! i = Some (KLive, d, n) ->
  pinv (<[i := (KZombie, d, n)]> K) t next None.
Proof.
  intros [H1 H2 H3 H4 H5 H6 H7 H8] Hi.
  pose proof (omap_insert_perm live_dir K i _ (KZombie, d, n) Hi) as P1. cbn in P1. apply Permutation_cons_inv in P1.
  pose proof (omap_insert_perm used_pid K i _ (KZombie, d, n) Hi) as P2. cbn in P2. apply Permutation_cons_inv in P2.
  split; try done; [by rewrite length_insert|by eapply refs_match_perm|by rewrite P2|by rewrite P2].
Qed.
End moves.

(** ** Frames

    A [calm] function does not give up the CPU and changes nothing that the invariant
    looks at; a [steady] one keeps the invariant whenever it gives up the CPU and when it
    returns.  Neither panics on a reference count. *)
Definition no_ref (e : string) : Prop := e <> "pgdir ref".

Record quiet (s s' : kernel) : Prop := {
  q_keys : key <$> ptable s' = key <$> ptable s;
  q_refs : pgdir_table s' = pgdir_table s;
  q_next : nextpid s' = nextpid s;
  q_cur : curproc s' = curproc s }.
#[global] Instance quiet_preorder : PreOrder quiet.
Proof.
  split; [by intros s|]. intros s1 s2 s3 [A1 A2 A3 A4] [B1 B2 B3 B4]. split; congruence.
Qed.
Lemma quiet_inv s s' : quiet s s' -> procs_inv s -> procs_inv s'.
Proof. intros [E1 E2 E3 E4]. unfold procs_inv. by rewrite E1, E2, E3, E4. Qed.

Definition calm {A} (m : M kernel A) : Prop :=
  forall s, safe m s (fun _ s' => quiet s s') (fun _ => False) procs_inv no_ref.
Definition steady {A} (m : M kernel A) : Prop :=
  forall s, procs_inv s -> safe m s (fun _ s' => procs_inv s') procs_out procs_inv no_ref.

Section frame_rules.
Context {A B : Type}.

Lemma calm_ret (a : A) : calm (ret a).
Proof. intros s. apply safe_ret. reflexivity. Qed.
Lemma calm_get : calm get.
Proof. intros s. by apply (safe_ret s s). Qed.
Lemma calm_gets (g : kernel -> A) : calm (gets g).
Proof. intros s. by apply (safe_ret (g s) s). Qed.
Lemma calm_panic msg : no_ref msg -> calm (@panic _ A msg).
Proof. intros H s. exact H. Qed.
Lemma calm_spin : calm (@spin _ A).
Proof. intros s. exact I. Qed.
Lemma calm_modify g : (forall s, quiet s (g s)) -> calm (modify g).
Proof. intros H s. apply H. Qed.
Lemma calm_when b m : calm m -> calm (when b m).
Proof. intros H. destruct b; [done|]. intros s. by apply safe_ret. Qed.
Lemma calm_bind (m : M kernel A) (f : A -> M kernel B) : calm m -> (forall a, calm (f a)) -> calm (bind m f).
Proof.
  intros Hm Hf s. apply safe_bind. eapply safe_mono; [apply Hm| |done].
  intros a s1 Q. eapply safe_mono; [apply Hf| |done]. intros b s2 Q'. by transitivity s1.
Qed.

(** A calm call in a sequence. *)
Lemma safe_calm (m : M kernel A) s (Q : A -> kernel -> Prop) I :
  calm m -> (forall a s', quiet s s' -> Q a s') -> safe m s Q I procs_inv no_ref.
Proof.
  intros Hm HQ. specialize (Hm s). revert Hm. unfold safe. destruct (m s); cbn; auto. by intros [].
Qed.
Lemma calm_steady (m : M kernel A) : calm m -> steady m.
Proof. intros Hm s HI. apply safe_calm; [done|]. intros a s' Q. by apply (quiet_inv s). Qed.
Lemma steady_bind (m : M kernel A) (f : A -> M kernel B) : steady m -> (forall a, steady (f a)) -> steady (bind m f).
Proof.
  intros Hm Hf s HI. apply safe_bind. eapply safe_mono; [by apply Hm| |done]. intros a s1 H1. by apply Hf.
Qed.
Lemma steady_when b m : steady m -> steady (when b m).
Proof. intros H. destruct b; [done|]. intros s HI. by apply safe_ret. Qed.
Lemma safe_steady (m : M kernel A) s (Q : A -> kernel -> Prop) :
  steady m -> procs_inv s -> (forall a s', procs_inv s' -> Q a s') -> safe m s Q procs_out procs_inv no_ref.
Proof. intros Hm HI HQ. eapply safe_mono; [by apply Hm|done|done]. Qed.
End frame_rules.

Lemma key_alter g (i : nat) (l : list proc) : (forall p, key (g p) = key p) -> key <$> alter g i l = key <$> l.
Proof.
  intros Hg. apply list_eq. intros j. rewrite !list_lookup_fmap. destruct (decide (i = j)) as [->|Hne].
  - rewrite list_lookup_alter_eq. destruct (l !! j); cbn; [by rewrite Hg|done].
  - by rewrite list_lookup_alter_ne.
Qed.
Lemma calm_upd_proc i g : (forall p, key (g p) = key p) -> calm (upd_proc i g).
Proof. intros Hg. apply calm_modify. intros s. split; try done. by apply key_alter. Qed.
Lemma calm_upd_myproc g : (forall p, key (g p) = key p) -> calm (upd_myproc g).
Proof.
  intros Hg s. unfold upd_myproc. rewrite ?bind_gets. unfold safe, bind, gets. cbn.
  destruct (curproc s) as [i|] eqn:E; cbn; [|done]. split; cbn; try done. by apply key_alter.
Qed.

Create HintDb calm.
Create HintDb steady.
Ltac calm_step :=
  match goal with
  | |- calm (bind _ _) => apply calm_bind; [|intros ?]
  | |- calm (ret _) => apply calm_ret
  | |- calm get => apply calm_get
  | |- calm (gets _) => apply calm_gets
  | |- calm (panic _) => apply calm_panic; discriminate
  | |- calm spin => apply calm_spin
  | |- calm (modify _) => apply calm_modify; intros ?; solve [by split]
  | |- calm (upd_proc _ _) => apply calm_upd_proc; intros ?; solve [reflexivity]
  | |- calm (upd_myproc _) => apply calm_upd_myproc; intros ?; solve [reflexivity]
  | |- calm (when _ _) => apply calm_when
  | |- calm (if ?b then _ else _) => destruct b
  | |- calm (match ?x with _ => _ end) => destruct x
  | |- calm (let x := _ in _) => cbv zeta
  | |- calm _ => solve [eauto 2 with calm nocore]
  end.
Lemma steady_waiting {A} (f : nat -> M kernel A) : (forall n, steady (f n)) -> steady (waiting f).
Proof. intros Hf s. apply Hf. Qed.
Ltac calm_auto := repeat first [progress intros | progress cbv beta | calm_step].
Ltac steady_step :=
  match goal with
  | |- steady (bind _ _) => apply steady_bind; [|intros ?]
  | |- steady (when _ _) => apply steady_when
  | |- steady (waiting _) => apply steady_waiting; intros ?
  | |- steady (if ?b then _ else _) => destruct b
  | |- steady (match ?x with _ => _ end) => destruct x
  | |- steady (let x := _ in _) => cbv zeta
  | |- steady _ => solve [eauto 2 with steady nocore]
  | |- steady _ => apply calm_steady; solve [calm_step]
  end.
Ltac steady_auto := repeat first [progress intros | progress cbv beta | steady_step].

(** *** Calm functions *)
Lemma calm_acquire l : calm (acquire l).
Proof. intros s. unfold safe, acquire. destruct (holding l s); cbn; [discriminate|by split]. Qed.
Lemma calm_release l : calm (release l).
Proof. intros s. unfold safe, release. destruct (holding l s); cbn; [by split|discriminate]. Qed.
Lemma calm_myproc : calm myproc.
Proof. unfold myproc. calm_auto. Qed.
Lemma calm_deref {A} (o : option A) : calm (deref o).
Proof. unfold deref. calm_auto. Qed.
#[local] Hint Resolve calm_acquire calm_release calm_myproc calm_deref : calm.

Lemma calm_cprintf fmt args : calm (cprintf fmt args).
Proof.
  assert (P : forall c, calm (consputc c)).
  { intros c. unfold consputc, cgaputc, uartputc. calm_auto. }
  assert (Ps : forall l, calm (consputs l)) by (induction l; cbn [consputs]; calm_auto; auto).
  assert (Pt : forall l, calm (putstr l)) by (induction l; cbn [putstr]; calm_auto; auto).
  assert (L : forall n f a, (length f <= n)%nat -> calm (cprintf_loop f a)).
  { induction n as [|n IH]; intros f a Hn.
    - destruct f; cbn in *; [|lia]. apply calm_ret.
    - destruct f as [|c f]; cbn [cprintf_loop]; [apply calm_ret|]. unfold printint.
      calm_auto; try (apply IH; cbn in *; lia); auto. }
  unfold cprintf. calm_auto. by eapply L.
Qed.
#[local] Hint Resolve calm_cprintf : calm.

Section frames.
Context `{Linker} `{CodeSyms}.

Lemma calm_kfree v : calm (kfree v).
Proof. unfold kfree. calm_auto. Qed.
Lemma calm_kalloc : calm kalloc.
Proof. unfold kalloc. calm_auto. Qed.
#[local] Hint Resolve calm_kfree calm_kalloc : calm.

(** Page tables. *)
Lemma calm_walkpgdir d va c : calm (walkpgdir d va c).
Proof. unfold walkpgdir, load32, store32, memset_m. calm_auto. Qed.
#[local] Hint Resolve calm_walkpgdir : calm.
Lemma calm_mappages d la size pa perm : calm (mappages d la size pa perm).
Proof.
  assert (L : forall fuel a last pa, calm (mappages_loop fuel d a last pa perm)).
  { induction fuel as [|fuel IH]; intros a last pa'; cbn [mappages_loop]; unfold load32, store32; calm_auto; auto. }
  unfold mappages. calm_auto; apply L.
Qed.
#[local] Hint Resolve calm_mappages : calm.
Lemma calm_setupkvm : calm setupkvm.
Proof.
  assert (L : forall d ks, calm (setupkvm_loop d ks)).
  { intros d. induction ks as [|[[] ] ks IH]; cbn [setupkvm_loop]; calm_auto; auto. }
  unfold setupkvm, memset_m. calm_auto; apply L.
Qed.
Lemma calm_switchuvm p : calm (switchuvm p).
Proof. unfold switchuvm, store32. calm_auto. Qed.
Lemma calm_deallocuvm d o n : calm (deallocuvm d o n).
Proof.
  assert (L : forall fuel a, calm (deallocuvm_loop fuel d o a)).
  { induction fuel as [|fuel IH]; intros a; cbn [deallocuvm_loop]; unfold load32, store32; calm_auto; auto. }
  unfold deallocuvm. calm_auto; apply L.
Qed.
#[local] Hint Resolve calm_setupkvm calm_switchuvm calm_deallocuvm : calm.
Lemma calm_allocuvm d o n : calm (allocuvm d o n).
Proof.
  assert (L : forall fuel a, calm (allocuvm_loop fuel d o n a)).
  { induction fuel as [|fuel IH]; intros a; cbn [allocuvm_loop]; unfold memset_m; calm_auto; auto. }
  unfold allocuvm. calm_auto; apply L.
Qed.
Lemma calm_freevm d : calm (freevm d).
Proof.
  assert (L : forall idx, calm (freevm_loop d idx)).
  { induction idx as [|i idx IH]; cbn [freevm_loop]; unfold load32; calm_auto; auto. }
  unfold freevm. calm_auto; apply L.
Qed.
Lemma calm_uva2ka d va : calm (uva2ka d va).
Proof. unfold uva2ka, load32. calm_auto. Qed.
#[local] Hint Resolve calm_allocuvm calm_freevm calm_uva2ka : calm.
Lemma calm_copyuvm d sz : calm (copyuvm d sz).
Proof.
  assert (L : forall fuel d' i, calm (copyuvm_loop fuel d d' sz i)).
  { induction fuel as [|fuel IH]; intros d' i; cbn [copyuvm_loop]; unfold load32, memmove_m; calm_auto; auto. }
  unfold copyuvm. calm_auto; apply L.
Qed.
Lemma calm_copyout d va p : calm (copyout d va p).
Proof.
  assert (L : forall fuel v l, calm (copyout_loop fuel d v l)).
  { induction fuel as [|fuel IH]; intros v l; cbn [copyout_loop]; calm_auto; auto. }
  unfold copyout. calm_auto; apply L.
Qed.
#[local] Hint Resolve calm_copyuvm calm_copyout : calm.

(** Shared memory. *)
Lemma calm_shm_add_count mask : calm (shm_add_count mask).
Proof.
  assert (L : forall keys, calm (shm_add_count_loop keys mask)).
  { induction keys as [|k keys IH]; cbn [shm_add_count_loop]; unfold upd_shm; calm_auto; auto. }
  apply L.
Qed.
Lemma calm_deallocshm d o n : calm (deallocshm d o n).
Proof.
  assert (L : forall fuel a, calm (deallocshm_loop fuel d o a)).
  { induction fuel as [|fuel IH]; intros a; cbn [deallocshm_loop]; unfold load32, store32; calm_auto; auto. }
  unfold deallocshm. calm_auto; apply L.
Qed.
#[local] Hint Resolve calm_shm_add_count calm_deallocshm : calm.
Lemma calm_allocshm d o n sz l : calm (allocshm d o n sz l).
Proof.
  assert (L : forall fuel a i l, calm (allocshm_loop fuel d o n a i l)).
  { induction fuel as [|fuel IH]; intros a i l'; cbn [allocshm_loop]; unfold memset_m; calm_auto; auto. }
  unfold allocshm. calm_auto; apply L.
Qed.
Lemma calm_copyshm d shm d' : calm (copyshm d shm d').
Proof.
  assert (L : forall fuel i, calm (copyshm_loop fuel d shm d' i)).
  { induction fuel as [|fuel IH]; intros i; cbn [copyshm_loop]; unfold load32; calm_auto; auto. }
  unfold copyshm. calm_auto; apply L.
Qed.
Lemma calm_mapshm d o n sz l : calm (mapshm d o n sz l).
Proof.
  assert (L : forall fuel a i, calm (mapshm_loop fuel d o a i l)).
  { induction fuel as [|fuel IH]; intros a i; cbn [mapshm_loop]; calm_auto; auto. }
  unfold mapshm. calm_auto; apply L.
Qed.
#[local] Hint Resolve calm_allocshm calm_copyshm calm_mapshm : calm.
Lemma calm_shmgetat junk k n : calm (shmgetat junk k n).
Proof. unfold shmgetat, shm_add, upd_shm. calm_auto. Qed.
Lemma calm_shm_release d shm mask : calm (shm_release d shm mask).
Proof.
  assert (F : forall l, calm (kfree_all l)) by (induction l; cbn [kfree_all]; calm_auto; auto).
  assert (L : forall keys, calm (shm_release_loop keys mask)).
  { induction keys as [|k keys IH]; cbn [shm_release_loop]; unfold shm_rm, upd_shm; calm_auto; auto. }
  unfold shm_release. calm_auto; apply L.
Qed.
Lemma calm_shm_refcount k : calm (shm_refcount k).
Proof. unfold shm_refcount. calm_auto. Qed.
#[local] Hint Resolve calm_shmgetat calm_shm_release calm_shm_refcount : calm.

(** Waking up. *)
Lemma key_fmap g (l : list proc) : (forall p, key (g p) = key p) -> key <$> (g <$> l) = key <$> l.
Proof. intros Hg. rewrite <- list_fmap_compose. apply list_fmap_ext. intros i p _. apply Hg. Qed.
Lemma key_wake_proc c p : key (wake_proc c p) = key p.
Proof.
  unfold wake_proc, key. destruct (bool_decide_reflect (p_state p = SLEEPING)) as [E|E]; cbn; [|done].
  rewrite E. by destruct (bool_decide _); cbn; rewrite ?E.
Qed.
Lemma calm_wakeup1 c : calm (wakeup1 c).
Proof. apply calm_modify. intros s. split; try done. apply key_fmap, key_wake_proc. Qed.
#[local] Hint Resolve calm_wakeup1 : calm.
Lemma calm_wakeup c : calm (wakeup c).
Proof. unfold wakeup. calm_auto. Qed.
Lemma calm_kill pid : calm (kill pid).
Proof.
  unfold kill. calm_auto. apply calm_upd_proc. intros p. destruct (decide (p_state p = SLEEPING)) as [E|E]; [|done].
  unfold key. cbn. by rewrite E.
Qed.
Lemma calm_update_ticks : calm update_ticks.
Proof. unfold update_ticks. calm_auto. Qed.
#[local] Hint Resolve calm_wakeup calm_kill calm_update_ticks : calm.

(** The disk and the buffer cache. *)
Lemma calm_idestart b : calm (idestart b).
Proof. unfold idestart, idewait. calm_auto. Qed.
#[local] Hint Resolve calm_idestart : calm.
Lemma calm_ideintr : calm ideintr.
Proof. unfold ideintr, idewait, upd_buf. calm_auto. Qed.
Lemma calm_link b : calm (link b).
Proof.
  assert (L : forall fuel p, calm (queue_last fuel p)).
  { induction fuel as [|fuel IH]; intros p; cbn [queue_last]; calm_auto; auto. }
  unfold link, upd_buf. calm_auto; apply L.
Qed.
Lemma calm_brelse b : calm (brelse b).
Proof. unfold brelse, to_front, set_next, set_prev, get_next, get_prev, upd_buf. calm_auto. Qed.
#[local] Hint Resolve calm_ideintr calm_link calm_brelse : calm.
Lemma calm_bget_cached fuel dev sector : forall b, calm (bget_cached fuel b dev sector).
Proof. induction fuel as [|fuel IH]; intros b; cbn [bget_cached]; unfold get_next; calm_auto; auto. Qed.
Lemma calm_bget_fresh fuel : forall b, calm (bget_fresh fuel b).
Proof. induction fuel as [|fuel IH]; intros b; cbn [bget_fresh]; unfold get_prev; calm_auto; auto. Qed.
#[local] Hint Resolve calm_bget_cached calm_bget_fresh : calm.

(** User memory. *)
Lemma calm_vload va : calm (vload va).
Proof. unfold vload. calm_auto. Qed.
Lemma calm_vstore va v : calm (vstore va v).
Proof. unfold vstore. calm_auto. Qed.
#[local] Hint Resolve calm_vload calm_vstore : calm.
Lemma calm_vread n : forall va, calm (vread va n).
Proof. induction n as [|n IH]; intros va; cbn [vread]; calm_auto; auto. Qed.
Lemma calm_vwrite l : forall va, calm (vwrite va l).
Proof. induction l as [|c l IH]; intros va; cbn [vwrite]; calm_auto; auto. Qed.
#[local] Hint Resolve calm_vread calm_vwrite : calm.
Lemma calm_store_to dst tot l : calm (store_to dst tot l).
Proof. unfold store_to. calm_auto. Qed.
Lemma calm_load_from src tot m : calm (load_from src tot m).
Proof. unfold load_from. calm_auto. Qed.
#[local] Hint Resolve calm_store_to calm_load_from : calm.

(** Inodes, files and pipes that do not sleep. *)
Lemma calm_iget dev inum : calm (iget dev inum).
Proof. unfold iget, upd_inode. calm_auto. Qed.
Lemma calm_idup ip : calm (idup ip).
Proof. unfold idup, upd_inode. calm_auto. Qed.
Lemma calm_iunlock ip : calm (iunlock ip).
Proof. unfold iunlock, upd_inode. calm_auto. Qed.
Lemma calm_filealloc : calm filealloc.
Proof. unfold filealloc, upd_file. calm_auto. Qed.
Lemma calm_filedup f : calm (filedup f).
Proof. unfold filedup, upd_file. calm_auto. Qed.
Lemma calm_pipeclose p w : calm (pipeclose p w).
Proof. unfold pipeclose, upd_pipe, pipe_at. calm_auto. Qed.
#[local] Hint Resolve calm_iget calm_idup calm_iunlock calm_filealloc calm_filedup calm_pipeclose : calm.

(** Console input. *)
Lemma calm_consputc c : calm (consputc c).
Proof. unfold consputc, cgaputc, uartputc. calm_auto. Qed.
#[local] Hint Resolve calm_consputc : calm.
Lemma calm_consputs l : calm (consputs l).
Proof. induction l; cbn [consputs]; calm_auto; auto. Qed.
#[local] Hint Resolve calm_consputs : calm.
Lemma calm_procdump : calm procdump.
Proof.
  assert (P : forall l, calm (dump_pcs l)) by (induction l; cbn [dump_pcs]; calm_auto; auto).
  assert (L : forall l, calm (procdump_loop l)) by (induction l; cbn [procdump_loop]; calm_auto; auto).
  unfold procdump. calm_auto; apply L.
Qed.
Lemma calm_kill_line fuel : calm (kill_line fuel).
Proof. induction fuel as [|fuel IH]; cbn [kill_line]; unfold upd_input; calm_auto; auto. Qed.
#[local] Hint Resolve calm_procdump calm_kill_line : calm.
Lemma calm_console_char c : calm (console_char c).
Proof. unfold console_char, upd_input. calm_auto. Qed.
#[local] Hint Resolve calm_console_char : calm.
Lemma calm_consoleintr getc bytes : (forall b, calm (getc b)) -> calm (consoleintr getc bytes).
Proof.
  intros G. assert (L : forall l, calm (consoleintr_loop getc l)) by (induction l; cbn [consoleintr_loop]; calm_auto; auto).
  unfold consoleintr. calm_auto; apply L.
Qed.
Lemma calm_kbdintr bytes : calm (kbdintr bytes).
Proof. apply calm_consoleintr. intros b. unfold kbdgetc. calm_auto. Qed.
Lemma calm_uartintr bytes : calm (uartintr bytes).
Proof. apply calm_consoleintr. intros b. unfold uartgetc. calm_auto. Qed.
#[local] Hint Resolve calm_kbdintr calm_uartintr : calm.

(** *** Sleeping *)

(** An update of the current process, which is live. *)
Lemma steady_upd_live g : (forall p, kind (p_state p) = KLive -> key (g p) = key p) -> steady (upd_myproc g).
Proof.
  intros Hg s HI. unfold upd_myproc, safe, bind, gets. cbn. destruct (curproc s) as [i|] eqn:Ec; cbn; [|done].
  destruct (pv_cur _ _ _ _ HI i Ec) as (d & n & Ei). rewrite list_lookup_fmap in Ei.
  destruct (ptable s !! i) as [p|] eqn:Ep; [|done]. injection Ei as Ek Ed En.
  apply (quiet_inv s); [|done]. split; cbn; try done. rewrite (list_alter_lookup _ _ _ _ Ep), list_fmap_insert, Hg by done.
  apply list_insert_id. by rewrite list_lookup_fmap, Ep.
Qed.
Lemma steady_switch : steady switch.
Proof. intros s HI. apply safe_switch; [by apply procs_inv_out|]. intros s' HI'. done. Qed.
#[local] Hint Resolve steady_switch : steady.
Lemma steady_sched : steady sched.
Proof. unfold sched. steady_auto. Qed.
#[local] Hint Resolve steady_sched : steady.
Lemma steady_sleep c lk : steady (sleep c lk).
Proof. unfold sleep. steady_auto. apply steady_upd_live. intros p E. unfold key. cbn. by rewrite E. Qed.
Lemma steady_yield : steady yield.
Proof. unfold yield. steady_auto. apply steady_upd_live. intros p E. unfold key. cbn. by rewrite E. Qed.
#[local] Hint Resolve steady_sleep steady_yield : steady.

(** *** The file system *)
Lemma steady_iderw b : steady (iderw b).
Proof.
  assert (L : forall fuel, steady (iderw_wait fuel b)) by (induction fuel; cbn [iderw_wait]; steady_auto; auto).
  unfold iderw. steady_auto; apply L.
Qed.
#[local] Hint Resolve steady_iderw : steady.
Lemma steady_bread dev sector : steady (bread dev sector).
Proof.
  assert (L : forall fuel, steady (bget_loop fuel dev sector)).
  { induction fuel; cbn [bget_loop]; unfold get_next, get_prev, upd_buf; steady_auto; auto. }
  unfold bread, bget. steady_auto; apply L.
Qed.
Lemma steady_bwrite b : steady (bwrite b).
Proof. unfold bwrite, upd_buf. steady_auto. Qed.
#[local] Hint Resolve steady_bread steady_bwrite : steady.
Lemma steady_readsb dev : steady (readsb dev).
Proof. unfold readsb, data_of. steady_auto. Qed.
Lemma steady_bzero dev b : steady (bzero dev b).
Proof. unfold bzero, set_data, upd_buf. steady_auto. Qed.
#[local] Hint Resolve steady_readsb steady_bzero : steady.
Lemma steady_balloc dev : steady (balloc dev).
Proof.
  assert (L : forall fuel b sb, steady (balloc_loop fuel dev b sb)).
  { induction fuel; intros b sb; cbn [balloc_loop]; unfold data_of, set_data, upd_buf; steady_auto; auto. }
  unfold balloc. steady_auto; apply L.
Qed.
Lemma steady_bfree dev b : steady (bfree dev b).
Proof. unfold bfree, data_of, set_data, upd_buf. steady_auto. Qed.
#[local] Hint Resolve steady_balloc steady_bfree : steady.
Lemma steady_ialloc dev type : steady (ialloc dev type).
Proof.
  assert (L : forall fuel inum n, steady (ialloc_loop fuel dev inum n type)).
  { induction fuel; intros inum n; cbn [ialloc_loop]; unfold data_of, set_data, upd_buf; steady_auto; auto. }
  unfold ialloc. steady_auto; apply L.
Qed.
Lemma steady_iupdate ip : steady (iupdate ip).
Proof. unfold iupdate, data_of, set_data, upd_buf. steady_auto. Qed.
Lemma steady_ilock ip : steady (ilock ip).
Proof.
  assert (L : forall fuel i, steady (ilock_wait fuel i)).
  { induction fuel; intros i; cbn [ilock_wait]; steady_auto; auto. }
  unfold ilock, data_of, upd_inode. steady_auto; apply L.
Qed.
Lemma steady_bmap ip bn : steady (bmap ip bn).
Proof. unfold bmap, addr_at, set_addr, upd_inode, data_of, set_data, upd_buf. steady_auto. Qed.
#[local] Hint Resolve steady_ialloc steady_iupdate steady_ilock steady_bmap : steady.
Lemma steady_itrunc ip : steady (itrunc ip).
Proof.
  assert (D : forall l, steady (itrunc_direct ip l)).
  { induction l; cbn [itrunc_direct]; unfold addr_at, set_addr, upd_inode; steady_auto; auto. }
  assert (L : forall dev bp l, steady (itrunc_indirect dev bp l)).
  { induction l; cbn [itrunc_indirect]; unfold data_of; steady_auto; auto. }
  unfold itrunc, addr_at, set_addr, upd_inode. steady_auto; apply L.
Qed.
#[local] Hint Resolve steady_itrunc : steady.
Lemma steady_iput ip : steady (iput ip).
Proof. unfold iput, upd_inode. steady_auto. Qed.
#[local] Hint Resolve steady_iput : steady.
Lemma steady_iunlockput ip : steady (iunlockput ip).
Proof. unfold iunlockput. steady_auto. Qed.
Lemma steady_set_checksum ip bn c : steady (set_checksum ip bn c).
Proof. unfold set_checksum, addr_at, set_addr, upd_inode, data_of, set_data, upd_buf. steady_auto. Qed.
Lemma steady_stati ip : steady (stati ip).
Proof. unfold stati, aggregate_checksum, addr_at, data_of. steady_auto. Qed.
#[local] Hint Resolve steady_iunlockput steady_set_checksum steady_stati : steady.

(** The console as a device. *)
Lemma steady_consoleread ip dst n : steady (consoleread ip dst n).
Proof.
  assert (W : forall fuel, steady (input_wait fuel)) by (induction fuel; cbn [input_wait]; steady_auto; auto).
  assert (L : forall fuel n t acc, steady (consoleread_loop fuel dst n t acc)).
  { induction fuel; intros n' t acc; cbn [consoleread_loop]; unfold upd_input; steady_auto; auto. }
  unfold consoleread. steady_auto; apply L.
Qed.
Lemma steady_consolewrite ip src n : steady (consolewrite ip src n).
Proof.
  assert (L : forall k i, calm (consolewrite_loop src i k)).
  { induction k as [|k IH]; intros i; cbn [consolewrite_loop]; calm_auto; auto. }
  unfold consolewrite. steady_auto.
Qed.
#[local] Hint Resolve steady_consoleread steady_consolewrite : steady.

(** Reading and writing files. *)
Lemma steady_readi ip dst off n : steady (readi ip dst off n).
Proof.
  assert (L : forall fuel o k tot acc, steady (readi_loop fuel ip dst o k tot acc)).
  { induction fuel; intros o k tot acc; cbn [readi_loop]; unfold data_of; steady_auto; auto. }
  unfold readi. steady_auto; apply L.
Qed.
Lemma steady_writei ip src off n : steady (writei ip src off n).
Proof.
  assert (L : forall fuel o k tot, steady (writei_loop fuel ip src o k tot)).
  { induction fuel; intros o k tot; cbn [writei_loop]; unfold data_of, set_data, upd_buf; steady_auto; auto. }
  unfold writei, upd_inode. steady_auto; apply L.
Qed.
#[local] Hint Resolve steady_readi steady_writei : steady.
Lemma steady_dirlookup dp name : steady (dirlookup dp name).
Proof.
  assert (L : forall fuel off, steady (dirlookup_loop fuel dp name off)).
  { induction fuel; intros off; cbn [dirlookup_loop]; unfold data_of; steady_auto; auto. }
  unfold dirlookup. steady_auto; apply L.
Qed.
#[local] Hint Resolve steady_dirlookup : steady.
Lemma steady_dirlink dp name inum : steady (dirlink dp name inum).
Proof.
  assert (L : forall fuel off, steady (dirlink_loop fuel dp off)).
  { induction fuel; intros off; cbn [dirlink_loop]; steady_auto; auto. }
  unfold dirlink. steady_auto; apply L.
Qed.
Lemma steady_namex path b : steady (namex path b).
Proof.
  assert (L : forall fuel ip l name, steady (namex_loop fuel ip l b name)).
  { induction fuel; intros ip l name; cbn [namex_loop]; steady_auto; auto. }
  unfold namex. steady_auto; apply L.
Qed.
#[local] Hint Resolve steady_dirlink steady_namex : steady.
Lemma steady_namei path : steady (namei path).
Proof. unfold namei. steady_auto. Qed.
Lemma steady_nameiparent path : steady (nameiparent path).
Proof. unfold nameiparent. steady_auto. Qed.
#[local] Hint Resolve steady_namei steady_nameiparent : steady.

(** Pipes and files. *)
Lemma steady_pipewrite p addr n : steady (pipewrite p addr n).
Proof.
  assert (W : forall fuel, steady (pipe_wait_room fuel p)).
  { induction fuel; cbn [pipe_wait_room]; unfold pipe_at; steady_auto; auto. }
  assert (L : forall k a, steady (pipewrite_loop p a k)).
  { induction k as [|k IH]; intros a; cbn [pipewrite_loop]; unfold upd_pipe; steady_auto; auto. }
  unfold pipewrite. steady_auto; apply L.
Qed.
Lemma steady_piperead p addr n : steady (piperead p addr n).
Proof.
  assert (W : forall fuel, steady (pipe_wait_data fuel p)).
  { induction fuel; cbn [pipe_wait_data]; unfold pipe_at; steady_auto; auto. }
  assert (L : forall k a i, steady (piperead_loop p a i k)).
  { induction k as [|k IH]; intros a i; cbn [piperead_loop]; unfold pipe_at, upd_pipe; steady_auto; auto. }
  unfold piperead. steady_auto; auto.
Qed.
#[local] Hint Resolve steady_pipewrite steady_piperead : steady.
Lemma steady_fileclose f : steady (fileclose f).
Proof. unfold fileclose, upd_file. steady_auto. Qed.
Lemma steady_filestat f : steady (filestat f).
Proof. unfold filestat. steady_auto. Qed.
Lemma steady_fileread f addr n : steady (fileread f addr n).
Proof. unfold fileread, upd_file. steady_auto. Qed.
Lemma steady_filewrite f addr n : steady (filewrite f addr n).
Proof. unfold filewrite, upd_file. steady_auto. Qed.
#[local] Hint Resolve steady_fileclose steady_filestat steady_fileread steady_filewrite : steady.
Lemma steady_pipealloc : steady pipealloc.
Proof. unfold pipealloc, pipealloc_bad, upd_file, upd_pipe. steady_auto. Qed.
#[local] Hint Resolve steady_pipealloc : steady.

(** *** Creating processes *)
Lemma osafe_weaken {A} (m : M kernel A) s (Q : A -> kernel -> Prop) (I I' : kernel -> Prop) E :
  safe m s Q I procs_inv E -> (forall s', I s' -> I' s') -> safe m s Q I' procs_inv E.
Proof.
  unfold safe. intros Hm HI. induction (m s) as [| |s1 k IH|]; cbn in *; auto. destruct Hm as [H1 H2].
  split; [by apply HI|]. intros s2 HJ. by apply IH, H2.
Qed.

(** A calm call in a sequence, under a condition that only depends on what calm code keeps. *)
Definition stable (P : kernel -> Prop) : Prop := forall s s', quiet s s' -> P s -> P s'.
Lemma safe_bind_calm {A B} (m : M kernel A) (f : A -> M kernel B) s (P : kernel -> Prop) Q I :
  calm m -> stable P -> P s -> (forall a s', P s' -> safe (f a) s' Q I procs_inv no_ref) ->
  safe (bind m f) s Q I procs_inv no_ref.
Proof.
  intros Hm HP Hs Hf. apply safe_bind, safe_calm; [done|]. intros a s' Hq. by apply Hf, (HP s).
Qed.

(** The slot [np] is being set up. *)
Definition embryo (np : nat) (d n : Z) (s : kernel) : Prop :=
  procs_inv s /\ (key <$> ptable s) !! np = Some (KEmbryo, d, n).
Lemma stable_embryo np d n : stable (embryo np d n).
Proof. intros s s' Q [H1 H2]. split; [by apply (quiet_inv s)|]. by rewrite (q_keys _ _ Q). Qed.
(** The process [i] is a zombie. *)
Definition zombie (i : nat) (d n : Z) (s : kernel) : Prop :=
  procs_inv s /\ (key <$> ptable s) !! i = Some (KZombie, d, n).
Lemma stable_zombie i d n : stable (zombie i d n).
Proof. intros s s' Q [H1 H2]. split; [by apply (quiet_inv s)|]. by rewrite (q_keys _ _ Q). Qed.

(** The zombie [i] has given back its share of the address space, but not its slot. *)
Definition reaping (i : nat) (d : Z) (s : kernel) : Prop :=
  exists t n0, pinv (key <$> ptable s) t (nextpid s) (curproc s) /\ (key <$> ptable s) !! i = Some (KZombie, d, n0) /\
    refs_ok (pgdir_table s) /\ length (pgdir_table s) = length t /\
    forall ds, omap live_dir (key <$> ptable s) ≡ₚ d :: ds -> refs_match (pgdir_table s) ds.
Lemma stable_reaping i d : stable (reaping i d).
Proof. intros s s' [E1 E2 E3 E4]. unfold reaping. by rewrite E1, E2, E3, E4. Qed.

Lemma stable_inv : stable procs_inv.
Proof. intros s s'. apply quiet_inv. Qed.

(** The table of keys after an update of one process. *)
Lemma keys_update (g : proc -> proc) np s k : (key <$> ptable s) !! np = Some k ->
  exists p, ptable s !! np = Some p /\ key p = k /\
    key <$> ptable (s <| ptable ::= alter g np |>) = <[np := key (g p)]> (key <$> ptable s).
Proof.
  rewrite list_lookup_fmap. destruct (ptable s !! np) as [p|] eqn:E; [|done]. intros [= <-]. exists p.
  split_and!; [done|done|]. cbn. by rewrite (list_alter_lookup _ _ _ _ E), list_fmap_insert.
Qed.

Lemma find_unused pt np : find_proc (fun p => bool_decide (p_state p = UNUSED)) 0 pt = Some np ->
  exists d n, (key <$> pt) !! np = Some (KFree, d, n).
Proof.
  intros (j & p & -> & Hj & Hp & _)%find_proc_Some. apply bool_decide_eq_true in Hp. cbn.
  exists (p_pgdir p), (p_pid p). rewrite list_lookup_fmap, Hj. cbn. unfold key. by rewrite Hp.
Qed.

Lemma safe_allocproc s : procs_inv s ->
  safe allocproc s (fun r s' => procs_inv s' /\ forall np, r = Some np -> exists d n, embryo np d n s')
    (fun _ => False) procs_inv no_ref.
Proof.
  intros HI. unfold allocproc. eapply (safe_bind_calm _ _ _ procs_inv); [calm_step|apply stable_inv|done|].
  intros _ s1 H1. apply safe_gets.
  destruct (find_proc _ 0 (ptable s1)) as [np|] eqn:E.
  2:{ eapply (safe_bind_calm _ _ _ procs_inv); [calm_step|apply stable_inv|done|]. intros _ s2 H2. apply safe_ret. by split. }
  destruct (find_unused _ _ E) as (d & n & Hk). apply safe_gets. unfold upd_proc at 1. apply safe_modify, safe_modify.
  destruct (keys_update (fun p => p <| p_state := EMBRYO |> <| p_pid := s32 (nextpid s1) |>) np s1 _ Hk) as (p & Hp & Ek & Eks).
  set (s2 := _ <| nextpid ::= Z.succ |>).
  assert (H2 : embryo np d (s32 (nextpid s1)) s2).
  { injection Ek as _ Ed _. unfold key in Eks at 2. cbn in Eks. rewrite Ed in Eks. unfold embryo, procs_inv, s2. cbn.
    rewrite Eks. split; [by apply (pinv_alloc _ _ _ _ _ d n)|].
    apply list_lookup_insert_eq. by eapply lookup_lt_Some. }
  clearbody s2.
  eapply (safe_bind_calm _ _ _ _); [calm_step|apply (stable_embryo np d (s32 (nextpid s1)))|exact H2|]. intros _ s3 H3.
  eapply (safe_bind_calm _ _ _ _); [calm_step|apply (stable_embryo np d (s32 (nextpid s1)))|exact H3|]. intros _ s4 H4.
  eapply (safe_bind_calm _ _ _ _); [calm_step|apply (stable_embryo np d (s32 (nextpid s1)))|exact H4|]. intros k s5 H5.
  eapply (safe_bind_calm _ _ _ _); [calm_step|apply (stable_embryo np d (s32 (nextpid s1)))|exact H5|]. intros _ s6 H6.
  destruct (k =? 0).
  - unfold upd_proc. apply safe_modify. apply safe_ret. destruct H6 as [H6 Hk6].
    destruct (keys_update (fun p => p <| p_state := UNUSED |>) np s6 _ Hk6) as (p6 & Hp6 & Ek6 & Eks6).
    injection Ek6 as _ Ed6 En6. split; [|done]. unfold procs_inv. rewrite Eks6. unfold key at 1. cbn.
    rewrite Ed6. by apply (pinv_abandon _ _ _ _ _ d (s32 (nextpid s1))).
  - eapply (safe_bind_calm _ _ _ _); [calm_step|apply (stable_embryo np d (s32 (nextpid s1)))|exact H6|].
    intros _ s7 H7. apply safe_ret. split; [apply H7|]. intros np' [= <-]. by exists d, (s32 (nextpid s1)).
Qed.

(** [np->pgdir = d'] *)
Lemma embryo_setdir np d d' n s : embryo np d n s ->
  embryo np d' n (s <| ptable ::= alter (fun p => p <| p_pgdir := d' |>) np |>).
Proof.
  intros [H1 Hk]. destruct (keys_update (fun p => p <| p_pgdir := d' |>) np s _ Hk) as (p & Hp & Ek & Eks).
  injection Ek as E1 E2 E3. unfold embryo, procs_inv. rewrite Eks. unfold key at 1 3. cbn. rewrite E1, E3.
  split; [by apply (pinv_setdir _ _ _ _ _ d)|]. apply list_lookup_insert_eq. by eapply lookup_lt_Some.
Qed.

(** Giving up a slot. *)
Lemma embryo_abandon np d n s g : embryo np d n s ->
  (forall p, p_state (g p) = UNUSED /\ p_pgdir (g p) = p_pgdir p) ->
  procs_inv (s <| ptable ::= alter g np |>).
Proof.
  intros [H1 Hk] Hg. destruct (keys_update g np s _ Hk) as (p & Hp & Ek & Eks). injection Ek as _ E2 _.
  unfold procs_inv. rewrite Eks. destruct (Hg p) as [G1 G2]. unfold key at 1. rewrite G1, G2, E2. cbn.
  by apply (pinv_abandon _ _ _ _ _ d n).
Qed.

(** [np->state = RUNNABLE; add_ref(np->pgdir)] *)
Lemma safe_start {A} np d n s g (k : M kernel A) Q I :
  embryo np d n s -> (forall p, key (g p) = (KLive, p_pgdir p, p_pid p)) -> (forall s', procs_inv s' -> safe k s' Q I procs_inv no_ref) ->
  safe (upd_proc np g ;; add_ref d ;; k) s Q I procs_inv no_ref.
Proof.
  intros [H1 Hk] Hg HQ. unfold upd_proc. apply safe_modify.
  destruct (keys_update g np s _ Hk) as (p & Hp & Ek & Eks).
  injection Ek as _ E2 E3. set (s1 := s <| ptable ::= _ |>) in *.
  destruct (add_ref_run s1 d (omap live_dir (key <$> ptable s)) (pv_refs _ _ _ _ H1) (pv_match _ _ _ _ H1))
    as (t' & Ea & Ht & Hm & Hl).
  { by apply (pinv_room _ _ _ _ np KEmbryo d n H1 Hk (or_intror eq_refl)). }
  apply safe_bind. eapply safe_run; [exact Ea|]. apply HQ. unfold procs_inv.
  change (ptable (s1 <| pgdir_table := t' |>)) with (ptable s1). rewrite Eks, Hg, E2, E3.
  by apply (pinv_start _ (pgdir_table s)).
Qed.

Lemma calm_proc_at i : calm (proc_at i).
Proof. unfold proc_at. calm_auto. Qed.
#[local] Hint Resolve calm_proc_at : calm.
Lemma calm_dup_files np fds : calm (dup_files np fds).
Proof. induction fds as [|fd fds IH]; cbn [dup_files]; calm_auto; auto. Qed.
#[local] Hint Resolve calm_dup_files : calm.

Ltac go P := eapply (safe_bind_calm _ _ _ P);
  [calm_auto|first [apply stable_inv | apply stable_embryo | apply stable_zombie | apply stable_reaping]|eassumption|].
Lemma embryo_at np d n s : embryo np d n s -> p_pgdir (default proc0 (ptable s !! np)) = d.
Proof.
  intros [_ Hk]. rewrite list_lookup_fmap in Hk. destruct (ptable s !! np); [|done]. injection Hk as _ E _. done.
Qed.

(** The end of [fork], and of [clone] up to the stack. *)
Lemma safe_publish {A} np d n s (me : proc) cwd (h : proc -> M kernel A) Q I :
  embryo np d n s -> (forall q s', p_pgdir q = d -> procs_inv s' -> safe (h q) s' Q I procs_inv no_ref) ->
  safe (let! c := deref cwd in
        let! c := idup c in
        upd_proc np (fun p => p <| p_cwd := Some c |>) ;;
        let! q := proc_at np in
        upd_proc np (fun p => p <| p_state := RUNNABLE |>) ;;
        add_ref (p_pgdir q) ;;
        upd_proc np (fun p => p <| p_name ::= fun n => safestrcpy n (p_name me) 16 |>) ;;
        h q) s Q I procs_inv no_ref.
Proof.
  intros Hs Hh. go (embryo np d n). intros c s1 H1. go (embryo np d n). intros c' s2 H2.
  go (embryo np d n). intros _ s3 H3. unfold proc_at. apply safe_gets. cbv beta. pose proof (embryo_at np d n s3 H3) as Eq.
  set (q := default proc0 (ptable s3 !! np)) in *. clearbody q. rewrite Eq. eapply safe_start; [exact H3|done|]. intros s4 H4. go procs_inv. intros _ s5 H5.
  by apply Hh.
Qed.

Lemma safe_fork s : procs_inv s -> safe fork s (fun _ s' => procs_inv s') (fun _ => False) procs_inv no_ref.
Proof.
  intros HI. unfold fork. apply safe_bind. eapply safe_mono; [by apply safe_allocproc| |done].
  intros r s1 [H1 Hr]. destruct r as [np|]; [|by apply safe_ret]. destruct (Hr np eq_refl) as (d0 & n & H2). clear H1 Hr.
  go (embryo np d0 n). intros me s2 H3. go (embryo np d0 n). intros d s3 H4.
  unfold upd_proc at 1. apply safe_modify. apply (embryo_setdir np d0 d n) in H4. set (s4 := s3 <| ptable ::= _ |>) in *.
  clearbody s4. go (embryo np d n). intros bad s5 H5. destruct bad.
  - go (embryo np d n). intros q s6 H6. go (embryo np d n). intros _ s7 H7. unfold upd_proc. apply safe_modify, safe_ret.
    eapply embryo_abandon; [exact H7|done].
  - go (embryo np d n). intros _ s6 H6. apply safe_gets. go (embryo np d n). intros _ s7 H7.
    go (embryo np d n). intros _ s8 H8. eapply (safe_publish np d n); [exact H8|].
    intros q s9 _ H9. by apply safe_ret.
Qed.

Lemma safe_clone f a st s : procs_inv s -> safe (clone f a st) s (fun _ s' => procs_inv s') (fun _ => False) procs_inv no_ref.
Proof.
  intros HI. unfold clone. apply safe_bind. eapply safe_mono; [by apply safe_allocproc| |done].
  intros r s1 [H1 Hr]. destruct r as [np|]; [|by apply safe_ret]. destruct (Hr np eq_refl) as (d0 & n & H2). clear H1 Hr.
  go (embryo np d0 n). intros me s2 H3. apply safe_gets. unfold upd_proc at 1. apply safe_modify.
  apply (embryo_setdir np d0 (p_pgdir me) n) in H3. set (s4 := s2 <| ptable ::= _ |>) in *. clearbody s4.
  set (d := p_pgdir me) in *. go (embryo np d n). intros _ s5 H5. go (embryo np d n). intros _ s6 H6.
  eapply (safe_publish np d n); [exact H6|]. intros q s7 _ H7. cbv zeta.
  go procs_inv. intros r s8 H8. destruct (r <? 0); (go procs_inv; intros _ s9 H9; by apply safe_ret).
Qed.

(** *** Exit *)
Lemma steady_close_files fds : steady (close_files fds).
Proof. induction fds as [|fd fds IH]; cbn [close_files]; steady_auto; auto. Qed.
Lemma calm_reparent cur init l : calm (reparent cur init l).
Proof. induction l as [|i l IH]; cbn [reparent]; calm_auto; auto. Qed.
#[local] Hint Resolve steady_close_files : steady.
#[local] Hint Resolve calm_reparent : calm.

Lemma safe_sched_out s (Q : unit -> kernel -> Prop) :
  procs_out s -> (forall s', procs_inv s' -> Q tt s') -> safe sched s Q procs_out procs_inv no_ref.
Proof.
  intros Hs HQ. unfold sched, safe. rewrite bind_get. destruct (negb (holding LPtable s)); [discriminate|].
  destruct (negb _); [discriminate|]. unfold myproc, bind, gets. cbn [obind].
  destruct (curproc s ≫= (ptable s !!.)) as [p|]; [|discriminate]. unfold ret. cbn [obind].
  case_decide; [discriminate|]. by split.
Qed.

Ltac go_steady := apply safe_bind, safe_steady; [steady_auto|assumption|].

(** [exit] does not return. *)
Lemma safe_exit s : procs_inv s -> safe exit s (fun _ _ => False) procs_out procs_inv no_ref.
Proof.
  intros HI. unfold exit. apply safe_gets, safe_gets. destruct (bool_decide _); [discriminate|].
  go_steady. intros _ s1 H1. go_steady. intros me s2 H2. go_steady. intros cwd s3 H3. go_steady. intros _ s4 H4.
  go_steady. intros _ s5 H5. go_steady. intros _ s6 H6. go_steady. intros me' s7 H7. go_steady. intros _ s8 H8.
  go_steady. intros cur s9 H9. go_steady. intros _ s10 H10. apply safe_bind.
  unfold upd_myproc, safe at 1, bind at 1, gets at 1. cbn [obind]. destruct (curproc s10) as [i|] eqn:Ec; [|discriminate].
  unfold modify. cbn [osafe].
  destruct (pv_cur _ _ _ _ H10 i Ec) as (d & n & Ei).
  destruct (keys_update (fun p => p <| p_state := ZOMBIE |>) i s10 _ Ei) as (p & Hp & Ek & Eks). injection Ek as _ Ed En.
  apply safe_bind, safe_sched_out; [|by intros s' _; discriminate].
  unfold procs_out. rewrite Eks. change (key (p <| p_state := ZOMBIE |>)) with (KZombie, p_pgdir p, p_pid p).
  rewrite Ed, En. by apply (pinv_zombie _ _ _ (curproc s10)).
Qed.
Lemma steady_exit : steady exit.
Proof. intros s HI. eapply safe_mono; [by apply safe_exit|done|done]. Qed.
#[local] Hint Resolve steady_exit : steady.

(** *** Reaping *)
Lemma scan_zombie cur mine l : forall n b i, scan_children cur mine n l = (b, Some i) ->
  exists j p, i = (n + j)%nat /\ l !! j = Some p /\ p_state p = ZOMBIE.
Proof.
  induction l as [|p l IH]; intros n b i; cbn [scan_children]; [done|].
  assert (R : forall b', scan_children cur mine (S n) l = (b', Some i) ->
    exists j p', i = (n + j)%nat /\ (p :: l) !! j = Some p' /\ p_state p' = ZOMBIE).
  { intros b' (j & p' & -> & Hj & Hz)%IH. exists (S j), p'. split_and!; [lia|done|done]. }
  destruct (negb (bool_decide _)); [apply R|]. destruct (negb (mine p)); [apply R|].
  destruct (decide (p_state p = ZOMBIE)) as [E|E].
  - intros [= _ <-]. exists 0%nat, p. split_and!; [lia|done|done].
  - intros [= _ E']. destruct (scan_children cur mine (S n) l) as [b' o] eqn:Es. cbn in E'. subst o. by apply (R b').
Qed.

Lemma live_split (K : list pkey) i x d : K !! i = Some x -> live_dir x = Some d ->
  exists ds, omap live_dir K ≡ₚ d :: ds.
Proof.
  intros Hi Hx. exists (omap live_dir (<[i := (KFree, 0, 0)]> K)).
  pose proof (omap_insert_perm live_dir K i x (KFree, 0, 0) Hi) as P. rewrite Hx in P. by rewrite P.
Qed.

Lemma safe_drop_vm {A} i d n s (f : unit -> M kernel A) Q I : zombie i d n s ->
  (forall s', reaping i d s' -> safe (f tt) s' Q I procs_inv no_ref) ->
  safe (bind (drop_vm i) f) s Q I procs_inv no_ref.
Proof.
  intros [H1 Hk] Hf. apply safe_bind. unfold drop_vm. unfold proc_at. apply safe_gets.
  assert (Ed : p_pgdir (default proc0 (ptable s !! i)) = d).
  { rewrite list_lookup_fmap in Hk. destruct (ptable s !! i); [|done]. by injection Hk as _ E _. }
  set (p := default proc0 (ptable s !! i)) in *. clearbody p. rewrite Ed.
  destruct (live_split _ i _ d Hk eq_refl) as [ds0 P0].
  destruct (delete_ref_run s d ds0 (pv_refs _ _ _ _ H1)) as (t' & Er & Ht & Hm & Hl).
  { eapply refs_match_perm; [exact P0|apply (pv_match _ _ _ _ H1)]. }
  apply safe_bind. eapply safe_run; [exact Er|]. destruct (Z.ltb_spec (Z.of_nat (length (filter (fun x => x = d) ds0))) 0) as [?|_]; [lia|].
  assert (Hr : reaping i d (s <| pgdir_table := t' |>)).
  { exists (pgdir_table s), n. cbn. split_and!; try done. intros ds P. eapply refs_match_perm; [|exact Hm].
    apply (Permutation_cons_inv (a := d)). by rewrite <- P0, P. }
  apply safe_calm; [calm_auto|]. intros a s' Q'. destruct a. apply Hf. by eapply stable_reaping.
Qed.

Lemma reaping_free i d g s : reaping i d s -> (forall p, p_state (g p) = UNUSED /\ p_pgdir (g p) = p_pgdir p) ->
  procs_inv (s <| ptable ::= alter g i |>).
Proof.
  intros (t & n & HI & Hk & Ht & Hl & Hm) Hg. destruct (keys_update g i s _ Hk) as (p & Hp & Ek & Eks).
  injection Ek as _ Ed _. unfold procs_inv. rewrite Eks. destruct (Hg p) as [G1 G2]. unfold key at 1. rewrite G1, G2, Ed. cbn.
  by apply (pinv_reap _ t _ _ _ _ d n).
Qed.

Lemma scan_is_zombie cur mine s b i : procs_inv s -> scan_children cur mine 0 (ptable s) = (b, Some i) ->
  exists d n, zombie i d n s.
Proof.
  intros HI (j & p & -> & Hj & Hz)%scan_zombie. exists (p_pgdir p), (p_pid p). split; [done|].
  cbn. rewrite list_lookup_fmap, Hj. cbn. unfold key. by rewrite Hz.
Qed.

Lemma steady_wait : steady wait.
Proof.
  assert (L : forall fuel, steady (wait_loop fuel)).
  { induction fuel as [|fuel IH]; cbn [wait_loop]; [steady_auto|]. intros s HI. apply safe_gets.
    go procs_inv. intros cur s1 H1. go procs_inv. intros me s2 H2. apply safe_gets.
    destruct (scan_children _ _ 0 (ptable s2)) as [b [i|]] eqn:E.
    - destruct (scan_is_zombie _ _ _ _ _ H2 E) as (d & n & Z2). go (zombie i d n). intros p s3 Z3.
      go (zombie i d n). intros _ s4 Z4. go (zombie i d n). intros _ s5 Z5.
      eapply safe_drop_vm; [exact Z5|]. intros s6 H6. unfold upd_proc. apply safe_modify.
      eapply (safe_bind_calm _ _ _ procs_inv); [calm_auto|apply stable_inv|by eapply reaping_free|].
      intros _ s7 H7. by apply safe_ret.
    - apply safe_steady; [|done|done]. steady_auto; auto. }
  unfold wait. steady_auto; apply L.
Qed.
Lemma steady_join stack : steady (join stack).
Proof.
  assert (L : forall fuel, steady (join_loop fuel stack)).
  { induction fuel as [|fuel IH]; cbn [join_loop]; [steady_auto|]. intros s HI. apply safe_gets.
    go procs_inv. intros cur s1 H1. go procs_inv. intros me s2 H2. apply safe_gets.
    destruct (scan_children _ _ 0 (ptable s2)) as [b [i|]] eqn:E.
    - destruct (scan_is_zombie _ _ _ _ _ H2 E) as (d & n & Z2). go (zombie i d n). intros p s3 Z3.
      go (zombie i d n). intros _ s4 Z4. go (zombie i d n). intros _ s5 Z5. go (zombie i d n). intros _ s5' Z5'.
      eapply safe_drop_vm; [exact Z5'|]. intros s6 H6. unfold upd_proc. apply safe_modify.
      eapply (safe_bind_calm _ _ _ procs_inv); [calm_auto|apply stable_inv|by eapply reaping_free|].
      intros _ s7 H7. by apply safe_ret.
    - apply safe_steady; [|done|done]. steady_auto; auto. }
  unfold join. steady_auto; apply L.
Qed.
Lemma steady_fork : steady fork.
Proof. intros s HI. eapply osafe_weaken; [by apply safe_fork|done]. Qed.
Lemma steady_clone f a st : steady (clone f a st).
Proof. intros s HI. eapply osafe_weaken; [by apply safe_clone|done]. Qed.
Lemma calm_growproc n : calm (growproc n).
Proof. unfold growproc. calm_auto. Qed.
#[local] Hint Resolve steady_wait steady_join steady_fork steady_clone : steady.
#[local] Hint Resolve calm_growproc : calm.
Lemma calm_getpinfo ps : calm (getpinfo ps).
Proof.
  assert (L : forall l, calm (getpinfo_loop ps l)) by (induction l; cbn [getpinfo_loop]; calm_auto; auto).
  apply L.
Qed.
#[local] Hint Resolve calm_getpinfo : calm.

(** *** [exec] *)
Lemma steady_load_segments n pgdir ip : forall off sz, steady (load_segments n pgdir ip off sz).
Proof.
  assert (L : forall fuel addr offset sz i, steady (loaduvm_loop fuel pgdir addr ip offset sz i)).
  { induction fuel; intros addr offset sz i; cbn [loaduvm_loop]; unfold load32; steady_auto; auto. }
  induction n as [|n IH]; intros off sz; cbn [load_segments]; unfold loaduvm; steady_auto; auto.
Qed.
Lemma calm_push_args pgdir argv : forall sp argc us, calm (push_args pgdir sp argc argv us).
Proof. induction argv as [|a argv IH]; intros sp argc us; cbn [push_args]; calm_auto; auto. Qed.
#[local] Hint Resolve steady_load_segments : steady.
#[local] Hint Resolve calm_push_args : calm.
Lemma steady_exec_bad pgdir ip : steady (exec_bad pgdir ip).
Proof. unfold exec_bad. steady_auto. Qed.
#[local] Hint Resolve steady_exec_bad : steady.

(** The current process changes its page directory: the old one loses a reference, the new one
    gains one. *)
Lemma newdir_refs s i d n d' : procs_inv s -> (key <$> ptable s) !! i = Some (KLive, d, n) ->
  exists c t1 t2, 0 <= c /\ delete_ref d s = Ret c (s <| pgdir_table := t1 |>) /\
    add_ref d' (s <| pgdir_table := t1 |>) = Ret tt (s <| pgdir_table := t2 |>) /\
    pinv (<[i := (KLive, d', n)]> (key <$> ptable s)) t2 (nextpid s) (curproc s).
Proof.
  intros HI Hk. destruct (live_split _ i _ d Hk eq_refl) as [ds P].
  destruct (delete_ref_run s d ds (pv_refs _ _ _ _ HI)) as (t1 & Er & Ht & Hm & Hl).
  { eapply refs_match_perm; [exact P|apply (pv_match _ _ _ _ HI)]. }
  set (s1 := s <| pgdir_table := t1 |>) in *. assert (E1 : pgdir_table s1 = t1) by done.
  destruct (add_ref_run s1 d' ds) as (t2 & Ea & Ht2 & Hm2 & Hl2); [by rewrite E1|by rewrite E1|rewrite E1|].
  { rewrite Hl, (pv_entries _ _ _ _ HI), <- (pv_procs _ _ _ _ HI).
    assert (L : forall l : list pkey, (length (omap live_dir l) <= length l)%nat).
    { induction l as [|x l IH]; cbn; [lia|]. destruct (live_dir x); cbn; lia. }
    specialize (L (key <$> ptable s)). rewrite P in L. cbn in L. lia. }
  exists (Z.of_nat (length (filter (fun x => x = d) ds))), t1, t2. split_and!; [lia|exact Er|fold s1; rewrite Ea; f_equal; by kext|].
  apply (pinv_newdir _ (pgdir_table s) _ _ _ _ d); try done.
  - intros ds' P'. eapply refs_match_perm; [|exact Hm2]. f_equiv. apply (Permutation_cons_inv (a := d)). by rewrite <- P, P'.
  - congruence.
Qed.

Lemma steady_exec_stack path argv pgdir sz entry : steady (exec_stack path argv pgdir sz entry).
Proof.
  intros s HI. unfold exec_stack. cbv zeta. go procs_inv. intros sz1 s1 H1.
  destruct (sz1 =? 0); [by apply safe_steady; [apply steady_exec_bad| |]|].
  go procs_inv. intros r s2 H2. destruct r as [[sp addrs]|]; [|by apply safe_steady; [apply steady_exec_bad| |]].
  go procs_inv. intros r s3 H3. destruct (r <? 0); [by apply safe_steady; [apply steady_exec_bad| |]|].
  go procs_inv. intros _ s4 H4. destruct (curproc s4) as [i|] eqn:Ec; [|unfold safe, myproc, bind, gets; cbn; by rewrite Ec].
  destruct (pv_cur _ _ _ _ H4 i Ec) as (d & n & Hk).
  set (sp' := u32 (sp - (3 + Z.of_nat (length addrs) + 1) * 4)).
  destruct (keys_update (commit_image pgdir sz1 entry sp') i s4 _ Hk) as (p & Ep & Ek & Eks). injection Ek as Ekd Ed En.
  unfold safe. rewrite (bind_run _ _ _ _ _ (myproc_run s4 i p Ec Ep)), Ed.
  destruct (newdir_refs s4 i d n pgdir H4 Hk) as (c & t1 & t2 & Hc & E1 & E2 & Hp).
  rewrite (bind_run _ _ _ _ _ E1), (bind_run _ _ _ _ _ E2).
  erewrite bind_run; [|apply upd_myproc_run; exact Ec].
  set (s6 := _ <| ptable ::= _ |>). assert (H6 : procs_inv s6).
  { unfold procs_inv. change (ptable s6) with (ptable (s4 <| ptable ::= alter (commit_image pgdir sz1 entry sp') i |>)).
    rewrite Eks. change (key (commit_image pgdir sz1 entry sp' p)) with (kind (p_state p), pgdir, p_pid p).
    rewrite Ekd, En. exact Hp. }
  clearbody s6. replace (c <? 0) with false by lia. apply (safe_steady _ s6); [steady_auto|exact H6|done].
Qed.
#[local] Hint Resolve steady_exec_stack : steady.
Lemma steady_exec junk path argv : steady (exec junk path argv).
Proof. unfold exec. steady_auto. Qed.
#[local] Hint Resolve steady_exec : steady.

(** *** System calls *)
Lemma calm_fetchint p addr : calm (fetchint p addr).
Proof. unfold fetchint. calm_auto. Qed.
Lemma calm_fetchstr p addr : calm (fetchstr p addr).
Proof.
  assert (L : forall fuel a ep, calm (fetch_chars fuel a ep)).
  { induction fuel; intros a ep; cbn [fetch_chars]; calm_auto; auto. }
  unfold fetchstr. calm_auto; apply L.
Qed.
#[local] Hint Resolve calm_fetchint calm_fetchstr : calm.
Lemma calm_argint n : calm (argint n).
Proof. unfold argint. calm_auto. Qed.
#[local] Hint Resolve calm_argint : calm.
Lemma calm_argptr n size : calm (argptr n size).
Proof. unfold argptr. calm_auto. Qed.
Lemma calm_argstr n : calm (argstr n).
Proof. unfold argstr. calm_auto. Qed.
Lemma calm_argfd n : calm (argfd n).
Proof. unfold argfd. calm_auto. Qed.
Lemma calm_fdalloc f : calm (fdalloc f).
Proof. unfold fdalloc. calm_auto. Qed.
Lemma calm_clear_fd fd : calm (clear_fd fd).
Proof. unfold clear_fd. calm_auto. Qed.
Lemma calm_write_stat va st : calm (write_stat va st).
Proof. unfold write_stat. calm_auto. Qed.
Lemma calm_fetch_argv n : forall u, calm (fetch_argv n u).
Proof. induction n; intros u; cbn [fetch_argv]; calm_auto; auto. Qed.
Lemma calm_set_eax v : calm (set_eax v).
Proof. unfold set_eax. calm_auto. Qed.
#[local] Hint Resolve calm_argptr calm_argstr calm_argfd calm_fdalloc calm_clear_fd calm_write_stat calm_fetch_argv
  calm_set_eax : calm.
Lemma steady_create path type major minor : steady (create path type major minor).
Proof. unfold create, upd_inode. steady_auto. Qed.
Lemma steady_isdirempty dp : steady (isdirempty dp).
Proof.
  assert (L : forall fuel off, steady (isdirempty_loop fuel dp off)).
  { induction fuel; intros off; cbn [isdirempty_loop]; steady_auto; auto. }
  unfold isdirempty. steady_auto; apply L.
Qed.
Lemma steady_open_file ip omode : steady (open_file ip omode).
Proof. unfold open_file, upd_file. steady_auto. Qed.
Lemma steady_link_bad ip : steady (link_bad ip).
Proof. unfold link_bad, upd_inode. steady_auto. Qed.
Lemma steady_sleep_loop fuel t0 n : steady (sleep_loop fuel t0 n).
Proof. induction fuel; cbn [sleep_loop]; steady_auto; auto. Qed.
#[local] Hint Resolve steady_create steady_isdirempty steady_open_file steady_link_bad steady_sleep_loop : steady.

Ltac sys := unfold arg; steady_auto.
Lemma steady_syscall junk : steady (syscall junk).
Proof.
  assert (L : forall num f, syscalls junk num = Some f -> steady f).
  { intros num f. unfold syscalls. repeat case_match; intros [= <-].
    all: unfold sys_fork, sys_exit, sys_wait, sys_pipe, sys_write, sys_read, sys_close, sys_kill, sys_exec, sys_open,
      sys_mknod, sys_unlink, sys_fstat, sys_link, sys_mkdir, sys_chdir, sys_dup, sys_getpid, sys_sbrk, sys_sleep,
      sys_uptime, sys_getnumsyscallp, sys_getpinfo, sys_shmgetat, sys_shm_refcount, sys_clone, sys_join, upd_inode; sys. }
  unfold syscall. do 2 (apply steady_bind; [steady_auto|intros ?]). cbv zeta.
  destruct (syscalls junk _) as [f|] eqn:E; [|steady_auto]. apply L in E. steady_auto.
Qed.
#[local] Hint Resolve steady_syscall : steady.
Lemma steady_trap e tf : steady (trap e tf).
Proof. unfold trap, exit_if_killed, timer_tick, trap_default. steady_auto. Qed.

(** *** The scheduler *)
Lemma safe_scheduler s : procs_inv s -> safe scheduler s (fun _ s' => procs_inv s') (fun _ => False) procs_inv no_ref.
Proof.
  intros HI. unfold scheduler. go procs_inv. intros _ s1 H1. apply safe_gets. go procs_inv. intros _ s2 H2.
  go procs_inv. intros _ s3 H3. apply safe_modify. set (s4 := s3 <| ptable ::= _ |>).
  assert (H4 : procs_inv s4).
  { apply (quiet_inv s3); [|done]. split; try done. apply key_fmap. intros p. unfold boost. by destruct (_ && _). }
  clearbody s4. apply safe_gets. destruct (find_queue NPRIOR 0 (ptable s4)) as [i|] eqn:E.
  - apply find_queue_Some in E as (p & Hp & Hr & _). apply safe_modify.
    assert (Hk : (key <$> ptable s4) !! i = Some (KLive, p_pgdir p, p_pid p)).
    { rewrite list_lookup_fmap, Hp. cbn. unfold key. by rewrite Hr. }
    set (s5 := s4 <| curproc := Some i |>). assert (H5 : procs_inv s5).
    { destruct H4 as [A1 A2 A3 A4 A5 A6 A7 _]. split; try done. intros j [= <-]. by eexists _, _. }
    set (P := fun s => procs_inv s /\ (key <$> ptable s) !! i = Some (KLive, p_pgdir p, p_pid p)).
    assert (HP : stable P). { intros x y Q [B1 B2]. split; [by apply (quiet_inv x)|]. by rewrite (q_keys _ _ Q). }
    eapply (safe_bind_calm _ _ _ P); [calm_auto|exact HP|by split|]. intros q s6 H6.
    eapply (safe_bind_calm _ _ _ P); [calm_auto|exact HP|exact H6|]. intros _ s7 [H7 Hk7].
    unfold upd_proc. apply safe_modify, safe_ret.
    destruct (keys_update (fun p => p <| p_state := RUNNING |> <| p_last_sched_time := ticks s1 |>) i s7 _ Hk7) as (p7 & Hp7 & Ek & Eks).
    unfold procs_inv. rewrite Eks. injection Ek as _ Ed En.
    replace (key _) with (KLive, p_pgdir p, p_pid p) by (unfold key; cbn; by rewrite Ed, En). by rewrite list_insert_id.
  - go procs_inv. intros _ s5 H5. by apply safe_ret.
Qed.
Lemma safe_scheduler_back s : procs_out s ->
  safe scheduler_back s (fun _ s' => procs_inv s' /\ curproc s' = None) (fun _ => False) procs_inv no_ref.
Proof.
  intros HO. unfold scheduler_back, switchkvm. apply safe_modify, safe_modify. apply safe_calm; [apply calm_release|].
  intros _ s' [E1 E2 E3 E4]. split; [|by rewrite E4]. unfold procs_inv. by rewrite E1, E2, E3, E4.
Qed.

(** *** Booting *)
Lemma calm_namei_root : calm (namei (str "/")).
Proof.
  unfold namei, namex. change (str "/") with [47]. cbn [length]. change (skipelem [47]) with (@None (list Z * list Z)).
  cbn -[iget]. calm_auto.
Qed.
Lemma safe_userinit code s : procs_inv s -> safe (userinit code) s (fun _ s' => procs_inv s') (fun _ => False) procs_inv no_ref.
Proof.
  intros HI. unfold userinit. apply safe_bind. eapply safe_mono; [by apply safe_allocproc| |done].
  intros r s1 [H1 Hr]. destruct r as [np|].
  2:{ go procs_inv. intros _ s2 H2. go procs_inv. intros _ s3 H3. go procs_inv. intros d s4 H4. discriminate. }
  destruct (Hr np eq_refl) as (d0 & n & H2). clear H1 Hr.
  go (embryo np d0 n). intros _ s2 H3. go (embryo np d0 n). intros _ s3 H4. go (embryo np d0 n). intros d s4 H5.
  apply safe_bind, safe_ret. unfold upd_proc at 1. apply safe_modify. apply (embryo_setdir np d0 d n) in H5.
  set (s5 := s4 <| ptable ::= _ |>) in *. clearbody s5. destruct (d =? 0); [discriminate|].
  eapply (safe_bind_calm _ _ _ (embryo np d n)); [|apply stable_embryo|exact H5|].
  { unfold inituvm, memset_m. calm_auto. }
  intros _ s6 H6. go (embryo np d n). intros _ s7 H7.
  eapply (safe_bind_calm _ _ _ (embryo np d n)); [apply calm_namei_root|apply stable_embryo|exact H7|].
  intros ip s8 H8. eapply safe_start; [exact H8|done|]. intros s9 H9. apply safe_calm; [calm_auto|].
  intros _ s10 Q. by apply (quiet_inv s9).
Qed.

Lemma omap_free (f : pkey -> option Z) (K : list pkey) : (forall d n, f (KFree, d, n) = None) ->
  (forall k, k ∈ K -> fst (fst k) = KFree) -> omap f K = [].
Proof.
  intros Hf HK. induction K as [|[[k d] n] K IH]; [done|]. cbn.
  assert (k = KFree) as -> by (apply (HK (k, d, n)); apply elem_of_cons; by left). rewrite Hf. apply IH.
  intros x Hx. apply HK, elem_of_cons. by right.
Qed.

(** The tables [pinit] leaves: no process, no reference. *)
Lemma safe_pinit s : length (ptable s) = NPROC -> length (pgdir_table s) = NPROC ->
  Forall (fun p => p_state p = UNUSED) (ptable s) -> nextpid s = 1 -> curproc s = None ->
  exists s', pinit s = Ret tt s' /\ procs_inv s'.
Proof.
  intros L1 L2 Hu Hn Hc. eexists. split; [reflexivity|]. unfold procs_inv. cbn. rewrite Hn, Hc.
  assert (Hz : forall j r, (fun r => r <| r_count := 0 |>) <$> pgdir_table s !! j = Some r -> r_count r = 0).
  { intros j r. destruct (pgdir_table s !! j); [|done]. by intros [= <-]. }
  assert (K : forall k, k ∈ key <$> ptable s -> fst (fst k) = KFree).
  { intros k. rewrite list_elem_of_fmap. intros (p & -> & Hp). rewrite Forall_forall in Hu. cbn. by rewrite (Hu p Hp). }
  assert (E1 := omap_free live_dir _ (fun _ _ => eq_refl) K). assert (E2 := omap_free used_pid _ (fun _ _ => eq_refl) K).
  assert (Hr : refs_ok ((fun r => r <| r_count := 0 |>) <$> pgdir_table s)).
  { split.
    - apply Forall_fmap, Forall_true. intros r. cbn. lia.
    - intros i j r1 r2 H1 _ C1. rewrite list_lookup_fmap in H1. apply Hz in H1. lia. }
  split; rewrite ?E1, ?E2, ?length_fmap; try done; [|constructor..].
  intros d. cbn. apply tcount_none; [done|]. intros j r Hj. rewrite list_lookup_fmap in Hj. apply Hz in Hj. lia.
Qed.
End frames.
