(* ===== verification/Machine.v ===== *)
(** The machine: processes interleaved by traps and the scheduler.

    One CPU runs user code, takes traps, and switches between processes; each process that
    gave up the CPU in the kernel continues there when it is chosen again.  The steps
    combine [trap] of [kernel/trap.c] with [scheduler] and [sched] of [kernel/proc.c].

    Interrupts come while a process runs user code and while the CPU is idle.  A timer
    interrupt that comes while a process runs in the kernel with interrupts on would switch
    in the middle of a system call; the machine has no such step, and with it the theorem
    would not hold: see [fork_window] at the end. *)
From stdpp Require Import gmap.
From S2P Require Import Prelude Types Mem Kalloc PageTable Cons Vm VmProofs VmUser VmSpec Shm Sched Ide Bio UserMem Inode Console Fs Pipe File Proc Boot Exec Syscall Trap Procs.

Section Machine.
Context `{Linker} `{CodeSyms}.

(** The kernel stacks: what each process that gave up the CPU does when it gets it back, the
    rest of its system call or of its trap.  A process that has not run yet has no entry: it
    starts in [forkret]. *)
Definition conts : Type := gmap nat (kernel -> outcome kernel unit).

(** A slot that is free or being set up has no kernel stack to go back to: [wait] and [join]
    have freed it, and [allocproc] makes a new one. *)
Definition has_stack (s : kernel) (i : nat) : bool :=
  match ptable s !! i with
  | Some p => match p_state p with UNUSED | EMBRYO => false | _ => true end
  | None => false
  end.
Definition forget (s : kernel) (c : conts) : conts := filter (fun x => has_stack s (fst x) = true) c.

Inductive machine : Type :=
| Running (s : kernel) (c : conts)
| Stopped (msg : string).

(** The end of a stretch of kernel code of process [i]. *)
Definition settle (i : nat) (c : conts) (o : outcome kernel unit) : option machine :=
  match o with
  | Ret _ s => Some (Running s (forget s c))
  | Panic msg => Some (Stopped msg)
  | Switched s k =>
      match scheduler_back s with
      | Ret _ s' => Some (Running s' (forget s' (<[i := k]> c)))
      | Panic msg => Some (Stopped msg)
      | _ => None
      end
  | Spins => None
  end.

Inductive mstep : machine -> machine -> Prop :=
| step_user s s' c :              (** user code changes its memory and registers only *)
    quiet s s' -> mstep (Running s c) (Running s' c)
| step_trap s c e tf m :          (** a system call, an interrupt or a fault *)
    settle (default 0%nat (curproc s)) c (trap e tf s) = Some m -> mstep (Running s c) m
| step_schedule s s1 c i m :      (** the scheduler loop, with no process running *)
    curproc s = None -> scheduler s = Ret (Some i) s1 ->
    settle i c (match c !! i with Some k => k s1 | None => forkret s1 end) = Some m ->
    mstep (Running s c) m
| step_idle s s1 c :
    curproc s = None -> scheduler s = Ret None s1 -> mstep (Running s c) (Running s1 (forget s1 c))
| step_scheduler_panic s c msg :
    scheduler s = Panic msg -> mstep (Running s c) (Stopped msg).

(** The machine after [mainc] has set up the process table and the first process: empty
    tables, then [pinit] and [userinit]. *)
Inductive booted (code : list Z) : machine -> Prop :=
| booted_run s0 s1 m :
    length (ptable s0) = NPROC -> length (pgdir_table s0) = NPROC ->
    Forall (fun p => p_state p = UNUSED) (ptable s0) -> nextpid s0 = 1 -> curproc s0 = None ->
    pinit s0 = Ret tt s1 -> settle 0 ∅ (userinit code s1) = Some m -> booted code m.

Inductive reachable (code : list Z) : machine -> Prop :=
| reach_boot m : booted code m -> reachable code m
| reach_step m m' : reachable code m -> mstep m m' -> reachable code m'.

(** ** The invariant of the machine *)
Definition cont_ok (k : kernel -> outcome kernel unit) : Prop :=
  forall s, procs_inv s -> osafe (k s) (fun _ s' => procs_inv s') procs_out procs_inv no_ref.
(** Every entry belongs to a process that has a kernel stack. *)
Definition stacks_ok (s : kernel) (c : conts) : Prop := forall i, has_stack s i = false -> c !! i = None.
Definition machine_inv (m : machine) : Prop :=
  match m with
  | Running s c => procs_inv s /\ stacks_ok s c /\ map_Forall (fun _ k => cont_ok k) c
  | Stopped msg => no_ref msg
  end.

Lemma forget_ok s c : stacks_ok s (forget s c).
Proof. intros i Hi. apply map_lookup_filter_None_2. right. intros k _. cbn. by rewrite Hi. Qed.
Lemma forget_conts s c : map_Forall (fun _ k => cont_ok k) c -> map_Forall (fun _ k => cont_ok k) (forget s c).
Proof. intros Hc i k [Hk _]%map_lookup_filter_Some. by apply (Hc i). Qed.
Lemma forget_empty s : forget s ∅ = ∅.
Proof. apply map_filter_empty. Qed.
#[local] Hint Resolve forget_ok forget_conts : core.

(** User code frees no slot and takes none. *)
Lemma quiet_stacks s s' i : quiet s s' -> has_stack s' i = has_stack s i.
Proof.
  intros [E _ _ _]. apply (f_equal (fun l => fst ∘ fst <$> l !! i)) in E. rewrite !list_lookup_fmap in E. unfold has_stack.
  destruct (ptable s' !! i) as [p'|], (ptable s !! i) as [p|]; try done. cbn in E. injection E as E.
  by destruct (p_state p'), (p_state p).
Qed.

Lemma settle_inv i c o m : settle i c o = Some m -> map_Forall (fun _ k => cont_ok k) c ->
  osafe o (fun _ s' => procs_inv s') procs_out procs_inv no_ref -> machine_inv m.
Proof.
  intros E Hc Ho. destruct o as [[] s|msg|s k|]; cbn in E, Ho; [injection E as <-; split_and!; auto|by injection E as <-| |done].
  destruct Ho as [H1 H2]. pose proof (safe_scheduler_back s H1) as B. unfold safe in B.
  destruct (scheduler_back s) as [[] s'|msg|s' k'|]; cbn in B; [|by injection E as <-|done|done].
  injection E as <-. split; [apply B|]. split; [auto|]. by apply forget_conts, map_Forall_insert_2.
Qed.

Lemma mstep_inv m m' : mstep m m' -> machine_inv m -> machine_inv m'.
Proof.
  intros [s s' c Q|s c e tf m1 E|s s1 c i m1 Hc Es E|s s1 c Hc Es|s c msg Es] (HI & Hst & Hk).
  - split; [by apply (quiet_inv s)|]. split; [|done]. intros i Hi. apply Hst. by rewrite <- (quiet_stacks s s' i Q).
  - eapply settle_inv; [exact E|done|]. by apply steady_trap.
  - pose proof (safe_scheduler s HI) as B. unfold safe in B. rewrite Es in B. cbn in B.
    eapply settle_inv; [exact E|done|]. destruct (c !! i) as [k|] eqn:Ek; [by apply (Hk i k)|].
    apply (calm_steady forkret); [apply calm_release|done].
  - pose proof (safe_scheduler s HI) as B. unfold safe in B. rewrite Es in B. split; [done|auto].
  - pose proof (safe_scheduler s HI) as B. unfold safe in B. by rewrite Es in B.
Qed.

(** C1. On one CPU that takes interrupts in user mode and while it is idle, however user code, interrupts, faults,
    system calls and the scheduler interleave from boot on, and wherever system calls sleep: the reference table counts
    for every page directory exactly the live processes and zombies that use it; the current process is live; as long
    as fewer than [2^31] identifiers were given out, processes have different positive identifiers; a slot that was
    reaped has nothing to resume, so the next process in it starts in [forkret]; and the machine never stops with the
    panic that [wait], [join] and [exec] raise when a page directory has lost its count. *)
Theorem machine_safe (code : list Z) (m : machine) : reachable code m ->
  match m with
  | Running s c => procs_inv s /\ stacks_ok s c
  | Stopped msg => msg <> "pgdir ref"
  end.
Proof.
  intros R. enough (HI : machine_inv m) by (destruct m; [split; apply HI|exact HI]).
  induction R as [m B|m m' _ IH Hs]; [|by eapply mstep_inv].
  destruct B as [s0 s1 m L1 L2 Hu Hn Hc E1 E2]. destruct (safe_pinit s0 L1 L2 Hu Hn Hc) as (s1' & E1' & HI).
  assert (s1' = s1) as -> by congruence. eapply settle_inv; [exact E2|apply map_Forall_empty|].
  eapply osafe_weaken; [by apply safe_userinit|done].
Qed.

(** Why a switch in the middle of [fork] is not a step above: [fork] makes the child runnable and then counts its new
    page directory.  Between the two, the child is live and not counted; if it ran then and called [exec], [delete_ref]
    would give [-1] and [exec] would panic. *)
Lemma fork_window (s : kernel) (np : nat) (d n : Z) : embryo np d n s ->
  d ∉ omap live_dir (key <$> ptable s) ->
  let s1 := s <| ptable ::= alter (fun p => p <| p_state := RUNNABLE |>) np |> in
  (key <$> ptable s1) !! np = Some (KLive, d, n) /\ delete_ref d s1 = Ret (-1) s1.
Proof.
  intros [H1 Hk] Hd s1. destruct (keys_update (fun p => p <| p_state := RUNNABLE |>) np s _ Hk) as (p & Hp & Ek & Eks).
  injection Ek as _ Ed En. split.
  - unfold s1. rewrite Eks, list_lookup_insert_eq by by eapply lookup_lt_Some. unfold key. cbn. by rewrite Ed, En.
  - unfold delete_ref. rewrite bind_gets. change (pgdir_table s1) with (pgdir_table s).
    destruct (find_ref _ 0 (pgdir_table s)) as [i|] eqn:Ef; [|done].
    destruct (find_ref_Some _ _ _ _ Ef) as (j & r & _ & Hj & Hr). apply andb_true_iff in Hr as [Ha Hc].
    pose proof (tcount_at d _ j r (pv_refs _ _ _ _ H1) Hj ltac:(lia) ltac:(lia)) as E. rewrite (pv_match _ _ _ _ H1) in E.
    destruct (filter (fun x => x = d) (omap live_dir (key <$> ptable s))) as [|y l] eqn:F; [cbn in E; lia|].
    assert (Hy : y ∈ filter (fun x => x = d) (omap live_dir (key <$> ptable s))) by (rewrite F; apply elem_of_cons; by left).
    by apply list_elem_of_filter in Hy as [-> ?].
Qed.
End Machine.

(** ** Example: the machine of [Boot.v], booted. *)
Lemma pinit_same s : Forall (fun r => r_count r = 0) (pgdir_table s) -> pinit s = Ret tt s.
Proof.
  intros Hr. unfold pinit, init_ref, modify. f_equal. kext. cbn.
  induction Hr as [|[a c] l E _ IH]; [done|]. cbn in *. rewrite IH, E. done.
Qed.

Lemma machine_safe_witness : exists s c, @reachable linker1 codesyms1 [0x68; 0x00] (Running s c) /\ procs_inv s.
Proof.
  destruct boot1_fields as (Hh & K & Ep & Er & Ei & En & Ec).
  destruct userinit_boot1 as (s' & E).
  assert (R : @reachable linker1 codesyms1 [0x68; 0x00] (Running s' ∅)).
  { apply reach_boot. apply (booted_run _ boot1 boot1).
    - rewrite Ep. reflexivity.
    - rewrite Er. reflexivity.
    - rewrite Ep. constructor; [reflexivity|by apply Forall_replicate].
    - exact En.
    - exact Ec.
    - apply pinit_same. rewrite Er. constructor; [reflexivity|by apply Forall_replicate].
    - rewrite E. unfold settle. by rewrite forget_empty. }
  exists s', ∅. split; [exact R|]. apply (@machine_safe linker1 codesyms1 _ _ R).
Defined.
