(* ===== verification/Grep.v ===== *)
(** [user/grep.c]: the regular-expression matcher, shown to decide an inductive definition of
    matching, and the loop over the input.

    A C string is the list of its characters before the terminating zero. *)
From S2P Require Import Prelude.

(** ** Code *)
Definition c_caret : Z := 94.
Definition c_dollar : Z := 36.
Definition c_dot : Z := 46.
Definition c_star : Z := 42.
Definition c_newline : Z := 10.

(** [matchstar(c, re, text)]; [here] is [matchhere] with [re]. *)
Fixpoint matchstar (here : list Z -> bool) (c : Z) (text : list Z) : bool :=
  if here text then true
  else match text with
       | [] => false
       | x :: text' => if (x =? c) || (c =? c_dot) then matchstar here c text' else false
       end.

Fixpoint matchhere (re text : list Z) : bool :=
  match re with
  | [] => true
  | c :: re1 =>
      let step (_ : unit) :=
        if (c =? c_dollar) && bool_decide (re1 = []) then bool_decide (text = [])
        else match text with
             | x :: text' => if (c =? c_dot) || (c =? x) then matchhere re1 text' else false
             | [] => false
             end in
      match re1 with
      | s :: re2 => if s =? c_star then matchstar (matchhere re2) c text else step tt
      | [] => step tt
      end
  end.

(** The loop of [match] over the suffixes of the text. *)
Fixpoint match_loop (re text : list Z) : bool :=
  if matchhere re text then true
  else match text with
       | [] => false
       | _ :: text' => match_loop re text'
       end.

Definition match_re (re text : list Z) : bool :=
  match re with
  | c :: re1 => if c =? c_caret then matchhere re1 text else match_loop re text
  | [] => match_loop re text
  end.

(** ** Matching, defined *)

(** The character [x] is matched by the pattern character [c]. *)
Definition covers (c x : Z) : Prop := c = c_dot \/ c = x.

(** [Match re text]: a prefix of [text] matches [re]. *)
Inductive Match : list Z -> list Z -> Prop :=
| Match_nil text : Match [] text
| Match_star c re w text : Forall (covers c) w -> Match re text -> Match (c :: c_star :: re) (w ++ text)
| Match_end : Match [c_dollar] []
| Match_char c re x text : head re <> Some c_star -> ~ (c = c_dollar /\ re = []) -> covers c x ->
    Match re text -> Match (c :: re) (x :: text).

(** The text contains a match: anywhere, or at its start when the pattern begins with a
    caret. *)
Definition Search (re text : list Z) : Prop :=
  match re with
  | c :: re1 => if decide (c = c_caret) then Match re1 text else exists l r, text = l ++ r /\ Match re r
  | [] => exists l r, text = l ++ r /\ Match re r
  end.

Lemma matchstar_spec (here : list Z -> bool) c text :
  matchstar here c text = true <-> exists w r, text = w ++ r /\ Forall (covers c) w /\ here r = true.
Proof.
  induction text as [|x text IH]; cbn [matchstar].
  - destruct (here []) eqn:E; (split; [intros H|intros (w & r & Et & Hw & Hh)]); try done.
    + by exists [], [].
    + symmetry in Et. apply app_nil in Et as [-> ->]. congruence.
  - destruct (here (x :: text)) eqn:E.
    + split; [intros _; by exists [], (x :: text)|done].
    + destruct ((x =? c) || (c =? c_dot)) eqn:Ec; (split; [intros H|intros (w & r & Et & Hw & Hh)]); try done.
      * apply IH in H as (w & r & -> & Hw & Hh). exists (x :: w), r. split_and!; [done| |done]. constructor; [|done].
        apply orb_true_iff in Ec as [->%Z.eqb_eq | ->%Z.eqb_eq]; [by right|by left].
      * apply IH. destruct w as [|y w]; cbn in Et; [subst r; congruence|]. injection Et as <- ->. inversion Hw; subst. by exists w, r.
      * exfalso. destruct w as [|y w]; cbn in Et; [subst r; congruence|]. injection Et as <- ->. inversion Hw as [|? ? [-> | ->]]; subst.
        -- by rewrite Z.eqb_refl, orb_true_r in Ec.
        -- by rewrite Z.eqb_refl in Ec.
Qed.

Lemma matchhere_nostar c re text : head re <> Some c_star ->
  matchhere (c :: re) text =
    if (c =? c_dollar) && bool_decide (re = []) then bool_decide (text = [])
    else match text with
         | x :: text' => if (c =? c_dot) || (c =? x) then matchhere re text' else false
         | [] => false
         end.
Proof.
  intros Hs. cbn [matchhere]. destruct re as [|s re]; [done|]. destruct (Z.eqb_spec s c_star) as [->|]; [done|].
  by rewrite bool_decide_eq_false_2, andb_false_r by done.
Qed.

Lemma matchhere_spec n : forall re text, (length re <= n)%nat -> matchhere re text = true <-> Match re text.
Proof.
  induction n as [|n IH]; intros re text Hn.
  { destruct re; [|cbn in Hn; lia]. split; [constructor|done]. }
  destruct re as [|c re]; [split; [constructor|done]|]. cbn in Hn.
  destruct (decide (head re = Some c_star)) as [Hs|Hs].
  - destruct re as [|s re]; [done|]. injection Hs as ->. cbn in Hn. cbn [matchhere]. rewrite Z.eqb_refl, matchstar_spec. split.
    + intros (w & r & -> & Hw & Hh). constructor; [done|]. apply IH; [lia|done].
    + intros H. inversion H as [|? ? w r Hw Hm| |? ? ? ? Hne]; subst; [|done]. exists w, r. split_and!; [done|done|]. apply IH; [lia|done].
  - rewrite matchhere_nostar by done. destruct ((c =? c_dollar) && bool_decide (re = [])) eqn:Ed.
    + apply andb_true_iff in Ed as [->%Z.eqb_eq ->%bool_decide_eq_true]. rewrite bool_decide_eq_true. split; [intros ->; constructor|].
      intros H. inversion H as [| | |? ? ? ? ? Hne]; subst; [done|]. by destruct Hne.
    + assert (Hne : ~ (c = c_dollar /\ re = [])).
      { intros [-> ->]. by rewrite Z.eqb_refl in Ed. }
      destruct text as [|x text].
      * split; [done|]. intros H. inversion H; subst; [done|]. by destruct Hne.
      * destruct ((c =? c_dot) || (c =? x)) eqn:Ec.
        -- rewrite IH by lia. split; [|intros H; inversion H; subst; done]. intros H. constructor; try done.
           apply orb_true_iff in Ec as [->%Z.eqb_eq | ->%Z.eqb_eq]; [by left|by right].
        -- split; [done|]. intros H. inversion H as [|? ? ? ? ? ? E1| |? ? ? ? ? ? Hc]; subst; [done|].
           destruct Hc as [-> | ->]; by rewrite Z.eqb_refl, ?orb_true_r in Ec.
Qed.

Lemma match_loop_spec re text : match_loop re text = true <-> exists l r, text = l ++ r /\ Match re r.
Proof.
  assert (Hh := fun t => matchhere_spec (length re) re t (le_n _)).
  induction text as [|x text IH]; cbn [match_loop].
  - destruct (matchhere re []) eqn:E; (split; [intros H|intros (l & r & Et & Hm)]); try done.
    + exists [], []. split; [done|]. by apply Hh.
    + symmetry in Et. apply app_nil in Et as [-> ->]. apply Hh in Hm. congruence.
  - destruct (matchhere re (x :: text)) eqn:E.
    + split; [intros _|done]. exists [], (x :: text). split; [done|]. by apply Hh.
    + rewrite IH. split.
      * intros (l & r & -> & Hm). by exists (x :: l), r.
      * intros (l & r & Et & Hm). destruct l as [|y l]; cbn in Et; [subst r; apply Hh in Hm; congruence|]. injection Et as <- ->. by exists l, r.
Qed.

(** C40. [match] decides regular-expression search: it returns 1 exactly when the text, or for a
    pattern with a caret a prefix of it, contains a match of the pattern. *)
Theorem match_correct (re text : list Z) : match_re re text = true <-> Search re text.
Proof.
  unfold match_re, Search. destruct re as [|c re]; [apply match_loop_spec|].
  destruct (Z.eqb_spec c c_caret), (decide (c = c_caret)); try done; [apply (matchhere_spec (length re)); lia|apply match_loop_spec].
Qed.

(** ** The loop over the input *)

(** [strchr(buf + p, c)] in the buffer: the index of the first [c] before a zero byte, or
    that there is none, or that the search leaves the buffer. *)
Inductive found := Found (q : nat) | NotFound | OutOfBuffer.
Fixpoint strchr_buf (l : list Z) (p : nat) (c : Z) : found :=
  match l with
  | [] => OutOfBuffer
  | x :: l' =>
      if x =? 0 then NotFound else if x =? c then Found p else strchr_buf l' (S p) c
  end.

(** The inner loop, from index [p] of [buf]; [out] is what has been written.  [None]: the
    code reads past the buffer. *)
Fixpoint grep_lines (fuel : nat) (pattern buf : list Z) (p : nat) (out : list Z) : option (list Z * nat * list Z) :=
  match fuel with
  | O => None
  | S fuel' =>
      match strchr_buf (drop p buf) p c_newline with
      | OutOfBuffer => None
      | NotFound => Some (buf, p, out)
      | Found q =>
          let line := take (q - p) (drop p buf) in
          if match_re pattern line then grep_lines fuel' pattern buf (S q) (out ++ line ++ [c_newline])
          else grep_lines fuel' pattern (<[q := 0]> buf) (S q) out
      end
  end.

Definition GREPBUF : nat := 1024.

(** [grep]; [reads] are the results of [read], each of at most the room left in the
    buffer. *)
Fixpoint grep (pattern : list Z) (reads : list (list Z)) (buf : list Z) (m : nat) (out : list Z) : option (list Z) :=
  match reads with
  | [] => Some out
  | chunk :: reads' =>
      match chunk with
      | [] => Some out
      | _ =>
          let buf := take m buf ++ chunk ++ drop (m + length chunk) buf in
          let m := (m + length chunk)%nat in
          match grep_lines (S GREPBUF) pattern buf 0 out with
          | None => None
          | Some (buf, p, out) =>
              let m := if bool_decide (p = 0%nat) then 0%nat else m in
              if (0 <? m)%nat then
                let m := (m - p)%nat in
                grep pattern reads' (take m (drop p buf) ++ drop m buf) m out
              else grep pattern reads' buf m out
          end
      end
  end.

(** The complete lines of a text. *)
Fixpoint lines_aux (cur text : list Z) : list (list Z) :=
  match text with
  | [] => []
  | x :: text' => if x =? c_newline then cur :: lines_aux [] text' else lines_aux (cur ++ [x]) text'
  end.
Definition lines (text : list Z) : list (list Z) := lines_aux [] text.
Definition matching (pattern text : list Z) : list Z :=
  concat ((fun l => l ++ [c_newline]) <$> filter (fun l => match_re pattern l = true) (lines text)).

Lemma strchr_line line rest p : Forall (fun x => x <> 0 /\ x <> c_newline) line ->
  strchr_buf (line ++ c_newline :: rest) p c_newline = Found (p + length line).
Proof.
  intros H. revert p. induction H as [|x line [H1 H2] _ IH]; intros p; cbn [app strchr_buf length].
  - cbn. f_equal. lia.
  - apply Z.eqb_neq in H1, H2. rewrite H1, H2, IH. f_equal. lia.
Qed.
Lemma strchr_none line rest p : Forall (fun x => x <> 0 /\ x <> c_newline) line ->
  strchr_buf (line ++ 0 :: rest) p c_newline = NotFound.
Proof.
  intros H. revert p. induction H as [|x line [H1 H2] _ IH]; intros p; cbn [app strchr_buf]; [done|].
  apply Z.eqb_neq in H1, H2. by rewrite H1, H2, IH.
Qed.

(** A text is its first line and the rest, or has no complete line. *)
Lemma lines_split text : Forall (fun x => x <> 0) text ->
  (exists line rest, text = line ++ c_newline :: rest /\ Forall (fun x => x <> 0 /\ x <> c_newline) line /\ lines text = line :: lines rest) \/
  (Forall (fun x => x <> 0 /\ x <> c_newline) text /\ lines text = []).
Proof.
  assert (G : forall text cur, Forall (fun x => x <> 0) text ->
    (exists line rest, text = line ++ c_newline :: rest /\ Forall (fun x => x <> 0 /\ x <> c_newline) line /\ lines_aux cur text = (cur ++ line) :: lines rest) \/
    (Forall (fun x => x <> 0 /\ x <> c_newline) text /\ lines_aux cur text = [])).
  { clear. induction text as [|x text IH]; intros cur H; [by right|]. inversion H as [|? ? Hx Ht]; subst. cbn [lines_aux].
    destruct (Z.eqb_spec x c_newline) as [->|Hne].
    - left. exists [], text. rewrite app_nil_r. split_and!; [done|constructor|done].
    - destruct (IH (cur ++ [x]) Ht) as [(line & rest & -> & Hl & El)|[Hl El]].
      + left. exists (x :: line), rest. rewrite El, <- app_assoc. split_and!; [done|by constructor|done].
      + right. split; [by constructor|done]. }
  intros H. exact (G text [] H).
Qed.

Lemma grep_lines_spec pattern n : forall pre text zs out fuel, (length text <= n)%nat -> (length text < fuel)%nat ->
  Forall (fun x => x <> 0) text ->
  exists buf p, grep_lines fuel pattern (pre ++ text ++ 0 :: zs) (length pre) out = Some (buf, p, out ++ matching pattern text).
Proof.
  induction n as [|n IH]; intros pre text zs out fuel Hn Hf Hz; destruct fuel as [|fuel]; try lia; cbn [grep_lines];
    rewrite drop_app_length; destruct (lines_split text Hz) as [(line & rest & -> & Hl & El)|[Hl El]].
  - rewrite length_app in Hn. cbn in Hn. lia.
  - rewrite strchr_none by done. unfold matching. rewrite El. cbn. rewrite app_nil_r. eauto.
  - rewrite length_app in Hn, Hf. cbn in Hn, Hf. rewrite <- app_assoc. cbn [app]. rewrite strchr_line by done.
    replace (length pre + length line - length pre)%nat with (length line) by lia. rewrite take_app_length.
    apply Forall_app in Hz as [_ Hz]. inversion Hz as [|? ? _ Hr]; subst.
    unfold matching. rewrite El, filter_cons. destruct (match_re pattern line) eqn:Em.
    + destruct (IH (pre ++ line ++ [c_newline]) rest zs (out ++ line ++ [c_newline]) fuel) as (buf & p & E); [lia|lia|done|].
      exists buf, p. rewrite decide_True by done. rewrite fmap_cons. cbn [concat]. fold (matching pattern rest).
      rewrite <- (app_assoc out) in E. etransitivity; [|exact E]. f_equal; [by rewrite <- !app_assoc|]. rewrite !length_app. cbn. lia.
    + destruct (IH (pre ++ line ++ [0]) rest zs out fuel) as (buf & p & E); [lia|lia|done|]. exists buf, p.
      rewrite decide_False by done. fold (matching pattern rest). rewrite <- E. f_equal.
      * rewrite insert_app_r. rewrite <- (Nat.add_0_r (length line)), insert_app_r. by rewrite <- !app_assoc.
      * rewrite !length_app. cbn. lia.
  - rewrite strchr_none by done. unfold matching. rewrite El. cbn. rewrite app_nil_r. eauto.
Qed.

(** On an input that one [read] returns, [grep] writes exactly the complete lines that match
    the pattern, in order. *)
Theorem grep_one_read (pattern text : list Z) :
  Forall (fun x => x <> 0) text -> text <> [] -> (length text < GREPBUF)%nat ->
  grep pattern [text] (replicate GREPBUF 0) 0 [] = Some (matching pattern text).
Proof.
  intros Hz Hne Hl. cbn [grep]. destruct text as [|c text]; [done|]. set (t := c :: text) in *.
  rewrite take_0, Nat.add_0_l, drop_replicate. replace (GREPBUF - length t)%nat with (S (GREPBUF - length t - 1)) by lia.
  cbn [replicate app]. destruct (grep_lines_spec pattern (length t) [] t (replicate (GREPBUF - length t - 1) 0) [] (S GREPBUF)) as (buf & p & E); [lia|lia|done|].
  cbn [app length] in E. rewrite E. by destruct (0 <? _)%nat.
Qed.

(** [grep] does not terminate the buffer after what it read: bytes that an earlier read
    left there are taken as input.  With the reads "ab", newline, "cd", newline and then "x",
    it writes the lines "xb" and "cd", which the input does not contain, after the lines
    of the input. *)
Theorem grep_stale :
  let input := [[97; 98; 10; 99; 100; 10]; [120]] in
  grep [] input (replicate GREPBUF 0) 0 [] = Some ([97; 98; 10; 99; 100; 10] ++ [120; 98; 10] ++ [99; 100; 10]) /\
  matching [] (concat input) = [97; 98; 10; 99; 100; 10].
Proof. vm_compute. split; reflexivity. Qed.

Lemma grep_one_read_witness : grep [98] [[97; 98; 10; 99; 10]] (replicate GREPBUF 0) 0 [] = Some [97; 98; 10].
Proof.
  rewrite (grep_one_read [98] [97; 98; 10; 99; 10]).
  - reflexivity.
  - repeat constructor; discriminate.
  - discriminate.
  - unfold GREPBUF. cbn. lia.
Defined.
