(* ===== verification/Umalloc.v ===== *)
(** [user/umalloc.c]: the allocator of user programs, after Kernighan and Ritchie.

    The free blocks are on a circular list in the order of their addresses, which starts at the
    static header [base]; [freep] points to some element.  A block is a header followed by
    its contents; its size counts units of eight bytes and includes the header. *)
From stdpp Require Import relations.
From S2P Require Import Prelude.

(** ** Code *)

(** The two fields of every header, by address, the variable [freep], and the end of the heap,
    which [sbrk] moves. *)
Record heap := mkHeap { h_ptr : Z -> Z; h_size : Z -> Z; h_freep : Z; h_brk : Z }.

Definition fupd (f : Z -> Z) (a v : Z) : Z -> Z := fun x => if x =? a then v else f x.
Definition set_ptr (a v : Z) (h : heap) : heap := mkHeap (fupd (h_ptr h) a v) (h_size h) (h_freep h) (h_brk h).
Definition set_size (a v : Z) (h : heap) : heap := mkHeap (h_ptr h) (fupd (h_size h) a v) (h_freep h) (h_brk h).
Definition set_freep (p : Z) (h : heap) : heap := mkHeap (h_ptr h) (h_size h) p (h_brk h).

(** [sizeof(Header)], and [p + p->s.size] *)
Definition HDR : Z := 8.
Definition block_end (h : heap) (p : Z) : Z := u32 (p + HDR * h_size h p).

Section umalloc.
(** The address of [base], and whether the kernel grants [n] more bytes when the heap ends
    at [b]. *)
Context (base : Z) (grant : Z -> Z -> bool).

(** The loop of [free]: the free block after which [bp] belongs. *)
Fixpoint free_loop (fuel : nat) (bp p : Z) (h : heap) : option Z :=
  match fuel with
  | O => None
  | S fuel' =>
      if (p <? bp) && (bp <? h_ptr h p) then Some p
      else if (h_ptr h p <=? p) && ((p <? bp) || (bp <? h_ptr h p)) then Some p
      else free_loop fuel' bp (h_ptr h p) h
  end.

(** The heap has at most one block per unit. *)
Definition heap_fuel (h : heap) : nat := S (S (Z.to_nat (h_brk h))).

Definition free (ap : Z) (h : heap) : option heap :=
  let bp := u32 (ap - HDR) in
  match free_loop (heap_fuel h) bp (h_freep h) h with
  | None => None
  | Some p =>
      let next := h_ptr h p in
      let h :=
        if block_end h bp =? next then
          set_ptr bp (h_ptr h next) (set_size bp (u32 (h_size h bp + h_size h next)) h)
        else set_ptr bp next h in
      let h :=
        if block_end h p =? bp then
          set_ptr p (h_ptr h bp) (set_size p (u32 (h_size h p + h_size h bp)) h)
        else set_ptr p bp h in
      Some (set_freep p h)
  end.

(** [sbrk(n)] with its [int] argument: the old end of the heap, or [None] for [-1].  The kernel
    ([growproc]) grows the process by a positive [n]; for a negative one [deallocuvm] gives up memory, but
    none when the sum wraps around, and a new size of 0 counts as a failure. *)
Definition sbrk (n : Z) (h : heap) : option (Z * heap) :=
  let moved b := Some (h_brk h, mkHeap (h_ptr h) (h_size h) (h_freep h) b) in
  if 0 <? n then if grant (h_brk h) n then moved (h_brk h + n) else None
  else if n <? 0 then
    let newsz := u32 (h_brk h + n) in
    let sz := if h_brk h <=? newsz then h_brk h else newsz in
    if sz =? 0 then None else moved sz
  else moved (h_brk h).

(** The result of [morecore] and of [malloc]; a null pointer is 0. *)
Definition morecore (nu : Z) (h : heap) : option (Z * heap) :=
  let nu := if nu <? 4096 then 4096 else nu in
  match sbrk (s32 (u32 (nu * HDR))) h with
  | None => Some (0, h)
  | Some (p, h) =>
      match free (u32 (p + HDR)) (set_size p nu h) with
      | None => None
      | Some h => Some (h_freep h, h)
      end
  end.

Fixpoint malloc_loop (fuel : nat) (nunits prevp p : Z) (h : heap) : option (Z * heap) :=
  match fuel with
  | O => None
  | S fuel' =>
      if nunits <=? h_size h p then
        if h_size h p =? nunits then
          Some (u32 (p + HDR), set_freep prevp (set_ptr prevp (h_ptr h p) h))
        else
          let h := set_size p (h_size h p - nunits) h in
          let q := block_end h p in
          Some (u32 (q + HDR), set_freep prevp (set_size q nunits h))
      else if p =? h_freep h then
        match morecore nunits h with
        | None => None
        | Some (p, h) => if p =? 0 then Some (0, h) else malloc_loop fuel' nunits p (h_ptr h p) h
        end
      else malloc_loop fuel' nunits p (h_ptr h p) h
  end.

Definition malloc_fuel (h : heap) : nat := (2 * Z.to_nat (h_brk h) + 8)%nat.

Definition nunits_of (nbytes : Z) : Z := u32 (nbytes + HDR - 1) / HDR + 1.

Definition malloc (nbytes : Z) (h : heap) : option (Z * heap) :=
  let nunits := nunits_of nbytes in
  let h :=
    if h_freep h =? 0 then set_size base 0 (set_freep base (set_ptr base base h)) else h in
  malloc_loop (malloc_fuel h) nunits (h_freep h) (h_ptr h (h_freep h)) h.

End umalloc.

(** ** Linked lists

    [links R l b]: neighbours of [l] are related by [R], and its last element with [b]. *)
Definition hd_or (b : Z) (l : list Z) : Z := default b (head l).
Fixpoint links (R : Z -> Z -> Prop) (l : list Z) (b : Z) : Prop :=
  match l with
  | [] => True
  | x :: l' => R x (hd_or b l') /\ links R l' b
  end.

Lemma links_app R l1 l2 b : links R (l1 ++ l2) b <-> links R l1 (hd_or b l2) /\ links R l2 b.
Proof.
  induction l1 as [|x l1 IH]; cbn [app links]; [tauto|]. rewrite IH.
  replace (hd_or b (l1 ++ l2)) with (hd_or (hd_or b l2) l1) by by destruct l1. tauto.
Qed.
Lemma links_mono (R R' : Z -> Z -> Prop) l b : links R l b -> (forall x y, x ∈ l -> R x y -> R' x y) -> links R' l b.
Proof.
  induction l as [|x l IH]; cbn [links]; [done|]. intros [H1 H2] E. split; [apply E; [by left|done]|].
  apply IH; [done|]. intros y z Hy. apply E. by right.
Qed.
(** A circular list may be entered anywhere. *)
Lemma links_rotate R l1 l2 a b : links R (a :: l1 ++ b :: l2) a -> links R (b :: l2 ++ a :: l1) b.
Proof. rewrite !app_comm_cons, !links_app. cbn [hd_or head default app]. tauto. Qed.

(** The fields of the headers on the list. *)
Definition next_is (h : heap) (x y : Z) : Prop := h_ptr h x = y.
Definition before (h : heap) (x y : Z) : Prop := x + HDR * h_size h x < y.

(** Everything after an element of an ordered list is beyond its end. *)
Lemma before_all h l b : links (before h) l b -> Forall (fun x => 0 <= h_size h x) l ->
  forall l1 x l2 y, l = l1 ++ x :: l2 -> y ∈ l2 ++ [b] -> before h x y.
Proof.
  intros HL HS l1 x l2 y ->. apply links_app in HL as [_ HL]. apply Forall_app in HS as [_ HS]. clear l1.
  revert x HL HS. induction l2 as [|z l2 IH]; intros x [H1 H2] HS Hy.
  - apply list_elem_of_singleton in Hy as ->. exact H1.
  - cbn in H1. apply Forall_cons in HS as [_ HS]. pose proof (Forall_inv HS) as Hz. cbn in Hz. apply elem_of_cons in Hy as [->|Hy]; [exact H1|].
    specialize (IH z H2 HS Hy). unfold before, HDR in *. lia.
Qed.

(** ** The invariant *)

(** The units in a list of blocks. *)
Definition units (h : heap) (l : list Z) : Z := foldr (fun a n => h_size h a + n) 0 l.
Definition apart (h : heap) (x y : Z) : Prop := x + HDR * h_size h x <= y \/ y + HDR * h_size h y <= x.

(** The heap from [lo] on consists of the free blocks [F] and the allocated blocks [A]. *)
Record heap_ok (base lo : Z) (h : heap) (F A : list Z) : Prop := {
  ho_base : 0 < base /\ base + HDR <= lo /\ h_size h base = 0;
  ho_brk : lo <= h_brk h < 2 ^ 31;
  ho_list : links (next_is h) (base :: F) base;
  ho_freep : h_freep h ∈ base :: F;
  ho_order : links (before h) (base :: F) (h_brk h + 1);
  ho_blocks : forall a, a ∈ F \/ a ∈ A -> lo <= a /\ 1 <= h_size h a /\ a + HDR * h_size h a <= h_brk h;
  ho_nodup : NoDup A;
  ho_free : forall a b, a ∈ A -> b ∈ F -> apart h a b;
  ho_apart : forall a b, a ∈ A -> b ∈ A -> a <> b -> apart h a b;
  ho_units : HDR * (units h F + units h A) = h_brk h - lo;
  ho_align : forall a, a ∈ F \/ a ∈ A -> (HDR | a - lo) }.

Section proofs.
Context (base lo : Z).

Lemma heap_sizes h F A : heap_ok base lo h F A -> Forall (fun x => 0 <= h_size h x) (base :: F).
Proof.
  intros H. constructor; [destruct (ho_base _ _ _ _ _ H) as (_ & _ & ->); lia|]. apply Forall_forall. intros x Hx.
  destruct (ho_blocks _ _ _ _ _ H x (or_introl Hx)). lia.
Qed.
Lemma heap_base_notin h F A : heap_ok base lo h F A -> base ∉ F.
Proof. intros H Hin. destruct (ho_blocks _ _ _ _ _ H base (or_introl Hin)) as [? _], (ho_base _ _ _ _ _ H) as (_ & ? & _). unfold HDR in *. lia. Qed.
Lemma heap_nodup h F A : heap_ok base lo h F A -> NoDup (base :: F).
Proof.
  intros H. pose proof (heap_sizes _ _ _ H) as HS. pose proof (ho_order _ _ _ _ _ H) as HL. revert HS HL.
  generalize (h_brk h + 1). generalize (base :: F). induction l as [|x l IH]; intros b HS HL; constructor.
  - intros Hin. pose proof (before_all h (x :: l) b HL HS [] x l x eq_refl) as B. unfold before, HDR in B.
    apply Forall_cons in HS as [Hx _]. specialize (B ltac:(set_solver)). lia.
  - apply Forall_cons in HS as [_ HS]. destruct HL as [_ HL]. by eapply IH.
Qed.

Lemma units_app h l1 l2 : units h (l1 ++ l2) = units h l1 + units h l2.
Proof. unfold units. induction l1 as [|x l1 IH]; cbn [app foldr]; [lia|]. rewrite IH. lia. Qed.
Lemma units_ext h h' l : (forall x, x ∈ l -> h_size h' x = h_size h x) -> units h' l = units h l.
Proof. unfold units. induction l as [|x l IH]; intros E; cbn [foldr]; [done|]. rewrite IH, E; [done|by left|]. intros y Hy. apply E. by right. Qed.
Lemma units_perm h l l' : l ≡ₚ l' -> units h l = units h l'.
Proof. unfold units. induction 1; cbn [foldr]; lia. Qed.

(** *** The place of a block *)
Lemma place bp N b h : links (before h) N b -> Forall (fun x => 0 <= h_size h x) N -> bp ∉ N -> hd_or bp N < bp ->
  exists u p v, N = u ++ p :: v /\ p < bp /\ forall y, y ∈ v -> bp < y.
Proof.
  induction N as [|x N IH]; intros HL HS Hn Hx; [cbn in Hx; lia|]. cbn in Hx. destruct HL as [_ HL]. pose proof HS as [_ HS']%Forall_cons.
  destruct N as [|y N]; [exists [], x, []; split_and!; [done|done|]; by intros y Hy%elem_of_nil|].
  destruct (Z.lt_ge_cases y bp) as [Hlt|Hge].
  - destruct (IH HL HS' ltac:(set_solver) Hlt) as (u & p & v & E & H1 & H2). exists (x :: u), p, v. split_and!; [by rewrite E|done|done].
  - exists [], x, (y :: N). split_and!; [done|done|]. intros z Hz. assert (y <> bp) by set_solver.
    apply elem_of_cons in Hz as [->|Hz]; [lia|]. pose proof (before_all h (y :: N) b HL HS' [] y N z eq_refl ltac:(set_solver)) as B.
    apply Forall_cons in HS' as [Hy _]. unfold before, HDR in B. lia.
Qed.

(** The test of the loop of [free]. *)
Definition stops (h : heap) (bp p : Z) : bool :=
  (p <? bp) && (bp <? h_ptr h p) || (h_ptr h p <=? p) && ((p <? bp) || (bp <? h_ptr h p)).

Lemma free_loop_walk h bp p s2 b s1 : forall fuel, links (next_is h) (s1 ++ p :: s2) b ->
  Forall (fun x => stops h bp x = false) s1 -> stops h bp p = true -> (length s1 < fuel)%nat ->
  free_loop fuel bp (hd_or p s1) h = Some p.
Proof.
  assert (Est : forall fuel x, free_loop (S fuel) bp x h = if stops h bp x then Some x else free_loop fuel bp (h_ptr h x) h).
  { intros fuel x. cbn [free_loop]. unfold stops. by destruct ((x <? bp) && (bp <? h_ptr h x)). }
  induction s1 as [|x s1 IH]; intros fuel HL HS Hp Hf; destruct fuel as [|fuel]; try (cbn in Hf; lia); rewrite Est.
  - change (hd_or p []) with p. by rewrite Hp.
  - change (hd_or p (x :: s1)) with x. apply Forall_cons in HS as [-> HS]. destruct HL as [H1 H2]. unfold next_is in H1.
    replace (hd_or b (s1 ++ p :: s2)) with (hd_or p s1) in H1 by by destruct s1. rewrite H1. apply IH; [done..|]. cbn in Hf. lia.
Qed.

Lemma links_turn R n1 n2 b : n2 <> [] -> links R (n1 ++ n2) (hd_or b (n1 ++ n2)) -> links R (n2 ++ n1) (hd_or b (n2 ++ n1)).
Proof.
  intros Hne. rewrite !links_app. intros [H1 H2]. destruct n2 as [|y n2]; [done|]. destruct n1 as [|x n1]; [done|]. by split.
Qed.

Lemma heap_length h F A : heap_ok base lo h F A -> (length (base :: F) < heap_fuel h)%nat.
Proof.
  intros H. assert (HF : Z.of_nat (length F) <= units h F).
  { assert (Hs : Forall (fun x => 1 <= h_size h x) F).
    { apply Forall_forall. intros x Hx. by destruct (ho_blocks _ _ _ _ _ H x (or_introl Hx)) as (_ & ? & _). }
    unfold units. clear -Hs. induction Hs as [|x l Hx Hl IH]; [done|]. cbn [foldr length]. lia. }
  assert (HA : 0 <= units h A).
  { assert (Hs : Forall (fun x => 0 <= h_size h x) A).
    { apply Forall_forall. intros x Hx. destruct (ho_blocks _ _ _ _ _ H x (or_intror Hx)) as (_ & ? & _). lia. }
    unfold units. clear -Hs. induction Hs as [|x l Hx Hl IH]; [done|]. cbn [foldr]. lia. }
  pose proof (ho_units _ _ _ _ _ H). pose proof (ho_base _ _ _ _ _ H) as (? & ? & _). unfold heap_fuel, HDR in *. cbn [length]. lia.
Qed.

Lemma heap_ordered h F A l1 x l2 y : heap_ok base lo h F A -> base :: F = l1 ++ x :: l2 -> y ∈ l2 -> x < y.
Proof.
  intros H E Hy. pose proof (heap_sizes _ _ _ H) as HS.
  pose proof (before_all h (base :: F) _ (ho_order _ _ _ _ _ H) HS l1 x l2 y E ltac:(set_solver)) as B.
  rewrite E in HS. apply Forall_app in HS as [_ [Hx _]%Forall_cons]. unfold before, HDR in B. lia.
Qed.
Lemma heap_next h F A l1 x l2 : heap_ok base lo h F A -> base :: F = l1 ++ x :: l2 -> h_ptr h x = hd_or base l2.
Proof. intros H E. pose proof (ho_list _ _ _ _ _ H) as HL. rewrite E in HL. by apply links_app in HL as [_ [? _]]. Qed.
Lemma heap_base_le h F A x : heap_ok base lo h F A -> x ∈ base :: F -> base <= x.
Proof.
  intros H [->|Hx]%elem_of_cons; [lia|].
  destruct (ho_blocks _ _ _ _ _ H x (or_introl Hx)) as (? & _), (ho_base _ _ _ _ _ H) as (_ & ? & _). unfold HDR in *. lia.
Qed.

Lemma stops_at h F A bp u p v x : heap_ok base lo h F A -> base :: F = u ++ p :: v -> p < bp -> (forall y, y ∈ v -> bp < y) ->
  x ∈ base :: F -> stops h bp x = bool_decide (x = p).
Proof.
  intros H E Hp Hv Hx. assert (Hb : base <= p) by (apply (heap_base_le _ _ _ _ H); rewrite E; set_solver).
  pose proof (heap_nodup _ _ _ H) as ND. unfold stops. rewrite E in Hx. apply elem_of_app in Hx as [Hx|[->|Hx]%elem_of_cons].
  - apply list_elem_of_split in Hx as (u1 & u2 & ->). rewrite <- app_assoc in E. cbn in E.
    rewrite (heap_next _ _ _ _ _ _ H E). replace (hd_or base (u2 ++ p :: v)) with (hd_or p u2) by by destruct u2.
    assert (Hy : hd_or p u2 <= p).
    { destruct u2 as [|y u2]; cbn; [lia|].
      assert (y < p); [|lia]. apply (heap_ordered h F A (u1 ++ [x]) y (u2 ++ p :: v) p H); [by rewrite E, <- app_assoc|set_solver]. }
    assert (x < hd_or p u2) by (apply (heap_ordered h F A u1 x (u2 ++ p :: v) _ H E); destruct u2; cbn; set_solver).
    rewrite bool_decide_eq_false_2 by lia. apply orb_false_intro; [apply andb_false_intro2; lia|]. apply andb_false_intro1. lia.
  - rewrite (heap_next _ _ _ _ _ _ H E), bool_decide_eq_true_2 by done. destruct v as [|q v]; cbn.
    + apply orb_true_intro. right. apply andb_true_intro. lia.
    + specialize (Hv q ltac:(set_solver)). lia.
  - pose proof (Hv x Hx). rewrite bool_decide_eq_false_2 by lia. apply list_elem_of_split in Hx as (v1 & v2 & ->).
    rewrite app_comm_cons, app_assoc in E. rewrite (heap_next _ _ _ _ _ _ H E).
    apply orb_false_intro; [apply andb_false_intro1; lia|]. destruct v2 as [|y v2]; cbn; [apply andb_false_intro2; lia|].
    pose proof (heap_ordered _ _ _ _ _ _ y H E ltac:(set_solver)). apply andb_false_intro1. lia.
Qed.

Lemma free_loop_finds h F A bp : heap_ok base lo h F A -> bp ∉ base :: F -> base < bp ->
  exists u p v, base :: F = u ++ p :: v /\ p < bp /\ (forall y, y ∈ v -> bp < y) /\
    free_loop (heap_fuel h) bp (h_freep h) h = Some p.
Proof.
  intros H Hn Hb. pose proof (heap_sizes _ _ _ H) as HS. pose proof (ho_order _ _ _ _ _ H) as HO. pose proof (ho_list _ _ _ _ _ H) as HL.
  destruct (place bp (base :: F) _ h HO HS Hn Hb) as (u & p & v & E & Hp & Hv). exists u, p, v. split_and!; try done.
  pose proof (fun x => stops_at h F A bp u p v x H E Hp Hv) as Hs.
  destruct (list_elem_of_split _ _ (ho_freep _ _ _ _ _ H)) as (n1 & n2 & En).
  change base with (hd_or base (base :: F)) in HL at 2. rewrite En in HL. apply links_turn in HL; [|done].
  assert (Hperm : (h_freep h :: n2) ++ n1 ≡ₚ base :: F) by (rewrite En; apply Permutation_app_comm).
  assert (Hin : p ∈ (h_freep h :: n2) ++ n1) by (rewrite Hperm, E; set_solver).
  destruct (list_elem_of_split _ _ Hin) as (s1 & s2 & Es).
  assert (Hin' : forall x, x ∈ s1 ++ p :: s2 -> x ∈ base :: F) by (intros x; by rewrite <- Es, Hperm).
  pose proof (heap_nodup _ _ _ H) as ND. rewrite <- Hperm, Es in ND. apply NoDup_app in ND as (_ & Hd & _).
  pose proof (heap_length _ _ _ H) as Hl. rewrite <- Hperm, Es, length_app in Hl. rewrite Es in HL.
  replace (h_freep h) with (hd_or p s1) by (destruct s1; by injection Es).
  eapply free_loop_walk; [exact HL| | |lia].
  - apply Forall_forall. intros x Hx. rewrite Hs by (apply Hin'; set_solver). apply bool_decide_eq_false_2. intros ->. apply (Hd p Hx). set_solver.
  - rewrite Hs by (apply Hin'; set_solver). by apply bool_decide_eq_true_2.
Qed.

(** *** Changing a part of the list *)

(** A block within the heap and apart from the blocks of [A]. *)
Definition sound (h : heap) (A : list Z) (x : Z) : Prop :=
  lo <= x /\ 1 <= h_size h x /\ x + HDR * h_size h x <= h_brk h /\ forall a, a ∈ A -> apart h a x.

Lemma heap_sound h F A x : heap_ok base lo h F A -> x ∈ F -> sound h A x.
Proof.
  intros H Hx. destruct (ho_blocks _ _ _ _ _ H x (or_introl Hx)) as (? & ? & ?). split_and!; try done.
  intros a Ha. by apply (ho_free _ _ _ _ _ H).
Qed.
Lemma sound_same h h' A x : sound h A x -> h_brk h' = h_brk h -> (forall y, y ∈ x :: A -> h_size h' y = h_size h y) -> sound h' A x.
Proof.
  intros (H1 & H2 & H3 & H4) Hb E. unfold sound, apart. rewrite Hb, !E by set_solver. split_and!; try done.
  intros a Ha. rewrite E by set_solver. by apply H4.
Qed.
Lemma before_same h h' l b : links (before h) l b -> (forall x, x ∈ l -> h_size h' x = h_size h x) -> links (before h') l b.
Proof. intros HL E. apply (links_mono _ _ _ _ HL). intros x y Hx. unfold before. by rewrite E. Qed.
Lemma next_same h h' l b : links (next_is h) l b -> (forall x, x ∈ l -> h_ptr h' x = h_ptr h x) -> links (next_is h') l b.
Proof. intros HL E. apply (links_mono _ _ _ _ HL). intros x y Hx. unfold next_is. by rewrite E. Qed.

(** The list [u ++ p :: z ++ w] becomes [u ++ p :: m ++ w], and the blocks of [p :: m] take the
    place of the block [bp] and of the blocks of [p :: z]. *)
Lemma heap_replace h h' F A bp u p z w m : heap_ok base lo h F (bp :: A) -> base :: F = u ++ p :: z ++ w ->
  (forall x, x ∈ u ++ w -> h_ptr h' x = h_ptr h x) -> (forall x, x ∈ u ++ w ++ A -> h_size h' x = h_size h x) ->
  links (next_is h') (p :: m) (hd_or base w) -> links (before h') (p :: m) (hd_or (h_brk h + 1) w) ->
  (p = base /\ h_size h' p = 0 \/ sound h' A p) -> Forall (sound h' A) m -> (forall x, x ∈ m -> x = bp) ->
  units h' (p :: m) = units h (bp :: p :: z) -> h_freep h' = p -> h_brk h' = h_brk h ->
  exists F', base :: F' = u ++ p :: m ++ w /\ heap_ok base lo h' F' A.
Proof.
  intros H E Hptr Hsz Hnext Hord Hp Hm Hmb Hun Hfp Hbrk.
  assert (exists F', base :: F' = u ++ p :: m ++ w) as (F' & E').
  { destruct u as [|b u]; injection E as -> _; eexists; reflexivity. }
  exists F'. split; [done|]. pose proof (heap_base_notin _ _ _ H) as Hnb. pose proof H as [H1 H2 H3 H4 H5 H6 H7 H8 H9 H10 H11]. rewrite E in H3, H5. apply links_app in H3 as [L1 L2], H5 as [O1 O2].
  rewrite (app_comm_cons z w p), links_app in L2, O2. destruct L2 as [_ L2], O2 as [_ O2].
  assert (Hs : forall x, x ∈ F' -> sound h' A x).
  { intros x Hx. assert (Hc : x ∈ F /\ x ∈ u ++ w \/ x ∈ m \/ x = p /\ x ∈ F).
    { destruct u as [|b u]; injection E as -> ->; injection E' as ->; set_solver. }
    destruct Hc as [[HF Hx']|[Hx'|[-> HF]]].
    - destruct (heap_sound _ _ _ _ H HF) as (S1 & S2 & S3 & S4). apply (sound_same h); [|done|intros y Hy; apply Hsz; set_solver].
      split_and!; try done. intros a Ha. apply S4. by right.
    - by apply (proj1 (Forall_forall _ _) Hm).
    - destruct Hp as [[-> _]|Hp]; [by destruct Hnb|done]. }
  assert (Hb0 : h_size h' base = 0).
  { destruct u as [|b u]; injection E as -> _; [|rewrite Hsz by set_solver; tauto].
    destruct Hp as [[_ ?]|[? _]]; [done|]. unfold HDR in *. lia. }
  assert (Hu : units h' F' + units h' A = units h F + units h (bp :: A)).
  { change (units h F) with (0 + units h F). destruct H1 as (_ & _ & <-). change (h_size h base + units h F) with (units h (base :: F)).
    assert (EF : units h' F' = units h' (base :: F')) by (unfold units; cbn [foldr]; lia).
    rewrite EF, E, E'. revert Hun. change (units h (bp :: ?l)) with (h_size h bp + units h l). rewrite !app_comm_cons, !units_app.
    rewrite (units_ext h h' u), (units_ext h h' w), (units_ext h h' A) by (intros; apply Hsz; set_solver). lia. }
  constructor.
  - tauto.
  - by rewrite Hbrk.
  - rewrite E'. apply links_app. split; [by apply (next_same h); [|set_solver]|]. rewrite app_comm_cons. apply links_app. split; [done|].
    apply (next_same h); [done|set_solver].
  - rewrite E', Hfp. set_solver.
  - rewrite E', Hbrk. apply links_app. split; [by apply (before_same h); [|set_solver]|]. rewrite app_comm_cons. apply links_app. split; [done|].
    apply (before_same h); [done|set_solver].
  - intros a [Ha|Ha]; [destruct (Hs a Ha) as (? & ? & ? & _); done|]. rewrite Hsz, Hbrk by set_solver. apply H6. right. by right.
  - by apply NoDup_cons in H7 as [_ ?].
  - intros a b Ha Hb. by apply (Hs b Hb).
  - intros a b Ha Hb Hne. unfold apart. rewrite !Hsz by set_solver. apply H9; [by right..|done].
  - by rewrite Hu, Hbrk.
  - intros a [Ha|Ha]; [|apply H11; right; by right]. assert (Hc : a ∈ F \/ a = bp).
    { destruct u as [|b u]; injection E as -> ->; injection E' as ->; set_solver. }
    apply H11. destruct Hc as [?| ->]; [by left|right; by left].
Qed.

(** *** [free] *)
Lemma fupd_eq f a v : fupd f a v a = v.
Proof. unfold fupd. by rewrite Z.eqb_refl. Qed.
Lemma fupd_ne f a v x : x <> a -> fupd f a v x = f x.
Proof. unfold fupd. by intros ->%Z.eqb_neq. Qed.

(** The blocks around the place of [bp]. *)
Record around (h : heap) (F A : list Z) (bp : Z) (u : list Z) (p : Z) (v : list Z) : Prop := {
  ar_list : base :: F = u ++ p :: v;
  ar_prev : p + HDR * h_size h p <= bp;
  ar_next : forall y, y ∈ v -> bp + HDR * h_size h bp <= y;
  ar_free : h_ptr h p = hd_or base v;
  ar_p : p = base /\ h_size h p = 0 \/ p ∈ F;
  ar_bp : sound h A bp;
  ar_new : bp ∉ A;
  ar_out : bp ∉ u ++ p :: v;
  ar_dis : forall x, x ∈ u ++ p :: v -> x ∉ A;
  ar_dup : NoDup (u ++ p :: v) }.

Lemma free_around h F A bp : heap_ok base lo h F (bp :: A) ->
  exists u p v, around h F A bp u p v /\ free_loop (heap_fuel h) bp (h_freep h) h = Some p.
Proof.
  intros H. pose proof (heap_nodup _ _ _ H) as ND. destruct (ho_base _ _ _ _ _ H) as (B1 & B2 & B3).
  assert (Hdis : forall x, x ∈ base :: F -> x ∉ bp :: A).
  { intros x [->|Hx]%elem_of_cons Hx'.
    - destruct (ho_blocks _ _ _ _ _ H base (or_intror Hx')). unfold HDR in *. lia.
    - destruct (ho_free _ _ _ _ _ H x x Hx' Hx); destruct (ho_blocks _ _ _ _ _ H x (or_introl Hx)) as (_ & ? & _); unfold HDR in *; lia. }
  assert (Hbp : bp ∈ bp :: A) by by left. destruct (ho_blocks _ _ _ _ _ H bp (or_intror Hbp)) as (P1 & P2 & P3).
  destruct (free_loop_finds h F (bp :: A) bp H) as (u & p & v & E & Hp & Hv & Hl); [set_solver|unfold HDR in *; lia|].
  exists u, p, v. split; [|done]. pose proof (ho_nodup _ _ _ _ _ H) as [HnA _]%NoDup_cons.
  assert (Hin : forall x, x ∈ F -> x + HDR * h_size h x <= bp \/ bp + HDR * h_size h bp <= x).
  { intros x Hx. destruct (ho_free _ _ _ _ _ H bp x Hbp Hx); tauto. }
  assert (HpF : p = base /\ h_size h p = 0 \/ p ∈ F).
  { assert (p ∈ base :: F) as [->|?]%elem_of_cons by (rewrite E; set_solver); tauto. }
  assert (HvF : forall y, y ∈ v -> y ∈ F) by (destruct u as [|b u]; injection E as -> ->; set_solver).
  constructor; try done.
  - destruct HpF as [[-> ->]|HpF]; [unfold HDR; lia|]. destruct (Hin p HpF); [done|unfold HDR in *; lia].
  - intros y Hy. pose proof (Hv y Hy). destruct (ho_blocks _ _ _ _ _ H y (or_introl (HvF y Hy))). destruct (Hin y (HvF y Hy)); [unfold HDR in *; lia|done].
  - apply (heap_next h F _ u p v H E).
  - split_and!; try done. intros a Ha. apply (ho_apart _ _ _ _ _ H); set_solver.
  - rewrite <- E. set_solver.
  - rewrite <- E. set_solver.
  - by rewrite <- E.
Qed.

(** After the first test of [free], [bp] includes the blocks [z] and points to the rest [w]. *)
Record joined (h h1 : heap) (A : list Z) (bp : Z) (z w : list Z) : Prop := {
  jo_ptr : h_ptr h1 bp = hd_or base w;
  jo_ptrs : forall x, x <> bp -> h_ptr h1 x = h_ptr h x;
  jo_size : h_size h1 bp = h_size h bp + units h z;
  jo_sizes : forall x, x <> bp -> h_size h1 x = h_size h x;
  jo_rest : h_freep h1 = h_freep h /\ h_brk h1 = h_brk h;
  jo_sound : sound h1 A bp;
  jo_before : before h1 bp (hd_or (h_brk h + 1) w);
  jo_most : (length z <= 1)%nat }.

Definition join_next (bp next : Z) (h : heap) : heap :=
  if block_end h bp =? next then set_ptr bp (h_ptr h next) (set_size bp (u32 (h_size h bp + h_size h next)) h)
  else set_ptr bp next h.

Lemma join_next_ok h F A bp u p v : heap_ok base lo h F (bp :: A) -> around h F A bp u p v ->
  exists z w, v = z ++ w /\ joined h (join_next bp (h_ptr h p) h) A bp z w.
Proof.
  intros H R. destruct (ar_bp _ _ _ _ _ _ _ R) as (P1 & P2 & P3 & P4). destruct (ho_base _ _ _ _ _ H) as (B1 & B2 & _). pose proof (ho_brk _ _ _ _ _ H) as Hbrk.
  assert (HbA := ar_new _ _ _ _ _ _ _ R).
  unfold join_next, block_end. rewrite (ar_free _ _ _ _ _ _ _ R). unfold HDR in *. rewrite u32_small by lia.
  destruct (Z.eqb_spec (bp + 8 * h_size h bp) (hd_or base v)) as [Eq|Ne].
  - destruct v as [|q v]; [cbn in Eq; lia|]. cbn in Eq. exists [q], v. split; [done|].
    assert (Hq : q ∈ F).
    { pose proof (ar_list _ _ _ _ _ _ _ R) as E. destruct u as [|b u]; injection E as -> ->; set_solver. }
    destruct (heap_sound _ _ _ _ H Hq) as (Q1 & Q2 & Q3 & Q4). pose proof (ar_list _ _ _ _ _ _ _ R) as E.
    change (hd_or base (q :: v)) with q.
    assert (E' : base :: F = (u ++ [p]) ++ q :: v) by by rewrite E, <- app_assoc.
    pose proof (heap_next _ _ _ _ _ _ H E') as Hnq. pose proof (ho_order _ _ _ _ _ H) as HO. rewrite E' in HO. apply links_app in HO as [_ [HO _]].
    rewrite u32_small by (unfold HDR in *; lia).
    constructor; cbn [set_ptr set_size h_ptr h_size h_freep h_brk]; try done; rewrite ?fupd_eq; try done.
    + intros x Hx. by rewrite fupd_ne.
    + unfold units. cbn [foldr]. lia.
    + intros x Hx. by rewrite fupd_ne.
    + unfold sound, apart. cbn [set_ptr set_size h_ptr h_size h_freep h_brk]. rewrite fupd_eq. unfold HDR in *. split_and!; try lia.
      intros a Ha. rewrite fupd_ne by (intros ->; done). specialize (P4 a Ha). specialize (Q4 a ltac:(by right)).
      destruct (ho_blocks _ _ _ _ _ H a ltac:(right; by right)) as (_ & ? & _). unfold apart, HDR in *. lia.
    + unfold before in *. cbn [set_ptr set_size h_ptr h_size h_freep h_brk]. rewrite fupd_eq. unfold HDR in *. lia.
  - exists [], v. split; [done|].
    constructor; cbn [set_ptr set_size h_ptr h_size h_freep h_brk]; try done; rewrite ?fupd_eq; try done.
    + intros x Hx. by rewrite fupd_ne.
    + unfold units. cbn [foldr]. lia.
    + unfold before. cbn [set_ptr h_size]. destruct v as [|q v]; cbn in *; [unfold HDR; lia|].
      pose proof (ar_next _ _ _ _ _ _ _ R q ltac:(set_solver)). unfold HDR in *. lia.
    + cbn. lia.
Qed.

Definition join_prev (p bp : Z) (h : heap) : heap :=
  if block_end h p =? bp then set_ptr p (h_ptr h bp) (set_size p (u32 (h_size h p + h_size h bp)) h)
  else set_ptr p bp h.

(** What [free] promises. *)
Definition freed_ok (h : heap) (F A : list Z) (bp : Z) (h' : heap) : Prop :=
  exists F', heap_ok base lo h' F' A /\ h_brk h' = h_brk h /\ (length F' <= S (length F))%nat /\
    (forall a, a ∈ A -> h_size h' a = h_size h a) /\ exists x, x ∈ F' /\ h_size h bp <= h_size h' x.

Section join_prev.
Context (h h1 : heap) (F A : list Z) (bp : Z) (u : list Z) (p : Z) (z w : list Z).
Context (H : heap_ok base lo h F (bp :: A)) (R : around h F A bp u p (z ++ w)) (J : joined h h1 A bp z w).

Lemma join_units : 0 <= units h z.
Proof.
  destruct R as [R1 _ _ _ _ _ _ _ _ _]. assert (Hs : Forall (fun x => 0 <= h_size h x) z).
  { pose proof (heap_sizes _ _ _ H) as HS. rewrite R1 in HS. apply Forall_app in HS as [_ [_ [HS _]%Forall_app]%Forall_cons]. done. }
  unfold units. clear -Hs. induction Hs as [|x l Hx Hl IH]; [done|]. cbn [foldr]. lia.
Qed.
Lemma join_prev_sound : p = base /\ h_size h p = 0 \/ sound h (bp :: A) p.
Proof. destruct R as [R1 R2 R3 R4 R5 _ _ _ _ _]. destruct R5 as [R5|R5]; [by left|right]. by apply (heap_sound h F). Qed.
Lemma join_others x : x ∈ u ++ w ++ A -> x <> p /\ x <> bp.
Proof.
  destruct J as [J1 J2 J3 J4 [J5 J6] J7 J8 J9]. destruct R as [R1 R2 R3 R4 R5 R6 R7 R8 R9 R10]. intros Hx. split; [|set_solver].
  apply NoDup_app in R10 as (_ & U & [V _]%NoDup_cons). intros ->. specialize (R9 p). specialize (U p). set_solver.
Qed.
Lemma join_length : S (length F) = (length u + S (length z + length w))%nat.
Proof. destruct R as [R1 _ _ _ _ _ _ _ _ _]. change (S (length F)) with (length (base :: F)). rewrite R1, length_app. cbn. by rewrite length_app. Qed.
Lemma join_prev_end : block_end h1 p = p + 8 * h_size h p.
Proof.
  destruct J as [J1 J2 J3 J4 [J5 J6] J7 J8 J9]. destruct R as [R1 R2 R3 R4 R5 R6 R7 R8 R9 R10].
  assert (Hp1 : h_size h1 p = h_size h p) by (apply J4; set_solver).
  assert (Hp0 : 0 <= h_size h p) by (destruct R5 as [[_ ->]|R5]; [done|destruct (heap_sound _ _ _ _ H R5); lia]).
  destruct J7 as (S1 & S2 & S3 & S4). pose proof (ho_brk _ _ _ _ _ H) as Hbrk. rewrite J6 in S3.
  destruct (ho_base _ _ _ _ _ H) as (B1 & B2 & _). pose proof (heap_base_le _ _ _ p H ltac:(rewrite R1; set_solver)) as Hbp.
  unfold block_end. rewrite Hp1. unfold HDR in *. apply u32_small. lia.
Qed.
(** [bp] follows the block before it without a gap. *)
Lemma join_prev_merge : p + 8 * h_size h p = bp ->
  freed_ok h F A bp (set_freep p (set_ptr p (h_ptr h1 bp) (set_size p (u32 (h_size h1 p + h_size h1 bp)) h1))).
Proof.
  pose proof join_units as Hz. pose proof join_prev_sound as Hps. pose proof join_others as N. pose proof join_length as Hlen.
  destruct J as [J1 J2 J3 J4 [J5 J6] J7 J8 J9]. destruct R as [R1 R2 R3 R4 R5 R6 R7 R8 R9 R10]. intros Eq.
  assert (Hp1 : h_size h1 p = h_size h p) by (apply J4; set_solver). destruct J7 as (S1 & S2 & S3 & S4). pose proof (ho_brk _ _ _ _ _ H) as Hbrk. rewrite J6 in S3.
  destruct (ho_base _ _ _ _ _ H) as (B1 & B2 & _). pose proof (heap_base_le _ _ _ p H ltac:(rewrite R1; set_solver)) as Hbp. unfold HDR in *.
  assert (Hp0 : 0 <= h_size h p) by (destruct Hps as [[_ ->]|(? & ? & _)]; lia).
  set (h' := set_freep p (set_ptr p (h_ptr h1 bp) (set_size p (u32 (h_size h1 p + h_size h1 bp)) h1))).
  assert (Hsp : h_size h' p = h_size h p + h_size h1 bp) by (cbn; rewrite fupd_eq, u32_small by lia; lia).
  assert (Hss : forall x, x ∈ u ++ w ++ A -> h_size h' x = h_size h x).
  { intros x Hx. destruct (N x Hx). cbn. rewrite fupd_ne by done. by apply J4. }
  edestruct (heap_replace h h' F A bp u p z w [] H R1) as (F' & E' & H'); try done.
  - intros x Hx. destruct (N x ltac:(set_solver)). cbn. rewrite fupd_ne by done. by apply J2.
  - split; [|done]. unfold next_is. cbn. by rewrite fupd_eq.
  - split; [|done]. unfold before in *. change (p + HDR * h_size h' p < hd_or (h_brk h + 1) w). rewrite Hsp. unfold HDR in *. lia.
  - right. destruct Hps as [[-> Hs0]|(Q1 & Q2 & Q3 & Q4)]; [lia|]. unfold sound, apart. rewrite Hsp. cbn [h' set_freep set_ptr set_size h_brk].
    unfold HDR in *. split_and!; try lia. intros a Ha. rewrite Hss by set_solver. specialize (S4 a Ha). specialize (Q4 a ltac:(by right)).
    destruct (ho_blocks _ _ _ _ _ H a ltac:(right; by right)) as (_ & ? & _). unfold apart, HDR in *. rewrite J4 in S4 by set_solver. lia.
  - by intros x ?%elem_of_nil.
  - unfold units in *. cbn [foldr]. lia.
  - exists F'. split_and!; try done.
    + apply (f_equal length) in E'. rewrite length_app in E'. cbn in E'. lia.
    + intros a Ha. apply Hss. set_solver.
    + exists p. split; [|lia]. assert (Hb : p ∈ base :: F') by (rewrite E'; set_solver). apply elem_of_cons in Hb as [->|]; [|done].
      destruct Hps as [[_ ?]|[? _]]; lia.
Qed.

(** There is a gap. *)
Lemma join_prev_link : p + 8 * h_size h p <> bp -> freed_ok h F A bp (set_freep p (set_ptr p bp h1)).
Proof.
  pose proof join_units as Hz. pose proof join_prev_sound as Hps. pose proof join_others as N. pose proof join_length as Hlen.
  destruct J as [J1 J2 J3 J4 [J5 J6] J7 J8 J9]. destruct R as [R1 R2 R3 R4 R5 R6 R7 R8 R9 R10]. intros Ne.
  assert (Hpb : p <> bp) by set_solver. assert (Hp1 : h_size h1 p = h_size h p) by by apply J4. unfold HDR in *.
  pose proof (heap_base_le _ _ _ p H ltac:(rewrite R1; set_solver)) as Hbp. destruct (ho_base _ _ _ _ _ H) as (B1 & B2 & _).
  assert (Hp0 : 0 <= h_size h p) by (destruct Hps as [[_ ->]|(? & ? & _)]; lia).
  edestruct (heap_replace h (set_freep p (set_ptr p bp h1)) F A bp u p z w [bp] H R1) as (F' & E' & H').
  all: cbn [set_freep set_ptr set_size h_ptr h_size h_freep h_brk]; try done.
  - intros x Hx. destruct (N x ltac:(set_solver)). rewrite fupd_ne by done. by apply J2.
  - intros x Hx. apply J4. by destruct (N x Hx).
  - cbn. unfold next_is. cbn. rewrite fupd_eq, fupd_ne by done. done.
  - cbn. unfold before in *. cbn. unfold HDR in *. split; [lia|done].
  - destruct Hps as [Hps|Hps]; [left; lia|right]. apply (sound_same h); [|done|intros x Hx; apply J4; set_solver].
    destruct Hps as (? & ? & ? & Hap). split_and!; try done. intros a Ha. apply Hap. by right.
  - apply Forall_singleton. destruct J7 as (S1 & S2 & S3 & S4). by split_and!.
  - by intros x ?%list_elem_of_singleton.
  - unfold units in *. cbn [foldr]. cbn [set_freep set_ptr h_size]. lia.
  - exists F'. split_and!; try done.
    + apply (f_equal length) in E'. rewrite length_app in E'. cbn in E'. lia.
    + intros a Ha. apply J4. set_solver.
    + exists bp. cbn. split; [|lia]. assert (Hb : bp ∈ base :: F') by (rewrite E'; set_solver). apply elem_of_cons in Hb as [->|]; [|done]. lia.
Qed.

Lemma join_prev_ok : freed_ok h F A bp (set_freep p (join_prev p bp h1)).
Proof.
  unfold join_prev. rewrite join_prev_end. destruct (Z.eqb_spec (p + 8 * h_size h p) bp); [by apply join_prev_merge|by apply join_prev_link].
Qed.
End join_prev.

Lemma free_ok h F A bp : heap_ok base lo h F (bp :: A) -> exists h', free (u32 (bp + HDR)) h = Some h' /\ freed_ok h F A bp h'.
Proof.
  intros H. destruct (free_around h F A bp H) as (u & p & v & R & Hl). destruct (join_next_ok _ _ _ _ _ _ _ H R) as (z & w & -> & J).
  pose proof (ar_bp _ _ _ _ _ _ _ R) as (P1 & P2 & P3 & _). pose proof (ho_brk _ _ _ _ _ H). pose proof (ho_base _ _ _ _ _ H).
  exists (set_freep p (join_prev p bp (join_next bp (h_ptr h p) h))). split; [|by eapply join_prev_ok].
  unfold free. replace (u32 (u32 (bp + HDR) - HDR)) with bp by (unfold HDR in *; rewrite !u32_small by (rewrite ?u32_small by lia; lia); lia).
  by rewrite Hl.
Qed.

(** *** Taking a block off the list *)
Definition malloc_take (n prevp p : Z) (h : heap) : Z * heap :=
  if h_size h p =? n then (u32 (p + HDR), set_freep prevp (set_ptr prevp (h_ptr h p) h))
  else (u32 (block_end (set_size p (h_size h p - n) h) p + HDR),
        set_freep prevp (set_size (block_end (set_size p (h_size h p - n) h) p) n (set_size p (h_size h p - n) h))).

(** What [malloc] promises of a block it takes. *)
Definition taken_ok (n : Z) (h : heap) (A : list Z) (r : Z * heap) : Prop :=
  exists a F', r.1 = a + HDR /\ heap_ok base lo r.2 F' (a :: A) /\ h_size r.2 a = n /\ forall b, b ∈ A -> h_size r.2 b = h_size h b.

Lemma apart_sym h x y : apart h x y -> apart h y x.
Proof. unfold apart. tauto. Qed.
Lemma heap_free_apart h F A x y : heap_ok base lo h F A -> x ∈ F -> y ∈ F -> x <> y -> apart h x y.
Proof.
  intros H Hx Hy Hne. pose proof (heap_sizes _ _ _ H) as HS. pose proof (ho_order _ _ _ _ _ H) as HO.
  destruct (list_elem_of_split (base :: F) x) as (l1 & l2 & E); [by right|].
  assert (Hy' : y ∈ l1 ++ x :: l2) by (rewrite <- E; by right). apply elem_of_app in Hy' as [Hy'|[->|Hy']%elem_of_cons]; [|done|].
  - apply list_elem_of_split in Hy' as (k1 & k2 & ->). rewrite <- app_assoc in E.
    pose proof (before_all h _ _ HO HS _ _ _ x E ltac:(set_solver)) as B. unfold before, apart in *. lia.
  - pose proof (before_all h _ _ HO HS _ _ _ y E ltac:(set_solver)) as B. unfold before, apart in *. lia.
Qed.
Lemma heap_disjoint h F A x : heap_ok base lo h F A -> x ∈ F -> x ∉ A.
Proof.
  intros H Hx HA. destruct (ho_blocks _ _ _ _ _ H x (or_introl Hx)) as (_ & ? & _). destruct (ho_free _ _ _ _ _ H x x HA Hx); unfold HDR in *; lia.
Qed.
Lemma heap_pred h F A prevp x : heap_ok base lo h F A -> prevp ∈ base :: F -> h_ptr h prevp = x -> x <> base ->
  exists u v, base :: F = u ++ prevp :: x :: v.
Proof.
  intros H Hin Hx Hb. destruct (list_elem_of_split _ _ Hin) as (u & w & E). rewrite (heap_next _ _ _ _ _ _ H E) in Hx.
  destruct w as [|y w]; cbn in Hx; [done|]. exists u, w. by subst.
Qed.

Lemma take_exact h F A prevp x : heap_ok base lo h F A -> prevp ∈ base :: F -> h_ptr h prevp = x -> x <> base ->
  exists F', heap_ok base lo (set_freep prevp (set_ptr prevp (h_ptr h x) h)) F' (x :: A).
Proof.
  intros H Hin Hx Hb. destruct (heap_pred _ _ _ _ _ H Hin Hx Hb) as (u & v & E). pose proof (heap_nodup _ _ _ H) as ND.
  assert (exists F', base :: F' = u ++ prevp :: v) as (F' & E') by (destruct u as [|b u]; injection E as -> _; eexists; reflexivity).
  assert (HP : F ≡ₚ x :: F').
  { apply (Permutation_cons_inv (a := base)). rewrite Permutation_swap, E, E'. rewrite !(cons_middle prevp), !app_assoc. symmetry. apply Permutation_middle. }
  assert (HF : forall y, y ∈ F -> y = x \/ y ∈ F') by (intros y; rewrite HP; set_solver).
  assert (HxF : x ∈ F) by (rewrite HP; by left). assert (HF' : forall y, y ∈ F' -> y ∈ F /\ y <> x).
  { intros y Hy. split; [rewrite HP; by right|]. intros ->. apply NoDup_cons in ND as [_ ND]. rewrite HP in ND. by apply NoDup_cons in ND as [? _]. }
  exists F'. pose proof H as [H1 H2 H3 H4 H5 H6 H7 H8 H9 H10 H11].
  constructor; cbn [set_freep set_ptr h_ptr h_size h_freep h_brk]; try done.
  - rewrite E in H3, ND. rewrite E'. apply links_app in H3 as [L1 (_ & L2 & L3)]. apply NoDup_app in ND as (_ & N1 & [N2 [_ _]%NoDup_cons]%NoDup_cons).
    apply links_app. split; [|split].
    + apply (next_same h); [done|]. intros y Hy. cbn. apply fupd_ne. intros ->. apply (N1 _ Hy). by left.
    + unfold next_is in *. cbn [set_freep set_ptr h_ptr]. by rewrite fupd_eq.
    + apply (next_same h); [done|]. intros y Hy. cbn. apply fupd_ne. intros ->. apply N2. by right.
  - rewrite E'. set_solver.
  - rewrite E in H5. rewrite E'. apply links_app in H5 as [O1 (O2 & O3 & O4)]. apply links_app. split; [done|]. split; [|done].
    pose proof (H6 x (or_introl HxF)) as (_ & ? & _). unfold before in *. cbn in O2 |- *. unfold HDR in *. lia.
  - intros a [Ha|[->|Ha]%elem_of_cons]; apply H6; [left; by apply HF'|by left|by right].
  - constructor; [by apply (heap_disjoint h F)|done].
  - intros a b [->|Ha]%elem_of_cons [Hb' Hbx]%HF'; [by apply (heap_free_apart h F A)|by apply H8].
  - intros a b [->|Ha]%elem_of_cons [->|Hb']%elem_of_cons Hne; try done; [by apply apart_sym, H8|by apply H8|by apply H9].
  - rewrite <- H10, (units_perm h F (x :: F') HP). unfold units. cbn [foldr set_freep set_ptr h_size]. lia.
  - intros a [Ha|[->|Ha]%elem_of_cons]; apply H11; [left; by apply HF'|by left|by right].
Qed.

Lemma take_split h F A n prevp x : heap_ok base lo h F A -> prevp ∈ base :: F -> x ∈ F -> 1 <= n < h_size h x ->
  let q := x + HDR * (h_size h x - n) in
  heap_ok base lo (set_freep prevp (set_size q n (set_size x (h_size h x - n) h))) F (q :: A) /\ q <> x /\ q ∉ A.
Proof.
  intros H Hin Hx Hn q. pose proof H as [H1 H2 H3 H4 H5 H6 H7 H8 H9 H10 H11]. destruct (H6 x (or_introl Hx)) as (X1 & X2 & X3).
  assert (Hq : x < q) by (unfold q, HDR; lia).
  assert (Hin' : forall y, apart h x y -> q + HDR * n <= y \/ y + HDR * h_size h y <= x) by (unfold apart, q, HDR; intros; lia).
  assert (HqF : forall y, y ∈ base :: F -> y <> q).
  { intros y Hy ->. apply elem_of_cons in Hy as [Hy|Hy]; [unfold HDR in *; lia|]. destruct (H6 q (or_introl Hy)) as (_ & ? & _).
    pose proof (Hin' _ (heap_free_apart _ _ _ _ _ H Hx Hy ltac:(lia))). unfold HDR in *. lia. }
  assert (HqA : forall y, y ∈ A -> y <> q /\ y <> x).
  { intros y Hy. pose proof (Hin' y (apart_sym _ _ _ (H8 y x Hy Hx))). destruct (H6 y (or_intror Hy)) as (_ & ? & _).
    unfold HDR in *. split; lia. }
  set (h' := set_freep prevp (set_size q n (set_size x (h_size h x - n) h))).
  assert (Sq : h_size h' q = n) by (cbn; by rewrite fupd_eq).
  assert (Sx : h_size h' x = h_size h x - n) by (cbn; by rewrite fupd_ne, fupd_eq by lia).
  assert (So : forall y, y <> q -> y <> x -> h_size h' y = h_size h y) by (intros y Y1 Y2; cbn; by rewrite !fupd_ne).
  split; [|split; [lia|intros Hc; by destruct (HqA _ Hc)]].
  assert (Sle : forall y, y ∈ base :: F -> h_size h' y <= h_size h y).
  { intros y Hy. destruct (decide (y = x)) as [->|]; [lia|]. rewrite So; [lia|by apply HqF|done]. }
  assert (Hxb : base <> x) by (unfold HDR in *; lia).
  constructor; try done.
  - rewrite So by (try done; apply HqF; by left). tauto.
  - apply (links_mono _ _ _ _ H5). intros a b Ha. unfold before. specialize (Sle a Ha). unfold HDR in *. lia.
  - intros a [Ha|[->|Ha]%elem_of_cons]; change (h_brk h') with (h_brk h).
    + destruct (H6 a (or_introl Ha)) as (? & ? & ?). specialize (Sle a ltac:(by right)). assert (1 <= h_size h' a).
      { destruct (decide (a = x)) as [->|]; [lia|]. rewrite So; [lia|apply HqF; by right|done]. } unfold HDR in *. lia.
    + rewrite Sq. unfold q, HDR in *. lia.
    + destruct (HqA a Ha). rewrite So by done. apply H6. by right.
  - constructor; [|done]. intros Hc. by destruct (HqA _ Hc).
  - intros a b Ha Hb. specialize (HqF b ltac:(by right)). unfold apart. apply elem_of_cons in Ha as [->|Ha].
    + rewrite Sq. destruct (decide (b = x)) as [->|Hbx]; [rewrite Sx; right; unfold q, HDR; lia|]. rewrite So by done.
      destruct (Hin' b (heap_free_apart _ _ _ _ _ H Hx Hb ltac:(done))); unfold HDR in *; lia.
    + destruct (HqA a Ha). rewrite (So a) by done. specialize (H8 a b Ha Hb). specialize (Sle b ltac:(by right)). unfold apart, HDR in *. lia.
  - assert (Hqa : forall a, a ∈ A -> apart h' q a).
    { intros a Ha. destruct (HqA a Ha). unfold apart. rewrite Sq, So by done. pose proof (Hin' a (apart_sym _ _ _ (H8 a x Ha Hx))). unfold HDR in *. lia. }
    intros a b [->|Ha]%elem_of_cons [->|Hb]%elem_of_cons Hne; [done|by apply Hqa|by apply apart_sym, Hqa|].
    unfold apart. destruct (HqA a Ha), (HqA b Hb). rewrite !So by done. by apply H9.
  - change (h_brk h') with (h_brk h). rewrite <- H10. destruct (elem_of_Permutation F x) as [[F0 HP] _]; [done|].
    pose proof (heap_nodup _ _ _ H) as [_ ND]%NoDup_cons. rewrite HP in ND. apply NoDup_cons in ND as [Hx0 _].
    rewrite !(units_perm _ F _ HP). unfold units at 1 2 3. cbn [foldr]. rewrite Sq, Sx. fold (units h' F0) (units h' A) (units h F0).
    rewrite (units_ext h h' F0), (units_ext h h' A); [lia| |].
    + intros y Hy. destruct (HqA y Hy). by apply So.
    + intros y Hy. apply So; [apply HqF; right; rewrite HP; by right|]. intros ->. done.
  - intros a [Ha|[->|Ha]%elem_of_cons]; [apply H11; by left| |apply H11; by right]. unfold q.
    replace (x + HDR * (h_size h x - n) - lo) with (x - lo + HDR * (h_size h x - n)) by lia. apply Z.divide_add_r; [apply H11; by left|apply Z.divide_factor_l].
Qed.

Lemma take_ok h F A n prevp x : heap_ok base lo h F A -> prevp ∈ base :: F -> h_ptr h prevp = x -> 1 <= n <= h_size h x ->
  taken_ok n h A (malloc_take n prevp x h).
Proof.
  intros H Hin Hp Hn. assert (Hb : x <> base) by (intros ->; destruct (ho_base _ _ _ _ _ H) as (_ & _ & E); lia).
  destruct (heap_pred _ _ _ _ _ H Hin Hp Hb) as (u & v & E). assert (Hx : x ∈ F).
  { assert (x ∈ base :: F) as [?|?]%elem_of_cons by (rewrite E; set_solver); done. }
  destruct (ho_blocks _ _ _ _ _ H x (or_introl Hx)) as (X1 & X2 & X3). pose proof (ho_brk _ _ _ _ _ H). pose proof (ho_base _ _ _ _ _ H) as (B1 & B2 & _).
  unfold malloc_take. destruct (Z.eqb_spec (h_size h x) n) as [Eq|Ne].
  - destruct (take_exact _ _ _ _ _ H Hin Hp Hb) as (F' & H'). exists x, F'. split_and!; try done. cbn. unfold HDR in *. rewrite u32_small by lia. done.
  - destruct (take_split h F A n prevp x H Hin Hx ltac:(lia)) as (H' & Hq & HqA).
    assert (Eb : block_end (set_size x (h_size h x - n) h) x = x + HDR * (h_size h x - n)).
    { unfold block_end. cbn [set_size h_size]. rewrite fupd_eq. unfold HDR in *. rewrite u32_small by lia. done. }
    rewrite Eb. exists (x + HDR * (h_size h x - n)), F. cbn [fst snd]. split_and!; try done.
    + unfold HDR in *. rewrite u32_small by lia. done.
    + cbn [set_freep set_size h_size]. by rewrite fupd_eq.
    + intros b Hb'. pose proof (heap_disjoint _ _ _ _ H Hx). cbn [set_freep set_size h_size]. by rewrite !fupd_ne by (intros ->; done).
Qed.

(** *** The loop of [malloc] *)
Context (grant : Z -> Z -> bool).

(** What happens when the loop is back at [freep]. *)
Definition malloc_grow (fuel : nat) (n : Z) (h : heap) : option (Z * heap) :=
  match morecore grant n h with
  | None => None
  | Some (p, h) => if p =? 0 then Some (0, h) else malloc_loop grant fuel n p (h_ptr h p) h
  end.

Lemma malloc_scan n h s : forall fuel prevp, links (next_is h) (prevp :: s) (h_freep h) -> h_freep h ∉ s -> (length s < fuel)%nat ->
  (exists prev x, prev ∈ prevp :: s /\ h_ptr h prev = x /\ n <= h_size h x /\
     malloc_loop grant fuel n prevp (h_ptr h prevp) h = Some (malloc_take n prev x h)) \/
  (forall x, x ∈ s ++ [h_freep h] -> h_size h x < n) /\
     malloc_loop grant fuel n prevp (h_ptr h prevp) h = malloc_grow (fuel - length s - 1) n h.
Proof.
  induction s as [|x s IH]; intros fuel prevp [L1 L2] Hn Hf; (destruct fuel as [|fuel]; [cbn in Hf; lia|]); unfold next_is in L1; cbn in L1; rewrite L1;
    cbn [malloc_loop].
  - destruct (Z.leb_spec n (h_size h (h_freep h))) as [Hle|Hlt].
    + left. exists prevp, (h_freep h). split_and!; [by left|done|done|]. unfold malloc_take. by destruct (_ =? n).
    + right. split; [intros x ->%list_elem_of_singleton; done|]. rewrite Z.eqb_refl. cbn. by rewrite Nat.sub_0_r.
  - destruct (Z.leb_spec n (h_size h x)) as [Hle|Hlt].
    + left. exists prevp, x. split_and!; [by left|done|done|]. unfold malloc_take. by destruct (_ =? n).
    + destruct (Z.eqb_spec x (h_freep h)) as [->|Hne]; [set_solver|].
      destruct (IH fuel x L2 ltac:(set_solver) ltac:(cbn in Hf; lia)) as [(prev & y & P1 & P2 & P3 & P4)|[P1 P2]].
      * left. exists prev, y. split_and!; try done. by right.
      * right. split; [|by rewrite P2]. intros y [->|Hy]%elem_of_cons; [done|by apply P1].
Qed.

Lemma malloc_scan_ok n h F A fuel : heap_ok base lo h F A -> 1 <= n -> (length F < fuel)%nat ->
  (exists r, malloc_loop grant fuel n (h_freep h) (h_ptr h (h_freep h)) h = Some r /\ taken_ok n h A r) \/
  (forall x, x ∈ F -> h_size h x < n) /\
     malloc_loop grant fuel n (h_freep h) (h_ptr h (h_freep h)) h = malloc_grow (fuel - length F - 1) n h.
Proof.
  intros H Hn Hf. pose proof (ho_list _ _ _ _ _ H) as HL. pose proof (heap_nodup _ _ _ H) as ND.
  destruct (list_elem_of_split _ _ (ho_freep _ _ _ _ _ H)) as (n1 & n2 & En).
  change base with (hd_or base (base :: F)) in HL at 2. rewrite En in HL. apply links_turn in HL; [|done]. cbn [app] in HL.
  assert (HP : base :: F ≡ₚ h_freep h :: n2 ++ n1) by (rewrite En; apply Permutation_app_comm).
  assert (Hl : length (n2 ++ n1) = length F) by (apply Permutation_length in HP; cbn in HP; lia).
  rewrite HP in ND. apply NoDup_cons in ND as [Hnf _].
  destruct (malloc_scan n h (n2 ++ n1) fuel (h_freep h) HL Hnf ltac:(lia)) as [(prev & x & P1 & P2 & P3 & P4)|[P1 P2]].
  - left. exists (malloc_take n prev x h). split; [done|]. apply (take_ok h F); [done|by rewrite HP|done|lia].
  - right. rewrite P2, Hl. split; [|done]. intros x Hx. apply P1. assert (Hx' : x ∈ base :: F) by by right. rewrite HP in Hx'. set_solver.
Qed.

(** *** More memory *)
Lemma before_end h l b b' : b <= b' -> links (before h) l b -> links (before h) l b'.
Proof.
  intros Hb. induction l as [|x l IH]; [done|]. intros [H1 H2]. split; [|by apply IH].
  destruct l; [cbn in *; unfold before in *; lia|done].
Qed.

Definition more (m : Z) (h : heap) : heap := set_size (h_brk h) m (mkHeap (h_ptr h) (h_size h) (h_freep h) (h_brk h + HDR * m)).

(** The new memory is an allocated block, until [morecore] frees it. *)
Lemma more_ok h F A m : heap_ok base lo h F A -> 1 <= m -> h_brk h + HDR * m < 2 ^ 31 -> heap_ok base lo (more m h) F (h_brk h :: A).
Proof.
  intros H Hm Hb. pose proof H as [H1 H2 H3 H4 H5 H6 H7 H8 H9 H10 H11].
  assert (Hne : forall a, a ∈ F \/ a ∈ A -> a <> h_brk h) by (intros a Ha; destruct (H6 a Ha) as (? & ? & ?); unfold HDR in *; lia).
  assert (Hbb : base <> h_brk h) by (unfold HDR in *; lia).
  assert (Hs : forall a, a <> h_brk h -> h_size (more m h) a = h_size h a) by (intros a Ha; cbn; by rewrite fupd_ne).
  assert (Hsb : h_size (more m h) (h_brk h) = m) by (cbn; by rewrite fupd_eq).
  assert (Hap : forall a, a ∈ F \/ a ∈ A -> apart (more m h) (h_brk h) a).
  { intros a Ha. destruct (H6 a Ha) as (_ & _ & ?). unfold apart. right. rewrite Hs by by apply Hne. done. }
  constructor; try done.
  - by rewrite Hs.
  - cbn. unfold HDR in *. lia.
  - apply (before_end _ _ (h_brk h + 1)); [cbn; unfold HDR; lia|]. apply (before_same h); [done|].
    intros x [->|Hx]%elem_of_cons; apply Hs; [done|apply Hne; by left].
  - intros a Ha. cbn [more set_size h_brk]. destruct (decide (a = h_brk h)) as [->|Hab]; [rewrite Hsb; unfold HDR in *; lia|].
    rewrite Hs by done. destruct (H6 a) as (? & ? & ?); [set_solver|]. unfold HDR in *. lia.
  - constructor; [|done]. intros Hc. by destruct (Hne _ (or_intror Hc)).
  - intros a b [->|Ha]%elem_of_cons Hb'; [apply Hap; by left|]. unfold apart. rewrite !Hs by (apply Hne; tauto). by apply H8.
  - intros a b [->|Ha]%elem_of_cons [->|Hb']%elem_of_cons Hab; [done|apply Hap; by right|apply apart_sym, Hap; by right|].
    unfold apart. rewrite !Hs by (apply Hne; tauto). by apply H9.
  - rewrite (units_ext h _ F) by (intros; apply Hs, Hne; by left). unfold units at 2. cbn [foldr]. rewrite Hsb.
    fold (units (more m h) A). rewrite (units_ext h _ A) by (intros; apply Hs, Hne; by right). cbn. unfold HDR in *. lia.
  - intros a [Ha|[->|Ha]%elem_of_cons]; [apply H11; by left| |apply H11; by right]. rewrite <- H10. apply Z.divide_factor_l.
Qed.

(** The kernel keeps every process below 2 GB. *)
Definition below_2g : Prop := forall b n, grant b n = true -> b + n < 2 ^ 31.
Definition morecore_units (n : Z) : Z := Z.max 4096 n.

Lemma morecore_ok h F A n : below_2g -> heap_ok base lo h F A -> 1 <= n -> HDR * n < 2 ^ 31 ->
  if grant (h_brk h) (HDR * morecore_units n) then
    exists h', morecore grant n h = Some (h_freep h', h') /\ freed_ok (more (morecore_units n) h) F A (h_brk h) h'
  else morecore grant n h = Some (0, h).
Proof.
  intros HG H Hn Hs. unfold morecore, sbrk, morecore_units. replace (if n <? 4096 then 4096 else n) with (Z.max 4096 n) by (destruct (Z.ltb_spec n 4096); lia).
  rewrite (u32_small (_ * _)), (s32_small (_ * _)), (Z.mul_comm _ HDR) by (unfold HDR in *; lia).
  destruct (Z.ltb_spec 0 (HDR * Z.max 4096 n)) as [_|?]; [|unfold HDR in *; lia].
  destruct (grant (h_brk h) _) eqn:E; [|done]. pose proof (HG _ _ E) as Hb.
  destruct (free_ok _ _ _ _ (more_ok h F A (Z.max 4096 n) H ltac:(lia) Hb)) as (h' & Hf & R).
  exists h'. split; [|done]. unfold more in Hf. by rewrite Hf.
Qed.

(** *** [malloc] *)

(** Before the first call, [freep] is null and the heap is empty. *)
Definition heap_inv (h : heap) (F A : list Z) : Prop :=
  heap_ok base lo h F A \/
  h_freep h = 0 /\ 0 < base /\ base + HDR <= lo /\ h_brk h = lo /\ lo < 2 ^ 31 /\ F = [] /\ A = [].

Definition malloc_init (h : heap) : heap :=
  if h_freep h =? 0 then set_size base 0 (set_freep base (set_ptr base base h)) else h.

Lemma malloc_init_ok h F A : heap_inv h F A ->
  heap_ok base lo (malloc_init h) F A /\ h_brk (malloc_init h) = h_brk h /\
  forall x, x ∈ F \/ x ∈ A -> h_size (malloc_init h) x = h_size h x.
Proof.
  unfold malloc_init. intros [H|(H1 & H2 & H3 & H4 & H5 & -> & ->)].
  - pose proof (heap_base_le _ _ _ _ H (ho_freep _ _ _ _ _ H)). destruct (ho_base _ _ _ _ _ H) as (? & _).
    destruct (Z.eqb_spec (h_freep h) 0); [lia|done].
  - rewrite H1. cbn [Z.eqb]. split_and!; [|done|intros x [?%elem_of_nil|?%elem_of_nil]; done].
    constructor; cbn [set_size set_freep set_ptr h_ptr h_size h_freep h_brk]; try by intros ? [?%elem_of_nil|?%elem_of_nil].
    + by rewrite fupd_eq.
    + lia.
    + split; [|done]. unfold next_is. cbn. by rewrite fupd_eq.
    + by left.
    + split; [|done]. unfold before. cbn. rewrite fupd_eq. unfold HDR in *. lia.
    + constructor.
    + by intros a b ?%elem_of_nil.
    + by intros a b ?%elem_of_nil.
    + cbn. lia.
Qed.

Lemma malloc_grow_ok n h F A fuel : below_2g -> heap_ok base lo h F A -> 1 <= n -> HDR * n < 2 ^ 31 -> (S (length F) < fuel)%nat ->
  if grant (h_brk h) (HDR * morecore_units n) then exists r, malloc_grow fuel n h = Some r /\ taken_ok n h A r
  else malloc_grow fuel n h = Some (0, h).
Proof.
  intros HG H Hn Hs Hf. pose proof (morecore_ok h F A n HG H Hn Hs) as M. unfold malloc_grow.
  destruct (grant (h_brk h) _); [|by rewrite M]. destruct M as (h' & -> & F' & H' & Hb & Hl & HA & x & Hx & Hsx).
  pose proof (heap_base_le _ _ _ _ H' (ho_freep _ _ _ _ _ H')). destruct (ho_base _ _ _ _ _ H') as (? & _).
  destruct (Z.eqb_spec (h_freep h') 0); [lia|].
  destruct (malloc_scan_ok n h' F' A fuel H' Hn ltac:(lia)) as [(r & Hr & a & F'' & R1 & R2 & R3 & R4)|[P _]].
  - exists r. split; [done|]. exists a, F''. split_and!; try done. intros b Hb'. rewrite R4, HA by done. cbn. apply fupd_ne.
    destruct (ho_blocks _ _ _ _ _ H b (or_intror Hb')) as (_ & ? & ?). unfold HDR in *. lia.
  - specialize (P x Hx). cbn [more set_size h_size] in Hsx. rewrite fupd_eq in Hsx. unfold morecore_units in Hsx. lia.
Qed.

Lemma nunits_of_ok nbytes : 0 <= nbytes < 2 ^ 31 - 16 -> 1 <= nunits_of nbytes /\ nbytes + HDR <= HDR * nunits_of nbytes < nbytes + 2 * HDR.
Proof.
  intros Hn. unfold nunits_of, HDR in *. rewrite u32_small by lia. pose proof (Z.div_mod (nbytes + 8 - 1) 8 ltac:(lia)).
  pose proof (Z.mod_pos_bound (nbytes + 8 - 1) 8 ltac:(lia)). lia.
Qed.

(** The outcome of [malloc]: a new block with enough room, or a null pointer because no free
    block is large enough and the kernel has no more memory. *)
Definition malloc_post (nbytes : Z) (h : heap) (F A : list Z) (r : Z * heap) : Prop :=
  (exists F', heap_ok base lo r.2 F' ((r.1 - HDR) :: A) /\ nbytes <= HDR * (h_size r.2 (r.1 - HDR) - 1) /\
     forall b, b ∈ A -> h_size r.2 b = h_size h b) \/
  r.1 = 0 /\ grant (h_brk h) (HDR * morecore_units (nunits_of nbytes)) = false /\
     (forall x, x ∈ F -> h_size h x < nunits_of nbytes) /\ heap_ok base lo r.2 F A /\ h_brk r.2 = h_brk h /\
     forall b, b ∈ A -> h_size r.2 b = h_size h b.

Lemma malloc_ok h F A nbytes : below_2g -> heap_inv h F A -> 0 <= nbytes < 2 ^ 31 - 16 ->
  exists r, malloc base grant nbytes h = Some r /\ malloc_post nbytes h F A r.
Proof.
  intros HG HI Hn. destruct (malloc_init_ok h F A HI) as (H & Hb & Hsz). destruct (nunits_of_ok _ Hn) as (N1 & N2).
  pose proof (heap_length _ _ _ H) as Hl. unfold heap_fuel in Hl. cbn [length] in Hl.
  assert (T : forall r, taken_ok (nunits_of nbytes) (malloc_init h) A r -> malloc_post nbytes h F A r).
  { intros r (a & F' & R1 & R2 & R3 & R4). left. exists F'. replace (r.1 - HDR) with a by lia. rewrite R3. split_and!; [done|lia|].
    intros b Hb'. rewrite R4 by done. apply Hsz. by right. }
  change (malloc base grant nbytes h) with
    (malloc_loop grant (malloc_fuel (malloc_init h)) (nunits_of nbytes) (h_freep (malloc_init h)) (h_ptr (malloc_init h) (h_freep (malloc_init h))) (malloc_init h)).
  destruct (malloc_scan_ok (nunits_of nbytes) _ F A (malloc_fuel (malloc_init h)) H N1) as [(r & Hr & R)|[P ->]]; [unfold malloc_fuel; lia|exists r; auto|].
  pose proof (malloc_grow_ok (nunits_of nbytes) _ F A (malloc_fuel (malloc_init h) - length F - 1) HG H N1 ltac:(unfold HDR in *; lia) ltac:(unfold malloc_fuel; lia)) as G.
  rewrite Hb in G. destruct (grant (h_brk h) _) eqn:Eg; [destruct G as (r & Hr & R); exists r; auto|].
  exists (0, malloc_init h). split; [done|]. right. split_and!; try done.
  - intros x Hx. rewrite <- Hsz by by left. by apply P.
  - intros b Hb'. apply Hsz. by right.
Qed.

Lemma heap_ok_perm h F A A' : A ≡ₚ A' -> heap_ok base lo h F A -> heap_ok base lo h F A'.
Proof.
  intros HP [H1 H2 H3 H4 H5 H6 H7 H8 H9 H10 H11]. constructor; try done.
  - intros a. rewrite <- HP. apply H6.
  - by rewrite <- HP.
  - intros a b. rewrite <- HP. apply H8.
  - intros a b. rewrite <- !HP. apply H9.
  - by rewrite <- (units_perm h A A' HP).
  - intros a. rewrite <- HP. apply H11.
Qed.
End proofs.

(** ** Programs *)

(** A program calls [malloc], and [free] on a block it has; the state has its blocks, each with the
    number of bytes it was asked for.  A request is for less than 2 GB ([2^31 - 16] bytes), so that
    the argument of [sbrk] is not negative. *)
Definition small_request (n : Z) : Prop := 0 <= n < 2 ^ 31 - 16.
Inductive ustep (base : Z) (grant : Z -> Z -> bool) : heap * list (Z * Z) -> heap * list (Z * Z) -> Prop :=
| us_malloc h A n p h' : small_request n -> malloc base grant n h = Some (p, h') ->
    ustep base grant (h, A) (h', if p =? 0 then A else (p - HDR, n) :: A)
| us_free h A1 a n A2 h' : free (u32 (a + HDR)) h = Some h' -> ustep base grant (h, A1 ++ (a, n) :: A2) (h', A1 ++ A2).

(** The memory of a new process: [freep] is null, and the heap is empty. *)
Definition heap0 (lo : Z) : heap := mkHeap (fun _ => 0) (fun _ => 0) 0 lo.

Section client.
Context (base lo : Z) (grant : Z -> Z -> bool) (HG : below_2g grant) (Hbase : 0 < base /\ base + HDR <= lo < 2 ^ 31).

Lemma free_any h F A1 a A2 : heap_inv base lo h F (A1 ++ a :: A2) ->
  exists h' F', free (u32 (a + HDR)) h = Some h' /\ heap_ok base lo h' F' (A1 ++ A2) /\
    forall b, b ∈ A1 ++ A2 -> h_size h' b = h_size h b.
Proof.
  intros [H|(_ & _ & _ & _ & _ & _ & E)]; [|by destruct A1].
  apply (heap_ok_perm _ _ _ _ _ (a :: A1 ++ A2)) in H; [|by rewrite Permutation_middle].
  destruct (free_ok base lo h F (A1 ++ A2) a H) as (h' & Hf & F' & R1 & _ & _ & R2 & _). by exists h', F'.
Qed.

(** The blocks are allocated, and each has room for its request. *)
Definition client_ok (s : heap * list (Z * Z)) : Prop :=
  (exists F, heap_inv base lo s.1 F (fst <$> s.2)) /\ Forall (fun x => snd x + HDR <= HDR * h_size s.1 (fst x)) s.2.

Lemma ustep_inv s s' : ustep base grant s s' -> client_ok s -> client_ok s'.
Proof.
  intros [h A n p h' Hn Hm|h A1 a n A2 h' Hf] [[F H] HR]; unfold client_ok; cbn [fst snd] in *.
  - destruct (malloc_ok base lo grant h F (fst <$> A) n HG H Hn) as (r & Hr & R). rewrite Hm in Hr. injection Hr as <-.
    assert (Keep : forall h1, (forall b, b ∈ fst <$> A -> h_size h1 b = h_size h b) -> Forall (fun x => snd x + HDR <= HDR * h_size h1 (fst x)) A).
    { intros h1 E. rewrite Forall_forall in HR |- *. intros x Hx. rewrite E by by apply list_elem_of_fmap_2. by apply HR. }
    destruct R as [(F' & R & Hs & HA)|(R0 & _ & _ & R & _ & HA)]; cbn [fst snd] in *.
    + destruct (ho_blocks _ _ _ _ _ R (p - HDR)) as (? & _); [right; by left|]. destruct (Z.eqb_spec p 0); [unfold HDR in *; lia|].
      split; [exists F'; by left|]. constructor; [cbn; lia|by apply Keep].
    + rewrite R0. split; [exists F; by left|by apply Keep].
  - rewrite fmap_app, fmap_cons in H. destruct (free_any _ _ _ _ _ H) as (h1 & F' & Hf' & R & HA). cbn [fst] in Hf'. rewrite Hf in Hf'. injection Hf' as <-.
    rewrite <- fmap_app in R. split; [exists F'; by left|]. apply Forall_app in HR as [HR1 [_ HR2]%Forall_cons].
    assert (HR : Forall (fun x => snd x + HDR <= HDR * h_size h (fst x)) (A1 ++ A2)) by by apply Forall_app.
    rewrite Forall_forall in HR |- *. intros x Hx. rewrite HA by (rewrite <- fmap_app; by apply list_elem_of_fmap_2). by apply HR.
Qed.
Lemma usteps_inv h A : rtc (ustep base grant) (heap0 lo, []) (h, A) -> client_ok (h, A).
Proof.
  intros Hs. assert (G : forall s s', rtc (ustep base grant) s s' -> client_ok s -> client_ok s').
  { induction 1 as [|s s1 s2 H1 _ IH]; [done|]. intros HI. by apply IH, (ustep_inv s). }
  apply (G _ _ Hs). split; [|constructor]. exists []. right. cbn [fst snd heap0 h_freep h_brk]. split_and!; try done; lia.
Qed.
End client.

(** [malloc] returns, for every request below 2 GB and every state of the heap: either a
    block with room for the request, which is apart from every block the program holds, or
    null, when no free block is large enough and the kernel refuses more memory.  The free
    list is again circular, in the order of the addresses, without adjacent blocks, and it
    and the blocks in use make up the whole heap. *)
Theorem malloc_correct base lo grant h F A nbytes :
  below_2g grant -> heap_inv base lo h F A -> 0 <= nbytes < 2 ^ 31 - 16 ->
  exists r, malloc base grant nbytes h = Some r /\ malloc_post base lo grant nbytes h F A r.
Proof. apply malloc_ok. Qed.

(** [free] returns: the search for the place of the block ends, the block is merged with
    the free blocks it touches, and the heap is again in order; the other blocks of the
    program keep their sizes. *)
Theorem free_correct base lo h F A1 a A2 : heap_ok base lo h F (A1 ++ a :: A2) ->
  exists h' F', free (u32 (a + HDR)) h = Some h' /\ heap_ok base lo h' F' (A1 ++ A2) /\
    forall b, b ∈ A1 ++ A2 -> h_size h' b = h_size h b.
Proof. intros H. apply (free_any base lo h F). by left. Qed.

(** C10. After any sequence of calls of [malloc] with requests below [2^31 - 16] bytes and of [free] on blocks the program
    holds: every block lies in the heap and has room for the bytes it was asked for after its header, and no two blocks
    overlap.  The next call returns, [malloc] of such a request as well as [free] of any block, and [malloc] returns null
    only when the kernel refuses more memory. *)
Theorem umalloc_client base lo grant h A :
  below_2g grant -> 0 < base /\ base + HDR <= lo < 2 ^ 31 -> rtc (ustep base grant) (heap0 lo, []) (h, A) ->
  (forall a n, (a, n) ∈ A -> lo <= a /\ a + HDR + n <= a + HDR * h_size h a <= h_brk h) /\
  (forall i j a n b k, A !! i = Some (a, n) -> A !! j = Some (b, k) -> i <> j -> apart h a b) /\
  (forall n, small_request n -> exists p h', malloc base grant n h = Some (p, h') /\
     (p = 0 -> grant (h_brk h) (HDR * morecore_units (nunits_of n)) = false)) /\
  (forall a n, (a, n) ∈ A -> exists h', free (u32 (a + HDR)) h = Some h').
Proof.
  intros HG Hb Hs. destruct (usteps_inv base lo grant HG Hb h A Hs) as [[F HI] HR]. cbn [fst snd] in *.
  assert (Hfree : forall a n, (a, n) ∈ A -> exists h', free (u32 (a + HDR)) h = Some h').
  { intros a n (A1 & A2 & ->)%list_elem_of_split. rewrite fmap_app, fmap_cons in HI. destruct (free_any base lo h F _ a _ HI) as (h' & _ & ? & _). by exists h'. }
  assert (Hm : forall n, small_request n -> exists p h', malloc base grant n h = Some (p, h') /\
     (p = 0 -> grant (h_brk h) (HDR * morecore_units (nunits_of n)) = false)).
  { intros n Hn. destruct (malloc_ok base lo grant h F (fst <$> A) n HG HI Hn) as ([p h'] & E & R). exists p, h'. split; [done|]. intros ->.
    destruct R as [(F' & R & _)|(_ & Hg & _)]; [|done]. cbn [fst snd] in R.
    destruct (ho_blocks _ _ _ _ _ R (0 - HDR)) as (? & _); [right; by left|]. destruct (ho_base _ _ _ _ _ R). unfold HDR in *. lia. }
  destruct HI as [H|(_ & _ & _ & _ & _ & _ & E)].
  2:{ apply fmap_nil_inv in E as ->. split_and!; try done; by intros a n ?%elem_of_nil. }
  split_and!; [| |done|done].
  - intros a n Ha. destruct (ho_blocks _ _ _ _ _ H a) as (? & _ & ?); [right; by apply (list_elem_of_fmap_2 fst) in Ha|].
    rewrite Forall_forall in HR. specialize (HR _ Ha). cbn in HR. lia.
  - intros i j a n b k Hi Hj Hne. pose proof (ho_nodup _ _ _ _ _ H) as ND.
    assert (Hi' : (fst <$> A) !! i = Some a) by by rewrite list_lookup_fmap, Hi.
    assert (Hj' : (fst <$> A) !! j = Some b) by by rewrite list_lookup_fmap, Hj.
    apply (ho_apart _ _ _ _ _ H); [by eapply list_elem_of_lookup_2|by eapply list_elem_of_lookup_2|].
    intros ->. apply Hne. by eapply NoDup_lookup.
Qed.

(** A request of 2 GB or more: [sbrk] gets a negative number and grants nothing, and [malloc] returns an address past the
    end of the heap. *)
Lemma malloc_2g : exists p h', malloc 64 (fun _ _ => false) (2 ^ 31) (heap0 4096) = Some (p, h') /\ h_brk h' = 4096 /\ 4096 < p.
Proof. eexists _, _. split; [vm_compute; reflexivity|]. by vm_compute. Qed.

(** The size computation wraps around: a request of almost 4 GB gets the smallest block. *)
Lemma nunits_wraps : nunits_of (2 ^ 32 - 1) = 1.
Proof. reflexivity. Qed.

(** *** Witnesses *)
Definition grant_1g (b n : Z) : bool := b + n <? 2 ^ 30.
Lemma grant_1g_below : below_2g grant_1g.
Proof. unfold below_2g, grant_1g. intros b n H. lia. Qed.

(** A heap of one free block of four units followed by an allocated one. *)
Definition heap2 : heap :=
  mkHeap (fun x => if x =? 64 then 4096 else 64) (fun x => if (x =? 4096) || (x =? 4128) then 4 else 0) 64 4160.
Lemma heap2_ok : heap_ok 64 4096 heap2 [4096] [4128].
Proof.
  constructor; try (cbn; lia); try by repeat constructor.
  - intros a [->%list_elem_of_singleton| ->%list_elem_of_singleton]; by vm_compute.
  - apply NoDup_singleton.
  - intros a b ->%list_elem_of_singleton ->%list_elem_of_singleton. right. by vm_compute.
  - intros a b ->%list_elem_of_singleton ->%list_elem_of_singleton. done.
  - intros a [->%list_elem_of_singleton| ->%list_elem_of_singleton]; [by exists 0|by exists 4].
Qed.

Lemma malloc_correct_witness : below_2g grant_1g /\ exists r, malloc 64 grant_1g 100 heap2 = Some r /\ malloc_post 64 4096 grant_1g 100 heap2 [4096] [4128] r.
Proof. split; [exact grant_1g_below|]. apply malloc_correct; [exact grant_1g_below|left; exact heap2_ok|lia]. Defined.

Lemma free_correct_witness : exists h' F', free (u32 (4128 + HDR)) heap2 = Some h' /\ heap_ok 64 4096 h' F' [] /\
  forall b, b ∈ @nil Z -> h_size h' b = h_size heap2 b.
Proof. apply (free_correct 64 4096 heap2 [4096] [] 4128 []). exact heap2_ok. Defined.

Lemma umalloc_client_witness : exists h a b, rtc (ustep 64 grant_1g) (heap0 4096, []) (h, [(a, 30); (b, 100)]) /\ apart h a b /\
  HDR + 30 <= HDR * h_size h a.
Proof.
  destruct (malloc_ok 64 4096 grant_1g (heap0 4096) [] [] 100 grant_1g_below) as ([p h1] & E & R).
  { right. split_and!; done. } { lia. }
  assert (Hp : p = 36760) by (vm_compute in E; by injection E). subst p.
  destruct R as [(F & R & _)|(R & _)]; [|done].
  destruct (malloc_ok 64 4096 grant_1g h1 F [36752] 30 grant_1g_below (or_introl R) ltac:(lia)) as ([q h2] & E2 & _).
  assert (Hq : q = 36720) by (vm_compute in E; injection E as <-; vm_compute in E2; by injection E2). subst q.
  assert (Hs : rtc (ustep 64 grant_1g) (heap0 4096, []) (h2, [(36712, 30); (36752, 100)])).
  { eapply rtc_l; [exact (us_malloc 64 grant_1g (heap0 4096) [] 100 _ h1 ltac:(unfold small_request; lia) E)|].
    eapply rtc_once. exact (us_malloc 64 grant_1g h1 [(36752, 100)] 30 _ h2 ltac:(unfold small_request; lia) E2). }
  exists h2, 36712, 36752. destruct (umalloc_client 64 4096 grant_1g h2 _ grant_1g_below ltac:(unfold HDR; lia) Hs) as (H1 & H2 & _).
  split_and!; [exact Hs|exact (H2 0%nat 1%nat _ _ _ _ eq_refl eq_refl ltac:(done))|]. destruct (H1 36712 30); [by left|lia].
Defined.
