(* ===== verification/Sh.v ===== *)
(** [user/sh.c], first part: the command parser of the shell.

    The parser works on the line in place.  A position is an index into the buffer, a token is
    a pair of positions, and [nulterminate] turns the tokens into strings at the end by
    writing zero bytes over what follows them. *)
From stdpp Require Import strings.
From S2P Require Import Prelude Types.

(** ** Code *)

(** What a parsing function does: it returns, or [panic]s with a message, which ends the
    process.  [NoFuel] is for the recursion bound of the model. *)
Inductive res (A : Type) :=
| Done (a : A)
| Panicked (msg : string)
| NoFuel.
Arguments Done {A} a.
Arguments Panicked {A} msg.
Arguments NoFuel {A}.

Definition res_bind {A B} (m : res A) (k : A -> res B) : res B :=
  match m with Done a => k a | Panicked e => Panicked e | NoFuel => NoFuel end.
Notation "'let?' x := m 'in' k" := (res_bind m (fun x => k)) 
  (at level 10, x strict pattern, m at level 100, k at level 200).

Definition MAXARGS : nat := 10.

(** A command with words of type [W].  The parser has pairs of positions as words, such as
    [file] and [efile]; the arrays [argv] and [eargv] of an [execcmd] are one list of such
    pairs, up to the null pointer. *)
Inductive cmd (W : Type) :=
| EXEC (argv : list W)
| REDIR (c : cmd W) (file : W) (mode fd : Z)
| PIPE (left right : cmd W)
| LIST (left right : cmd W)
| BACK (c : cmd W).
Arguments EXEC {W} argv.
Arguments REDIR {W} c file mode fd.
Arguments PIPE {W} left right.
Arguments LIST {W} left right.
Arguments BACK {W} c.

Definition word := (nat * nat)%type.

(** [strchr(s, c) != 0]: the search stops at the zero byte that ends [s]. *)
Definition in_str (s : list Z) (c : Z) : bool := existsb (Z.eqb c) s.

Definition whitespace : list Z := [32; 9; 13; 10; 11].
(** The characters [<], [|], [>], [&], [;], [(] and [)] *)
Definition symbols : list Z := [60; 124; 62; 38; 59; 40; 41].

(** [*s] *)
Definition ch (b : list Z) (s : nat) : Z := nth s b 0.

(** [while(s < es && p) s++], where [p] is a test of the character at [s] and [n] is [es - s] *)
Fixpoint skip (p : Z -> bool) (b : list Z) (n s : nat) : nat :=
  match n with
  | O => s
  | S n' => if p (ch b s) then skip p b n' (S s) else s
  end.
Definition skip_to (p : Z -> bool) (b : list Z) (es s : nat) : nat := skip p b (es - s) s.

(** The kind of a token, its two ends and the new position. *)
Definition gettoken (b : list Z) (es s : nat) : Z * nat * nat * nat :=
  let s := skip_to (in_str whitespace) b es s in
  let q := s in
  let c := ch b s in
  let '(ret, s) :=
    if c =? 0 then (c, s)
    else if (c =? 124) || (c =? 40) || (c =? 41) || (c =? 59) || (c =? 38) || (c =? 60) then (c, S s)
    else if c =? 62 then
      let s := S s in if ch b s =? 62 then (43, S s) else (c, s)
    else (97, skip_to (fun c => negb (in_str whitespace c) && negb (in_str symbols c)) b es s) in
  let eq := s in
  (ret, q, eq, skip_to (in_str whitespace) b es s).

Definition peek (b : list Z) (es s : nat) (toks : list Z) : nat * bool :=
  let s := skip_to (in_str whitespace) b es s in
  (s, negb (ch b s =? 0) && in_str toks (ch b s)).

(** The loop of [parseredirs]. *)
Fixpoint parseredirs (fuel : nat) (b : list Z) (es : nat) (c : cmd word) (s : nat) : res (cmd word * nat) :=
  match fuel with
  | O => NoFuel
  | S fuel' =>
      match peek b es s [60; 62] with
      | (s, false) => Done (c, s)
      | (s, true) =>
          let '(tok, _, _, s) := gettoken b es s in
          let '(tok2, q, eq, s) := gettoken b es s in
          if negb (tok2 =? 97) then Panicked "missing file for redirection"
          else
            let c :=
              if tok =? 60 then REDIR c (q, eq) O_RDONLY 0
              else if tok =? 62 then REDIR c (q, eq) (Z.lor O_WRONLY O_CREATE) 1
              else if tok =? 43 then REDIR c (q, eq) (Z.lor O_WRONLY O_CREATE) 1
              else c in
            parseredirs fuel' b es c s
      end
  end.

(** [cmd->argv[argc] = q; cmd->eargv[argc] = eq], where [cmd] is the [execcmd] inside the
    redirections that [ret] has by now *)
Fixpoint exec_add (q eq : nat) (ret : cmd word) : cmd word :=
  match ret with
  | EXEC argv => EXEC (argv ++ [(q, eq)])
  | REDIR c f m fd => REDIR (exec_add q eq c) f m fd
  | c => c
  end.

(** The loop of [parseexec]. *)
Fixpoint parseargs (fuel : nat) (b : list Z) (es argc : nat) (ret : cmd word) (s : nat) : res (cmd word * nat) :=
  match fuel with
  | O => NoFuel
  | S fuel' =>
      match peek b es s [124; 41; 38; 59] with
      | (s, true) => Done (ret, s)
      | (s, false) =>
          let '(tok, q, eq, s) := gettoken b es s in
          if tok =? 0 then Done (ret, s)
          else if negb (tok =? 97) then Panicked "syntax"
          else
            let ret := exec_add q eq ret in
            let argc := S argc in
            if (MAXARGS <=? argc)%nat then Panicked "too many args"
            else
              let? (ret, s) := parseredirs (S es) b es ret s in
              parseargs fuel' b es argc ret s
      end
  end.

(** The loop of [parseline]. *)
Fixpoint parsebacks (fuel : nat) (b : list Z) (es : nat) (c : cmd word) (s : nat) : res (cmd word * nat) :=
  match fuel with
  | O => NoFuel
  | S fuel' =>
      match peek b es s [38] with
      | (s, false) => Done (c, s)
      | (s, true) => let '(_, _, _, s) := gettoken b es s in parsebacks fuel' b es (BACK c) s
      end
  end.

Fixpoint parseline (fuel : nat) (b : list Z) (es s : nat) : res (cmd word * nat) :=
  match fuel with
  | O => NoFuel
  | S fuel' =>
      let? (c, s) := parsepipe fuel' b es s in
      let? (c, s) := parsebacks (S es) b es c s in
      match peek b es s [59] with
      | (s, true) =>
          let '(_, _, _, s) := gettoken b es s in
          let? (c', s) := parseline fuel' b es s in
          Done (LIST c c', s)
      | (s, false) => Done (c, s)
      end
  end
with parsepipe (fuel : nat) (b : list Z) (es s : nat) : res (cmd word * nat) :=
  match fuel with
  | O => NoFuel
  | S fuel' =>
      let? (c, s) := parseexec fuel' b es s in
      match peek b es s [124] with
      | (s, true) =>
          let '(_, _, _, s) := gettoken b es s in
          let? (c', s) := parsepipe fuel' b es s in
          Done (PIPE c c', s)
      | (s, false) => Done (c, s)
      end
  end
with parseexec (fuel : nat) (b : list Z) (es s : nat) : res (cmd word * nat) :=
  match fuel with
  | O => NoFuel
  | S fuel' =>
      match peek b es s [40] with
      | (s, true) => parseblock fuel' b es s
      | (s, false) =>
          let? (ret, s) := parseredirs (S es) b es (EXEC []) s in
          parseargs (S es) b es 0 ret s
      end
  end
with parseblock (fuel : nat) (b : list Z) (es s : nat) : res (cmd word * nat) :=
  match fuel with
  | O => NoFuel
  | S fuel' =>
      match peek b es s [40] with
      | (s, false) => Panicked "parseblock"
      | (s, true) =>
          let '(_, _, _, s) := gettoken b es s in
          let? (c, s) := parseline fuel' b es s in
          match peek b es s [41] with
          | (s, false) => Panicked "syntax - missing )"
          | (s, true) =>
              let '(_, _, _, s) := gettoken b es s in
              parseredirs (S es) b es c s
          end
      end
  end.

(** [*eq = 0] *)
Definition nul (eq : nat) (b : list Z) : list Z := <[eq := 0]> b.

Fixpoint nulterminate (c : cmd word) (b : list Z) : list Z :=
  match c with
  | EXEC argv => foldl (fun b a => nul a.2 b) b argv
  | REDIR c file mode fd => nul file.2 (nulterminate c b)
  | PIPE l r => nulterminate r (nulterminate l b)
  | LIST l r => nulterminate r (nulterminate l b)
  | BACK c => nulterminate c b
  end.

(** Every recursion of the parser reads a character between two calls of [parseline] at the
    same level. *)
Definition parse_fuel (es : nat) : nat := (4 * es + 4)%nat.

(** [strlen(s)]: up to the first zero byte *)
Fixpoint strlen (b : list Z) : nat :=
  match b with
  | [] => 0
  | c :: b' => if c =? 0 then 0 else S (strlen b')
  end.

(** The command, and the line with the zero bytes. *)
Definition parsecmd (b : list Z) : res (cmd word * list Z) :=
  let es := strlen b in
  let? (c, s) := parseline (parse_fuel es) b es 0 in
  let '(s, _) := peek b es s [] in
  if negb (s =? es)%nat then Panicked "syntax"
  else Done (c, nulterminate c b).
