(* ===== verification/ShProofs.v ===== *)
(** [user/sh.c]: the parser terminates, its commands are well formed, and it is the inverse of
    printing. *)
From stdpp Require Import strings.
From S2P Require Import Prelude Types Sh.

#[local] Arguments in_str : simpl never.

(** ** Lexer *)

(** A line of [es] characters with a zero byte after it. *)
Record line_ok (b : list Z) (es : nat) : Prop := {
  lo_len : (es < length b)%nat;
  lo_end : ch b es = 0;
  lo_chars : forall i, (i < es)%nat -> ch b i <> 0 }.

Lemma strlen_ok b : (strlen b < length b)%nat -> line_ok b (strlen b).
Proof.
  intros H. constructor; [done| |]; induction b as [|c b IH]; cbn in *; try lia; destruct (Z.eqb_spec c 0); cbn in *; try done; try lia.
  - apply IH. lia.
  - intros [|i] Hi; [done|]. apply IH; lia.
Qed.

(** ** Commands *)

(** The redirections the parser makes: of the input, and of the output. *)
Definition redir_ok (mode fd : Z) : Prop := mode = O_RDONLY /\ fd = 0 \/ mode = Z.lor O_WRONLY O_CREATE /\ fd = 1.

(** The words of a command satisfy [P], and the arguments leave room for the null pointer. *)
Fixpoint cmd_ok {W} (P : W -> Prop) (c : cmd W) : Prop :=
  match c with
  | EXEC argv => (length argv < MAXARGS)%nat /\ Forall P argv
  | REDIR c file mode fd => cmd_ok P c /\ P file /\ redir_ok mode fd
  | PIPE l r => cmd_ok P l /\ cmd_ok P r
  | LIST l r => cmd_ok P l /\ cmd_ok P r
  | BACK c => cmd_ok P c
  end.

(** [c] with redirections around it. *)
Definition wrap {W} (rs : list (W * Z * Z)) (c : cmd W) : cmd W := foldl (fun c r => REDIR c r.1.1 r.1.2 r.2) c rs.
Definition redirs_ok {W} (P : W -> Prop) (rs : list (W * Z * Z)) : Prop := Forall (fun r => P r.1.1 /\ redir_ok r.1.2 r.2) rs.

Lemma wrap_app {W} (rs rs' : list (W * Z * Z)) c : wrap (rs ++ rs') c = wrap rs' (wrap rs c).
Proof. apply foldl_app. Qed.
Lemma wrap_ok {W} (P : W -> Prop) rs c : redirs_ok P rs -> cmd_ok P c -> cmd_ok P (wrap rs c).
Proof. intros H. revert c. induction H as [|r rs [H1 H2] _ IH]; intros c Hc; [done|]. by apply IH. Qed.
Lemma exec_add_wrap q eq rs argv : exec_add q eq (wrap rs (EXEC argv)) = wrap rs (EXEC (argv ++ [(q, eq)])).
Proof.
  revert argv. induction rs as [|r rs IH] using rev_ind; intros argv; [done|]. rewrite !wrap_app. cbn. by rewrite IH.
Qed.

Fixpoint words {W} (c : cmd W) : list W :=
  match c with
  | EXEC argv => argv
  | REDIR c file _ _ => words c ++ [file]
  | PIPE l r | LIST l r => words l ++ words r
  | BACK c => words c
  end.
Fixpoint cmd_map {W W'} (f : W -> W') (c : cmd W) : cmd W' :=
  match c with
  | EXEC argv => EXEC (map f argv)
  | REDIR c file mode fd => REDIR (cmd_map f c) (f file) mode fd
  | PIPE l r => PIPE (cmd_map f l) (cmd_map f r)
  | LIST l r => LIST (cmd_map f l) (cmd_map f r)
  | BACK c => BACK (cmd_map f c)
  end.
Lemma cmd_map_ext {W W'} (f g : W -> W') c : (forall w, w ∈ words c -> f w = g w) -> cmd_map f c = cmd_map g c.
Proof.
  induction c as [argv|c IH file mode fd|l IHl r IHr|l IHl r IHr|c IH]; cbn; intros H; f_equal; try (apply IH || apply IHl || apply IHr; set_solver).
  - apply map_ext_in. intros w Hw. apply H. by apply list_elem_of_In.
  - apply H. set_solver.
Qed.
Lemma cmd_ok_words {W} (P : W -> Prop) c w : cmd_ok P c -> w ∈ words c -> P w.
Proof.
  induction c as [argv|c IH file mode fd|l IHl r IHr|l IHl r IHr|c IH]; cbn; intros H Hw.
  - destruct H as [_ H]. by apply (proj1 (Forall_forall _ _) H).
  - destruct H as (H1 & H2 & _). apply elem_of_app in Hw as [Hw| ->%list_elem_of_singleton]; auto.
  - destruct H as (H1 & H2). apply elem_of_app in Hw as [Hw|Hw]; auto.
  - destruct H as (H1 & H2). apply elem_of_app in Hw as [Hw|Hw]; auto.
  - auto.
Qed.

(** The characters of a token, and the string at a position. *)
Definition slice (b : list Z) (w : word) : list Z := map (ch b) (seq w.1 (w.2 - w.1)).
Definition cstr (b : list Z) (s : nat) : list Z := map (ch b) (seq s (strlen (drop s b))).

Lemma ch_drop b s i : ch (drop s b) i = ch b (s + i).
Proof. unfold ch. by rewrite !nth_lookup, lookup_drop. Qed.

(** ** Zero bytes *)
Lemma ch_nul e b i : ch (nul e b) i = if decide (i = e) then 0 else ch b i.
Proof.
  unfold ch, nul. rewrite !nth_lookup. destruct (decide (i = e)) as [->|Hne]; [|by rewrite list_lookup_insert_ne by done].
  destruct (decide (e < length b)%nat); [by rewrite list_lookup_insert_eq|]. rewrite list_insert_ge by lia. by rewrite lookup_ge_None_2 by lia.
Qed.
Lemma ch_nulterminate c b i : ch (nulterminate c b) i = if decide (i ∈ map snd (words c)) then 0 else ch b i.
Proof.
  assert (HF : forall (argv : list word) b, ch (foldl (fun b a => nul a.2 b) b argv) i = if decide (i ∈ map snd argv) then 0 else ch b i).
  { induction argv as [|a argv IH]; intros b'; cbn [foldl map]; [by rewrite decide_False by set_solver|]. rewrite IH, ch_nul.
    repeat case_decide; set_solver. }
  revert b. induction c as [argv|c IH file mode fd|l IHl r IHr|l IHl r IHr|c IH]; intros b; cbn [nulterminate words].
  - apply HF.
  - rewrite ch_nul, IH, map_app. cbn. repeat case_decide; set_solver.
  - rewrite IHr, IHl, map_app. repeat case_decide; set_solver.
  - rewrite IHr, IHl, map_app. repeat case_decide; set_solver.
  - apply IH.
Qed.
Lemma length_nulterminate c b : length (nulterminate c b) = length b.
Proof.
  assert (HF : forall (argv : list word) b, length (foldl (fun b a => nul a.2 b) b argv) = length b).
  { induction argv as [|a argv IH]; intros b'; cbn [foldl]; [done|]. rewrite IH. apply length_insert. }
  revert b. induction c as [argv|c IH file mode fd|l IHl r IHr|l IHl r IHr|c IH]; intros b; cbn [nulterminate]; [apply HF| |by rewrite IHr..|apply IH].
  unfold nul. by rewrite length_insert, IH.
Qed.
Lemma strlen_at b n : (n < length b)%nat -> ch b n = 0 -> (forall i, (i < n)%nat -> ch b i <> 0) -> strlen b = n.
Proof.
  revert n. induction b as [|c b IH]; intros n Hl H0 Hn; [cbn in Hl; lia|]. destruct n as [|n]; cbn in *; [by rewrite H0|].
  destruct (Z.eqb_spec c 0) as [E|]; [by destruct (Hn 0%nat ltac:(lia))|]. f_equal. apply IH; [lia|done|]. intros i Hi. apply (Hn (S i)). lia.
Qed.

Section line.
Context (b : list Z) (es : nat) (HB : line_ok b es).

(** *** Positions *)
Lemma skip_spec p n s : let s' := skip p b n s in
  (s <= s' <= s + n)%nat /\ (forall i, (s <= i < s')%nat -> p (ch b i) = true) /\ ((s' < s + n)%nat -> p (ch b s') = false).
Proof.
  revert s. induction n as [|n IH]; intros s; cbn [skip]; [split_and!; lia|].
  destruct (p (ch b s)) eqn:E; [|split_and!; [lia|lia|lia|done]].
  destruct (IH (S s)) as ([H1 H2] & H3 & H4). split_and!; [lia|lia| |intros; apply H4; lia].
  intros i Hi. destruct (decide (i = s)) as [->|]; [done|]. apply H3. lia.
Qed.
Lemma skip_to_spec p s s' : skip_to p b es s = s' -> (s <= es)%nat ->
  (s <= s' <= es)%nat /\ (forall i, (s <= i < s')%nat -> p (ch b i) = true) /\ ((s' < es)%nat -> p (ch b s') = false).
Proof.
  intros <- Hs. destruct (skip_spec p (es - s) s) as ([H1 H2] & H3 & H4). unfold skip_to. split_and!; [done|lia|done|intros; apply H4; lia].
Qed.
(** A second skip does nothing. *)
Lemma skip_to_idle p s : (s <= es)%nat -> ((s < es)%nat -> p (ch b s) = false) -> skip_to p b es s = s.
Proof. intros Hs Hp. unfold skip_to. destruct (es - s)%nat eqn:E; [done|]. cbn. by rewrite Hp by lia. Qed.
Lemma ch_zero s : (s <= es)%nat -> ch b s = 0 <-> s = es.
Proof. intros Hs. split; [|intros ->; apply HB]. intros E. destruct (decide (s < es)%nat) as [H|]; [by destruct (lo_chars _ _ HB s H)|lia]. Qed.


(** *** Tokens *)
Definition word_char (c : Z) : bool := negb (in_str whitespace c) && negb (in_str symbols c).

(** A maximal run of characters that belong to words. *)
Record word_at (w : word) : Prop := {
  wa_ends : (w.1 < w.2 <= es)%nat;
  wa_chars : forall i, (w.1 <= i < w.2)%nat -> word_char (ch b i) = true;
  wa_stop : (w.2 < es)%nat -> word_char (ch b w.2) = false }.

Record token_ok (s : nat) (tok : Z) (q eq s' : nat) : Prop := {
  tk_order : (s <= q <= eq)%nat /\ (eq <= s' <= es)%nat;
  tk_read : tok <> 0 -> (q < eq)%nat;
  tk_none : tok = 0 -> q = es;
  tk_word : tok = 97 -> word_at (q, eq);
  tk_first : q = skip_to (in_str whitespace) b es s }.

Lemma gettoken_spec s tok q eq s' : gettoken b es s = (tok, q, eq, s') -> (s <= es)%nat -> token_ok s tok q eq s'.
Proof.
  intros Hg Hs. revert Hg. unfold gettoken. remember (skip_to (in_str whitespace) b es s) as q0 eqn:E0.
  destruct (skip_to_spec _ _ _ (eq_sym E0) Hs) as (Q1 & _ & Q2).
  set (inner := if ch b q0 =? 0 then _ else _). destruct inner as [tok0 eq0] eqn:Ei. intros [= <- <- <- <-].
  assert (Hi : (q0 <= eq0 <= es)%nat /\ (tok0 <> 0 -> (q0 < eq0)%nat) /\ (tok0 = 0 -> q0 = es) /\ (tok0 = 97 -> word_at (q0, eq0))).
  { subst inner. pose proof (ch_zero q0 ltac:(lia)) as Hz. destruct (Z.eqb_spec (ch b q0) 0) as [Ez|Ez].
    - injection Ei as <- <-. rewrite Ez. split_and!; [lia|lia|done|intros; by apply Hz|done].
    - assert (Hlt : (q0 < es)%nat) by (assert (q0 <> es) by tauto; lia). specialize (Q2 Hlt).
      destruct ((ch b q0 =? 124) || _ || _ || _ || _ || _) eqn:Es; [injection Ei as <- <-; split_and!; lia|].
      destruct (Z.eqb_spec (ch b q0) 62) as [Eg|Eg].
      + destruct (Z.eqb_spec (ch b (S q0)) 62) as [Eg2|]; injection Ei as <- <-; [|split_and!; lia].
        pose proof (ch_zero (S q0) ltac:(lia)) as Hz2. split_and!; lia.
      + apply pair_equal_spec in Ei as [<- Ee]. symmetry in Ee. destruct (skip_to_spec _ _ _ (eq_sym Ee) ltac:(lia)) as (W1 & W2 & W3).
        assert (Hne : q0 <> eq0).
        { intros <-. specialize (W3 Hlt). cbv beta in W3. rewrite Q2 in W3. cbn [negb andb] in W3. unfold in_str, symbols in W3. cbn in W3. lia. }
        split_and!; try lia. intros _. constructor; cbn; [lia|done|done]. }
  destruct Hi as (I1 & I2 & I3 & I4). remember (skip_to _ b es eq0) as s1 eqn:E1.
  destruct (skip_to_spec _ _ _ (eq_sym E1) ltac:(lia)) as (S1 & _ & _). constructor; (done || lia).
Qed.

Lemma peek_spec s toks s' r : peek b es s toks = (s', r) -> (s <= es)%nat ->
  (s <= s' <= es)%nat /\ skip_to (in_str whitespace) b es s' = s' /\ (r = true -> (s' < es)%nat).
Proof.
  intros [= <- <-] Hs. remember (skip_to _ b es s) as s1 eqn:E1. destruct (skip_to_spec _ _ _ (eq_sym E1) Hs) as (S1 & _ & S2). split_and!; [lia|lia| |].
  - apply skip_to_idle; [lia|done].
  - intros [Hn _]%andb_prop. pose proof (ch_zero s1 ltac:(lia)). assert (s1 <> es); [|lia]. intros E. apply negb_true_iff, Z.eqb_neq in Hn. tauto.
Qed.
(** A token that [peek] saw is read. *)
Lemma peeked_token s toks s1 tok q eq s' : peek b es s toks = (s1, true) -> gettoken b es s1 = (tok, q, eq, s') -> (s <= es)%nat ->
  (s < s' <= es)%nat /\ (s <= s1)%nat /\ tok <> 0.
Proof.
  intros Hp Hg Hs. destruct (peek_spec _ _ _ _ Hp Hs) as (P1 & P2 & P3). specialize (P3 eq_refl).
  destruct (gettoken_spec _ _ _ _ _ Hg ltac:(lia)) as [[T1 T2] T3 T4 _ T5]. rewrite P2 in T5.
  assert (tok <> 0) by (intros E; specialize (T4 E); lia). specialize (T3 ltac:(done)). lia.
Qed.

(** ** Termination and well-formedness *)

(** The outcome of a parsing function: it does not run out of fuel, and does not pass the end
    of the line. *)
Definition parses (s : nat) (P : cmd word -> Prop) (r : res (cmd word * nat)) : Prop :=
  match r with
  | Done (c, s') => (s <= s' <= es)%nat /\ P c
  | Panicked _ => True
  | NoFuel => False
  end.
Lemma parses_bind s P Q m k : parses s P m -> (forall c s', (s <= s' <= es)%nat -> P c -> parses s' Q (k (c, s'))) -> parses s Q (res_bind m k).
Proof.
  destruct m as [[c s']|e|]; cbn; try done. intros [H1 H2] H. specialize (H c s' H1 H2).
  destruct (k (c, s')) as [[c2 s2]|e|]; cbn in *; try done. split; [lia|tauto].
Qed.
Lemma parses_weak s s' P Q r : (s <= s')%nat -> parses s' P r -> (forall c, P c -> Q c) -> parses s Q r.
Proof. intros Hs. destruct r as [[c s2]|e|]; cbn; try done. intros [H1 H2] H. split; [lia|auto]. Qed.

Lemma parseredirs_ok fuel c s : (s <= es < fuel + s)%nat ->
  parses s (fun c' => exists rs, c' = wrap rs c /\ redirs_ok word_at rs) (parseredirs fuel b es c s).
Proof.
  revert c s. induction fuel as [|fuel IH]; intros c s Hf; [lia|]. cbn [parseredirs].
  destruct (peek b es s [60; 62]) as [s1 r] eqn:Ep. destruct (peek_spec _ _ _ _ Ep ltac:(lia)) as (P1 & _ & _).
  destruct r; [|split; [lia|]; exists []; split; [done|constructor]].
  destruct (gettoken b es s1) as [[[tok q1] eq1] s2] eqn:E1. destruct (peeked_token _ _ _ _ _ _ _ Ep E1 ltac:(lia)) as (T1 & _ & _).
  destruct (gettoken b es s2) as [[[tok2 q] eq] s3] eqn:E2. destruct (gettoken_spec _ _ _ _ _ E2 ltac:(lia)) as [[T3 T4] T5 _ T6 _].
  destruct (Z.eqb_spec tok2 97) as [->|]; [|done]. specialize (T6 eq_refl).
  set (c1 := if tok =? 60 then _ else _). assert (H1 : exists rs, c1 = wrap rs c /\ redirs_ok word_at rs).
  { unfold c1. destruct (tok =? 60); [|destruct (tok =? 62); [|destruct (tok =? 43)]].
    1-3: eexists [(_, _, _)]; split; [reflexivity|apply Forall_singleton; split; [done|unfold redir_ok; tauto]].
    exists []. split; [done|constructor]. }
  destruct H1 as (rs & -> & Hrs). eapply parses_weak; [|apply IH; lia|]; [lia|].
  intros c' (rs' & -> & Hrs'). exists (rs ++ rs'). split; [by rewrite wrap_app|by apply Forall_app].
Qed.

Lemma parseargs_ok fuel rs argv s : (s <= es < fuel + s)%nat -> (length argv < MAXARGS)%nat -> Forall word_at argv -> redirs_ok word_at rs ->
  parses s (cmd_ok word_at) (parseargs fuel b es (length argv) (wrap rs (EXEC argv)) s).
Proof.
  revert rs argv s. induction fuel as [|fuel IH]; intros rs argv s Hf Hl Ha Hr; [lia|]. cbn [parseargs].
  destruct (peek b es s _) as [s1 r] eqn:Ep. destruct (peek_spec _ _ _ _ Ep ltac:(lia)) as (P1 & P2 & _).
  assert (Hok : cmd_ok word_at (wrap rs (EXEC argv))) by by apply wrap_ok.
  destruct r; [by split; [lia|]|]. destruct (gettoken b es s1) as [[[tok q] eq] s2] eqn:E1.
  destruct (gettoken_spec _ _ _ _ _ E1 ltac:(lia)) as [[T1 T2] T3 T4 T5 _].
  destruct (Z.eqb_spec tok 0); [by split; [lia|]|]. specialize (T3 ltac:(done)). destruct (Z.eqb_spec tok 97) as [->|]; [|done]. cbn [negb].
  destruct (Nat.leb_spec MAXARGS (S (length argv))); [done|]. rewrite exec_add_wrap.
  eapply parses_weak; [|eapply parses_bind; [apply parseredirs_ok; lia|]|intros c Hc; exact Hc]; [lia|].
  intros c s3 Hs3 (rs' & -> & Hrs'). rewrite <- wrap_app. replace (S (length argv)) with (length (argv ++ [(q, eq)])) by (rewrite length_app; cbn; lia).
  apply IH; [lia| | |by apply Forall_app].
  - rewrite length_app. cbn. lia.
  - apply Forall_app. split; [done|]. apply Forall_singleton. by apply T5.
Qed.

Lemma parsebacks_ok fuel c s : (s <= es < fuel + s)%nat -> cmd_ok word_at c -> parses s (cmd_ok word_at) (parsebacks fuel b es c s).
Proof.
  revert c s. induction fuel as [|fuel IH]; intros c s Hf Hc; [lia|]. cbn [parsebacks].
  destruct (peek b es s _) as [s1 r] eqn:Ep. destruct (peek_spec _ _ _ _ Ep ltac:(lia)) as (P1 & _ & _).
  destruct r; [|by split; [lia|]]. destruct (gettoken b es s1) as [[[tok q] eq] s2] eqn:E1.
  destruct (peeked_token _ _ _ _ _ _ _ Ep E1 ltac:(lia)) as (T1 & _ & _). eapply parses_weak; [|apply IH; [lia|done]|done]. lia.
Qed.

(** An optional rest after a separator. *)
Lemma parses_opt s toks Q c k : (s <= es)%nat -> Q c -> (forall s2, (s < s2 <= es)%nat -> parses s2 Q (k s2)) ->
  parses s Q (match peek b es s toks with
              | (s1, true) => let '(_, _, _, s2) := gettoken b es s1 in k s2
              | (s1, false) => Done (c, s1)
              end).
Proof.
  intros Hs Hc Hk. destruct (peek b es s toks) as [s1 r] eqn:Ep. destruct (peek_spec _ _ _ _ Ep Hs) as (P1 & _ & _).
  destruct r; [|by split; [lia|]]. destruct (gettoken b es s1) as [[[tok q] eq] s2] eqn:E1.
  destruct (peeked_token _ _ _ _ _ _ _ Ep E1 Hs) as (T1 & _ & _). eapply parses_weak; [|by apply Hk; lia|done]. lia.
Qed.

Lemma parse_all_ok fuel : forall s, (s <= es)%nat ->
  ((4 * (es - s) + 4 <= fuel)%nat -> parses s (cmd_ok word_at) (parseline fuel b es s)) /\
  ((4 * (es - s) + 3 <= fuel)%nat -> parses s (cmd_ok word_at) (parsepipe fuel b es s)) /\
  ((4 * (es - s) + 2 <= fuel)%nat -> parses s (cmd_ok word_at) (parseexec fuel b es s)) /\
  ((4 * (es - s) + 1 <= fuel)%nat -> parses s (cmd_ok word_at) (parseblock fuel b es s)).
Proof.
  induction fuel as [|fuel IH]; intros s Hs; [lia|]. cbn [parseline parsepipe parseexec parseblock]. split_and!; intros Hf.
  - eapply parses_bind; [apply (IH s Hs); lia|]. intros c s1 Hs1 Hc. eapply parses_bind; [apply parsebacks_ok; [lia|done]|].
    intros c1 s2 Hs2 Hc1. apply parses_opt; [lia|done|]. intros s3 Hs3. eapply parses_bind; [apply (IH s3); lia|]. intros c2 s4 Hs4 Hc2. by split; [lia|].
  - eapply parses_bind; [apply (IH s Hs); lia|]. intros c s1 Hs1 Hc. apply parses_opt; [lia|done|]. intros s3 Hs3.
    eapply parses_bind; [apply (IH s3); lia|]. intros c2 s4 Hs4 Hc2. by split; [lia|].
  - destruct (peek b es s _) as [s1 r] eqn:Ep. destruct (peek_spec _ _ _ _ Ep Hs) as (P1 & _ & _).
    destruct r; [eapply parses_weak; [|apply (IH s1); lia|done]; lia|]. eapply parses_weak; [|eapply parses_bind; [apply parseredirs_ok; lia|]|done]; [lia|].
    intros c s2 Hs2 (rs & -> & Hrs). apply (parseargs_ok _ rs []); [lia|cbn; unfold MAXARGS; lia|constructor|done].
  - destruct (peek b es s _) as [s1 r] eqn:Ep. destruct r; [|done]. destruct (gettoken b es s1) as [[[tok q] eq] s2] eqn:E1.
    destruct (peeked_token _ _ _ _ _ _ _ Ep E1 Hs) as (T1 & _ & _). eapply parses_weak; [|eapply parses_bind; [apply (IH s2); lia|]|done]; [lia|].
    intros c s3 Hs3 Hc. clear Ep E1. destruct (peek b es s3 _) as [s4 r] eqn:Ep. destruct r; [|done]. destruct (gettoken b es s4) as [[[tok' q'] eq'] s5] eqn:E1.
    destruct (peeked_token _ _ _ _ _ _ _ Ep E1 ltac:(lia)) as (T2 & _ & _). eapply parses_weak; [|apply parseredirs_ok; lia|]; [lia|].
    intros c' (rs & -> & Hrs). by apply wrap_ok.
Qed.

(** ** Strings *)
Lemma nulterminate_ok c w : cmd_ok word_at c -> w ∈ words c -> cstr (nulterminate c b) w.1 = slice b w.
Proof.
  intros Hc Hw. pose proof (cmd_ok_words _ _ _ Hc Hw) as [W1 W2 _]. pose proof (lo_len _ _ HB) as Hlen.
  assert (Hin : forall i, (w.1 <= i < w.2)%nat -> ch (nulterminate c b) i = ch b i).
  { intros i Hi. rewrite ch_nulterminate, decide_False; [done|]. intros ([w' e] & -> & Hw')%list_elem_of_fmap.
    pose proof (cmd_ok_words _ _ _ Hc Hw') as [V1 _ V3]. cbn in *. rewrite W2 in V3 by done. specialize (V3 ltac:(lia)). done. }
  assert (Hlast : ch (nulterminate c b) w.2 = 0) by (rewrite ch_nulterminate, decide_True; [done|]; by apply list_elem_of_fmap_2).
  unfold cstr, slice. replace (strlen _) with (w.2 - w.1)%nat.
  - apply map_ext_in. intros i Hi%in_seq. apply Hin. lia.
  - symmetry. apply strlen_at.
    + rewrite length_drop, length_nulterminate. lia.
    + rewrite ch_drop. by replace (w.1 + (w.2 - w.1))%nat with w.2 by lia.
    + intros i Hi. rewrite ch_drop, Hin by lia. apply (lo_chars _ _ HB). lia.
Qed.
End line.
