(* ===== verification/ShPrint.v ===== *)
(** [user/sh.c]: the parser reads back what is printed. *)
From stdpp Require Import strings.
From S2P Require Import Prelude Types Sh ShProofs.

#[local] Arguments in_str : simpl never.

(** ** Printing

    Every token is followed by a space.  A command prints in parentheses where the grammar
    asks for a smaller one: level 0 is a line, 1 a pipeline with ampersands, 2 a pipeline, and
    3 a part of a pipeline. *)
Definition tk (c : Z) : list Z := [c; 32].
Definition wd (w : list Z) : list Z := w ++ [32].
Definition pr (r : list Z * Z * Z) : list Z := tk (if r.2 =? 0 then 60 else 62) ++ wd r.1.1.
Definition paren (p : bool) (t : list Z) : list Z := if p then tk 40 ++ t ++ tk 41 else t.

Fixpoint print (lvl : nat) (c : cmd (list Z)) : list Z :=
  match c with
  | EXEC argv => concat (map wd argv)
  | REDIR c file mode fd => print 3 c ++ pr (file, mode, fd)
  | PIPE l r => paren (2 <? lvl)%nat (print 3 l ++ tk 124 ++ print 2 r)
  | LIST l r => paren (0 <? lvl)%nat (print 1 l ++ tk 59 ++ print 0 r)
  | BACK c => paren (1 <? lvl)%nat (print 1 c ++ tk 38)
  end.

(** A word that can be printed: it is not empty, and has no separators and no zero bytes. *)
Definition valid (w : list Z) : Prop := w <> [] /\ Forall (fun c => word_char c = true /\ c <> 0) w.

(** ** The tokens of printed text *)
Section print.
Context (b : list Z) (es : nat) (HB : line_ok b es).

Definition tail_at (s : nat) : list Z := map (ch b) (seq s (es - s)).
Definition no_ws (l : list Z) : Prop := match l with [] => True | c :: _ => in_str whitespace c = false end.
Definition follows (toks l : list Z) : Prop := match l with [] => True | c :: _ => in_str toks c = true end.

Lemma tail_app s l1 l2 : (s <= es)%nat -> tail_at s = l1 ++ l2 ->
  (s + length l1 <= es)%nat /\ tail_at (s + length l1) = l2 /\ slice b (s, (s + length l1)%nat) = l1.
Proof.
  unfold tail_at, slice. intros Hs E. assert (Hl : (length l1 <= es - s)%nat).
  { apply (f_equal length) in E. rewrite length_app, length_map, length_seq in E. lia. }
  replace (es - s)%nat with (length l1 + (es - (s + length l1)))%nat in E by lia. rewrite seq_app, map_app in E.
  apply app_inj_1 in E as [E1 E2]; [|by rewrite length_map, length_seq]. split; [lia|]. split; [done|].
  cbn [fst snd]. by replace (s + length l1 - s)%nat with (length l1) by lia.
Qed.
Lemma tail_cons s c l : (s <= es)%nat -> tail_at s = c :: l -> (s < es)%nat /\ ch b s = c /\ c <> 0 /\ tail_at (S s) = l.
Proof.
  intros Hs E. destruct (tail_app s [c] l Hs E) as (H1 & H2 & H3). cbn in *. unfold slice in H3. cbn in H3.
  replace (s + 1 - s)%nat with 1%nat in H3 by lia. injection H3 as H3. replace (s + 1)%nat with (S s) in * by lia.
  split_and!; [lia|done| |done]. rewrite <- H3. apply (lo_chars _ _ HB). lia.
Qed.
Lemma tail_nil s : (s <= es)%nat -> tail_at s = [] -> s = es.
Proof. intros Hs E. apply (f_equal length) in E. unfold tail_at in E. rewrite length_map, length_seq in E. cbn in E. lia. Qed.

Lemma skip_run p l1 : forall s l2, (s <= es)%nat -> tail_at s = l1 ++ l2 -> Forall (fun c => p c = true) l1 ->
  (match l2 with [] => True | c :: _ => p c = false end) -> skip_to p b es s = (s + length l1)%nat.
Proof.
  induction l1 as [|c l1 IH]; intros s l2 Hs E Hp Hn; cbn [app length] in *.
  - rewrite Nat.add_0_r. apply skip_to_idle; [done..|]. intros Hlt. destruct l2 as [|c l2]; [apply tail_nil in E; [lia|done]|].
    by destruct (tail_cons _ _ _ Hs E) as (_ & -> & _).
  - apply Forall_cons in Hp as [Hc Hp]. destruct (tail_cons _ _ _ Hs E) as (H1 & H2 & H3 & H4).
    unfold skip_to. destruct (es - s)%nat eqn:En; [lia|]. cbn [skip]. rewrite H2, Hc.
    specialize (IH (S s) l2 ltac:(lia) H4 Hp Hn). unfold skip_to in IH. replace n with (es - S s)%nat by lia. rewrite IH. lia.
Qed.
Lemma skip_ws0 s : (s <= es)%nat -> no_ws (tail_at s) -> skip_to (in_str whitespace) b es s = s.
Proof. intros Hs Hn. rewrite (skip_run _ [] s (tail_at s)); [cbn; lia|done|done|constructor|done]. Qed.
Lemma skip_ws1 s l : (s <= es)%nat -> tail_at s = 32 :: l -> no_ws l -> skip_to (in_str whitespace) b es s = S s.
Proof. intros Hs E Hn. rewrite (skip_run _ [32] s l); [cbn; lia|done|done|by repeat constructor|done]. Qed.

Lemma peek_print s toks l : (s <= es)%nat -> tail_at s = l -> no_ws l ->
  peek b es s toks = (s, match l with [] => false | c :: _ => in_str toks c end).
Proof.
  intros Hs E Hn. unfold peek. rewrite skip_ws0 by (by rewrite ?E). f_equal. destruct l as [|c l].
  - apply tail_nil in E as ->; [|done]. by rewrite (lo_end _ _ HB).
  - destruct (tail_cons _ _ _ Hs E) as (_ & -> & H0 & _). by apply Z.eqb_neq in H0 as ->.
Qed.
Lemma gettoken_end s : (s <= es)%nat -> tail_at s = [] -> gettoken b es s = (0, s, s, s).
Proof.
  intros Hs E. unfold gettoken. rewrite skip_ws0 by (by rewrite ?E). apply tail_nil in E as ->; [|done]. rewrite (lo_end _ _ HB). cbn [Z.eqb].
  rewrite skip_ws0; [done|done|]. unfold tail_at. by rewrite Nat.sub_diag.
Qed.
Lemma gettoken_tk s c l : (s <= es)%nat -> in_str symbols c = true -> tail_at s = tk c ++ l -> no_ws l ->
  gettoken b es s = (c, s, S s, (s + 2)%nat).
Proof.
  intros Hs Hc E Hn. cbn in E. destruct (tail_cons _ _ _ Hs E) as (H1 & H2 & H3 & H4). destruct (tail_cons (S s) _ _ ltac:(lia) H4) as (H5 & H6 & _ & _).
  unfold gettoken. rewrite skip_ws0; [|done|rewrite E; cbn; unfold in_str, symbols, whitespace in *; cbn in *; lia]. rewrite H2, H6.
  assert (Hw : skip_to (in_str whitespace) b es (S s) = (s + 2)%nat) by (rewrite (skip_ws1 _ l); [lia|lia|done|done]).
  unfold in_str, symbols in Hc. cbn in Hc.
  destruct (Z.eqb_spec c 0); [done|]. destruct (_ || _ || _ || _ || _ || _) eqn:Es; [by rewrite Hw|].
  assert (c = 62) as -> by lia. cbn [Z.eqb Pos.eqb]. by rewrite Hw.
Qed.
Lemma gettoken_wd s w l : (s <= es)%nat -> valid w -> tail_at s = wd w ++ l -> no_ws l ->
  gettoken b es s = (97, s, (s + length w)%nat, (s + length (wd w))%nat).
Proof.
  intros Hs [Hw0 Hw] E Hn. unfold wd in E. rewrite <- app_assoc in E. destruct (tail_app _ _ _ Hs E) as (T1 & T2 & _).
  assert (Hh : no_ws (tail_at s)).
  { rewrite E. destruct w as [|c w]; [done|]. apply Forall_cons in Hw as [[Hc _] _]. unfold word_char in Hc. cbn. by destruct (in_str whitespace c). }
  unfold gettoken. rewrite (skip_ws0 s Hs Hh). destruct w as [|c w]; [done|]. destruct (tail_cons _ _ _ Hs E) as (_ & -> & H0 & _).
  assert (Hc : word_char c = true) by (by apply Forall_cons in Hw as [[? _] _]). unfold word_char in Hc. apply andb_prop in Hc as [_ Hc].
  unfold in_str, symbols in Hc. cbn in Hc. destruct (Z.eqb_spec c 0); [done|]. destruct (_ || _ || _ || _ || _ || _) eqn:Es; [lia|].
  destruct (Z.eqb_spec c 62); [lia|]. rewrite (skip_run _ (c :: w) s (32 :: l)); [|done|done| |done].
  - f_equal. rewrite (skip_ws1 _ l); [|lia|done|done]. unfold wd. rewrite length_app. cbn. lia.
  - eapply Forall_impl; [exact Hw|]. by intros x [? _].
Qed.

(** ** Redirections and arguments *)
Definition reads (c' : cmd word) (c : cmd (list Z)) : Prop := cmd_map (slice b) c' = c.
Definition reads_redirs (rs' : list (word * Z * Z)) (rs : list (list Z * Z * Z)) : Prop := map (fun r => (slice b r.1.1, r.1.2, r.2)) rs' = rs.

Lemma reads_wrap rs' rs c' c : reads_redirs rs' rs -> reads c' c -> reads (wrap rs' c') (wrap rs c).
Proof.
  intros <- <-. unfold reads. revert c'. induction rs' as [|r rs' IH]; intros c'; [done|]. apply (IH (REDIR c' r.1.1 r.1.2 r.2)).
Qed.
Lemma no_ws_follows toks l : Forall (fun c => in_str whitespace c = false) toks -> follows toks l -> no_ws l.
Proof.
  intros H. destruct l as [|c l]; [done|]. cbn. unfold in_str at 1. rewrite existsb_exists. intros (x & Hx & ->%Z.eqb_eq).
  apply (proj1 (Forall_forall _ _) H). by apply list_elem_of_In.
Qed.
Lemma no_ws_app t l : no_ws t -> no_ws l -> no_ws (t ++ l).
Proof. by destruct t. Qed.
Lemma valid_head w l : valid w -> exists c l', w ++ l = c :: l' /\ word_char c = true.
Proof. intros [Hn Hw]. destruct w as [|c w]; [done|]. apply Forall_cons in Hw as [[? _] _]. by exists c, (w ++ l). Qed.
Lemma word_char_sym c toks : word_char c = true -> Forall (fun x => in_str symbols x = true) toks -> in_str toks c = false.
Proof.
  intros Hc Ht. destruct (in_str toks c) eqn:E; [|done]. unfold in_str in E. apply existsb_exists in E as (x & Hx & ->%Z.eqb_eq).
  unfold word_char in Hc. rewrite (proj1 (Forall_forall _ _) Ht x) in Hc by by apply list_elem_of_In. by destruct (negb _).
Qed.

Lemma parseredirs_print rs : forall fuel c s l, (s <= es < fuel + s)%nat -> tail_at s = concat (map pr rs) ++ l ->
  redirs_ok valid rs -> no_ws l -> match l with [] => True | c :: _ => in_str [60; 62] c = false end ->
  exists rs', parseredirs fuel b es c s = Done (wrap rs' c, (s + length (concat (map pr rs)))%nat) /\ reads_redirs rs' rs.
Proof.
  induction rs as [|r rs IH]; intros fuel c s l Hf E Hr Hn Hl; (destruct fuel as [|fuel]; [lia|]); cbn [parseredirs map concat app length] in *.
  - rewrite (peek_print s [60; 62] l) by (lia || done). rewrite Nat.add_0_r. exists []. split; [|done]. destruct l; [done|]. by rewrite Hl.
  - apply Forall_cons in Hr as [[Hv Hm] Hr]. unfold pr at 1 in E. rewrite <- !app_assoc in E. set (x := if r.2 =? 0 then 60 else 62) in *.
    assert (Hrest : no_ws (concat (map pr rs) ++ l)).
    { destruct rs as [|r1 rs]; [done|]. cbn. by destruct (r1.2 =? 0). }
    assert (Hx : in_str [60; 62] x = true /\ in_str symbols x = true) by (unfold x; by destruct (r.2 =? 0)).
    rewrite (peek_print s _ _ ltac:(lia) E) by (unfold x; cbn; by destruct (r.2 =? 0)). cbn [tk app]. rewrite (proj1 Hx).
    destruct (tail_app s _ _ ltac:(lia) E) as (T1 & T2 & _). cbn [tk length] in T1, T2.
    rewrite (gettoken_tk s x (wd r.1.1 ++ concat (map pr rs) ++ l)); [|lia|tauto|done|].
    2: { unfold wd. rewrite <- app_assoc. destruct (valid_head r.1.1 ([32] ++ concat (map pr rs) ++ l) Hv) as (c0 & l0 & -> & Hc0).
         cbn. unfold word_char in Hc0. by destruct (in_str whitespace c0). }
    rewrite (gettoken_wd (s + 2) r.1.1 (concat (map pr rs) ++ l)) by (lia || done). cbn [negb Z.eqb Pos.eqb].
    destruct (tail_app _ _ _ T1 T2) as (T3 & T4 & _). unfold wd in T2. rewrite <- app_assoc in T2. destruct (tail_app _ _ _ T1 T2) as (_ & _ & T5).
    set (c1 := if x =? 60 then _ else _). assert (Ec1 : c1 = REDIR c ((s + 2)%nat, (s + 2 + length r.1.1)%nat) r.1.2 r.2).
    { unfold c1, x. destruct Hm as [[-> ->]|[-> ->]]; done. }
    destruct (IH fuel c1 (s + 2 + length (wd r.1.1))%nat l ltac:(lia) T4 Hr Hn Hl) as (rs' & -> & Hrs').
    exists ((((s + 2)%nat, (s + 2 + length r.1.1)%nat), r.1.2, r.2) :: rs'). split.
    + rewrite Ec1. cbn. f_equal. f_equal. unfold pr, tk. rewrite !length_app. cbn. lia.
    + unfold reads_redirs in *. cbn [map fst snd]. rewrite Hrs', T5. by destruct r as [[? ?] ?].
Qed.

(** How the text after an argument starts. *)
Lemma args_rest argv rs l : Forall valid argv -> follows [124; 38; 59; 41] l ->
  no_ws (concat (map wd argv) ++ concat (map pr rs) ++ l) /\
  ((argv = [] -> rs = []) -> match concat (map wd argv) ++ concat (map pr rs) ++ l with [] => True | c :: _ => in_str [60; 62] c = false end).
Proof.
  intros Hw Hl. destruct argv as [|w argv]; cbn [map concat app].
  - destruct rs as [|r rs]; cbn [map concat app].
    + split; [apply (no_ws_follows [124; 38; 59; 41]); [by repeat constructor|done]|]. intros _. destruct l as [|c l]; [done|].
      cbn in Hl. unfold in_str in *. cbn in *. lia.
    + split; [cbn; by destruct (r.2 =? 0)|]. intros H. by specialize (H eq_refl).
  - apply Forall_cons in Hw as [Hv _]. unfold wd at 1 3. rewrite <- !app_assoc.
    destruct (valid_head w ([32] ++ concat (map wd argv) ++ concat (map pr rs) ++ l) Hv) as (c & l' & -> & Hc). split; [|intros _].
    + cbn. unfold word_char in Hc. by destruct (in_str whitespace c).
    + apply word_char_sym; [done|by repeat constructor].
Qed.

(** The redirections before the next argument: none, unless no argument is left. *)
Lemma redirs_between argv rs c s l : (s <= es)%nat -> tail_at s = concat (map wd argv) ++ concat (map pr rs) ++ l ->
  Forall valid argv -> redirs_ok valid rs -> follows [124; 38; 59; 41] l ->
  exists rs1 rs2 rs1', rs = rs1 ++ rs2 /\ (argv = [] -> rs2 = []) /\ (s + length (concat (map pr rs1)) <= es)%nat /\
    tail_at (s + length (concat (map pr rs1))) = concat (map wd argv) ++ concat (map pr rs2) ++ l /\
    parseredirs (S es) b es c s = Done (wrap rs1' c, (s + length (concat (map pr rs1)))%nat) /\ reads_redirs rs1' rs1 /\ redirs_ok valid rs2.
Proof.
  intros Hs E Hw Hr Hl. assert (exists rs1 rs2, rs = rs1 ++ rs2 /\ (argv <> [] -> rs1 = []) /\ (argv = [] -> rs2 = [])) as (rs1 & rs2 & -> & Ha1 & Ha2).
  { destruct argv; [exists rs, []|exists [], rs]; by rewrite ?app_nil_r. }
  apply Forall_app in Hr as [Hr1 Hr2].
  assert (E3 : tail_at s = concat (map pr rs1) ++ concat (map wd argv) ++ concat (map pr rs2) ++ l).
  { rewrite E, map_app, concat_app, <- app_assoc. destruct argv; [done|]. by rewrite Ha1. }
  destruct (args_rest argv rs2 l Hw Hl) as [Hn Hh]. destruct (tail_app _ _ _ Hs E3) as (T4 & T5 & _).
  destruct (parseredirs_print rs1 (S es) c s _ ltac:(lia) E3 Hr1 Hn (Hh Ha2)) as (rs1' & Hp & R1). by exists rs1, rs2, rs1'.
Qed.

(** The arguments that are left, and the redirections after the last of them. *)
Lemma parseargs_print argv : forall fuel rs0 argv0 rs s l, (s <= es < fuel + s)%nat -> (argv = [] -> rs = []) ->
  tail_at s = concat (map wd argv) ++ concat (map pr rs) ++ l -> Forall valid argv -> redirs_ok valid rs -> follows [124; 38; 59; 41] l ->
  (length argv0 + length argv < MAXARGS)%nat ->
  exists rs' argv', parseargs fuel b es (length argv0) (wrap rs0 (EXEC argv0)) s =
      Done (wrap (rs0 ++ rs') (EXEC (argv0 ++ argv')), (s + length (concat (map wd argv)) + length (concat (map pr rs)))%nat) /\
    reads_redirs rs' rs /\ map (slice b) argv' = argv.
Proof.
  induction argv as [|w argv IH]; intros fuel rs0 argv0 rs s l Hf H0 E Hw Hr Hl Hlen; (destruct fuel as [|fuel]; [lia|]).
  - rewrite (H0 eq_refl) in *. cbn [map concat app length parseargs] in *. exists [], []. rewrite !app_nil_r, !Nat.add_0_r. split; [|done].
    assert (Hn : no_ws l) by (apply (no_ws_follows [124; 38; 59; 41]); [by repeat constructor|done]).
    rewrite (peek_print s _ l) by (lia || done). destruct l as [|c l].
    + rewrite gettoken_end by (lia || done). done.
    + replace (in_str [124; 41; 38; 59] c) with true; [done|]. cbn in Hl. unfold in_str in *. cbn in *. lia.
  - apply Forall_cons in Hw as [Hv Hw]. cbn [map concat] in E. rewrite <- app_assoc in E. pose proof E as E2. unfold wd at 1 in E2. rewrite <- app_assoc in E2.
    destruct (valid_head w ([32] ++ concat (map wd argv) ++ concat (map pr rs) ++ l) Hv) as (c0 & l0 & Ec & Hc0).
    assert (Hn0 : no_ws (c0 :: l0)) by (cbn; unfold word_char in Hc0; by destruct (in_str whitespace c0)).
    cbn [parseargs]. rewrite (peek_print s _ (c0 :: l0)); [|lia|by rewrite E2|done]. rewrite (word_char_sym c0) by (done || by repeat constructor).
    rewrite (gettoken_wd s w _ ltac:(lia) Hv E (proj1 (args_rest argv rs l Hw Hl))). cbn [Z.eqb Pos.eqb negb].
    cbn [length] in Hlen. destruct (Nat.leb_spec MAXARGS (S (length argv0))); [lia|]. rewrite exec_add_wrap.
    destruct (tail_app s _ _ ltac:(lia) E) as (T1 & T2 & _). destruct (tail_app s _ _ ltac:(lia) E2) as (_ & _ & T3).
    set (q := (s, (s + length w)%nat)).
    destruct (redirs_between argv rs (wrap rs0 (EXEC (argv0 ++ [q]))) _ l T1 T2 Hw Hr Hl) as (rs1 & rs2 & rs1' & -> & Ha2 & T4 & T5 & -> & R1 & Hr2).
    cbn [res_bind]. rewrite <- wrap_app. replace (S (length argv0)) with (length (argv0 ++ [q])) by (rewrite length_app; cbn; lia).
    destruct (IH fuel (rs0 ++ rs1') (argv0 ++ [q]) rs2 (s + length (wd w) + length (concat (map pr rs1)))%nat l) as (rs2' & argv' & -> & R2 & R3);
      try done; [unfold wd in *; rewrite length_app in *; cbn in *; lia|rewrite length_app; cbn; lia|].
    exists (rs1' ++ rs2'), (q :: argv'). split_and!.
    + cbn [map concat]. rewrite map_app, concat_app, !length_app, <- !app_assoc. cbn [app]. f_equal. f_equal. lia.
    + unfold reads_redirs in *. by rewrite map_app, R1, R2.
    + cbn [map]. unfold q. by rewrite T3, R3.
Qed.

(** ** The levels of the grammar

    The text [t] reads as [c] at a level, before any text that may follow there. *)
Definition reads_exec (c : cmd (list Z)) (t : list Z) : Prop := forall fuel s l,
  (s <= es)%nat -> tail_at s = t ++ l -> follows [124; 38; 59; 41] l -> (4 * (es - s) + 2 <= fuel)%nat ->
  exists c', parseexec fuel b es s = Done (c', (s + length t)%nat) /\ reads c' c.
Definition reads_pipe (c : cmd (list Z)) (t : list Z) : Prop := forall fuel s l,
  (s <= es)%nat -> tail_at s = t ++ l -> follows [38; 59; 41] l -> (4 * (es - s) + 3 <= fuel)%nat ->
  exists c', parsepipe fuel b es s = Done (c', (s + length t)%nat) /\ reads c' c.
(** After the pipeline, the loop of [parseline] makes [k] steps. *)
Definition reads_backs (c : cmd (list Z)) (t : list Z) : Prop := forall fuel s l,
  (s <= es)%nat -> tail_at s = t ++ l -> follows [38; 59; 41] l -> (4 * (es - s) + 3 <= fuel)%nat ->
  exists c0 s0 c' k, parsepipe fuel b es s = Done (c0, s0) /\ (s0 + k <= s + length t)%nat /\
    (forall m, parsebacks (k + m) b es c0 s0 = parsebacks m b es c' (s + length t)) /\ reads c' c.
Definition reads_line (c : cmd (list Z)) (t : list Z) : Prop := forall fuel s l,
  (s <= es)%nat -> tail_at s = t ++ l -> follows [41] l -> (4 * (es - s) + 4 <= fuel)%nat ->
  exists c', parseline fuel b es s = Done (c', (s + length t)%nat) /\ reads c' c.

Lemma follows_weak toks toks' l : follows toks l -> Forall (fun c => in_str toks' c = true) toks -> follows toks' l.
Proof.
  destruct l as [|c l]; [done|]. cbn. unfold in_str at 1. rewrite existsb_exists. intros (x & Hx & ->%Z.eqb_eq) H.
  apply (proj1 (Forall_forall _ _) H). by apply list_elem_of_In.
Qed.
(** [peek] does not see a character that cannot follow. *)
Lemma peek_other s toks toks' l : (s <= es)%nat -> tail_at s = l -> follows toks l ->
  Forall (fun c => in_str whitespace c = false /\ in_str toks' c = false) toks -> peek b es s toks' = (s, false).
Proof.
  intros Hs E Hl H. rewrite (peek_print s toks' l Hs E).
  - destruct l as [|c l]; [done|]. cbn in Hl. unfold in_str in Hl at 1. apply existsb_exists in Hl as (x & Hx & ->%Z.eqb_eq).
    f_equal. apply (proj1 (Forall_forall _ _) H). by apply list_elem_of_In.
  - apply (no_ws_follows toks); [|done]. eapply Forall_impl; [exact H|]. by intros x [? _].
Qed.

Lemma exec_pipe c t : reads_exec c t -> reads_pipe c t.
Proof.
  intros H fuel s l Hs E Hl Hf. destruct fuel as [|fuel]; [lia|]. cbn [parsepipe].
  destruct (H fuel s l Hs E) as (c' & -> & Hc); [by eapply follows_weak; [|repeat constructor]|lia|]. cbn [res_bind].
  destruct (tail_app _ _ _ Hs E) as (T1 & T2 & _). rewrite (peek_other _ [38; 59; 41] _ l) by (done || by repeat constructor). by exists c'.
Qed.
Lemma pipe_backs c t : reads_pipe c t -> reads_backs c t.
Proof. intros H fuel s l Hs E Hl Hf. destruct (H fuel s l Hs E Hl Hf) as (c' & Hp & Hc). exists c', (s + length t)%nat, c', 0%nat. split_and!; [done|lia|done|done]. Qed.
Lemma backs_line c t : reads_backs c t -> reads_line c t.
Proof.
  intros H fuel s l Hs E Hl Hf. destruct fuel as [|fuel]; [lia|]. cbn [parseline].
  destruct (H fuel s l Hs E) as (c0 & s0 & c' & k & -> & Hk & Hb & Hc); [by eapply follows_weak; [|repeat constructor]|lia|]. cbn [res_bind].
  destruct (tail_app _ _ _ Hs E) as (T1 & T2 & _). replace (S es) with (k + S (es - k))%nat by lia. rewrite Hb. cbn [parsebacks].
  rewrite (peek_other _ [41] _ l) by (done || by repeat constructor). cbn [res_bind].
  rewrite (peek_other _ [41] _ l) by (done || by repeat constructor). by exists c'.
Qed.
Lemma back_backs c t : reads_backs c t -> reads_backs (BACK c) (t ++ tk 38).
Proof.
  intros H fuel s l Hs E Hl Hf. rewrite <- app_assoc in E. destruct (H fuel s (tk 38 ++ l) Hs E) as (c0 & s0 & c' & k & Hp & Hk & Hb & Hc); [done|lia|].
  destruct (tail_app _ _ _ Hs E) as (T1 & T2 & _). exists c0, s0, (BACK c'), (k + 1)%nat. rewrite length_app. cbn [tk length]. split_and!; [done|lia| |by rewrite <- Hc].
  intros m. rewrite <- Nat.add_assoc, Hb. cbn [Nat.add parsebacks]. rewrite (peek_print _ _ _ T1 T2) by done. cbn [tk app]. change (in_str [38] 38) with true. cbv iota.
  rewrite (gettoken_tk _ 38 l) by (done || (apply (no_ws_follows [38; 59; 41]); [by repeat constructor|done])). by rewrite <- Nat.add_assoc.
Qed.

(** A separator is seen and read. *)
Lemma sep_print s c l toks : (s <= es)%nat -> tail_at s = tk c ++ l -> in_str symbols c = true -> in_str toks c = true -> no_ws l ->
  peek b es s toks = (s, true) /\ gettoken b es s = (c, s, S s, (s + 2)%nat).
Proof.
  intros Hs E Hc Ht Hl. split; [|by apply (gettoken_tk s c l)]. rewrite (peek_print s toks _ Hs E).
  - cbn. by rewrite Ht.
  - cbn. unfold in_str, symbols, whitespace in *. cbn in *. lia.
Qed.

Lemma pipe_pipe l r tl tr : (forall x, no_ws x -> no_ws (tr ++ x)) -> reads_exec l tl -> reads_pipe r tr -> reads_pipe (PIPE l r) (tl ++ tk 124 ++ tr).
Proof.
  intros Hn HL HR fuel s x Hs E Hx Hf. destruct fuel as [|fuel]; [lia|]. cbn [parsepipe]. rewrite <- !app_assoc in E.
  destruct (HL fuel s _ Hs E) as (l' & -> & Hl); [done|lia|]. cbn [res_bind]. destruct (tail_app _ _ _ Hs E) as (T1 & T2 & _).
  assert (Hnx : no_ws (tr ++ x)) by (apply Hn, (no_ws_follows [38; 59; 41]); [by repeat constructor|done]).
  destruct (sep_print _ _ _ [124] T1 T2 eq_refl eq_refl Hnx) as [-> ->]. destruct (tail_app _ _ _ T1 T2) as (T3 & T4 & _). cbn [tk length] in T3, T4.
  destruct (HR fuel _ x T3 T4 Hx) as (r' & -> & Hr); [lia|]. cbn [res_bind]. exists (PIPE l' r'). rewrite !length_app. cbn [tk length]. split.
  - do 2 f_equal. lia.
  - unfold reads in *. cbn. by rewrite Hl, Hr.
Qed.
Lemma list_line l r tl tr : (forall x, no_ws x -> no_ws (tr ++ x)) -> reads_backs l tl -> reads_line r tr -> reads_line (LIST l r) (tl ++ tk 59 ++ tr).
Proof.
  intros Hn HL HR fuel s x Hs E Hx Hf. destruct fuel as [|fuel]; [lia|]. cbn [parseline]. rewrite <- !app_assoc in E.
  destruct (HL fuel s _ Hs E) as (c0 & s0 & l' & k & -> & Hk & Hb & Hl); [done|lia|]. cbn [res_bind]. destruct (tail_app _ _ _ Hs E) as (T1 & T2 & _).
  replace (S es) with (k + S (es - k))%nat by lia. rewrite Hb. cbn [parsebacks]. rewrite (peek_other _ [59] _ _ T1 T2) by (done || by repeat constructor). cbn [res_bind].
  assert (Hnx : no_ws (tr ++ x)) by (apply Hn, (no_ws_follows [41]); [by repeat constructor|done]).
  destruct (sep_print _ _ _ [59] T1 T2 eq_refl eq_refl Hnx) as [-> ->]. destruct (tail_app _ _ _ T1 T2) as (T3 & T4 & _). cbn [tk length] in T3, T4.
  destruct (HR fuel _ x T3 T4 Hx) as (r' & -> & Hr); [lia|]. cbn [res_bind]. exists (LIST l' r'). rewrite !length_app. cbn [tk length]. split.
  - do 2 f_equal. lia.
  - unfold reads in *. cbn. by rewrite Hl, Hr.
Qed.

Lemma redirs_rest rs l : follows [124; 38; 59; 41] l -> no_ws (concat (map pr rs) ++ l) /\ no_ws l /\ match l with [] => True | c :: _ => in_str [60; 62] c = false end.
Proof.
  intros Hl. destruct (args_rest [] rs l (Forall_nil_2 _) Hl) as [H1 _]. destruct (args_rest [] [] l (Forall_nil_2 _) Hl) as [H2 H3].
  split_and!; [exact H1|exact H2|by apply H3].
Qed.
Lemma line_paren c t rs : (forall x, no_ws x -> no_ws (t ++ x)) -> redirs_ok valid rs -> reads_line c t ->
  reads_exec (wrap rs c) (paren true t ++ concat (map pr rs)).
Proof.
  intros Hn Hr H fuel s l Hs E Hl Hf. destruct fuel as [|[|fuel]]; [lia..|]. cbn [parseexec]. cbn [paren] in E. rewrite <- !app_assoc in E.
  destruct (redirs_rest rs l Hl) as (N1 & N2 & N3).
  destruct (sep_print s 40 _ [40] Hs E eq_refl eq_refl ltac:(by apply Hn)) as [P1 P2]. rewrite P1. cbn [parseblock]. rewrite P1, P2.
  destruct (tail_app _ _ _ Hs E) as (T1 & T2 & _). cbn [tk length] in T1, T2. destruct (H fuel _ _ T1 T2) as (c' & -> & Hc); [done|lia|]. cbn [res_bind].
  destruct (tail_app _ _ _ T1 T2) as (T3 & T4 & _). destruct (sep_print _ 41 _ [41] T3 T4 eq_refl eq_refl N1) as [-> ->].
  destruct (tail_app _ _ _ T3 T4) as (T5 & T6 & _). cbn [tk length] in T5, T6.
  destruct (parseredirs_print rs (S es) c' _ l ltac:(split; [exact T5|lia]) T6 Hr N2 N3) as (rs' & -> & R).
  exists (wrap rs' c'). split; [|by apply reads_wrap]. cbn [paren]. rewrite !length_app. cbn [tk length]. do 2 f_equal. lia.
Qed.
Lemma exec_words argv rs : (length argv < MAXARGS)%nat -> Forall valid argv -> redirs_ok valid rs ->
  reads_exec (wrap rs (EXEC argv)) (concat (map wd argv) ++ concat (map pr rs)).
Proof.
  intros Hlen Hv Hr fuel s l Hs E Hl Hf. destruct fuel as [|fuel]; [lia|]. cbn [parseexec]. rewrite <- app_assoc in E.
  destruct (args_rest argv rs l Hv Hl) as [N1 _].
  assert (Hp : peek b es s [40] = (s, false)).
  { rewrite (peek_print s _ _ Hs E N1). f_equal. destruct argv as [|w argv]; [destruct rs as [|r rs]|]; cbn [map concat app].
    - destruct l as [|c l]; [done|]. cbn in Hl. unfold in_str in *. cbn in *. lia.
    - cbn. by destruct (r.2 =? 0).
    - apply Forall_cons in Hv as [Hv _]. unfold wd. rewrite <- !app_assoc.
      destruct (valid_head w ([32] ++ concat (map (fun w => w ++ [32]) argv) ++ concat (map pr rs) ++ l) Hv) as (c & l' & -> & Hc).
      apply word_char_sym; [done|by repeat constructor]. }
  rewrite Hp. destruct (redirs_between argv rs (EXEC []) s l Hs E Hv Hr Hl) as (rs1 & rs2 & rs1' & -> & Ha & T1 & T2 & -> & R1 & Hr2). cbn [res_bind].
  destruct (parseargs_print argv (S es) rs1' [] rs2 _ l ltac:(split; [exact T1|lia]) Ha T2 Hv Hr2 Hl ltac:(done)) as (rs2' & argv' & Hp2 & R2 & R3).
  cbn [length app] in Hp2. rewrite Hp2.
  exists (wrap (rs1' ++ rs2') (EXEC argv')). split.
  - rewrite map_app, concat_app, !length_app. do 2 f_equal. lia.
  - apply reads_wrap; [|by rewrite <- R3]. unfold reads_redirs in *. by rewrite map_app, R1, R2.
Qed.

(** ** Every command *)
Lemma unwrap {W} (c : cmd W) : exists rs c0, c = wrap rs c0 /\ match c0 with REDIR _ _ _ _ => False | _ => True end.
Proof.
  induction c as [argv|c (rs & c0 & -> & H) file mode fd|l IHl r IHr|l IHl r IHr|c IH]; try by (eexists [], _; split; [reflexivity|done]).
  exists (rs ++ [(file, mode, fd)]), c0. split; [by rewrite wrap_app|done].
Qed.
Lemma cmd_ok_wrap {W} (P : W -> Prop) rs c : cmd_ok P (wrap rs c) -> redirs_ok P rs /\ cmd_ok P c.
Proof.
  revert c. induction rs as [|r rs IH]; intros c H; [by split; [constructor|]|]. destruct (IH _ H) as (H1 & H2 & H3 & H4). split; [by constructor|done].
Qed.
Lemma print_wrap lvl rs c : rs <> [] -> print lvl (wrap rs c) = print 3 c ++ concat (map pr rs).
Proof.
  intros Hne. revert lvl. induction rs as [|r rs IH] using rev_ind; intros lvl; [done|]. rewrite wrap_app, map_app, concat_app. cbn [wrap foldl print map concat].
  rewrite app_nil_r, app_assoc. f_equal. destruct rs as [|r0 rs]; [by rewrite app_nil_r|]. by apply IH.
Qed.
Lemma print_no_ws c : cmd_ok valid c -> forall lvl x, no_ws x -> no_ws (print lvl c ++ x).
Proof.
  induction c as [argv|c IH file mode fd|l IHl r IHr|l IHl r IHr|c IH]; intros Hc lvl x Hx; cbn [print].
  - destruct argv as [|w argv]; [done|]. destruct Hc as [_ [Hv _]%Forall_cons]. cbn [map concat]. unfold wd at 1. rewrite <- !app_assoc.
    destruct (valid_head w ([32] ++ concat (map wd argv) ++ x) Hv) as (c & l' & -> & Hc). cbn. unfold word_char in Hc. by destruct (in_str whitespace c).
  - rewrite <- app_assoc. apply IH; [apply Hc|]. unfold pr. cbn. by destruct (fd =? 0).
  - destruct (2 <? lvl)%nat; [done|]. cbn [paren]. rewrite <- !app_assoc. by apply IHl; [apply Hc|].
  - destruct (0 <? lvl)%nat; [done|]. cbn [paren]. rewrite <- !app_assoc. by apply IHl; [apply Hc|].
  - destruct (1 <? lvl)%nat; [done|]. cbn [paren]. rewrite <- !app_assoc. by apply IH; [apply Hc|].
Qed.

Record reads_all (c : cmd (list Z)) : Prop := {
  ra_line : reads_line c (print 0 c);
  ra_backs : reads_backs c (print 1 c);
  ra_pipe : reads_pipe c (print 2 c);
  ra_exec : reads_exec c (print 3 c) }.

Fixpoint cmd_size {W} (c : cmd W) : nat :=
  match c with
  | EXEC _ => 1
  | REDIR c _ _ _ | BACK c => S (cmd_size c)
  | PIPE l r | LIST l r => S (cmd_size l + cmd_size r)
  end.
Lemma size_wrap {W} rs (c : cmd W) : cmd_size (wrap rs c) = (length rs + cmd_size c)%nat.
Proof. revert c. induction rs as [|r rs IH]; intros c; [done|]. cbn. unfold wrap in IH. rewrite IH. cbn. lia. Qed.

Lemma paren_exec c t : cmd_ok valid c -> print 0 c = t -> print 3 c = paren true t -> reads_line c t -> reads_exec c (print 3 c).
Proof.
  intros Hc E0 E3 H. rewrite E3, <- (app_nil_r (paren true t)). change [] with (concat (map pr [])). change c with (wrap [] c).
  apply line_paren; [|constructor|done]. rewrite <- E0. intros x. by apply print_no_ws.
Qed.

Lemma exec_all c t : (forall lvl, print lvl c = t) -> reads_exec c t -> reads_all c.
Proof.
  intros E H. constructor; rewrite ?E; [by apply backs_line, pipe_backs, exec_pipe|by apply pipe_backs, exec_pipe|by apply exec_pipe|done].
Qed.

Lemma print_reads n : forall c, (cmd_size c < n)%nat -> cmd_ok valid c -> reads_all c.
Proof.
  induction n as [|n IH]; intros c Hn Hc; [lia|].
  destruct (unwrap c) as (rs & c0 & -> & Hcore). destruct (cmd_ok_wrap _ _ _ Hc) as [Hr Hc0]. rewrite size_wrap in Hn.
  destruct rs as [|r0 rs].
  - cbn [wrap foldl length Nat.add] in *. destruct c0 as [argv|? ? ? ?|l r|l r|c]; [|done| | |]; cbn [cmd_size] in Hn.
    + apply (exec_all _ (concat (map wd argv) ++ concat (map pr []))); [intros lvl; cbn; by rewrite app_nil_r|].
      apply (exec_words argv []); [apply Hc0|apply Hc0|constructor].
    + destruct Hc0 as [Hl Hr0]. pose proof (IH l ltac:(lia) Hl) as IL. pose proof (IH r ltac:(lia) Hr0) as IR.
      assert (H2 : reads_pipe (PIPE l r) (print 3 l ++ tk 124 ++ print 2 r)).
      { apply pipe_pipe; [by apply print_no_ws|apply IL|apply IR]. }
      assert (H0 := backs_line _ _ (pipe_backs _ _ H2)). constructor; [done|by apply pipe_backs|done|]. by apply (paren_exec _ _ Hc eq_refl eq_refl).
    + destruct Hc0 as [Hl Hr0]. pose proof (IH l ltac:(lia) Hl) as IL. pose proof (IH r ltac:(lia) Hr0) as IR.
      assert (H0 : reads_line (LIST l r) (print 1 l ++ tk 59 ++ print 0 r)).
      { apply list_line; [by apply print_no_ws|apply IL|apply IR]. }
      assert (H3 := paren_exec _ _ Hc eq_refl eq_refl H0). constructor; [done|by apply pipe_backs, exec_pipe|by apply exec_pipe|done].
    + assert (H1 : reads_backs (BACK c) (print 1 c ++ tk 38)) by (apply back_backs, IH; [lia|done]).
      assert (H3 := paren_exec (BACK c) _ Hc eq_refl eq_refl (backs_line _ _ H1)).
      constructor; [by apply backs_line|done|by apply exec_pipe|done].
  - apply (exec_all _ (print 3 c0 ++ concat (map pr (r0 :: rs)))); [intros lvl; by apply print_wrap|].
    destruct c0 as [argv|? ? ? ?|l r|l r|c]; [|done| | |].
    1: { apply exec_words; [apply Hc0|apply Hc0|done]. }
    all: match goal with |- reads_exec (wrap _ ?c) _ => apply (line_paren c (print 0 c)) end;
      [intros x; by apply print_no_ws|done|apply IH; [cbn [length] in Hn; lia|done]].
Qed.
End print.

(** ** The parser *)
Lemma print_all (P : Z -> Prop) c lvl : (forall x, word_char x = true -> x <> 0 -> P x) -> Forall P (32 :: symbols) -> cmd_ok valid c ->
  Forall P (print lvl c).
Proof.
  intros HW HP Hc. assert (Htk : forall x, x ∈ symbols -> Forall P (tk x)).
  { intros x Hx. unfold tk. repeat constructor; apply (proj1 (Forall_forall _ _) HP); set_solver. }
  assert (Hwd : forall w, valid w -> Forall P (wd w)).
  { intros w [_ Hw]. apply Forall_app. split; [|repeat constructor; by apply Forall_cons in HP as [? _]].
    eapply Forall_impl; [exact Hw|]. intros x [? ?]. by apply HW. }
  assert (Hpar : forall p t, Forall P t -> Forall P (paren p t)).
  { intros [] t Ht; [|done]. cbn [paren]. rewrite !Forall_app. split_and!; [apply Htk; set_solver|done|apply Htk; set_solver]. }
  revert lvl. induction c as [argv|c IH file mode fd|l IHl r IHr|l IHl r IHr|c IH]; intros lvl; cbn [print].
  - destruct Hc as [_ Hv]. induction Hv as [|w argv Hw _ IH]; [constructor|]. cbn. apply Forall_app. auto.
  - destruct Hc as (H1 & H2 & _). unfold pr. rewrite !Forall_app. split_and!; [auto|cbn; destruct (fd =? 0); apply Htk; set_solver|auto].
  - apply Hpar. rewrite !Forall_app. split_and!; [apply IHl, Hc|apply Htk; set_solver|apply IHr, Hc].
  - apply Hpar. rewrite !Forall_app. split_and!; [apply IHl, Hc|apply Htk; set_solver|apply IHr, Hc].
  - apply Hpar. rewrite !Forall_app. split_and!; [apply IH, Hc|apply Htk; set_solver].
Qed.
Lemma print_chars c : cmd_ok valid c -> forall lvl, Forall (fun x => x <> 0) (print lvl c).
Proof. intros Hc lvl. apply print_all; [done|by repeat constructor|done]. Qed.
Lemma strlen_text t rest : Forall (fun x => x <> 0) t -> strlen (t ++ 0 :: rest) = length t.
Proof. induction 1 as [|x t Hx _ IH]; [done|]. cbn. destruct (Z.eqb_spec x 0); [done|]. by rewrite IH. Qed.
Lemma map_ch_app t rest : map (ch (t ++ rest)) (seq 0 (length t)) = t.
Proof.
  apply list_eq. intros i. rewrite list_lookup_fmap. destruct (decide (i < length t)%nat) as [Hi|Hi].
  - rewrite lookup_seq_lt by done. cbn. unfold ch. rewrite nth_lookup, lookup_app_l by done. by destruct (lookup_lt_is_Some_2 t i Hi) as [x ->].
  - rewrite lookup_seq_ge by lia. symmetry. apply lookup_ge_None_2. lia.
Qed.

Lemma parsecmd_ok b : (strlen b < length b)%nat ->
  match parsecmd b with
  | Done (c, b') => cmd_ok (word_at b (strlen b)) c /\ b' = nulterminate c b
  | Panicked _ => True
  | NoFuel => False
  end.
Proof.
  intros Hb. pose proof (strlen_ok b Hb) as HB. unfold parsecmd, parse_fuel.
  destruct (parse_all_ok b (strlen b) HB (4 * strlen b + 4) 0 ltac:(lia)) as [H _]. specialize (H ltac:(lia)).
  destruct (parseline _ _ _ _) as [[c s]|e|]; [|done|done]. cbn [res_bind]. destruct (peek b (strlen b) s []) as [s' ?].
  destruct (negb _); [done|]. split; [apply H|done].
Qed.

(** ** Sessions *)

(** Two lines that differ in the kind of white space only. *)
Definition similar (b b' : list Z) : Prop :=
  length b = length b' /\ forall i, ch b i = ch b' i \/ in_str whitespace (ch b i) = true /\ in_str whitespace (ch b' i) = true.

Section similar.
Context (b b' : list Z) (HS : similar b b').

Lemma sim_test (p : Z -> bool) i : (forall x y, in_str whitespace x = true -> in_str whitespace y = true -> p x = p y) -> p (ch b i) = p (ch b' i).
Proof. intros H. destruct (proj2 HS i) as [->|[H1 H2]]; [done|]. by apply H. Qed.
Lemma ws_cases x : in_str whitespace x = true -> x = 32 \/ x = 9 \/ x = 13 \/ x = 10 \/ x = 11.
Proof. unfold in_str, whitespace. cbn. lia. Qed.
Ltac ws := let x := fresh in let y := fresh in intros x y [->|[->|[->|[->| ->]]]]%ws_cases [->|[->|[->|[->| ->]]]]%ws_cases; reflexivity.

Lemma sim_skip p n s : (forall x y, in_str whitespace x = true -> in_str whitespace y = true -> p x = p y) -> skip p b n s = skip p b' n s.
Proof. intros H. revert s. induction n as [|n IH]; intros s; cbn; [done|]. by rewrite (sim_test p s H), IH. Qed.
Lemma sim_skip_to p es s : (forall x y, in_str whitespace x = true -> in_str whitespace y = true -> p x = p y) -> skip_to p b es s = skip_to p b' es s.
Proof. apply sim_skip. Qed.
Lemma sim_eqb c i : in_str whitespace c = false -> (ch b i =? c) = (ch b' i =? c).
Proof.
  intros Hc. apply (sim_test (fun x => x =? c)). intros x y Hx Hy. destruct (Z.eqb_spec x c) as [->|]; [congruence|]. destruct (Z.eqb_spec y c) as [->|]; congruence.
Qed.
Lemma sim_peek es s toks : Forall (fun c => in_str whitespace c = false) toks -> peek b es s toks = peek b' es s toks.
Proof.
  intros Ht. unfold peek. rewrite (sim_skip_to _ es s) by ws. f_equal. rewrite sim_eqb by done. f_equal.
  apply (sim_test (in_str toks)). intros x y Hx Hy. assert (E : forall z, in_str whitespace z = true -> in_str toks z = false).
  { intros z Hz. destruct (in_str toks z) eqn:Ez; [|done]. unfold in_str in Ez. apply existsb_exists in Ez as (z' & Hin & ->%Z.eqb_eq).
    rewrite (proj1 (Forall_forall _ _) Ht z') in Hz; [done|by apply list_elem_of_In]. }
  by rewrite !E.
Qed.
Lemma sim_gettoken es s : gettoken b es s = gettoken b' es s.
Proof.
  unfold gettoken. rewrite <- (sim_skip_to _ es s) by ws. set (q := skip_to _ b es s).
  rewrite <- (sim_skip_to _ es q) by ws. rewrite <- (sim_eqb 62 (S q)) by done.
  assert (Hq : ch b q = ch b' q \/ in_str whitespace (ch b q) = true /\ in_str whitespace (ch b' q) = true) by apply HS.
  set (w := skip_to _ b es q).
  assert (E : forall x y, x = y \/ in_str whitespace x = true /\ in_str whitespace y = true ->
    (if x =? 0 then (x, q) else if (x =? 124) || (x =? 40) || (x =? 41) || (x =? 59) || (x =? 38) || (x =? 60) then (x, S q)
     else if x =? 62 then if ch b (S q) =? 62 then (43, S (S q)) else (x, S q) else (97, w)) =
    (if y =? 0 then (y, q) else if (y =? 124) || (y =? 40) || (y =? 41) || (y =? 59) || (y =? 38) || (y =? 60) then (y, S q)
     else if y =? 62 then if ch b (S q) =? 62 then (43, S (S q)) else (y, S q) else (97, w))).
  { intros x y [->|[Hx Hy]]; [done|]. revert Hx Hy. generalize x y. ws. }
  rewrite (E _ _ Hq). destruct (if ch b' q =? 0 then _ else _) as [tok e]. f_equal. apply sim_skip_to. ws.
Qed.

Lemma sim_parseredirs es fuel : forall c s, parseredirs fuel b es c s = parseredirs fuel b' es c s.
Proof.
  induction fuel as [|fuel IH]; intros c s; cbn [parseredirs]; [done|]. rewrite (sim_peek es s) by by repeat constructor.
  destruct (peek b' es s _) as [s1 []]; [|done]. rewrite sim_gettoken. destruct (gettoken b' es s1) as [[[? ?] ?] s2].
  rewrite sim_gettoken. destruct (gettoken b' es s2) as [[[? ?] ?] s3]. destruct (negb _); [done|]. apply IH.
Qed.
Lemma sim_parseargs es fuel : forall argc c s, parseargs fuel b es argc c s = parseargs fuel b' es argc c s.
Proof.
  induction fuel as [|fuel IH]; intros argc c s; cbn [parseargs]; [done|]. rewrite (sim_peek es s) by by repeat constructor.
  destruct (peek b' es s _) as [s1 []]; [done|]. rewrite sim_gettoken. destruct (gettoken b' es s1) as [[[? ?] ?] s2].
  destruct (_ =? 0); [done|]. destruct (negb _); [done|]. destruct (_ <=? _)%nat; [done|]. rewrite sim_parseredirs.
  destruct (parseredirs _ b' _ _ _) as [[? ?]|?|]; cbn [res_bind]; [apply IH|done|done].
Qed.
Lemma sim_parsebacks es fuel : forall c s, parsebacks fuel b es c s = parsebacks fuel b' es c s.
Proof.
  induction fuel as [|fuel IH]; intros c s; cbn [parsebacks]; [done|]. rewrite (sim_peek es s) by by repeat constructor.
  destruct (peek b' es s _) as [s1 []]; [|done]. rewrite sim_gettoken. destruct (gettoken b' es s1) as [[[? ?] ?] s2]. apply IH.
Qed.
Lemma sim_parse es fuel : forall s,
  parseline fuel b es s = parseline fuel b' es s /\ parsepipe fuel b es s = parsepipe fuel b' es s /\
  parseexec fuel b es s = parseexec fuel b' es s /\ parseblock fuel b es s = parseblock fuel b' es s.
Proof.
  induction fuel as [|fuel IH]; intros s; [done|]. cbn [parseline parsepipe parseexec parseblock]. split_and!.
  - rewrite (proj1 (proj2 (IH s))). destruct (parsepipe fuel b' es s) as [[c s1]|?|]; cbn [res_bind]; [|done..]. rewrite sim_parsebacks.
    destruct (parsebacks _ b' _ _ _) as [[c1 s2]|?|]; cbn [res_bind]; [|done..]. rewrite (sim_peek es s2) by by repeat constructor.
    destruct (peek b' es s2 _) as [s3 []]; [|done]. rewrite sim_gettoken. destruct (gettoken b' es s3) as [[[? ?] ?] s4]. by rewrite (proj1 (IH s4)).
  - rewrite (proj1 (proj2 (proj2 (IH s)))). destruct (parseexec fuel b' es s) as [[c s1]|?|]; cbn [res_bind]; [|done..].
    rewrite (sim_peek es s1) by by repeat constructor. destruct (peek b' es s1 _) as [s3 []]; [|done].
    rewrite sim_gettoken. destruct (gettoken b' es s3) as [[[? ?] ?] s4]. by rewrite (proj1 (proj2 (IH s4))).
  - rewrite (sim_peek es s) by by repeat constructor. destruct (peek b' es s _) as [s1 []]; [apply IH|]. rewrite sim_parseredirs.
    destruct (parseredirs _ b' _ _ _) as [[c s2]|?|]; cbn [res_bind]; [apply sim_parseargs|done|done].
  - rewrite (sim_peek es s) by by repeat constructor. destruct (peek b' es s _) as [s1 []]; [|done]. rewrite sim_gettoken.
    destruct (gettoken b' es s1) as [[[? ?] ?] s2]. rewrite (proj1 (IH s2)). destruct (parseline fuel b' es s2) as [[c s3]|?|]; cbn [res_bind]; [|done..].
    rewrite (sim_peek es s3) by by repeat constructor. destruct (peek b' es s3 _) as [s4 []]; [|done]. rewrite sim_gettoken.
    destruct (gettoken b' es s4) as [[[? ?] ?] s5]. apply sim_parseredirs.
Qed.
End similar.

Lemma sim_strlen b b' es : similar b b' -> line_ok b' es -> strlen b = es.
Proof.
  intros HS [H1 H2 H3]. apply strlen_at.
  - by rewrite (proj1 HS).
  - destruct (proj2 HS es) as [->|[_ Hw]]; [done|]. by rewrite H2 in Hw.
  - intros i Hi Hz. destruct (proj2 HS i) as [E|[Hw _]]; [rewrite E in Hz; by apply (H3 i)|by rewrite Hz in Hw].
Qed.
Lemma sim_slice b b' es w : similar b b' -> word_at b es w -> slice b w = slice b' w.
Proof.
  intros HS [W1 W2 _]. unfold slice. apply map_ext_in. intros i Hi%in_seq. destruct (proj2 HS i) as [|[Hw _]]; [done|].
  specialize (W2 i ltac:(lia)). unfold word_char in W2. by rewrite Hw in W2.
Qed.

Lemma parse_similar b c rest : cmd_ok valid c -> similar b (print 0 c ++ 0 :: rest) ->
  exists c' b', parsecmd b = Done (c', b') /\ cmd_map (fun w => cstr b' w.1) c' = c.
Proof.
  intros Hc HS. set (b0 := print 0 c ++ 0 :: rest) in *. assert (Hl : strlen b0 = length (print 0 c)) by by apply strlen_text, print_chars.
  assert (Hb0 : (strlen b0 < length b0)%nat) by (rewrite Hl; unfold b0; rewrite length_app; cbn; lia). pose proof (strlen_ok b0 Hb0) as HB0.
  pose proof (sim_strlen _ _ _ HS HB0) as Es. assert (Hb : (strlen b < length b)%nat) by by rewrite Es, (proj1 HS).
  pose proof (print_reads b0 (strlen b0) HB0 (S (cmd_size c)) c ltac:(lia) Hc) as [H _ _ _].
  destruct (H (parse_fuel (strlen b0)) 0%nat []) as (c' & Hp & Hr); [lia| |done|unfold parse_fuel; lia|].
  { unfold tail_at. rewrite app_nil_r, Nat.sub_0_r, Hl. apply map_ch_app. }
  assert (Hcmd : parsecmd b = Done (c', nulterminate c' b)).
  { unfold parsecmd. rewrite Es, (proj1 (sim_parse b b0 HS _ _ _)), Hp. cbn [res_bind Nat.add]. rewrite <- Hl.
    rewrite (sim_peek b b0 HS) by constructor. rewrite (peek_print b0 (strlen b0) HB0 _ [] []); [|done| |done].
    - by rewrite Nat.eqb_refl.
    - unfold tail_at. by rewrite Nat.sub_diag. }
  exists c', (nulterminate c' b). split; [done|]. pose proof (parsecmd_ok b Hb) as Hok. rewrite Hcmd in Hok. rewrite <- Hr. apply cmd_map_ext.
  intros w Hw. rewrite (nulterminate_ok b (strlen b) (strlen_ok b Hb) c' w (proj1 Hok) Hw). apply (sim_slice b b0 (strlen b)); [done|].
  by apply (cmd_ok_words _ _ _ (proj1 Hok)).
Qed.

(** C34. The parser terminates on every line: it returns a command or panics with a message,
    and never passes the end of the line. *)
Theorem parsecmd_terminates b : (strlen b < length b)%nat -> parsecmd b <> NoFuel.
Proof. intros Hb E. pose proof (parsecmd_ok b Hb) as H. by rewrite E in H. Qed.

(** C35. A command that the parser returns is well formed: every command to execute has at most
    nine arguments, so that the null pointer fits in the array; every redirection opens for
    reading on 0 or for writing on 1; and every word, as the strings left in the line after
    [nulterminate], is the maximal run of word characters that was parsed, although the zero
    bytes overwrite the line. *)
Theorem parsecmd_wellformed b c b' : (strlen b < length b)%nat -> parsecmd b = Done (c, b') ->
  cmd_ok (word_at b (strlen b)) c /\ cmd_map (fun w => cstr b' w.1) c = cmd_map (slice b) c.
Proof.
  intros Hb E. pose proof (parsecmd_ok b Hb) as H. rewrite E in H. destruct H as [H ->]. split; [done|].
  apply cmd_map_ext. intros w Hw. by apply (nulterminate_ok b (strlen b) (strlen_ok b Hb)).
Qed.

(** C11. The parser is the inverse of printing: from the text of any command, with up to nine
    arguments each, arbitrarily nested pipelines, lists, background commands, redirections and
    parentheses, it returns that command, and its strings are the words. *)
Theorem parse_print c rest : cmd_ok valid c ->
  exists c' b', parsecmd (print 0 c ++ 0 :: rest) = Done (c', b') /\ cmd_map (fun w => cstr b' w.1) c' = c.
Proof. intros Hc. apply (parse_similar _ c rest Hc). split; [done|]. by left. Qed.

(** A background command can only be the last one: the parser rejects [a & b]. *)
Lemma background_last : parsecmd [97; 32; 38; 32; 98; 0] = Panicked "syntax".
Proof. reflexivity. Qed.

(** *** Witnesses: the line [a b | c > d &] *)
Definition line1 : list Z := [97; 32; 98; 124; 99; 62; 100; 38; 0].
Definition cmd1 : cmd (list Z) := BACK (PIPE (EXEC [[97]; [98]]) (REDIR (EXEC [[99]]) [100] (Z.lor O_WRONLY O_CREATE) 1)).

Lemma cmd1_ok : cmd_ok valid cmd1.
Proof. cbn. unfold MAXARGS, redir_ok, valid. split_and!; try lia; try done; try (repeat constructor; done). Qed.

Lemma parsecmd_terminates_witness : (strlen line1 < length line1)%nat /\ parsecmd line1 <> NoFuel.
Proof. split; [cbn; lia|]. apply parsecmd_terminates. cbn. lia. Defined.
Definition cmd1_at : cmd word := BACK (PIPE (EXEC [(0, 1); (2, 3)]%nat) (REDIR (EXEC [(4, 5)]%nat) (6, 7)%nat (Z.lor O_WRONLY O_CREATE) 1)).
Lemma parsecmd_wellformed_witness : parsecmd line1 = Done (cmd1_at, [97; 0; 98; 0; 99; 0; 100; 0; 0]) /\
  cmd_map (fun w => cstr [97; 0; 98; 0; 99; 0; 100; 0; 0] w.1) cmd1_at = cmd1.
Proof.
  assert (E : parsecmd line1 = Done (cmd1_at, [97; 0; 98; 0; 99; 0; 100; 0; 0])) by (vm_compute; reflexivity).
  split; [exact E|]. rewrite (proj2 (parsecmd_wellformed line1 _ _ ltac:(cbn; lia) E)). reflexivity.
Defined.
Lemma parse_print_witness : cmd_ok valid cmd1 /\
  exists c' b', parsecmd (print 0 cmd1 ++ [0]) = Done (c', b') /\ cmd_map (fun w => cstr b' w.1) c' = cmd1.
Proof.
  split; [exact cmd1_ok|]. exact (parse_print cmd1 [] cmd1_ok).
Defined.
