(* ===== verification/ShRun.v ===== *)
(** [user/sh.c], second part: [main] and [runcmd], and what a session with the shell runs.

    The shell and the processes it forks are followed from one system call to the next: the
    code gives a tree of calls, with a branch for a call that fails.  The kernel gives the
    lowest free descriptor, [fork] copies the descriptors, and [exec] keeps them.  A run of a
    tree gives every call a time, so that all interleavings of the processes are covered, and
    [wait] returns only after a child has ended. *)
From stdpp Require Import strings.
From S2P Require Import Prelude Types Sh ShProofs ShPrint.

(** ** Processes *)

(** What a descriptor refers to: one of the objects the shell was started with, a file that
    was opened, or an end of the pipe made by the process [p]. *)
Inductive obj :=
| OStd (n : nat)
| OFile (name : list Z) (mode : Z)
| OPipeR (p : list bool)
| OPipeW (p : list bool).

(** A process: its descriptors, and a name that no other process has had.  After a [fork] the
    parent goes on under a new name. *)
Record sproc := mkSproc { p_fds : list (option obj); p_name : list bool }.

(** What a process does, with the processes it forks.  [TNoFuel] is for the bounds of the
    model: it has no run. *)
Inductive tree :=
| TExit
| TExec (argv : list (list Z)) (fds : list (option obj)) (failed : tree)
| TFork (child parent failed : tree)
| TOpen (file : list Z) (mode : Z) (opened failed : tree)
| TPipe (made failed : tree)
| TChdir (path : list Z) (entered failed : tree)
| TWait (k : tree)
| TPrint (msg : list Z) (k : tree)
| TNoFuel.

(** The lowest free descriptor *)
Fixpoint lowest (fds : list (option obj)) : option nat :=
  match fds with
  | [] => None
  | None :: _ => Some 0%nat
  | Some _ :: fds' => S <$> lowest fds'
  end.
Definition set_fd (fd : nat) (o : option obj) (p : sproc) : sproc := mkSproc (<[fd := o]> (p_fds p)) (p_name p).
Definition sys_close_fd (fd : nat) (p : sproc) : sproc := set_fd fd None p.
Definition alloc_fd (o : obj) (p : sproc) : option (nat * sproc) :=
  match lowest (p_fds p) with Some fd => Some (fd, set_fd fd (Some o) p) | None => None end.
Definition sys_dup_fd (fd : nat) (p : sproc) : sproc :=
  match p_fds p !! fd with
  | Some (Some o) => match alloc_fd o p with Some (_, p) => p | None => p end
  | _ => p
  end.

(** [open] and [pipe] fail when no descriptor is free, and otherwise may fail. *)
Definition sys_open_fd (name : list Z) (mode : Z) (p : sproc) (opened : nat -> sproc -> tree) (failed : tree) : tree :=
  match alloc_fd (OFile name mode) p with
  | Some (fd, p) => TOpen name mode (opened fd p) failed
  | None => failed
  end.
(** Both ends, or neither; the name of the pipe is the name of the process. *)
Definition sys_pipe_fds (p : sproc) : option (nat * nat * sproc) :=
  match alloc_fd (OPipeR (p_name p)) p with
  | Some (p0, p') => match alloc_fd (OPipeW (p_name p)) p' with Some (p1, p'') => Some (p0, p1, p'') | None => None end
  | None => None
  end.

(** ** Code *)

(** [panic(s)] *)
Definition sh_panic (s : string) : tree := TPrint (str s ++ [10]) TExit.

(** [fork1() == 0]: the child, and the rest of the parent *)
Definition fork1 (p : sproc) (child parent : sproc -> tree) : tree :=
  TFork (child (mkSproc (p_fds p) (false :: p_name p))) (parent (mkSproc (p_fds p) (true :: p_name p))) (sh_panic "fork").

Fixpoint runcmd (c : cmd (list Z)) (p : sproc) : tree :=
  match c with
  | EXEC [] => TExit
  | EXEC ((path :: _) as argv) => TExec argv (p_fds p) (TPrint (str "exec " ++ path ++ str " failed" ++ [10]) TExit)
  | REDIR c file mode fd =>
      let p := sys_close_fd (Z.to_nat fd) p in
      sys_open_fd file mode p (fun _ p => runcmd c p) (TPrint (str "open " ++ file ++ str " failed" ++ [10]) TExit)
  | LIST l r => fork1 p (fun p => runcmd l p) (fun p => TWait (runcmd r p))
  | PIPE l r =>
      match sys_pipe_fds p with
      | None => sh_panic "pipe"
      | Some (p0, p1, p) =>
          TPipe
            (fork1 p
              (fun p =>
                let p := sys_close_fd 1 p in
                let p := sys_dup_fd p1 p in
                let p := sys_close_fd p0 p in
                let p := sys_close_fd p1 p in
                runcmd l p)
              (fun p =>
                fork1 p
                  (fun p =>
                    let p := sys_close_fd 0 p in
                    let p := sys_dup_fd p0 p in
                    let p := sys_close_fd p0 p in
                    let p := sys_close_fd p1 p in
                    runcmd r p)
                  (fun p =>
                    let p := sys_close_fd p0 p in
                    let p := sys_close_fd p1 p in
                    TWait (TWait TExit))))
            (sh_panic "pipe")
      end
  | BACK c => fork1 p (fun p => runcmd c p) (fun p => TExit)
  end.

(** [gets(buf, max)] with [n] for [max - 1]: the characters up to the end of the line, and the
    rest of the input *)
Fixpoint gets (n : nat) (input : list Z) : list Z * list Z :=
  match n with
  | O => ([], input)
  | S n' =>
      match input with
      | [] => ([], [])
      | c :: input' =>
          if (c =? 10) || (c =? 13) then ([c], input')
          else let '(l, rest) := gets n' input' in (c :: l, rest)
      end
  end.

(** [static char buf[100]] *)
Definition NBUF_SH : nat := 100.

(** The buffer after [memset] and [gets]; [None] for [-1]. *)
Definition getcmd (input : list Z) : option (list Z) * list Z :=
  let '(l, rest) := gets (NBUF_SH - 1) input in
  let buf := l ++ replicate (NBUF_SH - length l) 0 in
  (if ch buf 0 =? 0 then None else Some buf, rest).

(** The body of the loop of [main]: change the directory, or fork a child that parses and
    runs the line, and wait for it.  [next] is the next round. *)
Definition sh_line (buf : list Z) (p : sproc) (next : sproc -> tree) : tree :=
  if (ch buf 0 =? 99) && (ch buf 1 =? 100) && (ch buf 2 =? 32) then
    let buf := <[(strlen buf - 1)%nat := 0]> buf in
    TChdir (cstr buf 3) (next p) (TPrint (str "cannot cd " ++ cstr buf 3 ++ [10]) (next p))
  else
    fork1 p
      (fun p =>
        match parsecmd buf with
        | Done (c, b') => runcmd (cmd_map (fun w => cstr b' w.1) c) p
        | Panicked e => sh_panic e
        | NoFuel => TNoFuel
        end)
      (fun p => TWait (next p)).

(** The loop of [main]; the input gets shorter. *)
Fixpoint sh_loop (fuel : nat) (input : list Z) (p : sproc) : tree :=
  match fuel with
  | O => TNoFuel
  | S fuel' =>
      TPrint (str "$ ")
        match getcmd input with
        | (None, _) => TExit
        | (Some buf, input) => sh_line buf p (sh_loop fuel' input)
        end
  end.

(** The loop that opens the console until three descriptors are open; every round but the
    last takes a free descriptor. *)
Fixpoint open_console (fuel : nat) (p : sproc) (k : sproc -> tree) : tree :=
  match fuel with
  | O => TNoFuel
  | S fuel' =>
      sys_open_fd (str "console") O_RDWR p
        (fun fd p => if (3 <=? fd)%nat then k (sys_close_fd fd p) else open_console fuel' p k)
        (k p)
  end.

Definition sh_main (input : list Z) (p : sproc) : tree :=
  open_console (S (length (p_fds p))) p (sh_loop (S (length input)) input).

(** ** Runs *)

(** A call that can fail. *)
Inductive call :=
| CExec (argv : list (list Z))
| CFork
| COpen (file : list Z) (mode : Z)
| CPipe
| CChdir (path : list Z).

(** A program with its descriptors, the time it starts and the time its process has ended,
    [None] when it never does; a change of the directory; a call that failed. *)
Inductive event :=
| Prog (argv : list (list Z)) (fds : list (option obj)) (start : nat) (ended : option nat)
| Entered (path : list Z)
| Refused (c : call).

Definition later (s : nat) (x : option nat) : Prop := match x with Some t => (s <= t)%nat | None => True end.

(** [run t kids s x evs]: a process that at the time [s] has [t] left to do ends at [x]; the
    children it has not waited for end at the times [kids]; the process and the children it
    has yet to fork do [evs].  [wait] takes any child that has ended, fails when there is no
    child, and does not return when no child ever ends. *)
Inductive run : tree -> list (option nat) -> nat -> option nat -> list event -> Prop :=
| run_exit kids s t : (s <= t)%nat -> run TExit kids s (Some t) []
| run_exec argv fds failed kids s a x : (s <= a)%nat -> later a x -> run (TExec argv fds failed) kids s x [Prog argv fds a x]
| run_exec_fails argv fds failed kids s a x evs : (s <= a)%nat -> run failed kids a x evs ->
    run (TExec argv fds failed) kids s x (Refused (CExec argv) :: evs)
| run_fork child parent failed kids s a y evs1 x evs2 : (s <= a)%nat ->
    run child [] a y evs1 -> run parent (y :: kids) a x evs2 -> run (TFork child parent failed) kids s x (evs1 ++ evs2)
| run_fork_fails child parent failed kids s a x evs : (s <= a)%nat -> run failed kids a x evs ->
    run (TFork child parent failed) kids s x (Refused CFork :: evs)
| run_open file mode opened failed kids s a x evs : (s <= a)%nat -> run opened kids a x evs ->
    run (TOpen file mode opened failed) kids s x evs
| run_open_fails file mode opened failed kids s a x evs : (s <= a)%nat -> run failed kids a x evs ->
    run (TOpen file mode opened failed) kids s x (Refused (COpen file mode) :: evs)
| run_pipe made failed kids s a x evs : (s <= a)%nat -> run made kids a x evs -> run (TPipe made failed) kids s x evs
| run_pipe_fails made failed kids s a x evs : (s <= a)%nat -> run failed kids a x evs ->
    run (TPipe made failed) kids s x (Refused CPipe :: evs)
| run_chdir path entered failed kids s a x evs : (s <= a)%nat -> run entered kids a x evs ->
    run (TChdir path entered failed) kids s x (Entered path :: evs)
| run_chdir_fails path entered failed kids s a x evs : (s <= a)%nat -> run failed kids a x evs ->
    run (TChdir path entered failed) kids s x (Refused (CChdir path) :: evs)
| run_wait k kids1 kids2 t s a x evs : (s <= a)%nat -> (t <= a)%nat -> run k (kids1 ++ kids2) a x evs ->
    run (TWait k) (kids1 ++ Some t :: kids2) s x evs
| run_wait_fails k s a x evs : (s <= a)%nat -> run k [] a x evs -> run (TWait k) [] s x evs
| run_wait_blocks k kids s : kids <> [] -> Forall (eq None) kids -> run (TWait k) kids s None []
| run_print msg k kids s a x evs : (s <= a)%nat -> run k kids a x evs -> run (TPrint msg k) kids s x evs.

Lemma run_wait_inv k kids s x evs : run (TWait k) kids s x evs ->
  (exists kids1 t kids2 a, kids = kids1 ++ Some t :: kids2 /\ (s <= a)%nat /\ (t <= a)%nat /\ run k (kids1 ++ kids2) a x evs) \/
  (exists a, kids = [] /\ (s <= a)%nat /\ run k [] a x evs) \/
  (kids <> [] /\ Forall (eq None) kids /\ x = None /\ evs = []).
Proof. inversion 1; subst; naive_solver. Qed.
(** Every wait in these runs is for one child, or the two of a pipeline. *)
Lemma run_wait1 k y s x evs : run (TWait k) [y] s x evs ->
  match y with
  | Some t => exists a, (s <= a)%nat /\ (t <= a)%nat /\ run k [] a x evs
  | None => x = None /\ evs = []
  end.
Proof.
  intros [(kids1 & t & kids2 & a & E & Hs & Ht & Hr)|[(a & E & _)|(_ & Hf & -> & ->)]]%run_wait_inv; [|done|].
  - destruct kids1 as [|? [|]]; [|done..]. injection E as -> <-. eauto.
  - by apply Forall_cons in Hf as [<- _].
Qed.
Lemma run_wait2 y1 y2 s x evs : run (TWait (TWait TExit)) [y1; y2] s x evs -> evs = [] /\
  match y1, y2 with
  | Some t1, Some t2 => exists t, x = Some t /\ (s <= t)%nat /\ (t1 <= t)%nat /\ (t2 <= t)%nat
  | _, _ => x = None
  end.
Proof.
  intros [(kids1 & t & kids2 & a & E & Hs & Ht & Hr)|[(a & E & _)|(_ & Hf & -> & ->)]]%run_wait_inv; [|done|].
  - assert (Hy : exists y, kids1 ++ kids2 = [y] /\ ((y1 = Some t /\ y2 = y) \/ (y1 = y /\ y2 = Some t))).
    { destruct kids1 as [|? [|? [|]]]; simplify_eq/=; eauto. }
    destruct Hy as (y & E' & Hy). rewrite E' in Hr. apply run_wait1 in Hr. destruct y as [u|].
    + destruct Hr as (a' & ? & ? & Hr). inversion Hr; subst. split; [done|].
      destruct Hy as [[-> ->]|[-> ->]]; (eexists; split_and!; [done|lia..]).
    + destruct Hr as [-> ->]. split; [done|]. by destruct Hy as [[-> ->]|[-> ->]].
  - by apply Forall_cons in Hf as [<- _].
Qed.

(** *** Runs in which every call succeeds *)
Fixpoint no_fuel_out (t : tree) : Prop :=
  match t with
  | TExit => True
  | TExec _ _ f => no_fuel_out f
  | TFork c p f => no_fuel_out c /\ no_fuel_out p /\ no_fuel_out f
  | TOpen _ _ k f | TPipe k f | TChdir _ k f => no_fuel_out k /\ no_fuel_out f
  | TWait k | TPrint _ k => no_fuel_out k
  | TNoFuel => False
  end.
Definition refused (ev : event) : bool := match ev with Refused _ => true | _ => false end.

Lemma run_exists t : no_fuel_out t -> forall kids s, Forall is_Some kids ->
  exists u evs, run t kids s (Some u) evs /\ existsb refused evs = false.
Proof.
  induction t as [|argv fds f _|c IHc p IHp f _|file mode k IH f _|k IH f _|path k IH f _|k IH|msg k IH|];
    cbn [no_fuel_out]; intros Ht kids s Hk; try (destruct (IH ltac:(tauto) kids s Hk) as (u & evs & Hr & He)); [..|done].
  - exists s, []. split; [by constructor|done].
  - eexists s, _. split; [apply (run_exec _ _ _ _ _ s); [done|cbn; lia]|done].
  - destruct (IHc ltac:(tauto) [] s) as (y & evs1 & H1 & E1); [constructor|].
    destruct (IHp ltac:(tauto) (Some y :: kids) s) as (u & evs2 & H2 & E2); [by constructor; [eexists|]|].
    exists u, (evs1 ++ evs2). split; [by eapply run_fork|]. by rewrite existsb_app, E1, E2.
  - exists u, evs. split; [by eapply run_open|done].
  - exists u, evs. split; [by eapply run_pipe|done].
  - exists u, (Entered path :: evs). split; [by eapply run_chdir|done].
  - clear u evs Hr He. destruct Hk as [|y kids [t ->] Hk].
    + destruct (IH Ht [] s) as (u & evs & Hr & He); [constructor|]. exists u, evs. split; [by eapply run_wait_fails|done].
    + destruct (IH Ht kids (s + t)%nat Hk) as (u & evs & Hr & He). exists u, evs. split; [|done].
      apply (run_wait _ [] kids t s (s + t)); [lia|lia|done].
  - exists u, evs. split; [by eapply run_print|done].
Qed.

(** ** What a command means *)

(** The standard descriptors of a process, and nothing else open. *)
Definition std (i o e : obj) : list (option obj) := [Some i; Some o; Some e] ++ replicate 13 None.

(** What is done from the time [s], by a process that ends at [x]. *)
Definition behaviour : Type := nat -> option nat -> list event -> Prop.

Definition exits (s : nat) (x : option nat) : Prop := exists t, x = Some t /\ (s <= t)%nat.
Definition fails (c : call) : behaviour := fun s x evs => evs = [Refused c] /\ exits s x.

(** The second part starts after the process of the first has ended. *)
Definition in_sequence (l r : behaviour) : behaviour := fun s x evs =>
  fails CFork s x evs \/
  exists m y evl, (s <= m)%nat /\ l m y evl /\
    match y with
    | Some t => exists n evr, (s <= n)%nat /\ (t <= n)%nat /\ r n x evr /\ evs = evl ++ evr
    | None => x = None /\ evs = evl
    end.
(** Both parts run at the same time, and the process ends after both of them. *)
Definition in_parallel (l r : behaviour) : behaviour := fun s x evs =>
  fails CFork s x evs \/
  exists m y evl, (s <= m)%nat /\ l m y evl /\
    ((exists evf, fails CFork s x evf /\ evs = evl ++ evf) \/
     exists n z evr, (s <= n)%nat /\ r n z evr /\ evs = evl ++ evr /\
       match y, z with
       | Some t1, Some t2 => exists t, x = Some t /\ (t1 <= t)%nat /\ (t2 <= t)%nat
       | _, _ => x = None
       end).
(** The process ends without waiting for the part. *)
Definition in_background (c : behaviour) : behaviour := fun s x evs =>
  fails CFork s x evs \/ exists m y, (s <= m)%nat /\ c m y evs /\ exits s x.

(** The programs of a command, each with its input, output and error. *)
Fixpoint means (c : cmd (list Z)) (name : list bool) (i o e : obj) : behaviour :=
  match c with
  | EXEC [] => fun s x evs => evs = [] /\ exits s x
  | EXEC argv => fun s x evs =>
      fails (CExec argv) s x evs \/ exists a, (s <= a)%nat /\ later a x /\ evs = [Prog argv (std i o e) a x]
  | REDIR c file mode fd => fun s x evs =>
      fails (COpen file mode) s x evs \/
      exists m, (s <= m)%nat /\
        (if fd =? 0 then means c name (OFile file mode) o e else means c name i (OFile file mode) e) m x evs
  | PIPE l r => fun s x evs =>
      fails CPipe s x evs \/
      in_parallel (means l (false :: name) i (OPipeW name) e) (means r (false :: true :: name) (OPipeR name) o e) s x evs
  | LIST l r => in_sequence (means l (false :: name) i o e) (means r (true :: name) i o e)
  | BACK c => in_background (means c (false :: name) i o e)
  end.

Fixpoint redirs_std (c : cmd (list Z)) : Prop :=
  match c with
  | EXEC _ => True
  | REDIR c _ _ fd => redirs_std c /\ (fd = 0 \/ fd = 1)
  | PIPE l r | LIST l r => redirs_std l /\ redirs_std r
  | BACK c => redirs_std c
  end.

(** Prints and exits. *)
Lemma run_stop msg kids s x evs : run (TPrint msg TExit) kids s x evs -> evs = [] /\ exits s x.
Proof. inversion 1 as [| | | | | | | | | | | | | |? ? ? ? a ? ? Ha Hr]; subst. inversion Hr; subst. split; [done|]. eexists. split; [done|lia]. Qed.
Lemma fails_intro c msg kids s a x evs : (s <= a)%nat -> run (TPrint msg TExit) kids a x evs -> fails c s x (Refused c :: evs).
Proof. intros Ha (-> & t & -> & Ht)%run_stop. split; [done|]. exists t. split; [done|lia]. Qed.

(** The pattern of [fork1]: the call fails, or there is a child and the rest of the parent. *)
Lemma run_fork1 p child parent kids s x evs : run (fork1 p child parent) kids s x evs ->
  fails CFork s x evs \/
  exists a y evs1 evs2, (s <= a)%nat /\ run (child (mkSproc (p_fds p) (false :: p_name p))) [] a y evs1 /\
    run (parent (mkSproc (p_fds p) (true :: p_name p))) (y :: kids) a x evs2 /\ evs = evs1 ++ evs2.
Proof.
  unfold fork1, sh_panic. inversion 1; subst; [right; naive_solver|left]. by eapply fails_intro.
Qed.
Lemma exits_mono s0 s x : (s0 <= s)%nat -> exits s x -> exits s0 x.
Proof. intros Hs (t & -> & Ht). exists t. split; [done|lia]. Qed.
Lemma in_sequence_mono L R s0 s x evs : (s0 <= s)%nat -> in_sequence L R s x evs -> in_sequence L R s0 x evs.
Proof.
  intros Hs [[-> Hx]|(m & y & evl & Hm & Hl & Hr)]; [left; split; [done|by eapply exits_mono]|right].
  exists m, y, evl. split_and!; [lia|done|]. destruct y as [t|]; [|done]. destruct Hr as (n & evr & Hn & Hr). exists n, evr. split; [lia|done].
Qed.
(** A child that is waited for at once. *)
Lemma run_sequence p child rest s x evs (L R : behaviour) : run (fork1 p child (fun p => TWait (rest p))) [] s x evs ->
  (forall s x evs, run (child (mkSproc (p_fds p) (false :: p_name p))) [] s x evs -> L s x evs) ->
  (forall s x evs, run (rest (mkSproc (p_fds p) (true :: p_name p))) [] s x evs -> R s x evs) -> in_sequence L R s x evs.
Proof.
  intros [Hf|(a & y & evs1 & evs2 & Ha & H1 & H2 & ->)]%run_fork1 HL HR; [by left|right]. apply run_wait1 in H2.
  exists a, y, evs1. split_and!; [done|by apply HL|]. destruct y as [t|].
  - destruct H2 as (n & Hn & Ht & Hr). exists n, evs2. split_and!; [lia|done|by apply HR|done].
  - destruct H2 as [-> ->]. by rewrite app_nil_r.
Qed.

Lemma runcmd_pipe l r name i o e : runcmd (PIPE l r) (mkSproc (std i o e) name) =
  TPipe
    (fork1 (mkSproc ([Some i; Some o; Some e; Some (OPipeR name); Some (OPipeW name)] ++ replicate 11 None) name)
      (fun p => runcmd l (mkSproc (std i (OPipeW name) e) (p_name p)))
      (fun p => fork1 p (fun p => runcmd r (mkSproc (std (OPipeR name) o e) (p_name p))) (fun _ => TWait (TWait TExit))))
    (sh_panic "pipe").
Proof. reflexivity. Qed.

Lemma run_pipeline p L' R' s0 s x evs (L R : behaviour) : (s0 <= s)%nat -> run (fork1 p L' (fun p => fork1 p R' (fun _ => TWait (TWait TExit)))) [] s x evs ->
  (forall s x evs, run (L' (mkSproc (p_fds p) (false :: p_name p))) [] s x evs -> L s x evs) ->
  (forall s x evs, run (R' (mkSproc (p_fds p) (false :: true :: p_name p))) [] s x evs -> R s x evs) -> in_parallel L R s0 x evs.
Proof.
  intros Hs [[-> (t & -> & Ht)]|(a & y & evs1 & evs2 & Ha & H1 & H2 & ->)]%run_fork1 HL HR.
  { left. split; [done|]. exists t. split; [done|lia]. }
  right. exists a, y, evs1. split_and!; [lia|by apply HL|].
  apply run_fork1 in H2 as [[-> (t & -> & Ht)]|(n & z & evs3 & evs4 & Hn & H3 & H4 & ->)].
  - left. eexists. split; [|done]. split; [done|]. exists t. split; [done|lia].
  - right. apply run_wait2 in H4 as [-> H4]. exists n, z, evs3. split_and!; [lia|by apply HR|by rewrite app_nil_r|].
    destruct z, y; naive_solver.
Qed.

Lemma runcmd_means c : redirs_std c -> forall name i o e s x evs,
  run (runcmd c (mkSproc (std i o e) name)) [] s x evs -> means c name i o e s x evs.
Proof.
  induction c as [argv|c IH file mode fd|l IHl r IHr|l IHl r IHr|c IH]; intros Hc name i o e s x evs Hr; cbn [means].
  - cbn [runcmd] in Hr. destruct argv as [|path argv]; inversion Hr; subst.
    + split; [done|]. by eexists.
    + right. eexists; by split_and!.
    + left. by eapply fails_intro.
  - destruct Hc as [Hc Hfd]. cbn [runcmd] in Hr. destruct Hfd as [-> | ->]; inversion Hr; subst; first [left; by eapply fails_intro|right; eexists; split; [done|by apply IH]].
  - destruct Hc as [Hcl Hcr]. rewrite runcmd_pipe in Hr. inversion Hr as [| | | | | | |? ? ? ? a ? ? Ha Hm|? ? ? ? a ? ? Ha Hm| | | | | |]; subst.
    + right. eapply run_pipeline; [exact Ha|exact Hm|intros ? ? ?; apply IHl, Hcl|intros ? ? ?; apply IHr, Hcr].
    + left. by eapply fails_intro.
  - destruct Hc as [Hcl Hcr]. eapply run_sequence; [exact Hr|intros ? ? ?; apply IHl, Hcl|intros ? ? ?; apply IHr, Hcr].
  - apply run_fork1 in Hr as [Hf|(a & y & evs1 & evs2 & Ha & H1 & H2 & ->)]; [by left|right]. inversion H2; subst. rewrite app_nil_r.
    exists a, y. split_and!; [done|by apply (IH Hc)|]. eexists. split; [done|lia].
Qed.

(** ** Sessions *)

(** A line of a session: a command, or a change of the directory. *)
Inductive line :=
| LRun (c : cmd (list Z))
| LCd (path : list Z).

(** A command is typed as it prints, with a space between two tokens; the last space is a
    newline. *)
Definition type_cmd (c : cmd (list Z)) : list Z := removelast (print 0 c) ++ [10].
Definition type_line (l : line) : list Z := match l with LRun c => type_cmd c | LCd path => str "cd " ++ path ++ [10] end.

Definition printable (x : Z) : Prop := x <> 0 /\ x <> 10 /\ x <> 13.
(** A line that the buffer has room for, and that is not empty.  A command does not start
    with [cd]. *)
Definition typed_ok (l : line) : Prop :=
  match l with
  | LRun c => cmd_ok valid c /\ c <> EXEC [] /\ (length (print 0 c) < NBUF_SH)%nat /\ take 3 (type_cmd c) <> str "cd "
  | LCd path => Forall printable path /\ (length path + 4 < NBUF_SH)%nat
  end.

Lemma print_space c lvl : print lvl c = [] /\ c = EXEC [] \/ exists t, print lvl c = t ++ [32].
Proof.
  assert (H : forall (t : list Z) x, exists t', t ++ [x; 32] = t' ++ [32]) by (intros t x; exists (t ++ [x]); by rewrite <- app_assoc).
  assert (Hs : forall (t u : list Z) x, u = [] \/ (exists u', u = u' ++ [32]) -> exists t', t ++ [x; 32] ++ u = t' ++ [32]).
  { intros t u x [->|[u' ->]]; [apply H|]. eexists. rewrite !app_assoc. reflexivity. }
  revert lvl. induction c as [argv|c IH file mode fd|l IHl r IHr|l IHl r IHr|c IH]; intros lvl; cbn [print].
  - destruct argv as [|w ws _] using rev_ind; [by left|right]. rewrite map_app, concat_app. cbn. rewrite app_nil_r. unfold wd.
    eexists. rewrite app_assoc. reflexivity.
  - right. unfold pr, wd. eexists. rewrite !app_assoc. reflexivity.
  - right. destruct (2 <? lvl)%nat; cbn [paren]; [unfold tk; rewrite app_assoc; apply H|]. apply Hs. destruct (IHr 2%nat) as [[-> _]|?]; auto.
  - right. destruct (0 <? lvl)%nat; cbn [paren]; [unfold tk; rewrite app_assoc; apply H|]. apply Hs. destruct (IHr 0%nat) as [[-> _]|?]; auto.
  - right. destruct (1 <? lvl)%nat; cbn [paren]; [unfold tk; rewrite app_assoc; apply H|]. apply H.
Qed.

(** No printed character ends a line. *)
Lemma print_no_newline c lvl : cmd_ok valid c -> Forall (fun x => x <> 10 /\ x <> 13) (print lvl c).
Proof.
  intros Hc. apply print_all; [|by repeat constructor|done]. intros x Hx _. unfold word_char, in_str, whitespace in Hx. cbn in Hx. lia.
Qed.

Lemma gets_line t rest n : Forall (fun x => x <> 10 /\ x <> 13) t -> (length t < n)%nat -> gets n (t ++ 10 :: rest) = (t ++ [10], rest).
Proof.
  intros H. revert n. induction H as [|x t [H1 H2] _ IH]; intros n Hn; (destruct n as [|n]; [cbn in Hn; lia|]); [done|].
  cbn [gets app]. destruct (Z.eqb_spec x 10), (Z.eqb_spec x 13); try done. cbn [orb]. by rewrite IH by (cbn in Hn; lia).
Qed.

Lemma similar_newline t rest : similar (t ++ 10 :: rest) (t ++ 32 :: rest).
Proof.
  induction t as [|x t [IH1 IH2]]; (split; [cbn in *; lia|]); intros [|i]; cbn; try (by left); [by right|apply (IH2 i)].
Qed.

Lemma typed_cmd c rest : typed_ok (LRun c) -> exists buf, getcmd (type_cmd c ++ rest) = (Some buf, rest) /\
  (exists zeros, similar buf (print 0 c ++ 0 :: zeros)) /\ (ch buf 0 =? 99) && (ch buf 1 =? 100) && (ch buf 2 =? 32) = false.
Proof.
  intros (H1 & H2 & H3 & H4). destruct (print_space c 0) as [[_ ?]|[t Et]]; [done|]. pose proof (print_no_newline c 0 H1) as Hnl. pose proof (print_chars c H1 0) as Hz.
  unfold type_cmd in *. rewrite Et in *. rewrite removelast_last in *. rewrite length_app in H3. cbn [length] in H3. apply Forall_app in Hnl as [Hnl _], Hz as [Hz _].
  unfold NBUF_SH in *. exists ((t ++ [10]) ++ replicate (100 - length (t ++ [10])) 0). unfold getcmd.
  rewrite <- app_assoc. cbn [app]. rewrite gets_line by (done || (unfold NBUF_SH; lia)). split_and!.
  - unfold NBUF_SH. destruct t as [|x t]; [done|]. cbn [app ch nth]. apply Forall_cons in Hz as [Hx _]. cbn. by destruct (Z.eqb_spec x 0).
  - exists (replicate (99 - length (t ++ [10])) 0). rewrite length_app. cbn [length]. replace (100 - (length t + 1))%nat with (S (99 - (length t + 1))) by lia.
    rewrite <- !app_assoc. apply similar_newline.
  - destruct t as [|x [|y [|z t]]]; [done|cbn; lia|cbn; lia|]. cbn in H4 |- *.
    destruct (Z.eqb_spec x 99) as [->|]; [|done]. destruct (Z.eqb_spec y 100) as [->|]; [|done]. by destruct (Z.eqb_spec z 32) as [->|].
Qed.

Lemma cmd_ok_redirs c : cmd_ok valid c -> redirs_std c.
Proof.
  induction c as [argv|c IH file mode fd|l IHl r IHr|l IHl r IHr|c IH]; cbn; [done| |tauto|tauto|done]. unfold redir_ok. tauto.
Qed.

Lemma typed_cd path rest : typed_ok (LCd path) -> exists buf, getcmd (type_line (LCd path) ++ rest) = (Some buf, rest) /\
  (ch buf 0 =? 99) && (ch buf 1 =? 100) && (ch buf 2 =? 32) = true /\ cstr (<[(strlen buf - 1)%nat := 0]> buf) 3 = path.
Proof.
  intros [Hp Hl]. cbn [type_line]. unfold NBUF_SH in Hl.
  set (zeros := replicate (95 - length path) 0). set (t := str "cd " ++ path). exists (t ++ 10 :: 0 :: zeros).
  assert (Ht : Forall printable t) by (apply Forall_app; split; [by repeat constructor|done]).
  assert (Hz : Forall (fun x => x <> 0) t) by (eapply Forall_impl; [exact Ht|by intros x [? _]]).
  assert (El : length t = (3 + length path)%nat) by done. split_and!; [|done|].
  - unfold getcmd. replace (str "cd " ++ path ++ [10]) with (t ++ [10]) by (unfold t; by rewrite <- app_assoc). rewrite <- app_assoc. cbn [app].
    rewrite gets_line; [|eapply Forall_impl; [exact Ht|by intros x [_ ?]]|rewrite El; unfold NBUF_SH; lia].
    rewrite length_app, El. unfold NBUF_SH. cbn [length]. replace (100 - (3 + length path + 1))%nat with (S (95 - length path)) by lia.
    cbn [replicate]. fold zeros. by rewrite <- app_assoc.
  - change (t ++ 10 :: 0 :: zeros) with (t ++ [10] ++ 0 :: zeros). rewrite app_assoc, strlen_text; [|apply Forall_app; split; [done|by repeat constructor]].
    rewrite length_app. cbn [length]. rewrite Nat.add_sub, <- app_assoc. rewrite insert_app_r_alt by lia. rewrite Nat.sub_diag. cbn [app insert list_insert].
    unfold cstr, t. rewrite <- app_assoc. change (drop 3 (str "cd " ++ path ++ 0 :: 0 :: zeros)) with (path ++ 0 :: 0 :: zeros).
    rewrite strlen_text by (eapply Forall_impl; [exact Hp|by intros x [? _]]). transitivity (map (ch (path ++ 0 :: 0 :: zeros)) (seq 0 (length path))); [|apply map_ch_app].
    change 3%nat with (3 + 0)%nat at 1. rewrite <- fmap_add_seq, <- list_fmap_compose. apply list_fmap_ext. intros ? k _. done.
Qed.

Section session.
Context (i o e : obj).

(** The lines one after the other, each after the process of the one before has ended. *)
Fixpoint session (ls : list line) (name : list bool) : behaviour :=
  match ls with
  | [] => fun s x evs => evs = [] /\ exits s x
  | LRun c :: ls' => in_sequence (means c (false :: name) i o e) (session ls' (true :: name))
  | LCd path :: ls' => fun s x evs => exists m evs', (s <= m)%nat /\ session ls' name m x evs' /\
      (evs = Entered path :: evs' \/ evs = Refused (CChdir path) :: evs')
  end.
End session.

(** *** The bounds of the model are enough *)
Lemma runcmd_no_fuel_out c : forall p, no_fuel_out (runcmd c p).
Proof.
  induction c as [argv|c IH file mode fd|l IHl r IHr|l IHl r IHr|c IH]; intros p; cbn [runcmd].
  - by destruct argv.
  - unfold sys_open_fd. destruct (alloc_fd _ _) as [[? ?]|]; [|done]. by split; [apply IH|].
  - destruct (sys_pipe_fds p) as [[[? ?] ?]|]; [|done]. cbn. auto 10.
  - cbn. auto.
  - cbn. auto.
Qed.
Lemma gets_length n : forall input, (length (gets n input).1 <= n /\ length (gets n input).1 + length (gets n input).2 = length input)%nat.
Proof.
  induction n as [|n IH]; intros [|c input]; cbn [gets]; try (cbn; lia). destruct (_ || _); [cbn; lia|].
  specialize (IH input). destruct (gets n input) as [l rest]. cbn in *. lia.
Qed.
Lemma getcmd_some input buf rest : getcmd input = (Some buf, rest) -> (length rest < length input /\ strlen buf < length buf)%nat.
Proof.
  unfold getcmd. destruct (gets_length (NBUF_SH - 1) input) as [H1 H2]. destruct (gets _ _) as [l rest']. cbn [fst snd] in *. unfold NBUF_SH in *.
  replace (100 - length l)%nat with (S (99 - length l)) by lia. cbn [replicate]. intros E.
  destruct (Z.eqb_spec (ch (l ++ 0 :: replicate (99 - length l) 0) 0) 0) as [|Hc]; [done|]. injection E as <- <-. split.
  - destruct l; [done|]. cbn in H2. lia.
  - generalize (99 - length l)%nat as z. clear. intros z. induction l as [|x l IH]; cbn; [lia|]. destruct (x =? 0); lia.
Qed.
Lemma sh_loop_no_fuel_out fuel : forall input p, (length input < fuel)%nat -> no_fuel_out (sh_loop fuel input p).
Proof.
  induction fuel as [|fuel IH]; intros input p Hf; [lia|]. cbn [sh_loop no_fuel_out]. destruct (getcmd input) as [[buf|] rest] eqn:E; [|done].
  apply getcmd_some in E as [Hr Hb]. unfold sh_line. destruct (_ && _).
  - cbn. split; apply IH; lia.
  - cbn. split_and!; [|apply IH; lia|done]. pose proof (parsecmd_ok buf Hb) as H. destruct (parsecmd buf) as [[c b']| |]; [apply runcmd_no_fuel_out|done|done].
Qed.

(** *** The lines of a session *)
Lemma sh_loop_session i o e ls : forall fuel name s x evs, Forall typed_ok ls -> (length ls < fuel)%nat ->
  run (sh_loop fuel (concat (map type_line ls)) (mkSproc (std i o e) name)) [] s x evs -> session i o e ls name s x evs.
Proof.
  induction ls as [|l ls IH]; intros fuel name s x evs Hl Hf; (destruct fuel as [|fuel]; [lia|]); cbn [map concat sh_loop session];
    inversion 1 as [| | | | | | | | | | | | | |? ? ? ? a ? ? Ha Hr]; subst.
  - inversion Hr; subst. split; [done|]. eexists. split; [done|lia].
  - apply Forall_cons in Hl as [Ht Hl]. cbn [length] in Hf. destruct l as [c|path].
    + destruct (typed_cmd c (concat (map type_line ls)) Ht) as (buf & E & [zeros Hs] & Hcd). cbn [type_line] in Hr. rewrite E in Hr. unfold sh_line in Hr.
      rewrite Hcd in Hr. destruct (parse_similar buf c zeros (proj1 Ht) Hs) as (c' & b' & E1 & E2). rewrite E1, E2 in Hr.
      eapply in_sequence_mono, run_sequence; [exact Ha|exact Hr| |].
      * intros ? ? ?. apply runcmd_means, cmd_ok_redirs, Ht.
      * intros ? ? ?. apply IH; [done|lia].
    + destruct (typed_cd path (concat (map type_line ls)) Ht) as (buf & E & Hcd & Hp). rewrite E in Hr. unfold sh_line in Hr. rewrite Hcd, Hp in Hr.
      inversion Hr as [| | | | | | | | |? ? ? ? ? m ? evs' Hm Hn|? ? ? ? ? m ? evs' Hm Hn| | | |]; subst.
      * exists m, evs'. split_and!; [lia|apply IH in Hn; [done|done|lia]|by left].
      * inversion Hn as [| | | | | | | | | | | | | |? ? ? ? m' ? ? Hm' Hn']; subst. exists m', evs'. split_and!; [lia|apply IH in Hn'; [done|done|lia]|by right].
Qed.
Lemma type_line_some l : (1 <= length (type_line l))%nat.
Proof. destruct l; cbn [type_line]; unfold type_cmd; rewrite !length_app; cbn [length]; lia. Qed.
Lemma session_length ls : (length ls <= length (concat (map type_line ls)))%nat.
Proof. induction ls as [|l ls IH]; cbn; [lia|]. rewrite length_app. pose proof (type_line_some l). lia. Qed.

(** With the standard descriptors open, the console is opened once more, and closed. *)
Lemma sh_main_std input i o e name : sh_main input (mkSproc (std i o e) name) =
  TOpen (str "console") O_RDWR (sh_loop (S (length input)) input (mkSproc (std i o e) name)) (sh_loop (S (length input)) input (mkSproc (std i o e) name)).
Proof. reflexivity. Qed.


(** A session of three lines: [a b | c > d &], [cd d] and [( a b | c > d & ) ; b < d]. *)
Definition session1 : list line := [LRun cmd1; LCd [100]; LRun (LIST cmd1 (REDIR (EXEC [[98]]) [100] O_RDONLY 0))].
