(* ===== verification/Thread.v ===== *)
(** [user/ulib.c]: threads (p4b), on top of [malloc] and of the system calls [clone] and [join].

    [thread_create] places the page of the stack inside a block of two pages, and keeps the
    address of the block in the word below the page, for [thread_join] to free. *)
From stdpp Require Import relations.
From S2P Require Import Prelude Umalloc.

(** ** Code *)

(** The memory of the process: the heap with the headers of its blocks, and the other words of memory, by
    address. *)
Record umem := mkUmem { um_heap : heap; um_word : Z -> Z }.

Section thread.
(** The address of [base] in [malloc], and whether the kernel grants more memory. *)
Context (base : Z) (grant : Z -> Z -> bool).

(** [(ptr_s + page_size) & ~0xFFF] *)
Definition stack_of (ptr_s : Z) : Z := Z.land (u32 (ptr_s + 4096)) 0xFFFFF000.

(** The value returned, the stack passed to [clone] if it was called, and the memory; [clone] gives the result
    of the system call for that stack, [-1] or the identifier of the thread. *)
Definition thread_create (clone : Z -> Z) (m : umem) : option (Z * option Z * umem) :=
  match malloc base grant (4096 * 2) (um_heap m) with
  | None => None
  | Some (ptr_s, h) =>
      if ptr_s =? 0 then Some (-1, None, mkUmem h (um_word m))
      else
        let stack := stack_of ptr_s in
        Some (clone stack, Some stack, mkUmem h (fupd (um_word m) (stack - 4) ptr_s))
  end.

(** [join(&stack)] returns [pid] and stores [stored], or stores nothing and returns [-1]; the local variable
    [stack] holds [junk] before. *)
Definition thread_join (pid : Z) (stored : option Z) (junk : Z) (m : umem) : option (Z * umem) :=
  let stack := default junk stored in
  let ptr_s := um_word m (stack - 4) in
  match free ptr_s (um_heap m) with
  | None => None
  | Some h => Some (pid, mkUmem h (um_word m))
  end.
End thread.

(** ** Stacks *)
Lemma stack_of_eq p : 0 <= p < 2 ^ 31 -> stack_of p = (p + 4096) / 4096 * 4096.
Proof.
  intros Hp. unfold stack_of. rewrite u32_small by lia. change 0xFFFFF000 with (2 ^ 32 - 2 ^ 12). rewrite (land_clear_low _ 12 32) by lia.
  change (2 ^ 12) with 4096. pose proof (Z.div_mod (p + 4096) 4096). lia.
Qed.

(** A block aligned to eight bytes has room below the page for the address of the block. *)
Lemma stack_of_bounds p : 0 <= p < 2 ^ 31 -> (8 | p) -> p <= stack_of p - 4 /\ stack_of p + 4096 <= p + 8192 /\ stack_of p mod 4096 = 0.
Proof.
  intros Hp [k ->]. rewrite stack_of_eq by done. rewrite Z.mod_mul by done. pose proof (Z.div_mod (k * 8 + 4096) 4096 ltac:(lia)).
  pose proof (Z.mod_pos_bound (k * 8 + 4096) 4096 ltac:(lia)). split_and!; [|lia|done].
  assert (~ (4092 < (k * 8 + 4096) mod 4096)); [|lia]. intros Hgt.
  assert (((k * 8 + 4096) mod 4096) mod 8 = 0).
  { rewrite Z.mod_mod_divide by by exists 512. replace (k * 8 + 4096) with ((k + 512) * 8) by lia. by apply Z.mod_mul. }
  pose proof (Z.div_mod ((k * 8 + 4096) mod 4096) 8 ltac:(lia)). lia.
Qed.

(** The block [a] of the heap holds the page [stack] and the word below it, which has the
    address that [free] takes. *)
Record stack_block (m : umem) (stack a : Z) : Prop := {
  sb_page : stack mod 4096 = 0;
  sb_low : a + HDR <= stack - 4;
  sb_high : stack + 4096 <= a + HDR * h_size (um_heap m) a;
  sb_word : um_word m (stack - 4) = a + HDR }.

(** [thread_join] frees the block of the thread that [join] found: the heap is in order without it. *)
Lemma thread_join_ok base lo m F A1 a A2 pid stack junk : heap_ok base lo (um_heap m) F (A1 ++ a :: A2) -> stack_block m stack a ->
  exists m' F', thread_join pid (Some stack) junk m = Some (pid, m') /\ heap_ok base lo (um_heap m') F' (A1 ++ A2) /\
    um_word m' = um_word m /\ forall b, b ∈ A1 ++ A2 -> h_size (um_heap m') b = h_size (um_heap m) b.
Proof.
  intros H S. destruct (free_any base lo (um_heap m) F A1 a A2 (or_introl H)) as (h' & F' & Hf & H' & Hs).
  unfold thread_join. change (default junk (Some stack)) with stack. rewrite (sb_word _ _ _ S). destruct (ho_blocks _ _ _ _ _ H a) as (B1 & B2 & B3); [set_solver|].
  pose proof (ho_brk _ _ _ _ _ H). pose proof (ho_base _ _ _ _ _ H). rewrite u32_small in Hf by (unfold HDR in *; lia). rewrite Hf.
  by exists (mkUmem h' (um_word m)), F'.
Qed.
Section proofs.
Context (base lo : Z) (grant : Z -> Z -> bool) (HG : below_2g grant) (Hlo : (8 | lo)).

Lemma thread_create_ok clone m F A : heap_inv base lo (um_heap m) F A ->
  exists r st m', thread_create base grant clone m = Some (r, st, m') /\
    match st with
    | Some stack => r = clone stack /\ exists a F', heap_ok base lo (um_heap m') F' (a :: A) /\ stack_block m' stack a /\
        (forall x, x <> stack - 4 -> um_word m' x = um_word m x) /\ forall b, b ∈ A -> h_size (um_heap m') b = h_size (um_heap m) b
    | None => r = -1 /\ heap_ok base lo (um_heap m') F A /\ um_word m' = um_word m /\ grant (h_brk (um_heap m)) 32768 = false /\
        forall b, b ∈ A -> h_size (um_heap m') b = h_size (um_heap m) b
    end.
Proof.
  intros HI. unfold thread_create. destruct (malloc_ok base lo grant (um_heap m) F A (4096 * 2) HG HI ltac:(lia)) as ([p h] & -> & R).
  destruct R as [(F' & H & Hs & HA)|(E & Hg & _ & H & _ & HA)]; cbn [fst snd] in *.
  - destruct (ho_blocks _ _ _ _ _ H (p - HDR)) as (B1 & B2 & B3); [right; by left|]. pose proof (ho_brk _ _ _ _ _ H). pose proof (ho_base _ _ _ _ _ H).
    assert (Hd : (8 | p)).
    { destruct (ho_align _ _ _ _ _ H (p - HDR)) as [k Hk]; [right; by left|]. destruct Hlo as [j Hj]. exists (k + j + 1). unfold HDR in *. lia. }
    unfold HDR in *. destruct (Z.eqb_spec p 0); [lia|]. destruct (stack_of_bounds p ltac:(lia) Hd) as (S1 & S2 & S3).
    eexists _, _, _. split; [reflexivity|]. cbn match. split; [done|]. exists (p - 8), F'. cbn [um_heap um_word]. split_and!; [done| | |done].
    + constructor; cbn [um_heap um_word]; unfold HDR; [done|lia|lia|]. rewrite fupd_eq. lia.
    + intros x Hx. by apply fupd_ne.
  - subst p. eexists _, _, _. split; [reflexivity|]. done.
Qed.

End proofs.

(** ** Programs with threads

    A program creates and joins threads, and calls [malloc] and [free] on its own; the state has the stacks of its
    threads and its other blocks.  Between two calls it writes memory, but not the headers of blocks, which are not among
    the words of [um_word], nor the words below the stacks.  It joins only while it has a thread, so that [join]
    finds one; when [clone] fails, the block of the stack stays allocated. *)
Definition tstate : Type := umem * list Z * list Z.
Inductive tstep (base : Z) (grant : Z -> Z -> bool) : tstate -> tstate -> Prop :=
| ts_create clone m L B r stack m' : thread_create base grant clone m = Some (r, Some stack, m') -> r <> -1 ->
    tstep base grant (m, L, B) (m', stack :: L, B)
| ts_clone_fails clone m L B stack m' : thread_create base grant clone m = Some (-1, Some stack, m') ->
    tstep base grant (m, L, B) (m', L, um_word m' (stack - 4) - HDR :: B)
| ts_refused clone m L B r m' : thread_create base grant clone m = Some (r, None, m') -> tstep base grant (m, L, B) (m', L, B)
| ts_join m L1 stack L2 B pid junk m' : thread_join pid (Some stack) junk m = Some (pid, m') ->
    tstep base grant (m, L1 ++ stack :: L2, B) (m', L1 ++ L2, B)
| ts_malloc m L B n p h : small_request n -> malloc base grant n (um_heap m) = Some (p, h) ->
    tstep base grant (m, L, B) (mkUmem h (um_word m), L, if p =? 0 then B else p - HDR :: B)
| ts_free m L B1 a B2 h : free (u32 (a + HDR)) (um_heap m) = Some h ->
    tstep base grant (m, L, B1 ++ a :: B2) (mkUmem h (um_word m), L, B1 ++ B2)
| ts_write m L B w : (forall s, s ∈ L -> w (s - 4) = um_word m (s - 4)) ->
    tstep base grant (m, L, B) (mkUmem (um_heap m) w, L, B).

Section client.
Context (base lo : Z) (grant : Z -> Z -> bool) (HG : below_2g grant) (Hlo : (8 | lo)) (Hbase : 0 < base /\ base + HDR <= lo < 2 ^ 31).

(** [A]: the blocks of the stacks. *)
Definition threads_ok (s : tstate) : Prop :=
  exists F A, heap_inv base lo (um_heap s.1.1) F (A ++ s.2) /\ Forall2 (stack_block s.1.1) s.1.2 A.

Lemma stack_block_same m m' stack a : stack_block m stack a -> um_word m' (stack - 4) = um_word m (stack - 4) ->
  h_size (um_heap m') a = h_size (um_heap m) a -> stack_block m' stack a.
Proof. intros [S1 S2 S3 S4] E1 E2. constructor; rewrite ?E1, ?E2; done. Qed.

Lemma Forall2_in {X Y} (P Q : X -> Y -> Prop) l k : Forall2 P l k -> (forall x y, x ∈ l -> y ∈ k -> P x y -> Q x y) -> Forall2 Q l k.
Proof. induction 1 as [|x y l k Hxy _ IH]; intros H; constructor; [apply H; [by left|by left|done]|]. apply IH. intros. apply H; [by right|by right|done]. Qed.

(** The blocks keep their sizes and the words below the stacks stay. *)
Lemma stacks_same m m' L A : Forall2 (stack_block m) L A -> (forall s, s ∈ L -> um_word m' (s - 4) = um_word m (s - 4)) ->
  (forall b, b ∈ A -> h_size (um_heap m') b = h_size (um_heap m) b) -> Forall2 (stack_block m') L A.
Proof.
  intros HL Hw Hs. eapply Forall2_in; [exact HL|]. intros st b Hst Hb S. apply (stack_block_same m); [done|by apply Hw|by apply Hs].
Qed.

(** The words below two stacks are different. *)
Lemma stack_words m F A a a' stack stack' : heap_ok base lo (um_heap m) F A -> a ∈ A -> a' ∈ A -> a <> a' ->
  stack_block m stack a -> stack_block m stack' a' -> stack + 4096 <= stack' - 4 \/ stack' + 4096 <= stack - 4.
Proof.
  intros H Ha Ha' Hne [_ S2 S3 _] [_ S2' S3' _]. destruct (ho_apart _ _ _ _ _ H a a' Ha Ha' Hne); unfold HDR in *; lia.
Qed.

(** A new stack leaves the others alone. *)
Lemma new_stack m m' F L A B stack a : Forall2 (stack_block m) L A -> heap_ok base lo (um_heap m') F (a :: A ++ B) ->
  stack_block m' stack a -> (forall x, x <> stack - 4 -> um_word m' x = um_word m x) ->
  (forall b, b ∈ A ++ B -> h_size (um_heap m') b = h_size (um_heap m) b) -> Forall2 (stack_block m') L A.
Proof.
  intros HL H S Hw HA. pose proof (ho_nodup _ _ _ _ _ H) as [Hna _]%NoDup_cons.
  eapply Forall2_in; [exact HL|]. intros st b _ Hb S'. apply (stack_block_same m); [done| |apply HA; set_solver]. apply Hw.
  assert (Hne : a <> b) by (intros ->; set_solver). assert (Hs : h_size (um_heap m') b = h_size (um_heap m) b) by (apply HA; set_solver).
  destruct S' as [_ B1 B2 _], S as [_ A1 A2 _].
  destruct (ho_apart _ _ _ _ _ H a b ltac:(by left) ltac:(set_solver) Hne) as [?|?]; unfold HDR in *; lia.
Qed.

Lemma create_step clone m L B : threads_ok (m, L, B) -> forall r st m', thread_create base grant clone m = Some (r, st, m') ->
  match st with
  | Some stack => threads_ok (m', stack :: L, B) /\ threads_ok (m', L, um_word m' (stack - 4) - HDR :: B)
  | None => threads_ok (m', L, B)
  end.
Proof.
  intros (F & A & HI & HL) r st m' Hc. unfold threads_ok. cbn [fst snd] in *.
  destruct (thread_create_ok base lo grant HG Hlo clone m F (A ++ B) HI) as (r1 & st1 & m1 & Hc' & R). rewrite Hc in Hc'. injection Hc' as <- <- <-.
  destruct st as [stack|].
  - destruct R as (_ & a & F' & H & S & Hw & HA). pose proof (new_stack m m' F' L A B stack a HL H S Hw HA) as HL'. split.
    + exists F', (a :: A). split; [by left|by constructor].
    + exists F', A. split; [|done]. left. rewrite (sb_word _ _ _ S). replace (a + HDR - HDR) with a by lia.
      apply (heap_ok_perm _ _ _ _ (a :: A ++ B)); [by rewrite Permutation_middle|done].
  - destruct R as (_ & H & Hw & _ & HA). exists F, A. split; [by left|]. apply (stacks_same m); [done|by rewrite Hw|]. intros b Hb. apply HA. set_solver.
Qed.

Lemma join_step m L1 stack L2 B pid junk m' : threads_ok (m, L1 ++ stack :: L2, B) ->
  thread_join pid (Some stack) junk m = Some (pid, m') -> threads_ok (m', L1 ++ L2, B).
Proof.
  intros (F & A & HI & HL) Hj. unfold threads_ok. cbn [fst snd] in *.
  apply Forall2_app_inv_l in HL as (A1 & A' & HL1 & HL' & ->). apply Forall2_cons_inv_l in HL' as (a & A2 & S & HL2 & ->).
  assert (H : heap_ok base lo (um_heap m) F (A1 ++ a :: A2 ++ B)).
  { destruct HI as [H|(_ & _ & _ & _ & _ & _ & E)]; [by rewrite <- app_assoc in H|]. by destruct A1. }
  destruct (thread_join_ok base lo m F A1 a (A2 ++ B) pid stack junk H S) as (m1 & F' & Hj' & H' & Hw & HA). rewrite Hj in Hj'. injection Hj' as <-.
  exists F', (A1 ++ A2). split; [left; by rewrite <- app_assoc|]. apply (stacks_same m); [by apply Forall2_app|by rewrite Hw|].
  intros b Hb. apply HA. set_solver.
Qed.

Lemma tstep_ok s s' : tstep base grant s s' -> threads_ok s -> threads_ok s'.
Proof.
  intros [clone m L B r stack m' Hc Hr|clone m L B stack m' Hc|clone m L B r m' Hc|m L1 stack L2 B pid junk m' Hj|m L B n p h Hn Hm|m L B1 a B2 h Hf|m L B w Hw] HT.
  - exact (proj1 (create_step _ _ _ _ HT _ _ _ Hc)).
  - exact (proj2 (create_step _ _ _ _ HT _ _ _ Hc)).
  - exact (create_step _ _ _ _ HT _ _ _ Hc).
  - by eapply join_step.
  - destruct HT as (F & A & HI & HL). unfold threads_ok. cbn [fst snd um_heap] in *.
    destruct (malloc_ok base lo grant (um_heap m) F (A ++ B) n HG HI Hn) as (r & Hr & R). rewrite Hm in Hr. injection Hr as <-.
    destruct R as [(F' & R & _ & HA)|(R0 & _ & _ & R & _ & HA)]; cbn [fst snd] in *.
    + destruct (ho_blocks _ _ _ _ _ R (p - HDR)) as (? & _); [right; by left|]. destruct (Z.eqb_spec p 0); [unfold HDR in *; lia|].
      exists F', A. split; [left; eapply heap_ok_perm; [|exact R]; by rewrite Permutation_middle|].
      apply (stacks_same m); [done|done|]. intros b Hb. apply HA. set_solver.
    + rewrite R0. exists F, A. split; [by left|]. apply (stacks_same m); [done|done|]. intros b Hb. apply HA. set_solver.
  - destruct HT as (F & A & HI & HL). unfold threads_ok. cbn [fst snd um_heap] in *. rewrite app_assoc in HI.
    destruct (free_any _ _ _ _ _ _ _ HI) as (h1 & F' & Hf' & R & HA). rewrite Hf in Hf'. injection Hf' as <-. rewrite <- app_assoc in R, HA.
    exists F', A. split; [by left|]. apply (stacks_same m); [done|done|]. intros b Hb. apply HA. set_solver.
  - destruct HT as (F & A & HI & HL). exists F, A. split; [done|]. apply (stacks_same m); done.
Qed.
Lemma tsteps_ok s : rtc (tstep base grant) (mkUmem (heap0 lo) (fun _ => 0), [], []) s -> threads_ok s.
Proof.
  intros Hs. assert (G : forall s s', rtc (tstep base grant) s s' -> threads_ok s -> threads_ok s').
  { induction 1 as [|s0 s1 s2 H1 _ IH]; [done|]. intros HI. by apply IH, (tstep_ok s0). }
  apply (G _ _ Hs). exists [], []. split; [|constructor]. right. cbn [fst snd um_heap heap0 h_freep h_brk app]. split_and!; try done; lia.
Qed.
End client.

(** C36. After any sequence of [thread_create], [thread_join] with a thread to join, [malloc] and [free], with writes of
    the program in between that spare the headers and the words below the stacks: every thread of the program has a
    block [a] of the heap that holds its stack, an aligned page, after the header and with the word below the page in the
    block too; the blocks of different threads, and the other blocks, do not overlap; and [thread_join] of any thread
    returns with exactly its block given back: the heap is in order with the other blocks allocated, as large as before.
    [thread_create] returns too. *)
Theorem thread_stacks base lo grant m L B : below_2g grant -> (8 | lo) -> 0 < base /\ base + HDR <= lo < 2 ^ 31 ->
  rtc (tstep base grant) (mkUmem (heap0 lo) (fun _ => 0), [], []) (m, L, B) ->
  exists A, length A = length L /\
    (forall i s a, L !! i = Some s -> A !! i = Some a ->
       s mod 4096 = 0 /\ lo <= a /\ a + HDR <= s - 4 /\ s + 4096 <= a + HDR * h_size (um_heap m) a <= h_brk (um_heap m)) /\
    (forall i j a b, (A ++ B) !! i = Some a -> (A ++ B) !! j = Some b -> i <> j -> apart (um_heap m) a b) /\
    (forall i s pid junk, L !! i = Some s -> exists m' F, thread_join pid (Some s) junk m = Some (pid, m') /\
       heap_ok base lo (um_heap m') F (delete i A ++ B) /\ forall b, b ∈ delete i A ++ B -> h_size (um_heap m') b = h_size (um_heap m) b) /\
    forall clone, exists r, thread_create base grant clone m = Some r.
Proof.
  intros HG Hlo Hb Hs. destruct (tsteps_ok base lo grant HG Hlo Hb _ Hs) as (F & A & HI & HL). cbn [fst snd] in *. exists A.
  split; [symmetry; by eapply Forall2_length|].
  assert (Hc : forall clone, exists r, thread_create base grant clone m = Some r).
  { intros clone. destruct (thread_create_ok base lo grant HG Hlo clone m F (A ++ B) HI) as (r & st & m' & ? & _). by exists (r, st, m'). }
  destruct HI as [H|(_ & _ & _ & _ & _ & _ & E)].
  2:{ apply app_nil in E as [-> ->]. apply Forall2_nil_inv_r in HL as ->. split_and!; try done. }
  split_and!; [| | |done].
  - intros i s a Hi Ha. destruct (Forall2_lookup_lr _ _ _ _ _ _ HL Hi Ha) as [S1 S2 S3 _].
    destruct (ho_blocks _ _ _ _ _ H a) as (? & _ & ?); [right; apply elem_of_app; left; by eapply list_elem_of_lookup_2|]. split_and!; done.
  - intros i j a b Hi Hj Hne. apply (ho_apart _ _ _ _ _ H); [by eapply list_elem_of_lookup_2|by eapply list_elem_of_lookup_2|].
    intros ->. apply Hne. eapply NoDup_lookup; [apply H|done|done].
  - intros i s pid junk Hi. destruct (Forall2_lookup_l _ _ _ _ _ HL Hi) as (a & Ha & SB).
    assert (EA : A = take i A ++ a :: drop (S i) A) by by rewrite take_drop_middle.
    rewrite EA, <- app_assoc in H. cbn [app] in H. destruct (thread_join_ok base lo m F _ a _ pid s junk H SB) as (m' & F' & Hj & H' & _ & HA).
    exists m', F'. rewrite delete_take_drop, <- app_assoc. done.
Qed.

Lemma thread_stacks_witness : exists m s a, rtc (tstep 64 grant_1g) (mkUmem (heap0 4096) (fun _ => 0), [], []) (m, [s], []) /\
  s mod 4096 = 0 /\ a + HDR <= s - 4 /\ s + 4096 <= a + HDR * h_size (um_heap m) a /\
  exists m' F, thread_join 5 (Some s) 0 m = Some (5, m') /\ heap_ok 64 4096 (um_heap m') F [].
Proof.
  destruct (thread_create_ok 64 4096 grant_1g grant_1g_below ltac:(by exists 512) (fun _ => 5) (mkUmem (heap0 4096) (fun _ => 0)) [] []) as (r & st & m' & E & _).
  { right. split_and!; done. }
  assert (Hr : r = 5 /\ st = Some 32768) by (vm_compute in E; by injection E). destruct Hr as [-> ->].
  assert (Hs : rtc (tstep 64 grant_1g) (mkUmem (heap0 4096) (fun _ => 0), [], []) (m', [32768], [])) by (eapply rtc_once, ts_create; [exact E|done]).
  destruct (thread_stacks 64 4096 grant_1g m' [32768] [] grant_1g_below ltac:(by exists 512) ltac:(unfold HDR; lia) Hs) as (A & HA & H1 & _ & H2 & _).
  destruct A as [|a [|]]; try discriminate HA. destruct (H1 0%nat 32768 a eq_refl eq_refl) as (P1 & _ & P2 & P3 & _).
  destruct (H2 0%nat 32768 5 0 eq_refl) as (m2 & F & J1 & J2 & _).
  exists m', 32768, a. split_and!; [exact Hs|exact P1|exact P2|exact P3|]. exists m2, F. split; [exact J1|exact J2].
Defined.

(** ** Locks *)

(** The word of a [lock_t], and the threads between [lock_acquire] and [lock_release]. *)
Record lock_state := mkLock { lk_locked : Z; lk_inside : nat -> bool }.

Definition xchg (new old : Z) : Z * Z := (old, new).
Definition lock_init : lock_state := mkLock 0 (fun _ => false).

(** One iteration of the loop of [lock_acquire]: the thread is inside when the old value was
    zero, and goes on otherwise. *)
Definition lock_acquire (t : nat) (s : lock_state) : lock_state :=
  let '(old, l) := xchg 1 (lk_locked s) in
  mkLock l (if negb (old =? 0) then lk_inside s else fun x => (x =? t)%nat || lk_inside s x).
Definition lock_release (t : nat) (s : lock_state) : lock_state :=
  let '(_, l) := xchg 0 (lk_locked s) in mkLock l (fun x => negb (x =? t)%nat && lk_inside s x).

Inductive lock_step : lock_state -> lock_state -> Prop :=
| lk_acquire s t : lk_inside s t = false -> lock_step s (lock_acquire t s)
| lk_release s t : lk_inside s t = true -> lock_step s (lock_release t s).

Definition lock_ok (s : lock_state) : Prop :=
  (forall t t', lk_inside s t = true -> lk_inside s t' = true -> t = t') /\
  (lk_locked s = 0 /\ (forall t, lk_inside s t = false) \/ lk_locked s = 1 /\ exists t, lk_inside s t = true).

Lemma lock_step_ok s s' : lock_step s s' -> lock_ok s -> lock_ok s'.
Proof.
  intros [s1 t Ht|s1 t Ht] [M L]; unfold lock_ok, lock_acquire, lock_release, xchg; cbn [lk_locked lk_inside].
  - destruct L as [[-> L]|[-> [t' Ht']]]; cbn [Z.eqb negb].
    + split; [|right; split; [done|]; exists t; by rewrite Nat.eqb_refl].
      intros x y Hx Hy. rewrite L, orb_false_r in Hx, Hy. by apply Nat.eqb_eq in Hx as ->, Hy as ->.
    + split; [done|right; split; [done|by exists t']].
  - split; [intros x y [_ Hx]%andb_prop [_ Hy]%andb_prop; auto|]. left. split; [done|]. intros x.
    destruct (lk_inside s1 x) eqn:Ex; [|apply andb_false_r]. rewrite (M x t Ex Ht), Nat.eqb_refl. done.
Qed.

(** In every interleaving at most one thread is inside, and the lock is free exactly when none
    is. *)
Lemma lock_mutex s : rtc lock_step lock_init s ->
  (forall t t', lk_inside s t = true -> lk_inside s t' = true -> t = t') /\ (lk_locked s = 0 <-> forall t, lk_inside s t = false).
Proof.
  intros Hs. assert (G : forall s s', rtc lock_step s s' -> lock_ok s -> lock_ok s').
  { induction 1 as [|s0 s1 s2 H1 _ IH]; [done|]. intros HI. by apply IH, (lock_step_ok s0). }
  destruct (G _ _ Hs) as [H1 H2]; [split; [done|left; by split]|]. split; [done|]. destruct H2 as [[-> H2]|[-> [t Ht]]]; [done|].
  split; [done|]. intros H. by rewrite H in Ht.
Qed.
