(* ===== verification/Ulib.v ===== *)
(** The library of user programs ([user/ulib.c], [user/printf.c]) and [user/wc.c].

    A C string is the list of its characters before the terminating zero; memory is a
    function from addresses to bytes. *)
From S2P Require Import Prelude Mem.

(** ** Code: strings and memory *)

(** [strcpy(s, t)]: the bytes of [t] up to and including the zero byte, one at a time; [n] bounds
    the length of the string. *)
Fixpoint strcpy (n : nat) (m : Z -> Z) (s t : Z) : option (Z -> Z) :=
  match n with
  | O => None
  | S n' =>
      let m' := st8 m s (ld8 m t) in
      if ld8 m t =? 0 then Some m' else strcpy n' m' (s + 1) (t + 1)
  end.

Fixpoint strcmp (p q : list Z) : Z :=
  match p, q with
  | c :: p', d :: q' => if c =? d then strcmp p' q' else u8 c - u8 d
  | c :: _, [] => u8 c - 0
  | [], d :: _ => 0 - u8 d
  | [], [] => 0
  end.

(** The loop of [atoi]: signed arithmetic on 32 bits *)
Fixpoint atoi_loop (s : list Z) (n : Z) : Z :=
  match s with
  | c :: s' => if (48 <=? c) && (c <=? 57) then atoi_loop s' (s32 (n * 10 + c - 48)) else n
  | [] => n
  end.
Definition atoi (s : list Z) : Z := atoi_loop s 0.

(** The user's [memmove] copies upwards, whether the areas overlap or not. *)
Definition umemmove (m : Z -> Z) (vdst vsrc n : Z) : Z -> Z := copy_forward m vdst vsrc (Z.to_nat n).

Definition umemset (m : Z -> Z) (dst c n : Z) : Z -> Z := memset m dst c n.

(** ** Code: [printf] *)
Definition digit_char (d : Z) : Z := if d <? 10 then 48 + d else 55 + d.

Fixpoint udigits (fuel : nat) (x base : Z) (buf : list Z) : list Z :=
  match fuel with
  | O => buf
  | S fuel' =>
      let buf' := digit_char (x mod base) :: buf in
      if x / base =? 0 then buf' else udigits fuel' (x / base) base buf'
  end.

(** The characters that [printint] writes; 32 digits are enough for any base. *)
Definition uprintint (xx base : Z) (sgn : bool) : list Z :=
  let neg := sgn && (s32 xx <? 0) in
  let x := if neg then u32 (- s32 xx) else u32 xx in
  if neg then 45 :: udigits 32 x base [] else udigits 32 x base [].

Section printf.
(** The words of the arguments, and the string at an address. *)
Context (args : nat -> Z) (str_at : Z -> list Z).

Definition null_string : list Z := [40; 110; 117; 108; 108; 41].

(** The loop: [state] is whether the last character was a percent sign. *)
Fixpoint printf_loop (fmt : list Z) (state : bool) (ap : nat) : list Z :=
  match fmt with
  | [] => []
  | c :: fmt' =>
      if negb state then
        if c =? 37 then printf_loop fmt' true ap else c :: printf_loop fmt' false ap
      else if c =? 100 then uprintint (args ap) 10 true ++ printf_loop fmt' false (S ap)
      else if (c =? 120) || (c =? 112) then uprintint (args ap) 16 false ++ printf_loop fmt' false (S ap)
      else if c =? 115 then
        (if args ap =? 0 then null_string else str_at (args ap)) ++ printf_loop fmt' false (S ap)
      else if c =? 99 then u8 (args ap) :: printf_loop fmt' false (S ap)
      else if c =? 37 then c :: printf_loop fmt' false ap
      else 37 :: c :: printf_loop fmt' false ap
  end.
Definition printf (fmt : list Z) : list Z := printf_loop fmt false 0.

(** ** Formats *)
Inductive piece := Lit (c : Z) | Dec | Hex | Ptr | Str | Chr | Percent | Unknown (c : Z).

Definition piece_ok (p : piece) : Prop :=
  match p with Lit c => c <> 37 | Unknown c => c <> 37 /\ c <> 100 /\ c <> 120 /\ c <> 112 /\ c <> 115 /\ c <> 99 | _ => True end.
Definition piece_fmt (p : piece) : list Z :=
  match p with
  | Lit c => [c] | Dec => [37; 100] | Hex => [37; 120] | Ptr => [37; 112] | Str => [37; 115] | Chr => [37; 99] | Percent => [37; 37]
  | Unknown c => [37; c]
  end.
(** What a piece prints, given the index of the next argument, and whether it takes it. *)
Definition piece_out (p : piece) (ap : nat) : list Z * bool :=
  match p with
  | Lit c => ([c], false)
  | Dec => (uprintint (args ap) 10 true, true)
  | Hex | Ptr => (uprintint (args ap) 16 false, true)
  | Str => (if args ap =? 0 then null_string else str_at (args ap), true)
  | Chr => ([u8 (args ap)], true)
  | Percent => ([37], false)
  | Unknown c => ([37; c], false)
  end.
Fixpoint render (ps : list piece) (ap : nat) : list Z :=
  match ps with
  | [] => []
  | p :: ps' => (piece_out p ap).1 ++ render ps' (if (piece_out p ap).2 then S ap else ap)
  end.

(** [printf] prints each piece of its format, and each directive takes the next argument. *)
Lemma printf_render ps ap : Forall piece_ok ps -> printf_loop (concat (map piece_fmt ps)) false ap = render ps ap.
Proof.
  intros H. revert ap. induction H as [|p ps Hp _ IH]; intros ap; [done|].
  destruct p as [c| | | | | | |c]; cbn [map concat piece_fmt app render piece_out fst snd]; cbn [printf_loop negb Z.eqb Pos.eqb orb]; rewrite ?IH; try done.
  - cbn in Hp. destruct (Z.eqb_spec c 37); [done|]. by rewrite ?IH.
  - destruct Hp as (H1 & H2 & H3 & H4 & H5 & H6).
    repeat match goal with |- context [c =? ?k] => destruct (Z.eqb_spec c k); [done|] end. cbn [orb]. by rewrite ?IH.
Qed.
End printf.

(** ** Numbers *)
Lemma atoi_step d rest n : 0 <= d < 10 -> atoi_loop (digit_char d :: rest) n = atoi_loop rest (s32 (n * 10 + d)).
Proof. intros Hd. unfold digit_char. cbn [atoi_loop]. replace (d <? 10) with true by lia. replace ((48 <=? 48 + d) && (48 + d <=? 57)) with true by lia. do 2 f_equal. lia. Qed.

Lemma udigits_atoi fuel : forall x buf, 0 <= x < 10 ^ Z.of_nat fuel -> x < 2 ^ 31 -> (0 < fuel)%nat ->
  exists ds, udigits fuel x 10 buf = ds ++ buf /\ forall r, atoi_loop (ds ++ r) 0 = atoi_loop r x.
Proof.
  induction fuel as [|fuel IH]; intros x buf Hx Hs Hf; [lia|]. cbn [udigits]. pose proof (Z.div_mod x 10 ltac:(lia)). pose proof (Z.mod_pos_bound x 10 ltac:(lia)).
  destruct (Z.eqb_spec (x / 10) 0) as [E|E].
  - exists [digit_char (x mod 10)]. split; [done|]. intros r. cbn [app]. rewrite atoi_step, s32_small by lia. f_equal. lia.
  - assert (Hd : 0 < x / 10 < 10 ^ Z.of_nat fuel).
    { pose proof (Z.div_pos x 10 ltac:(lia) ltac:(lia)). split; [lia|]. apply Z.div_lt_upper_bound; [lia|]. rewrite Nat2Z.inj_succ, Z.pow_succ_r in Hx by lia. lia. }
    assert ((0 < fuel)%nat) by (destruct fuel; [cbn in Hd; lia|lia]).
    destruct (IH (x / 10) (digit_char (x mod 10) :: buf) ltac:(lia) ltac:(lia) ltac:(done)) as (ds & -> & Hr).
    exists (ds ++ [digit_char (x mod 10)]). split; [by rewrite <- app_assoc|]. intros r. rewrite <- app_assoc, Hr. cbn [app].
    rewrite atoi_step, s32_small by lia. f_equal. lia.
Qed.

(** A nonnegative number that is printed with [%d] is read back by [atoi], whatever follows. *)
Lemma atoi_printint n r : 0 <= n < 2 ^ 31 -> match r with c :: _ => ~ (48 <= c <= 57) | [] => True end ->
  atoi (uprintint n 10 true ++ r) = n.
Proof.
  intros Hn Hr. unfold atoi, uprintint. rewrite s32_small by lia. replace (n <? 0) with false by lia. cbn [andb]. rewrite u32_small by lia.
  destruct (udigits_atoi 32 n [] ltac:(split; [lia|apply Z.lt_trans with (2 ^ 31); [lia|done]]) ltac:(lia) ltac:(lia)) as (ds & -> & H). rewrite app_nil_r, H. destruct r as [|c r]; [done|].
  cbn [atoi_loop]. by replace ((48 <=? c) && (c <=? 57)) with false by lia.
Qed.

(** ** Strings *)

(** The order of strings: of the first two characters that differ, or of the lengths. *)
Inductive str_lt : list Z -> list Z -> Prop :=
| sl_prefix d q : str_lt [] (d :: q)
| sl_first c d p q : c < d -> str_lt (c :: p) (d :: q)
| sl_next c p q : str_lt p q -> str_lt (c :: p) (c :: q).

(** [strcmp] decides the order of strings of nonzero bytes: its sign is negative, zero or
    positive. *)
Lemma strcmp_order p q : Forall (fun c => 0 < c < 256) p -> Forall (fun c => 0 < c < 256) q ->
  (strcmp p q < 0 <-> str_lt p q) /\ (strcmp p q = 0 <-> p = q) /\ (0 < strcmp p q <-> str_lt q p).
Proof.
  intros Hp. revert q. induction Hp as [|c p Hc Hp IH]; intros q Hq.
  - destruct Hq as [|d q Hd Hq]; cbn [strcmp].
    + split_and!; (split; [lia || done|]); intros H; inversion H; lia.
    + rewrite u8_small by lia. split_and!; (split; [lia || (intros; constructor)|]); intros H; inversion H; subst; lia.
  - destruct Hq as [|d q Hd Hq]; cbn [strcmp].
    + rewrite u8_small by lia. split_and!; (split; [lia || (intros; constructor)|]); intros H; inversion H; subst; lia.
    + destruct (Z.eqb_spec c d) as [->|Hne].
      * destruct (IH q Hq) as (I1 & I2 & I3). rewrite I1, I2, I3. split_and!; split; intros H; try (by constructor); try (by f_equal); inversion H; subst; (lia || done).
      * rewrite !u8_small by lia. split_and!; split; intros H; try (constructor; lia); try lia; inversion H; subst; lia.
Qed.

(** The user's [memmove] is right when the destination does not start inside the source. *)
Lemma umemmove_ok m dst src n x : 0 <= n -> ~ (src < dst < src + n) ->
  ld8 (umemmove m dst src n) x = if (dst <=? x) && (x <? dst + n) then ld8 m (src + (x - dst)) else ld8 m x.
Proof.
  intros Hn Hov. unfold umemmove. rewrite copy_forward_spec by lia. by rewrite Z2Nat.id by lia.
Qed.
(** Otherwise it repeats the start of the source. *)
Lemma umemmove_overlap : let m a := if a =? 0 then 1 else if a =? 1 then 2 else 0 in ld8 (umemmove m 1 0 2) 2 = 1 /\ ld8 m (0 + (2 - 1)) = 2.
Proof. by vm_compute. Qed.

(** [strcpy] copies the string with its zero byte, when it does not overwrite the end of it. *)
Lemma strcpy_copies k : forall n m s t, (forall i, 0 <= i < Z.of_nat k -> ld8 m (t + i) <> 0) -> ld8 m (t + Z.of_nat k) = 0 -> (k < n)%nat ->
  s <= t \/ t + Z.of_nat k < s -> strcpy n m s t = Some (copy_forward m s t (S k)).
Proof.
  induction k as [|k IH]; intros n m s t Hc Hz Hn Hov; (destruct n as [|n]; [lia|]); cbn [strcpy].
  - rewrite Z.add_0_r in Hz. by destruct (Z.eqb_spec (ld8 m t) 0).
  - destruct (Z.eqb_spec (ld8 m t) 0) as [E|_]; [by destruct (Hc 0 ltac:(lia)); rewrite Z.add_0_r|].
    rewrite IH; [done| | |lia|lia].
    + intros i Hi. rewrite ld8_st8. destruct (Z.eqb_spec (t + 1 + i) s); [lia|]. rewrite <- Z.add_assoc. apply Hc. lia.
    + rewrite ld8_st8. destruct (Z.eqb_spec (t + 1 + Z.of_nat k) s); [lia|]. rewrite <- Hz. f_equal. lia.
Qed.

(** ** [wc] *)
Record wcounts := mkCounts { wc_l : Z; wc_w : Z; wc_c : Z; wc_inword : bool }.

Definition is_space (c : Z) : bool := existsb (Z.eqb c) [32; 13; 9; 10; 11].

(** The body of the loop over the buffer *)
Definition wc_char (k : wcounts) (x : Z) : wcounts :=
  let c := s32 (wc_c k + 1) in
  let l := if x =? 10 then s32 (wc_l k + 1) else wc_l k in
  if is_space x then mkCounts l (wc_w k) c false
  else if negb (wc_inword k) then mkCounts l (s32 (wc_w k + 1)) c true
  else mkCounts l (wc_w k) c (wc_inword k).

(** [wc] on the buffers that [read] returns; [None] for a read error, which is the last. *)
Definition wc (reads : list (list Z)) (error : bool) : option (Z * Z * Z) :=
  let k := foldl (foldl wc_char) (mkCounts 0 0 0 false) reads in
  if error then None else Some (wc_l k, wc_w k, wc_c k).

(** The words of a text: the maximal runs of characters that are not spaces. *)
Fixpoint split_words (cur text : list Z) : list (list Z) :=
  match text with
  | [] => if bool_decide (cur = []) then [] else [cur]
  | x :: text' => if is_space x then (if bool_decide (cur = []) then [] else [cur]) ++ split_words [] text' else split_words (cur ++ [x]) text'
  end.

Lemma wc_text text : forall cur k, wc_inword k = negb (bool_decide (cur = [])) ->
  0 <= wc_l k -> 0 <= wc_w k -> 0 <= wc_c k -> wc_l k + wc_w k + wc_c k + 3 * Z.of_nat (length text) < 2 ^ 31 ->
  let k' := foldl wc_char k text in
  wc_c k' = wc_c k + Z.of_nat (length text) /\ wc_l k' = wc_l k + Z.of_nat (length (filter (fun x => x = 10) text)) /\
  wc_w k' = wc_w k - (if bool_decide (cur = []) then 0 else 1) + Z.of_nat (length (split_words cur text)).
Proof.
  induction text as [|x text IH]; intros cur k Hi Hl Hw Hc Hb; cbn [foldl length split_words].
  - destruct (bool_decide (cur = [])); cbn; lia.
  - set (k1 := wc_char k x). cbn [length] in Hb.
    assert (E1 : wc_c k1 = wc_c k + 1 /\ wc_l k1 = wc_l k + (if x =? 10 then 1 else 0)).
    { unfold k1, wc_char. destruct (is_space x), (negb (wc_inword k)), (x =? 10); cbn; rewrite !s32_small by lia; lia. }
    assert (Hfl : Z.of_nat (length (filter (fun x => x = 10) (x :: text))) = (if x =? 10 then 1 else 0) + Z.of_nat (length (filter (fun x => x = 10) text))).
    { rewrite filter_cons. destruct (Z.eqb_spec x 10); [rewrite decide_True by done|rewrite decide_False by done]; cbn [length]; lia. }
    assert (E2 : wc_w k1 = wc_w k + (if is_space x then 0 else if bool_decide (cur = []) then 1 else 0) /\
                 wc_inword k1 = negb (is_space x)).
    { unfold k1, wc_char. rewrite Hi. destruct (is_space x), (bool_decide (cur = [])); cbn; rewrite ?s32_small by lia; (split; [lia|done]). }
    destruct E1 as [E1 E1'], E2 as [E2 E2']. rewrite Hfl. destruct (is_space x) eqn:Es.
    + destruct (IH [] k1) as (I1 & I2 & I3); [done|destruct (x =? 10); lia|lia|lia|destruct (x =? 10); lia|].
      cbn in I3. rewrite length_app. split_and!; [lia|lia|]. rewrite I3. destruct (bool_decide (cur = [])); cbn [length]; lia.
    + assert (Hne : bool_decide (cur ++ [x] = []) = false) by (apply bool_decide_eq_false_2; by destruct cur).
      destruct (IH (cur ++ [x]) k1) as (I1 & I2 & I3); [by rewrite Hne|destruct (x =? 10); lia|destruct (bool_decide (cur = [])); lia|lia| |].
      { destruct (x =? 10), (bool_decide (cur = [])); lia. }
      rewrite Hne in I3. split_and!; [lia|lia|]. rewrite I3. destruct (bool_decide (cur = [])); lia.
Qed.

(** [wc] counts the newlines, the words and the characters of the whole input, however [read]
    cuts it into buffers: a word across two buffers counts once. *)
Theorem wc_correct reads : 3 * Z.of_nat (length (concat reads)) < 2 ^ 31 ->
  wc reads false = Some (Z.of_nat (length (filter (fun x => x = 10) (concat reads))),
    Z.of_nat (length (split_words [] (concat reads))), Z.of_nat (length (concat reads))).
Proof.
  intros Hb. unfold wc. assert (E : forall k, foldl (foldl wc_char) k reads = foldl wc_char k (concat reads)).
  { clear Hb. induction reads as [|r reads IH]; intros k; [done|]. cbn [foldl concat]. by rewrite foldl_app, IH. }
  rewrite E. destruct (wc_text (concat reads) [] (mkCounts 0 0 0 false)) as (H1 & H2 & H3); try done.
  rewrite H1, H2, H3. cbn [wc_l wc_w wc_c]. do 3 f_equal; lia.
Qed.
