(* ===== verification/Uprogs.v ===== *)
(** The small user programs: [cat], [echo], [filestat], [getpinfo], [init], [kill], [ln], [ls], [mkdir], [rm]
    and [zombie], and the functions of [user/ulib.c] that make system calls.

    A program is an interaction tree: its visible events are the system calls, each with its arguments and,
    as answer, its result and what it stores in the memory of the program. *)
From S2P Require Import Prelude Types Mem UserMem Inode Fs Ulib.
From ITree Require Import ITree.

(** ** Code *)

Record pstat := mkPstat { ps_inuse : list Z; ps_pid : list Z; ps_priority : list Z; ps_state : list Z; ps_ticks : list (list Z) }.

(** System calls, [user/user.h] *)
Variant sysE : Type -> Type :=
| Read (fd n : Z) : sysE (Z * list Z)
| Write (fd : Z) (l : list Z) : sysE Z
| Open (path : list Z) (mode : Z) : sysE Z
| Close (fd : Z) : sysE Z
| Fstat (fd : Z) : sysE (Z * stat)
| Link (old new : list Z) : sysE Z
| Unlink (path : list Z) : sysE Z
| Mkdir (path : list Z) : sysE Z
| Mknod (path : list Z) (major minor : Z) : sysE Z
| Dup (fd : Z) : sysE Z
| Kill (pid : Z) : sysE Z
| Fork : sysE Z
| Exec (path : list Z) (argv : list (list Z)) : sysE Z
| Wait : sysE Z
| Sleep (n : Z) : sysE Z
| Uptime : sysE Z
| Getpinfo : sysE (Z * pstat)
| Exit : sysE Empty_set.

Notation prog := (itree sysE).
Notation "'let*' x := m 'in' k" := (ITree.bind m (fun x => k)) (at level 10, x pattern, m at level 100, k at level 200).
Notation "'do*' m 'in' k" := (ITree.bind m (fun _ => k)) (at level 10, m at level 100, k at level 200).
Definition call {X} (e : sysE X) : prog X := ITree.trigger e.
Definition uexit {R} : prog R := let* v := call Exit in match v : Empty_set with end.

(** *** [printf]: one [write] for each character

    An argument is a number or a string; the word of a string argument is a pointer that is not null. *)
Inductive parg := PInt (x : Z) | PStr (l : list Z).
Definition arg_word (args : list parg) (i : nat) : Z :=
  match args !! i with Some (PInt x) => x | Some (PStr _) => Z.of_nat i + 1 | None => 0 end.
Definition arg_str (args : list parg) (a : Z) : list Z :=
  match args !! Z.to_nat (a - 1) with Some (PStr l) => l | _ => [] end.
Fixpoint putcs (fd : Z) (l : list Z) : prog unit :=
  match l with [] => Ret tt | c :: l' => do* call (Write fd [u8 c]) in putcs fd l' end.
Definition fprintf (fd : Z) (fmt : list Z) (args : list parg) : prog unit :=
  putcs fd (printf (arg_word args) (arg_str args) fmt).

(** *** [cat] *)
Definition cat_step (fd : Z) (_ : unit) : prog (unit + Z) :=
  let* (n, l) := call (Read fd 512) in
  if 0 <? n then do* call (Write 1 l) in Ret (inl tt) else Ret (inr n).
Definition cat (fd : Z) : prog unit :=
  let* n := ITree.iter (cat_step fd) tt in
  if n <? 0 then do* fprintf 1 (str "cat: read error
") [] in uexit else Ret tt.
Fixpoint cat_loop (argv : list (list Z)) : prog unit :=
  match argv with
  | [] => uexit
  | a :: argv' =>
      let* fd := call (Open a 0) in
      if fd <? 0 then do* fprintf 1 (str "cat: cannot open %s
") [PStr a] in uexit
      else do* cat fd in do* call (Close fd) in cat_loop argv'
  end.
Definition cat_main (argv : list (list Z)) : prog unit :=
  if Z.of_nat (length argv) <=? 1 then do* cat 0 in uexit else cat_loop (drop 1 argv).

(** *** [echo] *)
Fixpoint echo_loop (argv : list (list Z)) : prog unit :=
  match argv with
  | [] => uexit
  | a :: argv' =>
      do* fprintf 1 (str "%s%s") [PStr a; PStr (match argv' with [] => [10] | _ => [32] end)] in echo_loop argv'
  end.
Definition echo_main (argv : list (list Z)) : prog unit := echo_loop (drop 1 argv).

(** *** [kill] *)
Fixpoint kill_loop (argv : list (list Z)) : prog unit :=
  match argv with [] => uexit | a :: argv' => do* call (Kill (atoi a)) in kill_loop argv' end.
Definition kill_main (argv : list (list Z)) : prog unit :=
  if Z.of_nat (length argv) <? 1 then do* fprintf 2 (str "usage: kill pid...
") [] in uexit else kill_loop (drop 1 argv).

(** *** [ln], [mkdir] and [rm] *)
Definition ln_main (argv : list (list Z)) : prog unit :=
  match argv with
  | [_; old; new] =>
      let* r := call (Link old new) in
      do* (if r <? 0 then fprintf 2 (str "link %s %s: failed
") [PStr old; PStr new] else Ret tt) in uexit
  | _ => do* fprintf 2 (str "Usage: ln old new
") [] in uexit
  end.

Fixpoint mkdir_loop (argv : list (list Z)) : prog unit :=
  match argv with
  | [] => uexit
  | a :: argv' =>
      let* r := call (Mkdir a) in
      if r <? 0 then do* fprintf 2 (str "mkdir: %s failed to create
") [PStr a] in uexit else mkdir_loop argv'
  end.
Definition mkdir_main (argv : list (list Z)) : prog unit :=
  if Z.of_nat (length argv) <? 2 then do* fprintf 2 (str "Usage: mkdir files...
") [] in uexit else mkdir_loop (drop 1 argv).

Fixpoint rm_loop (argv : list (list Z)) : prog unit :=
  match argv with
  | [] => uexit
  | a :: argv' =>
      let* r := call (Unlink a) in
      if r <? 0 then do* fprintf 2 (str "rm: %s failed to delete
") [PStr a] in uexit else rm_loop argv'
  end.
Definition rm_main (argv : list (list Z)) : prog unit :=
  if Z.of_nat (length argv) <? 2 then do* fprintf 2 (str "Usage: rm files...
") [] in uexit else rm_loop (drop 1 argv).

(** *** [ls] *)

(** The position after the last slash at or before [p]. *)
Fixpoint after_slash (p : nat) (path : list Z) : nat :=
  if bool_decide (path !! p = Some 47) then S p else match p with O => O | S p' => after_slash p' path end.
Definition fmtname (path : list Z) : list Z :=
  let p := drop (after_slash (length path) path) path in
  if (DIRSIZ <=? length p)%nat then p else p ++ replicate (DIRSIZ - length p) 32.

(** [stat] of [ulib.c]; the structure keeps its contents when the file cannot be opened. *)
Definition ustat (n : list Z) (st : stat) : prog (Z * stat) :=
  let* fd := call (Open n O_RDONLY) in
  if fd <? 0 then Ret (-1, st)
  else
    let* (r, st') := call (Fstat fd) in
    do* call (Close fd) in Ret (r, st').

(** The characters before the first zero. *)
Fixpoint cstr (l : list Z) : list Z := match l with [] => [] | c :: l' => if c =? 0 then [] else c :: cstr l' end.
Definition ls_line (name : list Z) (st : stat) : prog unit :=
  fprintf 1 (str "%s %d %d %d
") [PStr name; PInt (st_type st); PInt (st_ino st); PInt (st_size st)].
Definition ls_step (fd : Z) (path : list Z) (st : stat) : prog (stat + unit) :=
  let* (n, l) := call (Read fd 16) in
  if negb (n =? 16) then Ret (inr tt)
  else
    let de := dirent_get l 0 in
    if de_inum de =? 0 then Ret (inl st)
    else
      let buf := path ++ [47] ++ cstr (de_name de) in
      let* (r, st) := ustat buf st in
      if r <? 0 then do* fprintf 1 (str "ls: cannot stat %s
") [PStr buf] in Ret (inl st)
      else do* ls_line (fmtname buf) st in Ret (inl st).
Definition ls (path : list Z) : prog unit :=
  let* fd := call (Open path 0) in
  if fd <? 0 then fprintf 2 (str "ls: cannot open %s
") [PStr path]
  else
    let* (r, st) := call (Fstat fd) in
    if r <? 0 then do* fprintf 2 (str "ls: cannot stat %s
") [PStr path] in do* call (Close fd) in Ret tt
    else
      do* (if st_type st =? T_FILE then ls_line (fmtname path) st
           else if st_type st =? T_DIR then
             if 512 <? Z.of_nat (length path) + 1 + Z.of_nat DIRSIZ + 1 then fprintf 1 (str "ls: path too long
") []
             else ITree.iter (ls_step fd path) st
           else Ret tt) in
      do* call (Close fd) in Ret tt.
Fixpoint ls_loop (argv : list (list Z)) : prog unit :=
  match argv with [] => uexit | a :: argv' => do* ls a in ls_loop argv' end.
Definition ls_main (argv : list (list Z)) : prog unit :=
  if Z.of_nat (length argv) <? 2 then do* ls (str ".") in uexit else ls_loop (drop 1 argv).

(** *** [init] *)
Definition reap_step (pid : Z) (_ : unit) : prog (unit + unit) :=
  let* wpid := call Wait in
  if (0 <=? wpid) && negb (wpid =? pid) then do* fprintf 1 (str "zombie!
") [] in Ret (inl tt) else Ret (inr tt).
Definition init_step (_ : unit) : prog (unit + unit) :=
  do* fprintf 1 (str "init: starting sh
") [] in
  let* pid := call Fork in
  if pid <? 0 then do* fprintf 1 (str "init: fork failed
") [] in uexit
  else if pid =? 0 then
    do* call (Exec (str "sh") [str "sh"]) in
    do* fprintf 1 (str "init: exec sh failed
") [] in uexit
  else do* ITree.iter (reap_step pid) tt in Ret (inl tt).
Definition init_main : prog unit :=
  let* fd := call (Open (str "console") O_RDWR) in
  do* (if fd <? 0 then
         do* call (Mknod (str "console") 1 1) in
         do* call (Open (str "console") O_RDWR) in Ret tt
       else Ret tt) in
  do* call (Dup 0) in
  do* call (Dup 0) in
  ITree.iter init_step tt.

(** *** [zombie], [filestat] and [getpinfo] *)
Definition zombie_main : prog unit :=
  let* pid := call Fork in
  do* (if 0 <? pid then do* call (Sleep 5) in Ret tt else Ret tt) in uexit.

Definition print_stat (fst : stat) : prog unit :=
  fprintf 1 (str "type: %d, dev: %d, inode number: %d, nlink: %d, size: %d, checksum: %x
") [PInt (st_type fst); PInt (st_dev fst); PInt (st_ino fst); PInt (st_nlink fst); PInt (st_size fst); PInt (st_checksum fst)].
Definition filestat_main (argv : list (list Z)) : prog unit :=
  match argv with
  | [_; a] =>
      let* fd := call (Open a 0) in
      if fd <? 0 then do* fprintf 1 (str "cat: cannot open %s
") [PStr a] in uexit
      else
        let* (_, fst) := call (Fstat fd) in
        do* print_stat fst in uexit
  | _ => do* fprintf 1 (str "usage: filestat filename
") [] in uexit
  end.

Definition state_str (st : Z) : list Z :=
  if st =? 0 then str "unused" else if st =? 1 then str "embryo" else if st =? 2 then str "sleeping"
  else if st =? 3 then str "runnable" else if st =? 4 then str "running" else if st =? 5 then str "zombie" else str "unknown".
Definition word (l : list Z) (i : nat) : Z := default 0 (l !! i).
(** The loop of [print_proc_info], over the slots [l]; [count] is the number of processes so far. *)
Fixpoint print_procs (ps : pstat) (verbose : bool) (l : list nat) (count : Z) : prog Z :=
  match l with
  | [] => Ret count
  | i :: l' =>
      if word (ps_inuse ps) i =? 0 then print_procs ps verbose l' count
      else
        let t := default [] (ps_ticks ps !! i) in
        do* (if verbose then
               fprintf 1 (str "pid=%d, state=%s, priority=%d, ticks=[%d, %d, %d, %d]
") [PInt (word (ps_pid ps) i); PStr (state_str (word (ps_state ps) i)); PInt (word (ps_priority ps) i);
                  PInt (word t 0); PInt (word t 1); PInt (word t 2); PInt (word t 3)]
             else Ret tt) in
        print_procs ps verbose l' (count + 1)
  end.
Definition print_proc_info (ps : pstat) (verbose : bool) : prog unit :=
  let* t := call Uptime in
  do* fprintf 1 (str "current ticks=%d
") [PInt t] in
  let* count := print_procs ps verbose (seq 0 NPROC) 0 in
  fprintf 1 (str "Total number of processes: %d
") [PInt count].

Definition getpinfo_usage : prog unit := do* fprintf 2 (str "Usage: getpinfo [-v]
") [] in uexit.
Definition getpinfo_run (verbose : bool) : prog unit :=
  let* (r, ps) := call Getpinfo in
  do* (if r <? 0 then fprintf 2 (str "getpinfo: cannot get process information") [] else Ret tt) in
  do* print_proc_info ps verbose in uexit.
Definition getpinfo_main (argv : list (list Z)) : prog unit :=
  if Z.of_nat (length argv) =? 2 then
    if strcmp (default [] (argv !! 1%nat)) (str "-v") =? 0 then getpinfo_run true else getpinfo_usage
  else if 2 <? Z.of_nat (length argv) then getpinfo_usage else getpinfo_run false.

(** ** System calls as the programs see them

    The files with their contents, for the open descriptors the file and the bytes that are still to be read, the
    bytes written, each with its descriptor, and the processes that were sent a signal.  A read of a device may return
    fewer bytes than there are.  Calls that no theorem below is about may do anything. *)
Definition node : Type := stat * list Z.
Record world := mkWorld { w_files : list Z -> option node; w_fds : Z -> option node; w_out : list (Z * Z); w_killed : list Z }.
#[global] Instance world_eta : Eta world := {| eta r := mkWorld (w_files r) (w_fds r) (w_out r) (w_killed r) |}.
Definition put {B} (i : Z) (b : B) (f : Z -> B) (j : Z) : B := if j =? i then b else f j.
Definition put_file (p : list Z) (b : option node) (f : list Z -> option node) (q : list Z) : option node :=
  if bool_decide (q = p) then b else f q.
(** After a write of [l] to [fd]. *)
Definition printed_to (fd : Z) (l : list Z) (w : world) : world := w <| w_out ::= fun o => o ++ (pair fd <$> l) |>.

Definition post {X} (e : sysE X) (w : world) : X -> world -> Prop :=
  match e in sysE X return X -> world -> Prop with
  | Read fd n => fun '(r, l) w' =>
      match w_fds w fd with
      | Some (_, []) => r = 0 /\ w' = w
      | Some (st, u) => 0 < r <= n /\ (st_type st <> T_DEV -> r = Z.min n (Z.of_nat (length u))) /\
          exists u', u = l ++ u' /\ Z.of_nat (length l) = r /\ w' = w <| w_fds ::= put fd (Some (st, u')) |>
      | None => r = -1 /\ w' = w
      end
  | Write fd l => fun r w' => r = Z.of_nat (length l) /\ w' = printed_to fd l w
  | Open p m => fun r w' =>
      match w_files w p with
      | Some f => 0 <= r /\ w_fds w r = None /\ w' = w <| w_fds ::= put r (Some f) |>
      | None => r = -1 /\ w' = w
      end
  | Close fd => fun r w' => r = 0 /\ w' = w <| w_fds ::= put fd None |>
  | Fstat fd => fun '(r, st) w' =>
      w' = w /\ match w_fds w fd with Some (st', _) => r = 0 /\ st = st' | None => r = -1 end
  | Unlink p => fun r w' =>
      match w_files w p with
      | Some _ => r = 0 /\ w' = w <| w_files ::= put_file p None |>
      | None => r = -1 /\ w' = w
      end
  | Kill pid => fun r w' => w' = w <| w_killed ::= fun l => l ++ [pid] |>
  | _ => fun _ _ => True
  end.

(** ** Total correctness

    Whatever the answers to its calls, the program ends: it returns a value or calls [exit]. *)
Definition is_exit {X} (e : sysE X) : bool := match e with Exit => true | _ => false end.
Inductive ends {R} (Q : option R -> world -> Prop) : prog R -> world -> Prop :=
| ends_ret t w r : observe t = RetF r -> Q (Some r) w -> ends Q t w
| ends_tau t w t' : observe t = TauF t' -> ends Q t' w -> ends Q t w
| ends_exit t w k : observe t = VisF Exit k -> Q None w -> ends Q t w
| ends_call t w X (e : sysE X) k : observe t = VisF e k -> is_exit e = false ->
    (forall x w', post e w x w' -> ends Q (k x) w') -> ends Q t w.

Section rules.
Context {R : Type}.
Implicit Types (Q : option R -> world -> Prop).

Lemma observe_bind {A} (t : prog A) (k : A -> prog R) : observe (ITree.bind t k) =
  match observe t with RetF r => observe (k r) | TauF t' => TauF (ITree.bind t' k) | VisF e h => VisF e (fun x => ITree.bind (h x) k) end.
Proof. unfold ITree.bind, observe. cbn. unfold observe. destruct (_observe t); reflexivity. Qed.
Lemma ends_observe Q t t' w : observe t = observe t' -> ends Q t w -> ends Q t' w.
Proof.
  intros E H. revert E. destruct H as [t0 w0 r E' H|t0 w0 t1 E' H|t0 w0 k E' H|t0 w0 X e k E' He H]; intros E; rewrite E in E';
    [by eapply ends_ret|by eapply ends_tau|by eapply ends_exit|by eapply ends_call].
Qed.
Lemma ends_Ret Q r w : Q (Some r) w -> ends Q (Ret r) w.
Proof. by apply ends_ret. Qed.
Lemma ends_mono Q Q' t w : ends Q t w -> (forall o w', Q o w' -> Q' o w') -> ends Q' t w.
Proof.
  intros H HQ. induction H as [t w r E H|t w t1 E H IH|t w k E H|t w X e k E He H IH];
    [eapply ends_ret|eapply ends_tau|eapply ends_exit|eapply ends_call]; eauto.
Qed.
Lemma ends_bind {A} Q (t : prog A) (k : A -> prog R) w :
  ends (fun o w' => match o with Some a => ends Q (k a) w' | None => Q None w' end) t w -> ends Q (ITree.bind t k) w.
Proof.
  intros H. induction H as [t w r E H|t w t1 E H IH|t w h E H|t w X e h E He H IH].
  - eapply ends_observe; [|exact H]. by rewrite observe_bind, E.
  - eapply ends_tau; [|exact IH]. by rewrite observe_bind, E.
  - eapply ends_exit; [|exact H]. by rewrite observe_bind, E.
  - eapply ends_call; [by rewrite observe_bind, E|done|exact IH].
Qed.
Lemma ends_sys {X} Q (e : sysE X) (k : X -> prog R) w : is_exit e = false -> (forall x w', post e w x w' -> ends Q (k x) w') -> ends Q (ITree.bind (call e) k) w.
Proof.
  intros He H. eapply ends_call; [by rewrite observe_bind|done|]. intros x w' Hx. eapply ends_observe; [|exact (H x w' Hx)]. by rewrite observe_bind.
Qed.
Lemma ends_quit Q w : Q None w -> ends Q uexit w.
Proof. intros H. unfold uexit. eapply ends_exit; [by rewrite observe_bind|exact H]. Qed.
End rules.
Lemma ends_iter {A R} (Q : option R -> world -> Prop) (f : A -> prog (A + R)) a w :
  ends (fun o w' => match o with Some (inl a') => ends Q (ITree.iter f a') w' | Some (inr r) => Q (Some r) w' | None => Q None w' end) (f a) w ->
  ends Q (ITree.iter f a) w.
Proof.
  intros H. eapply (ends_observe _ (ITree.bind (f a) (fun lr => match lr with inl l => Tau (ITree.iter f l) | inr r => Ret r end))); [reflexivity|].
  apply ends_bind. eapply ends_mono; [exact H|]. intros [[a'|r]|] w' HQ; [by eapply ends_tau|by apply ends_Ret|done].
Qed.

(** ** Output *)
Lemma printed_nil fd w : printed_to fd [] w = w.
Proof. unfold printed_to. destruct w. unfold update. cbn. by rewrite app_nil_r. Qed.
Lemma printed_app fd l l' w : printed_to fd l' (printed_to fd l w) = printed_to fd (l ++ l') w.
Proof. unfold printed_to. destruct w. unfold update. cbn. by rewrite fmap_app, app_assoc. Qed.

Lemma ends_putcs {R} (Q : option R -> world -> Prop) fd l (k : prog R) : forall w, ends Q k (printed_to fd (u8 <$> l) w) -> ends Q (do* putcs fd l in k) w.
Proof.
  intros w HQ. apply ends_bind. revert w HQ. induction l as [|c l IH]; intros w HQ; cbn [putcs].
  { apply ends_Ret. by rewrite printed_nil in HQ. }
  apply ends_sys; [done|]. intros r w' [_ ->]. apply IH. by rewrite (printed_app fd [u8 c]).
Qed.
Lemma ends_fprintf {R} (Q : option R -> world -> Prop) fd fmt args (k : prog R) w :
  ends Q k (printed_to fd (u8 <$> printf (arg_word args) (arg_str args) fmt) w) -> ends Q (do* fprintf fd fmt args in k) w.
Proof. apply ends_putcs. Qed.

Lemma printf_ss a b : printf (arg_word [PStr a; PStr b]) (arg_str [PStr a; PStr b]) (str "%s%s") = a ++ b.
Proof. change (str "%s%s") with [37; 115; 37; 115]. unfold printf. cbn. by rewrite app_nil_r. Qed.

(** *** [echo] writes its arguments, separated by blanks, and a newline. *)
Fixpoint echo_text (argv : list (list Z)) : list Z :=
  match argv with [] => [] | [a] => a ++ [10] | a :: argv' => a ++ [32] ++ echo_text argv' end.
Lemma echo_correct a argv w : ends (fun o w' => o = None /\ w' = printed_to 1 (u8 <$> echo_text argv) w) (echo_main (a :: argv)) w.
Proof.
  unfold echo_main. cbn [drop]. revert w. induction argv as [|b argv IH]; intros w; cbn [echo_loop].
  { apply ends_quit. by rewrite printed_nil. }
  apply ends_fprintf. eapply ends_mono; [apply IH|]. intros o w' [-> ->]. split; [done|]. rewrite printed_app, <- fmap_app. do 2 f_equal.
  rewrite printf_ss. destruct argv as [|b' argv]; [by rewrite app_nil_r|]. by rewrite <- app_assoc.
Qed.

(** *** [cat] *)
Definition same_files (w w' : world) : Prop := w_files w' = w_files w /\ w_killed w' = w_killed w.
Lemma cat_iter fd : forall n w st u, (length u <= n)%nat -> w_fds w fd = Some (st, u) ->
  ends (fun o w' => o = Some 0 /\ w_out w' = w_out w ++ (pair 1 <$> u) /\ same_files w w') (ITree.iter (cat_step fd) tt) w.
Proof.
  induction n as [|n IH]; intros w st u Hn Hu; apply ends_iter; unfold cat_step at 2; (apply ends_sys; [done|]); intros [r l] w' Hp; cbn in Hp; rewrite Hu in Hp.
  { destruct u; [|cbn in Hn; lia]. destruct Hp as [-> ->]. apply ends_Ret. cbn. by rewrite app_nil_r. }
  destruct u as [|c u]; [destruct Hp as [-> ->]; apply ends_Ret; cbn; by rewrite app_nil_r|].
  destruct Hp as (Hr & _ & u' & E & Hl & ->). replace (0 <? r) with true by lia. apply ends_sys; [done|]. intros r' w' [_ ->]. apply ends_Ret.
  eapply ends_mono; [apply (IH _ st u')|].
  - assert (length (c :: u) = length (l ++ u')) as El by by rewrite E. rewrite length_app in El. cbn in El, Hn. lia.
  - cbn. unfold put. by rewrite Z.eqb_refl.
  - intros o w'' (-> & Eo & S). split; [done|]. split; [|exact S]. rewrite Eo, E, fmap_app, app_assoc. done.
Qed.
Lemma cat_fd fd st u w : w_fds w fd = Some (st, u) ->
  ends (fun o w' => o = Some tt /\ w_out w' = w_out w ++ (pair 1 <$> u) /\ same_files w w') (cat fd) w.
Proof. intros Hu. unfold cat. apply ends_bind. eapply ends_mono; [by eapply cat_iter|]. intros o w' [-> H]. by apply ends_Ret. Qed.

(** What [cat] writes: the files in order, up to the first that cannot be opened. *)
Fixpoint cat_text (files : list Z -> option node) (argv : list (list Z)) : list Z :=
  match argv with
  | [] => []
  | a :: argv' => match files a with Some (_, c) => c ++ cat_text files argv' | None => u8 <$> (str "cat: cannot open " ++ a ++ [10]) end
  end.
Lemma cat_correct a argv w : argv <> [] ->
  ends (fun o w' => o = None /\ w_out w' = w_out w ++ (pair 1 <$> cat_text (w_files w) argv) /\ same_files w w') (cat_main (a :: argv)) w.
Proof.
  intros Hne. unfold cat_main. replace (Z.of_nat (length (a :: argv)) <=? 1) with false by (symmetry; destruct argv as [|b argv]; [done|]; cbn [length]; apply Z.leb_gt; lia). cbn [drop]. clear Hne a.
  revert w. induction argv as [|b argv IH]; intros w; cbn [cat_loop cat_text].
  { apply ends_quit. by rewrite app_nil_r. }
  apply ends_sys; [done|]. intros fd w1 Hp. cbn in Hp. destruct (w_files w b) as [[st c]|] eqn:Eb.
  - destruct Hp as (Hfd & _ & ->). replace (fd <? 0) with false by lia. apply ends_bind.
    eapply ends_mono; [apply (cat_fd fd st c); cbn; unfold put; by rewrite Z.eqb_refl|]. intros o w2 (-> & Eo & Ef & Ek). apply ends_sys; [done|]. intros r w3 [_ ->].
    eapply ends_mono; [apply IH|]. intros o w4 (-> & Eo4 & Ef4 & Ek4). cbn in *. split; [done|]. rewrite Eo4, Eo, Ef, fmap_app, app_assoc. unfold same_files. by rewrite Ef4, Ek4, Ef, Ek.
  - destruct Hp as [-> ->]. apply ends_fprintf, ends_quit. split; [done|]. split; [|done]. cbn [printed_to w_out]. done.
Qed.

(** *** [rm] removes its files, up to the first that does not exist. *)
Fixpoint rm_files (files : list Z -> option node) (argv : list (list Z)) : list Z -> option node :=
  match argv with
  | [] => files
  | a :: argv' => match files a with Some _ => rm_files (put_file a None files) argv' | None => files end
  end.
Lemma rm_correct a argv w : argv <> [] ->
  ends (fun o w' => o = None /\ w_files w' = rm_files (w_files w) argv) (rm_main (a :: argv)) w.
Proof.
  intros Hne. unfold rm_main. replace (Z.of_nat (length (a :: argv)) <? 2) with false by (symmetry; destruct argv as [|b argv]; [done|]; cbn [length]; apply Z.ltb_ge; lia). cbn [drop]. clear Hne a.
  revert w. induction argv as [|b argv IH]; intros w; cbn [rm_loop rm_files].
  { by apply ends_quit. }
  apply ends_sys; [done|]. intros r w1 Hp. cbn in Hp. destruct (w_files w b) as [c|].
  - destruct Hp as [-> ->]. exact (IH (w <| w_files ::= put_file b None |>)).
  - destruct Hp as [-> ->]. apply ends_fprintf, ends_quit. done.
Qed.

(** *** [kill] signals the processes whose numbers it is given, and without arguments none. *)
Lemma kill_correct a argv w : ends (fun o w' => o = None /\ w_killed w' = w_killed w ++ (atoi <$> argv) /\ w_out w' = w_out w) (kill_main (a :: argv)) w.
Proof.
  unfold kill_main. replace (Z.of_nat (length (a :: argv)) <? 1) with false by (symmetry; apply Z.ltb_ge; cbn [length]; lia). cbn [drop].
  revert w. induction argv as [|b argv IH]; intros w; cbn [kill_loop].
  { apply ends_quit. by rewrite app_nil_r. }
  apply ends_sys; [done|]. intros r w1 Hp. cbn in Hp. subst w1. eapply ends_mono; [apply IH|]. intros o w' (-> & Ek & Eo). cbn in *. rewrite Ek, Eo, <- app_assoc. done.
Qed.

(** *** [fmtname] gives the last component of the path, filled up with blanks. *)
Definition no_slash (name : list Z) : Prop := Forall (fun c => c <> 47) name.
Definition padded (name : list Z) : list Z := name ++ replicate (DIRSIZ - length name) 32.
Lemma no_slash_at name j : no_slash name -> name !! j <> Some 47.
Proof. intros Hn E. unfold no_slash in Hn. rewrite Forall_lookup in Hn. by apply (Hn j 47). Qed.
Lemma after_slash_none name p : no_slash name -> after_slash p name = O.
Proof. intros Hn. induction p as [|p IH]; cbn [after_slash]; (rewrite bool_decide_eq_false_2; [done|by apply no_slash_at]). Qed.
Lemma after_slash_dir dir name j : no_slash name -> after_slash (length dir + j) (dir ++ 47 :: name) = S (length dir).
Proof.
  intros Hn. induction j as [|j IH].
  - rewrite Nat.add_0_r. assert (E : (dir ++ 47 :: name) !! length dir = Some 47) by (by apply list_lookup_middle).
    destruct (length dir); cbn [after_slash]; rewrite bool_decide_eq_true_2 by exact E; done.
  - rewrite Nat.add_succ_r. cbn [after_slash]. rewrite bool_decide_eq_false_2; [exact IH|].
    rewrite lookup_app_r by lia. replace (S (length dir + j) - length dir)%nat with (S j) by lia. by apply (no_slash_at name j).
Qed.
Lemma fmtname_padded name : no_slash name -> fmtname name = padded name /\ forall dir, fmtname (dir ++ 47 :: name) = padded name.
Proof.
  intros Hn. assert (P : (if (DIRSIZ <=? length name)%nat then name else name ++ replicate (DIRSIZ - length name) 32) = padded name).
  { unfold padded. destruct (Nat.leb_spec DIRSIZ (length name)); [|done]. replace (DIRSIZ - length name)%nat with O by lia. by rewrite app_nil_r. }
  unfold fmtname. split.
  - rewrite after_slash_none by done. exact P.
  - intros dir. rewrite length_app. cbn [length]. rewrite after_slash_dir by done.
    assert (E : drop (S (length dir)) (dir ++ 47 :: name) = name) by (rewrite drop_app_ge by lia; replace (S (length dir) - length dir)%nat with 1%nat by lia; done). by rewrite E.
Qed.

(** *** [ls] of a directory prints a line for each entry in use. *)
Lemma ends_ustat {R} (Q : option R -> world -> Prop) n st0 w (k : Z * stat -> prog R) fd f :
  w_fds w fd = Some f ->
  (forall w', w_files w' = w_files w -> w_fds w' fd = Some f -> w_out w' = w_out w ->
    match w_files w n with Some (st, _) => ends Q (k (0, st)) w' | None => ends Q (k (-1, st0)) w' end) ->
  ends Q (let* r := ustat n st0 in k r) w.
Proof.
  intros Hf HQ. apply ends_bind. unfold ustat. apply ends_sys; [done|]. intros r w1 Hp. cbn in Hp. destruct (w_files w n) as [[st c]|] eqn:En.
  - destruct Hp as (Hr & Hnone & ->). replace (r <? 0) with false by lia. apply ends_sys; [done|]. intros [r2 st2] w2 Hp2. cbn in Hp2.
    unfold put in Hp2 at 2. rewrite Z.eqb_refl in Hp2. destruct Hp2 as (-> & -> & ->). apply ends_sys; [done|]. intros r3 w3 [_ ->]. apply ends_Ret. apply HQ; [done| |done].
    cbn. unfold put. destruct (Z.eqb_spec fd r) as [->|]; [congruence|done].
  - destruct Hp as [-> ->]. apply ends_Ret. by apply HQ.
Qed.

Definition ls_entry (files : list Z -> option node) (path r : list Z) : list Z :=
  let de := dirent_get r 0 in
  if de_inum de =? 0 then []
  else
    let buf := path ++ [47] ++ cstr (de_name de) in
    match files buf with
    | Some (st, _) => u8 <$> (fmtname buf ++ [32] ++ uprintint (st_type st) 10 true ++ [32] ++ uprintint (st_ino st) 10 true ++ [32] ++ uprintint (st_size st) 10 true ++ [10])
    | None => u8 <$> (str "ls: cannot stat " ++ buf ++ [10])
    end.
Lemma printf_line name x y z :
  printf (arg_word [PStr name; PInt x; PInt y; PInt z]) (arg_str [PStr name; PInt x; PInt y; PInt z]) (str "%s %d %d %d
") = name ++ [32] ++ uprintint x 10 true ++ [32] ++ uprintint y 10 true ++ [32] ++ uprintint z 10 true ++ [10].
Proof.
  set (fmt := str _). assert (E : fmt = [37; 115; 32; 37; 100; 32; 37; 100; 32; 37; 100; 10]) by reflexivity. rewrite E.
  unfold printf. cbn -[uprintint]. reflexivity.
Qed.
Lemma printf_nostat buf : printf (arg_word [PStr buf]) (arg_str [PStr buf]) (str "ls: cannot stat %s
") = str "ls: cannot stat " ++ buf ++ [10].
Proof. reflexivity. Qed.

Lemma ls_iter fd path d : st_type d <> T_DEV -> forall ents w st, Forall (fun r => length r = 16%nat) ents -> w_fds w fd = Some (d, concat ents) ->
  ends (fun o w' => o = Some tt /\ w_out w' = w_out w ++ (pair 1 <$> concat (ls_entry (w_files w) path <$> ents)) /\ w_files w' = w_files w)
    (ITree.iter (ls_step fd path) st) w.
Proof.
  intros Hd. induction ents as [|r ents IH]; intros w st HF Hu; apply ends_iter; unfold ls_step at 2; (apply ends_sys; [done|]); intros [n l] w' Hp; cbn in Hp; rewrite Hu in Hp.
  { destruct Hp as [-> ->]. apply ends_Ret. cbn. by rewrite app_nil_r. }
  apply Forall_cons in HF as [Hr HF]. cbn [concat] in Hp. destruct (r ++ concat ents) as [|c u] eqn:Eu; [destruct r; done|].
  destruct Hp as (Hn & Hmin & u' & E & Hl & ->). rewrite <- Eu in *. specialize (Hmin Hd). rewrite length_app, Hr in Hmin. replace n with 16 in * by lia.
  apply app_inj_1 in E as [<- <-]; [|lia]. cbn [negb Z.eqb Pos.eqb].
  assert (Hfd : forall w2, w_files w2 = w_files w -> w_fds w2 fd = Some (d, concat ents) -> forall x, w_out w2 = w_out w ++ (pair 1 <$> ls_entry (w_files w) path r) ->
    ends (fun o w' => o = Some tt /\ w_out w' = w_out w ++ (pair 1 <$> concat (ls_entry (w_files w) path <$> (r :: ents))) /\ w_files w' = w_files w)
      (ITree.iter (ls_step fd path) x) w2).
  { intros w2 Ef Hu2 x Eo. eapply ends_mono; [by apply IH|]. intros o w3 (-> & Eo3 & Ef3). split; [done|]. split; [|congruence].
    rewrite Eo3, Eo, Ef. cbn [fmap list_fmap concat]. by rewrite fmap_app, app_assoc. }
  assert (Hput : w_fds (w <| w_fds ::= put fd (Some (d, concat ents)) |>) fd = Some (d, concat ents)) by (cbn; unfold put; by rewrite Z.eqb_refl).
  destruct (de_inum (dirent_get r 0) =? 0) eqn:Ei; [apply ends_Ret; apply Hfd; [done|exact Hput|unfold ls_entry; rewrite Ei; by rewrite app_nil_r]|].
  eapply ends_ustat; [exact Hput|]. intros w3 Ef3 Hu3 Eo3. change (w_files (w <| w_fds ::= put fd (Some (d, concat ents)) |>)) with (w_files w) in *.
  change (w_out (w <| w_fds ::= put fd (Some (d, concat ents)) |>)) with (w_out w) in Eo3.
  destruct (w_files w (path ++ [47] ++ cstr (de_name (dirent_get r 0)))) as [[st' c']|] eqn:En; cbn [Z.ltb Z.compare].
  - unfold ls_line. apply ends_fprintf. rewrite printf_line. apply ends_Ret. refine (Hfd (printed_to 1 _ w3) Ef3 Hu3 _ _). unfold ls_entry. rewrite Ei, En. rewrite <- Eo3. reflexivity.
  - apply ends_fprintf. rewrite printf_nostat. apply ends_Ret. refine (Hfd (printed_to 1 _ w3) Ef3 Hu3 _ _). unfold ls_entry. rewrite Ei, En. rewrite <- Eo3. reflexivity.
Qed.

Lemma ls_directory path d ents w : w_files w path = Some (d, concat ents) -> st_type d = T_DIR -> (length path <= 496)%nat ->
  Forall (fun r => length r = 16%nat) ents ->
  ends (fun o w' => o = Some tt /\ w_out w' = w_out w ++ (pair 1 <$> concat (ls_entry (w_files w) path <$> ents)) /\ w_files w' = w_files w) (ls path) w.
Proof.
  intros Hp Hd Hl HF. unfold ls. apply ends_sys; [done|]. intros fd w1 Hw. cbn in Hw. rewrite Hp in Hw. destruct Hw as (Hfd & _ & ->).
  replace (fd <? 0) with false by lia. apply ends_sys; [done|]. intros [r st] w2 Hw. cbn in Hw. unfold put in Hw at 2. rewrite Z.eqb_refl in Hw. destruct Hw as (-> & -> & ->).
  rewrite Hd. cbn [Z.ltb Z.compare]. change (T_DIR =? T_FILE) with false. change (T_DIR =? T_DIR) with true. cbv iota.
  assert (512 <? Z.of_nat (length path) + 1 + Z.of_nat DIRSIZ + 1 = false) as -> by (apply Z.ltb_ge; unfold DIRSIZ; lia).
  apply ends_bind. eapply ends_mono; [apply (ls_iter fd path d); [by rewrite Hd|exact HF|cbn; unfold put; by rewrite Z.eqb_refl]|].
  intros o w3 (-> & Eo & Ef). apply ends_sys; [done|]. intros r w4 [_ ->]. apply ends_Ret. done.
Qed.
