(* ===== verification/Bootmain.v ===== *)
(** The boot loader [kernel/bootmain.c]: it reads the kernel from the disk into memory. *)
From S2P Require Import Prelude Mem.

Definition SECTSIZE : Z := 512.
Definition ELFMAGIC : Z := 0x464C457F.

Section bootmain.
(** The bytes of the sectors of the disk. *)
Context (disk : Z -> Z -> Z).

(** ** Code *)

(** The sector that the values written to the ports 0x1F3 to 0x1F6 select. *)
Definition lba_ports (offset : Z) : Z :=
  let p3 := u8 offset in
  let p4 := u8 (Z.shiftr offset 8) in
  let p5 := u8 (Z.shiftr offset 16) in
  let p6 := u8 (Z.lor (Z.shiftr offset 24) 0xE0) in
  p3 + 2 ^ 8 * p4 + 2 ^ 16 * p5 + 2 ^ 24 * (p6 mod 16).

(** [insl] stores the 512 bytes of the sector. *)
Definition readsect (m : Z -> Z) (dst offset : Z) : Z -> Z :=
  fun x => if (dst <=? x) && (x <? dst + SECTSIZE) then u8 (disk (lba_ports offset) (x - dst)) else m x.

Fixpoint readseg_loop (fuel : nat) (m : Z -> Z) (va eva offset : Z) : option (Z -> Z) :=
  match fuel with
  | O => None
  | S fuel' =>
      if va <? eva then readseg_loop fuel' (readsect m va offset) (u32 (va + SECTSIZE)) eva (u32 (offset + 1))
      else Some m
  end.

(** The loop reads a sector for every 512 bytes. *)
Definition readseg (m : Z -> Z) (va count offset : Z) : option (Z -> Z) :=
  let eva := u32 (va + count) in
  let va := u32 (va - offset mod SECTSIZE) in
  let offset := offset / SECTSIZE + 1 in
  readseg_loop (Z.to_nat (count / SECTSIZE) + 3) m va eva offset.

(** The loop over the program headers, [n] of them from [ph] on *)
Fixpoint load_loop (n : nat) (m : Z -> Z) (ph : Z) : option (Z -> Z) :=
  match n with
  | O => Some m
  | S n' =>
      let va := ld32 m (ph + 8) in
      match readseg m va (ld32 m (ph + 16)) (ld32 m (ph + 4)) with
      | None => None
      | Some m =>
          let filesz := ld32 m (ph + 16) in
          let memsz := ld32 m (ph + 20) in
          let m := if filesz <? memsz then memset m (va + filesz) 0 (memsz - filesz) else m in
          load_loop n' m (ph + 32)
      end
  end.

Inductive boot_result := Entry (m : Z -> Z) (entry : Z) | NotElf | Unfinished.

Definition bootmain (m : Z -> Z) : boot_result :=
  let elf := 0x10000 in
  match readseg m elf 4096 0 with
  | None => Unfinished
  | Some m =>
      if negb (ld32 m elf =? ELFMAGIC) then NotElf
      else
        let phnum := ld8 m (elf + 44) + 2 ^ 8 * ld8 m (elf + 45) in
        match load_loop (Z.to_nat phnum) m (u32 (elf + ld32 m (elf + 28))) with
        | None => Unfinished
        | Some m => Entry m (ld32 m (elf + 24))
        end
  end.

(** ** The kernel file *)

(** The byte of the file at an offset; the file starts at sector 1. *)
Definition img (o : Z) : Z := u8 (disk (o / SECTSIZE + 1) (o mod SECTSIZE)).

Lemma lba_ports_ok offset : 0 <= offset < 2 ^ 28 -> lba_ports offset = offset.
Proof.
  intros H. unfold lba_ports. rewrite !Z.shiftr_div_pow2 by lia.
  assert (E : u8 (Z.lor (offset / 2 ^ 24) 0xE0) mod 16 = offset / 2 ^ 24).
  { assert (Hd : 0 <= offset / 2 ^ 24 < 16) by (split; [apply Z.div_pos; lia|apply Z.div_lt_upper_bound; lia]).
    revert Hd. generalize (offset / 2 ^ 24). intros k Hk.
    assert (k = 0 \/ k = 1 \/ k = 2 \/ k = 3 \/ k = 4 \/ k = 5 \/ k = 6 \/ k = 7 \/ k = 8 \/ k = 9 \/ k = 10 \/ k = 11 \/ k = 12 \/ k = 13 \/ k = 14 \/ k = 15) as C by lia.
    repeat (destruct C as [->|C]; [reflexivity|]). subst k. reflexivity. }
  rewrite E. rewrite !u8_eq. change (2 ^ 8) with 256. change (2 ^ 16) with 65536. change (2 ^ 24) with 16777216. Z.div_mod_to_equations. lia.
Qed.

Lemma readsect_in m dst k x : dst <= x < dst + 512 -> 1 <= k < 2 ^ 28 -> readsect m dst k x = img ((k - 1) * 512 + (x - dst)).
Proof.
  intros Hx Hk. unfold readsect, img, SECTSIZE. rewrite lba_ports_ok by lia. replace ((dst <=? x) && (x <? dst + 512)) with true by lia.
  do 2 f_equal; Z.div_mod_to_equations; lia.
Qed.
Lemma readsect_out m dst k x : x < dst \/ dst + 512 <= x -> readsect m dst k x = m x.
Proof. intros Hx. unfold readsect, SECTSIZE. by replace ((dst <=? x) && (x <? dst + 512)) with false by lia. Qed.

Lemma readseg_loop_ok fuel : forall m va eva k, 0 <= va -> eva + 512 <= 2 ^ 32 -> eva - va <= 512 * (Z.of_nat fuel - 1) -> (0 < fuel)%nat ->
  1 <= k -> k + Z.of_nat fuel <= 2 ^ 28 ->
  exists m', readseg_loop fuel m va eva k = Some m' /\ (forall x, va <= x < eva -> m' x = img ((k - 1) * 512 + (x - va))) /\
    forall x, x < va \/ eva + 512 <= x -> m' x = m x.
Proof.
  induction fuel as [|fuel IH]; intros m va eva k H1 H2 H3 Hf H4 H5; [lia|]. cbn [readseg_loop]. unfold SECTSIZE. destruct (Z.ltb_spec va eva) as [Hlt|Hge].
  - rewrite (u32_small (va + 512)), (u32_small (k + 1)) by lia.
    destruct (IH (readsect m va k) (va + 512) eva (k + 1)) as (m' & -> & I1 & I2); [lia..|]. exists m'. split_and!; [done| |].
    + intros x Hx. destruct (Z.lt_ge_cases x (va + 512)); [|rewrite I1 by lia; f_equal; lia]. rewrite I2 by lia. rewrite readsect_in by lia. done.
    + intros x Hx. rewrite I2 by lia. apply readsect_out. lia.
  - exists m. split_and!; [done|lia|done].
Qed.

Lemma readseg_ok m va count o : 0 <= o mod 512 <= va -> 0 <= count -> va + count + 512 <= 2 ^ 32 -> 0 <= o -> o + count < 2 ^ 36 ->
  exists m', readseg m va count o = Some m' /\ (forall x, va - o mod 512 <= x < va + count -> m' x = img (o + (x - va))) /\
    forall x, x < va - o mod 512 \/ va + count + 512 <= x -> m' x = m x.
Proof.
  intros H1 H2 H3 H4 H5. unfold readseg, SECTSIZE. rewrite !u32_small by lia.
  pose proof (Z.mod_pos_bound o 512 ltac:(lia)). pose proof (Z.div_mod o 512 ltac:(lia)). pose proof (Z.div_mod count 512 ltac:(lia)). pose proof (Z.mod_pos_bound count 512 ltac:(lia)).
  assert (0 <= count / 512 <= 2 ^ 23 /\ 0 <= o / 512 < 2 ^ 27).
  { split; split; try (apply Z.div_pos; lia); [apply Z.div_le_upper_bound; lia|apply Z.div_lt_upper_bound; lia]. }
  destruct (readseg_loop_ok (Z.to_nat (count / 512) + 3) m (va - o mod 512) (va + count) (o / 512 + 1)) as (m' & -> & I1 & I2); [lia..|].
  exists m'. split_and!; [done| |done]. intros x Hx. rewrite I1 by lia. f_equal. lia.
Qed.

(** ** The segments *)
Definition img32 (o : Z) : Z := img o + 2 ^ 8 * img (o + 1) + 2 ^ 16 * img (o + 2) + 2 ^ 24 * img (o + 3).

(** A program header of the file, at an offset *)
Record segment := mkSeg { sg_offset : Z; sg_va : Z; sg_filesz : Z; sg_memsz : Z }.
Definition segment_at (ph : Z) : segment := mkSeg (img32 (ph + 4)) (img32 (ph + 8)) (img32 (ph + 16)) (img32 (ph + 20)).

(** Where reading a segment starts to write. *)
Definition sg_start (g : segment) : Z := sg_va g - sg_offset g mod 512.

(** The segments lie above the header page, and each starts after the end of the ones before. *)
Fixpoint segs_ok (gs : list segment) (low : Z) : Prop :=
  match gs with
  | [] => True
  | g :: gs' => low <= sg_start g /\ sg_filesz g <= sg_memsz g /\ sg_va g + sg_memsz g + 512 <= 2 ^ 32 /\
      sg_offset g + sg_filesz g < 2 ^ 36 /\ segs_ok gs' (sg_va g + sg_memsz g)
  end.

(** A segment is in memory: the bytes of the file, and zeros after them. *)
Definition loaded (m : Z -> Z) (g : segment) : Prop :=
  (forall x, sg_va g <= x < sg_va g + sg_filesz g -> m x = img (sg_offset g + (x - sg_va g))) /\
  forall x, sg_va g + sg_filesz g <= x < sg_va g + sg_memsz g -> m x = 0.

(** The program headers are in the page at 0x10000. *)
Definition header_in (m : Z -> Z) : Prop := forall x, 0x10000 <= x < 0x11000 -> m x = img (x - 0x10000).

Lemma img_range o : 0 <= img o < 256.
Proof. apply u8_range. Qed.
Lemma img32_range o : 0 <= img32 o < 2 ^ 32.
Proof. unfold img32. pose proof (img_range o). pose proof (img_range (o + 1)). pose proof (img_range (o + 2)). pose proof (img_range (o + 3)). lia. Qed.
Lemma header_ld32 m o : header_in m -> 0 <= o <= 4092 -> ld32 m (0x10000 + o) = img32 o.
Proof.
  intros H Ho. unfold ld32, img32, ld8. rewrite !H by lia. rewrite !u8_small by apply img_range. do 3 f_equal; do 2 f_equal; lia.
Qed.

Lemma load_loop_ok n : forall m o low, header_in m -> 0 <= o -> o + 32 * Z.of_nat n <= 4096 -> 0x11000 <= low ->
  segs_ok (map (fun i => segment_at (o + 32 * Z.of_nat i)) (seq 0 n)) low ->
  exists m', load_loop n m (0x10000 + o) = Some m' /\ header_in m' /\
    Forall (loaded m') (map (fun i => segment_at (o + 32 * Z.of_nat i)) (seq 0 n)) /\ forall x, x < low -> m' x = m x.
Proof.
  induction n as [|n IH]; intros m o low Hh Ho Hn Hl Hs; cbn [load_loop].
  - exists m. split_and!; [done|done|constructor|done].
  - cbn [seq map] in *. rewrite Z.mul_0_r, Z.add_0_r in *. rewrite <- seq_shift, map_map in *.
    assert (Em : map (fun x => segment_at (o + 32 * Z.of_nat (S x))) (seq 0 n) = map (fun i => segment_at (o + 32 + 32 * Z.of_nat i)) (seq 0 n)).
    { apply map_ext. intros i. f_equal. lia. }
    rewrite Em in *. destruct Hs as (S1 & S2 & S3 & S4 & S5). set (g := segment_at o) in *.
    rewrite <- !Z.add_assoc, !header_ld32 by (done || lia).
    change (img32 (o + 8)) with (sg_va g) in *. change (img32 (o + 16)) with (sg_filesz g) in *. change (img32 (o + 20)) with (sg_memsz g) in *. change (img32 (o + 4)) with (sg_offset g) in *.
    pose proof (img32_range (o + 4)) as R1. pose proof (img32_range (o + 16)) as R2. pose proof (Z.mod_pos_bound (sg_offset g) 512 ltac:(lia)) as R3.
    change (img32 (o + 16)) with (sg_filesz g) in R2. change (img32 (o + 4)) with (sg_offset g) in R1. unfold sg_start in S1.
    destruct (readseg_ok m (sg_va g) (sg_filesz g) (sg_offset g)) as (m1 & -> & I1 & I2); [lia..|].
    assert (Hh1 : header_in m1) by (intros x Hx; rewrite I2 by lia; by apply Hh). rewrite !header_ld32 by (done || lia).
    change (img32 (o + 16)) with (sg_filesz g). change (img32 (o + 20)) with (sg_memsz g).
    set (m2 := if sg_filesz g <? sg_memsz g then _ else m1).
    assert (M1 : forall x, sg_va g <= x < sg_va g + sg_filesz g -> m2 x = img (sg_offset g + (x - sg_va g))).
    { intros x Hx. unfold m2, memset. rewrite <- I1 by lia. destruct (Z.ltb_spec (sg_filesz g) (sg_memsz g)); [|done].
      by replace (sg_va g + sg_filesz g <=? x) with false by lia. }
    assert (M2 : forall x, sg_va g + sg_filesz g <= x < sg_va g + sg_memsz g -> m2 x = 0).
    { intros x Hx. unfold m2, memset. replace (sg_filesz g <? sg_memsz g) with true by lia.
      by replace ((sg_va g + sg_filesz g <=? x) && (x <? sg_va g + sg_filesz g + (sg_memsz g - sg_filesz g))) with true by lia. }
    assert (M3 : forall x, x < sg_va g - sg_offset g mod 512 -> m2 x = m x).
    { intros x Hx. unfold m2, memset. rewrite <- (I2 x) by lia. destruct (Z.ltb_spec (sg_filesz g) (sg_memsz g)); [|done].
      by replace (sg_va g + sg_filesz g <=? x) with false by lia. }
    destruct (IH m2 (o + 32) (sg_va g + sg_memsz g)) as (m' & E & J1 & J2 & J3); [|lia|lia|lia|done|].
    { intros x Hx. rewrite M3 by lia. by apply Hh. }
    exists m'. split_and!; [done|done| |intros x Hx; rewrite J3, M3 by lia; done].
    constructor; [|done]. split; intros x Hx; rewrite J3 by lia; [by apply M1|by apply M2].
Qed.

(** The kernel file is an ELF file with its program headers in the first page, and segments
    that can be loaded in order. *)
Definition phnum : Z := img 44 + 2 ^ 8 * img 45.
Definition segments : list segment := map (fun i => segment_at (img32 28 + 32 * Z.of_nat i)) (seq 0 (Z.to_nat phnum)).
Record kernel_file_ok : Prop := {
  kf_magic : img32 0 = ELFMAGIC;
  kf_headers : img32 28 + 32 * phnum <= 4096;
  kf_segments : segs_ok segments 0x11000 }.
End bootmain.

(** C37. The loader terminates and enters the kernel at its entry point, with every
    segment of the kernel file in memory: the bytes of the file at its address, although whole
    sectors are read before and after them, and zeros in the rest. *)
Theorem bootmain_correct disk m : kernel_file_ok disk ->
  exists m', bootmain disk m = Entry m' (img32 disk 24) /\ Forall (loaded disk m') (segments disk).
Proof.
  intros [K1 K2 K3]. unfold bootmain. destruct (readseg_ok disk m 0x10000 4096 0) as (m1 & -> & I1 & _); [done..|].
  assert (Hh : header_in disk m1) by (intros x Hx; rewrite I1 by (change (0 mod 512) with 0; lia); f_equal; lia).
  change (ld32 m1 65536) with (ld32 m1 (0x10000 + 0)). rewrite !(header_ld32 disk) by (done || lia). rewrite K1. change (negb (ELFMAGIC =? ELFMAGIC)) with false. cbv iota.
  assert (En : ld8 m1 (65536 + 44) + 2 ^ 8 * ld8 m1 (65536 + 45) = phnum disk).
  { unfold ld8, phnum. rewrite !Hh by lia. by rewrite !u8_small by apply img_range. }
  rewrite En. pose proof (img32_range disk 28). pose proof (img_range disk 44). pose proof (img_range disk 45). rewrite u32_small by (unfold phnum in *; lia).
  destruct (load_loop_ok disk (Z.to_nat (phnum disk)) m1 (img32 disk 28) 0x11000 Hh) as (m' & -> & J1 & J2 & _); [lia|unfold phnum in *; lia|lia|done|].
  exists m'. split; [|done]. by rewrite (header_ld32 disk) by (done || lia).
Qed.

(** *** Witness: a file with one segment of 8 bytes, loaded at 1 MB with 8 zeros after it *)
Definition file1 : list Z :=
  [0x7F; 0x45; 0x4C; 0x46] ++ replicate 20 0 ++ [0x0C; 0; 0x10; 0] ++ [52; 0; 0; 0] ++ replicate 12 0 ++ [1; 0] ++ replicate 6 0 ++
  [1; 0; 0; 0] ++ [84; 0; 0; 0] ++ [0x54; 0; 0x10; 0] ++ replicate 4 0 ++ [8; 0; 0; 0] ++ [16; 0; 0; 0] ++ replicate 8 0 ++ [1; 2; 3; 4; 5; 6; 7; 8].
Definition disk1 (k i : Z) : Z := if k =? 1 then nth (Z.to_nat i) file1 0 else 0.

Lemma bootmain_correct_witness : kernel_file_ok disk1 /\ exists m', bootmain disk1 (fun _ => 0) = Entry m' 0x10000C /\ m' 0x10005B = 8.
Proof.
  assert (H : kernel_file_ok disk1) by (constructor; vm_compute; done || (repeat split; discriminate)).
  split; [exact H|]. destruct (bootmain_correct disk1 (fun _ => 0) H) as (m' & E & L). exists m'. split; [exact E|].
  apply Forall_cons in L as [[L _] _]. refine (eq_trans (L 0x10005B _) _); vm_compute; [split; [discriminate|reflexivity]|reflexivity].
Defined.
