(* ===== verification/Mp.v ===== *)
(** [kernel/mp.c]: the processors of the machine, from the tables of the BIOS.

    The bootstrap code finds the floating pointer by its signature and checksum, follows it to
    the configuration table, and goes through the entries of the table. *)
From S2P Require Import Prelude Types Mem.

(** ** Code *)
Section mp.
Context (m : Z -> Z).

(** [sum(addr, len)]: of bytes, as a byte *)
Fixpoint sum (addr : Z) (len : nat) : Z :=
  match len with
  | O => 0
  | S len' => u8 (ld8 m addr + sum (addr + 1) len')
  end.

Definition SIZEOF_MP : Z := 16.
(** [memcmp(p, s, 4) == 0], for the four bytes of [s] *)
Definition signature (p : Z) (s : list Z) : bool := bool_decide (map (fun i => ld8 m (p + Z.of_nat i)) (seq 0 4) = s).
(** The characters [_MP_] and [PCMP] *)
Definition MP_SIG : list Z := [95; 77; 80; 95].
Definition PCMP_SIG : list Z := [80; 67; 77; 80].

(** The loop of [mpsearch1]; a null pointer is 0. *)
Fixpoint mpsearch1_loop (fuel : nat) (p e : Z) : Z :=
  match fuel with
  | O => 0
  | S fuel' =>
      if p <? e then
        if signature p MP_SIG && (sum p 16 =? 0) then p else mpsearch1_loop fuel' (p + SIZEOF_MP) e
      else 0
  end.
Definition mpsearch1 (addr len : Z) : Z := mpsearch1_loop (S (Z.to_nat len)) addr (addr + len).

Definition mpsearch : Z :=
  let bda := 0x400 in
  let p := Z.shiftl (Z.lor (Z.shiftl (ld8 m (bda + 0x0F)) 8) (ld8 m (bda + 0x0E))) 4 in
  let mp :=
    if negb (p =? 0) then mpsearch1 p 1024
    else
      let p := Z.lor (Z.shiftl (ld8 m (bda + 0x14)) 8) (ld8 m (bda + 0x13)) * 1024 in
      mpsearch1 (u32 (p - 1024)) 1024 in
  if negb (mp =? 0) then mp else mpsearch1 0xF0000 0x10000.

Definition ld16 (a : Z) : Z := ld8 m a + 2 ^ 8 * ld8 m (a + 1).

(** The two structures, or [None]. *)
Definition mpconfig : option (Z * Z) :=
  let mp := mpsearch in
  if (mp =? 0) || (ld32 m (mp + 4) =? 0) then None
  else
    let conf := ld32 m (mp + 4) in
    if negb (signature conf PCMP_SIG) then None
    else if negb (ld8 m (conf + 6) =? 1) && negb (ld8 m (conf + 6) =? 4) then None
    else if negb (sum conf (Z.to_nat (ld16 (conf + 4))) =? 0) then None
    else Some (mp, conf).

Definition MPPROC : Z := 0.
Definition MPBUS : Z := 1.
Definition MPIOAPIC : Z := 2.
Definition MPIOINTR : Z := 3.
Definition MPLINTR : Z := 4.
Definition MPBOOT : Z := 2.

(** The variables: [cpus] are the identifiers stored in the array, by index. *)
Record mpstate := mkMp { bcpu : Z; ismp : Z; ncpu : Z; ioapicid : Z; lapic : Z; cpus : list (Z * Z) }.

(** The outcome of a run: a result, no end within the fuel, or a store past the end of [cpus[NCPU]], after
    which anything may happen. *)
Inductive mpres (A : Type) : Type := MpOk (a : A) | MpLoops | MpOverrun.
#[global] Arguments MpOk {A} a.
#[global] Arguments MpLoops {A}.
#[global] Arguments MpOverrun {A}.

(** The loop of [mpinit]. *)
Fixpoint mpinit_loop (fuel : nat) (p e : Z) (s : mpstate) : mpres mpstate :=
  match fuel with
  | O => MpLoops
  | S fuel' =>
      if p <? e then
        let t := ld8 m p in
        if t =? MPPROC then
          let apicid := ld8 m (p + 1) in
          let ismp' := if negb (ncpu s =? apicid) then 0 else ismp s in
          let bcpu' := if negb (Z.land (ld8 m (p + 3)) MPBOOT =? 0) then ncpu s else bcpu s in
          if Z.of_nat NCPU <=? ncpu s then MpOverrun
          else mpinit_loop fuel' (p + 20) e (mkMp bcpu' ismp' (ncpu s + 1) (ioapicid s) (lapic s) (cpus s ++ [(ncpu s, ncpu s)]))
        else if t =? MPIOAPIC then
          mpinit_loop fuel' (p + 8) e (mkMp (bcpu s) (ismp s) (ncpu s) (ld8 m (p + 1)) (lapic s) (cpus s))
        else if (t =? MPBUS) || (t =? MPIOINTR) || (t =? MPLINTR) then mpinit_loop fuel' (p + 8) e s
        else mpinit_loop fuel' p e (mkMp (bcpu s) 0 (ncpu s) (ioapicid s) (lapic s) (cpus s))
      else MpOk s
  end.

(** The state at the end, and whether the interrupt mode register is written. *)
Definition mpinit (fuel : nat) (s : mpstate) : mpres (mpstate * bool) :=
  let s := mkMp 0 (ismp s) (ncpu s) (ioapicid s) (lapic s) (cpus s) in
  match mpconfig with
  | None => MpOk (s, false)
  | Some (mp, conf) =>
      let s := mkMp (bcpu s) 1 (ncpu s) (ioapicid s) (ld32 m (conf + 36)) (cpus s) in
      match mpinit_loop fuel (conf + 44) (conf + ld16 (conf + 4)) s with
      | MpLoops => MpLoops
      | MpOverrun => MpOverrun
      | MpOk s =>
          if ismp s =? 0 then MpOk (mkMp (bcpu s) (ismp s) 1 0 0 (cpus s), false)
          else MpOk (s, negb (ld8 m (mp + 12) =? 0))
      end
  end.

(** ** Tables *)
Inductive entry := EProc (apicid flags : Z) | EIoapic (apicno : Z) | EOther (type : Z).

Definition entry_size (en : entry) : Z := match en with EProc _ _ => 20 | _ => 8 end.
Definition entry_at (p : Z) (en : entry) : Prop :=
  match en with
  | EProc apicid flags => ld8 m p = MPPROC /\ ld8 m (p + 1) = apicid /\ ld8 m (p + 3) = flags
  | EIoapic apicno => ld8 m p = MPIOAPIC /\ ld8 m (p + 1) = apicno
  | EOther type => ld8 m p = type /\ (type = MPBUS \/ type = MPIOINTR \/ type = MPLINTR)
  end.
Fixpoint entries_at (p : Z) (es : list entry) (e : Z) : Prop :=
  match es with
  | [] => p = e
  | en :: es' => entry_at p en /\ entries_at (p + entry_size en) es' e
  end.
Definition entries_size (es : list entry) : Z := foldr (fun en n => entry_size en + n) 0 es.

(** What the entries say: the local APIC identifiers of the processors in order, the index of
    the last one flagged for bootstrap, and the last I/O APIC. *)
Definition procs (es : list entry) : list (Z * Z) := omap (fun en => match en with EProc a f => Some (a, f) | _ => None end) es.
Definition boot_index (ps : list (Z * Z)) (k b : Z) : Z :=
  (foldl (fun '(k, b) p => (k + 1, if negb (Z.land p.2 MPBOOT =? 0) then k else b)) (k, b) ps).2.
Definition last_ioapic (es : list entry) (i : Z) : Z := foldl (fun i en => match en with EIoapic a => a | _ => i end) i es.
Definition in_order (ps : list (Z * Z)) (k : Z) : bool := bool_decide (map fst ps = seqZ k (Z.of_nat (length ps))).

Definition table_state (es : list entry) (s : mpstate) : mpstate :=
  let n := Z.of_nat (length (procs es)) in
  mkMp (boot_index (procs es) (ncpu s) (bcpu s)) (if in_order (procs es) (ncpu s) then ismp s else 0) (ncpu s + n)
    (last_ioapic es (ioapicid s)) (lapic s) (cpus s ++ map (fun i => (i, i)) (seqZ (ncpu s) n)).

Lemma entries_end es : forall p e, entries_at p es e -> p <= e /\ (es <> [] -> p < e).
Proof.
  induction es as [|en es IH]; intros p e; cbn [entries_at]; [intros ->; split; [lia|done]|]. intros [_ H]. destruct (IH _ _ H) as [H1 _].
  assert (0 < entry_size en) by by destruct en. split; [lia|intros _; lia].
Qed.
Lemma seqZ_S k n : seqZ k (Z.of_nat (S n)) = k :: seqZ (k + 1) (Z.of_nat n).
Proof. rewrite seqZ_cons by lia. do 2 f_equal; lia. Qed.

(** One processor entry. *)
Definition add_proc (a f : Z) (s : mpstate) : mpstate :=
  mkMp (if negb (Z.land f MPBOOT =? 0) then ncpu s else bcpu s) (if negb (ncpu s =? a) then 0 else ismp s) (ncpu s + 1)
    (ioapicid s) (lapic s) (cpus s ++ [(ncpu s, ncpu s)]).
Lemma table_state_proc a f es s : table_state (EProc a f :: es) s = table_state es (add_proc a f s).
Proof.
  unfold table_state, add_proc. change (procs (EProc a f :: es)) with ((a, f) :: procs es). cbn [length last_ioapic foldl ncpu bcpu ismp ioapicid lapic cpus].
  f_equal.
  - unfold in_order. cbn [map length fst]. rewrite seqZ_S. destruct (Z.eqb_spec (ncpu s) a) as [->|Hne]; cbn [negb].
    + case_bool_decide as H1; case_bool_decide as H2; try done; [by injection H1|by rewrite H2 in H1].
    + rewrite bool_decide_eq_false_2 by (intros [=]; done). by case_bool_decide.
  - lia.
  - rewrite seqZ_S. cbn [map]. by rewrite <- app_assoc.
Qed.

(** The types of the entries that only are skipped. *)
Lemma other_type t : t = MPBUS \/ t = MPIOINTR \/ t = MPLINTR ->
  (t =? MPPROC) = false /\ (t =? MPIOAPIC) = false /\ (t =? MPBUS) || (t =? MPIOINTR) || (t =? MPLINTR) = true.
Proof. intros [->|[->| ->]]; done. Qed.

(** The entries are followed up to [q], when the array has room for their processors. *)
Lemma mpinit_loop_entries es : forall fuel p e q s, entries_at p es q -> q <= e -> (length es < fuel)%nat ->
  ncpu s + Z.of_nat (length (procs es)) <= Z.of_nat NCPU ->
  mpinit_loop fuel p e s = mpinit_loop (fuel - length es) q e (table_state es s).
Proof.
  induction es as [|en es IH]; intros fuel p e q s He Hq Hf Hn; (destruct fuel as [|fuel]; [cbn in Hf; lia|]).
  - cbn in He. subst q. rewrite Nat.sub_0_r. f_equal. unfold table_state. cbn. rewrite app_nil_r, Z.add_0_r. by destruct s.
  - destruct (entries_end _ _ _ He) as [_ Hlt]. specialize (Hlt ltac:(done)). cbn [mpinit_loop length Nat.sub].
    replace (p <? e) with true by lia. destruct He as [Hen He]. cbn [length] in Hf.
    destruct en as [a f|a|t]; cbn [entry_at entry_size] in *.
    + destruct Hen as (-> & -> & ->). rewrite table_state_proc. change (procs (EProc a f :: es)) with ((a, f) :: procs es) in Hn. cbn [length] in Hn.
      destruct (Z.leb_spec (Z.of_nat NCPU) (ncpu s)); [lia|]. apply IH; [done|done|lia|unfold add_proc; cbn [ncpu]; lia].
    + destruct Hen as (-> & ->). change (procs (EIoapic a :: es)) with (procs es) in Hn. by rewrite (IH fuel (p + 8) e q) by (done || lia).
    + destruct Hen as [-> Ht]. destruct (other_type t Ht) as (-> & -> & ->). change (procs (EOther t :: es)) with (procs es) in Hn.
      by rewrite (IH fuel (p + 8) e q) by (done || lia).
Qed.
Lemma mpinit_loop_table es fuel p e s : entries_at p es e -> (length es < fuel)%nat ->
  ncpu s + Z.of_nat (length (procs es)) <= Z.of_nat NCPU -> mpinit_loop fuel p e s = MpOk (table_state es s).
Proof.
  intros He Hf Hn. rewrite (mpinit_loop_entries es fuel p e e s) by (done || lia).
  destruct (fuel - length es)%nat eqn:E; [lia|]. cbn [mpinit_loop]. by rewrite Z.ltb_irrefl.
Qed.

(** With more processors than [cpus] has room for, the loop writes past its end. *)
Lemma mpinit_loop_overrun es : forall fuel p e s, entries_at p es e -> (length es < fuel)%nat ->
  ncpu s <= Z.of_nat NCPU < ncpu s + Z.of_nat (length (procs es)) -> mpinit_loop fuel p e s = MpOverrun.
Proof.
  induction es as [|en es IH]; intros fuel p e s He Hf Hn; [cbn in Hn; lia|]. (destruct fuel as [|fuel]; [cbn in Hf; lia|]).
  destruct (entries_end _ _ _ He) as [_ Hlt]. specialize (Hlt ltac:(done)). cbn [mpinit_loop].
  replace (p <? e) with true by lia. destruct He as [Hen He]. cbn [length] in Hf.
  destruct en as [a f|a|t]; cbn [entry_at entry_size] in *.
  - destruct Hen as (-> & -> & ->). change (procs (EProc a f :: es)) with ((a, f) :: procs es) in Hn. cbn [length] in Hn.
    cbn [Z.eqb MPPROC]. destruct (Z.leb_spec (Z.of_nat NCPU) (ncpu s)); [done|]. apply IH; [done|lia|cbn [ncpu]; lia].
  - destruct Hen as (-> & ->). apply IH; [done|lia|exact Hn].
  - destruct Hen as [-> Ht]. destruct (other_type t Ht) as (-> & -> & ->). apply IH; [done|lia|exact Hn].
Qed.

(** An entry of unknown type is never passed. *)
Lemma mpinit_loop_stuck fuel p e s : p < e -> 4 < ld8 m p -> mpinit_loop fuel p e s = MpLoops.
Proof.
  intros Hp Ht. revert s. induction fuel as [|fuel IH]; intros s; cbn [mpinit_loop]; [done|]. replace (p <? e) with true by lia.
  unfold MPPROC, MPIOAPIC, MPBUS, MPIOINTR, MPLINTR. replace (ld8 m p =? 0) with false by lia. replace (ld8 m p =? 2) with false by lia.
  replace ((ld8 m p =? 1) || _ || _) with false by lia. apply IH.
Qed.
Lemma mpinit_loop_unknown es : forall fuel p e q s, entries_at p es q -> q < e -> 4 < ld8 m q ->
  ncpu s + Z.of_nat (length (procs es)) <= Z.of_nat NCPU -> mpinit_loop fuel p e s = MpLoops.
Proof.
  induction es as [|en es IH]; intros fuel p e q s He Hq Ht Hn; [cbn in He; subst q; by apply mpinit_loop_stuck|].
  destruct fuel as [|fuel]; [done|]. cbn [mpinit_loop]. destruct (entries_end _ _ _ He) as [Hle _]. replace (p <? e) with true by lia. destruct He as [Hen He].
  destruct en as [a f|a|t]; cbn [entry_at entry_size] in *.
  - destruct Hen as (-> & _ & _). change (procs (EProc a f :: es)) with ((a, f) :: procs es) in Hn. cbn [length] in Hn.
    cbn [Z.eqb MPPROC]. destruct (Z.leb_spec (Z.of_nat NCPU) (ncpu s)); [lia|]. apply (IH _ _ _ q); [done|done|done|cbn [ncpu]; lia].
  - destruct Hen as (-> & _). by apply (IH _ _ _ q).
  - destruct Hen as [-> Hty]. destruct (other_type t Hty) as (-> & -> & ->). by apply (IH _ _ _ q).
Qed.
End mp.

(** [mpsearch1] returns the first structure with the signature and the checksum, or null. *)
Lemma mpsearch1_first m fuel : forall p e, 0 < p -> e - p <= 16 * (Z.of_nat fuel - 1) ->
  let r := mpsearch1_loop m fuel p e in
  (forall k, 0 <= k -> p + 16 * k < e -> (r = 0 \/ p + 16 * k < r) ->
     signature m (p + 16 * k) MP_SIG && (sum m (p + 16 * k) 16 =? 0) = false) /\
  (r <> 0 -> p <= r < e /\ signature m r MP_SIG && (sum m r 16 =? 0) = true).
Proof.
  induction fuel as [|fuel IH]; intros p e Hp Hf; cbn [mpsearch1_loop]; [split; [lia|done]|]. destruct (Z.ltb_spec p e); [|split; [lia|done]].
  destruct (signature m p MP_SIG && (sum m p 16 =? 0)) eqn:E; [split; [lia|intros _; split; [lia|done]]|]. unfold SIZEOF_MP.
  destruct (IH (p + 16) e ltac:(lia) ltac:(lia)) as [I1 I2]. split.
  - intros k Hk Hlt Hr. destruct (Z.eq_dec k 0) as [->|]; [by rewrite Z.mul_0_r, Z.add_0_r|].
    specialize (I1 (k - 1) ltac:(lia)). replace (p + 16 + 16 * (k - 1)) with (p + 16 * k) in I1 by lia. by apply I1.
  - intros Hr. destruct (I2 Hr). split; [lia|done].
Qed.

(** The state of the machine after [mpinit], from the entries of the configuration table. *)
Definition mp_result (es : list entry) (lapicaddr imcrp : Z) (s : mpstate) : mpstate * bool :=
  let ps := procs es in
  let n := Z.of_nat (length ps) in
  let ids := map (fun i => (i, i)) (seqZ 0 n) in
  if in_order ps 0 then (mkMp (boot_index ps 0 0) 1 n (last_ioapic es (ioapicid s)) lapicaddr (cpus s ++ ids), negb (imcrp =? 0))
  else (mkMp (boot_index ps 0 0) 0 1 0 0 (cpus s ++ ids), false).

(** C38. When the entries of the configuration table are of the five known types and at most [NCPU] of them
    are processors, [mpinit] ends: it numbers the processors in the order of the table, takes the flagged one as the
    bootstrap processor, and falls back to one processor when the table does not list the
    local APICs in the order 0, 1, 2 and so on.  With more than [NCPU] processors it stores past the end of [cpus].
    When the table has an entry of another type, no number of steps is enough: the loop never passes the entry. *)
Theorem mpinit_correct m mp conf es q s :
  mpconfig m = Some (mp, conf) -> ncpu s = 0 -> entries_at m (conf + 44) es q ->
  (q = conf + ld16 m (conf + 4) ->
     mpinit m (S (length es)) s =
       if (length (procs es) <=? NCPU)%nat then MpOk (mp_result es (ld32 m (conf + 36)) (ld8 m (mp + 12)) s) else MpOverrun) /\
  (q < conf + ld16 m (conf + 4) -> 4 < ld8 m q -> (length (procs es) <= NCPU)%nat -> forall fuel, mpinit m fuel s = MpLoops).
Proof.
  intros Hc Hn He. unfold mpinit. rewrite Hc. cbn [bcpu ismp ncpu ioapicid lapic cpus]. split.
  - intros <-. destruct (Nat.leb_spec (length (procs es)) NCPU).
    + rewrite (mpinit_loop_table m es _ _ _ _ He) by (cbn [ncpu]; lia). unfold table_state, mp_result. cbn [bcpu ismp ncpu ioapicid lapic cpus]. rewrite Hn.
      by destruct (in_order (procs es) 0).
    + rewrite (mpinit_loop_overrun m es _ _ _ _ He) by (cbn [ncpu]; lia). done.
  - intros Hq Ht Hp fuel. by rewrite (mpinit_loop_unknown m es _ _ _ q _ He) by (cbn [ncpu]; lia || done).
Qed.

(** *** Witness: the tables of a machine with one processor *)
Definition bios : list (Z * list Z) :=
  [(0xF0000, [95; 77; 80; 95; 0; 0x20; 0; 0; 1; 4; 128; 0; 0; 0; 0; 0]);
   (0x2000, [80; 67; 77; 80; 72; 0; 4; 160] ++ replicate 28 0 ++ [0; 0; 0xE0; 0xFE] ++ replicate 4 0);
   (0x202C, [0; 0; 0; 3] ++ replicate 16 0); (0x2040, [2; 1] ++ replicate 6 0)].
Definition bios_mem (a : Z) : Z :=
  foldr (fun '(b, l) v => if (b <=? a) && (a <? b + Z.of_nat (length l)) then nth (Z.to_nat (a - b)) l 0 else v) 0 bios.

Lemma mpinit_correct_witness : mpconfig bios_mem = Some (0xF0000, 0x2000) /\
  mpinit bios_mem 3 (mkMp 0 0 0 0 0 []) = MpOk (mkMp 0 1 1 1 0xFEE00000 [(0, 0)], false).
Proof.
  assert (H : mpconfig bios_mem = Some (0xF0000, 0x2000)) by (vm_compute; reflexivity).
  split; [exact H|]. refine (eq_trans (proj1 (mpinit_correct bios_mem 0xF0000 0x2000 [EProc 0 3; EIoapic 1] 0x2048 (mkMp 0 0 0 0 0 []) H eq_refl
    ltac:(vm_compute; tauto)) ltac:(vm_compute; reflexivity)) _). vm_compute. reflexivity.
Defined.
