(* ===== verification/Mkfs.v ===== *)
(** [tools/mkfs.c]: the program of the host that builds the file system image.

    The image is a file of sectors.  [ialloc] hands out inodes and [iappend] blocks, both in
    order; [add_dir] copies a directory of the host, and at the end [balloc] writes the bitmap. *)
From S2P Require Import Prelude Types Mem UserMem Inode.

(** ** Code *)

(** The image, its number of sectors, and the global variables.  The functions return [None]
    where the program exits: on a failed [assert], and on a read past the end of the image. *)
Record mkst := mkMkst { mk_img : Z -> list Z; mk_ext : Z; freeblock : Z; usedblocks : Z; freeinode : Z }.

Definition zeroes : list Z := replicate 512 0.

Definition wsect (sec : Z) (buf : list Z) (s : mkst) : mkst :=
  mkMkst (fun x => if x =? sec then buf else mk_img s x) (Z.max (mk_ext s) (sec + 1)) (freeblock s) (usedblocks s) (freeinode s).
Definition rsect (sec : Z) (s : mkst) : option (list Z) := if sec <? mk_ext s then Some (mk_img s sec) else None.

(** [xshort] and [xint] give the bytes of the image their order: [le16] and [le32] are the
    bytes of such numbers. *)
Definition sb_bytes (size nblocks ninodes : Z) : list Z := le32 size ++ le32 nblocks ++ le32 ninodes.

Definition mkfs (nblocks ninodes size : Z) : option mkst :=
  let bitblocks := size / (512 * 8) + 1 in
  let used := ninodes / IPB + 3 + bitblocks in
  if negb (nblocks + used =? size) then None
  else
    let s := mkMkst (fun _ => []) 0 used used 1 in
    let s := foldl (fun s i => wsect i zeroes s) s (seqZ 0 (nblocks + used)) in
    Some (wsect 1 (splice zeroes 0 (sb_bytes size nblocks ninodes)) s).

Definition i2b (inum : Z) : Z := inum / IPB + 2.

Definition winode (inum : Z) (ip : dinode) (s : mkst) : option mkst :=
  let bn := i2b inum in
  buf ← rsect bn s; Some (wsect bn (splice buf (DINODE * (inum mod IPB)) (dinode_bytes ip)) s).
Definition rinode (inum : Z) (s : mkst) : option dinode :=
  buf ← rsect (i2b inum) s; Some (dinode_get buf (DINODE * (inum mod IPB))).

(** The inode number *)
Definition mk_ialloc (type : Z) (s : mkst) : option (Z * mkst) :=
  let inum := freeinode s in
  let s := mkMkst (mk_img s) (mk_ext s) (freeblock s) (usedblocks s) (freeinode s + 1) in
  s ← winode inum (mkDinode type 0 0 1 0 (replicate 13 0)) s; Some (inum, s).

(** [freeblock++; usedblocks++] *)
Definition take_block (s : mkst) : Z * mkst :=
  (freeblock s, mkMkst (mk_img s) (mk_ext s) (freeblock s + 1) (usedblocks s + 1) (freeinode s)).

Definition set_addr (k : nat) (a : Z) (din : dinode) : dinode :=
  mkDinode (d_type din) (d_major din) (d_minor din) (d_nlink din) (d_size din) (<[k := a]> (d_addrs din)).
Definition get_addr (k : nat) (din : dinode) : Z := default 0 (d_addrs din !! k).

(** The entry of the indirect block, which is allocated if need be *)
Definition map_entry (fbn : Z) (din : dinode) (s : mkst) : option (Z * dinode * mkst) :=
  indirect ← rsect (get_addr 12 din) s;
  let e := 4 * (fbn - NDIRECT) in
  let '(indirect, s) :=
    if get32 indirect e =? 0 then
      let '(a, s) := take_block s in
      let indirect := splice indirect e (le32 a) in (indirect, wsect (get_addr 12 din) indirect s)
    else (indirect, s) in
  Some (get32 indirect e, din, s).

(** The block of the file block [fbn], which is allocated if need be *)
Definition map_block (fbn : Z) (din : dinode) (s : mkst) : option (Z * dinode * mkst) :=
  if fbn <? NDIRECT then
    let k := Z.to_nat fbn in
    let '(din, s) := if get_addr k din =? 0 then let '(a, s) := take_block s in (set_addr k a din, s) else (din, s) in
    Some (get_addr k din, din, s)
  else
    let '(din, s) := if get_addr 12 din =? 0 then let '(a, s) := take_block s in (set_addr 12 a din, s) else (din, s) in
    map_entry fbn din s.

(** The loop of [iappend]; every step takes at least one byte. *)
Fixpoint iappend_loop (fuel : nat) (din : dinode) (off : Z) (p : list Z) (s : mkst) : option (dinode * Z * mkst) :=
  match p, fuel with
  | [], _ => Some (din, off, s)
  | _ :: _, O => None
  | _ :: _, S fuel' =>
      let fbn := off / 512 in
      if negb (fbn <? MAXFILE) then None
      else
        '(x, din, s) ← map_block fbn din s;
        let n1 := Z.min (Z.of_nat (length p)) ((fbn + 1) * 512 - off) in
        buf ← rsect x s;
        let s := wsect x (splice buf (off - fbn * 512) (take (Z.to_nat n1) p)) s in
        iappend_loop fuel' din (off + n1) (drop (Z.to_nat n1) p) s
  end.

Definition set_dsize (size : Z) (din : dinode) : dinode :=
  mkDinode (d_type din) (d_major din) (d_minor din) (d_nlink din) size (d_addrs din).

Definition iappend (inum : Z) (p : list Z) (s : mkst) : option mkst :=
  din ← rinode inum s;
  '(din, off, s) ← iappend_loop (length p) din (d_size din) p s;
  winode inum (set_dsize off din) s.

(** A directory of the host: what [read] returns for a file, one buffer at a time, and the
    entries of a directory in the order of [readdir_r]. *)
Inductive host :=
| HFile (reads : list (list Z))
| HDir (entries : list (list Z * host)).

(** [struct dirent] with the name cut or padded to [DIRSIZ] *)
Definition mk_dirent (inum : Z) (name : list Z) : list Z := le16 inum ++ take 14 (name ++ replicate 14 0).
Definition dot : list Z := [46].
Definition dotdot : list Z := [46; 46].

Definition iappend_all (inum : Z) (reads : list (list Z)) (s : mkst) : option mkst :=
  foldl (fun r buf => s ← r; iappend inum buf s) (Some s) reads.

(** [off = ((off/BSIZE) + 1) * BSIZE] *)
Definition fix_size (inum : Z) (s : mkst) : option mkst :=
  din ← rinode inum s; winode inum (set_dsize ((d_size din / BSIZE + 1) * BSIZE) din) s.

Definition is_dots (name : list Z) : bool := bool_decide (name = dot) || bool_decide (name = dotdot).

(** The loop over the entries, for the directory [cur]; [rec] is [add_dir]. *)
Section Entries.
  Context (rec : host -> Z -> Z -> mkst -> option mkst).

Fixpoint add_entries (entries : list (list Z * host)) (cur : Z) (s : mkst) : option mkst :=
  match entries with
  | [] => Some s
  | (name, child) :: rest =>
      if is_dots name then add_entries rest cur s
      else
        '(inum, s) ← match child with
                     | HDir _ => '(inum, s) ← mk_ialloc T_DIR s; s ← rec child inum cur s; Some (inum, s)
                     | HFile reads => '(inum, s) ← mk_ialloc T_FILE s; s ← iappend_all inum reads s; Some (inum, s)
                     end;
        s ← iappend cur (mk_dirent inum name) s;
        add_entries rest cur s
  end.
End Entries.

(** The stream of something that is not a directory is null. *)
Fixpoint add_dir (h : host) (cur parent : Z) (s : mkst) : option mkst :=
  s ← iappend cur (mk_dirent cur dot) s;
  s ← iappend cur (mk_dirent parent dotdot) s;
  match h with
  | HFile _ => Some s
  | HDir entries => s ← add_entries add_dir entries cur s; fix_size cur s
  end.

(** The bitmap: the first [used] bits are set. *)
Definition mk_balloc (used : Z) (s : mkst) : option mkst :=
  if negb (used <? 512 * 8) then None
  else
    let buf := foldl (fun buf i => set_bit buf i) zeroes (seqZ 0 used) in
    Some (wsect (200 / IPB + 3) buf s).

Definition mkfs_main (root : host) : option mkst :=
  s ← mkfs 995 200 1024;
  '(root_inode, s) ← mk_ialloc T_DIR s;
  if negb (root_inode =? ROOTINO) then None
  else
    s ← add_dir root root_inode root_inode s;
    mk_balloc (usedblocks s) s.
