(* ===== verification/MkfsBlocks.v ===== *)
(** [tools/mkfs.c], [iappend]: the blocks that a file gets, and what is in them.

    The slots of all files and the contents of the disk are described on their own, and the
    loop of [iappend] is shown to keep them. *)
From S2P Require Import Prelude Types Mem UserMem Inode Fs FsBlocks FsFile FsWrite FsSpec Mkfs.

(** ** The blocks of a file of a given length *)

(** The slots of an inode are numbered as in the kernel: 0 to 11 are direct, 12 is the indirect
    block, and 13 to 140 are its entries. *)
Definition needed (L k : Z) : Prop :=
  if k <? 12 then k * 512 < L else if k =? 12 then 12 * 512 < L else (k - 1) * 512 < L.
Definition blocks_of (L : Z) : Z := (L + 511) / 512 + (if 12 * 512 <? L then 1 else 0).
Definition total (fs : list (list Z)) : Z := foldr (fun d n => blocks_of (Z.of_nat (length d)) + n) 0 fs.

Lemma total_cons d fs : total (d :: fs) = blocks_of (Z.of_nat (length d)) + total fs.
Proof. done. Qed.
Lemma total_insert fs i d d' : fs !! i = Some d -> total (<[i := d']> fs) = total fs - blocks_of (Z.of_nat (length d)) + blocks_of (Z.of_nat (length d')).
Proof.
  revert i. induction fs as [|x fs IH]; intros [|i] H; [done|done| |].
  - injection H as ->. change (<[0%nat := d']> (d :: fs)) with (d' :: fs). rewrite !total_cons. lia.
  - change (<[S i := d']> (x :: fs)) with (x :: <[i := d']> fs). rewrite !total_cons, IH by done. lia.
Qed.
Lemma total_app fs d : total (fs ++ [d]) = total fs + blocks_of (Z.of_nat (length d)).
Proof. induction fs as [|x fs IH]; [cbn [app]; rewrite total_cons; cbn [total foldr]; lia|]. cbn [app]. rewrite !total_cons, IH. lia. Qed.
Lemma blocks_of_pos L : 0 <= L -> 0 <= blocks_of L.
Proof. intros H. unfold blocks_of. pose proof (Z.div_pos (L + 511) 512 ltac:(lia) ltac:(lia)). destruct (12 * 512 <? L); lia. Qed.

(** What appending a part of a block allocates: the new slots of the file, and the next free
    block. *)
Definition upd (f : Z -> Z) (k v : Z) : Z -> Z := fun x => if x =? k then v else f x.
Definition alloc_slots (L free : Z) (f : Z -> Z) : (Z -> Z) * Z :=
  let bn := L / 512 in
  if negb (L mod 512 =? 0) then (f, free)
  else if bn =? 12 then (upd (upd f 12 free) 13 (free + 1), free + 2)
  else (upd f (fslot bn) free, free + 1).

Lemma blocks_append L c : 0 <= L -> 1 <= c <= 512 - L mod 512 ->
  blocks_of (L + c) = blocks_of L + (if L mod 512 =? 0 then if L / 512 =? 12 then 2 else 1 else 0).
Proof.
  intros HL Hc. unfold blocks_of. pose proof (Z.div_mod L 512 ltac:(lia)). pose proof (Z.mod_pos_bound L 512 ltac:(lia)).
  destruct (Z.eqb_spec (L mod 512) 0) as [E|E].
  - assert ((L + c + 511) / 512 = L / 512 + 1) as -> by (symmetry; apply Z.div_unique with (r := c - 1); lia).
    assert ((L + 511) / 512 = L / 512) as -> by (symmetry; apply Z.div_unique with (r := 511); lia).
    destruct (Z.eqb_spec (L / 512) 12), (Z.ltb_spec (12 * 512) (L + c)), (Z.ltb_spec (12 * 512) L); lia.
  - assert ((L + c + 511) / 512 = L / 512 + 1) as -> by (symmetry; apply Z.div_unique with (r := L mod 512 + c - 1); lia).
    assert ((L + 511) / 512 = L / 512 + 1) as -> by (symmetry; apply Z.div_unique with (r := L mod 512 - 1); lia).
    destruct (Z.ltb_spec (12 * 512) (L + c)), (Z.ltb_spec (12 * 512) L); lia.
Qed.
Lemma needed_append L c k : 0 <= L -> 1 <= c <= 512 - L mod 512 -> 0 <= k ->
  needed (L + c) k <-> needed L k \/ L mod 512 = 0 /\ (k = fslot (L / 512) \/ L / 512 = 12 /\ k = 12).
Proof.
  intros HL Hc Hk. unfold needed, fslot. change NDIRECT with 12. pose proof (Z.div_mod L 512 ltac:(lia)). pose proof (Z.mod_pos_bound L 512 ltac:(lia)).
  destruct (Z.ltb_spec k 12), (Z.eqb_spec k 12), (Z.ltb_spec (L / 512) 12); lia.
Qed.
Lemma needed_last L : 0 <= L -> L mod 512 <> 0 -> needed L (fslot (L / 512)) /\ (12 <= L / 512 -> needed L 12).
Proof.
  intros HL Hm. unfold needed, fslot. change NDIRECT with 12. pose proof (Z.div_mod L 512 ltac:(lia)). pose proof (Z.mod_pos_bound L 512 ltac:(lia)).
  change (12 <? 12) with false. change (12 =? 12) with true. cbv iota. split; [|lia].
  destruct (Z.ltb_spec (L / 512) 12); [replace (L / 512 <? 12) with true by lia; lia|].
  destruct (Z.ltb_spec (L / 512 + 1) 12), (Z.eqb_spec (L / 512 + 1) 12); lia.
Qed.

(** ** Slots *)
Record slots_ok (free : Z) (S : nat -> Z -> Z) (fs : list (list Z)) : Prop := {
  so_need : forall i d k, fs !! i = Some d -> 0 <= k < 141 -> S i k <> 0 <-> needed (Z.of_nat (length d)) k;
  so_range : forall i k, (i < length fs)%nat -> 0 <= k < 141 -> S i k <> 0 -> 29 <= S i k < free;
  so_inj : forall i k i' k', (i < length fs)%nat -> (i' < length fs)%nat -> 0 <= k < 141 -> 0 <= k' < 141 ->
    S i k <> 0 -> S i k = S i' k' -> i = i' /\ k = k';
  so_free : free = 29 + total fs;
  so_len : forall i d, fs !! i = Some d -> Z.of_nat (length d) <= 71680 }.

Definition upd_file (S : nat -> Z -> Z) (i : nat) (f : Z -> Z) : nat -> Z -> Z := fun j => if decide (j = i) then f else S j.

Lemma alloc_slots_at L free f k : 0 <= k -> (alloc_slots L free f).1 k =
  if bool_decide (L mod 512 = 0 /\ k = fslot (L / 512)) then (if L / 512 =? 12 then free + 1 else free)
  else if bool_decide (L mod 512 = 0 /\ L / 512 = 12 /\ k = 12) then free else f k.
Proof.
  intros Hk. unfold alloc_slots, fslot. change NDIRECT with 12. destruct (Z.eqb_spec (L mod 512) 0) as [E|E]; cbn [negb].
  - destruct (Z.eqb_spec (L / 512) 12) as [E'|E']; cbn [fst]; unfold upd.
    + rewrite E'. change (12 <? 12) with false. cbv iota. destruct (Z.eqb_spec k 13).
      * rewrite bool_decide_eq_true_2 by lia. done.
      * rewrite bool_decide_eq_false_2 by lia. destruct (Z.eqb_spec k 12); [rewrite bool_decide_eq_true_2 by lia|rewrite bool_decide_eq_false_2 by lia]; done.
    + destruct (Z.eqb_spec k (if L / 512 <? 12 then L / 512 else L / 512 + 1)).
      * rewrite bool_decide_eq_true_2 by lia. done.
      * rewrite !bool_decide_eq_false_2 by lia. done.
  - rewrite !bool_decide_eq_false_2 by lia. done.
Qed.

(** The fresh blocks are beyond the old ones, and different. *)
Lemma alloc_slots_cases L free f k : 0 <= k ->
  let r := (alloc_slots L free f).1 k in
  (r = f k /\ ~ (L mod 512 = 0 /\ (k = fslot (L / 512) \/ L / 512 = 12 /\ k = 12))) \/
  (free <= r < (alloc_slots L free f).2 /\ L mod 512 = 0 /\ (k = fslot (L / 512) /\ r = (if L / 512 =? 12 then free + 1 else free) \/ k <> fslot (L / 512) /\ L / 512 = 12 /\ k = 12 /\ r = free)).
Proof.
  intros Hk r. unfold r. rewrite alloc_slots_at by done.
  assert (E : L mod 512 = 0 -> (alloc_slots L free f).2 = free + (if L / 512 =? 12 then 2 else 1)).
  { intros E. unfold alloc_slots. rewrite E. cbn [Z.eqb negb]. by destruct (L / 512 =? 12). }
  case_bool_decide as HA; [right|case_bool_decide as HB; [right|left; split; [done|tauto]]].
  - destruct HA as [H0 HA]. rewrite (E H0). destruct (L / 512 =? 12); (split; [lia|split; [done|left; done]]).
  - destruct HB as (H0 & H12 & HB). rewrite (E H0), H12. change (12 =? 12) with true. cbv iota. split; [lia|]. split; [done|]. right. split; [|done]. intros Hc. apply HA. split; [done|]. by rewrite H12.
Qed.
Lemma total_pos fs : 0 <= total fs.
Proof. induction fs as [|d fs IH]; [done|]. rewrite total_cons. pose proof (blocks_of_pos (Z.of_nat (length d)) ltac:(lia)). lia. Qed.

Lemma slots_append free S fs i d c : slots_ok free S fs -> fs !! i = Some d -> (0 < length c)%nat ->
  Z.of_nat (length c) <= 512 - Z.of_nat (length d) mod 512 -> Z.of_nat (length d) < 71680 ->
  let '(f, free') := alloc_slots (Z.of_nat (length d)) free (S i) in slots_ok free' (upd_file S i f) (<[i := d ++ c]> fs).
Proof.
  intros [H1 H2 H3 H4 H5] Hi Hc Hcl HL2. destruct (alloc_slots _ free (S i)) as [f free'] eqn:Ea. set (L := Z.of_nat (length d)) in *.
  assert (HL : 0 <= L) by lia. assert (Hf : forall k, 0 <= k -> f k = (alloc_slots L free (S i)).1 k) by (by rewrite Ea).
  assert (Hfree : free' = free + (if L mod 512 =? 0 then if L / 512 =? 12 then 2 else 1 else 0)).
  { unfold alloc_slots in Ea. destruct (L mod 512 =? 0); cbn [negb] in Ea; [destruct (L / 512 =? 12)|]; injection Ea as _ <-; lia. }
  assert (Hge : free <= free') by (rewrite Hfree; destruct (L mod 512 =? 0), (L / 512 =? 12); lia). pose proof (total_pos fs) as Hp.
  assert (Hil : (i < length fs)%nat) by by eapply lookup_lt_Some.
  assert (C : forall k, 0 <= k -> f k = S i k /\ ~ (L mod 512 = 0 /\ (k = fslot (L / 512) \/ L / 512 = 12 /\ k = 12)) \/
    free <= f k < free' /\ L mod 512 = 0 /\ (k = fslot (L / 512) /\ f k = (if L / 512 =? 12 then free + 1 else free) \/ k <> fslot (L / 512) /\ L / 512 = 12 /\ k = 12 /\ f k = free)).
  { intros k Hk. pose proof (alloc_slots_cases L free (S i) k Hk) as C. by rewrite Ea in C. }
  constructor; unfold upd_file; rewrite ?length_insert.
  - intros j e k Hj Hk. destruct (decide (j = i)) as [->|Hne]; [|rewrite list_lookup_insert_ne in Hj by done; by apply H1].
    rewrite list_lookup_insert_eq in Hj by done. injection Hj as <-. rewrite length_app, Nat2Z.inj_add. fold L. rewrite needed_append by lia.
    destruct (C k ltac:(lia)) as [[-> Hn]|(Hfr & H0 & Hk')]; [rewrite (H1 i d k Hi Hk); fold L; tauto|]. split; [tauto|lia].
  - intros j k Hj Hk. destruct (decide (j = i)) as [->|Hne]; [|intros Hs; specialize (H2 j k Hj Hk Hs); lia].
    destruct (C k ltac:(lia)) as [[-> _]|(Hfr & _)]; [intros Hs; specialize (H2 i k Hj Hk Hs); lia|lia].
  - intros j k j' k' Hj Hj' Hk Hk' Hs He.
    assert (Hold : forall j k, (j < length fs)%nat -> 0 <= k < 141 -> S j k < free) by (intros a b Ha Hb; destruct (Z.eq_dec (S a b) 0); [lia|]; by apply H2).
    destruct (decide (j = i)) as [->|Hne], (decide (j' = i)) as [->|Hne'].
    + split; [done|]. destruct (C k ltac:(lia)) as [[E1 _]|(Hfr & H0 & Hc1)], (C k' ltac:(lia)) as [[E2 _]|(Hfr' & _ & Hc2)].
      * rewrite E1, E2 in He. rewrite E1 in Hs. by apply (H3 i k i k').
      * specialize (Hold i k Hil Hk). lia.
      * specialize (Hold i k' Hil Hk'). lia.
      * destruct Hc1 as [[-> R1]|(_ & R0 & -> & R1)], Hc2 as [[-> R2]|(_ & R0' & -> & R2)]; try done; rewrite ?R0, ?R0' in *; cbn in *; lia.
    + destruct (C k ltac:(lia)) as [[E1 _]|(Hfr & _)]; [rewrite E1 in *; by apply H3|]. specialize (Hold j' k' Hj' Hk'). lia.
    + destruct (C k' ltac:(lia)) as [[E1 _]|(Hfr & _)]; [rewrite E1 in *; by apply H3|]. specialize (Hold j k Hj Hk). lia.
    + by apply H3.
  - rewrite (total_insert _ _ _ _ Hi), length_app, Nat2Z.inj_add. fold L. rewrite blocks_append by lia. rewrite Hfree, H4. lia.
  - intros j e Hj. destruct (decide (j = i)) as [->|Hne]; [|rewrite list_lookup_insert_ne in Hj by done; by apply (H5 j)].
    rewrite list_lookup_insert_eq in Hj by done. injection Hj as <-. rewrite length_app. pose proof (Z.div_mod L 512 ltac:(lia)).
    pose proof (Z.mod_pos_bound L 512 ltac:(lia)). rewrite Nat2Z.inj_add. fold L. lia.
Qed.

(** ** Sectors *)
Definition sector_ok (l : list Z) : Prop := length l = 512%nat /\ Forall (fun c => 0 <= c < 256) l.

(** The bytes of the files are in their blocks, with zeros after them in the last block, and the
    blocks from [free] on are zero. *)
Record disk_ok (img : Z -> list Z) (free : Z) (S : nat -> Z -> Z) (fs : list (list Z)) : Prop := {
  dk_sec : forall y, 0 <= y < 1024 -> sector_ok (img y);
  dk_zero : forall y, free <= y < 1024 -> img y = zeroes;
  dk_data : forall i d o, fs !! i = Some d -> 0 <= o -> o / 512 * 512 < Z.of_nat (length d) ->
    byte_at (img (S i (fslot (o / 512)))) (o mod 512) = default 0 (d !! Z.to_nat o) }.

Lemma fslot_not_12 bn : 0 <= bn -> fslot bn <> 12 /\ 0 <= fslot bn.
Proof. intros H. unfold fslot. change NDIRECT with 12. destruct (Z.ltb_spec bn 12); lia. Qed.
Lemma fslot_140 bn : 0 <= bn < 140 -> 0 <= fslot bn < 141.
Proof. intros H. unfold fslot. change NDIRECT with 12. destruct (Z.ltb_spec bn 12); lia. Qed.
Lemma needed_fslot L bn : 0 <= bn -> needed L (fslot bn) <-> bn * 512 < L.
Proof.
  intros H. unfold needed, fslot. change NDIRECT with 12. destruct (Z.ltb_spec bn 12); [by replace (bn <? 12) with true by lia|].
  replace (bn + 1 <? 12) with false by lia. replace (bn + 1 =? 12) with false by lia. by replace (bn + 1 - 1) with bn by lia.
Qed.
Lemma byte_at_zeroes p : byte_at zeroes p = 0.
Proof.
  unfold byte_at, zeroes. destruct (decide (Z.to_nat p < 512)%nat) as [H|H]; [by rewrite lookup_replicate_2 by done|].
  by rewrite lookup_ge_None_2 by (rewrite length_replicate; lia).
Qed.

(** The append of a part [c] of a block to the file [i], whose data are [d]. *)
Section Append.
  Context (img img' : Z -> list Z) (free free' : Z) (S : nat -> Z -> Z) (fs : list (list Z)) (i : nat) (d c : list Z) (f : Z -> Z).
Let L := Z.of_nat (length d).
Let kd := fslot (L / 512).
  Context (HS : slots_ok free S fs) (HD : disk_ok img free S fs) (Hi : fs !! i = Some d) (Hc : (0 < length c)%nat) (Hb : Forall (fun x => 0 <= x < 256) c).
  Context (Hcl : Z.of_nat (length c) <= 512 - L mod 512) (HL : L < 71680) (Ea : alloc_slots L free (S i) = (f, free')) (Hfree : free' <= 1024).
  Context (HS' : slots_ok free' (upd_file S i f) (<[i := d ++ c]> fs)).
  Context (Hother : forall y, 0 <= y < 1024 -> y <> f kd -> (f 12 <> 0 -> y <> f 12) -> img' y = img y).
  Context (Hx : img' (f kd) = splice (img (f kd)) (L mod 512) c) (H12 : f 12 <> 0 -> sector_ok (img' (f 12))).

Lemma append_facts : 0 <= kd < 141 /\ (i < length fs)%nat /\ 29 <= f kd < free' /\ 29 <= free <= free' /\
  0 <= L mod 512 < 512 /\ L = 512 * (L / 512) + L mod 512 /\ (forall k, upd_file S i f i k = f k).
Proof.
  pose proof (Z.div_mod L 512 ltac:(lia)) as Hdm. pose proof (Z.mod_pos_bound L 512 ltac:(lia)) as Hmod. assert (HL0 : 0 <= L) by (unfold L; lia).
  assert (Hkd : 0 <= kd < 141) by (apply fslot_140; split; [apply Z.div_pos; lia|apply Z.div_lt_upper_bound; lia]).
  assert (Hil : (i < length fs)%nat) by by eapply lookup_lt_Some. assert (U : forall k, upd_file S i f i k = f k) by (intros k; unfold upd_file; by rewrite decide_True).
  assert (Hn : f kd <> 0).
  { rewrite <- U. apply (so_need _ _ _ HS' i (d ++ c) kd); [by rewrite list_lookup_insert_eq|done|].
    unfold kd. rewrite needed_fslot by (apply Z.div_pos; lia). rewrite length_app, Nat2Z.inj_add. fold L. lia. }
  split_and!; try done; try lia; try (rewrite <- U; apply (so_range _ _ _ HS' i kd); [by rewrite length_insert|done|by rewrite U]).
  - pose proof (so_free _ _ _ HS). pose proof (total_pos fs). lia.
  - unfold alloc_slots in Ea. destruct (L mod 512 =? 0), (L / 512 =? 12); cbn [negb] in Ea; injection Ea as _ <-; lia.
Qed.

(** The other blocks with data. *)
Lemma append_same j k : (j < length fs)%nat -> 0 <= k < 141 -> k <> 12 -> (j <> i \/ k <> kd) -> upd_file S i f j k <> 0 ->
  img' (upd_file S i f j k) = img (upd_file S i f j k).
Proof.
  destruct append_facts as (Hkd & Hil & _ & _ & _ & _ & U). intros Hj Hk Hk12 Hne Hn.
  assert (Hj' : (j < length (<[i := d ++ c]> fs))%nat) by by rewrite length_insert. assert (Hi' : (i < length (<[i := d ++ c]> fs))%nat) by by rewrite length_insert.
  pose proof (so_range _ _ _ HS' j k Hj' Hk Hn). apply Hother; [lia| |].
  - intros E. destruct (so_inj _ _ _ HS' j k i kd Hj' Hi' Hk Hkd Hn); [by rewrite U|lia].
  - intros _ E. destruct (so_inj _ _ _ HS' j k i 12 Hj' Hi' Hk ltac:(lia) Hn); [by rewrite U|lia].
Qed.
(** The last block before the append. *)
Lemma append_old o : 0 <= o -> o / 512 = L / 512 -> byte_at (img (f kd)) (o mod 512) = default 0 (d !! Z.to_nat o).
Proof.
  destruct append_facts as (Hkd & Hil & Hxr & Hge & Hmod & Hdm & U). intros Ho Eb. pose proof (Z.div_mod o 512 ltac:(lia)). pose proof (Z.mod_pos_bound o 512 ltac:(lia)).
  pose proof (alloc_slots_cases L free (S i) kd ltac:(lia)) as C. rewrite Ea in C. cbn [fst snd] in C. destruct C as [[C Hn0]|(C & C0 & _)].
  - rewrite C. unfold kd. rewrite <- Eb. apply HD; [done|done|]. assert (L mod 512 <> 0) by (intros E; apply Hn0; auto). fold L. lia.
  - rewrite (dk_zero _ _ _ _ HD (f kd)) by lia. rewrite byte_at_zeroes. by rewrite lookup_ge_None_2 by (unfold L in *; lia).
Qed.
Lemma append_last o : 0 <= o -> o / 512 = L / 512 -> byte_at (img' (f kd)) (o mod 512) = default 0 ((d ++ c) !! Z.to_nat o).
Proof.
  destruct append_facts as (Hkd & Hil & Hxr & Hge & Hmod & Hdm & U). intros Ho Eb. pose proof (Z.mod_pos_bound o 512 ltac:(lia)). pose proof (Z.div_mod o 512 ltac:(lia)).
  assert (Hs512 : length (img (f kd)) = 512%nat) by (apply HD; lia). rewrite Hx, byte_at_splice by (rewrite ?Hs512; lia).
  destruct (Z.leb_spec (L mod 512) (o mod 512)) as [Hle|Hlt], (Z.ltb_spec (o mod 512) (L mod 512 + Z.of_nat (length c))) as [Hlt2|Hge2]; cbn [andb]; try lia.
  - rewrite lookup_app_r by (unfold L in *; lia). unfold byte_at. do 2 f_equal. unfold L in *. lia.
  - rewrite (append_old o Ho Eb). by rewrite !lookup_ge_None_2 by (rewrite ?length_app; unfold L in *; lia).
  - rewrite lookup_app_l by (unfold L in *; lia). by apply append_old.
Qed.

Lemma append_disk : disk_ok img' free' (upd_file S i f) (<[i := d ++ c]> fs).
Proof.
  destruct append_facts as (Hkd & Hil & Hxr & Hge & Hmod & Hdm & U). constructor.
  - intros y Hy. destruct (Z.eq_dec y (f kd)) as [->|Hne].
    + rewrite Hx. destruct (dk_sec _ _ _ _ HD (f kd) Hy) as [S1 S2]. split; [rewrite splice_length; [done|lia|rewrite S1; lia]|by apply splice_bytes].
    + destruct (Z.eq_dec (f 12) 0) as [E0|Hn0]; [rewrite Hother by done; by apply HD|].
      destruct (Z.eq_dec y (f 12)) as [->|Hne2]; [by apply H12|]. rewrite Hother by done. by apply HD.
  - intros y Hy. rewrite Hother; [apply HD; lia|lia|lia|].
    intros Hn0 E. pose proof (so_range _ _ _ HS' i 12 ltac:(by rewrite length_insert) ltac:(lia)) as N. rewrite U in N. specialize (N Hn0). lia.
  - intros j e o Hj Ho Hoe. assert (Hjl : (j < length fs)%nat) by (apply lookup_lt_Some in Hj; by rewrite length_insert in Hj).
    pose proof (so_len _ _ _ HS' j e Hj). assert (Ho2 : 0 <= o / 512 < 140) by (pose proof (Z.div_pos o 512 ltac:(lia) ltac:(lia)); lia).
    pose proof (fslot_140 _ Ho2) as Hk. destruct (fslot_not_12 (o / 512)) as [Hk12 _]; [lia|].
    assert (Hn : upd_file S i f j (fslot (o / 512)) <> 0) by (apply (so_need _ _ _ HS' j e); [done|done|]; by rewrite needed_fslot by lia).
    destruct (decide (j = i)) as [->|Hne].
    + rewrite list_lookup_insert_eq in Hj by done. injection Hj as <-. destruct (Z.eq_dec (o / 512) (L / 512)) as [Eb|Eb]; [rewrite U, Eb; by apply append_last|].
      assert (Ek : f (fslot (o / 512)) = S i (fslot (o / 512))).
      { pose proof (alloc_slots_cases L free (S i) (fslot (o / 512)) ltac:(lia)) as C. rewrite Ea in C. cbn [fst] in C.
        destruct C as [[C _]|(_ & _ & [[C _]|(_ & _ & C & _)])]; [done| |done]. apply fslot_inj in C; lia. }
      rewrite append_same by (done || (right; intros C; apply fslot_inj in C; lia)). rewrite U, Ek.
      rewrite length_app, Nat2Z.inj_add in Hoe. fold L in Hoe. pose proof (Z.div_mod o 512 ltac:(lia)). pose proof (Z.mod_pos_bound o 512 ltac:(lia)).
      rewrite lookup_app_l by (unfold L in *; lia). apply HD; [done|done|fold L; lia].
    + rewrite append_same by (done || tauto). rewrite list_lookup_insert_ne in Hj by done. unfold upd_file. rewrite decide_False by done. by apply HD.
Qed.
End Append.

Lemma disk_append img img' free S fs i d c :
  slots_ok free S fs -> disk_ok img free S fs -> fs !! i = Some d -> (0 < length c)%nat -> Forall (fun x => 0 <= x < 256) c ->
  Z.of_nat (length c) <= 512 - Z.of_nat (length d) mod 512 -> Z.of_nat (length d) < 71680 ->
  let L := Z.of_nat (length d) in
  let '(f, free') := alloc_slots L free (S i) in
  free' <= 1024 ->
  (forall y, 0 <= y < 1024 -> y <> f (fslot (L / 512)) -> (f 12 <> 0 -> y <> f 12) -> img' y = img y) ->
  img' (f (fslot (L / 512))) = splice (img (f (fslot (L / 512)))) (L mod 512) c ->
  (f 12 <> 0 -> sector_ok (img' (f 12))) ->
  disk_ok img' free' (upd_file S i f) (<[i := d ++ c]> fs).
Proof.
  intros HS HD Hi Hc Hb Hcl HL L. pose proof (slots_append free S fs i d c HS Hi Hc Hcl HL) as HS'. fold L in HS', Hcl, HL.
  destruct (alloc_slots L free (S i)) as [f free'] eqn:Ea. intros. by apply (append_disk img img' free).
Qed.

(** ** Allocation *)
Definition islot (img : Z -> list Z) (d : dinode) (k : Z) : Z :=
  if k <=? 12 then get_addr (Z.to_nat k) d
  else if get_addr 12 d =? 0 then 0 else get32 (img (get_addr 12 d)) (4 * (k - 13)).

(** The inode has the slots [f]. *)
Record linked (img : Z -> list Z) (d : dinode) (f : Z -> Z) : Prop := {
  lk_addrs : length (d_addrs d) = 13%nat;
  lk_slot : forall k, 0 <= k < 141 -> islot img d k = f k }.

(** Two inodes with the same attributes. *)
Definition same_attrs (d d' : dinode) : Prop :=
  d_type d' = d_type d /\ d_major d' = d_major d /\ d_minor d' = d_minor d /\ d_nlink d' = d_nlink d /\ d_size d' = d_size d.

Lemma linked_direct img d f k : linked img d f -> 0 <= k <= 12 -> get_addr (Z.to_nat k) d = f k.
Proof. intros H Hk. rewrite <- (lk_slot _ _ _ H k) by lia. unfold islot. by replace (k <=? 12) with true by lia. Qed.
Lemma get_set_addr k k' a d : (k < length (d_addrs d))%nat -> get_addr k' (set_addr k a d) = if decide (k' = k) then a else get_addr k' d.
Proof.
  intros Hk. unfold get_addr, set_addr. cbn [d_addrs]. destruct (decide (k' = k)) as [->|Hne]; [by rewrite list_lookup_insert_eq|by rewrite list_lookup_insert_ne].
Qed.
(** A slot other than the indirect block. *)
Lemma linked_set img d f k a : linked img d f -> 0 <= k < 12 -> linked img (set_addr (Z.to_nat k) a d) (upd f k a).
Proof.
  intros [H1 H2] Hk. constructor; [unfold set_addr; cbn; by rewrite length_insert|]. intros k' Hk'. unfold upd, islot.
  rewrite !get_set_addr by lia. rewrite (decide_False (P := (12 = Z.to_nat k)%nat)) by lia. destruct (Z.eqb_spec k' k) as [->|Hne].
  - replace (k <=? 12) with true by lia. by rewrite decide_True.
  - rewrite <- (H2 k') by done. unfold islot. destruct (Z.leb_spec k' 12); [|done]. by rewrite decide_False by lia.
Qed.
(** The indirect block. *)
Lemma linked_set12 img d f a : linked img d f -> f 12 = 0 -> a <> 0 -> img a = zeroes -> linked img (set_addr 12 a d) (upd f 12 a).
Proof.
  intros H H0 Ha Hz. assert (Hd : get_addr 12 d = 0) by (change 12%nat with (Z.to_nat 12); rewrite (linked_direct _ _ _ _ H); [done|lia]).
  destruct H as [H1 H2]. constructor; [unfold set_addr; cbn; by rewrite length_insert|]. intros k Hk. unfold upd, islot. rewrite !get_set_addr by lia.
  rewrite (decide_True (P := (12 = 12)%nat)) by done. replace (a =? 0) with false by lia. rewrite Hz. unfold zeroes. rewrite get32_zero.
  destruct (Z.leb_spec k 12), (Z.eqb_spec k 12) as [->|]; try lia; [by rewrite decide_True| |].
  - rewrite decide_False by lia. rewrite <- (H2 k) by lia. unfold islot. by replace (k <=? 12) with true by lia.
  - rewrite <- (H2 k) by lia. unfold islot. replace (k <=? 12) with false by lia. by rewrite Hd.
Qed.
Lemma linked_entry img img' d f k a : linked img d f -> 13 <= k < 141 -> 0 <= a < 2 ^ 32 -> f 12 <> 0 -> length (img (f 12)) = 512%nat ->
  img' (f 12) = splice (img (f 12)) (4 * (k - 13)) (le32 a) -> linked img' d (upd f k a).
Proof.
  intros H Hk Ha H0 Hl Hi. assert (Hd : get_addr 12 d = f 12) by (change 12%nat with (Z.to_nat 12); rewrite (linked_direct _ _ _ _ H); [done|lia]).
  destruct H as [H1 H2]. constructor; [done|]. intros k' Hk'. unfold upd, islot. rewrite Hd. replace (f 12 =? 0) with false by lia. rewrite Hi.
  destruct (Z.leb_spec k' 12), (Z.eqb_spec k' k) as [->|]; try lia.
  - rewrite <- (H2 k') by lia. unfold islot. by replace (k' <=? 12) with true by lia.
  - apply get32_splice_in; lia.
  - rewrite get32_splice_out by (rewrite ?le32_length; lia). rewrite <- (H2 k') by lia. unfold islot. replace (k' <=? 12) with false by lia.
    rewrite Hd. by replace (f 12 =? 0) with false by lia.
Qed.
Lemma linked_get img d f k : linked img d f -> 13 <= k < 141 -> f 12 <> 0 -> get32 (img (f 12)) (4 * (k - 13)) = f k.
Proof.
  intros H Hk H0. assert (Hd : get_addr 12 d = f 12) by (change 12%nat with (Z.to_nat 12); rewrite (linked_direct _ _ _ _ H); [done|lia]).
  rewrite <- (lk_slot _ _ _ H k) by lia. unfold islot. replace (k <=? 12) with false by lia. rewrite Hd. by replace (f 12 =? 0) with false by lia.
Qed.

(** The image around the file that grows. *)
Record grows (s : mkst) (d : dinode) (f : Z -> Z) (L : Z) : Prop := {
  gr_link : linked (mk_img s) d f;
  gr_len : 0 <= L < 71680;
  gr_need : forall k, 0 <= k < 141 -> f k <> 0 <-> needed L k;
  gr_range : forall k, 0 <= k < 141 -> f k <> 0 -> 29 <= f k < freeblock s;
  gr_free : 29 <= freeblock s;
  gr_ext : mk_ext s = 1024;
  gr_sec : forall y, 0 <= y < 1024 -> sector_ok (mk_img s y);
  gr_zero : forall y, freeblock s <= y < 1024 -> mk_img s y = zeroes }.

Definition mapped (s : mkst) (d : dinode) (f : Z -> Z) (free bn : Z) (r : option (Z * dinode * mkst)) : Prop :=
  exists d' img', r = Some (f (fslot bn), d', mkMkst img' 1024 free (usedblocks s + (free - freeblock s)) (freeinode s)) /\
    linked img' d' f /\ same_attrs d d' /\
    (forall y, (f 12 <> 0 -> y <> f 12) -> img' y = mk_img s y) /\ (f 12 <> 0 -> f 12 < 1024 -> sector_ok (img' (f 12))).

Lemma mkst_eq s : mk_ext s = 1024 -> s = mkMkst (mk_img s) 1024 (freeblock s) (usedblocks s + (freeblock s - freeblock s)) (freeinode s).
Proof. intros <-. destruct s as [? ? ? u ?]; cbn. f_equal. lia. Qed.

Lemma map_block_direct s d f L : grows s d f L -> L / 512 < 12 ->
  let '(f', free') := alloc_slots L (freeblock s) f in free' <= 1024 -> mapped s d f' free' (L / 512) (map_block (L / 512) d s).
Proof.
  intros [Hlk HL Hneed Hr H29 Hext Hsec Hz] Hb. pose proof (Z.div_pos L 512 ltac:(lia) ltac:(lia)) as Hb0.
  pose proof (Z.div_mod L 512 ltac:(lia)) as Hdm. pose proof (Z.mod_pos_bound L 512 ltac:(lia)) as Hm.
  assert (Hs : fslot (L / 512) = L / 512) by (unfold fslot; change NDIRECT with 12; by replace (L / 512 <? 12) with true by lia).
  pose proof (Hneed (fslot (L / 512)) ltac:(lia)) as Hn. rewrite needed_fslot, Hs in Hn by lia.
  pose proof (linked_direct _ _ _ (L / 512) Hlk ltac:(lia)) as Hg.
  assert (H12 : f 12 <> 0 -> sector_ok (mk_img s (f 12)) \/ 1024 <= f 12) by (intros N; specialize (Hr 12 ltac:(lia) N); destruct (Z.lt_ge_cases (f 12) 1024); [left; apply Hsec; lia|by right]).
  unfold alloc_slots, map_block. change NDIRECT with 12. replace (L / 512 <? 12) with true by lia. replace (L / 512 =? 12) with false by lia. rewrite Hg, Hs.
  destruct (Z.eqb_spec (L mod 512) 0) as [E|E]; cbn [negb]; intros Hfree.
  - replace (f (L / 512)) with 0 by (destruct (Z.eq_dec (f (L / 512)) 0); [lia|tauto || lia]). cbn [take_block Z.eqb].
    eexists _, (mk_img s). rewrite Hs. split.
    { rewrite get_set_addr by (rewrite (lk_addrs _ _ _ Hlk); lia). rewrite decide_True by done. unfold upd at 1. rewrite Z.eqb_refl.
      rewrite Hext. do 3 f_equal. lia. }
    split; [by apply linked_set|]. split; [done|]. split; [done|]. unfold upd. replace (12 =? L / 512) with false by lia. intros N. destruct (H12 N); [done|lia].
  - replace (f (L / 512) =? 0) with false by (symmetry; apply Z.eqb_neq, Hn; lia). eexists _, (mk_img s). rewrite Hs, Hg. split; [by rewrite (mkst_eq s Hext) at 1|].
    split; [done|]. split; [done|]. split; [done|]. intros N. destruct (H12 N); [done|lia].
Qed.

Lemma map_block_indirect fbn din s : 12 <= fbn -> map_block fbn din s =
  let '(din, s) := if get_addr 12 din =? 0 then let '(a, s) := take_block s in (set_addr 12 a din, s) else (din, s) in map_entry fbn din s.
Proof. intros H. unfold map_block. change NDIRECT with 12. by replace (fbn <? 12) with false by lia. Qed.

Lemma map_entry_ok s d f bn : linked (mk_img s) d f -> 12 <= bn < 140 -> mk_ext s = 1024 -> f 12 <> 0 -> 0 <= f 12 < 1024 ->
  sector_ok (mk_img s (f 12)) -> 0 <= freeblock s < 2 ^ 32 ->
  (f (bn + 1) <> 0 -> mapped s d f (freeblock s) bn (map_entry bn d s)) /\
  (f (bn + 1) = 0 -> mapped s d (upd f (bn + 1) (freeblock s)) (freeblock s + 1) bn (map_entry bn d s)).
Proof.
  intros Hlk Hbn Hext H0 H12 [Hl Hby] Hfr.
  assert (Hd : get_addr 12 d = f 12) by (change 12%nat with (Z.to_nat 12); rewrite (linked_direct _ _ _ _ Hlk); [done|lia]).
  assert (Hs : fslot bn = bn + 1) by (unfold fslot; change NDIRECT with 12; by replace (bn <? 12) with false by lia).
  pose proof (linked_get _ _ _ (bn + 1) Hlk ltac:(lia) H0) as Hg. replace (bn + 1 - 13) with (bn - 12) in Hg by lia.
  unfold map_entry, rsect. rewrite Hd, Hext. replace (f 12 <? 1024) with true by lia. cbn [mbind option_bind]. change NDIRECT with 12. rewrite Hg.
  split; intros Hk; [replace (f (bn + 1) =? 0) with false by lia|rewrite Hk; cbn [Z.eqb take_block]].
  - eexists _, (mk_img s). rewrite Hg, Hs. split; [by rewrite (mkst_eq s Hext) at 1|]. done.
  - eexists _, (fun x => if x =? f 12 then splice (mk_img s (f 12)) (4 * (bn - 12)) (le32 (freeblock s)) else mk_img s x). rewrite Hs.
    assert (Hu12 : upd f (bn + 1) (freeblock s) 12 = f 12) by (unfold upd; by replace (12 =? bn + 1) with false by lia). split.
    { rewrite get32_splice_in by (rewrite ?Hl; lia). unfold upd at 1. rewrite Z.eqb_refl. unfold wsect. cbn. rewrite Hext. do 3 f_equal; lia. }
    split; [eapply linked_entry; [done|lia|lia|done|done|]; rewrite Z.eqb_refl; do 2 f_equal; lia|]. split; [done|]. rewrite Hu12. split.
    + intros y Hy. replace (y =? f 12) with false by (specialize (Hy H0); lia). done.
    + intros _ _. rewrite Z.eqb_refl. split; [rewrite splice_length; [done|lia|rewrite le32_length, Hl; lia]|apply splice_bytes; [done|apply le32_bytes]].
Qed.

Lemma map_block_ok s d f L : grows s d f L ->
  let '(f', free') := alloc_slots L (freeblock s) f in free' <= 1024 -> mapped s d f' free' (L / 512) (map_block (L / 512) d s).
Proof.
  intros HG. destruct (Z.lt_ge_cases (L / 512) 12) as [Hb|Hb]; [by apply map_block_direct|]. destruct HG as [Hlk HL Hneed Hr H29 Hext Hsec Hz].
  assert (Hb2 : L / 512 < 140) by (apply Z.div_lt_upper_bound; lia).
  pose proof (Z.div_mod L 512 ltac:(lia)) as Hdm. pose proof (Z.mod_pos_bound L 512 ltac:(lia)) as Hm.
  assert (Hs : fslot (L / 512) = L / 512 + 1) by (unfold fslot; change NDIRECT with 12; by replace (L / 512 <? 12) with false by lia).
  pose proof (Hneed (fslot (L / 512)) ltac:(lia)) as Hn. rewrite needed_fslot, Hs in Hn by lia.
  pose proof (Hneed 12 ltac:(lia)) as Hn12. unfold needed in Hn12. change (12 <? 12) with false in Hn12. change (12 =? 12) with true in Hn12. cbv iota in Hn12.
  assert (Hd : get_addr 12 d = f 12) by (change 12%nat with (Z.to_nat 12); rewrite (linked_direct _ _ _ _ Hlk); [done|lia]).
  unfold alloc_slots. rewrite map_block_indirect, Hd, Hs by lia.
  destruct (Z.eqb_spec (L mod 512) 0) as [E|E]; cbn [negb]; [destruct (Z.eqb_spec (L / 512) 12) as [E12|E12]|]; intros Hfree.
  - assert (f 12 = 0) as H0 by (destruct (Z.eq_dec (f 12) 0); [done|exfalso; tauto || lia]). rewrite H0. cbn [Z.eqb take_block]. rewrite E12 in *.
    assert (f 13 = 0) as H13 by (destruct (Z.eq_dec (f 13) 0); [done|exfalso; change (12 + 1) with 13 in *; lia]).
    pose proof (linked_set12 _ _ _ (freeblock s) Hlk H0 ltac:(lia) (Hz (freeblock s) ltac:(lia))) as Hlk'.
    edestruct (map_entry_ok (mkMkst (mk_img s) (mk_ext s) (freeblock s + 1) (usedblocks s + 1) (freeinode s)) _ _ 12 Hlk') as [_ M];
      try (unfold upd; cbn [Z.eqb Pos.eqb mk_img mk_ext freeblock]; first [lia|done|apply Hsec; lia]).
    destruct M as (d' & img' & -> & M2 & M3 & M4 & M5); [exact H13|]. cbn [freeblock usedblocks freeinode] in *. exists d', img'.
    change (12 + 1) with 13 in *. replace (freeblock s + 1 + 1) with (freeblock s + 2) by lia.
    split; [do 3 f_equal; lia|]. split; [done|]. split; [done|]. done.
  - assert (f 12 <> 0) as H0 by (apply Hn12; lia). replace (f 12 =? 0) with false by lia. pose proof (Hr 12 ltac:(lia) H0).
    destruct (map_entry_ok s d f (L / 512)) as [_ M]; try lia; try done; [apply Hsec; lia|]. apply M. destruct (Z.eq_dec (f (L / 512 + 1)) 0); [done|exfalso; lia].
  - assert (f 12 <> 0) as H0 by (apply Hn12; lia). replace (f 12 =? 0) with false by lia. pose proof (Hr 12 ltac:(lia) H0).
    destruct (map_entry_ok s d f (L / 512)) as [M _]; try lia; try done; [apply Hsec; lia|]. apply M, Hn. lia.
Qed.

(** ** Appending *)
Lemma linked_ext img img' d f : linked img d f -> (f 12 <> 0 -> img' (f 12) = img (f 12)) -> linked img' d f.
Proof.
  intros H He. assert (Hd : get_addr 12 d = f 12) by (change 12%nat with (Z.to_nat 12); rewrite (linked_direct _ _ _ _ H); [done|lia]).
  destruct H as [H1 H2]. constructor; [done|]. intros k Hk. rewrite <- (H2 k Hk). unfold islot. rewrite Hd. destruct (k <=? 12); [done|].
  destruct (Z.eqb_spec (f 12) 0); [done|]. by rewrite He.
Qed.

(** The image [s] with the files [fs], where the inode of the file [i] is [d]. *)
Record at_file (s : mkst) (S : nat -> Z -> Z) (fs : list (list Z)) (i : nat) (d : dinode) : Prop := {
  af_slots : slots_ok (freeblock s) S fs;
  af_disk : disk_ok (mk_img s) (freeblock s) S fs;
  af_ext : mk_ext s = 1024;
  af_used : usedblocks s = freeblock s;
  af_link : linked (mk_img s) d (S i) }.

(** What the append to the file [i] leaves alone: the sectors before the data blocks, and the
    blocks of the other files. *)
Record frame (s s' : mkst) (S S' : nat -> Z -> Z) (n i : nat) : Prop := {
  fr_low : forall y, y < 29 -> mk_img s' y = mk_img s y;
  fr_slots : forall j, j <> i -> S' j = S j;
  fr_ind : forall j, (j < n)%nat -> j <> i -> S j 12 <> 0 -> mk_img s' (S j 12) = mk_img s (S j 12);
  fr_ino : freeinode s' = freeinode s }.

Lemma grows_at s S fs i d data : at_file s S fs i d -> fs !! i = Some data -> Z.of_nat (length data) < 71680 -> grows s d (S i) (Z.of_nat (length data)).
Proof.
  intros [HS HD He Hu Hl] Hi HL. assert (Hil : (i < length fs)%nat) by by eapply lookup_lt_Some. constructor; [done|lia| | | |done|apply HD|apply HD].
  - intros k Hk. by apply (so_need _ _ _ HS).
  - intros k Hk. by apply (so_range _ _ _ HS).
  - rewrite (so_free _ _ _ HS). pose proof (total_pos fs). lia.
Qed.

(** The blocks of the file after the append. *)
Lemma slots_file free S fs i f data : slots_ok free (upd_file S i f) fs -> fs !! i = Some data -> forall bn, 0 <= bn < 140 -> bn * 512 < Z.of_nat (length data) ->
  29 <= f (fslot bn) < free /\ (f 12 <> 0 -> 29 <= f 12 < free /\ f (fslot bn) <> f 12) /\
  (forall j, (j < length fs)%nat -> j <> i -> S j 12 <> 0 -> S j 12 <> f (fslot bn) /\ (f 12 <> 0 -> S j 12 <> f 12)).
Proof.
  intros HS Hi bn Hbn Hlt. assert (Hil : (i < length fs)%nat) by by eapply lookup_lt_Some. pose proof (fslot_140 _ Hbn) as Hk. destruct (fslot_not_12 bn) as [Hk12 _]; [lia|].
  assert (U : forall k, upd_file S i f i k = f k) by (intros k; unfold upd_file; by rewrite decide_True).
  assert (U' : forall j k, j <> i -> upd_file S i f j k = S j k) by (intros j k Hne; unfold upd_file; by rewrite decide_False).
  assert (Hn : f (fslot bn) <> 0) by (rewrite <- U; apply (so_need _ _ _ HS i data); [done|done|]; rewrite needed_fslot; lia).
  split; [rewrite <- U; apply (so_range _ _ _ HS); [done|done|by rewrite U]|]. split.
  - intros N. split; [rewrite <- U; apply (so_range _ _ _ HS); [done|lia|by rewrite U]|]. rewrite <- !U. intros E.
    destruct (so_inj _ _ _ HS i (fslot bn) i 12); [done|done|lia|lia|by rewrite U|done|lia].
  - intros j Hj Hne N. split; [|intros N']; rewrite <- (U' j 12 Hne), <- U; intros E.
    + destruct (so_inj _ _ _ HS j 12 i (fslot bn)); [done|done|lia|lia|by rewrite U'|done|lia].
    + destruct (so_inj _ _ _ HS j 12 i 12); [done|done|lia|lia|by rewrite U'|done|lia].
Qed.

Lemma append_chunk s S fs i d data c : at_file s S fs i d -> fs !! i = Some data -> Z.of_nat (length data) < 71680 ->
  (0 < length c)%nat -> Forall (fun x => 0 <= x < 256) c -> Z.of_nat (length c) <= 512 - Z.of_nat (length data) mod 512 ->
  29 + total (<[i := data ++ c]> fs) <= 1024 ->
  let L := Z.of_nat (length data) in
  exists x d' s1 buf, map_block (L / 512) d s = Some (x, d', s1) /\ rsect x s1 = Some buf /\ same_attrs d d' /\
    let s2 := wsect x (splice buf (L mod 512) c) s1 in
    exists S', at_file s2 S' (<[i := data ++ c]> fs) i d' /\ frame s s2 S S' (length fs) i.
Proof.
  intros HA Hi HL Hc Hb Hcl Hfit L. pose proof (grows_at _ _ _ _ _ _ HA Hi HL) as HG. fold L in HG.
  destruct HA as [HS HD Hext Hu Hlk]. pose proof (map_block_ok s d (S i) L HG) as M.
  pose proof (slots_append _ _ _ _ _ c HS Hi Hc Hcl HL) as HS'. pose proof (disk_append (mk_img s)) as HDA.
  specialize (fun img' => HDA img' (freeblock s) S fs i data c HS HD Hi Hc Hb Hcl HL). cbv zeta in HDA. fold L in HS', HDA.
  destruct (alloc_slots L (freeblock s) (S i)) as [f free'] eqn:Ea.
  assert (Hil : (i < length fs)%nat) by by eapply lookup_lt_Some. pose proof (so_free _ _ _ HS') as Hfree'. destruct M as (d' & img' & EM & Hlk' & Hat & Hot & H12s); [lia|].
  pose proof (Z.div_mod L 512 ltac:(lia)) as Hdm. pose proof (Z.mod_pos_bound L 512 ltac:(lia)) as Hm.
  assert (Hbn : 0 <= L / 512 < 140) by (split; [apply Z.div_pos; lia|apply Z.div_lt_upper_bound; lia]).
  destruct (slots_file free' S _ i f (data ++ c) HS') with (bn := L / 512) as (Rx & R12 & Rj); [by rewrite list_lookup_insert_eq|done|rewrite length_app; lia|].
  rewrite length_insert in Rj. set (x := f (fslot (L / 512))) in *. eexists x, d', _, (mk_img s x).
  split; [exact EM|]. split; [unfold rsect; cbn [mk_ext mk_img]; replace (x <? 1024) with true by lia; rewrite Hot; [done|tauto]|]. split; [done|].
  cbv zeta. unfold wsect. cbn [mk_img mk_ext freeblock usedblocks freeinode].
  exists (upd_file S i f). split; [constructor; cbn [mk_img mk_ext freeblock usedblocks freeinode]|constructor; cbn [mk_img mk_ext freeblock usedblocks freeinode]].
  - done.
  - apply HDA; [lia| | |].
    + intros y Hy Hyx Hy12. replace (y =? x) with false by lia. by apply Hot.
    + by rewrite Z.eqb_refl.
    + intros N. destruct (R12 N). replace (f 12 =? x) with false by lia. apply H12s; [done|lia].
  - lia.
  - lia.
  - unfold upd_file. rewrite decide_True by done. eapply linked_ext; [exact Hlk'|]. intros N. destruct (R12 N). by replace (f 12 =? x) with false by lia.
  - intros y Hy. replace (y =? x) with false by lia. apply Hot. intros N. destruct (R12 N). lia.
  - intros j Hne. unfold upd_file. by rewrite decide_False.
  - intros j Hj Hne N. destruct (Rj j Hj Hne N). replace (S j 12 =? x) with false by lia. by apply Hot.
  - done.
Qed.

Lemma frame_refl s S n i : frame s s S S n i.
Proof. done. Qed.
Lemma frame_trans s1 s2 s3 S1 S2 S3 n i : frame s1 s2 S1 S2 n i -> frame s2 s3 S2 S3 n i -> frame s1 s3 S1 S3 n i.
Proof.
  intros [A1 A2 A3 A4] [B1 B2 B3 B4]. constructor; [intros y Hy; by rewrite B1, A1|intros j Hj; by rewrite B2, A2| |congruence].
  intros j Hj Hne N. pose proof (A2 j Hne) as E. rewrite <- A3 by done. specialize (B3 j Hj Hne). rewrite E in B3. by apply B3.
Qed.
Lemma same_attrs_trans d1 d2 d3 : same_attrs d1 d2 -> same_attrs d2 d3 -> same_attrs d1 d3.
Proof. unfold same_attrs. intuition congruence. Qed.
Lemma blocks_of_mono a b : 0 <= a <= b -> blocks_of a <= blocks_of b.
Proof.
  intros H. unfold blocks_of. pose proof (Z.div_le_mono (a + 511) (b + 511) 512 ltac:(lia) ltac:(lia)).
  destruct (Z.ltb_spec (12 * 512) a), (Z.ltb_spec (12 * 512) b); lia.
Qed.

Lemma iappend_loop_ok fuel : forall p s S fs i d data, at_file s S fs i d -> fs !! i = Some data -> (length p <= fuel)%nat ->
  Z.of_nat (length (data ++ p)) <= 71680 -> Forall (fun x => 0 <= x < 256) p -> 29 + total (<[i := data ++ p]> fs) <= 1024 ->
  exists d' s' S', iappend_loop fuel d (Z.of_nat (length data)) p s = Some (d', Z.of_nat (length (data ++ p)), s') /\ same_attrs d d' /\
    at_file s' S' (<[i := data ++ p]> fs) i d' /\ frame s s' S S' (length fs) i.
Proof.
  induction fuel as [|fuel IH]; intros p s S fs i d data HA Hi Hf Hmax Hb Hfit; (destruct p as [|c0 p0]; [rewrite app_nil_r, list_insert_id by done; by exists d, s, S|]); [cbn in Hf; lia|].
  set (p := c0 :: p0) in *. set (L := Z.of_nat (length data)). assert (Hp : (0 < length p)%nat) by (cbn; lia). rewrite length_app in Hmax.
  pose proof (Z.div_mod L 512 ltac:(lia)) as Hdm. pose proof (Z.mod_pos_bound L 512 ltac:(lia)) as Hm.
  assert (HL : L < 71680) by lia. assert (Hbn : L / 512 < 140) by (apply Z.div_lt_upper_bound; lia).
  set (n1 := Z.min (Z.of_nat (length p)) ((L / 512 + 1) * 512 - L)). set (c := take (Z.to_nat n1) p).
  assert (Hn1 : 1 <= n1 <= 512 - L mod 512 /\ n1 <= Z.of_nat (length p)) by lia.
  assert (Hc : length c = Z.to_nat n1) by (unfold c; rewrite length_take; lia).
  assert (Hpc : c ++ drop (Z.to_nat n1) p = p) by apply take_drop.
  destruct (append_chunk s S fs i d data c HA Hi HL) as (x & d1 & s1 & buf & EM & EB & Hat & S1 & HA1 & HF1); [lia|by apply Forall_take|fold L; lia| |].
  { rewrite (total_insert _ _ _ _ Hi), length_app. rewrite (total_insert _ _ _ _ Hi), length_app in Hfit.
    pose proof (blocks_of_mono (Z.of_nat (length data + length c)) (Z.of_nat (length data + length p)) ltac:(lia)). lia. }
  fold L in EM, HA1, HF1. set (s2 := wsect x _ s1) in *.
  assert (Hil : (i < length fs)%nat) by by eapply lookup_lt_Some.
  destruct (IH (drop (Z.to_nat n1) p) s2 S1 (<[i := data ++ c]> fs) i d1 (data ++ c) HA1) as (d2 & s3 & S3 & E3 & Hat2 & HA3 & HF3).
  { by rewrite list_lookup_insert_eq. }
  { rewrite length_drop. lia. }
  { rewrite <- app_assoc, Hpc, length_app. lia. }
  { by apply Forall_drop. }
  { by rewrite list_insert_insert_eq, <- app_assoc, Hpc. }
  rewrite list_insert_insert_eq, <- app_assoc, Hpc in HA3. rewrite length_insert in HF3. rewrite <- app_assoc, Hpc in E3.
  exists d2, s3, S3. split; [|split; [by eapply same_attrs_trans|split; [done|by eapply frame_trans]]].
  unfold p at 1. cbn [iappend_loop]. fold p. change MAXFILE with 140. replace (L / 512 <? 140) with true by lia. cbn [negb]. rewrite EM. cbn [mbind option_bind].
  rewrite EB. cbn [mbind option_bind]. fold n1. fold c. replace (L - L / 512 * 512) with (L mod 512) by lia. fold s2.
  replace (L + n1) with (Z.of_nat (length (data ++ c))) by (rewrite length_app; lia). exact E3.
Qed.
