(* ===== verification/MkfsProofs.v ===== *)
(** [tools/mkfs.c]: the image holds the tree of the host.

    The program runs in step with an abstract one on a list of files, which builds the tree; the
    image is then read as the disk of the kernel. *)
From S2P Require Import Prelude Types Mem UserMem Inode Fs FsBlocks FsFile FsWrite FsSpec Mkfs MkfsBlocks.

(** ** The image *)

(** The abstract files, by inode number from 1 on.  The size of a directory that is complete is
    rounded up. *)
Record afile := mkAfile { a_type : Z; a_data : list Z; a_closed : bool }.
Definition a_size (a : afile) : Z :=
  let n := Z.of_nat (length (a_data a)) in if a_closed a then (n / 512 + 1) * 512 else n.

Definition img_inode (img : Z -> list Z) (inum : Z) : dinode := dinode_get (img (i2b inum)) (DINODE * (inum mod IPB)).
Record inode_ok (img : Z -> list Z) (d : dinode) (f : Z -> Z) (a : afile) : Prop := {
  io_ok : dinode_ok d;
  io_link : linked img d f;
  io_type : d_type d = a_type a;
  io_nlink : d_nlink d = 1;
  io_size : d_size d = a_size a }.

Definition sb_sector : list Z := splice zeroes 0 (sb_bytes 1024 995 200).

(** All of the image but the inode [j]. *)
Record image_but (j : nat) (s : mkst) (S : nat -> Z -> Z) (A : list afile) : Prop := {
  ib_slots : slots_ok (freeblock s) S (a_data <$> A);
  ib_disk : disk_ok (mk_img s) (freeblock s) S (a_data <$> A);
  ib_ext : mk_ext s = 1024;
  ib_used : usedblocks s = freeblock s;
  ib_ino : freeinode s = 1 + Z.of_nat (length A);
  ib_max : (length A <= 199)%nat;
  ib_sb : mk_img s 1 = sb_sector;
  ib_inodes : forall i a, i <> j -> A !! i = Some a -> inode_ok (mk_img s) (img_inode (mk_img s) (Z.of_nat i + 1)) (S i) a }.
Definition image_ok (s : mkst) (S : nat -> Z -> Z) (A : list afile) : Prop :=
  image_but (length A) s S A.

Lemma image_inode s S A i a : image_ok s S A -> A !! i = Some a -> inode_ok (mk_img s) (img_inode (mk_img s) (Z.of_nat i + 1)) (S i) a.
Proof. intros H Hi. apply (ib_inodes _ _ _ _ H); [apply lookup_lt_Some in Hi; lia|done]. Qed.

Lemma low_ind free S A i a : slots_ok free S (a_data <$> A) -> A !! i = Some a -> S i 12 <> 0 -> 29 <= S i 12.
Proof.
  intros HS Hi N. apply (so_range _ _ _ HS i 12); [rewrite length_fmap; by eapply lookup_lt_Some|lia|done].
Qed.

Lemma winode_ok j s S A a d : image_but j s S A -> A !! j = Some a -> inode_ok (mk_img s) d (S j) a ->
  exists s', winode (Z.of_nat j + 1) d s = Some s' /\ image_ok s' S A.
Proof.
  intros [HS HD He Hu Hin Hmax Hsb HI] Hj HO. assert (Hjl : (j < length A)%nat) by by eapply lookup_lt_Some.
  set (inum := Z.of_nat j + 1). assert (Hblk : 2 <= i2b inum < 27) by (unfold i2b; change IPB with 8; unfold inum; Z.div_mod_to_equations; lia).
  assert (Hmod : 0 <= inum mod IPB < 8) by (change IPB with 8; apply Z.mod_pos_bound; lia).
  unfold winode, rsect. rewrite He. replace (i2b inum <? 1024) with true by lia. cbn [mbind option_bind]. eexists. split; [done|].
  destruct (dk_sec _ _ _ _ HD (i2b inum) ltac:(lia)) as [Hlen Hby]. pose proof (dinode_bytes_length d (do_addrs _ (io_ok _ _ _ _ HO))) as H64.
  pose proof (so_free _ _ _ HS) as Hfree. pose proof (total_pos (a_data <$> A)) as Htot. unfold wsect.
  assert (HX : forall i a' d', A !! i = Some a' -> inode_ok (mk_img s) d' (S i) a' ->
    inode_ok (fun x => if x =? i2b inum then splice (mk_img s (i2b inum)) (DINODE * (inum mod IPB)) (dinode_bytes d) else mk_img s x) d' (S i) a').
  { intros i a' d' Hi [O1 O2 O3 O4 O5]. constructor; [done| |done|done|done]. eapply linked_ext; [done|]. intros N. pose proof (low_ind _ _ _ _ _ HS Hi N).
    by replace (S i 12 =? i2b inum) with false by lia. }
  constructor; cbn [mk_img mk_ext freeblock usedblocks freeinode]; [done| |lia|done|done|done| |].
  - constructor.
    + intros y Hy. destruct (Z.eqb_spec y (i2b inum)); [|by apply HD]. split; [rewrite splice_length; [done|unfold DINODE; lia|unfold DINODE in *; lia]|apply splice_bytes; [done|apply dinode_bytes_range]].
    + intros y Hy. replace (y =? i2b inum) with false by lia. by apply HD.
    + intros i e o Hi Ho Hlt. rewrite <- (dk_data _ _ _ _ HD i e o Hi Ho Hlt). f_equal. pose proof (so_len _ _ _ HS i e Hi).
      assert (Hbn : 0 <= o / 512 < 140) by (pose proof (Z.div_pos o 512 ltac:(lia) ltac:(lia)); lia).
      pose proof (so_range _ _ _ HS i (fslot (o / 512)) ltac:(by eapply lookup_lt_Some) (fslot_140 _ Hbn)) as R.
      rewrite (so_need _ _ _ HS i e) in R by (done || by apply fslot_140). rewrite needed_fslot in R by lia. specialize (R Hlt).
      by replace (S i (fslot (o / 512)) =? i2b inum) with false by lia.
  - by replace (1 =? i2b inum) with false by lia.
  - intros i a' Hne Hi. unfold img_inode. destruct (decide (i = j)) as [->|Hij].
    + fold inum. rewrite Z.eqb_refl. rewrite dinode_splice by (try apply HO; unfold DINODE in *; lia). simplify_eq. by apply HX.
    + specialize (HI i a' Hij Hi). assert ((Z.of_nat i + 1) mod IPB < 8 /\ 0 <= (Z.of_nat i + 1) mod IPB) by (change IPB with 8; pose proof (Z.mod_pos_bound (Z.of_nat i + 1) 8); lia).
      destruct (Z.eqb_spec (i2b (Z.of_nat i + 1)) (i2b inum)) as [E|E]; [|by apply HX].
      rewrite dinode_splice_ne; [unfold img_inode in HI; rewrite E in HI; by apply HX|unfold DINODE in *; lia|unfold DINODE in *; lia|done|unfold DINODE in *; lia|].
      destruct (sb_same_inum_ne (Z.of_nat i + 1) inum) as [|]; [lia|lia|lia|unfold IBLOCK; unfold i2b in E; lia|by left|by right].
Qed.

Lemma rinode_eq j s S A : image_ok s S A -> (j < length A)%nat -> rinode (Z.of_nat j + 1) s = Some (img_inode (mk_img s) (Z.of_nat j + 1)).
Proof.
  intros H Hj. pose proof (ib_max _ _ _ _ H). unfold rinode, rsect. rewrite (ib_ext _ _ _ _ H).
  assert (i2b (Z.of_nat j + 1) < 1024) by (unfold i2b; change IPB with 8; Z.div_mod_to_equations; lia).
  by replace (i2b (Z.of_nat j + 1) <? 1024) with true by lia.
Qed.

(** The new attributes of an inode. *)
Lemma inode_attrs img d d' f a : dinode_ok d -> same_attrs d d' -> linked img d' f -> (forall k, 0 <= k < 141 -> f k <> 0 -> 29 <= f k < 1024) ->
  d_type d = a_type a -> d_nlink d = 1 -> 0 <= a_size a < 2 ^ 32 -> inode_ok img (set_dsize (a_size a) d') f a.
Proof.
  intros [D1 D2 D3 D4 D5 D6 D7] (T1 & T2 & T3 & T4 & T5) Hl Hr Ht Hn Hs. constructor; unfold set_dsize; cbn; [|by destruct Hl|congruence|congruence|done].
  constructor; cbn; [congruence|congruence|congruence|congruence|done|by apply Hl|]. apply Forall_lookup. intros k x Hx.
  assert (Hk : (k < 13)%nat) by (rewrite <- (lk_addrs _ _ _ Hl); by eapply lookup_lt_Some).
  pose proof (linked_direct _ _ _ (Z.of_nat k) Hl ltac:(lia)) as E. unfold get_addr in E. rewrite Nat2Z.id, Hx in E. cbn in E. subst x.
  destruct (Z.eq_dec (f (Z.of_nat k)) 0) as [->|N]; [lia|]. specialize (Hr (Z.of_nat k) ltac:(lia) N). lia.
Qed.

Definition a_append (p : list Z) (a : afile) : afile := mkAfile (a_type a) (a_data a ++ p) (a_closed a).

(** What fits on the image. *)
Definition fits (A : list afile) : Prop :=
  (length A <= 199)%nat /\ 29 + total (a_data <$> A) <= 1024 /\ forall i a, A !! i = Some a -> Z.of_nat (length (a_data a)) <= 71680.

Lemma iappend_ok j p s S A a : image_ok s S A -> A !! j = Some a -> a_closed a = false -> Forall (fun x => 0 <= x < 256) p ->
  fits (<[j := a_append p a]> A) -> exists s' S', iappend (Z.of_nat j + 1) p s = Some s' /\ image_ok s' S' (<[j := a_append p a]> A).
Proof.
  intros HI Hj Hcl Hp (_ & Hfit & Hlen). assert (Hjl : (j < length A)%nat) by by eapply lookup_lt_Some.
  pose proof (image_inode _ _ _ _ _ HI Hj) as HO. specialize (Hlen j _ ltac:(by rewrite list_lookup_insert_eq)). cbn [a_append a_data] in Hlen.
  rewrite list_fmap_insert in Hfit. cbn [a_append a_data] in Hfit. unfold iappend. rewrite (rinode_eq _ _ _ _ HI Hjl). cbn [mbind option_bind].
  set (d := img_inode _ _) in *. destruct HI as [HS HD He Hu Hin Hmax Hsb HI]. assert (Hjf : (a_data <$> A) !! j = Some (a_data a)) by (by rewrite list_lookup_fmap, Hj).
  destruct (iappend_loop_ok (length p) p s S (a_data <$> A) j d (a_data a)) as (d' & s' & S' & E & Hat & [B1 B2 B3 B4 B5] & [F1 F2 F3 F4]);
    [constructor; try done; apply HO|done|lia|done|done|done|]. rewrite length_fmap in F3.
  rewrite (io_size _ _ _ _ HO). unfold a_size at 1. rewrite Hcl. cbv iota zeta. rewrite E. cbn [mbind option_bind].
  assert (Hsz : Z.of_nat (length (a_data a ++ p)) = a_size (a_append p a)) by (unfold a_size, a_append; cbn; by rewrite Hcl). rewrite Hsz.
  destruct (winode_ok j s' S' (<[j := a_append p a]> A) (a_append p a) (set_dsize (a_size (a_append p a)) d')) as (s2 & -> & H2); [| | |by eauto].
  - constructor; rewrite ?list_fmap_insert, ?length_insert; cbn [a_append a_data]; try done; [congruence|by rewrite F1 by lia|].
    intros i b Hne Hi. rewrite list_lookup_insert_ne in Hi by done. specialize (HI i b ltac:(apply lookup_lt_Some in Hi; lia) Hi).
    assert (img_inode (mk_img s') (Z.of_nat i + 1) = img_inode (mk_img s) (Z.of_nat i + 1)) as ->.
    { unfold img_inode. rewrite F1; [done|]. apply lookup_lt_Some in Hi. unfold i2b. change IPB with 8. Z.div_mod_to_equations; lia. }
    rewrite F2 by done. destruct HI as [O1 O2 O3 O4 O5]. constructor; try done. eapply linked_ext; [done|]. intros N. apply F3; [by eapply lookup_lt_Some|done|done].
  - by rewrite list_lookup_insert_eq.
  - apply (inode_attrs _ d); [apply HO|done|done| |apply HO|apply HO|rewrite <- Hsz; lia].
    intros k Hk N. pose proof (so_range _ _ _ B1 j k ltac:(rewrite length_insert, length_fmap; lia) Hk N). rewrite (so_free _ _ _ B1) in H. lia.
Qed.

Definition a_close (a : afile) : afile := mkAfile (a_type a) (a_data a) true.

Lemma fix_size_ok j s S A a : image_ok s S A -> A !! j = Some a -> a_closed a = false ->
  exists s', fix_size (Z.of_nat j + 1) s = Some s' /\ image_ok s' S (<[j := a_close a]> A).
Proof.
  intros HI Hj Hcl. assert (Hjl : (j < length A)%nat) by by eapply lookup_lt_Some. pose proof (image_inode _ _ _ _ _ HI Hj) as HO.
  unfold fix_size. rewrite (rinode_eq _ _ _ _ HI Hjl). cbn [mbind option_bind]. set (d := img_inode _ _) in *. destruct HI as [HS HD He Hu Hin Hmax Hsb HI].
  assert (Ed : a_data <$> <[j := a_close a]> A = a_data <$> A).
  { rewrite list_fmap_insert. apply list_insert_id. by rewrite list_lookup_fmap, Hj. }
  pose proof (so_len _ _ _ HS j (a_data a) ltac:(by rewrite list_lookup_fmap, Hj)) as Hlen.
  assert (Hsz : (d_size d / BSIZE + 1) * BSIZE = a_size (a_close a)) by (rewrite (io_size _ _ _ _ HO); unfold a_size, a_close; cbn [a_data a_closed]; by rewrite Hcl).
  assert (Hb : 0 <= a_size (a_close a) < 2 ^ 32) by (unfold a_size, a_close; cbn [a_data a_closed]; Z.div_mod_to_equations; lia).
  rewrite Hsz. apply (winode_ok j s S (<[j := a_close a]> A) (a_close a)); [|by rewrite list_lookup_insert_eq|].
  - constructor; rewrite ?Ed, ?length_insert; try done. intros i b Hne Hi. rewrite list_lookup_insert_ne in Hi by done.
    apply HI; [apply lookup_lt_Some in Hi; lia|done].
  - destruct HO as [[D1 D2 D3 D4 D5 D6 D7] O2 O3 O4 O5]. constructor; [by constructor|by destruct O2|done|done|done].
Qed.

Lemma lookup_snoc_inv {X} (l : list X) (x y : X) i : (l ++ [x]) !! i = Some y -> l !! i = Some y /\ (i < length l)%nat \/ i = length l /\ y = x.
Proof.
  intros H. apply lookup_app_Some in H as [H|[Hl H]]; [left; split; [done|by eapply lookup_lt_Some]|right].
  apply list_lookup_singleton_Some in H as [? ->]. split; [lia|done].
Qed.
Lemma needed_0 k : 0 <= k -> ~ needed 0 k.
Proof. intros Hk. unfold needed. destruct (Z.ltb_spec k 12), (Z.eqb_spec k 12); lia. Qed.

(** A file without blocks. *)
Lemma slots_new free S fs : slots_ok free S fs -> slots_ok free (upd_file S (length fs) (fun _ => 0)) (fs ++ [[]]).
Proof.
  intros [H1 H2 H3 H4 H5].
  assert (U : forall i k, (i < length (fs ++ [[]]))%nat -> upd_file S (length fs) (fun _ => 0) i k <> 0 -> (i < length fs)%nat /\ upd_file S (length fs) (fun _ => 0) i k = S i k).
  { intros i k Hi. rewrite length_app in Hi. cbn in Hi. unfold upd_file. destruct (decide (i = length fs)); [done|]. split; [lia|done]. }
  constructor.
  - intros i d k Hi Hk. unfold upd_file. apply lookup_snoc_inv in Hi as [[Hi Hl]|[-> ->]]; [rewrite decide_False by lia; by apply H1|].
    rewrite decide_True by done. split; [done|]. intros N. by apply needed_0 in N; [|lia].
  - intros i k Hi Hk N. destruct (U i k Hi N) as [Hl E]. rewrite E in *. by apply H2.
  - intros i k i' k' Hi Hi' Hk Hk' N E. destruct (U i k Hi N) as [Hl E1]. rewrite E in N. destruct (U i' k' Hi' N) as [Hl' E2]. rewrite E1, E2 in E. rewrite E2, <- E in N.
    by apply H3.
  - rewrite H4, total_app. change (blocks_of (Z.of_nat (length (A := Z) []))) with 0. lia.
  - intros i d Hi. apply lookup_snoc_inv in Hi as [[Hi Hl]|[-> ->]]; [by eapply H5|cbn; lia].
Qed.
Lemma disk_new img free S fs : disk_ok img free S fs -> disk_ok img free (upd_file S (length fs) (fun _ => 0)) (fs ++ [[]]).
Proof.
  intros [H1 H2 H3]. constructor; [done|done|]. intros i d o Hi Ho Hlt. unfold upd_file. apply lookup_snoc_inv in Hi as [[Hi Hl]|[-> ->]].
  - rewrite decide_False by lia. by apply H3.
  - cbn in Hlt. pose proof (Z.div_pos o 512 ltac:(lia) ltac:(lia)). lia.
Qed.

Lemma ialloc_ok ty s S A : image_ok s S A -> (length A < 199)%nat -> - 2 ^ 15 <= ty < 2 ^ 15 ->
  exists s', mk_ialloc ty s = Some (Z.of_nat (length A) + 1, s') /\
    image_ok s' (upd_file S (length A) (fun _ => 0)) (A ++ [mkAfile ty [] false]).
Proof.
  intros HI Hl Hty. destruct HI as [HS HD He Hu Hin Hmax Hsb HI]. unfold mk_ialloc. rewrite Hin. rewrite (Z.add_comm 1).
  pose proof (slots_new _ _ _ HS) as HS'. pose proof (disk_new _ _ _ _ HD) as HD'. rewrite length_fmap in HS', HD'.
  edestruct (winode_ok (length A) (mkMkst (mk_img s) (mk_ext s) (freeblock s) (usedblocks s) (Z.of_nat (length A) + 1 + 1)) (upd_file S (length A) (fun _ => 0))
    (A ++ [mkAfile ty [] false]) (mkAfile ty [] false) (mkDinode ty 0 0 1 0 (replicate 13 0))) as (s' & -> & H'); [| | |by eauto].
  - constructor; rewrite ?fmap_app; cbn [mk_img mk_ext freeblock usedblocks freeinode]; rewrite ?length_app; cbn [length]; try done; [lia|lia|].
    intros i a Hne Hi. apply lookup_snoc_inv in Hi as [[Hi Hl']|[-> _]]; [|done]. unfold upd_file. rewrite decide_False by done. by apply HI.
  - by apply list_lookup_middle.
  - unfold upd_file. rewrite decide_True by done. constructor; [by constructor; cbn; try lia; repeat constructor|constructor; [done|]|done|done|done].
    intros k Hk. unfold islot, get_addr. cbn [d_addrs]. change (replicate 13 0 !! 12%nat) with (Some 0). cbn [default Z.eqb]. destruct (Z.leb_spec k 12); [|done].
    by rewrite lookup_replicate_2 by lia.
Qed.

(** ** The tree *)
Fixpoint host_ind' (P : host -> Prop) (HF : forall reads, P (HFile reads)) (HD : forall entries, Forall (fun e => P (snd e)) entries -> P (HDir entries)) (h : host) : P h :=
  match h with
  | HFile reads => HF reads
  | HDir entries => HD entries ((fix all es : Forall (fun e => P (snd e)) es :=
      match es with [] => Forall_nil_2 _ | e :: es => Forall_cons_2 _ _ _ (host_ind' P HF HD (snd e)) (all es) end) entries)
  end.

(** The same program on the abstract files. *)
Definition a_dirent (n : nat) (name : list Z) : list Z := mk_dirent (Z.of_nat n + 1) name.
Section AEntries.
  Context (rec : host -> nat -> nat -> list afile -> list afile).
Fixpoint a_entries (entries : list (list Z * host)) (cur : nat) (A : list afile) : list afile :=
  match entries with
  | [] => A
  | (name, child) :: rest =>
      if is_dots name then a_entries rest cur A
      else
        let n := length A in
        let A := match child with
                 | HDir _ => rec child n cur (A ++ [mkAfile T_DIR [] false])
                 | HFile reads => A ++ [mkAfile T_FILE (concat reads) false]
                 end in
        a_entries rest cur (alter (a_append (a_dirent n name)) cur A)
  end.
End AEntries.
Fixpoint a_add_dir (h : host) (cur parent : nat) (A : list afile) : list afile :=
  let A := alter (a_append (a_dirent cur dot ++ a_dirent parent dotdot)) cur A in
  match h with
  | HFile _ => A
  | HDir entries => alter a_close cur (a_entries a_add_dir entries cur A)
  end.

(** The tree of the host is in the files, with the file [n] as its root. *)
Section TEntries.
  Context (rec : host -> nat -> nat -> Prop).
Fixpoint tree_entries (entries : list (list Z * host)) (cur : nat) (data : list Z) : Prop :=
  match entries with
  | [] => data = []
  | (name, child) :: rest =>
      if is_dots name then tree_entries rest cur data
      else exists n data', data = a_dirent n name ++ data' /\ (cur < n)%nat /\ rec child n cur /\ tree_entries rest cur data'
  end.
End TEntries.
Fixpoint tree_in (A : list afile) (h : host) (n parent : nat) : Prop :=
  match h with
  | HFile reads => A !! n = Some (mkAfile T_FILE (concat reads) false)
  | HDir entries => exists data, A !! n = Some (mkAfile T_DIR (a_dirent n dot ++ a_dirent parent dotdot ++ data) true) /\
      tree_entries (tree_in A) entries n data
  end.

Lemma tree_in_later A A' h : forall n parent, tree_in A h n parent -> (forall i a, (n <= i)%nat -> A !! i = Some a -> A' !! i = Some a) -> tree_in A' h n parent.
Proof.
  induction h as [reads|entries IH] using host_ind'; intros n parent H HA; cbn [tree_in] in *; [by apply HA|].
  destruct H as (data & Hn & HE). exists data. split; [by apply HA|]. clear Hn. revert data HE.
  induction IH as [|[name child] es Hc _ IHes]; intros data HE; cbn [tree_entries] in *; [done|]. destruct (is_dots name); [by apply IHes|].
  destruct HE as (k & data' & -> & Hk & Ht & HE). exists k, data'. split; [done|]. split; [done|]. split; [|by apply IHes].
  apply (Hc k n Ht). intros i a Hi. apply HA. lia.
Qed.

(** What a step of the program does to the other files. *)
Definition others (cur : nat) (A A' : list afile) : Prop :=
  (length A <= length A')%nat /\ forall i, (i < length A)%nat -> i <> cur -> A' !! i = A !! i.
Lemma others_trans cur A1 A2 A3 : others cur A1 A2 -> others cur A2 A3 -> others cur A1 A3.
Proof. intros [L1 O1] [L2 O2]. split; [lia|]. intros i Hi Hne. rewrite O2 by lia. by apply O1. Qed.
Lemma others_alter cur f A : others cur A (alter f cur A).
Proof. split; [by rewrite length_alter|]. intros i _ Hne. by rewrite list_lookup_alter_ne. Qed.
Lemma others_app cur A a : others cur A (A ++ [a]).
Proof. split; [rewrite length_app; lia|]. intros i Hi _. by rewrite lookup_app_l. Qed.

Definition dir_spec (h : host) : Prop := forall cur parent A a, A !! cur = Some a ->
  let A' := a_add_dir h cur parent A in
  others cur A A' /\ (exists data c, A' !! cur = Some (mkAfile (a_type a) (a_data a ++ data) c)) /\
  (a = mkAfile T_DIR [] false -> match h with HDir _ => tree_in A' h cur parent | HFile _ => True end).

Lemma a_entries_spec es : Forall (fun e => dir_spec (snd e)) es -> forall cur A a, A !! cur = Some a ->
  let A' := a_entries a_add_dir es cur A in
  others cur A A' /\ exists data, A' !! cur = Some (a_append data a) /\ tree_entries (tree_in A') es cur data.
Proof.
  induction 1 as [|[name child] es Hc _ IH]; intros cur A a Hcur; cbn [a_entries tree_entries].
  { split; [done|]. exists []. split; [|done]. rewrite Hcur. unfold a_append. rewrite app_nil_r. by destruct a. }
  destruct (is_dots name); [by apply IH|]. assert (Hl : (cur < length A)%nat) by by eapply lookup_lt_Some.
  set (A1 := match child with HFile reads => _ | HDir _ => _ end).
  assert (H1 : (forall i, (i < length A)%nat -> A1 !! i = A !! i) /\ (length A < length A1)%nat /\ tree_in A1 child (length A) cur).
  { assert (Hn : forall x, (A ++ [x]) !! length A = Some x) by (intros; by apply list_lookup_middle). unfold A1. destruct child as [reads|es'].
    - split; [intros i Hi; by rewrite lookup_app_l|]. split; [rewrite length_app; cbn; lia|]. apply Hn.
    - destruct (Hc (length A) cur (A ++ [mkAfile T_DIR [] false]) _ (Hn _)) as ([L O] & _ & T). rewrite length_app in L, O. cbn [length] in L, O.
      split; [|split; [cbn [snd] in *; lia|by apply T]]. intros i Hi. cbn [snd] in O. rewrite O by lia. by rewrite lookup_app_l. }
  clearbody A1. destruct H1 as (O1 & L1 & T1). set (A2 := alter (a_append (a_dirent (length A) name)) cur A1).
  destruct (IH cur A2 (a_append (a_dirent (length A) name) a)) as ([L2 O2] & data & E2 & T2); [unfold A2; by rewrite list_lookup_alter_eq, O1, Hcur by done|].
  unfold A2 in L2, O2. rewrite length_alter in L2, O2. fold A2 in L2, O2. split.
  - split; [lia|]. intros i Hi Hne. rewrite O2 by lia. unfold A2. rewrite list_lookup_alter_ne by done. by apply O1.
  - exists (a_dirent (length A) name ++ data). split; [rewrite E2; unfold a_append; cbn; by rewrite <- app_assoc|]. exists (length A), data.
    split; [done|]. split; [lia|]. split; [|done]. eapply tree_in_later; [done|]. intros i x Hi Hx. rewrite O2 by (apply lookup_lt_Some in Hx; lia).
    unfold A2. by rewrite list_lookup_alter_ne by lia.
Qed.

Lemma a_add_dir_spec h : dir_spec h.
Proof.
  induction h as [reads|entries IH] using host_ind'; intros cur parent A a Hcur.
  - cbn [a_add_dir]. split; [apply others_alter|]. split; [|done]. rewrite list_lookup_alter_eq, Hcur. cbn [fmap option_fmap option_map]. unfold a_append. eauto.
  - cbn [a_add_dir]. set (A1 := alter _ cur A). set (hd := a_dirent cur dot ++ a_dirent parent dotdot) in *.
    destruct (a_entries_spec entries IH cur A1 (a_append hd a)) as (O & data & E & T); [unfold A1; by rewrite list_lookup_alter_eq, Hcur|].
    split; [eapply others_trans; [apply others_alter|eapply others_trans; [exact O|apply others_alter]]|].
    assert (E' : alter a_close cur (a_entries a_add_dir entries cur A1) !! cur = Some (a_close (a_append data (a_append hd a)))) by (by rewrite list_lookup_alter_eq, E).
    split; [exists (hd ++ data), true; rewrite E'; unfold a_close, a_append; cbn [a_type a_data a_closed]; by rewrite app_assoc|].
    intros ->. exists data. split; [rewrite E'; unfold a_close, a_append, hd; cbn [a_type a_data app]; by rewrite app_assoc|].
    clear -T. set (A2 := a_entries a_add_dir entries cur A1) in *. clearbody A2. revert data T. induction entries as [|[name child] es IH]; intros data T; cbn [tree_entries] in *; [done|].
    destruct (is_dots name); [by apply IH|]. destruct T as (n & data' & -> & Hn & T & TE). exists n, data'. split; [done|]. split; [done|]. split; [|by apply IH].
    eapply tree_in_later; [done|]. intros i x Hi Hx. by rewrite list_lookup_alter_ne by lia.
Qed.

(** ** The program follows the abstract one *)
Definition ale (A A' : list afile) : Prop := forall i a, A !! i = Some a -> exists a', A' !! i = Some a' /\ (length (a_data a) <= length (a_data a'))%nat.
Lemma ale_total A : forall A', ale A A' -> total (a_data <$> A) <= total (a_data <$> A').
Proof.
  induction A as [|a A IH]; intros A' H; [apply total_pos|]. destruct (H 0%nat a eq_refl) as (a' & E & Hl). destruct A' as [|b A']; [done|]. injection E as ->.
  rewrite !fmap_cons, !total_cons. pose proof (blocks_of_mono (Z.of_nat (length (a_data a))) (Z.of_nat (length (a_data a'))) ltac:(lia)).
  specialize (IH A' (fun i x Hx => H (Datatypes.S i) x Hx)). lia.
Qed.
Lemma fits_le A A' : fits A' -> ale A A' -> fits A.
Proof.
  intros (F1 & F2 & F3) H. split_and!.
  - destruct A as [|a0 A0 _] using rev_ind; [cbn; lia|]. destruct (H (length A0) a0) as (a' & E & _); [by apply list_lookup_middle|].
    apply lookup_lt_Some in E. rewrite length_app. cbn. lia.
  - pose proof (ale_total _ _ H). lia.
  - intros i a Hi. destruct (H i a Hi) as (a' & E & Hl). specialize (F3 i a' E). lia.
Qed.
Lemma ale_trans A1 A2 A3 : ale A1 A2 -> ale A2 A3 -> ale A1 A3.
Proof. intros H1 H2 i a Hi. destruct (H1 i a Hi) as (b & Hb & ?). destruct (H2 i b Hb) as (c & Hc & ?). exists c. split; [done|lia]. Qed.
Lemma ale_others cur A A' a data c ty : others cur A A' -> A !! cur = Some a -> A' !! cur = Some (mkAfile ty (a_data a ++ data) c) -> ale A A'.
Proof.
  intros [_ O] Hc Hc' i b Hi. destruct (decide (i = cur)) as [->|Hne].
  - simplify_eq. eexists. split; [done|]. cbn. rewrite length_app. lia.
  - exists b. split; [|lia]. rewrite O; [done|by eapply lookup_lt_Some|done].
Qed.
Lemma alter_eq {X} (f : X -> X) j (A : list X) a : A !! j = Some a -> alter f j A = <[j := f a]> A.
Proof. intros H. apply list_eq. intros i. destruct (decide (i = j)) as [->|Hne]; [rewrite list_lookup_alter_eq, list_lookup_insert_eq, H by (by eapply lookup_lt_Some); done|by rewrite list_lookup_alter_ne, list_lookup_insert_ne]. Qed.
Lemma a_append_append p q (j : nat) (A : list afile) :
  alter (a_append q) j (alter (a_append p) j A) = alter (a_append (p ++ q)) j A.
Proof.
  apply list_eq. intros i. destruct (decide (i = j)) as [->|Hne]; [|by rewrite !list_lookup_alter_ne].
  rewrite !list_lookup_alter_eq. destruct (A !! j) as [a|]; [|done]. cbn. unfold a_append. cbn [a_type a_data a_closed]. by rewrite app_assoc.
Qed.
Lemma ale_append p (j : nat) A : ale A (alter (a_append p) j A).
Proof.
  intros i a Hi. destruct (decide (i = j)) as [->|Hne]; [|exists a; rewrite list_lookup_alter_ne by done; done].
  exists (a_append p a). rewrite list_lookup_alter_eq, Hi. split; [done|]. cbn. rewrite length_app. lia.
Qed.

Lemma iappend_alter j p s S A a : image_ok s S A -> A !! j = Some a -> a_closed a = false -> Forall (fun x => 0 <= x < 256) p ->
  fits (alter (a_append p) j A) -> exists s' S', iappend (Z.of_nat j + 1) p s = Some s' /\ image_ok s' S' (alter (a_append p) j A).
Proof. intros HI Hj Hc Hp. rewrite (alter_eq _ _ _ _ Hj). by eapply iappend_ok. Qed.

Lemma iappend_all_ok reads : forall j s S A a, image_ok s S A -> A !! j = Some a -> a_closed a = false -> Forall (Forall (fun x => 0 <= x < 256)) reads ->
  fits (alter (a_append (concat reads)) j A) -> exists s' S', iappend_all (Z.of_nat j + 1) reads s = Some s' /\ image_ok s' S' (alter (a_append (concat reads)) j A).
Proof.
  induction reads as [|p reads IH]; intros j s S A a HI Hj Hc Hb Hf; cbn [concat] in *.
  { exists s, S. split; [done|]. rewrite (alter_eq _ _ _ _ Hj), list_insert_id; [done|]. rewrite Hj. unfold a_append. rewrite app_nil_r. by destruct a. }
  apply Forall_cons in Hb as [Hp Hb]. rewrite <- a_append_append in Hf |- *.
  destruct (iappend_alter j p s S A a HI Hj Hc Hp) as (s1 & S1 & E1 & HI1); [eapply fits_le; [exact Hf|apply ale_append]|].
  destruct (IH j s1 S1 _ (a_append p a) HI1) as (s2 & S2 & E2 & HI2); [by rewrite list_lookup_alter_eq, Hj|done|done|done|].
  exists s2, S2. split; [|done]. unfold iappend_all in *. cbn [foldl mbind option_bind]. by rewrite E1.
Qed.

(** The names and the contents are bytes. *)
Fixpoint host_bytes (h : host) : Prop :=
  match h with
  | HFile reads => Forall (Forall (fun x => 0 <= x < 256)) reads
  | HDir entries => foldr (fun e P => Forall (fun x => 0 <= x < 256) (fst e) /\ host_bytes (snd e) /\ P) True entries
  end.

Lemma dirent_bytes n name : Forall (fun x => 0 <= x < 256) name -> Forall (fun x => 0 <= x < 256) (a_dirent n name).
Proof.
  intros H. unfold a_dirent, mk_dirent. apply Forall_app. split; [unfold le16; repeat constructor; apply u8_range|]. apply Forall_take, Forall_app. split; [done|].
  apply Forall_replicate. lia.
Qed.

Definition follows (h : host) : Prop := forall cur parent s S A a, image_ok s S A -> A !! cur = Some a -> a_closed a = false -> host_bytes h ->
  fits (a_add_dir h cur parent A) -> exists s' S', add_dir h (Z.of_nat cur + 1) (Z.of_nat parent + 1) s = Some s' /\ image_ok s' S' (a_add_dir h cur parent A).

Lemma ale_add_dir h cur parent A a : A !! cur = Some a -> ale A (a_add_dir h cur parent A).
Proof. intros H. destruct (a_add_dir_spec h cur parent A a H) as (O & (data & c & E) & _). by eapply ale_others. Qed.
Lemma ale_entries es cur A a : A !! cur = Some a -> ale A (a_entries a_add_dir es cur A).
Proof.
  intros H. destruct (a_entries_spec es) with (cur := cur) (A := A) (a := a) as (O & data & E & _); [by apply Forall_true; intros e; apply a_add_dir_spec|done|].
  by eapply ale_others.
Qed.
Lemma ale_refl A : ale A A.
Proof. intros i a Hi. exists a. split; [done|lia]. Qed.
Lemma ale_close j A : ale A (alter a_close j A).
Proof.
  intros i a Hi. destruct (decide (i = j)) as [->|Hne]; [|exists a; rewrite list_lookup_alter_ne by done; done].
  exists (a_close a). rewrite list_lookup_alter_eq, Hi. done.
Qed.

Lemma fits_snoc A a A' : fits A' -> ale (A ++ [a]) A' -> (length A < 199)%nat.
Proof. intros HF HL. destruct (fits_le _ _ HF HL) as [H _]. rewrite length_app in H. cbn in H. lia. Qed.

(** One child. *)
Lemma child_follows child cur s S A a : follows child -> image_ok s S A -> A !! cur = Some a -> host_bytes child ->
  let A1 := match child with
            | HDir _ => a_add_dir child (length A) cur (A ++ [mkAfile T_DIR [] false])
            | HFile reads => A ++ [mkAfile T_FILE (concat reads) false]
            end in
  fits A1 -> exists s' S', match child with
                          | HDir _ => '(inum, s) ← mk_ialloc T_DIR s; s ← add_dir child inum (Z.of_nat cur + 1) s; Some (inum, s)
                          | HFile reads => '(inum, s) ← mk_ialloc T_FILE s; s ← iappend_all inum reads s; Some (inum, s)
                          end = Some (Z.of_nat (length A) + 1, s') /\ image_ok s' S' A1.
Proof.
  intros HC HI Hcur HB A1 HF. assert (Hn : forall x, (A ++ [x]) !! length A = Some x) by (intros; by apply list_lookup_middle). destruct child as [reads|es].
  - assert (EA : A1 = alter (a_append (concat reads)) (length A) (A ++ [mkAfile T_FILE [] false])).
    { rewrite (alter_eq _ _ _ _ (Hn _)). unfold A1, a_append. cbn [a_type a_data a_closed app]. by rewrite insert_app_r_alt, Nat.sub_diag by lia. }
    destruct (ialloc_ok T_FILE s S A HI) as (s1 & -> & HI1); [eapply fits_snoc; [exact HF|]; rewrite EA; apply ale_append|done|]. cbn [mbind option_bind].
    destruct (iappend_all_ok reads (length A) s1 _ _ _ HI1 (Hn _)) as (s2 & S2 & -> & HI2); [done|done|by rewrite <- EA|]. rewrite <- EA in HI2. cbn [mbind option_bind]. eauto.
  - destruct (ialloc_ok T_DIR s S A HI) as (s1 & -> & HI1); [eapply fits_snoc; [exact HF|]; eapply ale_add_dir, Hn|done|]. cbn [mbind option_bind].
    destruct (HC (length A) cur s1 _ _ _ HI1 (Hn _)) as (s2 & S2 & -> & HI2); [done|done|done|]. cbn [mbind option_bind]. eauto.
Qed.
Lemma child_keeps child cur A a : A !! cur = Some a ->
  match child with
  | HDir _ => a_add_dir child (length A) cur (A ++ [mkAfile T_DIR [] false])
  | HFile reads => A ++ [mkAfile T_FILE (concat reads) false]
  end !! cur = Some a.
Proof.
  intros Hcur. assert (Hl : (cur < length A)%nat) by by eapply lookup_lt_Some. destruct child as [reads|es]; [by rewrite lookup_app_l|].
  destruct (a_add_dir_spec (HDir es) (length A) cur (A ++ [mkAfile T_DIR [] false]) (mkAfile T_DIR [] false)) as ([_ O] & _); [by apply list_lookup_middle|].
  rewrite O by (rewrite ?length_app; lia). by rewrite lookup_app_l.
Qed.

Lemma entries_follow es : Forall (fun e => follows (snd e)) es -> forall cur s S A a, image_ok s S A -> A !! cur = Some a -> a_closed a = false ->
  host_bytes (HDir es) -> fits (a_entries a_add_dir es cur A) ->
  exists s' S', add_entries add_dir es (Z.of_nat cur + 1) s = Some s' /\ image_ok s' S' (a_entries a_add_dir es cur A).
Proof.
  induction 1 as [|[name child] es Hc _ IH]; intros cur s S A a HI Hcur Hcl HB HF; cbn [a_entries add_entries] in *; [by eauto|].
  cbn [host_bytes foldr fst snd] in *. destruct HB as (Hname & HBc & HB). destruct (is_dots name); [by eapply IH|].
  pose proof (child_follows child cur s S A a Hc HI Hcur HBc) as HCF. pose proof (child_keeps child cur A a Hcur) as HCK. cbv zeta in HCF.
  set (A1 := match child with HFile reads => _ | HDir _ => _ end) in *. clearbody A1.
  set (A2 := alter (a_append (a_dirent (length A) name)) cur A1) in *.
  assert (H2 : A2 !! cur = Some (a_append (a_dirent (length A) name) a)) by (unfold A2; by rewrite list_lookup_alter_eq, HCK).
  assert (HF2 : fits A2) by (eapply fits_le; [exact HF|by eapply ale_entries]).
  destruct HCF as (s1 & S1 & -> & HI1); [eapply fits_le; [exact HF2|apply ale_append]|]. cbn [mbind option_bind].
  destruct (iappend_alter cur (a_dirent (length A) name) s1 S1 A1 a HI1 HCK Hcl (dirent_bytes _ _ Hname) HF2) as (s2 & S2 & E2 & HI2).
  unfold a_dirent in E2. rewrite E2. cbn [mbind option_bind]. by eapply IH.
Qed.

Lemma dots_follow cur parent s S A a : image_ok s S A -> A !! cur = Some a -> a_closed a = false ->
  fits (alter (a_append (a_dirent cur dot ++ a_dirent parent dotdot)) cur A) ->
  exists s1 s2 S2, iappend (Z.of_nat cur + 1) (mk_dirent (Z.of_nat cur + 1) dot) s = Some s1 /\
    iappend (Z.of_nat cur + 1) (mk_dirent (Z.of_nat parent + 1) dotdot) s1 = Some s2 /\
    image_ok s2 S2 (alter (a_append (a_dirent cur dot ++ a_dirent parent dotdot)) cur A).
Proof.
  intros HI Hcur Hcl. rewrite <- a_append_append. intros HF.
  assert (Hd : Forall (fun x => 0 <= x < 256) dot /\ Forall (fun x => 0 <= x < 256) dotdot) by (split; repeat constructor; lia).
  destruct (iappend_alter cur (a_dirent cur dot) s S A a HI Hcur Hcl) as (s1 & S1 & E1 & HI1); [apply dirent_bytes, Hd|eapply fits_le; [exact HF|apply ale_append]|].
  destruct (iappend_alter cur (a_dirent parent dotdot) s1 S1 _ (a_append (a_dirent cur dot) a) HI1) as (s2 & S2 & E2 & HI2); [by rewrite list_lookup_alter_eq, Hcur|done|apply dirent_bytes, Hd|done|].
  by exists s1, s2, S2.
Qed.

Lemma add_dir_follows h : follows h.
Proof.
  induction h as [reads|es IH] using host_ind'; intros cur parent s S A a HI Hcur Hcl HB HF; cbn [a_add_dir add_dir] in *.
  - destruct (dots_follow cur parent s S A a HI Hcur Hcl HF) as (s1 & s2 & S2 & -> & E2 & HI2). cbn [mbind option_bind]. rewrite E2. cbn [mbind option_bind]. eauto.
  - set (A2 := alter (a_append (a_dirent cur dot ++ a_dirent parent dotdot)) cur A) in *. set (a2 := a_append (a_dirent cur dot ++ a_dirent parent dotdot) a).
    assert (H2 : A2 !! cur = Some a2) by (unfold A2; by rewrite list_lookup_alter_eq, Hcur).
    assert (HF3 : fits (a_entries a_add_dir es cur A2)) by (eapply fits_le; [exact HF|apply ale_close]).
    destruct (dots_follow cur parent s S A a HI Hcur Hcl) as (s1 & s2 & S2 & -> & E2 & HI2); [eapply fits_le; [exact HF3|by eapply ale_entries]|].
    cbn [mbind option_bind]. rewrite E2. cbn [mbind option_bind]. 
    destruct (entries_follow es IH cur s2 S2 A2 a2 HI2 H2 Hcl HB HF3) as (s3 & S3 & -> & HI3). cbn [mbind option_bind].
    destruct (a_entries_spec es) with (cur := cur) (A := A2) (a := a2) as (_ & data & E & _); [by apply Forall_true; intros e; apply a_add_dir_spec|done|].
    destruct (fix_size_ok cur s3 S3 _ _ HI3 E Hcl) as (s4 & -> & HI4). exists s4, S3. split; [done|]. by rewrite (alter_eq _ _ _ _ E).
Qed.

(** ** The whole program *)
Lemma wsect_all n : forall s, 0 <= mk_ext s -> let s' := foldl (fun s i => wsect i zeroes s) s (seqZ 0 (Z.of_nat n)) in
  mk_ext s' = Z.max (mk_ext s) (Z.of_nat n) /\ freeblock s' = freeblock s /\ usedblocks s' = usedblocks s /\ freeinode s' = freeinode s /\
  forall y, 0 <= y < Z.of_nat n -> mk_img s' y = zeroes.
Proof.
  induction n as [|n IH]; intros s Hs; [change (seqZ 0 (Z.of_nat 0)) with (@nil Z); cbn [foldl]; split_and!; try done; [lia|]; intros y Hy; lia|].
  rewrite seqZ_S, foldl_app, ?Nat2Z.inj_succ. cbn [foldl]. destruct (IH s Hs) as (E1 & E2 & E3 & E4 & E5). cbv zeta. set (s1 := foldl _ s _) in *.
  unfold wsect. cbn [mk_ext freeblock usedblocks freeinode mk_img]. split_and!; [lia|done|done|done|].
  intros y Hy. destruct (Z.eqb_spec y (0 + Z.of_nat n)); [done|]. apply E5. lia.
Qed.

Lemma mkfs_init : exists s, mkfs 995 200 1024 = Some s /\ image_ok s (fun _ _ => 0) [].
Proof.
  unfold mkfs. change (negb _) with false. cbv iota zeta. change (200 / IPB + 3 + (1024 / (512 * 8) + 1)) with 29. eexists. split; [done|].
  destruct (wsect_all 1024 (mkMkst (fun _ => []) 0 29 29 1)) as (E1 & E2 & E3 & E4 & E5); [done|]. change (995 + 29) with (Z.of_nat 1024).
  set (s1 := foldl _ _ _) in *. clearbody s1. unfold wsect. cbn [mk_ext freeblock usedblocks freeinode] in *.
  assert (Hz : sector_ok zeroes) by (split; [done|apply Forall_replicate; lia]).
  constructor; cbn [mk_img mk_ext freeblock usedblocks freeinode fmap list_fmap length].
  - rewrite E2. constructor; try done; intros; cbn in *; lia.
  - constructor; [|intros y Hy; replace (y =? 1) with false by lia; apply E5; lia|done].
    intros y Hy. destruct (Z.eqb_spec y 1); [|by rewrite E5 by lia].
    split; [done|apply splice_bytes; [apply Hz|]]. unfold sb_bytes. rewrite !Forall_app. split_and!; apply le32_bytes.
  - lia.
  - congruence.
  - done.
  - lia.
  - done.
  - done.
Qed.

(** The bitmap. *)
Lemma bitmap_bits n : Z.of_nat n <= BPB -> let l := foldl set_bit zeroes (seqZ 0 (Z.of_nat n)) in
  length l = Z.to_nat BSIZE /\ forall j, 0 <= j < BPB -> bit_is_set l j = (j <? Z.of_nat n).
Proof.
  induction n as [|n IH]; intros Hn.
  { split; [done|]. intros j Hj. cbn [seqZ foldl]. change (foldl set_bit zeroes (seqZ 0 (Z.of_nat 0))) with zeroes. unfold bit_is_set. rewrite byte_at_zeroes.
    replace (j <? Z.of_nat 0) with false by (symmetry; apply Z.ltb_ge, Hj). unfold has. by rewrite Z.land_0_l. }
  destruct IH as [L B]; [lia|]. rewrite seqZ_S, foldl_app, ?Nat2Z.inj_succ. cbn [foldl]. set (l := foldl set_bit zeroes _) in *. clearbody l. cbv zeta.
  split; [unfold set_bit; by rewrite length_insert|]. intros j Hj. rewrite bit_set_spec by (done || lia). rewrite B by done.
  destruct (Z.eqb_spec j (0 + Z.of_nat n)), (Z.ltb_spec j (Z.of_nat n)), (Z.ltb_spec j (Z.succ (Z.of_nat n))); cbn; try done; lia.
Qed.

(** ** The kernel on the image *)

(** The disk of the kernel is the image of [s] with its bitmap. *)
Record on_disk (k : kernel) (dev : Z) (s : mkst) (S : nat -> Z -> Z) (A : list afile) : Prop := {
  od_dev : 0 <= dev <= 1;
  od_image : image_ok s S A;
  od_free : freeblock s <= 1024;
  od_disk : forall b, 0 <= b < 1024 -> b <> 28 -> disk k dev b = mk_img s b;
  od_bits : disk k dev 28 = foldl set_bit zeroes (seqZ 0 (freeblock s)) }.

Lemma on_disk_sb k dev s S A : on_disk k dev s S A -> sb_of k dev = mkSb 1024 995 200.
Proof. intros [_ HI _ HD _]. unfold sb_of. rewrite HD, (ib_sb _ _ _ _ HI) by lia. vm_compute. reflexivity. Qed.
Lemma on_disk_used k dev s S A b : on_disk k dev s S A -> 0 <= b < 1024 -> used k dev b = (b <? freeblock s).
Proof.
  intros O Hb. unfold used, bitmap. rewrite (on_disk_sb _ _ _ _ _ O). cbn [sb_ninodes].
  assert (BBLOCK b 200 = 28) as -> by (unfold BBLOCK; rewrite Z.div_small by (change BPB with 4096; lia); done). rewrite (od_bits _ _ _ _ _ O).
  pose proof (so_free _ _ _ (ib_slots _ _ _ _ (od_image _ _ _ _ _ O))). pose proof (total_pos (a_data <$> A)). pose proof (od_free _ _ _ _ _ O).
  destruct (bitmap_bits (Z.to_nat (freeblock s))) as [_ B]; [change BPB with 4096; lia|]. rewrite Z2Nat.id in B by lia.
  rewrite Z.mod_small by (change BPB with 4096; lia). apply B. change BPB with 4096. lia.
Qed.

Lemma on_disk_fs k dev s S A : on_disk k dev s S A -> fs_ok k dev.
Proof.
  intros O. pose proof (on_disk_sb _ _ _ _ _ O) as Hsb. pose proof (so_free _ _ _ (ib_slots _ _ _ _ (od_image _ _ _ _ _ O))) as Hfree. pose proof (total_pos (a_data <$> A)).
  constructor; rewrite ?Hsb; cbn [sb_ninodes sb_size].
  - apply O.
  - lia.
  - by vm_compute.
  - change (data_start (mkSb 1024 995 200)) with 29. intros b Hb. rewrite (on_disk_used _ _ _ _ _ _ O) by lia. lia.
  - intros b Hb. rewrite (on_disk_used _ _ _ _ _ _ O) by lia. intros Hu. rewrite (od_disk _ _ _ _ _ O) by lia.
    apply (dk_zero _ _ _ _ (ib_disk _ _ _ _ (od_image _ _ _ _ _ O))). lia.
Qed.

(** The inode [ip] of the cache holds the file [n] of the image. *)
Record loaded (k : kernel) (ip : nat) (dev : Z) (n : nat) : Prop := {
  ld_in : (ip < length (icache k))%nat;
  ld_dev : i_dev (inode_at ip k) = dev;
  ld_inum : i_inum (inode_at ip k) = Z.of_nat n + 1;
  ld_saved : inode_saved k ip }.

Lemma loaded_inode k ip dev n s S A a : on_disk k dev s S A -> loaded k ip dev n -> A !! n = Some a ->
  inode_ok (mk_img s) (to_dinode (inode_at ip k)) (S n) a.
Proof.
  intros O [L1 L2 L3 L4] Hn. pose proof (image_inode _ _ _ _ _ (od_image _ _ _ _ _ O) Hn) as HO. unfold inode_saved in L4. rewrite <- L4, L2, L3.
  unfold disk_inode. pose proof (ib_max _ _ _ _ (od_image _ _ _ _ _ O)). apply lookup_lt_Some in Hn.
  assert (2 <= IBLOCK (Z.of_nat n + 1) < 28) by (unfold IBLOCK; change IPB with 8; Z.div_mod_to_equations; lia). rewrite (od_disk _ _ _ _ _ O) by lia. done.
Qed.
Lemma loaded_slot k ip dev n s S A a q : on_disk k dev s S A -> loaded k ip dev n -> A !! n = Some a -> 0 <= q < 141 -> slot k ip q = S n q.
Proof.
  intros O L Hn Hq. pose proof (loaded_inode _ _ _ _ _ _ _ _ O L Hn) as HO. pose proof (io_link _ _ _ _ HO) as HL. rewrite <- (lk_slot _ _ _ HL q Hq).
  unfold slot, islot, get_addr, indirect. cbn [to_dinode d_addrs]. change NDIRECT with 12. destruct (q <=? 12); [done|]. rewrite (ld_dev _ _ _ _ L).
  pose proof (linked_direct _ _ _ 12 HL ltac:(lia)) as E. unfold get_addr in E. cbn [to_dinode d_addrs] in E. change (Z.to_nat 12) with 12%nat in E. rewrite E.
  destruct (Z.eqb_spec (S n 12) 0) as [|N]; [done|]. pose proof (so_range _ _ _ (ib_slots _ _ _ _ (od_image _ _ _ _ _ O)) n 12) as R.
  rewrite length_fmap in R. specialize (R ltac:(by eapply lookup_lt_Some) ltac:(lia) N). pose proof (od_free _ _ _ _ _ O). rewrite (od_disk _ _ _ _ _ O) by lia. do 2 f_equal. lia.
Qed.

Lemma loaded_file_ok k ip dev n s S A a : on_disk k dev s S A -> loaded k ip dev n -> A !! n = Some a -> a_type a <> T_CHECKED -> a_size a <= MAXFILE * BSIZE ->
  (forall bn, 0 <= bn -> bn * 512 < a_size a -> bn * 512 < Z.of_nat (length (a_data a))) -> file_ok k ip.
Proof.
  intros O L Hn Ht Hs Hm. pose proof (loaded_inode _ _ _ _ _ _ _ _ O L Hn) as HO. pose proof (fun q => loaded_slot _ _ _ _ _ _ _ _ q O L Hn) as HS.
  pose proof (ib_slots _ _ _ _ (od_image _ _ _ _ _ O)) as SO. pose proof (ib_max _ _ _ _ (od_image _ _ _ _ _ O)).
  assert (Hnl : (n < length A)%nat) by by eapply lookup_lt_Some. assert (Hnf : (n < length (a_data <$> A))%nat) by by rewrite length_fmap.
  assert (Ety : i_type (inode_at ip k) = a_type a) by apply (io_type _ _ _ _ HO). assert (Esz : i_size (inode_at ip k) = a_size a) by apply (io_size _ _ _ _ HO).
  assert (HB : forall q, block_no k ip q = slot k ip q) by (intros q; unfold block_no, real_addr; rewrite Ety; by destruct (Z.eqb_spec (a_type a) T_CHECKED)).
  pose proof (on_disk_sb _ _ _ _ _ O) as Hsb. pose proof (od_free _ _ _ _ _ O). destruct L as [L1 L2 L3 L4].
  constructor; rewrite ?L2, ?Hsb, ?Esz; cbn [sb_ninodes sb_size]; change NSLOT with 141; try setoid_rewrite HB.
  - by eapply on_disk_fs.
  - done.
  - apply (lk_addrs _ _ _ (io_link _ _ _ _ HO)).
  - lia.
  - split; [unfold a_size; destruct (a_closed a); Z.div_mod_to_equations; lia|done].
  - intros bn Hb Hlt. change BSIZE with 512 in *. change MAXFILE with 140 in Hs. rewrite HS by (apply fslot_140; lia).
    apply (so_need _ _ _ SO n (a_data a)); [by rewrite list_lookup_fmap, Hn|apply fslot_140; lia|]. rewrite needed_fslot by done. by apply Hm.
  - intros q Hq N. change (data_start (mkSb 1024 995 200)) with 29. rewrite HS in * by done. pose proof (so_range _ _ _ SO n q Hnf Hq N). split; [lia|].
    rewrite (on_disk_used _ _ _ _ _ _ O) by lia. lia.
  - intros q q' Hq Hq' N N' E. rewrite !HS in * by done. by apply (so_inj _ _ _ SO n q n q').
  - done.
Qed.

Lemma loaded_data k ip dev n s S A a : on_disk k dev s S A -> loaded k ip dev n -> A !! n = Some a -> a_type a <> T_CHECKED ->
  (forall bn, 0 <= bn -> bn * 512 < a_size a -> bn * 512 < Z.of_nat (length (a_data a))) -> 
  file_data k ip = a_data a ++ replicate (Z.to_nat (a_size a) - length (a_data a)) 0.
Proof.
  intros O L Hn Ht Hm. pose proof (loaded_inode _ _ _ _ _ _ _ _ O L Hn) as HO. assert (Esz : i_size (inode_at ip k) = a_size a) by apply (io_size _ _ _ _ HO).
  assert (Ety : i_type (inode_at ip k) = a_type a) by apply (io_type _ _ _ _ HO).
  pose proof (ib_slots _ _ _ _ (od_image _ _ _ _ _ O)) as SO. pose proof (od_free _ _ _ _ _ O).
  assert (Hnf : (a_data <$> A) !! n = Some (a_data a)) by (by rewrite list_lookup_fmap, Hn). pose proof (so_len _ _ _ SO n _ Hnf).
  assert (Hge : Z.of_nat (length (a_data a)) <= a_size a) by (unfold a_size; destruct (a_closed a); Z.div_mod_to_equations; lia).
  apply list_eq. intros j. destruct (decide (Z.of_nat j < a_size a)) as [Hj|Hj].
  - rewrite <- (Nat2Z.id j) at 1. rewrite file_data_lookup by lia. unfold file_byte, file_block, block_no, real_addr. rewrite Ety.
    replace (a_type a =? T_CHECKED) with false by (symmetry; by apply Z.eqb_neq). change BSIZE with 512. pose proof (Z.div_mod (Z.of_nat j) 512 ltac:(lia)). pose proof (Z.mod_pos_bound (Z.of_nat j) 512 ltac:(lia)).
    pose proof (Z.div_pos (Z.of_nat j) 512 ltac:(lia) ltac:(lia)) as Hp. pose proof (Hm (Z.of_nat j / 512) Hp ltac:(lia)) as Hlt. assert (Hbn : 0 <= Z.of_nat j / 512 < 140) by lia.
    rewrite (loaded_slot _ _ _ _ _ _ _ _ _ O L Hn) by by apply fslot_140. rewrite (ld_dev _ _ _ _ L).
    pose proof (so_range _ _ _ SO n (fslot (Z.of_nat j / 512)) ltac:(by eapply lookup_lt_Some) (fslot_140 _ Hbn)) as R.
    rewrite (so_need _ _ _ SO n _ _ Hnf) in R by by apply fslot_140. rewrite needed_fslot in R by done. specialize (R Hlt).
    rewrite (od_disk _ _ _ _ _ O) by lia. rewrite (dk_data _ _ _ _ (ib_disk _ _ _ _ (od_image _ _ _ _ _ O)) n (a_data a)) by (done || lia). rewrite Nat2Z.id.
    destruct (decide (j < length (a_data a))%nat) as [Hl|Hl].
    + rewrite lookup_app_l by done. by destruct (lookup_lt_is_Some_2 _ _ Hl) as [x ->].
    + rewrite lookup_app_r, lookup_replicate_2 by lia. by rewrite lookup_ge_None_2 by lia.
  - rewrite !lookup_ge_None_2; [done|rewrite length_app, length_replicate; lia|rewrite file_data_length; lia].
Qed.

(** ** The theorem *)
Definition image_files (root : host) : list afile := a_add_dir root 0 0 [mkAfile T_DIR [] false].

Lemma mkfs_main_ok entries : host_bytes (HDir entries) -> fits (image_files (HDir entries)) ->
  exists s S s', mkfs_main (HDir entries) = Some s' /\ image_ok s S (image_files (HDir entries)) /\ freeblock s <= 1024 /\
    s' = wsect 28 (foldl set_bit zeroes (seqZ 0 (freeblock s))) s.
Proof.
  intros HB HF. unfold mkfs_main. destruct mkfs_init as (s0 & -> & HI0). cbn [mbind option_bind].
  destruct (ialloc_ok T_DIR s0 _ _ HI0) as (s1 & -> & HI1); [cbn; lia|done|]. cbn [mbind option_bind]. change (Z.of_nat (length (@nil afile)) + 1) with 1. change (negb (1 =? ROOTINO)) with false. cbv iota.
  destruct (add_dir_follows (HDir entries) 0%nat 0%nat s1 _ _ _ HI1 eq_refl eq_refl HB HF) as (s2 & S2 & E2 & HI2).
  change (Z.of_nat 0 + 1) with 1 in E2. rewrite E2. cbn [mbind option_bind]. fold (image_files (HDir entries)) in HI2.
  assert (Hfree : freeblock s2 <= 1024) by (rewrite (so_free _ _ _ (ib_slots _ _ _ _ HI2)); apply HF).
  unfold mk_balloc. rewrite (ib_used _ _ _ _ HI2). replace (freeblock s2 <? 512 * 8) with true by lia. cbn [negb]. by exists s2, S2, (wsect (200 / IPB + 3) (foldl set_bit zeroes (seqZ 0 (freeblock s2))) s2).
Qed.

(** The size is that of the data, or the next multiple of the size of a block. *)
Lemma a_size_mapped a : (a_closed a = true -> Z.of_nat (length (a_data a)) mod 512 <> 0) -> Z.of_nat (length (a_data a)) <= 71680 ->
  a_size a <= MAXFILE * BSIZE /\ forall bn, 0 <= bn -> bn * 512 < a_size a -> bn * 512 < Z.of_nat (length (a_data a)).
Proof.
  intros Hc Hl. change (MAXFILE * BSIZE) with 71680. unfold a_size. destruct (a_closed a); [|split; [done|]; intros; lia]. specialize (Hc eq_refl).
  set (L := Z.of_nat (length (a_data a))) in *. pose proof (Z.div_mod L 512 ltac:(lia)). pose proof (Z.mod_pos_bound L 512 ltac:(lia)). split; [|intros bn Hb]; lia.
Qed.

(** C3. The image that [mkfs] builds from a directory of the host that fits is the file system of that
    directory: every directory has an inode whose data are its entries, every file an inode
    whose data are what was read from it, and on a kernel whose disk is the image, the file
    system is well formed and a cached inode of it is a well-formed file with these data.
    (A directory whose entries fill its blocks exactly is excepted: its size covers a block that it
    does not have.) *)
Theorem mkfs_correct (entries : list (list Z * host)) :
  host_bytes (HDir entries) -> fits (image_files (HDir entries)) ->
  exists s, mkfs_main (HDir entries) = Some s /\ tree_in (image_files (HDir entries)) (HDir entries) 0 0 /\
    forall (k : kernel) (dev : Z), 0 <= dev <= 1 -> (forall b, 0 <= b < 1024 -> disk k dev b = mk_img s b) ->
      fs_ok k dev /\
      forall ip n a, loaded k ip dev n -> image_files (HDir entries) !! n = Some a -> a_type a <> T_CHECKED ->
        i_type (inode_at ip k) = a_type a /\ i_size (inode_at ip k) = a_size a /\
        ((a_closed a = true -> Z.of_nat (length (a_data a)) mod 512 <> 0) ->
         file_ok k ip /\ file_data k ip = a_data a ++ replicate (Z.to_nat (a_size a) - length (a_data a)) 0).
Proof.
  intros HB HF. destruct (mkfs_main_ok entries HB HF) as (s & S & s' & E & HI & Hfree & ->). eexists. split; [exact E|].
  split; [by apply (a_add_dir_spec (HDir entries) 0%nat 0%nat [mkAfile T_DIR [] false] (mkAfile T_DIR [] false))|]. intros k dev Hdev HD.
  assert (O : on_disk k dev s S (image_files (HDir entries))).
  { constructor; [done|done|done| |].
    - intros b Hb Hne. rewrite HD by done. unfold wsect. cbn [mk_img]. by replace (b =? 28) with false by lia.
    - rewrite HD by lia. unfold wsect. cbn [mk_img]. by rewrite Z.eqb_refl. }
  split; [by eapply on_disk_fs|]. intros ip n a L Hn Ht. pose proof (loaded_inode _ _ _ _ _ _ _ _ O L Hn) as HO.
  split; [apply (io_type _ _ _ _ HO)|]. split; [apply (io_size _ _ _ _ HO)|]. intros Hc. destruct HF as (_ & _ & Hlen).
  destruct (a_size_mapped a Hc (Hlen n a Hn)) as [Hs Hm]. split; [by eapply loaded_file_ok|by eapply loaded_data].
Qed.
Definition host0 : list (list Z * host) := [([46], HDir []); ([97], HFile [[104; 105]; [33]]); ([98], HDir [([99], HFile [])])].
Lemma host0_fits : fits (image_files (HDir host0)).
Proof.
  split; [vm_compute; lia|]. split; [by vm_compute|]. intros i a Hi.
  assert (HA : Forall (fun a => Z.of_nat (length (a_data a)) <= 71680) (image_files (HDir host0))) by (vm_compute; repeat constructor; discriminate).
  by eapply Forall_lookup_1 in HA; [|exact Hi].
Qed.
Lemma mkfs_correct_witness : exists s, mkfs_main (HDir host0) = Some s /\
  forall k, (forall b, 0 <= b < 1024 -> disk k 1 b = mk_img s b) ->
    fs_ok k 1 /\ forall ip, loaded k ip 1 1 -> file_ok k ip /\ file_data k ip = [104; 105; 33].
Proof.
  destruct (mkfs_correct host0) as (s & E & _ & H); [by repeat (constructor || lia)|apply host0_fits|]. exists s. split; [exact E|]. intros k HD.
  destruct (H k 1 ltac:(lia) HD) as [H1 H2]. split; [exact H1|]. intros ip L.
  destruct (H2 ip 1%nat (mkAfile T_FILE [104; 105; 33] false) L) as (_ & _ & H3); [vm_compute; reflexivity|discriminate|]. apply H3. discriminate.
Defined.
