(* ===== verification/Irq.v ===== *)
(** The interrupt controllers and the timer: [kernel/picirq.c], [kernel/ioapic.c],
    [kernel/lapic.c] and [kernel/timer.c].

    The writes to device registers are recorded in the state; what a device answers when it is
    read is a parameter. *)
From S2P Require Import Prelude Types Mem Cons Mp Trap.

(** ** The state

    The kernel, the variables of [mp.c], the mask of [picirq.c], the bytes written to ports and
    the words written to the registers of the local APIC (latest last), the registers of the
    I/O APIC, the tables of the processor, whether it uses them and has paging, and [cpus[i].booted]. *)
Record sys := mkSys {
  sk : kernel; smp : mpstate; irqmask : Z;
  ports : list (Z * Z); lapic_writes : list (Z * Z); ioapic_regs : Z -> Z;
  idt : list gatedesc; gdt : list segdesc; idt_loaded : bool; paging : bool; cpu_booted : Z -> Z }.
#[global] Instance sys_eta : Eta sys := {| eta r :=
  mkSys (sk r) (smp r) (irqmask r) (ports r) (lapic_writes r) (ioapic_regs r) (idt r) (gdt r) (idt_loaded r) (paging r) (cpu_booted r) |}.

(** A function of the kernel in this state *)
Fixpoint olift {A} (s : sys) (o : outcome kernel A) : outcome sys A :=
  match o with
  | Ret a k => Ret a (s <| sk := k |>)
  | Panic msg => Panic msg
  | Switched k c => Switched (s <| sk := k |>) (fun s' => olift s' (c (sk s')))
  | Spins => Spins
  end.
Definition lift {A} (m : M kernel A) : M sys A := fun s => olift s (m (sk s)).

(** What reading the ports and the registers of the local APIC returns. *)
Class Board : Type := { inb : Z -> Z; lapic_reg : Z -> Z }.

Definition outb (port v : Z) : M sys unit := modify (fun s => s <| ports ::= fun l => l ++ [(port, u8 v)] |>).

(** ** [picirq.c] *)
Definition IO_PIC1 : Z := 0x20.
Definition IO_PIC2 : Z := 0xA0.
Definition IRQ_SLAVE : Z := 2.
Definition irqmask0 : Z := Z.ldiff 0xFFFF (Z.shiftl 1 IRQ_SLAVE).

Definition picsetmask (mask : Z) : M sys unit :=
  modify (fun s => s <| irqmask := mask |>) ;;
  outb (IO_PIC1 + 1) mask ;;
  outb (IO_PIC2 + 1) (Z.shiftr mask 8).

Definition picenable (irq : Z) : M sys unit :=
  let! m := gets irqmask in picsetmask (Z.ldiff m (Z.shiftl 1 irq)).

Definition picinit : M sys unit :=
  outb (IO_PIC1 + 1) 0xFF ;;
  outb (IO_PIC2 + 1) 0xFF ;;
  outb IO_PIC1 0x11 ;;
  outb (IO_PIC1 + 1) T_IRQ0 ;;
  outb (IO_PIC1 + 1) (Z.shiftl 1 IRQ_SLAVE) ;;
  outb (IO_PIC1 + 1) 0x3 ;;
  outb IO_PIC2 0x11 ;;
  outb (IO_PIC2 + 1) (T_IRQ0 + 8) ;;
  outb (IO_PIC2 + 1) IRQ_SLAVE ;;
  outb (IO_PIC2 + 1) 0x3 ;;
  outb IO_PIC1 0x68 ;;
  outb IO_PIC1 0x0a ;;
  outb IO_PIC2 0x68 ;;
  outb IO_PIC2 0x0a ;;
  let! m := gets irqmask in
  when (negb (m =? 0xFFFF)) (picsetmask m).

(** ** [ioapic.c] *)
Definition REG_ID : Z := 0x00.
Definition REG_VER : Z := 0x01.
Definition REG_TABLE : Z := 0x10.
Definition INT_DISABLED : Z := 0x00010000.

Definition ioapicread (reg : Z) : M sys Z := gets (fun s => ioapic_regs s reg).
Definition ioapicwrite (reg data : Z) : M sys unit :=
  modify (fun s => s <| ioapic_regs ::= fun f x => if x =? reg then u32 data else f x |>).

(** The loop of [ioapicinit], for [n] interrupts from [i] on *)
Fixpoint ioapicinit_loop (n : nat) (i : Z) : M sys unit :=
  match n with
  | O => ret tt
  | S n' =>
      ioapicwrite (REG_TABLE + 2 * i) (Z.lor INT_DISABLED (T_IRQ0 + i)) ;;
      ioapicwrite (REG_TABLE + 2 * i + 1) 0 ;;
      ioapicinit_loop n' (i + 1)
  end.

Definition ioapicinit : M sys unit :=
  let! mp := gets smp in
  if ismp mp =? 0 then ret tt
  else
    let! v := ioapicread REG_VER in
    let maxintr := Z.land (Z.shiftr v 16) 0xFF in
    let! v := ioapicread REG_ID in
    let id := Z.shiftr v 24 in
    when (negb (id =? ioapicid mp)) (lift (cprintf "ioapicinit: id isn't equal to ioapicid; not a MP
" [])) ;;
    ioapicinit_loop (S (Z.to_nat maxintr)) 0.

Definition ioapicenable (irq cpunum : Z) : M sys unit :=
  let! mp := gets smp in
  if ismp mp =? 0 then ret tt
  else
    ioapicwrite (REG_TABLE + 2 * irq) (T_IRQ0 + irq) ;;
    ioapicwrite (REG_TABLE + 2 * irq + 1) (Z.shiftl cpunum 24).

(** ** [lapic.c] *)
Notation ID := (0x0020 / 4) (only parsing).
Notation VER := (0x0030 / 4) (only parsing).
Notation TPR := (0x0080 / 4) (only parsing).
Notation EOI := (0x00B0 / 4) (only parsing).
Notation SVR := (0x00F0 / 4) (only parsing).
Notation ENABLE := (0x00000100) (only parsing).
Notation ESR := (0x0280 / 4) (only parsing).
Notation ICRLO := (0x0300 / 4) (only parsing).
Notation INIT := (0x00000500) (only parsing).
Notation STARTUP := (0x00000600) (only parsing).
Notation DELIVS := (0x00001000) (only parsing).
Notation ASSERT := (0x00004000) (only parsing).
Notation LEVEL := (0x00008000) (only parsing).
Notation BCAST := (0x00080000) (only parsing).
Notation ICRHI := (0x0310 / 4) (only parsing).
Notation TIMER := (0x0320 / 4) (only parsing).
Notation X1 := (0x0000000B) (only parsing).
Notation PERIODIC := (0x00020000) (only parsing).
Notation PCINT := (0x0340 / 4) (only parsing).
Notation LINT0 := (0x0350 / 4) (only parsing).
Notation LINT1 := (0x0360 / 4) (only parsing).
Notation ERROR := (0x0370 / 4) (only parsing).
Notation MASKED := (0x00010000) (only parsing).
Notation TICR := (0x0380 / 4) (only parsing).
Notation TDCR := (0x03E0 / 4) (only parsing).
Definition IRQ_ERROR : Z := 19.

Definition lapicw (index value : Z) : M sys unit :=
  modify (fun s => s <| lapic_writes ::= fun l => l ++ [(index, u32 value)] |>).

Section lapic.
Context `{Board}.

(** The wait at the end is over when the register reads as delivered. *)
Definition lapicinit (c : Z) : M sys unit :=
  let! mp := gets smp in
  lift (cprintf "lapicinit: %d 0x%x
" [AInt c; AInt (lapic mp)]) ;;
  if lapic mp =? 0 then ret tt
  else
    lapicw SVR (Z.lor ENABLE (T_IRQ0 + IRQ_SPURIOUS)) ;;
    lapicw TDCR X1 ;;
    lapicw TIMER (Z.lor PERIODIC (T_IRQ0 + IRQ_TIMER)) ;;
    lapicw TICR 10000000 ;;
    lapicw LINT0 MASKED ;;
    lapicw LINT1 MASKED ;;
    when (4 <=? Z.land (Z.shiftr (lapic_reg VER) 16) 0xFF) (lapicw PCINT MASKED) ;;
    lapicw ERROR (T_IRQ0 + IRQ_ERROR) ;;
    lapicw ESR 0 ;;
    lapicw ESR 0 ;;
    lapicw EOI 0 ;;
    lapicw ICRHI 0 ;;
    lapicw ICRLO (Z.lor (Z.lor BCAST INIT) LEVEL) ;;
    if has (lapic_reg ICRLO) DELIVS then spin
    else lapicw TPR 0.

(** With interrupts off. *)
Definition cpunum : M sys Z :=
  let! mp := gets smp in
  ret (if lapic mp =? 0 then 0 else Z.shiftr (lapic_reg ID) 24).

Definition lapiceoi : M sys unit :=
  let! mp := gets smp in when (negb (lapic mp =? 0)) (lapicw EOI 0).

(** A store of 16 bits *)
Definition st16 (m : Z -> Z) (a v : Z) : Z -> Z := st8 (st8 m a v) (a + 1) (Z.shiftr v 8).

Definition IO_RTC : Z := 0x70.

Definition lapicstartap (apicid addr : Z) : M sys unit :=
  outb IO_RTC 0xF ;;
  outb (IO_RTC + 1) 0x0A ;;
  let wrv := Z.lor (Z.shiftl 0x40 4) 0x67 in
  lift (modify (fun k => k <| mem ::= fun m => st16 (st16 m wrv 0) (wrv + 2) (Z.shiftr addr 4) |>)) ;;
  lapicw ICRHI (Z.shiftl apicid 24) ;;
  lapicw ICRLO (Z.lor (Z.lor INIT LEVEL) ASSERT) ;;
  lapicw ICRLO (Z.lor INIT LEVEL) ;;
  let startup :=
    lapicw ICRHI (Z.shiftl apicid 24) ;;
    lapicw ICRLO (Z.lor STARTUP (Z.shiftr addr 12)) in
  startup ;; startup.
End lapic.

(** ** [timer.c] *)
Definition IO_TIMER1 : Z := 0x040.
Notation TIMER_FREQ := 1193182 (only parsing).
Definition TIMER_DIV (x : Z) : Z := (TIMER_FREQ + x / 2) / x.
Definition TIMER_MODE : Z := IO_TIMER1 + 3.
Notation TIMER_SEL0 := 0x00 (only parsing).
Notation TIMER_RATEGEN := 0x04 (only parsing).
Notation TIMER_16BIT := 0x30 (only parsing).

Definition timerinit : M sys unit :=
  outb TIMER_MODE (Z.lor (Z.lor TIMER_SEL0 TIMER_RATEGEN) TIMER_16BIT) ;;
  outb IO_TIMER1 (TIMER_DIV 100 mod 256) ;;
  outb IO_TIMER1 (TIMER_DIV 100 / 256) ;;
  picenable IRQ_TIMER.

(** ** Running kernel code in the larger state *)
Lemma wp_lift {A} (m : M kernel A) s (Q : A -> sys -> Prop) : wp m (sk s) (fun a k => Q a (s <| sk := k |>)) -> wp (lift m) s Q.
Proof. unfold wp, lift. by destruct (m (sk s)). Qed.
Lemma wp_lift_cprintf fmt args s : cons_ready (sk s) ->
  wp (lift (cprintf fmt args)) s (fun _ s' => exists k, printed (sk s) k /\ s' = s <| sk := k |>).
Proof. intros H. apply wp_lift. eapply wp_mono; [by apply wp_cprintf|]. intros [] k Hk. by exists k. Qed.

Lemma ports_app s l l' : s <| ports ::= fun x => x ++ l |> <| ports ::= fun x => x ++ l' |> = s <| ports ::= fun x => x ++ (l ++ l') |>.
Proof. destruct s. unfold update. cbn [ports sk smp irqmask lapic_writes ioapic_regs idt gdt idt_loaded paging cpu_booted]. by rewrite <- app_assoc. Qed.

(** ** The 8259A

    The chip as its data sheet describes it: after a command with bit 4 set it takes three words of
    initialisation at the data port, the first of which is the vector of its line 0;
    otherwise a write to the data port sets the mask. *)
Record pic := mkPic { pic_icw : nat; pic_base : Z; pic_mask : Z }.
Definition pic_command (v : Z) (p : pic) : pic := if has v 0x10 then mkPic 1 (pic_base p) 0 else p.
Definition pic_data (v : Z) (p : pic) : pic :=
  match pic_icw p with
  | 1%nat => mkPic 2 (Z.land v 0xF8) (pic_mask p)
  | 2%nat => mkPic 3 (pic_base p) (pic_mask p)
  | 3%nat => mkPic 0 (pic_base p) (pic_mask p)
  | _ => mkPic 0 (pic_base p) v
  end.
(** The chip at the ports [io] and [io + 1]. *)
Definition pic_write (io : Z) (p : pic) (w : Z * Z) : pic :=
  if fst w =? io then pic_command (snd w) p else if fst w =? io + 1 then pic_data (snd w) p else p.
Definition pic_run (io : Z) (p : pic) (l : list (Z * Z)) : pic := foldl (pic_write io) p l.
Arguments pic_run : simpl never.

Lemma pic_run_app io p l l' : pic_run io p (l ++ l') = pic_run io (pic_run io p l) l'.
Proof. apply foldl_app. Qed.
Lemma pic_run_other io p l : Forall (fun w => fst w <> io /\ fst w <> io + 1) l -> pic_run io p l = p.
Proof.
  revert p. induction l as [|w l IH]; intros p Hl; [done|]. apply Forall_cons in Hl as [[H1 H2] Hl].
  unfold pic_run. cbn [foldl]. unfold pic_write at 2. destruct (Z.eqb_spec (fst w) io), (Z.eqb_spec (fst w) (io + 1)); try done. by apply IH.
Qed.

(** Both chips, which were in any state at power on, have the vectors of the kernel, and their lines
    are enabled as [on] says. *)
Record pics_ok (s : sys) (on : Z -> bool) : Prop := {
  pc_range : 0 <= irqmask s < 2 ^ 16;
  pc_mask : forall j, 0 <= j < 16 -> Z.testbit (irqmask s) j = negb (on j);
  pc_master : forall p, pic_run IO_PIC1 p (ports s) = mkPic 0 T_IRQ0 (irqmask s mod 256);
  pc_slave : forall p, pic_run IO_PIC2 p (ports s) = mkPic 0 (T_IRQ0 + 8) (irqmask s / 256) }.

Lemma pics_other s on l : pics_ok s on -> Forall (fun w => ~ (fst w ∈ [IO_PIC1; IO_PIC1 + 1; IO_PIC2; IO_PIC2 + 1])) l ->
  pics_ok (s <| ports ::= fun x => x ++ l |>) on.
Proof.
  intros [H1 H2 H3 H4] Hl. constructor; [done|done| |]; intros p; cbn; rewrite pic_run_app.
  - rewrite pic_run_other; [apply H3|]. eapply Forall_impl; [exact Hl|]. intros w Hw. set_solver.
  - rewrite pic_run_other; [apply H4|]. eapply Forall_impl; [exact Hl|]. intros w Hw. set_solver.
Qed.

(** A write of the mask to chips that are initialised. *)
Lemma pics_mask (m : Z) p : 0 <= m < 2 ^ 16 -> pic_icw p = 0%nat ->
  pic_run IO_PIC1 p [(IO_PIC1 + 1, u8 m); (IO_PIC2 + 1, u8 (Z.shiftr m 8))] = mkPic 0 (pic_base p) (m mod 256) /\
  pic_run IO_PIC2 p [(IO_PIC1 + 1, u8 m); (IO_PIC2 + 1, u8 (Z.shiftr m 8))] = mkPic 0 (pic_base p) (m / 256).
Proof.
  intros Hm Hp. rewrite !u8_eq, Z.shiftr_div_pow2 by lia. change (2 ^ 8) with 256.
  rewrite (Z.mod_small (m / 256) 256) by (split; [apply Z.div_pos; lia|apply Z.div_lt_upper_bound; lia]).
  destruct p as [w b k]. cbn in Hp. subst w. generalize (m mod 256) (m / 256). intros x y. by split.
Qed.

Lemma wp_picsetmask m s on : 0 <= m < 2 ^ 16 -> (forall j, 0 <= j < 16 -> Z.testbit m j = negb (on j)) ->
  (forall p, exists b, pic_run IO_PIC1 p (ports s) = mkPic 0 T_IRQ0 b) ->
  (forall p, exists b, pic_run IO_PIC2 p (ports s) = mkPic 0 (T_IRQ0 + 8) b) ->
  wp (picsetmask m) s (fun _ s' => pics_ok s' on /\ exists l, s' = s <| irqmask := m |> <| ports ::= fun x => x ++ l |>).
Proof.
  intros Hm Hon H1 H2. unfold picsetmask, outb. apply wp_modify, wp_modify. cbn [wp modify].
  set (l := [(IO_PIC1 + 1, u8 m); (IO_PIC2 + 1, u8 (Z.shiftr m 8))]).
  assert (El : (ports s ++ [(IO_PIC1 + 1, u8 m)]) ++ [(IO_PIC2 + 1, u8 (Z.shiftr m 8))] = ports s ++ l) by by rewrite <- app_assoc.
  split; [|exists l; by rewrite ports_app].
  constructor; cbn; [done|done| |]; intros p; rewrite El, pic_run_app.
  - destruct (H1 p) as [b ->]. by destruct (pics_mask m (mkPic 0 T_IRQ0 b) Hm eq_refl) as [E _].
  - destruct (H2 p) as [b ->]. by destruct (pics_mask m (mkPic 0 (T_IRQ0 + 8) b) Hm eq_refl) as [_ E].
Qed.

Lemma ldiff_range m b n : 0 <= n -> 0 <= m < 2 ^ n -> 0 <= Z.ldiff m b < 2 ^ n.
Proof.
  intros Hn Hm. assert (Z.ldiff m b = Z.ldiff m b mod 2 ^ n) as ->; [|apply Z.mod_pos_bound; lia].
  apply Z.bits_inj'. intros j Hj. rewrite Z.testbit_mod_pow2, !Z.ldiff_spec by done.
  rewrite <- (Z.mod_small m (2 ^ n)) by done. rewrite Z.testbit_mod_pow2 by done. by destruct (j <? n).
Qed.
Lemma wp_picenable irq s on : pics_ok s on -> 0 <= irq < 16 ->
  wp (picenable irq) s (fun _ s' => pics_ok s' (fun j => (j =? irq) || on j) /\
    exists m l, s' = s <| irqmask := m |> <| ports ::= fun x => x ++ l |>).
Proof.
  intros [H1 H2 H3 H4] Hi. unfold picenable. apply wp_gets.
  eapply wp_mono; [apply (wp_picsetmask _ s (fun j => (j =? irq) || on j))|].
  - by apply ldiff_range.
  - intros j Hj. rewrite Z.ldiff_spec, H2, Z.shiftl_spec by lia. destruct (Z.eqb_spec j irq) as [->|Hne].
    + rewrite Z.sub_diag. cbn. by destruct (on irq).
    + destruct (Z.lt_ge_cases j irq); [rewrite Z.testbit_neg_r by lia|]; [by destruct (on j)|].
      rewrite Z.bits_above_log2 by (cbn; lia). by destruct (on j).
  - intros p. rewrite H3. eauto.
  - intros p. rewrite H4. eauto.
  - intros [] s' [Ho (l & E)]. split; [done|]. eauto.
Qed.

(** The initialisation, from any state of the chips. *)
Lemma wp_picinit s on : 0 <= irqmask s < 2 ^ 16 - 1 -> (forall j, 0 <= j < 16 -> Z.testbit (irqmask s) j = negb (on j)) ->
  wp picinit s (fun _ s' => pics_ok s' on /\ exists l, s' = s <| ports ::= fun x => x ++ l |>).
Proof.
  intros Hm Hon. unfold picinit, outb. repeat apply wp_modify. apply wp_gets. set (s1 := s <| ports ::= _ |> <| ports ::= _ |> <| ports ::= _ |> <| ports ::= _ |> <| ports ::= _ |> <| ports ::= _ |> <| ports ::= _ |>
    <| ports ::= _ |> <| ports ::= _ |> <| ports ::= _ |> <| ports ::= _ |> <| ports ::= _ |> <| ports ::= _ |> <| ports ::= _ |>).
  assert (Es : exists l, s1 = s <| ports ::= fun x => x ++ l |> /\ (forall p, exists b, pic_run IO_PIC1 p l = mkPic 0 T_IRQ0 b) /\ (forall p, exists b, pic_run IO_PIC2 p l = mkPic 0 (T_IRQ0 + 8) b)).
  { eexists. split; [unfold s1; rewrite !ports_app; reflexivity|]. split; intros [w b k]; (exists 0; do 4 (destruct w as [|w]; [vm_compute; reflexivity|]); vm_compute; reflexivity). }
  clearbody s1. destruct Es as (l & -> & P1 & P2). change (irqmask (s <| ports ::= _ |>)) with (irqmask s). replace (irqmask s =? 0xFFFF) with false by lia. cbn [negb when].
  eapply wp_mono; [apply (wp_picsetmask _ _ on); [lia|done|..]|].
  - intros p. cbn. rewrite pic_run_app. apply P1.
  - intros p. cbn. rewrite pic_run_app. apply P2.
  - intros [] s' [Ho (l' & E)]. split; [done|]. exists (l ++ l'). rewrite E. by rewrite <- ports_app; destruct s.
Qed.

(** ** The redirection table of the I/O APIC *)
Definition maxintr (s : sys) : Z := Z.land (Z.shiftr (ioapic_regs s REG_VER) 16) 0xFF.

(** On a multiprocessor each interrupt up to the last is disabled, or enabled with the vector of the
    kernel and sent to a processor. *)
Definition routes_ok (s : sys) (route : Z -> option Z) : Prop :=
  ismp (smp s) <> 0 -> forall j, 0 <= j <= maxintr s ->
    ioapic_regs s (REG_TABLE + 2 * j) = match route j with Some _ => T_IRQ0 + j | None => Z.lor INT_DISABLED (T_IRQ0 + j) end /\
    ioapic_regs s (REG_TABLE + 2 * j + 1) = match route j with Some c => u32 (Z.shiftl c 24) | None => 0 end.

Lemma maxintr_range s : 0 <= maxintr s < 256.
Proof. unfold maxintr. change 0xFF with (Z.ones 8). rewrite Z.land_ones by lia. by apply Z.mod_pos_bound. Qed.
Lemma disabled_word j : 0 <= j < 256 -> u32 (Z.lor INT_DISABLED (T_IRQ0 + j)) = Z.lor INT_DISABLED (T_IRQ0 + j).
Proof.
  intros Hj. apply u32_small. split; [apply Z.lor_nonneg; unfold INT_DISABLED, T_IRQ0; lia|].
  pose proof (Z.add_lor_land INT_DISABLED (T_IRQ0 + j)). pose proof (Z.land_nonneg INT_DISABLED (T_IRQ0 + j)) as [_ H1].
  unfold INT_DISABLED, T_IRQ0 in *. lia.
Qed.

Lemma wp_ioapicinit_loop n : forall i s, 0 <= i -> i + Z.of_nat n <= 256 ->
  wp (ioapicinit_loop n i) s (fun _ s' => exists f, s' = s <| ioapic_regs := f |> /\
    (forall x, x < REG_TABLE + 2 * i \/ REG_TABLE + 2 * (i + Z.of_nat n) <= x -> f x = ioapic_regs s x) /\
    forall j, i <= j < i + Z.of_nat n -> f (REG_TABLE + 2 * j) = Z.lor INT_DISABLED (T_IRQ0 + j) /\ f (REG_TABLE + 2 * j + 1) = 0).
Proof.
  induction n as [|n IH]; intros i s Hi Hn; cbn [ioapicinit_loop].
  { exists (ioapic_regs s). split; [by destruct s|]. split; [done|]. intros j Hj. lia. }
  unfold ioapicwrite. apply wp_modify, wp_modify. eapply wp_mono; [apply IH; lia|]. intros [] s' (f & -> & F1 & F2). exists f.
  cbn [ioapic_regs] in F1. split; [done|]. split.
  - intros x Hx. rewrite F1 by lia. cbn. destruct (Z.eqb_spec x (REG_TABLE + 2 * i + 1)), (Z.eqb_spec x (REG_TABLE + 2 * i)); try lia; done.
  - intros j Hj. destruct (Z.eq_dec j i) as [->|]; [|apply F2; lia]. rewrite !F1 by lia. cbn.
    rewrite Z.eqb_refl. replace (REG_TABLE + 2 * i =? REG_TABLE + 2 * i + 1) with false by lia. rewrite Z.eqb_refl. split; [|done]. apply disabled_word. lia.
Qed.

Lemma wp_ioapicinit s : cons_ready (sk s) ->
  wp ioapicinit s (fun _ s' => routes_ok s' (fun _ => None) /\ exists k f, printed (sk s) k /\ s' = s <| sk := k |> <| ioapic_regs := f |>).
Proof.
  intros Hc. unfold ioapicinit. apply wp_gets. destruct (Z.eqb_spec (ismp (smp s)) 0) as [E|E].
  { apply wp_intro_ret. split; [by intros N|]. exists (sk s), (ioapic_regs s). split; [apply printed_refl|by destruct s]. }
  unfold ioapicread. apply wp_gets, wp_gets. apply wp_bind. fold (maxintr s).
  assert (Hl : forall k, printed (sk s) k -> wp (ioapicinit_loop (S (Z.to_nat (maxintr s))) 0) (s <| sk := k |>) (fun _ s' => routes_ok s' (fun _ => None) /\ exists k f, printed (sk s) k /\ s' = s <| sk := k |> <| ioapic_regs := f |>)).
  { intros k Hk. pose proof (maxintr_range s). eapply wp_mono; [apply wp_ioapicinit_loop; lia|]. intros [] s' (f & -> & F1 & F2). split; [|by exists k, f].
    intros _ j Hj. unfold maxintr in Hj. cbn [ioapic_regs] in Hj |- *. change (ioapic_regs (s <| sk := k |> <| ioapic_regs := f |>)) with f in *.
    rewrite F1 in Hj by (left; unfold REG_VER, REG_TABLE; lia). change (ioapic_regs (s <| sk := k |>)) with (ioapic_regs s) in Hj. fold (maxintr s) in Hj. apply F2. lia. }
  destruct (negb _); cbn [when].
  - eapply wp_mono; [by apply wp_lift_cprintf|]. intros [] s' (k & Hk & ->). by apply Hl.
  - apply wp_intro_ret. specialize (Hl (sk s) (printed_refl _)). by destruct s.
Qed.

Lemma wp_ioapicenable irq c s route : 0 <= irq < 256 -> routes_ok s route ->
  wp (ioapicenable irq c) s (fun _ s' => routes_ok s' (fun j => if j =? irq then Some c else route j) /\ exists f, s' = s <| ioapic_regs := f |>).
Proof.
  intros Hi HR. unfold ioapicenable. apply wp_gets. destruct (Z.eqb_spec (ismp (smp s)) 0) as [E|E].
  { apply wp_intro_ret. split; [by intros N|]. exists (ioapic_regs s). by destruct s. }
  unfold ioapicwrite. apply wp_modify.
  set (f := fun x => if x =? REG_TABLE + 2 * irq + 1 then u32 (Z.shiftl c 24) else if x =? REG_TABLE + 2 * irq then u32 (T_IRQ0 + irq) else ioapic_regs s x).
  change (routes_ok (s <| ioapic_regs := f |>) (fun j => if j =? irq then Some c else route j) /\ exists g, s <| ioapic_regs := f |> = s <| ioapic_regs := g |>).
  split; [|by exists f]. intros _ j Hj. unfold maxintr in Hj. change (ioapic_regs (s <| ioapic_regs := f |>)) with f in *.
  assert (f REG_VER = ioapic_regs s REG_VER) as Ev.
  { unfold f, REG_TABLE. replace (REG_VER =? 16 + 2 * irq + 1) with false by (unfold REG_VER; lia). by replace (REG_VER =? 16 + 2 * irq) with false by (unfold REG_VER; lia). }
  rewrite Ev in Hj. fold (maxintr s) in Hj. specialize (HR E j Hj) as [R1 R2]. unfold f, REG_TABLE in *.
  replace (16 + 2 * j =? 16 + 2 * irq + 1) with false by lia. replace (16 + 2 * j + 1 =? 16 + 2 * irq) with false by lia.
  replace (16 + 2 * j + 1 =? 16 + 2 * irq + 1) with (j =? irq) by lia. replace (16 + 2 * j =? 16 + 2 * irq) with (j =? irq) by lia.
  destruct (Z.eqb_spec j irq) as [->|]; [|done]. split; [|done]. apply u32_small. unfold T_IRQ0. lia.
Qed.
