(* ===== verification/Main.v ===== *)
(** The start of the kernel: [kernel/main.c].

    [main] runs on the first processor.  It sets up every part of the kernel, starts the other
    processors and the first process, and then enters the scheduler, which is the transition
    system of [Machine.v].  The theorem is about the state in which it does. *)
From S2P Require Import Prelude Types Mem Kalloc PageTable Cons Vm VmProofs VmUser VmSpec Shm Sched Ide Bio UserMem Inode Console Fs Pipe File Proc Boot Exec Syscall Trap Procs Mp Irq.

(** ** Code *)

(** What the linker and the machine provide: the addresses of the interrupt vectors, of
    [mpmain] and of [cpus[i].cpu], the programs [initcode] and [bootother], whether the
    processor [i] comes up when it is started, and what the status register of the second disk
    reads as. *)
Class Image : Type := {
  vectors : Z -> Z; sym_mpmain : Z; cpu_field : Z -> Z; initcode : list Z; bootother : list Z;
  comes_up : Z -> bool; ide_status : nat -> Z }.

Section main.
Context `{Linker} `{CodeSyms} `{Board} `{Image}.

(** *** Parts of the init functions that reach the interrupt controllers *)
Definition consoleinit_irq : M sys unit :=
  lift consoleinit ;; picenable IRQ_KBD ;; ioapicenable IRQ_KBD 0.

Definition COM1 : Z := 0x3f8.
Fixpoint uart_puts (l : list Z) : M kernel unit :=
  match l with [] => ret tt | c :: l' => uartputc c ;; uart_puts l' end.
Definition uartinit_irq : M sys unit :=
  outb (COM1 + 2) 0 ;;
  outb (COM1 + 3) 0x80 ;;
  outb (COM1 + 0) (115200 / 9600) ;;
  outb (COM1 + 1) 0 ;;
  outb (COM1 + 3) 0x03 ;;
  outb (COM1 + 4) 0 ;;
  outb (COM1 + 1) 0x01 ;;
  if inb (COM1 + 5) =? 0xFF then ret tt
  else
    lift (modify (fun s => s <| kcons ::= fun k => k <| uart := true |> |>)) ;;
    picenable IRQ_COM1 ;;
    ioapicenable IRQ_COM1 0 ;;
    lift (uart_puts (str "xv6...
")).

Definition ideinit_irq : M sys unit :=
  picenable IRQ_IDE ;;
  let! mp := gets smp in
  ioapicenable IRQ_IDE (ncpu mp - 1) ;;
  lift (ideinit ide_status).

(** *** Processors *)

(** [mpinit] of [mp.c] on the tables in memory, with the writes to the interrupt mode
    register; its loop is given [mpfuel] steps.  Nothing is said of what follows a store past the end of [cpus]. *)
Definition mpinit_io (mpfuel : nat) : M sys unit :=
  let! s := get in
  match mpinit (mem (sk s)) mpfuel (smp s) with
  | MpLoops | MpOverrun => spin
  | MpOk (mp, imcr) =>
      modify (fun s => s <| smp := mp |>) ;;
      when imcr (outb 0x22 0x70 ;; outb 0x23 (Z.lor (inb 0x23) 1))
  end.

(** [cpus[i].id] *)
Definition cpu_id (mp : mpstate) (i : Z) : Z := foldr (fun e v => if fst e =? i then snd e else v) 0 (cpus mp).

Definition seginit_io : M sys unit :=
  let! c := cpunum in
  modify (fun s => s <| gdt ::= fun g => seginit g (cpu_field c) |>) ;;
  lift (modify (fun k => k <| curproc := None |>)).

Definition vmenable : M sys unit := lift switchkvm ;; modify (fun s => s <| paging := true |>).
Definition idtinit : M sys unit := modify (fun s => s <| idt_loaded := true |>).

Definition cinit : M sys unit :=
  let! n := cpunum in
  let! mp := gets smp in
  when (negb (n =? bcpu mp)) (seginit_io ;; lapicinit n) ;;
  vmenable ;;
  lift (cprintf "cpu%d: starting
" [AInt (cpu_id mp n)]) ;;
  idtinit ;;
  modify (fun s => s <| cpu_booted ::= fun f i => if i =? n then 1 else f i |>).

(** The body of the loop of [bootothers] for the processors in [l]; the wait is over when the
    processor has come up. *)
Fixpoint bootothers_loop (code : Z) (l : list Z) : M sys unit :=
  match l with
  | [] => ret tt
  | c :: l' =>
      let! n := cpunum in
      if c =? n then bootothers_loop code l'
      else
        let! stack := lift kalloc in
        lift (store32 (code - 4) (u32 (stack + KSTACKSIZE))) ;;
        lift (store32 (code - 8) sym_mpmain) ;;
        let! mp := gets smp in
        lapicstartap (u8 (cpu_id mp c)) code ;;
        (if comes_up c then modify (fun s => s <| cpu_booted ::= fun f i => if i =? c then 1 else f i |>) else spin) ;;
        bootothers_loop code l'
  end.
Definition bootothers : M sys unit :=
  let code := 0x7000 in
  lift (modify (fun k => k <| mem := put_bytes (mem k) code bootother |>)) ;;
  let! mp := gets smp in
  bootothers_loop code (seqZ 0 (ncpu mp)).

(** Up to the call of [scheduler]; [fileinit] and [iinit] only name their locks. *)
Definition mainc : M sys unit :=
  let! n := cpunum in
  let! mp := gets smp in
  lift (cprintf "
cpu%d: starting xv6

" [AInt (cpu_id mp n)]) ;;
  picinit ;;
  ioapicinit ;;
  consoleinit_irq ;;
  uartinit_irq ;;
  lift kvmalloc ;;
  lift pinit ;;
  modify (fun s => s <| idt := tvinit vectors |>) ;;
  lift binit ;;
  ideinit_irq ;;
  when (ismp mp =? 0) timerinit ;;
  bootothers ;;
  cinit ;;
  lift (userinit initcode) ;;
  lift shm_init.

Definition jmpkstack : M sys unit :=
  let! kstack := lift kalloc in
  if kstack =? 0 then panic "jmpkstack kalloc" else mainc.

Definition main (mpfuel : nat) : M sys unit :=
  mpinit_io mpfuel ;;
  let! mp := gets smp in
  lapicinit (bcpu mp) ;;
  seginit_io ;;
  lift kinit ;;
  jmpkstack.

(** The other processors, up to the call of [scheduler] *)
Definition mpmain : M sys unit := cinit.
End main.
