(* ===== verification/MainProofs.v ===== *)
(** [kernel/main.c]: what [main] has set up when it enters the scheduler. *)
From stdpp Require Import gmap.
From S2P Require Import Prelude Types Mem Kalloc PageTable Cons Vm VmProofs VmUser VmSpec Shm Sched Ide Bio UserMem Inode Console Fs Pipe File Proc Boot Exec Syscall Trap Procs Machine Mp Irq Main.

(** ** The kernel between the steps of [main] *)
Section stages.
Context `{HL : LinkerOk}.

(** No lock is held, the pages [l] are free and the pages [R] in use, the tables are as in the
    image of the kernel, the buffers are [B] and the disk is [D]. *)
Record kstage (k : kernel) (B : list buf) (D : Z -> Z -> list Z) (R l : list Z) : Prop := {
  ks_held : held k = [];
  ks_kmem : kmem_ok k l;
  ks_pages : Forall page_ok (R ++ l);
  ks_nodup : NoDup (R ++ l);
  ks_cons : panicked (kcons k) = false;
  ks_cur : curproc k = None;
  ks_ptable : ptable k = replicate NPROC proc0;
  ks_refs : pgdir_table k = replicate NPROC (mkRefs 0 0);
  ks_icache : icache k = replicate NINODE inode0;
  ks_pid : nextpid k = 1;
  ks_bufs : bufs k = B;
  ks_disk : disk k = D }.

Lemma kstage_ready k B D R l : kstage k B D R l -> cons_ready k.
Proof. intros KS. split; [apply KS|]. rewrite (ks_held _ _ _ _ _ KS). set_solver. Qed.
Lemma kstage_free lk k B D R l : kstage k B D R l -> lk ∉ held k.
Proof. intros KS. rewrite (ks_held _ _ _ _ _ KS). set_solver. Qed.

(** Steps that change none of this. *)
Lemma kstage_ext k k' B D R l : kstage k B D R l -> held k' = held k -> mem k' = mem k -> freelist k' = freelist k ->
  panicked (kcons k') = panicked (kcons k) -> curproc k' = curproc k -> ptable k' = ptable k -> pgdir_table k' = pgdir_table k ->
  icache k' = icache k -> nextpid k' = nextpid k -> bufs k' = bufs k -> disk k' = disk k -> kstage k' B D R l.
Proof. intros [] ???????????. constructor; try congruence. by eapply kmem_ok_same. Qed.

(** Steps that change memory, the free list and the console only. *)
Lemma kstage_mframe k k' B D R R' l l' : kstage k B D R l -> mframe k k' -> kmem_ok k' l' -> Forall page_ok (R' ++ l') -> NoDup (R' ++ l') ->
  kstage k' B D R' l'.
Proof. intros [] (m & f & c & kc & -> & Hp & _) Hk H1 H2. constructor; try done. cbn. congruence. Qed.
Lemma kstage_printed k k' B D R l : kstage k B D R l -> printed k k' -> kstage k' B D R l.
Proof.
  intros KS P. eapply kstage_mframe; [exact KS|by apply printed_mframe| |apply KS|apply KS]. destruct P as (c & -> & _).
  destruct (ks_kmem _ _ _ _ _ KS). by constructor.
Qed.

(** Writes below the first page of the allocator. *)
Lemma kstage_low k m B D R l : kstage k B D R l -> (forall x, 0x100000 <= x -> m x = mem k x) -> kstage (k <| mem := m |>) B D R l.
Proof.
  intros KS Hm. eapply kstage_mframe; [exact KS|apply mframe_mem| |apply KS|apply KS].
  apply (kmem_ok_frame k _ l (fun x => x < 0x100000)); [apply KS|done| |].
  - intros x Hx. apply Hm. lia.
  - intros p x Hp Hx. pose proof (ks_pages _ _ _ _ _ KS) as HP. rewrite Forall_app, !Forall_forall in HP. destruct HP as [_ HP].
    pose proof (page_ok_bounds p (HP p Hp)). unfold in_page in Hx. lia.
Qed.

Lemma wp_kalloc_stage k B D R l : kstage k B D R l -> l <> [] ->
  wp kalloc k (fun r k' => exists l', l = r :: l' /\ r <> 0 /\ kstage k' B D (r :: R) l' /\ mframe k k' /\ mem k' = mem k).
Proof.
  intros KS Hne. eapply wp_kalloc; [by eapply kstage_free|apply KS|done|]. intros r l' -> Hr Hk E. exists l'. split; [done|].
  split; [pose proof (page_ok_bounds r Hr); lia|]. assert (F : mframe k (after_kalloc k r)).
  { rewrite E. exists (mem k), (ld32 (mem k) r), (s32 (freecount k - 1)), (kcons k). by destruct k. }
  split; [|split; [done|by rewrite E]]. assert (HP : (r :: R) ++ l' ≡ₚ R ++ r :: l') by (cbn; apply Permutation_middle).
  eapply kstage_mframe; [exact KS|exact F|exact Hk|rewrite HP; apply KS|rewrite HP; apply KS].
Qed.

(** The map of the kernel is in pages that are in use. *)
Record kdir (k : kernel) (R : list Z) : Prop := {
  kd_dir : kpgdir k ∈ R;
  kd_tabs : ptpages (mem k) (kpgdir k) ⊆ R;
  kd_view : forall va, 0 <= va < 2 ^ 32 -> pte_of (mem k) (kpgdir k) va = kernel_pte va }.
Lemma kdir_keeps k k' R R' : kdir k R -> keeps R k k' -> R ⊆ R' -> kpgdir k' = kpgdir k -> kdir k' R'.
Proof.
  intros [K1 K2 K3] Kp Hs E. assert (Et : ptpages (mem k') (kpgdir k) = ptpages (mem k) (kpgdir k)) by (apply ptpages_ext; intros x; by apply Kp).
  constructor; rewrite ?E, ?Et; [set_solver|set_solver|]. intros va Hva. destruct (keeps_view R k k' (kpgdir k) va) as [-> _]; auto.
Qed.

Lemma wp_kvmalloc k B D R l : kstage k B D R l -> (15 <= length l)%nat ->
  wp kvmalloc k (fun _ k' => exists R' l', kstage k' B D R' l' /\ R ⊆ R' /\ (length l <= length l' + 15)%nat /\ kdir k' R').
Proof.
  intros KS Hl. unfold kvmalloc. apply wp_bind. apply (wp_setupkvm k R l); [by eapply kstage_free|apply KS..| |intros; lia].
  intros d k' l' [Hd Hf Hk Ho _ _ _ Hv] Hlen. cbn [wp modify]. exists (d :: ptpages (mem k') d ++ R), l'.
  assert (KS' : kstage k' B D (d :: ptpages (mem k') d ++ R) l').
  { eapply kstage_mframe; [exact KS|done|done| |]; cbn; rewrite <- app_assoc; apply Ho. }
  split_and!; [eapply kstage_ext; [exact KS'|done..]|set_solver|done|]. constructor; cbn; [set_solver|set_solver|done].
Qed.

(** The buffer cache is empty; it is made of the buffers, and compared with the disk. *)
Definition cache_new (k : kernel) : Prop := lru k (rev (seq 0 NBUF)) /\ bc_inv k [].
Lemma lru_ext k k' l : lru k l -> bufs k' = bufs k -> lru k' l.
Proof. unfold lru, nx, pv, buf_at. intros ? ->. done. Qed.
Lemma cache_ext k k' : cache_new k -> bufs k' = bufs k -> disk k' = disk k -> cache_new k'.
Proof.
  intros [L [(l & H1) H2 H3 H4 H5 H6]] E1 E2. split; [by eapply lru_ext|].
  constructor; rewrite ?E1, ?E2; [exists l; by eapply lru_ext|done|set_solver|done|done|done].
Qed.
Lemma wp_binit k B D R l : kstage k B D R l -> length B = S NBUF -> Forall (fun b => b_flags b = 0) B ->
  wp binit k (fun _ k' => exists B', kstage k' B' D R l /\ cache_new k' /\ mem k' = mem k /\ kpgdir k' = kpgdir k /\ cr3 k' = cr3 k).
Proof.
  intros KS HB Hf. pose proof (ks_bufs _ _ _ _ _ KS) as EB. destruct (binit_run k) as (k' & E & E' & L & I).
  { by rewrite EB. } { intros c Hc. unfold buf_at. rewrite EB. destruct (B !! c) as [b|] eqn:Eb; [|done]. cbn. rewrite Forall_lookup in Hf. by eapply Hf. }
  eapply wp_run; [exact E|]. clear E. set (B' := bufs k') in E'. clearbody B'. subst k'. exists B'. split; [|by split_and!].
  destruct KS. constructor; [done|by apply (kmem_ok_same k)|done..].
Qed.

Lemma wp_pinit k B D R l : kstage k B D R l -> wp pinit k (fun _ k' => k' = k).
Proof. intros KS. eapply wp_run; [apply pinit_same|done]. rewrite (ks_refs _ _ _ _ _ KS). by apply Forall_replicate. Qed.
End stages.

(** ** The whole machine between the steps *)

(** The register of the local APIC has the last word written to it. *)
Definition lapic_val (l : list (Z * Z)) (idx : Z) : option Z := foldl (fun v w => if fst w =? idx then Some (snd w) else v) None l.
(** The local APIC is on, its timer interrupts periodically, and it takes interrupts of all priorities. *)
Definition lapic_on (l : list (Z * Z)) : Prop :=
  lapic_val l SVR = Some (ENABLE + (T_IRQ0 + IRQ_SPURIOUS)) /\ lapic_val l TIMER = Some (PERIODIC + (T_IRQ0 + IRQ_TIMER)) /\
  lapic_val l LINT0 = Some MASKED /\ lapic_val l LINT1 = Some MASKED /\ lapic_val l TPR = Some 0.

Lemma lapic_val_app l l' idx : Forall (fun w => fst w <> idx) l' -> lapic_val (l ++ l') idx = lapic_val l idx.
Proof.
  intros H. unfold lapic_val. rewrite foldl_app. generalize (foldl (fun v w => if fst w =? idx then Some (snd w) else v) None l). intros v.
  revert v. induction H as [|w l' Hw _ IH]; intros v; [done|]. cbn. destruct (Z.eqb_spec (fst w) idx); [done|apply IH].
Qed.
Lemma lapic_on_app l l' : lapic_on l -> Forall (fun w => fst w = ICRLO \/ fst w = ICRHI \/ fst w = EOI) l' -> lapic_on (l ++ l').
Proof.
  intros (H1 & H2 & H3 & H4 & H5) H. unfold lapic_on.
  assert (N : forall idx, idx ∈ [SVR; TIMER; LINT0; LINT1; TPR] -> lapic_val (l ++ l') idx = lapic_val l idx).
  { intros idx Hi. apply lapic_val_app. eapply Forall_impl; [exact H|]. intros [i v] Hw Ei. cbn in Hw, Ei. subst i. rewrite !elem_of_cons, elem_of_nil in Hi.
    destruct Hi as [-> | [-> | [-> | [-> | [-> | []]]]]]; destruct Hw as [Hw | [Hw | Hw]]; discriminate Hw. }
  rewrite !N by set_solver. done.
Qed.

(** What device steps leave alone. *)
Record same (s s' : sys) : Prop := {
  sm_idt : idt s' = idt s; sm_gdt : gdt s' = gdt s; sm_loaded : idt_loaded s' = idt_loaded s; sm_paging : paging s' = paging s;
  sm_mem : mem (sk s') = mem (sk s); sm_kpgdir : kpgdir (sk s') = kpgdir (sk s); sm_cr3 : cr3 (sk s') = cr3 (sk s);
  sm_booted : cpu_booted s' = cpu_booted s }.
Lemma same_refl s : same s s.
Proof. done. Qed.
Lemma same_trans s1 s2 s3 : same s1 s2 -> same s2 s3 -> same s1 s3.
Proof. intros [] []. constructor; congruence. Qed.

(** What starting a processor leaves alone: memory from 1 MB on. *)
Record others (s s' : sys) : Prop := {
  ot_idt : idt s' = idt s; ot_gdt : gdt s' = gdt s; ot_loaded : idt_loaded s' = idt_loaded s; ot_paging : paging s' = paging s;
  ot_mem : forall x, 0x100000 <= x -> mem (sk s') x = mem (sk s) x; ot_kpgdir : kpgdir (sk s') = kpgdir (sk s);
  ot_booted : forall i, cpu_booted s i = 1 -> cpu_booted s' i = 1 }.
Lemma others_refl s : others s s.
Proof. done. Qed.
Lemma others_chain s1 s2 s3 : others s1 s2 -> others s2 s3 -> others s1 s3.
Proof. intros [] []. constructor; [congruence..| |congruence|auto]. intros x Hx. etransitivity; auto. Qed.

Section boot.
Context `{HL : LinkerOk} `{CodeSyms} `{Board} `{Image}.

(** The controllers have the lines [on] and the routes [rt]. *)
Record stage (mp : mpstate) (B : list buf) (D : Z -> Z -> list Z) (R l : list Z) (on : Z -> bool) (rt : Z -> option Z) (s : sys) : Prop := {
  sg_k : kstage (sk s) B D R l;
  sg_mp : smp s = mp;
  sg_lapic : lapic mp <> 0 -> lapic_on (lapic_writes s);
  sg_pics : pics_ok s on;
  sg_routes : routes_ok s rt }.

Lemma pics_ext s s' on : pics_ok s on -> irqmask s' = irqmask s -> ports s' = ports s -> pics_ok s' on.
Proof. intros [] E1 E2. constructor; rewrite ?E1, ?E2; done. Qed.
Lemma routes_ext s s' rt : routes_ok s rt -> smp s' = smp s -> ioapic_regs s' = ioapic_regs s -> routes_ok s' rt.
Proof. unfold routes_ok, maxintr. intros Hr E1 E2. by rewrite E1, E2. Qed.
Lemma stage_sk mp B D R l on rt s k B' D' R' l' : stage mp B D R l on rt s -> kstage k B' D' R' l' -> stage mp B' D' R' l' on rt (s <| sk := k |>).
Proof. intros [] Hk. constructor; [done|done|done|by eapply pics_ext|by eapply routes_ext]. Qed.

(** *** Steps of the device drivers, since the state [s0] *)
Context (mp : mpstate) (D : Z -> Z -> list Z) (s0 : sys).
Definition since (B : list buf) (R l : list Z) (on : Z -> bool) (rt : Z -> option Z) (s : sys) : Prop := stage mp B D R l on rt s /\ same s0 s.

Lemma since_sk B R l on rt s k : since B R l on rt s -> kstage k B D R l ->
  mem k = mem (sk s) -> kpgdir k = kpgdir (sk s) -> cr3 k = cr3 (sk s) -> since B R l on rt (s <| sk := k |>).
Proof.
  intros [S F] Hk E1 E2 E3. split; [by eapply stage_sk|]. eapply same_trans; [exact F|]. by constructor.
Qed.
Lemma since_cprintf B R l on rt s fmt args : since B R l on rt s -> wp (lift (cprintf fmt args)) s (fun _ s' => since B R l on rt s').
Proof.
  intros S. eapply wp_mono; [eapply wp_lift_cprintf, kstage_ready, S|]. intros [] s' (k & P & ->).
  assert (Hk : kstage k B D R l) by (eapply kstage_printed; [apply S|exact P]). destruct P as (c & -> & _). by apply since_sk.
Qed.
Lemma since_picenable B R l on rt s irq : since B R l on rt s -> 0 <= irq < 16 ->
  wp (picenable irq) s (fun _ s' => since B R l (fun j => (j =? irq) || on j) rt s').
Proof.
  intros [[] F] Hi. eapply wp_mono; [by apply wp_picenable|]. intros [] s' [Hp (m & ps & ->)]. split; [|by eapply same_trans].
  constructor; [done|done|done|done|by eapply routes_ext].
Qed.
Lemma since_ioapicenable B R l on rt s irq c : since B R l on rt s -> 0 <= irq < 256 ->
  wp (ioapicenable irq c) s (fun _ s' => since B R l on (fun j => if j =? irq then Some c else rt j) s').
Proof.
  intros [[] F] Hi. eapply wp_mono; [by apply wp_ioapicenable|]. intros [] s' [Hp (f & ->)]. split; [|by eapply same_trans].
  constructor; [done|done|done|by eapply pics_ext|done].
Qed.
Lemma since_outb B R l on rt s p v : since B R l on rt s -> p ∉ [IO_PIC1; IO_PIC1 + 1; IO_PIC2; IO_PIC2 + 1] ->
  wp (outb p v) s (fun _ s' => since B R l on rt s').
Proof.
  intros [[] F] Hp. split; [|by eapply same_trans]. constructor; [done|done|done| |by eapply routes_ext]. apply pics_other; [done|]. by repeat constructor.
Qed.
Ltac port := unfold COM1, IO_TIMER1, TIMER_MODE, IO_RTC, IO_PIC1, IO_PIC2, IO_TIMER1; rewrite !not_elem_of_cons; split_and!; [lia..|apply not_elem_of_nil].
Ltac step L := apply wp_bind; eapply wp_mono; [eapply L; [eassumption|..]|intros [] ? ?].

Lemma uart_puts_run cs k : exists c, uart_puts cs k = Ret tt (k <| kcons := c |>) /\ panicked c = panicked (kcons k).
Proof.
  revert k. induction cs as [|c cs IH]; intros k; cbn [uart_puts]; [exists (kcons k); by destruct k|].
  unfold uartputc. destruct (uart (kcons k)) eqn:E.
  - destruct (IH (k <| kcons ::= fun k => k <| uart_out ::= cons (u8 c) |> |>)) as (c' & E1 & E2). exists c'. split; [|done].
    unfold bind, obind, gets, when, modify. cbn. by rewrite E.
  - destruct (IH k) as (c' & E1 & E2). exists c'. split; [|done]. unfold bind, obind, gets, when, modify. cbn. by rewrite E.
Qed.
Lemma since_uart_puts B R l on rt s cs : since B R l on rt s -> wp (lift (uart_puts cs)) s (fun _ s' => since B R l on rt s').
Proof.
  intros S. apply wp_lift. destruct (uart_puts_run cs (sk s)) as (c & E & Hc). eapply wp_run; [exact E|]. apply since_sk; try done.
  eapply kstage_ext; [apply S|done..].
Qed.

Lemma since_consoleinit B R l on rt s : since B R l on rt s ->
  wp consoleinit_irq s (fun _ s' => since B R l (fun j => (j =? IRQ_KBD) || on j) (fun j => if j =? IRQ_KBD then Some 0 else rt j) s').
Proof.
  intros S. unfold consoleinit_irq. apply wp_bind, wp_lift. unfold consoleinit. apply wp_modify.
  assert (S1 : since B R l on rt (s <| sk := (sk s) <| devsw ::= alter (fun _ => (true, true)) (Z.to_nat CONSOLE) |> <| kcons ::= fun k => k <| cons_locking := true |> |> |>)).
  { apply since_sk; try done. eapply kstage_ext; [apply S|done..]. }
  cbn [wp modify]. step since_picenable; [unfold IRQ_KBD; lia|]. by apply since_ioapicenable; [|unfold IRQ_KBD; lia].
Qed.

(** A serial port is there. *)
Definition has_uart : bool := negb (inb (COM1 + 5) =? 0xFF).
Lemma since_uartinit B R l on rt s : since B R l on rt s ->
  wp uartinit_irq s (fun _ s' => since B R l (fun j => has_uart && (j =? IRQ_COM1) || on j) (fun j => if has_uart && (j =? IRQ_COM1) then Some 0 else rt j) s').
Proof.
  intros S. unfold uartinit_irq. do 7 (step since_outb; [port|]). unfold has_uart. destruct (inb (COM1 + 5) =? 0xFF); cbn [negb andb].
  { apply wp_intro_ret. done. }
  match goal with S : since B R l on rt ?x |- _ => rename x into s1; rename S into S1 end.
  apply wp_bind, wp_lift. cbn [wp modify].
  assert (S2 : since B R l on rt (s1 <| sk := (sk s1) <| kcons ::= fun k => k <| uart := true |> |> |>)).
  { apply since_sk; try done. eapply kstage_ext; [apply S1|done..]. }
  step since_picenable; [unfold IRQ_COM1; lia|]. step since_ioapicenable; [unfold IRQ_COM1; lia|]. by apply since_uart_puts.
Qed.

Lemma ideinit_run st k : exists b, ideinit st k = Ret tt (k <| havedisk1 := b |>).
Proof.
  unfold ideinit, idewait, bind, obind, get, ret. destruct (probe 1000 st); cbn [when]; [by exists true|]. exists (havedisk1 k). by destruct k.
Qed.
Lemma since_ideinit B R l on rt s : since B R l on rt s ->
  wp ideinit_irq s (fun _ s' => since B R l (fun j => (j =? IRQ_IDE) || on j) (fun j => if j =? IRQ_IDE then Some (ncpu mp - 1) else rt j) s').
Proof.
  intros S. unfold ideinit_irq. step since_picenable; [unfold IRQ_IDE; lia|].
  match goal with S : since B R l _ rt ?x |- wp _ ?x _ => pose proof (sg_mp _ _ _ _ _ _ _ _ (proj1 S)) as Emp end.
  apply wp_gets. rewrite Emp. step since_ioapicenable; [unfold IRQ_IDE; lia|]. apply wp_lift.
  match goal with |- wp _ (sk ?x) _ => destruct (ideinit_run ide_status (sk x)) as (b & E) end. eapply wp_run; [exact E|].
  match goal with S : since _ _ _ _ _ ?x |- since _ _ _ _ _ (?x <| sk := _ |>) => apply since_sk; try done; eapply kstage_ext; [apply S|done..] end.
Qed.

Lemma since_timerinit B R l on rt s : since B R l on rt s ->
  wp timerinit s (fun _ s' => since B R l (fun j => (j =? IRQ_TIMER) || on j) rt s').
Proof. intros S. unfold timerinit. do 3 (step since_outb; [port|]). by apply since_picenable; [|unfold IRQ_TIMER; lia]. Qed.

(** *** Starting the other processors *)
Definition booting (B : list buf) (R l : list Z) (on : Z -> bool) (rt : Z -> option Z) (s : sys) : Prop := stage mp B D R l on rt s /\ others s0 s.
Lemma booting_outb B R l on rt s p v : booting B R l on rt s -> p ∉ [IO_PIC1; IO_PIC1 + 1; IO_PIC2; IO_PIC2 + 1] ->
  wp (outb p v) s (fun _ s' => booting B R l on rt s').
Proof.
  intros [[] []] Hp. split; [|by constructor]. constructor; [done|done|done| |by eapply routes_ext]. apply pics_other; [done|]. by repeat constructor.
Qed.
Lemma booting_low B R l on rt s f : booting B R l on rt s -> (forall m x, 0x100000 <= x -> f m x = m x) ->
  wp (lift (modify (fun k => k <| mem ::= f |>))) s (fun _ s' => booting B R l on rt s').
Proof.
  intros [S []] Hf. apply wp_lift. cbn [wp modify]. split; [|constructor; try done; cbn; intros x Hx; rewrite Hf by done; auto].
  eapply stage_sk; [exact S|]. apply (kstage_low (sk s) (f (mem (sk s)))); [apply S|]. intros x Hx. by apply Hf.
Qed.
Lemma booting_icr B R l on rt s idx v : booting B R l on rt s -> idx = ICRLO \/ idx = ICRHI ->
  wp (lapicw idx v) s (fun _ s' => booting B R l on rt s').
Proof.
  intros [[] []] Hi. split; [|by constructor]. constructor; [done|done| |by eapply pics_ext|by eapply routes_ext].
  intros Hl. cbn. apply lapic_on_app; [auto|]. constructor; [|done]. cbn. tauto.
Qed.
Lemma booting_kalloc B R l on rt s : booting B R l on rt s -> l <> [] ->
  wp (lift kalloc) s (fun r s' => exists l', l = r :: l' /\ booting B (r :: R) l' on rt s').
Proof.
  intros [S []] Hl. apply wp_lift. eapply wp_mono; [eapply wp_kalloc_stage; [apply S|done]|].
  intros r k (l' & -> & _ & Hk & (m & f & c & kc & -> & _) & Em). exists l'. split; [done|]. split; [by eapply stage_sk|].
  constructor; try done. intros x Hx. cbn in *. rewrite Em. auto.
Qed.
Lemma st16_low m a v x : a + 2 <= x -> st16 m a v x = m x.
Proof. intros Hx. unfold st16, st8. by destruct (Z.eqb_spec x (a + 1)), (Z.eqb_spec x a); try lia. Qed.
Lemma booting_startap B R l on rt s i a : booting B R l on rt s -> wp (lapicstartap i a) s (fun _ s' => booting B R l on rt s').
Proof.
  intros S. unfold lapicstartap. do 2 (step booting_outb; [port|]).
  step (fun B R l on rt s => booting_low B R l on rt s (fun m => st16 (st16 m (Z.lor (Z.shiftl 0x40 4) 0x67) 0) (Z.lor (Z.shiftl 0x40 4) 0x67 + 2) (Z.shiftr a 4))).
  { intros m x Hx. change (Z.lor (Z.shiftl 64 4) 103) with 0x467. rewrite !st16_low by lia. done. }
  do 3 (step booting_icr; [tauto|]). apply wp_bind. step booting_icr; [tauto|]. eapply wp_mono; [eapply booting_icr; [eassumption|tauto]|intros [] ? ?].
  step booting_icr; [tauto|]. eapply booting_icr; [eassumption|tauto].
Qed.

End boot.
Ltac step L := apply wp_bind; eapply wp_mono; [eapply L; [eassumption|..]|intros [] ? ?].

Section main.
Context `{HL : LinkerOk} `{CodeSyms} `{Board} `{Image} (mp : mpstate) (D : Z -> Z -> list Z).

(** The processor this runs on. *)
Definition this_cpu : Z := if lapic mp =? 0 then 0 else Z.shiftr (lapic_reg ID) 24.
Lemma wp_cpunum s (Q : Z -> sys -> Prop) : smp s = mp -> Q this_cpu s -> wp cpunum s Q.
Proof. intros E HQ. unfold cpunum. apply wp_gets, wp_intro_ret. by rewrite E. Qed.

Lemma wp_boot_one B R l on rt s c (m : M sys unit) Q : stage mp B D R l on rt s -> l <> [] -> comes_up c = true ->
  (forall r l' s', l = r :: l' -> stage mp B D (r :: R) l' on rt s' -> others s s' -> cpu_booted s' c = 1 -> wp m s' Q) ->
  wp (let! stack := lift kalloc in
      lift (store32 (0x7000 - 4) (u32 (stack + KSTACKSIZE))) ;;
      lift (store32 (0x7000 - 8) sym_mpmain) ;;
      let! mp := gets smp in
      lapicstartap (u8 (cpu_id mp c)) 0x7000 ;;
      (if comes_up c then modify (fun s => s <| cpu_booted ::= fun f i => if i =? c then 1 else f i |>) else spin) ;; m) s Q.
Proof.
  intros S Hl Hc HQ. assert (S0 : booting mp D s B R l on rt s) by (split; [done|apply others_refl]).
  apply wp_bind. eapply wp_mono; [eapply booting_kalloc; [exact S0|done]|]. intros r s1 (l' & -> & S1).
  step (fun B R l on rt s' => booting_low mp D s B R l on rt s' (fun m => st32 m (0x7000 - 4) (u32 (r + KSTACKSIZE)))); [intros ? x Hx; apply st32_other; lia|].
  step (fun B R l on rt s' => booting_low mp D s B R l on rt s' (fun m => st32 m (0x7000 - 8) sym_mpmain)); [intros ? x Hx; apply st32_other; lia|].
  apply wp_gets. step booting_startap. rewrite Hc. apply wp_modify.
  match goal with B : booting _ _ _ _ _ _ _ _ ?x |- wp m (?x <| cpu_booted ::= _ |>) _ => destruct B as [[] []] end. apply (HQ r l'); [done| | |].
  - constructor; [done|done|done|by eapply pics_ext|by eapply routes_ext].
  - constructor; try done. intros i Hi. cbn. destruct (i =? c); auto.
  - cbn. by rewrite Z.eqb_refl.
Qed.

Lemma wp_bootothers_loop L : forall B R l on rt s, stage mp B D R l on rt s -> (length L <= length l)%nat -> Forall (fun c => comes_up c = true) L ->
  wp (bootothers_loop 0x7000 L) s (fun _ s' => exists R' l', stage mp B D R' l' on rt s' /\ R ⊆ R' /\ (length l <= length l' + length L)%nat /\
    others s s' /\ forall c, c ∈ L -> c = this_cpu \/ cpu_booted s' c = 1).
Proof.
  induction L as [|c L IH]; intros B R l on rt s S Hl HL'; cbn [bootothers_loop].
  { apply wp_intro_ret. exists R, l. split_and!; [done|done|cbn; lia|apply others_refl|set_solver]. }
  apply Forall_cons in HL' as [Hc HL']. cbn [length] in Hl. apply wp_bind, wp_cpunum; [apply S|].
  destruct (Z.eqb_spec c this_cpu) as [->|Hne].
  { eapply wp_mono; [eapply IH; [exact S|lia|done]|]. intros [] s' (R' & l' & S' & HR & Hlen & O & Hb). exists R', l'. split_and!; [done|done|cbn; lia|done|].
    intros c [->|Hi]%elem_of_cons; auto. }
  assert (Hne' : l <> []) by (intros ->; cbn in Hl; lia).
  eapply wp_boot_one; [exact S|done|done|]. intros r l1 s1 -> S1 O1 Hb1. cbn [length] in Hl.
  eapply wp_mono; [eapply IH; [exact S1|lia|done]|]. intros [] s' (R' & l' & S' & HR & Hlen & O & Hb). exists R', l'.
  split_and!; [done|set_solver|cbn; lia|by eapply others_chain|]. intros x [->|Hi]%elem_of_cons; [|auto]. right. by apply O.
Qed.

Lemma wp_bootothers B R l on rt s : stage mp B D R l on rt s -> (Z.to_nat (ncpu mp) <= length l)%nat -> (forall c, 0 <= c < ncpu mp -> comes_up c = true) ->
  Z.of_nat (length bootother) <= 0x100000 - 0x7000 ->
  wp bootothers s (fun _ s' => exists R' l', stage mp B D R' l' on rt s' /\ R ⊆ R' /\ (length l <= length l' + Z.to_nat (ncpu mp))%nat /\
    others s s' /\ forall c, 0 <= c < ncpu mp -> c = this_cpu \/ cpu_booted s' c = 1).
Proof.
  intros S Hl Hc Hb. unfold bootothers. assert (S0 : booting mp D s B R l on rt s) by (split; [done|apply others_refl]).
  step (fun B R l on rt s' => booting_low mp D s B R l on rt s' (fun m => put_bytes m 0x7000 bootother)); [intros m x Hx; apply put_bytes_out; lia|].
  match goal with B : booting _ _ _ _ _ _ _ _ ?x |- wp _ ?x _ => rename x into s1; destruct B as [S1 O1] end.
  apply wp_gets. rewrite (sg_mp _ _ _ _ _ _ _ _ S1). assert (Elen : length (seqZ 0 (ncpu mp)) = Z.to_nat (ncpu mp)) by apply length_seqZ.
  eapply wp_mono; [eapply wp_bootothers_loop; [exact S1|lia|]|].
  { apply Forall_forall. intros c Hi%elem_of_seqZ. apply Hc. lia. }
  intros [] s' (R' & l' & S' & HR & Hlen & O & Hbt). exists R', l'. split_and!; [done|done|lia|by eapply others_chain|].
  intros c Hi. apply Hbt, elem_of_seqZ. lia.
Qed.

(** *** The boot processor *)
Lemma wp_lapicw s k w i v (m : M sys unit) Q : wp m (s <| sk := k |> <| lapic_writes := w ++ [(i, u32 v)] |>) Q ->
  wp (lapicw i v ;; m) (s <| sk := k |> <| lapic_writes := w |>) Q.
Proof. intros W. unfold lapicw. by apply wp_modify. Qed.
Lemma writes_set (s : sys) w : lapic_writes (s <| lapic_writes := w |>) = w.
Proof. done. Qed.
Lemma lapic_last v l w idx x : lapic_val l idx = v -> foldl (fun v w => if fst w =? idx then Some (snd w) else v) v w = x -> lapic_val (l ++ w) idx = x.
Proof. intros <- <-. unfold lapic_val. by rewrite foldl_app. Qed.

Lemma wp_lapicinit c s : smp s = mp -> cons_ready (sk s) -> (lapic mp <> 0 -> has (lapic_reg ICRLO) DELIVS = false) ->
  wp (lapicinit c) s (fun _ s' => exists k w, printed (sk s) k /\ s' = s <| sk := k |> <| lapic_writes := w |> /\ (lapic mp <> 0 -> lapic_on w)).
Proof.
  intros Emp Hc Hd. unfold lapicinit. apply wp_gets. rewrite Emp. apply wp_bind. eapply wp_mono; [by apply wp_lift_cprintf|]. intros [] s1 (k & P & ->).
  destruct (Z.eqb_spec (lapic mp) 0) as [E|E].
  { apply wp_intro_ret. exists k, (lapic_writes s). split_and!; [done|by destruct s|done]. }
  rewrite (Hd E). replace (s <| sk := k |>) with (s <| sk := k |> <| lapic_writes := lapic_writes s |>) by by destruct s. do 6 apply wp_lapicw.
  set (w := lapic_writes s). clearbody w. apply wp_bind.
  assert (Tail : forall w', (w' = w ++ [(SVR, u32 (Z.lor ENABLE (T_IRQ0 + IRQ_SPURIOUS))); (TDCR, u32 X1); (TIMER, u32 (Z.lor PERIODIC (T_IRQ0 + IRQ_TIMER))); (TICR, u32 10000000); (LINT0, u32 MASKED); (LINT1, u32 MASKED)] \/
      w' = w ++ [(SVR, u32 (Z.lor ENABLE (T_IRQ0 + IRQ_SPURIOUS))); (TDCR, u32 X1); (TIMER, u32 (Z.lor PERIODIC (T_IRQ0 + IRQ_TIMER))); (TICR, u32 10000000); (LINT0, u32 MASKED); (LINT1, u32 MASKED); (PCINT, u32 MASKED)]) ->
      wp (lapicw ERROR (T_IRQ0 + IRQ_ERROR) ;; lapicw ESR 0 ;; lapicw ESR 0 ;; lapicw EOI 0 ;; lapicw ICRHI 0 ;; lapicw ICRLO (Z.lor (Z.lor BCAST INIT) LEVEL) ;; lapicw TPR 0)
        (s <| sk := k |> <| lapic_writes := w' |>) (fun _ s' => exists k w, printed (sk s) k /\ s' = s <| sk := k |> <| lapic_writes := w |> /\ (lapic mp <> 0 -> lapic_on w))).
  { intros w' Hw. do 6 apply wp_lapicw. eexists k, (_ ++ [(TPR, u32 0)]). split; [done|]. split; [reflexivity|]. intros _.
    rewrite writes_set. destruct Hw as [-> | ->]; rewrite <- !app_assoc; (split_and!; (eapply (lapic_last _ w); [reflexivity|vm_compute; reflexivity])). }
  destruct (4 <=? Z.land (Z.shiftr (lapic_reg VER) 16) 0xFF); cbn [when].
  - unfold lapicw at 1. cbn [wp modify]. apply Tail. right. rewrite writes_set. by rewrite <- !app_assoc.
  - apply wp_intro_ret, Tail. left. by rewrite <- !app_assoc.
Qed.

Lemma wp_cinit B R l on rt s : stage mp B D R l on rt s -> this_cpu = bcpu mp ->
  wp cinit s (fun _ s' => stage mp B D R l on rt s' /\ paging s' = true /\ idt_loaded s' = true /\ idt s' = idt s /\ gdt s' = gdt s /\
    mem (sk s') = mem (sk s) /\ kpgdir (sk s') = kpgdir (sk s) /\ cr3 (sk s') = PADDR (kpgdir (sk s)) /\
    cpu_booted s' this_cpu = 1 /\ forall c, cpu_booted s c = 1 -> cpu_booted s' c = 1).
Proof.
  intros S Ec. unfold cinit. apply wp_bind, wp_cpunum; [apply S|]. apply wp_gets. rewrite (sg_mp _ _ _ _ _ _ _ _ S), Ec, Z.eqb_refl. cbn [negb when].
  apply wp_bind, wp_intro_ret. unfold vmenable. apply wp_bind, wp_bind, wp_lift. unfold switchkvm. cbn [wp modify].
  set (s1 := s <| sk := (sk s) <| cr3 := PADDR (kpgdir (sk s)) |> |> <| paging := true |>).
  assert (S1 : since mp D s1 B R l on rt s1).
  { split; [|apply same_refl]. destruct S as [Sk]. constructor; [eapply kstage_ext; [exact Sk|done..]|done|done|by eapply pics_ext|by eapply routes_ext]. }
  apply wp_bind. eapply wp_mono; [by eapply since_cprintf|]. intros [] s2 [S2 []]. unfold idtinit. apply wp_modify. cbn [wp modify].
  destruct S2. split_and!; try done.
  - constructor; [done|done|done|by eapply pics_ext|by eapply routes_ext].
  - cbn. by rewrite Z.eqb_refl.
  - intros c Hb. cbn. destruct (c =? _); [done|]. by rewrite sm_booted0.
Qed.

(** *** The first process *)

(** The kernel when [scheduler] is called: the first process is there, apart from the map of the kernel; the
    buffer cache and the shared memory are empty; and the machine of [Machine.v] can start from here. *)
Record kernel_up (k : kernel) : Prop := {
  ku_held : held k = [];
  ku_cur : curproc k = None;
  ku_initproc : initproc k = Some 0%nat;
  ku_first : exists R, first_process initcode R 1 (replicate 63 proc0) k /\ kdir k R;
  ku_cr3 : cr3 k = PADDR (kpgdir k);
  ku_cache : cache_new k;
  ku_shm : Forall (fun e => shm_count e = 0) (shm_tab k);
  ku_machine : reachable initcode (Running k ∅) }.

Lemma first_process_shm code R pid pt k f : first_process code R pid pt k -> first_process code R pid pt (k <| shm_tab ::= f |>).
Proof.
  intros (p & d & page & l' & ? & ? & ? & ? & ? & ? & ? & ? & ? & ? & ? & ? & ? & U & ? & ?). exists p, d, page, l'.
  split_and!; try done. by apply (uv_ok_mem k).
Qed.

Lemma wp_start k B R l : kstage k B D R l -> (17 <= length l)%nat -> kdir k R -> cache_new k -> cr3 k = PADDR (kpgdir k) ->
  Z.of_nat (length initcode) < PGSIZE -> wp (userinit initcode ;; shm_init) k (fun _ k' => kernel_up k').
Proof.
  intros KS Hl Hd Hc E3 Hi.
  assert (W : wp (userinit initcode) k (fun _ k' => started_init initcode R k (replicate 63 proc0) k')).
  { destruct KS. apply (wp_userinit k initcode R l _ (replicate 63 (mkRefs 0 0)) (replicate 49 inode0) proc0); try done; by apply Forall_replicate. }
  apply wp_bind. destruct (wp_elim _ _ _ W) as ([] & k1 & E & Hh & Hip & Kp & Ed & Ecu & Eb & Edk & Ec3 & F). eapply wp_run; [exact E|].
  unfold shm_init. cbn [wp modify]. pose proof (ks_cur _ _ _ _ _ KS) as Ecur. rewrite (ks_pid _ _ _ _ _ KS) in F.
  assert (Hr : reachable initcode (Running k1 ∅)).
  { apply reach_boot. destruct KS as [?????? Ep Er ? En ??]. apply (booted_run _ k k); rewrite ?Ep, ?Er, ?En; try done.
    - by apply Forall_replicate.
    - apply pinit_same. rewrite Er. by apply Forall_replicate.
    - rewrite E. unfold settle. by rewrite forget_empty. }
  constructor; try done.
  - cbn. congruence.
  - exists R. split; [by apply first_process_shm|]. by apply (kdir_keeps k _ R).
  - cbn. congruence.
  - by apply (cache_ext k).
  - apply Forall_forall. intros e (e' & -> & _)%list_elem_of_fmap. done.
  - eapply reach_step; [exact Hr|]. by apply step_user.
Qed.

(** *** [mainc] *)

(** The lines that are enabled at the 8259A chips, and where the I/O APIC sends interrupts. *)
Definition lines (j : Z) : bool :=
  (ismp mp =? 0) && (j =? IRQ_TIMER) || ((j =? IRQ_IDE) || (has_uart && (j =? IRQ_COM1) || ((j =? IRQ_KBD) || (j =? IRQ_SLAVE)))).
Definition routes (j : Z) : option Z :=
  if j =? IRQ_IDE then Some (ncpu mp - 1) else if has_uart && (j =? IRQ_COM1) then Some 0 else if j =? IRQ_KBD then Some 0 else None.

(** The machine when [scheduler] is called. *)
Record machine_up (g : list segdesc) (s : sys) : Prop := {
  mu_kernel : kernel_up (sk s);
  mu_paging : paging s = true;
  mu_idt : idt s = tvinit vectors;
  mu_loaded : idt_loaded s = true;
  mu_gdt : gdt s = seginit g (cpu_field this_cpu);
  mu_mp : smp s = mp;
  mu_pics : pics_ok s lines;
  mu_routes : routes_ok s routes;
  mu_lapic : lapic mp <> 0 -> lapic_on (lapic_writes s);
  mu_this : cpu_booted s this_cpu = 1;
  mu_cpus : forall c, 0 <= c < ncpu mp -> cpu_booted s c = 1 }.

Lemma irqmask0_bits j : 0 <= j < 16 -> Z.testbit irqmask0 j = negb (j =? IRQ_SLAVE).
Proof.
  intros Hj. assert (A : forallb (fun j => Bool.eqb (Z.testbit irqmask0 j) (negb (j =? IRQ_SLAVE))) (seqZ 0 16) = true) by done.
  rewrite forallb_forall in A. apply Bool.eqb_prop, A, list_elem_of_In, elem_of_seqZ. lia.
Qed.

(** Up to the drivers that need no memory. *)
Lemma wp_mainc_devices (m : M sys unit) s B R l Q : kstage (sk s) B D R l -> smp s = mp -> irqmask s = irqmask0 -> (lapic mp <> 0 -> lapic_on (lapic_writes s)) ->
  (forall s', since mp D s B R l (fun j => has_uart && (j =? IRQ_COM1) || ((j =? IRQ_KBD) || (j =? IRQ_SLAVE)))
     (fun j => if has_uart && (j =? IRQ_COM1) then Some 0 else if j =? IRQ_KBD then Some 0 else None) s' -> wp m s' Q) ->
  wp (picinit ;; ioapicinit ;; consoleinit_irq ;; uartinit_irq ;; m) s Q.
Proof.
  intros KS Emp Em Hl HQ. apply wp_bind. eapply wp_mono; [apply (wp_picinit s (fun j => j =? IRQ_SLAVE))|].
  { rewrite Em. done. } { rewrite Em. apply irqmask0_bits. }
  intros [] s1 [P (ps & E1)]. apply wp_bind. eapply wp_mono; [apply wp_ioapicinit|]; [rewrite E1; by eapply kstage_ready|].
  intros [] s2 [HR (k & f & Hp & E2)].
  assert (S : since mp D s B R l (fun j => j =? IRQ_SLAVE) (fun _ => None) s2).
  { assert (KS' : kstage k B D R l) by (eapply kstage_printed; [exact KS|by rewrite E1 in Hp]). destruct Hp as (c & -> & _).
    rewrite E2 in *. rewrite E1 in *. split; [|done]. constructor; [done|done|done| |done]. by eapply pics_ext. }
  step since_consoleinit. step since_uartinit. by apply HQ.
Qed.

(** From the kernel map on. *)
Lemma wp_mainc_memory (m : M sys unit) s B R l on rt Q : stage mp B D R l on rt s -> (15 <= length l)%nat -> length B = S NBUF -> Forall (fun b => b_flags b = 0) B ->
  (forall s' B' R' l', stage mp B' D R' l' on rt s' -> (length l <= length l' + 15)%nat -> kdir (sk s') R' -> cache_new (sk s') ->
     idt s' = tvinit vectors -> gdt s' = gdt s -> cpu_booted s' = cpu_booted s -> wp m s' Q) ->
  wp (lift kvmalloc ;; lift pinit ;; modify (fun s => s <| idt := tvinit vectors |>) ;; lift binit ;; m) s Q.
Proof.
  intros S Hl HB Hf HQ. apply wp_bind, wp_lift. eapply wp_mono; [eapply wp_kvmalloc; [apply S|done]|]. intros [] k1 (R1 & l1 & K1 & _ & Hl1 & Hd1).
  apply wp_bind, wp_lift. eapply wp_mono; [by eapply wp_pinit|]. intros [] k' ->. apply wp_modify. apply wp_bind, wp_lift.
  eapply wp_mono; [by eapply wp_binit|]. intros [] k2 (B2 & K2 & C2 & Em & Ed & _). eapply (HQ _ B2 R1 l1); try done.
  - destruct S. constructor; [done|done|done|by eapply pics_ext|by eapply routes_ext].
  - eapply (kdir_keeps k1); [done| |done|done]. intros p x _ _. cbn. by rewrite Em.
Qed.

(** The disk, the timer and the other processors. *)
Lemma wp_mainc_others (m : M sys unit) s B R l on rt Q : stage mp B D R l on rt s -> (Z.to_nat (ncpu mp) <= length l)%nat ->
  (forall c, 0 <= c < ncpu mp -> comes_up c = true) -> Z.of_nat (length bootother) <= 0x100000 - 0x7000 ->
  kdir (sk s) R -> cache_new (sk s) ->
  (forall s' R' l', stage mp B D R' l' (fun j => (ismp mp =? 0) && (j =? IRQ_TIMER) || ((j =? IRQ_IDE) || on j))
       (fun j => if j =? IRQ_IDE then Some (ncpu mp - 1) else rt j) s' ->
     (length l <= length l' + Z.to_nat (ncpu mp))%nat -> kdir (sk s') R' -> cache_new (sk s') ->
     idt s' = idt s -> gdt s' = gdt s -> (forall c, 0 <= c < ncpu mp -> c = this_cpu \/ cpu_booted s' c = 1) -> wp m s' Q) ->
  wp (ideinit_irq ;; when (ismp mp =? 0) timerinit ;; bootothers ;; m) s Q.
Proof.
  intros S Hl Hc Hb Hd Hca HQ. assert (S0 : since mp D s B R l on rt s) by (split; [done|apply same_refl]).
  step since_ideinit. match goal with S : since _ _ _ _ _ _ _ _ ?x |- wp _ ?x _ => rename x into s1; rename S into S1 end.
  apply wp_bind. eapply (wp_mono _ _ (fun _ s' => since mp D s B R l (fun j => (ismp mp =? 0) && (j =? IRQ_TIMER) || ((j =? IRQ_IDE) || on j)) _ s')).
  { destruct (ismp mp =? 0); cbn [when andb orb]; [by apply since_timerinit|by apply wp_intro_ret]. }
  intros [] s2 [S2 F2]. apply wp_bind. eapply wp_mono; [eapply wp_bootothers; [exact S2|done..]|].
  intros [] s3 (R3 & l3 & S3 & HR & Hl3 & O3 & Hbt). destruct F2, O3. apply (HQ s3 R3 l3); [done|done| | |congruence|congruence|done].
  - eapply (kdir_keeps (sk s)); [done| |done|congruence]. intros p x Hp Hx. rewrite ot_mem0, sm_mem0; [done|].
    pose proof (ks_pages _ _ _ _ _ (sg_k _ _ _ _ _ _ _ _ S)) as HP. rewrite Forall_app, !Forall_forall in HP. destruct HP as [HP _].
    pose proof (page_ok_bounds p (HP p Hp)). unfold in_page in Hx. lia.
  - apply (cache_ext (sk s)); [done|..]; destruct S as [[]], S3 as [[]]; congruence.
Qed.

Lemma wp_mainc s B R l g : kstage (sk s) B D R l -> smp s = mp -> irqmask s = irqmask0 -> (lapic mp <> 0 -> lapic_on (lapic_writes s)) ->
  (32 + Z.to_nat (ncpu mp) <= length l)%nat -> length B = S NBUF -> Forall (fun b => b_flags b = 0) B -> gdt s = seginit g (cpu_field this_cpu) ->
  this_cpu = bcpu mp -> (forall c, 0 <= c < ncpu mp -> comes_up c = true) -> Z.of_nat (length bootother) <= 0x100000 - 0x7000 ->
  Z.of_nat (length initcode) < PGSIZE -> wp mainc s (fun _ s' => machine_up g s').
Proof.
  intros KS Emp Em Hla Hl HB Hf Hg Ht Hc Hbo Hi. unfold mainc. apply wp_bind, wp_cpunum; [done|]. apply wp_gets. rewrite Emp.
  apply wp_bind. eapply wp_mono; [eapply wp_lift_cprintf, kstage_ready, KS|]. intros [] s1 (k & P & ->).
  assert (KS1 : kstage k B D R l) by by eapply kstage_printed. eapply wp_mainc_devices; [done|done|done|done|]. intros s2 [S2 F2].
  eapply wp_mainc_memory; [exact S2|lia|done|done|]. intros s3 B3 R3 l3 S3 Hl3 Hd3 Hc3 I3 G3 _.
  eapply wp_mainc_others; [exact S3|lia|done|done|done|done|]. intros s4 R4 l4 S4 Hl4 Hd4 Hc4 I4 G4 Hbt.
  apply wp_bind. eapply wp_mono; [by eapply wp_cinit|]. intros [] s5 (S5 & P5 & L5 & I5 & G5 & M5 & D5 & C5 & T5 & Hb5).
  assert (W : wp (userinit initcode ;; shm_init) (sk s5) (fun _ k' => kernel_up k')).
  { eapply wp_start; [apply S5|lia| | |congruence|done].
    - eapply (kdir_keeps (sk s4)); [done| |done|done]. intros p x _ _. by rewrite M5.
    - apply (cache_ext (sk s4)); [done|..]; destruct S4 as [[]], S5 as [[]]; congruence. }
  apply wp_bind_inv in W. apply wp_bind, wp_lift. eapply wp_mono; [exact W|]. intros [] k6 W6. apply wp_lift. eapply wp_mono; [exact W6|].
  intros [] k7 U. destruct S5, F2. change (gdt (s <| sk := k |>)) with (gdt s) in *. constructor; try done.
  - change (idt s5 = tvinit vectors). congruence.
  - change (gdt s5 = seginit g (cpu_field this_cpu)). congruence.
  - by eapply pics_ext.
  - intros c Hi'. destruct (Hbt c Hi') as [->|Hx]; [exact T5|exact (Hb5 c Hx)].
Qed.

(** *** [main] *)

(** The image of the kernel when [main] is entered: the tables are zero, except for the counter of identifiers
    and the mask of the interrupt controllers. *)
Record power_on (s : sys) : Prop := {
  po_held : held (sk s) = [];
  po_free : freelist (sk s) = 0;
  po_cons : panicked (kcons (sk s)) = false;
  po_ptable : ptable (sk s) = replicate NPROC proc0;
  po_refs : pgdir_table (sk s) = replicate NPROC (mkRefs 0 0);
  po_icache : icache (sk s) = replicate NINODE inode0;
  po_pid : nextpid (sk s) = 1;
  po_bufs : length (bufs (sk s)) = S NBUF;
  po_flags : Forall (fun b => b_flags b = 0) (bufs (sk s));
  po_mask : irqmask s = irqmask0 }.

End main.

Lemma wp_main `{HL : LinkerOk} `{CodeSyms} `{Board} `{Image} (s : sys) (mp : mpstate) (imcr : bool) (mpfuel : nat) :
  power_on s -> mpinit (mem (sk s)) mpfuel (smp s) = MpOk (mp, imcr) ->
  (lapic mp <> 0 -> has (lapic_reg ICRLO) DELIVS = false) -> this_cpu mp = bcpu mp -> (forall c, 0 <= c < ncpu mp -> comes_up c = true) ->
  (33 + Z.to_nat (ncpu mp) <= npages)%nat -> Z.of_nat (length bootother) <= 0x100000 - 0x7000 -> Z.of_nat (length initcode) < PGSIZE ->
  wp (main mpfuel) s (fun _ s' => machine_up mp (gdt s) s').
Proof.
  intros [] Emp Hla Ht Hc Hn Hbo Hi. unfold main, mpinit_io. apply wp_bind, wp_get. rewrite Emp. apply wp_modify.
  apply (wp_mono _ _ (fun _ s' => exists ps, s' = s <| smp := mp |> <| ports := ps |>)).
  { destruct imcr; cbn [when]; [|exists (ports s); by destruct s]. unfold outb. apply wp_modify. cbn [wp modify]. eexists. reflexivity. }
  intros [] s1 (ps & ->). apply wp_gets. apply wp_bind. eapply wp_mono; [apply (wp_lapicinit mp); [done| |done]|].
  { split; [done|]. change (LCons ∉ held (sk s)). rewrite po_held0. set_solver. }
  intros [] s2 (k & w & (c & -> & Hp & _) & -> & Hw).
  unfold seginit_io. apply wp_bind, wp_bind, (wp_cpunum mp); [done|]. apply wp_modify, wp_lift. cbn [wp modify]. apply wp_bind, wp_lift.
  match goal with |- wp kinit ?x _ => set (k2 := x) end. destruct (kinit_run k2) as (k3 & Ek & Hk & _ & m & f & n & E3); [done|done|].
  eapply wp_run; [exact Ek|]. set (l := rev (pages_from (PGROUNDUP sym_end) npages)) in *.
  assert (Hll : length l = npages) by (unfold l, pages_from; by rewrite length_rev, length_fmap, length_seq).
  assert (KS : kstage k3 (bufs (sk s)) (disk (sk s)) [] l).
  { pose proof Hk as [_ Hk2 Hk3]. subst k3. constructor; try done. change (panicked c = false). rewrite Hp. exact po_cons0. }
  unfold jmpkstack. apply wp_bind, wp_lift. eapply wp_mono; [eapply wp_kalloc_stage; [exact KS|by intros E; rewrite E in Hll; cbn in Hll; lia]|].
  intros r k4 (l4 & El & Hr & K4 & _). destruct (Z.eqb_spec r 0); [done|]. rewrite El in Hll. cbn [length] in Hll.
  eapply wp_mainc; [exact K4|done|done|done|lia|done|done|done|done|done|done|done].
Qed.

(** C4. Started on the boot processor of a machine that has free memory for the kernel map, the first process and a
    stack for each processor, [main] reaches the scheduler.  Then paging is on with a page table that maps every
    address as the kernel needs it; the interrupt and segment tables are those of the kernel; the 8259A chips have the
    vectors of the kernel and let through exactly the keyboard, the disk, the serial port if there is one, the second
    chip, and on a single processor the timer; on a multiprocessor the I/O APIC sends the keyboard, the serial port and
    the disk to their processors and has every other interrupt disabled; the local APIC is on; every processor has come
    up; the buffer cache and the shared memory are empty; the first process can run; and the state is one from which
    the machine of [Machine.v] starts. *)
Theorem main_correct `{HL : LinkerOk} `{CodeSyms} `{Board} `{Image} (s : sys) (mp : mpstate) (imcr : bool) (mpfuel : nat) :
  power_on s -> mpinit (mem (sk s)) mpfuel (smp s) = MpOk (mp, imcr) ->
  (lapic mp <> 0 -> has (lapic_reg ICRLO) DELIVS = false) -> this_cpu mp = bcpu mp -> (forall c, 0 <= c < ncpu mp -> comes_up c = true) ->
  (33 + Z.to_nat (ncpu mp) <= npages)%nat -> Z.of_nat (length bootother) <= 0x100000 - 0x7000 -> Z.of_nat (length initcode) < PGSIZE ->
  exists s', main mpfuel s = Ret tt s' /\ machine_up mp (gdt s) s'.
Proof. intros Hp Em Hd Ht Hc Hn Hb Hi. destruct (wp_elim _ _ _ (wp_main s mp imcr mpfuel Hp Em Hd Ht Hc Hn Hb Hi)) as ([] & s' & HR). eauto. Qed.

(** ** Example: a machine with two processors and a serial port *)
Definition bios2 : list (Z * list Z) :=
  [(0xF0000, [95; 77; 80; 95; 0; 0x20; 0; 0; 1; 4; 128; 0; 0; 0; 0; 0]);
   (0x2000, [80; 67; 77; 80; 92; 0; 4; 138] ++ replicate 28 0 ++ [0; 0; 0xE0; 0xFE] ++ replicate 4 0);
   (0x202C, [0; 0; 0; 3] ++ replicate 16 0); (0x2040, [0; 1; 0; 1] ++ replicate 16 0); (0x2054, [2; 1] ++ replicate 6 0)].
Definition bios2_mem (a : Z) : Z :=
  foldr (fun '(b, l) v => if (b <=? a) && (a <? b + Z.of_nat (length l)) then nth (Z.to_nat (a - b)) l 0 else v) 0 bios2.
Definition sys2 : sys :=
  mkSys (kernel0 <| mem := bios2_mem |>) (mkMp 0 0 0 0 0 []) irqmask0 [] [] (fun r => if r =? REG_VER then 0x170011 else 0)
    [] (replicate 7 (mkSeg 0 0 0 0 0 0 0 0 0 0 0 0 0)) false false (fun _ => 0).
Definition board2 : Board := {| inb := fun _ => 0x60; lapic_reg := fun _ => 0 |}.
Definition image2 : Image :=
  {| vectors := fun i => 0x102000 + 8 * i; sym_mpmain := 0x103000; cpu_field := fun i => 0x112000 + 0x100 * i; initcode := [0xEB; 0xFE];
     bootother := [0xFA; 0x31; 0xC0]; comes_up := fun _ => true; ide_status := fun _ => 0x50 |}.

Lemma sys2_on : power_on sys2.
Proof. constructor; try reflexivity. repeat constructor. Qed.
Lemma sys2_mp : mpinit bios2_mem 4 (mkMp 0 0 0 0 0 []) = MpOk (mkMp 0 1 2 1 0xFEE00000 [(0, 0); (1, 1)], false).
Proof. vm_compute. reflexivity. Qed.

Lemma main_correct_witness : exists s', @main linker1 codesyms1 board2 image2 4 sys2 = Ret tt s' /\
  @machine_up linker1 codesyms1 board2 image2 (mkMp 0 1 2 1 0xFEE00000 [(0, 0); (1, 1)]) (replicate 7 (mkSeg 0 0 0 0 0 0 0 0 0 0 0 0 0)) s'.
Proof.
  apply (@main_correct linker1 linker1_ok codesyms1 board2 image2 sys2 _ false 4 sys2_on sys2_mp).
  - reflexivity.
  - reflexivity.
  - reflexivity.
  - vm_compute. repeat constructor.
  - vm_compute. congruence.
  - vm_compute. reflexivity.
Defined.
