(* ===== verification/Asm.v ===== *)
(** The assembly code: [kernel/swtch.S], [kernel/trapasm.S], the entry points that [kernel/vectors.pl] generates, the
    system call stubs of [user/usys.S] and [kernel/initcode.S], on the instructions they use.

    The other files take from this code that a process resumes where it called [swtch], that [trap] gets the registers
    of the interrupted program as its argument, and that they are what the program continues with. *)
From S2P Require Import Prelude Types Mem Trap.

(** ** The processor *)
Inductive reg := EAX | ECX | EDX | EBX | ESP | EBP | ESI | EDI.
Inductive seg := CS | DS | ES | FS | GS | SS.
Definition reg_num (r : reg) : nat := match r with EAX => 0 | ECX => 1 | EDX => 2 | EBX => 3 | ESP => 4 | EBP => 5 | ESI => 6 | EDI => 7 end.
Definition seg_num (s : seg) : nat := match s with CS => 0 | DS => 1 | ES => 2 | FS => 3 | GS => 4 | SS => 5 end.

(** General registers and [eip] hold 32 bits, segment registers 16. *)
Record cpu := mkCpu { c_reg : reg -> Z; c_seg : seg -> Z; c_eip : Z; c_eflags : Z; c_mem : Z -> Z }.
#[global] Instance cpu_eta : Eta cpu := {| eta c := mkCpu (c_reg c) (c_seg c) (c_eip c) (c_eflags c) (c_mem c) |}.
Definition set_reg (r : reg) (v : Z) (c : cpu) : cpu := c <| c_reg ::= fun f x => if (reg_num x =? reg_num r)%nat then v else f x |>.
Definition set_seg (s : seg) (v : Z) (c : cpu) : cpu := c <| c_seg ::= fun f x => if (seg_num x =? seg_num s)%nat then v else f x |>.

Inductive instr :=
| PushR (r : reg) | PopR (r : reg) | PushS (s : seg) | PopS (s : seg) | PushI (v : Z) | Pushal | Popal
| Load (d : Z) (b r : reg)          (** [movl d(%b), %r] *)
| Store (r b : reg)                 (** [movl %r, (%b)] *)
| MovR (r q : reg)                  (** [movl %r, %q] *)
| MovI (v : Z) (r : reg)            (** [movl $v, %r] *)
| MovwI (v : Z)                     (** [movw $v, %ax] *)
| MovwS (s : seg)                   (** [movw %ax, %s] *)
| AddI (v : Z) (r : reg)
| RetI | Iret.

Definition push (v : Z) (c : cpu) : cpu :=
  let a := u32 (c_reg c ESP - 4) in set_reg ESP a (c <| c_mem ::= fun m => st32 m a v |>).
(** The word on top of the stack, and the stack without it *)
Definition top (c : cpu) : Z := ld32 (c_mem c) (c_reg c ESP).
Definition drop4 (c : cpu) : cpu := set_reg ESP (u32 (c_reg c ESP + 4)) c.
Definition pop_reg (r : reg) (c : cpu) : cpu := set_reg r (top c) (drop4 c).
Definition pop_seg (s : seg) (c : cpu) : cpu := set_seg s (top c mod 2 ^ 16) (drop4 c).
Definition pop_eip (c : cpu) : cpu := (drop4 c) <| c_eip := top c |>.

(** [iret] takes the stack pointer too when it changes to another privilege level. *)
Definition iret (c : cpu) : cpu :=
  let c1 := pop_seg CS (pop_eip c) in
  let c2 := (drop4 c1) <| c_eflags := top c1 |> in
  if Z.land (c_seg c2 CS) 3 =? Z.land (c_seg c CS) 3 then c2
  else
    let esp := top c2 in
    let c3 := pop_seg SS (drop4 c2) in set_reg ESP esp c3.

Definition step (i : instr) (c : cpu) : cpu :=
  match i with
  | PushR r => push (c_reg c r) c
  | PopR r => pop_reg r c
  | PushS s => push (c_seg c s) c
  | PopS s => pop_seg s c
  | PushI v => push v c
  | Pushal =>
      let esp := c_reg c ESP in
      let c := push (c_reg c EBX) (push (c_reg c EDX) (push (c_reg c ECX) (push (c_reg c EAX) c))) in
      let c := push esp c in
      push (c_reg c EDI) (push (c_reg c ESI) (push (c_reg c EBP) c))
  | Popal => pop_reg EAX (pop_reg ECX (pop_reg EDX (pop_reg EBX (drop4 (pop_reg EBP (pop_reg ESI (pop_reg EDI c)))))))
  | Load d b r => set_reg r (ld32 (c_mem c) (u32 (c_reg c b + d))) c
  | Store r b => c <| c_mem ::= fun m => st32 m (c_reg c b) (c_reg c r) |>
  | MovR r q => set_reg q (c_reg c r) c
  | MovI v r => set_reg r v c
  | MovwI v => set_reg EAX (c_reg c EAX - c_reg c EAX mod 2 ^ 16 + v) c
  | MovwS s => set_seg s (c_reg c EAX mod 2 ^ 16) c
  | AddI v r => set_reg r (u32 (c_reg c r + v)) c
  | RetI => pop_eip c
  | Iret => iret c
  end.
(** Code without jumps *)
Definition run (code : list instr) (c : cpu) : cpu := foldl (fun c i => step i c) c code.

(** An interrupt or exception [n]: outside the kernel the processor first changes to the stack at [esp0].  [err] is
    the error code of the exceptions that have one. *)
Definition interrupt (esp0 : Z) (gate : gatedesc) (err : option Z) (c : cpu) : cpu :=
  let c1 :=
    if Z.land (c_seg c CS) 3 =? 0 then c
    else push (c_reg c ESP) (push (c_seg c SS) (set_reg ESP esp0 c)) in
  let c2 := push (c_eip c) (push (c_seg c CS) (push (c_eflags c) c1)) in
  let c3 := match err with Some e => push e c2 | None => c2 end in
  let c4 := set_seg CS (g_cs gate) (c3 <| c_eip := g_off_15_0 gate + 2 ^ 16 * g_off_31_16 gate |>) in
  if g_type gate =? STS_IG32 then c4 <| c_eflags ::= fun f => Z.ldiff f FL_IF |> else c4.

(** ** Code *)

(** [vectors.pl]: the entry point of vector [i], up to the jump to [alltraps] *)
Definition vector (i : Z) : list instr :=
  (if negb ((i =? 8) || ((10 <=? i) && (i <=? 14)) || (i =? 17)) then [PushI 0] else []) ++ [PushI i].

(** [alltraps], up to the call of [trap] *)
Definition alltraps : list instr :=
  [PushS DS; PushS ES; PushS FS; PushS GS; Pushal;
   MovwI (Z.shiftl SEG_KDATA 3); MovwS DS; MovwS ES; MovwI (Z.shiftl SEG_KCPU 3); MovwS FS; MovwS GS;
   PushR ESP].
(** After the call *)
Definition alltraps_return : list instr := [AddI 4 ESP].
Definition trapret : list instr := [Popal; PopS GS; PopS FS; PopS ES; PopS DS; AddI 0x8 ESP; Iret].

Definition swtch : list instr :=
  [Load 4 ESP EAX; Load 8 ESP EDX;
   PushR EBP; PushR EBX; PushR ESI; PushR EDI;
   Store ESP EAX; MovR EDX ESP;
   PopR EDI; PopR ESI; PopR EBX; PopR EBP; RetI].

(** [SYSCALL(name)] of [usys.S], up to the trap; then [ret]. *)
Definition usys (num : Z) : list instr := [MovI num EAX].
(** [start] of [initcode.S], up to the trap; [init] and [argv] are the addresses of its data. *)
Definition initcode_start (init argv : Z) : list instr := [PushI argv; PushI init; PushI 0; MovI 9 EAX].

(** ** Words on the stack *)
Definition pushes (vs : list Z) (c : cpu) : cpu := foldl (fun c v => push v c) c vs.
Definition esp (c : cpu) : Z := c_reg c ESP.

(** After pushing [vs] the stack has them, the last on top; nothing else in memory has changed. *)
Lemma pushes_words vs : forall c, 4 * Z.of_nat (length vs) <= esp c < 2 ^ 32 ->
  esp (pushes vs c) = esp c - 4 * Z.of_nat (length vs) /\
  (forall j v, vs !! j = Some v -> ld32 (c_mem (pushes vs c)) (esp c - 4 * Z.of_nat j - 4) = u32 v) /\
  (forall x, x < esp c - 4 * Z.of_nat (length vs) \/ esp c <= x -> c_mem (pushes vs c) x = c_mem c x).
Proof.
  induction vs as [|v vs IH]; intros c Hc; [split_and!; [cbn; lia|done|done]|]. cbn [length] in Hc.
  change (pushes (v :: vs) c) with (pushes vs (push v c)).
  assert (E : esp (push v c) = esp c - 4). { unfold esp, push, set_reg. cbn. apply u32_small. unfold esp in Hc. clear IH. lia. }
  assert (Em : c_mem (push v c) = st32 (c_mem c) (esp c - 4) v) by (rewrite <- E; done).
  destruct (IH (push v c)) as (I1 & I2 & I3); [lia|]. rewrite E in *. split_and!.
  - rewrite I1. cbn [length]. lia.
  - intros [|j] w Hj.
    + injection Hj as ->. replace (esp c - 4 * Z.of_nat 0 - 4) with (esp c - 4) by lia. rewrite <- (ld32_st32_eq (c_mem c) (esp c - 4)), <- Em.
      apply ld32_ext. intros x Hx. apply I3. lia.
    + replace (esp c - 4 * Z.of_nat (S j) - 4) with (esp c - 4 - 4 * Z.of_nat j - 4) by lia. by apply I2.
  - intros x Hx. cbn [length] in Hx. rewrite I3, Em by lia. apply st32_other. lia.
Qed.

(** ** Trap frames in memory *)
Definition tf_get (m : Z -> Z) (a : Z) : trapframe :=
  mkTrapframe (ld32 m a) (ld32 m (a + 4)) (ld32 m (a + 8)) (ld32 m (a + 12)) (ld32 m (a + 16)) (ld32 m (a + 20)) (ld32 m (a + 24)) (ld32 m (a + 28))
    (ld32 m (a + 32) mod 2 ^ 16) (ld32 m (a + 36) mod 2 ^ 16) (ld32 m (a + 40) mod 2 ^ 16) (ld32 m (a + 44) mod 2 ^ 16)
    (ld32 m (a + 48)) (ld32 m (a + 52)) (ld32 m (a + 56)) (ld32 m (a + 60) mod 2 ^ 16) (ld32 m (a + 64)) (ld32 m (a + 68)) (ld32 m (a + 72) mod 2 ^ 16).
Definition TF : Z := 76.

(** The processor has the registers of the frame. *)
Record has_tf (tf : trapframe) (c : cpu) : Prop := {
  ht_eax : c_reg c EAX = tf_eax tf; ht_ecx : c_reg c ECX = tf_ecx tf; ht_edx : c_reg c EDX = tf_edx tf; ht_ebx : c_reg c EBX = tf_ebx tf;
  ht_ebp : c_reg c EBP = tf_ebp tf; ht_esi : c_reg c ESI = tf_esi tf; ht_edi : c_reg c EDI = tf_edi tf;
  ht_ds : c_seg c DS = tf_ds tf; ht_es : c_seg c ES = tf_es tf; ht_fs : c_seg c FS = tf_fs tf; ht_gs : c_seg c GS = tf_gs tf;
  ht_cs : c_seg c CS = tf_cs tf; ht_eip : c_eip c = tf_eip tf; ht_eflags : c_eflags c = tf_eflags tf }.

Arguments ld32 : simpl never.
Arguments Z.land : simpl never.
Arguments Z.add : simpl never.
Arguments Z.modulo : simpl never.
(** Addresses on a stack that does not wrap around. *)
Ltac stack :=
  rewrite ?u32_add_l; repeat match goal with |- context [u32 ?x] => rewrite (u32_small x) by lia end.
Ltac word := unfold esp; match goal with |- ld32 ?m _ mod ?k = _ => apply (f_equal (fun x => ld32 m x mod k)); lia | |- ld32 ?m _ = _ => apply (f_equal (ld32 m)); lia end.

Lemma iret_spec d : 0 <= esp d -> esp d + 20 < 2 ^ 32 ->
  c_eip (iret d) = ld32 (c_mem d) (esp d) /\ c_seg (iret d) CS = ld32 (c_mem d) (esp d + 4) mod 2 ^ 16 /\
  c_eflags (iret d) = ld32 (c_mem d) (esp d + 8) /\ c_mem (iret d) = c_mem d /\
  (forall r, r <> ESP -> c_reg (iret d) r = c_reg d r) /\ (forall s, s <> CS -> s <> SS -> c_seg (iret d) s = c_seg d s) /\
  if Z.land (ld32 (c_mem d) (esp d + 4) mod 2 ^ 16) 3 =? Z.land (c_seg d CS) 3 then esp (iret d) = esp d + 12 /\ c_seg (iret d) SS = c_seg d SS
  else esp (iret d) = ld32 (c_mem d) (esp d + 12) /\ c_seg (iret d) SS = ld32 (c_mem d) (esp d + 16) mod 2 ^ 16.
Proof.
  intros H0 H1. unfold iret, pop_eip, pop_seg, drop4, top, set_seg, set_reg, esp in *. cbn. stack.
  assert (E8 : c_reg d ESP + 4 + 4 = c_reg d ESP + 8) by lia.
  assert (E12 : c_reg d ESP + 8 + 4 = c_reg d ESP + 12) by lia.
  assert (E16 : c_reg d ESP + 12 + 4 = c_reg d ESP + 16) by lia. rewrite ?E8, ?E12, ?E16.
  destruct (_ =? _) eqn:E; cbn; stack; rewrite ?E8, ?E12, ?E16; (split_and!; [done|done|done|done| | |lia || done|done]).
  all: intros r; destruct r; done.
Qed.

(** [trapret] continues with the registers of the frame on top of the stack; when it returns to another privilege level
    also with its stack, else with the stack above the frame. *)
Lemma trapret_restores c : 0 <= esp c -> esp c + TF < 2 ^ 32 ->
  let tf := tf_get (c_mem c) (esp c) in let c' := run trapret c in
  has_tf tf c' /\ c_mem c' = c_mem c /\
  if Z.land (tf_cs tf) 3 =? Z.land (c_seg c CS) 3 then esp c' = esp c + 68 /\ c_seg c' SS = c_seg c SS
  else esp c' = tf_esp tf /\ c_seg c' SS = tf_ss tf.
Proof.
  intros H0 H1 tf c'. unfold TF in *.
  set (d := run [Popal; PopS GS; PopS FS; PopS ES; PopS DS; AddI 0x8 ESP] c).
  assert (Ed : esp d = esp c + 56) by (unfold d, run, esp in *; cbn; stack; lia).
  change c' with (iret d). destruct (iret_spec d) as (I1 & I2 & I3 & I4 & I5 & I6 & I7); [lia|lia|]. rewrite Ed in *.
  change (c_mem d) with (c_mem c) in *. change (c_seg d CS) with (c_seg c CS) in *. change (c_seg d SS) with (c_seg c SS) in *.
  assert (P : forall j k, esp c + j + k = esp c + (j + k)) by (intros; lia). rewrite !P in *.
  split; [|split; [done|]].
  - constructor; first [by rewrite I1|by rewrite I2|by rewrite I3|rewrite I5 by done|rewrite I6 by done]; unfold d, run, esp in *; cbn; unfold top; cbn; stack; word.
  - exact I7.
Qed.

(** ** Entering the kernel *)
Definition has_err (i : Z) : bool := (i =? 8) || ((10 <=? i) && (i <=? 14)) || (i =? 17).
Definition in_kernel (c : cpu) : bool := Z.land (c_seg c CS) 3 =? 0.
(** An interrupt with vector [i], up to the call of [trap] *)
Definition enter (esp0 : Z) (gate : gatedesc) (err : option Z) (i : Z) (c : cpu) : cpu :=
  run alltraps (run (vector i) (interrupt esp0 gate err c)).

(** The stack on which the frame is built, and the words of the frame; [o] is the stack pointer that [pushal] saves. *)
Definition frame_stack (esp0 : Z) (c : cpu) : cpu := if in_kernel c then c else pushes [c_seg c SS; c_reg c ESP] (set_reg ESP esp0 c).
Definition frame_words (err i o : Z) (c : cpu) : list Z :=
  [c_eflags c; c_seg c CS; c_eip c; err; i; c_seg c DS; c_seg c ES; c_seg c FS; c_seg c GS;
   c_reg c EAX; c_reg c ECX; c_reg c EDX; c_reg c EBX; o; c_reg c EBP; c_reg c ESI; c_reg c EDI].

(** The stack as memory and stack pointer. *)
Definition stk (c : cpu) : (Z -> Z) * Z := (c_mem c, esp c).
Definition push_stk (k : (Z -> Z) * Z) (v : Z) : (Z -> Z) * Z := let a := u32 (k.2 - 4) in (st32 k.1 a v, a).
Lemma stk_push v c : stk (push v c) = push_stk (stk c) v.
Proof. reflexivity. Qed.
Lemma stk_pushes vs c : stk (pushes vs c) = foldl push_stk (stk c) vs.
Proof. revert c. induction vs as [|v vs IH]; intros c; [done|]. change (pushes (v :: vs) c) with (pushes vs (push v c)). by rewrite IH, stk_push. Qed.

(** The processor has the stack [K], the registers [R] apart from [esp], and the segments [S]. *)
Record sees (K : (Z -> Z) * Z) (R : reg -> Z) (S : seg -> Z) (c : cpu) : Prop := {
  se_stk : stk c = K; se_reg : forall r, r <> ESP -> c_reg c r = R r; se_seg : forall s, c_seg c s = S s }.
Lemma sees_refl c : sees (stk c) (c_reg c) (c_seg c) c.
Proof. done. Qed.
Lemma sees_push K R S c v : sees K R S c -> sees (push_stk K v) R S (push v c).
Proof. intros [<- H1 H2]. constructor; [done| |done]. intros r Hr. rewrite <- H1 by done. by destruct r. Qed.
Lemma sees_pushR K R S c r : sees K R S c -> r <> ESP -> sees (push_stk K (R r)) R S (step (PushR r) c).
Proof. intros HS Hr. cbn [step]. rewrite (se_reg _ _ _ _ HS r Hr). by apply sees_push. Qed.
Lemma sees_pushS K R S c s : sees K R S c -> sees (push_stk K (S s)) R S (step (PushS s) c).
Proof. intros HS. cbn [step]. rewrite (se_seg _ _ _ _ HS s). by apply sees_push. Qed.
Lemma sees_pushal K R S c : sees K R S c ->
  sees (foldl push_stk K [R EAX; R ECX; R EDX; R EBX; K.2; R EBP; R ESI; R EDI]) R S (step Pushal c).
Proof.
  intros HS. assert (Ee : c_reg c ESP = K.2) by by rewrite <- (se_stk _ _ _ _ HS). cbn [step]. rewrite Ee.
  assert (P : forall K c r, sees K R S c -> r <> ESP -> sees (push_stk K (R r)) R S (push (c_reg c r) c)) by (intros; by apply sees_pushR).
  pose proof (P _ _ EAX HS ltac:(done)) as H1. rewrite (se_reg _ _ _ _ HS EAX), (se_reg _ _ _ _ HS ECX), (se_reg _ _ _ _ HS EDX), (se_reg _ _ _ _ HS EBX) by done.
  clear H1 P. set (c4 := push (R EBX) _). assert (H4 : sees (foldl push_stk K [R EAX; R ECX; R EDX; R EBX]) R S c4) by (by do 4 apply sees_push).
  clearbody c4. apply (sees_push _ _ _ _ K.2) in H4. set (c5 := push K.2 c4) in *. clearbody c5.
  rewrite (se_reg _ _ _ _ H4 EBP), (se_reg _ _ _ _ H4 ESI), (se_reg _ _ _ _ H4 EDI) by done. by do 3 apply sees_push.
Qed.

Lemma run_cons i l c : run (i :: l) c = run l (step i c).
Proof. reflexivity. Qed.
Lemma run_app l l' c : run (l ++ l') c = run l' (run l c).
Proof. apply foldl_app. Qed.

Lemma alltraps_frame K R S c : sees K R S c -> exists o,
  sees (foldl push_stk K [S DS; S ES; S FS; S GS; R EAX; R ECX; R EDX; R EBX; o; R EBP; R ESI; R EDI]) R S (run (take 5 alltraps) c).
Proof.
  intros HS. apply (sees_pushS _ _ _ _ DS) in HS. apply (sees_pushS _ _ _ _ ES) in HS. apply (sees_pushS _ _ _ _ FS) in HS. apply (sees_pushS _ _ _ _ GS) in HS.
  apply sees_pushal in HS. eexists. unfold alltraps. cbn [take]. rewrite !run_cons. exact HS.
Qed.
Lemma alltraps_arg d : stk (run (drop 5 alltraps) d) = push_stk (stk d) (stk d).2 /\ c_seg (run (drop 5 alltraps) d) CS = c_seg d CS.
Proof. split; reflexivity. Qed.
Lemma stk_alltraps K R S c : sees K R S c -> exists o,
  stk (run alltraps c) = (fun k => push_stk k k.2) (foldl push_stk K [S DS; S ES; S FS; S GS; R EAX; R ECX; R EDX; R EBX; o; R EBP; R ESI; R EDI]) /\
  c_seg (run alltraps c) CS = S CS.
Proof.
  intros HS. destruct (alltraps_frame _ _ _ _ HS) as [o [E1 E2 E3]]. exists o. rewrite <- (take_drop 5 alltraps), run_app.
  destruct (alltraps_arg (run (take 5 alltraps) c)) as [-> ->]. by rewrite E1, E3.
Qed.

Definition kernel_segs (gate : gatedesc) (c : cpu) (s : seg) : Z := match s with CS => g_cs gate | _ => c_seg c s end.
Lemma sees_pushes K R S c vs : sees K R S c -> sees (foldl push_stk K vs) R S (pushes vs c).
Proof. revert K c. induction vs as [|v vs IH]; intros K c HS; [done|]. apply (IH (push_stk K v) (push v c)). by apply sees_push. Qed.
Lemma interrupt_sees esp0 gate err c :
  sees (foldl push_stk (stk (frame_stack esp0 c)) ([c_eflags c; c_seg c CS; c_eip c] ++ option_list err)) (c_reg c) (kernel_segs gate c) (interrupt esp0 gate err c).
Proof.
  set (c1 := frame_stack esp0 c).
  assert (H1 : sees (stk c1) (c_reg c) (c_seg c) c1).
  { unfold c1, frame_stack. destruct (in_kernel c); [apply sees_refl|]. rewrite stk_pushes. apply sees_pushes. constructor; [done| |done]. by intros []. }
  assert (E1 : c1 = if Z.land (c_seg c CS) 3 =? 0 then c else push (c_reg c ESP) (push (c_seg c SS) (set_reg ESP esp0 c))) by reflexivity.
  apply (sees_pushes _ _ _ _ ([c_eflags c; c_seg c CS; c_eip c] ++ option_list err)) in H1. unfold interrupt. rewrite <- E1. clear E1. clearbody c1.
  set (c3 := match err with Some _ => _ | None => _ end).
  assert (E3 : c3 = pushes ([c_eflags c; c_seg c CS; c_eip c] ++ option_list err) c1) by (unfold c3; by destruct err).
  rewrite <- E3 in H1. clearbody c3. destruct H1 as [I1 I2 I3].
  destruct (g_type gate =? STS_IG32); (constructor; [exact I1|exact I2|]); intros []; cbn; by rewrite ?I3.
Qed.

Lemma vector_sees K R S c i : sees K R S c -> sees (foldl push_stk K ((if has_err i then [] else [0]) ++ [i])) R S (run (vector i) c).
Proof.
  intros HS. unfold vector. fold (has_err i). destruct (has_err i); cbn [negb app]; rewrite !run_cons; [by apply (sees_pushes _ _ _ _ [i])|by apply (sees_pushes _ _ _ _ [0; i])].
Qed.

Lemma stk_enter esp0 gate err i c : has_err i = bool_decide (is_Some err) ->
  exists o, stk (enter esp0 gate err i c) = (fun k => push_stk k k.2) (stk (pushes (frame_words (default 0 err) i o c) (frame_stack esp0 c))) /\
    c_seg (enter esp0 gate err i c) CS = g_cs gate.
Proof.
  intros He. pose proof (interrupt_sees esp0 gate err c) as HS. apply (vector_sees _ _ _ _ i) in HS. destruct (stk_alltraps _ _ _ _ HS) as (o & E & Ec).
  exists o. split; [|exact Ec]. unfold enter. rewrite E. apply (f_equal (fun k => push_stk k k.2)). rewrite stk_pushes. unfold frame_words. cbn [kernel_segs]. rewrite <- !foldl_app. f_equal.
  rewrite He. destruct err; cbn [option_list default]; [rewrite bool_decide_eq_true_2 by eauto|rewrite bool_decide_eq_false_2 by (by intros [? ?])]; reflexivity.
Qed.

(** Registers hold 32 bits, segment registers 16. *)
Record cpu_ok (c : cpu) : Prop := {
  co_reg : forall r, 0 <= c_reg c r < 2 ^ 32; co_seg : forall s, 0 <= c_seg c s < 2 ^ 16;
  co_eip : 0 <= c_eip c < 2 ^ 32; co_eflags : 0 <= c_eflags c < 2 ^ 32 }.
(** Where the frame ends, in the stack of the process or in the stack that was in use. *)
Definition frame_end (esp0 : Z) (c : cpu) : Z := if in_kernel c then c_reg c ESP else esp0.
Definition frame_size (c : cpu) : Z := if in_kernel c then 68 else TF.
Definition all_words (err i o : Z) (c : cpu) : list Z := (if in_kernel c then [] else [c_seg c SS; c_reg c ESP]) ++ frame_words err i o c.
Definition frame_cpu (esp0 : Z) (c : cpu) : cpu := if in_kernel c then c else set_reg ESP esp0 c.

Lemma pushes_all err i o esp0 c : pushes (frame_words err i o c) (frame_stack esp0 c) = pushes (all_words err i o c) (frame_cpu esp0 c).
Proof. unfold all_words, frame_stack, frame_cpu. by destruct (in_kernel c). Qed.
Lemma esp_frame_cpu esp0 c : esp (frame_cpu esp0 c) = frame_end esp0 c.
Proof. unfold frame_cpu, frame_end. by destruct (in_kernel c). Qed.
Lemma length_all err i o c : 4 * Z.of_nat (length (all_words err i o c)) = frame_size c.
Proof. unfold all_words, frame_size. by destruct (in_kernel c). Qed.

Lemma words_frame m a c err i o : cpu_ok c -> 0 <= i < 256 ->
  (forall j v, frame_words err i o c !! j = Some v -> ld32 m (a + (64 - 4 * Z.of_nat j)) = u32 v) ->
  has_tf (tf_get m a) c /\ tf_trapno (tf_get m a) = i /\ tf_err (tf_get m a) = u32 err.
Proof.
  intros [C1 C2 C3 C4] Hi F.
  assert (G : forall j v, frame_words err i o c !! j = Some v -> 0 <= v < 2 ^ 32 -> ld32 m (a + (64 - 4 * Z.of_nat j)) = v).
  { intros j v Hj Hv. rewrite (F j v Hj). by apply u32_small. }
  assert (GS' : forall j s, frame_words err i o c !! j = Some (c_seg c s) -> ld32 m (a + (64 - 4 * Z.of_nat j)) mod 2 ^ 16 = c_seg c s).
  { intros j s Hj. pose proof (C2 s). rewrite (G j _ Hj) by lia. by apply Z.mod_small. }
  pose proof (G 16%nat _ eq_refl (C1 EDI)) as Hedi. rewrite Z.add_0_r in Hedi.
  split; [|split; [exact (G 4%nat i eq_refl ltac:(lia))|exact (F 3%nat err eq_refl)]]. constructor; symmetry.
  - exact (G 9%nat _ eq_refl (C1 EAX)).
  - exact (G 10%nat _ eq_refl (C1 ECX)).
  - exact (G 11%nat _ eq_refl (C1 EDX)).
  - exact (G 12%nat _ eq_refl (C1 EBX)).
  - exact (G 14%nat _ eq_refl (C1 EBP)).
  - exact (G 15%nat _ eq_refl (C1 ESI)).
  - exact Hedi.
  - exact (GS' 5%nat DS eq_refl).
  - exact (GS' 6%nat ES eq_refl).
  - exact (GS' 7%nat FS eq_refl).
  - exact (GS' 8%nat GS eq_refl).
  - exact (GS' 1%nat CS eq_refl).
  - exact (G 2%nat _ eq_refl C3).
  - exact (G 0%nat _ eq_refl C4).
Qed.

(** When [trap] is called its argument is the address of a trap frame with the registers of the interrupted code. *)
Lemma enter_frame esp0 gate err i c : cpu_ok c -> 80 <= frame_end esp0 c < 2 ^ 31 -> has_err i = bool_decide (is_Some err) -> 0 <= i < 256 ->
  let e := enter esp0 gate err i c in let a := frame_end esp0 c - frame_size c in let tf := tf_get (c_mem e) a in
  esp e = a - 4 /\ top e = a /\ c_seg e CS = g_cs gate /\ has_tf tf c /\ tf_trapno tf = i /\ tf_err tf = u32 (default 0 err) /\
  (in_kernel c = false -> tf_esp tf = c_reg c ESP /\ tf_ss tf = c_seg c SS).
Proof.
  intros [C1 C2 C3 C4] Hb He Hi e a tf. destruct (stk_enter esp0 gate err i c He) as (o & Es & Ec). fold e in Es, Ec. rewrite pushes_all in Es.
  set (d := pushes (all_words (default 0 err) i o c) (frame_cpu esp0 c)) in Es.
  assert (Hsz : frame_size c = 68 \/ frame_size c = 76) by (unfold frame_size, TF; destruct (in_kernel c); auto).
  destruct (pushes_words (all_words (default 0 err) i o c) (frame_cpu esp0 c)) as (W1 & W2 & _); [rewrite length_all, esp_frame_cpu; lia|].
  fold d in W1, W2. rewrite length_all, esp_frame_cpu in *. fold a in W1.
  assert (Ee : c_mem e = st32 (c_mem d) (a - 4) a /\ esp e = a - 4).
  { assert (E : stk e = (st32 (c_mem d) (u32 (esp d - 4)) (esp d), u32 (esp d - 4))) by exact Es. rewrite W1, u32_small in E by lia. by injection E. }
  destruct Ee as [Em Ee]. clear Es.
  assert (F : forall j v x, all_words (default 0 err) i o c !! j = Some v -> x = frame_end esp0 c - 4 * Z.of_nat j - 4 -> ld32 (c_mem e) x = u32 v).
  { intros j v x Hj ->. rewrite Em, ld32_st32_ne; [by apply W2|]. apply lookup_lt_Some in Hj. pose proof (length_all (default 0 err) i o c). unfold a. lia. }
  split; [done|]. split; [unfold top; fold (esp e); rewrite Ee, Em, ld32_st32_eq; apply u32_small; lia|]. split; [done|].
  destruct (words_frame (c_mem e) a c (default 0 err) i o) as (H1 & H2 & H3); [done|done| |].
  { intros j v Hj. pose proof (lookup_lt_Some _ _ _ Hj) as Hlt. cbn [frame_words length] in Hlt. unfold all_words in F, a. unfold frame_size, TF in *.
    destruct (in_kernel c); [apply (F j)|apply (F (2 + j)%nat)]; [exact Hj|lia|exact Hj|lia]. }
  split; [exact H1|]. split; [exact H2|]. split; [exact H3|]. intros Hk. unfold tf, a, all_words, frame_size, TF in *. clear tf a H1 H2 H3. rewrite Hk in *. cbn [tf_esp tf_ss tf_get].
  rewrite (F 1%nat (c_reg c ESP)), (F 0%nat (c_seg c SS)) by (done || lia). pose proof (C1 ESP). pose proof (C2 SS). rewrite !u32_small by lia. split; [done|]. apply Z.mod_small. lia.
Qed.

Lemma has_tf_ext m m' a c : (forall x, a <= x < a + 68 -> m' x = m x) -> has_tf (tf_get m a) c -> has_tf (tf_get m' a) c.
Proof.
  intros Hm [].
  assert (E : forall k, 0 <= k <= 64 -> ld32 m' (a + k) = ld32 m (a + k)) by (intros k Hk; apply ld32_ext; intros x Hx; apply Hm; lia).
  assert (E0 : ld32 m' a = ld32 m a) by (apply ld32_ext; intros x Hx; apply Hm; lia).
  constructor; cbn [tf_eax tf_ecx tf_edx tf_ebx tf_ebp tf_esi tf_edi tf_ds tf_es tf_fs tf_gs tf_cs tf_eip tf_eflags tf_get]; rewrite ?E0, ?E by lia; done.
Qed.

(** The same program state: registers, segments, and where it continues. *)
Record same_cpu (c r : cpu) : Prop := {
  sc_reg : forall x, c_reg r x = c_reg c x; sc_seg : forall x, c_seg r x = c_seg c x; sc_eip : c_eip r = c_eip c; sc_eflags : c_eflags r = c_eflags c }.
Lemma same_of_tf tf c r : has_tf tf c -> has_tf tf r -> esp r = esp c -> c_seg r SS = c_seg c SS -> same_cpu c r.
Proof. intros [] [] E1 E2. unfold esp in E1. constructor; [intros []; congruence|intros []; congruence|congruence|congruence]. Qed.

(** C14. Interrupted code does not notice the interrupt: whatever [trap] does with memory and registers, if it leaves the
    frame alone then after [trapret] the program has its registers, flags and stack as before. *)
Theorem interrupt_transparent esp0 gate err i c e' : cpu_ok c -> 80 <= frame_end esp0 c < 2 ^ 31 -> has_err i = bool_decide (is_Some err) -> 0 <= i < 256 ->
  Z.land (g_cs gate) 3 = 0 ->
  let e := enter esp0 gate err i c in
  esp e' = esp e -> c_seg e' CS = c_seg e CS -> (in_kernel c = true -> c_seg e' SS = c_seg c SS) ->
  (forall x, frame_end esp0 c - frame_size c <= x < frame_end esp0 c -> c_mem e' x = c_mem e x) ->
  same_cpu c (run trapret (run alltraps_return e')).
Proof.
  intros Hc Hb He Hi Hg e Ee Ec Es Hm. destruct (enter_frame esp0 gate err i c Hc Hb He Hi) as (F1 & _ & F3 & F4 & _ & _ & F7).
  fold e in F1, F3, F4, F7. set (a := frame_end esp0 c - frame_size c) in *.
  assert (Hsz : frame_size c = 68 \/ frame_size c = 76) by (unfold frame_size, TF; destruct (in_kernel c); auto).
  set (r := run alltraps_return e'). assert (Er : esp r = a) by (unfold r, run, alltraps_return, esp in *; cbn; rewrite Ee, F1; rewrite u32_small by lia; lia).
  change (c_mem e') with (c_mem r) in *. change (c_seg e' CS) with (c_seg r CS) in *. change (c_seg e' SS) with (c_seg r SS) in *. clearbody r.
  destruct (trapret_restores r) as (T1 & _ & T3); [lia|unfold TF; lia|]. rewrite Er in T1, T3.
  assert (Hr : has_tf (tf_get (c_mem r) a) c) by (apply (has_tf_ext (c_mem e)); [intros x Hx; apply Hm; lia|done]).
  rewrite <- (ht_cs _ _ Hr), Ec, F3, Hg in T3. fold (in_kernel c) in T3.
  assert (T : esp (run trapret r) = esp c /\ c_seg (run trapret r) SS = c_seg c SS); [|destruct T as [T5 T6]; by apply (same_of_tf (tf_get (c_mem r) a))].
  unfold a, frame_end, frame_size, TF in *. clear a. destruct (in_kernel c).
  - destruct T3 as [-> ->]. split; [unfold esp; lia|by apply Es].
  - destruct T3 as [-> ->], (F7 eq_refl) as [E1 E2]. unfold esp. rewrite <- E1, <- E2. cbn [tf_esp tf_ss tf_get]. split; [|f_equal]; apply ld32_ext; intros x Hx; apply Hm; lia.
Qed.

(** ** Switching stacks *)

(** The registers that [swtch] saves, [struct context], at an address *)
Definition ctx_at (m : Z -> Z) (a : Z) (edi esi ebx ebp eip : Z) : Prop :=
  ld32 m a = edi /\ ld32 m (a + 4) = esi /\ ld32 m (a + 8) = ebx /\ ld32 m (a + 12) = ebp /\ ld32 m (a + 16) = eip.

Definition swtch_old (c : cpu) : Z := ld32 (c_mem c) (esp c + 4).
Definition swtch_new (c : cpu) : Z := ld32 (c_mem c) (esp c + 8).
(** The areas that a call of [swtch] uses: the stack it leaves, the pointer it sets and the context it loads. *)
Record swtch_ok (c : cpu) : Prop := {
  sw_cpu : cpu_ok c;
  sw_esp : 16 <= esp c < 2 ^ 31;
  sw_old : swtch_old c + 4 <= esp c - 16 \/ esp c + 12 <= swtch_old c;
  sw_new : swtch_new c + 20 < 2 ^ 32;
  sw_new_stack : swtch_new c + 20 <= esp c - 16 \/ esp c <= swtch_new c;
  sw_new_old : swtch_new c + 20 <= swtch_old c \/ swtch_old c + 4 <= swtch_new c }.

Lemma swtch_saves c : 0 <= esp c < 2 ^ 31 ->
  stk (run (take 8 swtch) c) = (st32 (foldl push_stk (stk c) [c_reg c EBP; c_reg c EBX; c_reg c ESI; c_reg c EDI]).1 (swtch_old c)
    (foldl push_stk (stk c) [c_reg c EBP; c_reg c EBX; c_reg c ESI; c_reg c EDI]).2, swtch_new c).
Proof.
  intros He. set (c2 := run (take 2 swtch) c).
  assert (S2 : sees (stk c) (c_reg c2) (c_seg c2) c2) by done.
  assert (A2 : c_reg c2 EAX = swtch_old c) by (cbn; by rewrite u32_small by (unfold esp in He; lia)).
  assert (D2 : c_reg c2 EDX = swtch_new c) by (cbn; by rewrite u32_small by (unfold esp in He; lia)).
  assert (B2 : [c_reg c EBP; c_reg c EBX; c_reg c ESI; c_reg c EDI] = [c_reg c2 EBP; c_reg c2 EBX; c_reg c2 ESI; c_reg c2 EDI]) by done.
  rewrite B2. change (run (take 8 swtch) c) with (run [PushR EBP; PushR EBX; PushR ESI; PushR EDI; Store ESP EAX; MovR EDX ESP] c2). clearbody c2.
  set (R := c_reg c2) in *. set (S := c_seg c2) in *. clearbody R S.
  apply (fun H => sees_pushR _ _ _ _ EBP H ltac:(done)) in S2. apply (fun H => sees_pushR _ _ _ _ EBX H ltac:(done)) in S2.
  apply (fun H => sees_pushR _ _ _ _ ESI H ltac:(done)) in S2. apply (fun H => sees_pushR _ _ _ _ EDI H ltac:(done)) in S2.
  rewrite !run_cons. match type of S2 with sees ?K _ _ ?c => set (K' := K) in *; set (d := c) in *; clearbody d end.
  destruct S2 as [I1 I2 I3]. change (foldl push_stk (stk c) [R EBP; R EBX; R ESI; R EDI]) with K'. clearbody K'. subst K'.
  rewrite <- A2, <- D2, <- (I2 EAX), <- (I2 EDX) by done. reflexivity.
Qed.

Lemma pops_context c : 0 <= esp c -> esp c + 20 < 2 ^ 32 ->
  let r := run [PopR EDI; PopR ESI; PopR EBX; PopR EBP; RetI] c in
  ctx_at (c_mem c) (esp c) (c_reg r EDI) (c_reg r ESI) (c_reg r EBX) (c_reg r EBP) (c_eip r) /\ esp r = esp c + 20 /\ c_mem r = c_mem c.
Proof.
  intros H0 H1 r. unfold r, run, esp, ctx_at in *. cbn. unfold top. cbn. stack. split_and!; try done; try lia; apply (f_equal (ld32 (c_mem c))); lia.
Qed.

(** [swtch] puts the registers and the return address of its caller on the stack and the address of this context at
    [*old]; it continues with the context [new]. *)
Lemma swtch_spec c : swtch_ok c -> let r := run swtch c in
  ctx_at (c_mem c) (swtch_new c) (c_reg r EDI) (c_reg r ESI) (c_reg r EBX) (c_reg r EBP) (c_eip r) /\ esp r = swtch_new c + 20 /\
  ld32 (c_mem r) (swtch_old c) = esp c - 16 /\
  ctx_at (c_mem r) (esp c - 16) (c_reg c EDI) (c_reg c ESI) (c_reg c EBX) (c_reg c EBP) (top c).
Proof.
  intros [C1 He Ho Hn Hns Hno] r. pose proof (ld32_range (c_mem c) (esp c + 8)) as Rn. fold (swtch_new c) in Rn.
  pose proof (ld32_range (c_mem c) (esp c + 4)) as Ro. fold (swtch_old c) in Ro.
  pose proof (swtch_saves c ltac:(lia)) as Es. set (vs := [c_reg c EBP; c_reg c EBX; c_reg c ESI; c_reg c EDI]) in *. rewrite <- stk_pushes in Es.
  destruct (pushes_words vs c) as (W1 & W2 & W3); [cbn; lia|]. change (4 * Z.of_nat (length vs)) with 16 in *.
  set (d := pushes vs c) in *. unfold stk in Es at 2 3. cbn [fst snd] in Es. rewrite W1 in Es. clearbody d.
  unfold r. rewrite <- (take_drop 8 swtch), run_app. set (f := run (take 8 swtch) c) in *. clearbody f. injection Es as Mf Ef.
  change (drop 8 swtch) with [PopR EDI; PopR ESI; PopR EBX; PopR EBP; RetI].
  destruct (pops_context f) as (P1 & P2 & P3); [lia|lia|]. rewrite Ef in P1, P2. rewrite P3, P2, Mf. rewrite Mf in P1. clear P2 P3.
  assert (Hnew : forall k, 0 <= k <= 16 -> ld32 (st32 (c_mem d) (swtch_old c) (esp c - 16)) (swtch_new c + k) = ld32 (c_mem c) (swtch_new c + k)).
  { intros k Hk. rewrite ld32_st32_ne by lia. apply ld32_ext. intros x Hx. apply W3. lia. }
  assert (Hsv : forall j v x, vs !! j = Some v -> x = esp c - 4 * Z.of_nat j - 4 -> 0 <= v < 2 ^ 32 -> ld32 (st32 (c_mem d) (swtch_old c) (esp c - 16)) x = v).
  { intros j v x Hj -> Hv. pose proof (lookup_lt_Some _ _ _ Hj) as Hlt. cbn [length vs] in Hlt. rewrite ld32_st32_ne by lia. rewrite (W2 j v Hj). by apply u32_small. }
  pose proof (co_reg _ C1) as Hr. split; [|split; [done|split; [by rewrite ld32_st32_eq, u32_small by lia|]]].
  - destruct P1 as (Q1 & Q2 & Q3 & Q4 & Q5). pose proof (Hnew 0 ltac:(lia)) as H0. rewrite Z.add_0_r in H0. rewrite H0 in Q1. rewrite Hnew in Q2, Q3, Q4, Q5 by lia. done.
  - split_and!; [apply (Hsv 3%nat)|apply (Hsv 2%nat)|apply (Hsv 1%nat)|apply (Hsv 0%nat)|]; try done; try lia.
    unfold top. fold (esp c). replace (esp c - 16 + 16) with (esp c) by lia. rewrite ld32_st32_ne by lia. apply ld32_ext. intros x Hx. apply W3. lia.
Qed.

(** C15. A process that called [swtch] in the state [c] resumes there: when some processor later, in the state [b], calls [swtch] with the
    context that was saved, and the stack from the context on has not changed, then it returns from the call in [c] with the
    registers that a call preserves. *)
Theorem swtch_resumes c b : swtch_ok c -> swtch_ok b -> swtch_new b = ld32 (c_mem (run swtch c)) (swtch_old c) ->
  (forall x, esp c - 16 <= x < esp c + 4 -> c_mem b x = c_mem (run swtch c) x) ->
  let r := run swtch b in
  c_eip r = top c /\ esp r = esp c + 4 /\ c_reg r EBP = c_reg c EBP /\ c_reg r EBX = c_reg c EBX /\ c_reg r ESI = c_reg c ESI /\ c_reg r EDI = c_reg c EDI.
Proof.
  intros Hc Hb En Hm r. destruct (swtch_spec c Hc) as (_ & _ & S3 & S4). destruct (swtch_spec b Hb) as (B1 & B2 & _).
  rewrite S3 in En. rewrite En in B1, B2. fold r in B1, B2.
  assert (E : forall k, 0 <= k <= 16 -> ld32 (c_mem b) (esp c - 16 + k) = ld32 (c_mem (run swtch c)) (esp c - 16 + k)) by (intros k Hk; apply ld32_ext; intros x Hx; apply Hm; lia).
  pose proof (E 0 ltac:(lia)) as E0. rewrite !Z.add_0_r in E0.
  destruct B1 as (Q1 & Q2 & Q3 & Q4 & Q5), S4 as (R1 & R2 & R3 & R4 & R5). rewrite E0 in Q1. rewrite E in Q2, Q3, Q4, Q5 by lia.
  split_and!; try congruence. rewrite B2. lia.
Qed.

(** A return to [trapret], with the frame above the return address. *)
Lemma ret_trapret r : 0 <= esp r -> esp r + 4 + TF < 2 ^ 32 ->
  c_eip (step RetI r) = ld32 (c_mem r) (esp r) /\ has_tf (tf_get (c_mem r) (esp r + 4)) (run trapret (step RetI r)).
Proof.
  intros H0 H1. unfold TF in *. assert (Ee : esp (step RetI r) = esp r + 4) by (change (esp (step RetI r)) with (u32 (esp r + 4)); apply u32_small; lia).
  split; [reflexivity|]. destruct (trapret_restores (step RetI r)) as [T _]; [lia|unfold TF; lia|]. rewrite Ee in T. exact T.
Qed.

(** ** The first run of a process

    [allocproc] leaves on the kernel stack a context whose return address is [forkret], above it the address of [trapret],
    and above that the trap frame.  After the [swtch] of the scheduler and the return from [forkret] the process
    continues in [trapret], which loads the frame. *)
Lemma first_run b forkret trapret_addr : swtch_ok b -> ld32 (c_mem b) (swtch_new b + 16) = forkret -> ld32 (c_mem b) (swtch_new b + 20) = trapret_addr ->
  swtch_new b + 24 + TF < 2 ^ 32 ->
  (forall x, swtch_new b + 20 <= x < swtch_new b + 24 + TF -> c_mem (run swtch b) x = c_mem b x) ->
  c_eip (run swtch b) = forkret /\ c_eip (step RetI (run swtch b)) = trapret_addr /\
  has_tf (tf_get (c_mem (run swtch b)) (swtch_new b + 24)) (run trapret (step RetI (run swtch b))).
Proof.
  intros Hb Ef Et Hl Hm. destruct (swtch_spec b Hb) as ((_ & _ & _ & _ & Q5) & B2 & _). generalize dependent (run swtch b). intros r Hm Q5 B2.
  pose proof (ld32_range (c_mem b) (esp b + 8)) as Rn. fold (swtch_new b) in Rn. destruct (ret_trapret r) as [R1 R2]; [lia|unfold TF in *; lia|].
  split; [congruence|]. split; [|replace (swtch_new b + 24) with (esp r + 4) by lia; exact R2].
  rewrite R1, B2, <- Et. apply ld32_ext. intros x Hx. apply Hm. unfold TF. lia.
Qed.

(** ** System calls of user code *)

(** The stubs trap with the number in [eax]; the arguments are where the caller put them. *)
Lemma usys_regs num c : c_reg (run (usys num) c) EAX = num /\ stk (run (usys num) c) = stk c.
Proof. done. Qed.
(** [initcode] traps with the number of [exec], and its arguments above a word for the return address. *)
Lemma initcode_args init argv c : 12 <= esp c < 2 ^ 32 -> 0 <= init < 2 ^ 32 -> 0 <= argv < 2 ^ 32 -> let r := run (initcode_start init argv) c in
  c_reg r EAX = 9 /\ esp r = esp c - 12 /\ ld32 (c_mem r) (esp r + 4) = init /\ ld32 (c_mem r) (esp r + 8) = argv.
Proof.
  intros He Hi Ha r. destruct (pushes_words [argv; init; 0] c) as (W1 & W2 & _); [cbn; lia|]. change (4 * Z.of_nat (length [argv; init; 0])) with 12 in W1.
  change (esp r) with (esp (pushes [argv; init; 0] c)). change (c_mem r) with (c_mem (pushes [argv; init; 0] c)). rewrite W1. split_and!; [done|lia| |].
  - etransitivity; [|by apply u32_small]. etransitivity; [|exact (W2 1%nat init eq_refl)]. apply (f_equal (ld32 _)). lia.
  - etransitivity; [|by apply u32_small]. etransitivity; [|exact (W2 0%nat argv eq_refl)]. apply (f_equal (ld32 _)). lia.
Qed.

(** ** Examples *)
Definition user_cpu : cpu :=
  mkCpu (fun r => 0x1000 + Z.of_nat (reg_num r)) (fun s => match s with CS => 0x1B | _ => 0x23 end) 0x42 0x202 (fun _ => 0).
Definition kernel_cpu (stack old new : Z) : cpu :=
  mkCpu (fun r => match r with ESP => stack | _ => 7 + Z.of_nat (reg_num r) end) (fun s => match s with CS => 8 | _ => 0x10 end) 0x100200 2
    (st32 (st32 (st32 (fun _ => 0) stack 0x100777) (stack + 4) old) (stack + 8) new).
Definition other_cpu : cpu :=
  (kernel_cpu 0x5000 0x3100 0x1FF0) <| c_mem := st32 (st32 (c_mem (run swtch (kernel_cpu 0x2000 0x3000 0x4000))) 0x5004 0x3100) 0x5008 0x1FF0 |>.

Lemma interrupt_transparent_witness : same_cpu user_cpu (run trapret (run alltraps_return (enter 0x8000 (SETGATE true 8 0x100400 3) None 64 user_cpu))).
Proof.
  refine (interrupt_transparent 0x8000 (SETGATE true 8 0x100400 3) None 64 user_cpu _ _ _ _ _ _ eq_refl eq_refl _ (fun x _ => eq_refl)).
  - constructor; try (intros []); cbn; lia.
  - split; [vm_compute; congruence|vm_compute; reflexivity].
  - reflexivity.
  - lia.
  - reflexivity.
  - discriminate.
Defined.

Lemma kernel_cpu_ok : swtch_ok (kernel_cpu 0x2000 0x3000 0x4000).
Proof.
  assert (E1 : swtch_old (kernel_cpu 0x2000 0x3000 0x4000) = 0x3000) by (vm_compute; reflexivity).
  assert (E2 : swtch_new (kernel_cpu 0x2000 0x3000 0x4000) = 0x4000) by (vm_compute; reflexivity).
  constructor; rewrite ?E1, ?E2; cbn; try lia. constructor; try (intros []); cbn; lia.
Qed.
Lemma other_cpu_ok : swtch_ok other_cpu.
Proof.
  assert (E1 : swtch_old other_cpu = 0x3100) by (vm_compute; reflexivity). assert (E2 : swtch_new other_cpu = 0x1FF0) by (vm_compute; reflexivity).
  constructor; rewrite ?E1, ?E2; cbn; try lia. constructor; try (intros []); cbn; lia.
Qed.
Lemma swtch_resumes_witness : c_eip (run swtch other_cpu) = 0x100777 /\ esp (run swtch other_cpu) = 0x2004.
Proof.
  destruct (swtch_resumes (kernel_cpu 0x2000 0x3000 0x4000) other_cpu kernel_cpu_ok other_cpu_ok) as (E1 & E2 & _).
  - vm_compute. reflexivity.
  - intros x Hx. change (esp (kernel_cpu 0x2000 0x3000 0x4000)) with 0x2000 in Hx. change (c_mem other_cpu x) with (st32 (st32 (c_mem (run swtch (kernel_cpu 0x2000 0x3000 0x4000))) 0x5004 0x3100) 0x5008 0x1FF0 x).
    rewrite !st32_other by lia. reflexivity.
  - rewrite E1, E2. split; vm_compute; reflexivity.
Defined.
